(* ===== verification/_CoqProject ===== *)
-Q . S2P
Prelude.v
Bytes.v
PaxosTypes.v
EvConfig.v
Strtok.v
MessagePack.v
TypesPack.v
Peers.v
Carray.v
Quorum.v
KhashInterface.v
KhashProbe.v
Khash.v
KhashResize.v
Storage.v
StorageUtils.v
StorageLmdb.v
Acceptor.v
AcceptorLmdb.v
EvAcceptor.v
Proposer.v
EvProposer.v
Learner.v
NetPaxos.v
AppConfig.v
NetSequencer.v
NetAcceptor.v
NetCoordinator.v
EvLearner.v
NetLearner.v
EvReplica.v
Counter.v
CounterInv.v
UnitTests.v
Uthash.v
UthashInv.v
Proxy.v
ProxyInv.v
EchoServer.v
Caans.v
CaansInv.v
Consensus.v
AcceptorInv.v
ProposerInv.v
ConsensusInv.v
Agreement.v
Repeat.v
P4Packet.v
P4Dpdk.v
P4Sim.v
P4App.v
P4Runtime.v
P4Conserve.v
P4Worker.v
P4Timers.v
P4Replica.v
P4Plane.v
P4Programs.v
P4Args.v
P4ArgsInv.v
P4Store.v
P4Clients.v
