(* ===== verification/Prelude.v ===== *)
(** * Verification of libpaxos

    libpaxos is a library for state machine replication with Multi-Paxos.  Its
    core ([src/paxos]) is three state machines that exchange messages: a
    proposer ([proposer.c]), an acceptor ([acceptor.c]) over a storage backend
    ([storage.c], [storage_mem.c], [storage_lmdb.c], [storage_utils.c]) and a
    learner ([learner.c]), with the data structures they use ([khash.h],
    [carray.c], [quorum.c], [paxos.c], [paxos_types.h]).  [src/evpaxos] runs them
    as processes on TCP with libevent: the connections ([peers.c]), the wire
    format ([message.c], [paxos_types_pack.c]), the configuration file
    ([config.c]) and one file of handlers per role ([evacceptor.c],
    [evproposer.c], [evlearner.c], [evreplica.c]).  [src/net] runs them on UDP: the
    datagram format ([message_pack.c]), the context and sockets ([netpaxos.c],
    [netutils.c]), clients and a sequencer ([proposer.c], [sequencer.c]), and the
    acceptor, coordinator, learner and replica ([acceptor.c], [coordinator.c],
    [learner.c], [replica.c]).  [src/p4xos] runs them on a data plane of DPDK, with
    messages in the headers of packets: I/O cores read packets from the network
    cards and hand them through rings to worker cores, which run the handlers and
    hand their answers to the I/O cores that send ([net_util.c], [runtime.c],
    [init.c], [config.c], [p4xos_acceptor.c], [p4xos_leader.c], [p4xos_learner.c],
    [p4xos_proposer.c], [dpdk_paxos.c]); [src/dppaxos] has its programs and
    [src/datastore] the key-value store they replicate.  Applications on these are
    in [src/sample] (a replicated counter on the replica process; a proxy for
    clients with a learner that echoes) and in [src/caans] (clients, a proxy and
    learners with a key-value store on the UDP processes), and [src/unit] has the
    unit tests.

    ** How the model is written

    The C functions are Rocq functions of the same name.  A struct is a record
    and is passed and returned explicitly; a function that may fail an [assert],
    read or write outside an array, go through NULL or not end returns [option],
    and [None] stands for these.  An integer is a [Z] kept at its width by [u8],
    [u16], [u32] and [i32].  Memory that is freed is not modelled, with one
    exception: [learner_deliver_next] reads an instance it has freed, and what it
    reads is an argument.  Time ([gettimeofday]) is an argument.

    Code outside the repository is a class with its documented behaviour as laws
    and a reference instance that satisfies them, on which the examples are
    evaluated: LMDB ([StorageLmdb.Lmdb], [LmdbLaws], by which any call may return an
    error, [LmdbReads], by which reads do not, [ref_lmdb_laws]) and msgpack
    ([TypesPack.Msgpack], [MsgpackLaws], [MsgpackFormat.format_laws]).  What the
    operating system decides about datagrams is the class [NetPaxos.Os]; theorems
    that need it assume that it accepts what is sent.  DPDK is [P4Dpdk.Dpdk] with
    [DpdkLaws] over a view of the packets obtained (read or allocated), sent, freed and
    in rings ([P4Sim.sim_laws]), [P4Conserve.DpdkPool] (packets that are read are new, and
    the card takes a burst whole or not at all) and [P4Programs.P4AllocLaws];
    [P4Packet.Eth] has the addresses and checksums of the card, [P4Worker.P4Env] with
    [P4Plane.P4EnvLaws] the clock, the timers and the application's callback,
    [P4Args.Strings] the string functions of the command line, [P4Store.RocksDb] with
    [RocksDbLaws] the databases, [P4Clients.Sched] the packet scheduler and
    [P4Clients.ClockLaws] the clock.  Of the applications, [Proxy.Malloc] with
    [MallocLaws] gives the addresses of new blocks and [Caans.KvDb] with
    [CaansInv.KvDbLaws] is LevelDB or RocksDB.  The
    interfaces between the components are classes too: [KHash] (the hash table
    as its clients see it, instance [khash_KHash]) and [StorageApi] with
    [StorageTx] and [StorageLaws] (the storage as the acceptor sees it, without and with
    reads that do not fail; instances [lmdb_storage_tx], [mem_storage_laws] and
    [lmdb_storage_laws]).

    ** The files

    - [Prelude]: machine integers, C arrays, the hint and rewrite databases.
      [Bytes]: little- and big-endian encodings and byte buffers.
    - [PaxosTypes] ([paxos_types.h], [paxos.h], [paxos.c]): messages, values,
      configuration.
    - [Carray] ([carray.c]), [Quorum] ([quorum.c]).
    - [KhashInterface], [KhashProbe], [Khash], [KhashResize] ([khash.h]): the
      interface, the bit operations and the probe sequence, the table, and
      resizing.
    - [Storage] ([storage.c], [storage_mem.c]), [StorageUtils]
      ([storage_utils.c]), [StorageLmdb] ([storage_lmdb.c]).
    - [Acceptor] ([acceptor.c]), [AcceptorLmdb] (the acceptor over LMDB).
    - [Proposer] ([proposer.c]), [Learner] ([learner.c]).
    - [Consensus], [AcceptorInv], [ProposerInv], [ConsensusInv], [Agreement],
      [Repeat]: the protocol as a step relation over the handlers, its invariant
      and the safety theorems.
    - [MessagePack] ([net/message_pack.c]), [TypesPack] ([paxos_types_pack.c],
      [message.c]), [EvConfig] ([config.c]), [Peers] ([peers.c]).
    - [EvAcceptor], [EvProposer], [EvLearner], [EvReplica] ([evacceptor.c],
      [evproposer.c], [evlearner.c], [evreplica.c]).
    - [NetPaxos] ([net/netpaxos.c], [net/netutils.c]), [NetSequencer]
      ([net/proposer.c], [net/sequencer.c]), [NetAcceptor] ([net/acceptor.c]),
      [NetCoordinator] ([net/coordinator.c]), [NetLearner] ([net/learner.c],
      [net/replica.c]).
    - [P4Packet] ([p4xos/src/net_util.c], [dpp_paxos.h]): frames and headers.
      [P4Dpdk], [P4Sim]: DPDK and an instance of it.  [P4App] ([main.h], [init.c],
      lookups of [config.c]): the cores and their rings.  [P4Runtime]
      ([runtime.c]): the loops of the cores, and [P4Conserve]: the plane as a
      step relation over them, with any callback of the workers.
    - [P4Worker] ([p4xos_acceptor.c], [p4xos_leader.c] and the handlers of
      [p4xos_learner.c], [p4xos_proposer.c]), [P4Timers] (what the workers send on
      their own, the initialisation of [init.c], the programs of [dppaxos/src]).
      [P4Replica], [P4Programs]: theorems on the handlers and the programs.
      [P4Plane]: the plane with the Paxos handlers and the timers.
    - [P4Args] (the command line of [config.c]), [P4ArgsInv]: what it leaves behind.
    - [P4Store] ([datastore/src], the callbacks of [dpdk_replica.c] and
      [dpdk_learner.c]): the key-value store.  [P4Clients] ([dpdk_proposer.c],
      [xclient.c]): the clients.
    - [Counter] ([sample/counter.c]) and [CounterInv]: several replicas as a step
      relation over its callbacks, with restarts.
    - [Uthash] ([sample/include/uthash.h]) on an explicit memory, [UthashInv]: its
      invariant.  [Proxy] ([sample/proxy.c]), [ProxyInv]: the pending requests.
      [EchoServer] ([sample/learner.c]).
    - [Strtok]: the string functions of the line readers.  [AppConfig]
      ([sample/application_config.c], [caans/configuration.c]).
    - [Caans] ([message.c], [client.c], [pktgen4learner.c], [application_proxy.c],
      [learner.c], [rock_learner.c], [leveldb_context.c], [rocksdb_context.c] of
      [src/caans]), [CaansInv]: theorems on them.
    - [UnitTests] ([src/unit]): the tests as expressions over the definitions.

    ** What the theorems show

    Consensus.  In every reachable state of a network that loses, duplicates and
    reorders messages and in which acceptors restart from their storage, learners
    agree, deliver only proposed values that a majority accepted, and deliver in
    order ([agreement], [validity], [ordered_delivery]); the network refines an
    abstract object that decides a value per instance once
    ([network_refines_consensus]).  The network has the messages of the processes
    of [src/evpaxos] except the answers to repeat requests, with which agreement fails
    ([repeat_breaks_agreement]); the values of clients have at least one byte; reads of
    the storage do not fail.  The gap recovery of the UDP learner
    ([learner_prepare], [learner_receive_promise], [learner_receive_preempted]) is
    modelled in [Learner] and [NetLearner] but is not a step of this network.

    Acceptor and storage.  The handlers have the effect of the protocol on the
    durable records over every storage whose reads do not fail
    ([acceptor_prepare_promises], [acceptor_accept_votes],
    [acceptor_trim_keeps_later]); over LMDB they are atomic whatever call fails,
    but a failed read is taken for a missing record ([lmdb_accept_atomic],
    [lmdb_prepare_atomic], [failed_read_forgets_promise]); the
    two stores implement a finite map with a trim point
    ([mem_storage_put_get], [mem_storage_trim_exact], [lmdb_trim_exact],
    [accepted_buffer_roundtrip]).

    Data structures.  The hash table is a finite map ([kh_put_refines_insert],
    [kh_get_refines_lookup]), the circular array a queue
    ([carray_implements_queue]), the quorum a count of distinct acceptors
    ([quorum_counts_distinct]).

    Communication.  Messages survive both wire formats
    ([message_stream_roundtrip], [message_pack_roundtrip]) and any cutting of the
    TCP stream ([chunked_delivery]); the configuration file is read as written
    and within bounds ([config_roundtrip], [config_read_bounds]); client
    connections stay consistent ([client_event_removes]).

    Processes.  The proposer sends exactly the accept requests that are ready and
    keeps its window of open instances full ([try_accept_keeps_window]), and sends again
    what timed out ([check_timeouts_resends]);
    the learner delivers all that is decided and asks for a bounded number of
    missing instances ([accepted_delivers], [check_holes_bounded]); the acceptor
    answers the right processes ([accept_request_answered], [repeat_answered]);
    a replica dispatches messages to its roles and submits values
    ([replica_dispatch_order], [submit_first_connected]).

    UDP processes.  The coordinator does what the TCP proposer does
    ([coordinator_same_as_evproposer]) with the values clients submit
    ([submitted_value_proposed]); the sequencer numbers requests consecutively
    ([sequencer_numbers]); the acceptor announces its votes
    ([udp_accept_answered]); the learner handles a batch of datagrams as its
    messages in order ([udp_batch_in_order]).

    Data plane.  A message survives the packet format ([prepared_message_parses])
    and ARP requests are answered ([arp_request_answered]).  An accepted command line
    gives every queue to one core and sizes that fit ([parsed_args_ready]); the
    workers are numbered ([worker_ids_assigned]) and connected with the I/O cores
    ([rings_rx_wired]).  The pipelined loop of the I/O cores is the plain one
    ([rx_dispatch_in_order]) and gives each worker its packets in order
    ([rx_queue_delivers]).  However the calls on the cores are interleaved no packet is
    lost or duplicated ([packets_conserved]), also with the Paxos handlers on the
    workers and the timers ([paxos_plane_conserves]), as long as the timers leave the
    buffers below the burst size ([overfull_buffer_loses]).  Accept and prepare
    requests in packets make the acceptor take the steps of the abstract acceptor ([accept_packet_answered],
    [prepare_packet_answered]); a learner asks for its holes
    ([holes_requested]).  The store executes what is delivered as finite maps do
    ([store_refines_kv]), and the answer to a chosen request goes to the client
    ([chosen_request_executed]), both as long as no call of RocksDB fails.

    Applications.  The replicas of the counter agree with the log, also after
    restarts ([counter_consistent]), and never trim what one of them still needs
    ([counter_trim_safe]).  The hash table of the proxy is a list of elements
    ([uthash_refines_list]).  The proxy as it is built makes requests of its own,
    one per answer ([proxy_makes_requests]); with the callbacks for clients, which its
    main function does not install, a client would get its first bytes back
    ([echo_round_trip]); all requests are freed in the end
    ([clean_requests_frees_all]).  The commands of CAANS clients come back to
    them ([caans_round_trip]) and are executed as on a table, but for failed writes
    ([caans_store_refines_table]); both configuration files are read as printed
    ([caans_config_roundtrip], [sample_config_roundtrip]).  The client of the data
    plane frees and counts each answer once and logs its latency ([xclient_burst]).

    Tests.  The unit tests of the repository pass on the definitions
    ([unit_tests_pass]), which checks the model against the expectations of
    its authors.

    Flaws.  The theorems [refused_accept_delivered],
    [refused_prepare_looks_granted], [leaders_share_ballots],
    [acceptor_program_crashes], [send_burst_resends], [echo_reply_cksum_wrong],
    [burst_check_wraps], [failed_write_acknowledged], [learner_writes_to_null],
    [sizes_ignored], [gap_accept_truncated], [replica_hears_nothing],
    [benchmark_overreads], [repeat_loop_forever], [check_timeouts_forever],
    [client_value_arrives_as_prepare], [parse_error_is_read],
    [lmdb_init_aborts_committed], [config_option_without_value],
    [config_bad_replica], [get_acceptor_unbounded], [own_trim_ignored],
    [torn_checkpoint], [coalesced_answers_lost], [closed_client_used],
    [deliver_unconnected], [config_file_learner_port], [timespec_diff_negative],
    [short_request_padded], [forged_length_read], [bench_datagram_short],
    [only_first_request], [base_packet_sent_again], [failed_read_forgets_promise],
    [failed_write_answered] and [overfull_buffer_loses] state behaviour the code does
    not intend.

    ** Fuel and bounds

    Loops that are not structural have fuel, and lemmas show that the fuel the
    callers pass is enough: the probe loops of the hash table visit each bucket
    at most once ([Khash], [KhashResize]); [carray_push_rec] recurs once; the
    loop of [lmdb_storage_trim] ends with the table ([lmdb_trim_loop_total]); the
    accept loop takes an instance out of a table at each turn
    ([accept_loop_total]); a timeout loop passes a slot at each turn
    ([timeout_prepare_loop_total]); delivery removes an instance at each turn
    ([deliver_loop_total]); [on_read] consumes a byte at each turn; the repeat
    loop has one turn per instance ([repeat_loop_total]).  The loops of [P4Runtime]
    over a burst have one turn per packet ([rx_dispatch_in_order] has no bound to
    assume); [app_send_burst] takes as many rounds as packets when the card takes one in
    each ([send_burst_resends]); the parsers of [P4Args] consume a character at
    each turn ([tuples_enough], [w_loop_enough], [lpm_loop_enough]), as do the line
    readers of [AppConfig] ([populate_tokens_fuel], [parse_tokens_fuel]).  The loops
    of [Uthash] follow chains of distinct elements of the memory, and its size is
    their fuel ([uthash_refines_list] states that they return).  The main loop of
    [xclient.c] runs until enough values are delivered: [rx_loop] has the number of
    rounds to look at.  Tables grow up to
    [KH_LIMIT] = 2^29 elements and the queue of values to 2^30, beyond which the
    size computations of the C code overflow; instance ids stay below 2^32.

    ** Not modelled

    Functions that only free memory, logging and printing, and socket options.  Of
    [src/p4xos]: the set-up of the network cards ([app_init_nics],
    [check_all_ports_link_status]) and of the packet scheduler, the code under
    [RATE_LIMITER] and [RESUBMIT], both off in the build of this library,
    [flush_port] and [register_cb].  Of
    [src/dppaxos] the set-up of [xclient.c] and the callbacks that print statistics.
    The main functions of [src/sample] and [src/caans] read arguments, install
    signal handlers and enter the event loop, whose callbacks are modelled.  The
    programs of [src/benchmark], [src/leveldb-bench], [src/rockspaxos] and
    [src/udp_server] measure libraries and sockets around no state of their own.
    The test of [src/unit/replica_unittest.cc] runs threads over TCP, and googletest,
    which [src/unit/gtest] bundles, is third-party code. *)

From Stdlib Require Export ZArith Lia.
From Stdlib.Strings Require Export Byte.
From stdpp Require Export base numbers list option gmap.

#[global] Open Scope Z_scope.

(** ** Machine integers

    A C integer of width [w] is a [Z]; a conversion to the width is written
    out.  [uW x] is the unsigned conversion of C11 6.3.1.3, [i32 x] the
    two's-complement conversion to [int] the compilers of this code use. *)

Definition u8 (x : Z) : Z := x mod 2 ^ 8.
Definition u16 (x : Z) : Z := x mod 2 ^ 16.
Definition u32 (x : Z) : Z := x mod 2 ^ 32.
Definition i32 (x : Z) : Z := (x + 2 ^ 31) mod 2 ^ 32 - 2 ^ 31.

Definition INT_MAX : Z := 2 ^ 31 - 1.
Definition UINT32_MAX : Z := 2 ^ 32 - 1.

Declare Scope cint_scope.
Delimit Scope cint_scope with cint.
Notation "'is_u16' x" := (0 <= x < 2 ^ 16) (at level 70, x at level 0) : cint_scope.
Notation "'is_u32' x" := (0 <= x < 2 ^ 32) (at level 70, x at level 0) : cint_scope.
Notation "'is_i32' x" := (- 2 ^ 31 <= x < 2 ^ 31) (at level 70, x at level 0) : cint_scope.
#[global] Open Scope cint_scope.

(** ** C arrays

    [arr_get a i] is the read [a[i]] and [arr_set a i x] the write
    [a[i] = x]; [None] is an access outside the allocated array, whose
    behaviour C does not define. *)

Definition arr_get {A} (a : list A) (i : Z) : option A :=
  if (0 <=? i) then a !! Z.to_nat i else None.

Definition arr_set {A} (a : list A) (i : Z) (x : A) : option (list A) :=
  if (0 <=? i) && (i <? Z.of_nat (length a)) then Some (<[Z.to_nat i := x]> a)
  else None.

(** [assert_ b]: the C [assert], [None] being the aborted process. *)
Definition assert_ (b : bool) : option unit := if b then Some tt else None.

(** ** Bytes *)

Definition byte_of_Z (z : Z) : byte :=
  default x00 (Byte.of_N (Z.to_N (z mod 256))).
Definition Z_of_byte (b : byte) : Z := Z.of_N (Byte.to_N b).

(** ** Lemmas on machine integers *)

Lemma u16_small x : is_u16 x -> u16 x = x.
Proof. apply Z.mod_small. Qed.

Lemma u32_small x : is_u32 x -> u32 x = x.
Proof. apply Z.mod_small. Qed.

Lemma u16_range x : is_u16 (u16 x).
Proof. by apply Z.mod_pos_bound. Qed.

Lemma u32_range x : is_u32 (u32 x).
Proof. by apply Z.mod_pos_bound. Qed.

Lemma i32_small x : is_i32 x -> i32 x = x.
Proof. intros ?. unfold i32. rewrite Z.mod_small; lia. Qed.

Create HintDb cint.
Create Rewrite HintDb cint.
#[export] Hint Resolve u16_range u32_range : cint.
#[export] Hint Rewrite u16_small u32_small i32_small using lia : cint.

(** [simpl_int] removes the conversions that a range hypothesis makes the
    identity. *)
Ltac simpl_int := autorewrite with cint in *.

(** ** Lemmas on bytes *)

#[global] Instance byte_eq_decision : EqDecision byte := Byte.byte_eq_dec.

Lemma Z_of_byte_range b : 0 <= Z_of_byte b < 256.
Proof. unfold Z_of_byte. pose proof (Byte.to_N_bounded b). lia. Qed.

Lemma Z_of_byte_of_Z z : Z_of_byte (byte_of_Z z) = z mod 256.
Proof.
  unfold Z_of_byte, byte_of_Z.
  pose proof (Z.mod_pos_bound z 256 ltac:(lia)) as Hz.
  destruct (Byte.of_N (Z.to_N (z mod 256))) as [b|] eqn:Hb; simpl.
  - apply Byte.to_of_N in Hb. rewrite Hb. lia.
  - apply Byte.of_N_None_iff in Hb. lia.
Qed.

Lemma byte_of_Z_of_byte b : byte_of_Z (Z_of_byte b) = b.
Proof.
  unfold Z_of_byte, byte_of_Z.
  pose proof (Byte.to_N_bounded b).
  rewrite Z.mod_small by lia. rewrite N2Z.id, Byte.of_to_N. done.
Qed.

(** ** Lemmas on arrays *)

Lemma arr_get_Some {A} (a : list A) i x :
  arr_get a i = Some x <-> 0 <= i /\ a !! Z.to_nat i = Some x.
Proof. unfold arr_get. destruct (Z.leb_spec 0 i); naive_solver lia. Qed.

Lemma arr_get_lt {A} (a : list A) i x :
  arr_get a i = Some x -> 0 <= i < Z.of_nat (length a).
Proof. intros [? ?%lookup_lt_Some]%arr_get_Some. lia. Qed.

Lemma arr_get_in {A} (a : list A) i :
  0 <= i < Z.of_nat (length a) -> is_Some (arr_get a i).
Proof.
  intros Hi. unfold arr_get. rewrite (proj2 (Z.leb_le 0 i)) by lia.
  apply lookup_lt_is_Some. lia.
Qed.

Lemma arr_set_Some {A} (a a' : list A) i x :
  arr_set a i x = Some a' <->
  0 <= i < Z.of_nat (length a) /\ a' = <[Z.to_nat i := x]> a.
Proof.
  unfold arr_set.
  destruct (Z.leb_spec 0 i), (Z.ltb_spec i (Z.of_nat (length a)));
    simpl; naive_solver lia.
Qed.

Lemma arr_set_length {A} (a a' : list A) i x :
  arr_set a i x = Some a' -> length a' = length a.
Proof. intros [_ ->]%arr_set_Some. apply length_insert. Qed.

Lemma arr_set_in {A} (a : list A) i x :
  0 <= i < Z.of_nat (length a) -> is_Some (arr_set a i x).
Proof. intros. eexists. by apply arr_set_Some. Qed.

Lemma arr_get_set {A} (a a' : list A) i j x :
  arr_set a i x = Some a' ->
  arr_get a' j = if decide (i = j) then Some x else arr_get a j.
Proof.
  intros [Hi ->]%arr_set_Some. unfold arr_get.
  destruct (Z.leb_spec 0 j); case_decide; subst; try lia; try done.
  - rewrite list_lookup_insert_eq; [done | lia].
  - rewrite list_lookup_insert_ne; [done | lia].
Qed.

(** [destruct_or_fail]: case analysis on the scrutinee of an [option] bind in
    a hypothesis. *)
Ltac simplify_bind :=
  repeat match goal with
  | H : mbind _ ?m = Some _ |- _ =>
      let E := fresh "E" in
      destruct m eqn:E; simpl in H; [| discriminate H]
  | H : (if ?b then Some _ else None) = Some _ |- _ =>
      let E := fresh "E" in
      destruct b eqn:E; simpl in H; [| discriminate H]
  end.
