(* ===== verification/Bytes.v ===== *)
(** * Byte buffers and integers in memory

    Reads and writes in a [char] buffer, and integers as sequences of bytes in
    little-endian order (a struct copied with [memcpy] on the machines this code
    runs on) and in network order ([htonl], [htons]).  [None] is an access
    outside the buffer. *)

From S2P Require Import Prelude.

(** Bytes as keys of maps. *)
#[global] Instance byte_countable : Countable byte := inj_countable Byte.to_N Byte.of_N Byte.of_to_N.

(** ** Integers as bytes *)

(** The [n] low bytes of [w], least significant first. *)
Fixpoint le_split (n : nat) (w : Z) : list byte :=
  match n with
  | O => []
  | S n => byte_of_Z w :: le_split n (w / 256)
  end.

Fixpoint le_combine (l : list byte) : Z :=
  match l with
  | [] => 0
  | b :: l => Z_of_byte b + 256 * le_combine l
  end.

(** Network order. *)
Definition be_split (n : nat) (w : Z) : list byte := rev (le_split n w).
Definition be_combine (l : list byte) : Z := le_combine (rev l).

Lemma length_le_split n w : length (le_split n w) = n.
Proof. revert w. induction n; intros w; simpl; [done|]. by rewrite IHn. Qed.

Lemma length_be_split n w : length (be_split n w) = n.
Proof. unfold be_split. by rewrite length_rev, length_le_split. Qed.

Lemma le_combine_split n w : le_combine (le_split n w) = w mod 256 ^ Z.of_nat n.
Proof.
  revert w. induction n as [|n IH]; intros w; simpl; [by rewrite Z.mod_1_r|].
  rewrite Z_of_byte_of_Z, IH. replace (Z.of_nat (S n)) with (1 + Z.of_nat n) by lia.
  rewrite Z.pow_add_r, Z.pow_1_r by lia.
  pose proof (Z.pow_pos_nonneg 256 (Z.of_nat n) ltac:(lia) ltac:(lia)).
  rewrite Z.rem_mul_r by lia. done.
Qed.

Lemma be_combine_split n w : be_combine (be_split n w) = w mod 256 ^ Z.of_nat n.
Proof. unfold be_combine, be_split. by rewrite rev_involutive, le_combine_split. Qed.

Lemma le_combine_range l : 0 <= le_combine l < 256 ^ Z.of_nat (length l).
Proof.
  induction l as [|b l IH]; cbn [le_combine length]; [done|].
  pose proof (Z_of_byte_range b). replace (Z.of_nat (S (length l))) with (1 + Z.of_nat (length l)) by lia.
  rewrite Z.pow_add_r, Z.pow_1_r by lia. lia.
Qed.

Lemma be_combine_range l : 0 <= be_combine l < 256 ^ Z.of_nat (length l).
Proof. unfold be_combine. rewrite <- length_rev. apply le_combine_range. Qed.

(** ** Buffers *)

Definition write_at (p : list byte) (off : Z) (bs : list byte) : option (list byte) :=
  if (0 <=? off) && (off + Z.of_nat (length bs) <=? Z.of_nat (length p))
  then Some (take (Z.to_nat off) p ++ bs ++ drop (Z.to_nat off + length bs) p)
  else None.

Definition read_at (p : list byte) (off n : Z) : option (list byte) :=
  if (0 <=? off) && (0 <=? n) && (off + n <=? Z.of_nat (length p))
  then Some (take (Z.to_nat n) (drop (Z.to_nat off) p))
  else None.

Lemma write_at_in p off bs :
  0 <= off -> off + Z.of_nat (length bs) <= Z.of_nat (length p) -> is_Some (write_at p off bs).
Proof.
  intros. unfold write_at.
  rewrite (proj2 (Z.leb_le 0 off)), (proj2 (Z.leb_le _ (Z.of_nat (length p)))) by lia. by eexists.
Qed.

Lemma write_at_Some p off bs p' :
  write_at p off bs = Some p' ->
  0 <= off /\ off + Z.of_nat (length bs) <= Z.of_nat (length p) /\ length p' = length p /\
  forall i, p' !! i = if decide (Z.to_nat off <= i < Z.to_nat off + length bs)%nat
                      then bs !! (i - Z.to_nat off)%nat else p !! i.
Proof.
  unfold write_at. destruct (Z.leb_spec 0 off); simpl; [|done].
  destruct (Z.leb_spec (off + Z.of_nat (length bs)) (Z.of_nat (length p))); [|done]. intros [= <-].
  do 2 (split; [done|]). split.
  { rewrite !length_app, length_take, length_drop. lia. }
  intros i. destruct (decide _) as [Hi|Hi].
  - rewrite lookup_app_r, lookup_app_l; rewrite length_take; [f_equal; lia|lia|lia].
  - destruct (decide (i < Z.to_nat off)%nat).
    + rewrite lookup_app_l by (rewrite length_take; lia). by apply lookup_take_lt.
    + rewrite !lookup_app_r; rewrite ?length_take; [|lia..]. rewrite lookup_drop. f_equal. lia.
Qed.

Lemma read_at_in p off n :
  0 <= off -> 0 <= n -> off + n <= Z.of_nat (length p) ->
  exists bs, read_at p off n = Some bs /\ Z.of_nat (length bs) = n.
Proof.
  intros. unfold read_at.
  rewrite (proj2 (Z.leb_le 0 off)), (proj2 (Z.leb_le 0 n)), (proj2 (Z.leb_le _ (Z.of_nat (length p)))) by lia.
  eexists; split; [done|]. rewrite length_take, length_drop. lia.
Qed.

Lemma read_at_Some p off n bs :
  read_at p off n = Some bs <->
  0 <= off /\ 0 <= n /\ off + n <= Z.of_nat (length p) /\ bs = take (Z.to_nat n) (drop (Z.to_nat off) p).
Proof.
  unfold read_at. destruct (Z.leb_spec 0 off), (Z.leb_spec 0 n), (Z.leb_spec (off + n) (Z.of_nat (length p)));
    simpl; naive_solver lia.
Qed.

(** Reading what was written. *)
Lemma read_write_same p off bs p' :
  write_at p off bs = Some p' -> read_at p' off (Z.of_nat (length bs)) = Some bs.
Proof.
  intros (Ho & Hle & Hlen & Hl)%write_at_Some. apply read_at_Some.
  do 2 (split; [lia|]). split; [lia|]. rewrite Nat2Z.id. apply list_eq. intros i.
  destruct (decide (i < length bs)%nat) as [Hi|Hi].
  - rewrite lookup_take_lt, lookup_drop, Hl by done. rewrite decide_True by lia. f_equal. lia.
  - rewrite lookup_take_ge by lia. by apply lookup_ge_None_2; lia.
Qed.

(** A write elsewhere does not change what is read. *)
Lemma read_write_other p off bs p' off' n :
  write_at p off bs = Some p' -> off' + n <= off \/ off + Z.of_nat (length bs) <= off' ->
  read_at p' off' n = read_at p off' n.
Proof.
  intros (Ho & Hle & Hlen & Hl)%write_at_Some Hdis. unfold read_at. rewrite Hlen.
  destruct (Z.leb_spec 0 off'), (Z.leb_spec 0 n), (Z.leb_spec (off' + n) (Z.of_nat (length p))); simpl; try done.
  f_equal. apply list_eq. intros i. destruct (decide (i < Z.to_nat n)%nat) as [Hi|Hi].
  - rewrite !lookup_take_lt, !lookup_drop, Hl by done. rewrite decide_False by lia. done.
  - by rewrite !lookup_take_ge by lia.
Qed.

(** A prefix that contains the range reads the same. *)
Lemma read_at_take p L off n :
  off + n <= L -> L <= Z.of_nat (length p) -> read_at (take (Z.to_nat L) p) off n = read_at p off n.
Proof.
  intros Hr HL. unfold read_at. rewrite length_take.
  destruct (Z.leb_spec 0 off), (Z.leb_spec 0 n); simpl; try done.
  rewrite !(proj2 (Z.leb_le _ _)) by lia. f_equal. apply list_eq. intros i.
  destruct (decide (i < Z.to_nat n)%nat) as [Hi|Hi].
  - rewrite !lookup_take_lt, !lookup_drop by done. rewrite lookup_take_lt by lia. done.
  - by rewrite !lookup_take_ge by lia.
Qed.

(** Reading a segment of a concatenation. *)
Lemma read_at_app a b c off n :
  off = Z.of_nat (length a) -> n = Z.of_nat (length b) -> read_at (a ++ b ++ c) off n = Some b.
Proof.
  intros -> ->. apply read_at_Some. rewrite !length_app. do 3 (split; [lia|]).
  rewrite !Nat2Z.id, drop_app_length, take_app_length. done.
Qed.

Lemma read_at_app_r a b off n :
  off = Z.of_nat (length a) -> n = Z.of_nat (length b) -> read_at (a ++ b) off n = Some b.
Proof. intros. rewrite <- (app_nil_r (a ++ b)), <- (assoc_L (++)). by apply read_at_app. Qed.

Lemma read_at_shift a b off n :
  Z.of_nat (length a) <= off -> read_at (a ++ b) off n = read_at b (off - Z.of_nat (length a)) n.
Proof.
  intros Ho. unfold read_at. rewrite length_app.
  destruct (Z.leb_spec 0 off), (Z.leb_spec 0 (off - Z.of_nat (length a))); try lia. simpl.
  destruct (Z.leb_spec 0 n); simpl; [|done].
  destruct (Z.leb_spec (off + n) (Z.of_nat (length a + length b))),
    (Z.leb_spec (off - Z.of_nat (length a) + n) (Z.of_nat (length b))); try lia; [|done].
  f_equal. f_equal. rewrite drop_app_ge by lia. f_equal. lia.
Qed.

Lemma read_at_prefix p r o n bs : read_at p o n = Some bs -> read_at (p ++ r) o n = Some bs.
Proof.
  intros (Ho & Hn & Hle & ->)%read_at_Some. apply read_at_Some. rewrite length_app.
  split; [done|]. split; [done|]. split; [lia|].
  rewrite drop_app_le, take_app_le by (rewrite ?length_drop; lia). done.
Qed.

(** A write within a prefix. *)
Lemma write_at_prefix p r o bs p' :
  write_at p o bs = Some p' -> write_at (p ++ r) o bs = Some (p' ++ r).
Proof.
  unfold write_at. destruct (Z.leb_spec 0 o); simpl; [|done].
  destruct (Z.leb_spec (o + Z.of_nat (length bs)) (Z.of_nat (length p))); [|done]. intros [= <-].
  rewrite (proj2 (Z.leb_le _ _)) by (rewrite length_app; lia). f_equal.
  rewrite take_app_le, drop_app_le by lia. by rewrite <- !(assoc_L (++)).
Qed.

(** ** Fields

    A struct in a buffer is written field by field. *)

Fixpoint write_fields (p : list byte) (l : list (Z * list byte)) : option (list byte) :=
  match l with
  | [] => Some p
  | (off, bs) :: l => p ← write_at p off bs; write_fields p l
  end.

(** The [n] bytes at [off] and the field [f] do not overlap. *)
Definition apart (off n : Z) (f : Z * list byte) : Prop :=
  off + n <= f.1 \/ f.1 + Z.of_nat (length f.2) <= off.

(** The fields are in a buffer of [size] bytes and do not overlap. *)
Fixpoint fields_ok (size : Z) (l : list (Z * list byte)) : Prop :=
  match l with
  | [] => True
  | (off, bs) :: l =>
      (0 <= off /\ off + Z.of_nat (length bs) <= size) /\
      Forall (apart off (Z.of_nat (length bs))) l /\ fields_ok size l
  end.

(** Every field reads as written, and the rest of the buffer as before. *)
Lemma write_fields_spec p l :
  fields_ok (Z.of_nat (length p)) l ->
  exists p', write_fields p l = Some p' /\ length p' = length p /\
    (forall off bs, (off, bs) ∈ l -> read_at p' off (Z.of_nat (length bs)) = Some bs) /\
    (forall off n, Forall (apart off n) l -> read_at p' off n = read_at p off n).
Proof.
  revert p. induction l as [|[o b] l IH]; intros p; simpl; [intros _; exists p; by set_solver|].
  intros ((Ho & Hle) & Hap & Hok). destruct (write_at_in p o b Ho Hle) as [p1 Hp1]. rewrite Hp1. simpl.
  pose proof (write_at_Some _ _ _ _ Hp1) as (_ & _ & Hlen & _).
  destruct (IH p1) as (p' & -> & Hlen' & Hin & Hout); [by rewrite Hlen|].
  exists p'. split; [done|]. split; [congruence|]. split.
  - intros off bs [[= -> ->]|Hl]%elem_of_cons; [|by apply Hin].
    rewrite Hout by done. by eapply read_write_same.
  - intros off n [Ha Hl]%Forall_cons. rewrite Hout by done. eapply read_write_other; [done|]. exact Ha.
Qed.

Lemma read_at_length p off n bs : read_at p off n = Some bs -> Z.of_nat (length bs) = n.
Proof. intros (? & ? & ? & ->)%read_at_Some. rewrite length_take, length_drop. lia. Qed.

(** Reading the first part of a buffer, and past it. *)
Lemma read_at_here l r n : Z.of_nat (length l) = n -> read_at (l ++ r) 0 n = Some l.
Proof.
  intros <-. apply read_at_prefix. apply read_at_Some. split; [lia|]. split; [lia|]. split; [lia|].
  change (Z.to_nat 0) with O. cbn [drop]. by rewrite Nat2Z.id, firstn_all.
Qed.

Lemma read_at_past l r n off len : Z.of_nat (length l) = n -> 0 <= off -> read_at (l ++ r) (n + off) len = read_at r off len.
Proof.
  intros <- Hoff. unfold read_at. rewrite length_app, Z2Nat.inj_add, Nat2Z.id, drop_app_add by lia.
  destruct (Z.leb_spec 0 len), (Z.leb_spec (off + len) (Z.of_nat (length r)));
    destruct (Z.leb_spec 0 off), (Z.leb_spec 0 (Z.of_nat (length l) + off)),
      (Z.leb_spec (Z.of_nat (length l) + off + len) (Z.of_nat (length l + length r))); simpl; (done || lia).
Qed.
