(* ===== verification/PaxosTypes.v ===== *)
(** * Data types of the protocol

    [paxos/include/paxos_types.h] (values, messages), the types, constants and
    configuration of [paxos/include/paxos.h], and the value functions of
    [paxos/paxos.c].

    The five structs [paxos_prepare], [paxos_promise], [paxos_accept],
    [paxos_accepted] and [paxos_preempted] have the same five fields with the
    same types; they are one record [paxos_body] here, with the C names as
    abbreviations.  A [paxos_message] is the tagged union of the C code: its
    constructors are the values of [paxos_message_type] with the member of the
    union that the tag selects.

    A [char*] is an [option (list byte)]: [None] is NULL, [Some l] an
    allocated block with contents [l].  Allocation is assumed to succeed. *)

From S2P Require Import Prelude.

(** ** Values *)

Record paxos_value := PaxosValue {
  paxos_value_len : Z;
  paxos_value_val : option (list byte);
}.

(** ** Message bodies and messages *)

Record paxos_body := PaxosBody {
  iid : Z;           (* uint32_t *)
  ballot : Z;        (* uint16_t *)
  value_ballot : Z;  (* uint16_t *)
  aid : Z;           (* uint16_t *)
  value : paxos_value;
}.

Notation paxos_prepare := paxos_body.
Notation paxos_promise := paxos_body.
Notation paxos_accept := paxos_body.
Notation paxos_accepted := paxos_body.
Notation paxos_preempted := paxos_body.

Record paxos_repeat := PaxosRepeat { from : Z; to : Z }.
Record paxos_trim := PaxosTrim { trim_iid : Z }.
Record paxos_acceptor_state := PaxosAcceptorState {
  state_aid : Z;
  state_trim_iid : Z;
}.
Record paxos_client_value := PaxosClientValue { client_value : paxos_value }.

Inductive paxos_message :=
  | PAXOS_PREPARE (prepare : paxos_prepare)
  | PAXOS_PROMISE (promise : paxos_promise)
  | PAXOS_ACCEPT (accept : paxos_accept)
  | PAXOS_ACCEPTED (accepted : paxos_accepted)
  | PAXOS_PREEMPTED (preempted : paxos_preempted)
  | PAXOS_REPEAT (repeat : paxos_repeat)
  | PAXOS_TRIM (trim : paxos_trim)
  | PAXOS_ACCEPTOR_STATE (state : paxos_acceptor_state)
  | PAXOS_CLIENT_VALUE (cv : paxos_client_value).

(** The value of the enumeration [paxos_message_type]. *)
Definition paxos_message_type (m : paxos_message) : Z :=
  match m with
  | PAXOS_PREPARE _ => 0
  | PAXOS_PROMISE _ => 1
  | PAXOS_ACCEPT _ => 2
  | PAXOS_ACCEPTED _ => 3
  | PAXOS_PREEMPTED _ => 4
  | PAXOS_REPEAT _ => 5
  | PAXOS_TRIM _ => 6
  | PAXOS_ACCEPTOR_STATE _ => 7
  | PAXOS_CLIENT_VALUE _ => 8
  end.

(** ** Constants and configuration *)

Definition MAX_N_OF_PROPOSERS : Z := 10.

Inductive paxos_log_level :=
  | PAXOS_LOG_QUIET | PAXOS_LOG_ERROR | PAXOS_LOG_INFO | PAXOS_LOG_DEBUG.

Inductive paxos_storage_backend := PAXOS_MEM_STORAGE | PAXOS_LMDB_STORAGE.

Record paxos_config := PaxosConfig {
  verbosity : paxos_log_level;
  tcp_nodelay : Z;
  netpaxos : Z;
  learner_catch_up : Z;
  proposer_timeout : Z;
  proposer_preexec_window : Z;
  storage_backend : paxos_storage_backend;
  trash_files : Z;
  lmdb_sync : Z;
  lmdb_env_path : list byte;
  lmdb_mapsize : Z;
}.

(** ["/tmp/acceptor"] *)
Definition default_lmdb_env_path : list byte :=
  [x2f; x74; x6d; x70; x2f; x61; x63; x63; x65; x70; x74; x6f; x72].

(** The initialiser of the global [paxos_config]. *)
Definition default_paxos_config : paxos_config := {|
  verbosity := PAXOS_LOG_INFO;
  tcp_nodelay := 1;
  netpaxos := 0;
  learner_catch_up := 1;
  proposer_timeout := 1;
  proposer_preexec_window := 128;
  storage_backend := PAXOS_MEM_STORAGE;
  trash_files := 0;
  lmdb_sync := 0;
  lmdb_env_path := default_lmdb_env_path;
  lmdb_mapsize := 10 * 1024 * 1024;
|}.

(** ** Functions of [paxos.c] *)

(** Integer division of C truncates towards zero. *)
Definition paxos_quorum (acceptors : Z) : Z := Z.quot acceptors 2 + 1.

(** [paxos_value_new value size]: a copy of the first [size] bytes. *)
Definition paxos_value_new (v : list byte) (size : Z) : paxos_value :=
  {| paxos_value_len := i32 size; paxos_value_val := Some (take (Z.to_nat size) v) |}.

(** [paxos_value_destroy]: the value left in the struct after its buffer is
    freed. *)
Definition paxos_value_destroy (v : paxos_value) : paxos_value :=
  if (0 <? paxos_value_len v)
  then {| paxos_value_len := paxos_value_len v; paxos_value_val := None |}
  else v.

Definition paxos_body_destroy (b : paxos_body) : paxos_body :=
  {| iid := iid b; ballot := ballot b; value_ballot := value_ballot b;
     aid := aid b; value := paxos_value_destroy (value b) |}.

Definition paxos_promise_destroy (p : paxos_promise) : paxos_promise :=
  paxos_body_destroy p.
Definition paxos_accept_destroy (p : paxos_accept) : paxos_accept :=
  paxos_body_destroy p.
Definition paxos_accepted_destroy (p : paxos_accepted) : paxos_accepted :=
  paxos_body_destroy p.
Definition paxos_client_value_destroy (p : paxos_client_value) : paxos_client_value :=
  {| client_value := paxos_value_destroy (client_value p) |}.

Definition paxos_message_destroy (m : paxos_message) : paxos_message :=
  match m with
  | PAXOS_PROMISE p => PAXOS_PROMISE (paxos_promise_destroy p)
  | PAXOS_ACCEPT p => PAXOS_ACCEPT (paxos_accept_destroy p)
  | PAXOS_ACCEPTED p => PAXOS_ACCEPTED (paxos_accepted_destroy p)
  | PAXOS_CLIENT_VALUE p => PAXOS_CLIENT_VALUE (paxos_client_value_destroy p)
  | m => m
  end.

(** ** Well-formed values and messages *)

(** The bytes a value stands for: the first [paxos_value_len] bytes of its
    buffer. *)
Definition value_bytes (v : paxos_value) : list byte :=
  take (Z.to_nat (paxos_value_len v)) (default [] (paxos_value_val v)).

(** The buffer of a well-formed value holds at least [paxos_value_len]
    bytes. *)
Definition value_ok (v : paxos_value) : Prop :=
  0 <= paxos_value_len v < 2 ^ 31 /\
  paxos_value_len v <= Z.of_nat (length (default [] (paxos_value_val v))).

(** The fields fit the widths of the struct. *)
Definition body_ok (b : paxos_body) : Prop :=
  is_u32 (iid b) /\ is_u16 (ballot b) /\ is_u16 (value_ballot b) /\
  is_u16 (aid b) /\ value_ok (value b).

(** A value as [malloc] and [memcpy] of its bytes leave it: the buffer has
    exactly [paxos_value_len] bytes, and there is none for the empty value. *)
Definition value_exact (v : paxos_value) : Prop :=
  0 <= paxos_value_len v < 2 ^ 31 /\
  match paxos_value_val v with
  | Some l => Z.of_nat (length l) = paxos_value_len v /\ 0 < paxos_value_len v
  | None => paxos_value_len v = 0
  end.

(** [if (len > 0) { dst.val = malloc(len); memcpy(dst.val, src.val, len); }]
    on a struct copied from [src]; the reads are inside the buffer when the
    value is well formed. *)
Definition value_dup (v : paxos_value) : paxos_value :=
  if 0 <? paxos_value_len v
  then {| paxos_value_len := paxos_value_len v; paxos_value_val := Some (value_bytes v) |}
  else v.

(** [{0, NULL}], and the struct [memset] makes. *)
Definition null_value : paxos_value :=
  {| paxos_value_len := 0; paxos_value_val := None |}.
Definition zero_body : paxos_body :=
  {| iid := 0; ballot := 0; value_ballot := 0; aid := 0; value := null_value |}.

(** ** Lemmas *)

#[global] Instance paxos_value_eq_dec : EqDecision paxos_value.
Proof. solve_decision. Defined.
#[global] Instance paxos_body_eq_dec : EqDecision paxos_body.
Proof. solve_decision. Defined.

Lemma paxos_quorum_div n : 0 <= n -> paxos_quorum n = n / 2 + 1.
Proof. intros. unfold paxos_quorum. rewrite Z.quot_div_nonneg; lia. Qed.

Lemma paxos_quorum_majority n : 0 <= n -> n < 2 * paxos_quorum n <= n + 2.
Proof.
  intros. rewrite paxos_quorum_div by done.
  pose proof (Z.div_mod n 2). pose proof (Z.mod_pos_bound n 2). lia.
Qed.

Lemma value_bytes_new v size :
  0 <= size < 2 ^ 31 -> value_bytes (paxos_value_new v size) = take (Z.to_nat size) v.
Proof.
  intros. unfold value_bytes, paxos_value_new. simpl.
  rewrite i32_small by lia. rewrite take_take. by rewrite Nat.min_id.
Qed.

Lemma value_exact_ok v : value_exact v -> value_ok v.
Proof.
  intros [Hl Hv]. split; [done|]. destruct (paxos_value_val v); simpl; lia.
Qed.

Lemma value_dup_exact v : value_exact v -> value_dup v = v.
Proof.
  destruct v as [n [l|]]; intros [Hl Hv]; unfold value_dup, value_bytes; simpl in *.
  - destruct (Z.ltb_spec 0 n); [|lia]. by rewrite take_ge by lia.
  - destruct (Z.ltb_spec 0 n); [lia|done].
Qed.

Lemma value_dup_bytes v : value_bytes (value_dup v) = value_bytes v.
Proof.
  unfold value_dup, value_bytes. destruct (Z.ltb_spec 0 (paxos_value_len v)); simpl; [|done].
  by rewrite take_take, Nat.min_id.
Qed.

Lemma length_value_bytes v : value_ok v -> Z.of_nat (length (value_bytes v)) = paxos_value_len v.
Proof. intros [? ?]. unfold value_bytes. rewrite length_take. lia. Qed.

(** The copy [paxos_value_new] makes of a well-formed value. *)
Lemma paxos_value_new_copy v (w := paxos_value_new (default [] (paxos_value_val v)) (paxos_value_len v)) :
  value_ok v -> value_ok w /\ paxos_value_len w = paxos_value_len v /\ value_bytes w = value_bytes v.
Proof.
  intros [Hl Hl']. assert (paxos_value_len w = paxos_value_len v) as Hlen
    by (unfold w; simpl; apply i32_small; lia).
  split; [|split; [done|]].
  - unfold value_ok. rewrite Hlen. split; [done|]. unfold w. simpl. rewrite length_take. lia.
  - unfold w. by rewrite value_bytes_new.
Qed.
