(* ===== verification/EvConfig.v ===== *)
(** * Configuration files ([evpaxos/config.c])

    The configuration is read line by line: a line is a comment, the address of
    an acceptor, of a proposer or of a replica (both), or an option of the global
    [paxos_config].  A C string is the list of its bytes before the terminating
    NUL and a [char*] an [option] of one, [None] being NULL; the library functions
    [isspace], [strcasecmp], [strsep], [strtol], [strtoull] and [sscanf] are
    written out for the arguments the code has (in the C locale).  A function
    returns [None] where the behaviour is undefined: NULL is dereferenced, a
    buffer overflows, or [sscanf] reads a number that is no [int]. *)

From S2P Require Import Prelude PaxosTypes.
From Stdlib Require Import String.
#[local] Open Scope Z_scope.

Notation cstring := (list byte).

Definition str (s : string) : cstring := list_byte_of_string s.

(** ** The C library *)

Definition isspace (b : byte) : bool :=
  let z := Z_of_byte b in (z =? 32) || ((9 <=? z) && (z <=? 13)).

Definition tolower (b : byte) : byte :=
  let z := Z_of_byte b in if (65 <=? z) && (z <=? 90) then byte_of_Z (z + 32) else b.

(** [strcasecmp(s, t) == 0] *)
Definition strcaseeq (s t : cstring) : bool := bool_decide (map tolower s = map tolower t).

Fixpoint skip_spaces (s : cstring) : cstring :=
  match s with
  | b :: s' => if isspace b then skip_spaces s' else s
  | [] => []
  end.

(** [strsep(&line, " ")]: the token and the rest of the line. *)
Fixpoint strsep (line : cstring) : cstring * option cstring :=
  match line with
  | [] => ([], None)
  | b :: line' =>
      if Z_of_byte b =? 32 then ([], Some line')
      else let '(tok, rest) := strsep line' in (b :: tok, rest)
  end.

Definition isdigit (b : byte) : bool := let z := Z_of_byte b in (48 <=? z) && (z <=? 57).

(** The digits at the beginning of [s], with their value behind [acc]; the
    number of digits. *)
Fixpoint read_digits (acc : Z) (s : cstring) : Z * nat * cstring :=
  match s with
  | b :: s' =>
      if isdigit b
      then let '(v, n, rest) := read_digits (10 * acc + (Z_of_byte b - 48)) s' in (v, S n, rest)
      else (acc, O, s)
  | [] => (acc, O, s)
  end.

(** An optional sign and digits behind white space; [None] when there are no
    digits. *)
Definition read_number (s : cstring) : option (bool * Z * cstring) :=
  let s := skip_spaces s in
  let '(neg, s) :=
    match s with
    | b :: s' => if Z_of_byte b =? 45 then (true, s') else if Z_of_byte b =? 43 then (false, s') else (false, s)
    | [] => (false, s)
    end in
  let '(v, n, rest) := read_digits 0 s in
  if (n =? 0)%nat then None else Some (neg, v, rest).

(** [strtol(s, &end, 10)] with a [long] of 64 bits: the value and [end], which
    is [s] when there is no number. *)
Definition strtol (s : cstring) : Z * option cstring :=
  match read_number s with
  | None => (0, None)
  | Some (neg, v, rest) =>
      let v := if (neg : bool) then - v else v in
      (Z.max (- 2 ^ 63) (Z.min (2 ^ 63 - 1) v), Some rest)
  end.

(** [strtoull(s, &end, 10)]: the value, whether [errno] is [ERANGE], and
    [end]. *)
Definition strtoull (s : cstring) : Z * bool * cstring :=
  match read_number s with
  | None => (0, false, s)
  | Some (neg, v, rest) =>
      if 2 ^ 64 <=? v then (2 ^ 64 - 1, true, rest)
      else ((if (neg : bool) then (- v) mod 2 ^ 64 else v), false, rest)
  end.

(** The run of other characters a ["%s"] reads behind white space. *)
Fixpoint read_word (s : cstring) : cstring * cstring :=
  match s with
  | b :: s' => if isspace b then ([], s) else let '(w, rest) := read_word s' in (b :: w, rest)
  | [] => ([], [])
  end.

(** A ["%d"]: [Some None] when the input does not match. *)
Definition scan_int (s : cstring) : option (option (Z * cstring)) :=
  match read_number s with
  | None => Some None
  | Some (neg, v, rest) =>
      let v := if (neg : bool) then - v else v in
      if (- 2 ^ 31 <=? v) && (v <? 2 ^ 31) then Some (Some (v, rest)) else None
  end.

(** [sscanf(s, "%d %s %d", &id, address, &port)] with a buffer of 128 bytes;
    [Some None] when fewer than three items are read. *)
Definition sscanf_address (s : cstring) : option (option (Z * cstring * Z)) :=
  r ← scan_int s;
  match r with
  | None => Some None
  | Some (id, s) =>
      let '(address, s) := read_word (skip_spaces s) in
      match address with
      | [] => Some None
      | _ =>
          assert_ (Z.of_nat (List.length address) <? 128);;
          r ← scan_int s;
          Some (match r with None => None | Some (port, _) => Some (id, address, port) end)
      end
  end.

(** [fgets(line, 512, f)]: up to [n] characters, up to and with a newline. *)
Fixpoint take_line (n : nat) (f : list byte) : list byte * list byte :=
  match n, f with
  | S n, b :: f =>
      if Z_of_byte b =? 10 then ([b], f)
      else let '(l, rest) := take_line n f in (b :: l, rest)
  | _, _ => ([], f)
  end.

(** The string in a buffer: the bytes before the first NUL. *)
Fixpoint cstr (l : list byte) : cstring :=
  match l with
  | b :: l => if Z_of_byte b =? 0 then [] else b :: cstr l
  | [] => []
  end.

(** ** Addresses *)

Record address := Address { addr : option cstring; port : Z }.

Definition zero_address : address := {| addr := None; port := 0 |}.

Record evpaxos_config := EvpaxosConfig {
  proposers_count : Z;
  acceptors_count : Z;
  proposers : list address;
  acceptors : list address;
}.

(** [struct sockaddr_in]; the port in host order. *)
Record sockaddr_in := SockaddrIn { sin_port : Z; sin_addr : Z }.

Definition address_init (addr : cstring) (port : Z) : address :=
  {| addr := Some addr; port := port |}.

(** [strdup] of NULL is undefined. *)
Definition address_copy (src : address) : option address :=
  a ← addr src; Some (address_init a (port src)).

(** [inet_addr] is a parameter. *)
Definition address_to_sockaddr (inet_addr : cstring -> Z) (a : address) : option sockaddr_in :=
  s ← addr a; Some {| sin_port := u16 (port a); sin_addr := inet_addr s |}.

Definition evpaxos_proposer_address (inet_addr : cstring -> Z) (c : evpaxos_config) (i : Z) : option sockaddr_in :=
  a ← arr_get (proposers c) i; address_to_sockaddr inet_addr a.
Definition evpaxos_proposer_listen_port (c : evpaxos_config) (i : Z) : option Z :=
  port <$> arr_get (proposers c) i.
Definition evpaxos_acceptor_count (c : evpaxos_config) : Z := acceptors_count c.
Definition evpaxos_acceptor_address (inet_addr : cstring -> Z) (c : evpaxos_config) (i : Z) : option sockaddr_in :=
  a ← arr_get (acceptors c) i; address_to_sockaddr inet_addr a.
Definition evpaxos_acceptor_listen_port (c : evpaxos_config) (i : Z) : option Z :=
  port <$> arr_get (acceptors c) i.

(** ** Options *)

Inductive option_type :=
  | option_boolean | option_integer | option_string | option_verbosity | option_backend | option_bytes.

(** A row of the table [options]; the field of [paxos_config] it points to. *)
Inductive config_field :=
  | F_verbosity | F_tcp_nodelay | F_learner_catch_up | F_proposer_timeout | F_preexec_window
  | F_storage_backend | F_trash_files | F_lmdb_sync | F_lmdb_env_path | F_lmdb_mapsize | F_netpaxos.

Record option_row := Option { name : cstring; field : config_field; type : option_type }.

Definition options : list option_row :=
  [ Option (str "verbosity") F_verbosity option_verbosity;
    Option (str "tcp-nodelay") F_tcp_nodelay option_boolean;
    Option (str "learner-catch-up") F_learner_catch_up option_boolean;
    Option (str "proposer-timeout") F_proposer_timeout option_integer;
    Option (str "proposer-preexec-window") F_preexec_window option_integer;
    Option (str "storage-backend") F_storage_backend option_backend;
    Option (str "acceptor-trash-files") F_trash_files option_boolean;
    Option (str "lmdb-sync") F_lmdb_sync option_boolean;
    Option (str "lmdb-env-path") F_lmdb_env_path option_string;
    Option (str "lmdb-mapsize") F_lmdb_mapsize option_bytes;
    Option (str "netpaxos") F_netpaxos option_boolean ].

(** Writes through [opt->value]: an [int] or a [size_t], a string, and so on. *)
Definition with_ints (g : paxos_config) (nodelay net catch_up to window trash sync mapsize : Z) : paxos_config :=
  {| verbosity := verbosity g; tcp_nodelay := nodelay; netpaxos := net; learner_catch_up := catch_up;
     proposer_timeout := to; proposer_preexec_window := window; storage_backend := storage_backend g;
     trash_files := trash; lmdb_sync := sync; lmdb_env_path := lmdb_env_path g; lmdb_mapsize := mapsize |}.

Definition set_int (g : paxos_config) (f : config_field) (v : Z) : paxos_config :=
  let set f' x := match f, f' with
    | F_tcp_nodelay, F_tcp_nodelay | F_netpaxos, F_netpaxos | F_learner_catch_up, F_learner_catch_up
    | F_proposer_timeout, F_proposer_timeout | F_preexec_window, F_preexec_window
    | F_trash_files, F_trash_files | F_lmdb_sync, F_lmdb_sync | F_lmdb_mapsize, F_lmdb_mapsize => v
    | _, _ => x
    end in
  with_ints g (set F_tcp_nodelay (tcp_nodelay g)) (set F_netpaxos (netpaxos g))
    (set F_learner_catch_up (learner_catch_up g)) (set F_proposer_timeout (proposer_timeout g))
    (set F_preexec_window (proposer_preexec_window g)) (set F_trash_files (trash_files g))
    (set F_lmdb_sync (lmdb_sync g)) (set F_lmdb_mapsize (lmdb_mapsize g)).

Definition set_path (g : paxos_config) (v : cstring) : paxos_config :=
  {| verbosity := verbosity g; tcp_nodelay := tcp_nodelay g; netpaxos := netpaxos g;
     learner_catch_up := learner_catch_up g; proposer_timeout := proposer_timeout g;
     proposer_preexec_window := proposer_preexec_window g; storage_backend := storage_backend g;
     trash_files := trash_files g; lmdb_sync := lmdb_sync g; lmdb_env_path := v; lmdb_mapsize := lmdb_mapsize g |}.
Definition set_verbosity (g : paxos_config) (v : paxos_log_level) : paxos_config :=
  {| verbosity := v; tcp_nodelay := tcp_nodelay g; netpaxos := netpaxos g;
     learner_catch_up := learner_catch_up g; proposer_timeout := proposer_timeout g;
     proposer_preexec_window := proposer_preexec_window g; storage_backend := storage_backend g;
     trash_files := trash_files g; lmdb_sync := lmdb_sync g; lmdb_env_path := lmdb_env_path g;
     lmdb_mapsize := lmdb_mapsize g |}.
Definition set_backend (g : paxos_config) (v : paxos_storage_backend) : paxos_config :=
  {| verbosity := verbosity g; tcp_nodelay := tcp_nodelay g; netpaxos := netpaxos g;
     learner_catch_up := learner_catch_up g; proposer_timeout := proposer_timeout g;
     proposer_preexec_window := proposer_preexec_window g; storage_backend := v;
     trash_files := trash_files g; lmdb_sync := lmdb_sync g; lmdb_env_path := lmdb_env_path g;
     lmdb_mapsize := lmdb_mapsize g |}.

(** ** Parsing

    A parser of a value returns what it writes, [None] being the result 0. *)

Definition strtrim (s : cstring) : cstring :=
  rev (skip_spaces (rev (skip_spaces s))).

(** The result and [*bytes], which is written in every case. *)
Definition parse_bytes (s : cstring) : Z * Z :=
  let '(bytes, erange, rest) := strtoull s in
  if (erange : bool) then (0, bytes) else
  match skip_spaces rest with
  | [] => (1, bytes)
  | e => if strcaseeq e (str "kb") then (1, (bytes * 1024) mod 2 ^ 64)
         else if strcaseeq e (str "mb") then (1, (bytes * (1024 * 1024)) mod 2 ^ 64)
         else if strcaseeq e (str "gb") then (1, (bytes * (1024 * 1024 * 1024)) mod 2 ^ 64)
         else (0, bytes)
  end.

Definition parse_boolean (s : cstring) : option Z :=
  if strcaseeq s (str "yes") then Some 1 else if strcaseeq s (str "no") then Some 0 else None.

Definition parse_integer (s : cstring) : option Z :=
  let '(n, e) := strtol s in
  match e with None => None | Some _ => Some (i32 n) end.

Definition parse_string (s : cstring) : option cstring :=
  match s with
  | [] => None
  | b :: _ => if Z_of_byte b =? 10 then None else Some s
  end.

(** The result and [*addr]. *)
Definition parse_address (s : option cstring) (a : address) : option (Z * address) :=
  s ← s;
  r ← sscanf_address s;
  Some match r with
       | Some (id, address, port) => (1, address_init address port)
       | None => (0, a)
       end.

Definition parse_verbosity (s : cstring) : option paxos_log_level :=
  if strcaseeq s (str "quiet") then Some PAXOS_LOG_QUIET
  else if strcaseeq s (str "error") then Some PAXOS_LOG_ERROR
  else if strcaseeq s (str "info") then Some PAXOS_LOG_INFO
  else if strcaseeq s (str "debug") then Some PAXOS_LOG_DEBUG
  else None.

Definition parse_backend (s : cstring) : option paxos_storage_backend :=
  if strcaseeq s (str "memory") then Some PAXOS_MEM_STORAGE
  else if strcaseeq s (str "lmdb") then Some PAXOS_LMDB_STORAGE
  else None.

Definition lookup_option (opt : cstring) : option option_row :=
  List.find (fun o => strcaseeq (name o) opt) options.

(** The [switch] over the type of an option: the result and the configuration. *)
Definition parse_option (o : option_row) (line : cstring) (g : paxos_config) : Z * paxos_config :=
  let result {A} (set : A -> paxos_config) (r : option A) :=
    match r with Some v => (1, set v) | None => (0, g) end in
  match type o with
  | option_boolean => result (set_int g (field o)) (parse_boolean line)
  | option_integer => result (set_int g (field o)) (parse_integer line)
  | option_string => result (set_path g) (parse_string line)
  | option_verbosity => result (set_verbosity g) (parse_verbosity line)
  | option_backend => result (set_backend g) (parse_backend line)
  | option_bytes => let '(rv, bytes) := parse_bytes line in (rv, set_int g (field o) bytes)
  end.

Definition add_acceptor (c : evpaxos_config) (l : list address) : evpaxos_config :=
  {| proposers_count := proposers_count c; acceptors_count := acceptors_count c + 1;
     proposers := proposers c; acceptors := l |}.
Definition add_proposer (c : evpaxos_config) (l : list address) : evpaxos_config :=
  {| proposers_count := proposers_count c + 1; acceptors_count := acceptors_count c;
     proposers := l; acceptors := acceptors c |}.

Definition is_keyword (tok : cstring) (short long : string) : bool :=
  strcaseeq tok (str short) || strcaseeq tok (str long).

(** The result, the addresses and the options after a line. *)
Definition parse_line (c : evpaxos_config) (g : paxos_config) (line : cstring) :
    option (Z * evpaxos_config * paxos_config) :=
  let line := strtrim line in
  let '(tok, line) := strsep line in
  if is_keyword tok "a" "acceptor" then
    if MAX_N_OF_PROPOSERS <=? acceptors_count c then Some (0, c, g) else
    a ← arr_get (acceptors c) (acceptors_count c);
    '(rv, a) ← parse_address line a;
    l ← arr_set (acceptors c) (acceptors_count c) a;
    Some (rv, add_acceptor c l, g)
  else if is_keyword tok "p" "proposer" then
    if MAX_N_OF_PROPOSERS <=? proposers_count c then Some (0, c, g) else
    a ← arr_get (proposers c) (proposers_count c);
    '(rv, a) ← parse_address line a;
    l ← arr_set (proposers c) (proposers_count c) a;
    Some (rv, add_proposer c l, g)
  else if is_keyword tok "r" "replica" then
    if (MAX_N_OF_PROPOSERS <=? proposers_count c) || (MAX_N_OF_PROPOSERS <=? acceptors_count c)
    then Some (0, c, g) else
    pro ← arr_get (proposers c) (proposers_count c);
    '(rv, pro) ← parse_address line pro;
    acc ← address_copy pro;
    lp ← arr_set (proposers c) (proposers_count c) pro;
    la ← arr_set (acceptors c) (acceptors_count c) acc;
    Some (rv, add_acceptor (add_proposer c lp) la, g)
  else
    line ← line;
    let line := strtrim line in
    match lookup_option tok with
    | None => Some (0, c, g)
    | Some o => let '(rv, g) := parse_option o line g in Some (rv, c, g)
    end.

(** [malloc] and [memset]. *)
Definition empty_config : evpaxos_config :=
  {| proposers_count := 0; acceptors_count := 0;
     proposers := replicate (Z.to_nat MAX_N_OF_PROPOSERS) zero_address;
     acceptors := replicate (Z.to_nat MAX_N_OF_PROPOSERS) zero_address |}.

Definition starts_with (line : list byte) (c : Z) : bool :=
  match line with b :: _ => Z_of_byte b =? c | [] => false end.

(** The loop over the lines; [fuel] bounds their number ([read_lines_total]).  The
    configuration is NULL after an error. *)
Fixpoint read_lines (fuel : nat) (f : list byte) (c : evpaxos_config) (g : paxos_config) :
    option (option evpaxos_config * paxos_config) :=
  match fuel with
  | O => None
  | S fuel =>
      match f with
      | [] => Some (Some c, g)
      | _ =>
          let '(line, f) := take_line 511 f in
          if negb (starts_with line 35) && negb (starts_with line 10) then
            '(rv, c, g) ← parse_line c g (cstr line);
            if rv =? 0 then Some (None, g) else read_lines fuel f c g
          else read_lines fuel f c g
      end
  end.

(** [file] is [None] when [fopen] fails; then the results of [stat] and
    [S_ISREG]. *)
Definition evpaxos_config_read (file : option (list byte)) (stat_ok is_reg : bool) (g : paxos_config) :
    option (option evpaxos_config * paxos_config) :=
  match file with
  | None => Some (None, g)
  | Some f =>
      if negb stat_ok then Some (None, g) else
      if negb is_reg then Some (None, g) else
      read_lines (S (List.length f)) f empty_config g
  end.

(** ** Lemmas *)

(** A configuration as a successful read leaves it: the arrays have their size,
    and the first [count] addresses are there. *)
Definition addresses_ok (n : Z) (l : list address) : Prop :=
  0 <= n <= MAX_N_OF_PROPOSERS /\ Z.of_nat (List.length l) = MAX_N_OF_PROPOSERS /\
  forall i, 0 <= i < n -> exists a s, arr_get l i = Some a /\ addr a = Some s.

Definition config_ok (c : evpaxos_config) : Prop :=
  addresses_ok (proposers_count c) (proposers c) /\ addresses_ok (acceptors_count c) (acceptors c).

Lemma empty_config_ok : config_ok empty_config.
Proof. split; (split; [done|]; split; [done|]; intros i Hi; simpl in Hi; lia). Qed.

Lemma parse_address_ok line a rv a' :
  parse_address line a = Some (rv, a') -> rv <> 0 -> is_Some (addr a').
Proof.
  unfold parse_address. destruct line as [s|]; simpl; [|done].
  destruct (sscanf_address s) as [[[[id w] p]|]|]; simpl; intros; simplify_eq; [|done..]. by eexists.
Qed.

(** The next address is written. *)
Lemma addresses_ok_set n l a l' :
  addresses_ok n l -> is_Some (addr a) -> n < MAX_N_OF_PROPOSERS -> arr_set l n a = Some l' ->
  addresses_ok (n + 1) l'.
Proof.
  intros (Hn & Hlen & Hl) [s Hs] Hlt Hset. pose proof Hset as Hlen'. apply arr_set_length in Hlen'.
  split; [lia|]. split; [lia|]. intros i Hi. rewrite (arr_get_set _ _ _ i _ Hset). case_decide; [by eauto|].
  apply Hl. lia.
Qed.

Lemma address_copy_ok a a' : address_copy a = Some a' -> is_Some (addr a) /\ is_Some (addr a').
Proof. unfold address_copy. destruct (addr a) as [s|]; simpl; [|done]. intros [= <-]. by split; eexists. Qed.

Lemma parse_line_ok c g line rv c' g' :
  config_ok c -> parse_line c g line = Some (rv, c', g') -> rv <> 0 -> config_ok c'.
Proof.
  intros [Hp Ha] Hrun Hrv. unfold parse_line in Hrun. destruct (strsep (strtrim line)) as [tok rest].
  destruct (is_keyword tok "a" "acceptor"); [|destruct (is_keyword tok "p" "proposer");
    [|destruct (is_keyword tok "r" "replica")]].
  - destruct (Z.leb_spec MAX_N_OF_PROPOSERS (acceptors_count c)); [simpl in Hrun; congruence|]. simplify_bind.
    destruct p as [rv' a']. simplify_bind. simplify_eq.
    split; [done|]. eapply addresses_ok_set; try done. by eapply parse_address_ok.
  - destruct (Z.leb_spec MAX_N_OF_PROPOSERS (proposers_count c)); [simpl in Hrun; congruence|]. simplify_bind.
    destruct p as [rv' a']. simplify_bind. simplify_eq.
    split; [|done]. eapply addresses_ok_set; try done. by eapply parse_address_ok.
  - destruct (Z.leb_spec MAX_N_OF_PROPOSERS (proposers_count c)); [simpl in Hrun; congruence|].
    destruct (Z.leb_spec MAX_N_OF_PROPOSERS (acceptors_count c)); [simpl in Hrun; congruence|]. simpl in Hrun. simplify_bind.
    destruct p as [rv' a']. simplify_bind. simplify_eq.
    match goal with E : address_copy _ = Some _ |- _ => apply address_copy_ok in E as [? ?] end.
    split; [by apply (addresses_ok_set _ (proposers c) a')|by eapply (addresses_ok_set _ (acceptors c))].
  - simplify_bind. destruct (lookup_option tok) as [o|]; [|congruence].
    destruct (parse_option o _ g). simplify_eq. done.
Qed.

Lemma read_lines_ok fuel f c g c' g' :
  config_ok c -> read_lines fuel f c g = Some (Some c', g') -> config_ok c'.
Proof.
  revert f c g. induction fuel as [|fuel IH]; intros f c g Hc; cbn [read_lines]; [done|].
  destruct f as [|b f]; [by intros; simplify_eq|]. destruct (take_line 511 (b :: f)) as [line rest].
  destruct (_ && _); [|by apply IH]. intros Hrun. simplify_bind. destruct p as [[rv c1] g1].
  destruct (Z.eqb_spec rv 0); [by simplify_eq|]. eapply IH; [|done]. by eapply parse_line_ok.
Qed.

(** A line takes at least a character of the file, so that one turn more than the
    file has characters is enough. *)
Lemma take_line_shorter n f : f <> [] -> (0 < n)%nat -> (List.length (take_line n f).2 < List.length f)%nat.
Proof.
  assert (forall n f, (List.length (take_line n f).2 <= List.length f)%nat) as Hle.
  { induction n0 as [|n0 IH]; intros [|b l]; simpl; try lia. destruct (_ =? _); simpl; [lia|].
    specialize (IH l). destruct (take_line n0 l). simpl in *. lia. }
  intros Hf Hn. destruct n as [|n]; [lia|]. destruct f as [|b f]; [done|]. simpl.
  destruct (_ =? _); simpl; [lia|]. specialize (Hle n f). destruct (take_line n f). simpl in *. lia.
Qed.

Lemma read_lines_total fuel f c g :
  (List.length f < fuel)%nat -> read_lines fuel f c g = read_lines (S (List.length f)) f c g.
Proof.
  remember (List.length f) as n eqn:Hn. revert fuel f c g Hn.
  induction n as [n IH] using (well_founded_induction lt_wf); intros fuel f c g Hn Hfuel.
  destruct fuel as [|fuel]; [lia|]. cbn [read_lines]. destruct f as [|b f]; [done|].
  pose proof (take_line_shorter 511 (b :: f) ltac:(done) ltac:(lia)) as Hshort.
  destruct (take_line 511 (b :: f)) as [line rest]. simpl in Hshort.
  assert (forall c g, read_lines fuel rest c g = read_lines n rest c g) as Heq.
  { intros c1 g1. rewrite (IH (List.length rest) ltac:(simpl in *; lia) fuel) by (simpl in *; lia).
    symmetry. apply IH; simpl in *; lia. }
  destruct (_ && _); [|apply Heq]. destruct (parse_line _ _ _) as [[[rv c1] g1]|]; simpl; [|done].
  destruct (rv =? 0); [done|apply Heq].
Qed.

(** *** Printing a configuration *)

(** The decimal digits of [n], least significant first. *)
Fixpoint digits_rev (fuel : nat) (n : Z) : cstring :=
  match fuel with
  | O => []
  | S fuel => byte_of_Z (48 + n mod 10) :: if n <? 10 then [] else digits_rev fuel (n / 10)
  end.

Definition print_nat (n : Z) : cstring := rev (digits_rev (S (Z.to_nat n)) n).

Definition print_replica (id : Z) (a : cstring) (port : Z) : list byte :=
  str "replica " ++ print_nat id ++ str " " ++ a ++ str " " ++ print_nat port ++ [x0a].

Fixpoint print_replicas (id : Z) (l : list (cstring * Z)) : list byte :=
  match l with
  | [] => []
  | (a, port) :: l => print_replica id a port ++ print_replicas (id + 1) l
  end.

(** A host name or dotted address, and a port. *)
Definition printable (x : cstring * Z) : Prop :=
  Forall (fun b => isspace b = false /\ Z_of_byte b <> 0) x.1 /\ x.1 <> [] /\
  (List.length x.1 < 128)%nat /\ 0 <= x.2 < 2 ^ 16.

Definition digit (b : byte) : Prop := 48 <= Z_of_byte b <= 57.

Definition digit_value (acc : Z) (b : byte) : Z := 10 * acc + (Z_of_byte b - 48).

Lemma read_digits_app acc l r :
  Forall digit l -> match r with b :: _ => isdigit b = false | [] => True end ->
  read_digits acc (l ++ r) = (foldl digit_value acc l, List.length l, r).
Proof.
  intros Hl Hr. revert acc. induction Hl as [|b l Hb _ IH]; intros acc; simpl.
  - destruct r as [|b r]; [done|]. simpl. by rewrite Hr.
  - assert (isdigit b = true) as -> by (unfold isdigit, digit in *; lia). rewrite IH. done.
Qed.

Lemma Z_of_digit n : 0 <= n -> Z_of_byte (byte_of_Z (48 + n mod 10)) = 48 + n mod 10.
Proof.
  intros. pose proof (Z.mod_pos_bound n 10 ltac:(lia)). rewrite Z_of_byte_of_Z. apply Z.mod_small. lia.
Qed.

Lemma digits_rev_digit fuel n : 0 <= n -> Forall digit (digits_rev fuel n).
Proof.
  revert n. induction fuel as [|fuel IH]; intros n Hn; simpl; [done|]. constructor.
  - unfold digit. rewrite Z_of_digit by done. pose proof (Z.mod_pos_bound n 10 ltac:(lia)). lia.
  - destruct (n <? 10); [done|]. apply IH. apply Z.div_pos; lia.
Qed.

Lemma digits_rev_value fuel n :
  0 <= n -> (Z.to_nat n < fuel)%nat -> foldr (fun b acc => digit_value acc b) 0 (digits_rev fuel n) = n.
Proof.
  revert n. induction fuel as [|fuel IH]; intros n Hn Hfuel; [lia|]. cbn [digits_rev foldr].
  unfold digit_value at 1. rewrite Z_of_digit by done.
  pose proof (Z.div_mod n 10 ltac:(lia)). pose proof (Z.mod_pos_bound n 10 ltac:(lia)).
  destruct (Z.ltb_spec n 10); cbn [foldr].
  - rewrite Z.mod_small by lia. lia.
  - rewrite IH; [lia|lia|]. assert (n / 10 < n) by (apply Z.div_lt; lia). lia.
Qed.

Lemma print_nat_digit n : 0 <= n -> Forall digit (print_nat n).
Proof. intros. apply Forall_rev, digits_rev_digit. done. Qed.

Lemma print_nat_nonempty n : print_nat n <> [].
Proof. unfold print_nat. cbn [digits_rev rev]. intros [_ ?]%app_eq_nil. done. Qed.

Lemma foldl_rev acc l : foldl digit_value acc (rev l) = foldr (fun b acc => digit_value acc b) acc l.
Proof. induction l as [|b l IH]; simpl; [done|]. by rewrite foldl_app, IH. Qed.

(** A printed number is read back. *)
Lemma read_number_print n r :
  0 <= n -> match r with b :: _ => isdigit b = false | [] => True end ->
  read_number (print_nat n ++ r) = Some (false, n, r).
Proof.
  intros Hn Hr. pose proof (print_nat_digit n Hn) as Hd.
  assert (foldl digit_value 0 (print_nat n) = n) as Hv.
  { unfold print_nat. rewrite foldl_rev. apply digits_rev_value; lia. }
  pose proof (read_digits_app 0 (print_nat n) r Hd Hr) as Hread. rewrite Hv in Hread.
  unfold read_number. destruct (print_nat n) as [|b l] eqn:E; [by destruct (print_nat_nonempty n)|].
  apply Forall_cons in Hd as [Hb _]. unfold digit in Hb. cbn [app skip_spaces].
  assert (isspace b = false) as -> by (unfold isspace; lia).
  destruct (Z.eqb_spec (Z_of_byte b) 45); [lia|]. destruct (Z.eqb_spec (Z_of_byte b) 43); [lia|].
  cbn [app] in Hread. rewrite Hread. done.
Qed.

Lemma read_word_app w r :
  Forall (fun b => isspace b = false /\ Z_of_byte b <> 0) w ->
  match r with b :: _ => isspace b = true | [] => True end -> read_word (w ++ r) = (w, r).
Proof.
  intros Hw Hr. induction Hw as [|b w [Hb _] _ IH]; simpl.
  - destruct r as [|b r]; [done|]. simpl. by rewrite Hr.
  - by rewrite Hb, IH.
Qed.

(** The address of a printed line is read back. *)
Lemma sscanf_print id a p :
  0 <= id < 2 ^ 31 -> printable (a, p) ->
  sscanf_address (print_nat id ++ str " " ++ a ++ str " " ++ print_nat p) = Some (Some (id, a, p)).
Proof.
  intros Hid (Ha & Hne & Hlen & Hp). cbn [fst snd] in *. unfold sscanf_address, scan_int.
  rewrite read_number_print by (lia || done). cbn beta iota.
  rewrite (proj2 (Z.leb_le _ id)), (proj2 (Z.ltb_lt id _)) by lia. cbn [andb mbind option_bind].
  assert (skip_spaces (str " " ++ a ++ str " " ++ print_nat p) = a ++ str " " ++ print_nat p) as ->.
  { simpl. destruct a as [|b a]; [done|]. apply Forall_cons in Ha as [[Hb _] _]. simpl. by rewrite Hb. }
  rewrite read_word_app by done. destruct a as [|b a]; [done|].
  rewrite (proj2 (Z.ltb_lt _ 128)) by lia. cbn [assert_ mbind option_bind].
  assert (read_number (str " " ++ print_nat p) = Some (false, p, [])) as ->.
  { pose proof (read_number_print p [] ltac:(lia) I) as Hr. rewrite app_nil_r in Hr.
    unfold read_number in *. cbn [str list_byte_of_string app skip_spaces]. simpl in *. done. }
  cbn beta iota. rewrite (proj2 (Z.leb_le _ p)), (proj2 (Z.ltb_lt p _)) by lia. done.
Qed.

Lemma digits_rev_length fuel n k :
  0 <= n < 10 ^ Z.of_nat (S k) -> (List.length (digits_rev fuel n) <= S k)%nat.
Proof.
  revert n k. induction fuel as [|fuel IH]; intros n k Hn; simpl; [lia|].
  destruct (Z.ltb_spec n 10); simpl; [lia|]. destruct k as [|k]; [change (Z.of_nat 1) with 1 in Hn; lia|].
  specialize (IH (n / 10) k). replace (Z.of_nat (S (S k))) with (1 + Z.of_nat (S k)) in Hn by lia.
  rewrite Z.pow_add_r in Hn by lia. apply le_n_S, IH. split; [apply Z.div_pos; lia|].
  apply Z.div_lt_upper_bound; lia.
Qed.

Lemma print_nat_length n k : 0 <= n < 10 ^ Z.of_nat (S k) -> (List.length (print_nat n) <= S k)%nat.
Proof. intros. unfold print_nat. rewrite length_rev. by apply digits_rev_length. Qed.

(** A character inside a line. *)
Definition inline (b : byte) : Prop := Z_of_byte b <> 10 /\ Z_of_byte b <> 0.

Lemma take_line_app n l rest :
  Forall inline l -> (List.length l < n)%nat -> take_line n (l ++ x0a :: rest) = (l ++ [x0a], rest).
Proof.
  intros Hl. revert n. induction Hl as [|b l [Hb _] _ IH]; intros n Hn; (destruct n as [|n]; [simpl in Hn; lia|]); simpl.
  - done.
  - destruct (Z.eqb_spec (Z_of_byte b) 10); [done|]. rewrite IH by (simpl in Hn; lia). done.
Qed.

Lemma cstr_app l : Forall inline l -> cstr (l ++ [x0a]) = l ++ [x0a].
Proof.
  induction 1 as [|b l [_ Hb] _ IH]; simpl; [done|]. destruct (Z.eqb_spec (Z_of_byte b) 0); [done|]. by rewrite IH.
Qed.

Lemma skip_spaces_id b l : isspace b = false -> skip_spaces (b :: l) = b :: l.
Proof. intros Hb. simpl. by rewrite Hb. Qed.

(** Trimming the newline off a line that ends in another character. *)
Lemma strtrim_line b l e :
  isspace b = false -> isspace e = false -> strtrim ((b :: l ++ [e]) ++ [x0a]) = b :: l ++ [e].
Proof.
  intros Hb He. unfold strtrim. rewrite <- app_comm_cons, (skip_spaces_id b) by done.
  assert (rev (b :: (l ++ [e]) ++ [x0a]) = x0a :: e :: rev l ++ [b]) as ->.
  { rewrite app_comm_cons, rev_app_distr. cbn [rev app]. by rewrite rev_app_distr. }
  change (skip_spaces (x0a :: e :: rev l ++ [b])) with (skip_spaces (e :: rev l ++ [b])).
  rewrite (skip_spaces_id e) by done. cbn [rev]. rewrite rev_app_distr. cbn [rev app]. by rewrite rev_involutive.
Qed.

Definition replica_args (id : Z) (a : cstring) (port : Z) : cstring :=
  print_nat id ++ str " " ++ a ++ str " " ++ print_nat port.

Lemma print_replica_eq id a p : print_replica id a p = (str "replica " ++ replica_args id a p) ++ [x0a].
Proof. unfold print_replica, replica_args. by rewrite <- !(assoc_L (++)). Qed.

Lemma replica_inline id a p :
  0 <= id -> printable (a, p) -> Forall inline (str "replica " ++ replica_args id a p).
Proof.
  intros Hid (Ha & _ & _ & Hp). cbn [fst snd] in *. unfold replica_args.
  assert (forall n, 0 <= n -> Forall inline (print_nat n)) as Hn.
  { intros n H0. eapply Forall_impl; [by apply print_nat_digit|]. unfold digit, inline. simpl. lia. }
  rewrite !Forall_app. split_and!; try (by apply Hn; lia); try (repeat constructor; vm_compute; discriminate).
  eapply Forall_impl; [done|]. intros b [Hb ?]. split; [|done]. intros E. unfold isspace in Hb. lia.
Qed.

Lemma strtrim_replica id a p :
  0 <= p -> strtrim (print_replica id a p) = str "replica " ++ replica_args id a p.
Proof.
  intros Hp. rewrite print_replica_eq. unfold replica_args.
  destruct (exists_last (print_nat_nonempty p)) as (l & e & He).
  assert (isspace e = false) as Hsp.
  { pose proof (print_nat_digit p Hp) as Hd. rewrite He, Forall_app, Forall_cons in Hd.
    destruct Hd as (_ & Hd & _). unfold digit in Hd. unfold isspace. lia. }
  rewrite He. rewrite !(assoc_L (++)). pose proof (strtrim_line x72) as Ht.
  change (str "replica ") with (x72 :: str "eplica "). rewrite <- !app_comm_cons.
  apply Ht; done.
Qed.

(** The configuration with the replicas [l]. *)
Definition replica_addresses (l : list (cstring * Z)) : list address :=
  ((fun x => address_init x.1 x.2) <$> l) ++ replicate (10 - List.length l) zero_address.

Definition replica_config (l : list (cstring * Z)) : evpaxos_config :=
  {| proposers_count := Z.of_nat (List.length l); acceptors_count := Z.of_nat (List.length l);
     proposers := replica_addresses l; acceptors := replica_addresses l |}.

Lemma replica_addresses_set l x :
  (List.length l < 10)%nat ->
  arr_set (replica_addresses l) (Z.of_nat (List.length l)) (address_init x.1 x.2) = Some (replica_addresses (l ++ [x])).
Proof.
  intros Hl. apply arr_set_Some. unfold replica_addresses.
  rewrite !length_app, length_replicate, length_fmap. split; [lia|]. rewrite Nat2Z.id, fmap_app, <- (assoc_L (++)).
  replace (10 - List.length l)%nat with (S (9 - List.length l)) by lia. cbn [List.length fmap list_fmap].
  replace (10 - (List.length l + 1))%nat with (9 - List.length l)%nat by lia. cbn [replicate].
  rewrite insert_app_r_alt by (rewrite length_fmap; lia). rewrite length_fmap, Nat.sub_diag. done.
Qed.

Lemma parse_replica id l x g :
  0 <= id < 10 -> printable x -> (List.length l < 10)%nat ->
  parse_line (replica_config l) g (print_replica id x.1 x.2) = Some (1, replica_config (l ++ [x]), g).
Proof.
  intros Hid Hx Hl. destruct x as [a p]. pose proof Hx as (_ & _ & _ & Hp). cbn [fst snd] in *.
  unfold parse_line. rewrite strtrim_replica by lia.
  change (strsep (str "replica " ++ replica_args id a p)) with (str "replica", Some (replica_args id a p)).
  cbn beta iota zeta.
  replace (is_keyword (str "replica") "a" "acceptor") with false by reflexivity.
  replace (is_keyword (str "replica") "p" "proposer") with false by reflexivity.
  replace (is_keyword (str "replica") "r" "replica") with true by reflexivity.
  cbn [replica_config proposers_count acceptors_count proposers acceptors].
  destruct (Z.leb_spec MAX_N_OF_PROPOSERS (Z.of_nat (List.length l))); [unfold MAX_N_OF_PROPOSERS in *; lia|]. cbn [orb].
  destruct (arr_get_in (replica_addresses l) (Z.of_nat (List.length l))) as [old Hold].
  { unfold replica_addresses. rewrite length_app, length_fmap, length_replicate. lia. }
  rewrite Hold. cbn [mbind option_bind]. unfold parse_address, replica_args. cbn [mbind option_bind].
  rewrite sscanf_print by (done || lia). cbn [mbind option_bind].
  change (address_copy (address_init a p)) with (Some (address_init a p)). cbn [mbind option_bind].
  pose proof (replica_addresses_set l (a, p) Hl) as Hset. cbn [fst snd] in Hset.
  rewrite Hset. cbn [mbind option_bind].
  f_equal. f_equal. f_equal. unfold replica_config, add_acceptor, add_proposer. simpl. rewrite length_app. simpl.
  f_equal; lia.
Qed.

Lemma print_replica_length id x :
  0 <= id < 10 -> printable x -> (List.length (str "replica " ++ replica_args id x.1 x.2) < 511)%nat.
Proof.
  intros Hid (_ & _ & Ha & Hp). unfold replica_args. rewrite !length_app.
  pose proof (print_nat_length id 0 ltac:(simpl; lia)). pose proof (print_nat_length x.2 4 ltac:(simpl; lia)).
  simpl. lia.
Qed.

Lemma read_replicas fuel l1 l2 g :
  Forall printable l2 -> (List.length l1 + List.length l2 <= 10)%nat -> (List.length l2 < fuel)%nat ->
  read_lines fuel (print_replicas (Z.of_nat (List.length l1)) l2) (replica_config l1) g =
    Some (Some (replica_config (l1 ++ l2)), g).
Proof.
  intros Hl2. revert fuel l1. induction Hl2 as [|x l2 Hx _ IH]; intros fuel l1 Hlen Hfuel;
    (destruct fuel as [|fuel]; [simpl in *; lia|]); simpl in Hlen, Hfuel.
  { by rewrite app_nil_r. }
  destruct x as [a p]. cbn [print_replicas]. rewrite print_replica_eq, <- (assoc_L (++)).
  pose proof (replica_inline (Z.of_nat (List.length l1)) a p ltac:(lia) Hx) as Hin.
  pose proof (take_line_app 511 _ (print_replicas (Z.of_nat (List.length l1) + 1) l2) Hin
    (print_replica_length (Z.of_nat (List.length l1)) (a, p) ltac:(lia) Hx)) as Htake.
  assert (exists b f, (str "replica " ++ replica_args (Z.of_nat (List.length l1)) a p) ++
    x0a :: print_replicas (Z.of_nat (List.length l1) + 1) l2 = b :: f) as (b & f & E) by (eexists _, _; reflexivity).
  cbn [app]. rewrite E in *. cbn [read_lines]. rewrite Htake.
  change (starts_with ((str "replica " ++ replica_args (Z.of_nat (List.length l1)) a p) ++ [x0a]) 35) with false.
  change (starts_with ((str "replica " ++ replica_args (Z.of_nat (List.length l1)) a p) ++ [x0a]) 10) with false.
  cbn [negb andb]. rewrite cstr_app, <- print_replica_eq by done.
  pose proof (parse_replica (Z.of_nat (List.length l1)) l1 (a, p) g ltac:(lia) Hx ltac:(lia)) as Hparse.
  cbn [fst snd] in Hparse. rewrite Hparse. cbn [mbind option_bind].
  change (1 =? 0) with false. cbn beta iota. specialize (IH fuel (l1 ++ [(a, p)])).
  rewrite length_app in IH. cbn [List.length] in IH. rewrite <- (assoc_L (++)) in IH. cbn [app] in IH.
  rewrite Nat2Z.inj_add in IH. apply IH; lia.
Qed.

(** Whatever a configuration file contains, what [evpaxos_config_read]
    returns is usable: there are at most [MAX_N_OF_PROPOSERS] proposers and
    acceptors, and the address and the port of each of them can be read. *)
Theorem config_read_bounds file stat_ok is_reg g c g' inet_addr :
  evpaxos_config_read file stat_ok is_reg g = Some (Some c, g') ->
  0 <= proposers_count c <= MAX_N_OF_PROPOSERS /\ 0 <= evpaxos_acceptor_count c <= MAX_N_OF_PROPOSERS /\
  (forall i, 0 <= i < proposers_count c ->
     is_Some (evpaxos_proposer_address inet_addr c i) /\ is_Some (evpaxos_proposer_listen_port c i)) /\
  (forall i, 0 <= i < evpaxos_acceptor_count c ->
     is_Some (evpaxos_acceptor_address inet_addr c i) /\ is_Some (evpaxos_acceptor_listen_port c i)).
Proof.
  unfold evpaxos_config_read. destruct file as [f|]; [|done]. destruct stat_ok, is_reg; simpl negb; try done.
  intros Hrun. destruct (read_lines_ok _ _ _ _ _ _ empty_config_ok Hrun) as [(Hp & _ & Hpa) (Ha & _ & Haa)].
  split; [done|]. split; [done|]. split; intros i Hi.
  - destruct (Hpa i Hi) as (a & s & Hget & Hs).
    unfold evpaxos_proposer_address, evpaxos_proposer_listen_port, address_to_sockaddr. rewrite Hget. simpl.
    rewrite Hs. by split; eexists.
  - destruct (Haa i Hi) as (a & s & Hget & Hs).
    unfold evpaxos_acceptor_address, evpaxos_acceptor_listen_port, address_to_sockaddr. rewrite Hget. simpl.
    rewrite Hs. by split; eexists.
Qed.

(** C36. Printing the addresses of up to ten replicas as a configuration file and
    reading it gives these replicas, as proposers and as acceptors, in order, and
    leaves the options alone. *)
Theorem config_roundtrip l g :
  Forall printable l -> (List.length l <= 10)%nat ->
  evpaxos_config_read (Some (print_replicas 0 l)) true true g = Some (Some (replica_config l), g).
Proof.
  intros Hl Hlen. unfold evpaxos_config_read. cbn [negb].
  assert (forall id, (List.length l <= List.length (print_replicas id l))%nat) as Hlines.
  { clear. induction l as [|[a p] l IH]; intros id; [done|]. cbn [print_replicas]. rewrite length_app.
    specialize (IH (id + 1)). unfold print_replica. rewrite length_app. simpl. lia. }
  pose proof (read_replicas (S (List.length (print_replicas 0 l))) [] l g Hl ltac:(simpl; lia)) as Hread.
  apply Hread. specialize (Hlines 0). lia.
Qed.

(** Two replicas on the local host. *)
Definition sample_replicas : list (cstring * Z) := [(str "127.0.0.1", 8800); (str "127.0.0.1", 8801)].

Definition sample_file : list byte := print_replicas 0 sample_replicas.

Lemma sample_printable : Forall printable sample_replicas.
Proof.
  repeat constructor; cbn [fst snd]; try (vm_compute; discriminate); try lia; try (simpl; lia).
Qed.

Lemma config_roundtrip_witness :
  evpaxos_config_read (Some sample_file) true true default_paxos_config =
    Some (Some (replica_config sample_replicas), default_paxos_config).
Proof. apply config_roundtrip; [apply sample_printable|simpl; lia]. Defined.

Lemma config_read_bounds_witness :
  let c := replica_config sample_replicas in
  0 <= proposers_count c <= MAX_N_OF_PROPOSERS /\ 0 <= evpaxos_acceptor_count c <= MAX_N_OF_PROPOSERS /\
  (forall i, 0 <= i < proposers_count c ->
     is_Some (evpaxos_proposer_address (fun _ => 1) c i) /\ is_Some (evpaxos_proposer_listen_port c i)) /\
  (forall i, 0 <= i < evpaxos_acceptor_count c ->
     is_Some (evpaxos_acceptor_address (fun _ => 1) c i) /\ is_Some (evpaxos_acceptor_listen_port c i)).
Proof.
  apply (config_read_bounds (Some sample_file) true true default_paxos_config _ default_paxos_config).
  vm_compute. reflexivity.
Defined.

(** A line with a single word that is no keyword for an address (an option
    without its value, or a line of white space) is not reported as an error:
    [strtrim] dereferences the NULL that [strsep] leaves. *)
Theorem config_option_without_value c g line tok :
  strsep (strtrim line) = (tok, None) ->
  is_keyword tok "a" "acceptor" = false -> is_keyword tok "p" "proposer" = false ->
  is_keyword tok "r" "replica" = false -> parse_line c g line = None.
Proof. intros Hsep Ha Hp Hr. unfold parse_line. rewrite Hsep, Ha, Hp, Hr. done. Qed.

Lemma config_option_without_value_witness :
  parse_line empty_config default_paxos_config (str "lmdb-sync") = None.
Proof. eapply config_option_without_value; vm_compute; reflexivity. Defined.

(** A replica line whose address cannot be read is not reported as an error:
    [address_copy] duplicates the NULL of an address that was not set. *)
Theorem config_bad_replica c g line rest pro :
  strsep (strtrim line) = (str "replica", Some rest) -> sscanf_address rest = Some None ->
  proposers_count c < MAX_N_OF_PROPOSERS -> acceptors_count c < MAX_N_OF_PROPOSERS ->
  arr_get (proposers c) (proposers_count c) = Some pro -> addr pro = None -> parse_line c g line = None.
Proof.
  intros Hsep Hscan Hp Ha Hget Hnull. unfold parse_line. rewrite Hsep.
  replace (is_keyword (str "replica") "a" "acceptor") with false by reflexivity.
  replace (is_keyword (str "replica") "p" "proposer") with false by reflexivity.
  replace (is_keyword (str "replica") "r" "replica") with true by reflexivity.
  destruct (Z.leb_spec MAX_N_OF_PROPOSERS (proposers_count c)); [lia|].
  destruct (Z.leb_spec MAX_N_OF_PROPOSERS (acceptors_count c)); [lia|]. cbn [orb].
  rewrite Hget. cbn [mbind option_bind]. unfold parse_address. cbn [mbind option_bind]. rewrite Hscan.
  cbn [mbind option_bind]. unfold address_copy. by rewrite Hnull.
Qed.

Lemma config_bad_replica_witness :
  parse_line empty_config default_paxos_config (str "replica localhost 8800") = None.
Proof.
  apply (config_bad_replica _ _ _ (str "localhost 8800") zero_address); vm_compute; reflexivity.
Defined.
