(* ===== verification/Strtok.v ===== *)
(** * Reading a configuration by tokens

    The functions of the C library that the readers of the applications' files
    use: [getline], [strtok] with a space as the only separator, [atoi]; and what
    they do on lines of words. *)

From S2P Require Import Prelude PaxosTypes EvConfig.
#[local] Open Scope Z_scope.

(** The tokens [strtok] finds in a line, with the one separator [" "]. *)
Fixpoint tokens_from (s : cstring) (cur : cstring) : list cstring :=
  let emit l := match cur with [] => l | _ => rev cur :: l end in
  match s with
  | [] => emit []
  | b :: s => if Z_of_byte b =? 32 then emit (tokens_from s []) else tokens_from s (b :: cur)
  end.
Definition tokens (line : cstring) : list cstring := tokens_from line [].

Definition atoi (s : cstring) : Z := i32 (strtol s).1.

(** [getline] *)
Fixpoint split_lines (f : list byte) (cur : list byte) : list (list byte) :=
  match f with
  | [] => match cur with [] => [] | _ => [rev cur] end
  | b :: f => if Z_of_byte b =? 10 then rev (b :: cur) :: split_lines f [] else split_lines f (b :: cur)
  end.

(** [strtok(str, "\n")] ends the string at the newline behind its first token;
    the next call continues behind it. *)
Fixpoint cut_line (s : cstring) : cstring * cstring :=
  match s with
  | [] => ([], [])
  | b :: s => if Z_of_byte b =? 10 then ([], s) else let '(t, r) := cut_line s in (b :: t, r)
  end.
Fixpoint strtok_line (s : cstring) : cstring * cstring :=
  match s with
  | [] => ([], [])
  | b :: s => if Z_of_byte b =? 10 then let '(t, r) := strtok_line s in (b :: t, r)
              else let '(t, r) := cut_line s in (b :: t, r)
  end.

(** ** Words *)

Definition word (w : cstring) : Prop := w <> [] /\ Forall (fun b => Z_of_byte b <> 32) w.

Lemma tokens_from_word w cur s :
  Forall (fun b => Z_of_byte b <> 32) w -> tokens_from (w ++ s) cur = tokens_from s (rev w ++ cur).
Proof.
  intros Hw. revert cur. induction Hw as [|b w Hb _ IH]; intros cur; [done|]. cbn [app tokens_from].
  rewrite (proj2 (Z.eqb_neq _ _)) by done. rewrite IH. cbn [rev]. by rewrite <- app_assoc.
Qed.

Lemma rev_nonempty {A} (w : list A) : w <> [] -> exists b r, rev w = b :: r.
Proof. destruct (rev w) as [|b r] eqn:E; [|eauto]. intros []. by rewrite <- (rev_involutive w), E. Qed.

Lemma tokens_word w s : word w -> tokens (w ++ [x20] ++ s) = w :: tokens s.
Proof.
  intros [Hne Hw]. unfold tokens. rewrite tokens_from_word, app_nil_r by done. cbn [app tokens_from].
  change (Z_of_byte x20 =? 32) with true. destruct (rev_nonempty w Hne) as (b & r & E). rewrite E.
  by rewrite <- E, rev_involutive.
Qed.

Lemma tokens_last w : word w -> tokens w = [w].
Proof.
  intros [Hne Hw]. unfold tokens. rewrite <- (app_nil_r w), tokens_from_word by done. rewrite !app_nil_r. cbn [tokens_from].
  destruct (rev_nonempty w Hne) as (b & r & E). rewrite E. by rewrite <- E, rev_involutive.
Qed.

Lemma split_lines_app l f cur :
  Forall (fun b => Z_of_byte b <> 10) l -> split_lines (l ++ [x0a] ++ f) cur = (rev cur ++ l ++ [x0a]) :: split_lines f [].
Proof.
  intros Hl. revert cur. induction Hl as [|b l Hb _ IH]; intros cur.
  - cbn [app split_lines]. change (Z_of_byte x0a =? 10) with true. by cbn [rev].
  - cbn [app split_lines]. rewrite (proj2 (Z.eqb_neq _ _)) by done. cbn [app] in IH. rewrite IH. cbn [rev]. by rewrite <- app_assoc.
Qed.

Lemma atoi_print n : 0 <= n < 2 ^ 31 -> atoi (print_nat n ++ [x0a]) = n.
Proof.
  intros Hn. unfold atoi, strtol. rewrite read_number_print by (lia || done). cbn [fst].
  unfold i32. rewrite Z.mod_small; lia.
Qed.

(** The tokens of a string take no more room than the string. *)
Fixpoint weight (ts : list cstring) : nat := match ts with [] => O | t :: ts => S (length t) + weight ts end.

Lemma weight_tokens_from s cur : (weight (tokens_from s cur) <= S (length cur + length s))%nat.
Proof.
  revert cur. induction s as [|b s IH]; intros cur; cbn [tokens_from].
  - destruct cur as [|c cur]; cbn [weight]; [lia|]. rewrite length_rev. cbn [length]. lia.
  - destruct (Z_of_byte b =? 32).
    + specialize (IH []). destruct cur as [|c cur]; [cbn [length] in *; lia|].
      cbn [weight]. rewrite length_rev. cbn [length] in *. lia.
    + specialize (IH (b :: cur)). cbn [length] in *. lia.
Qed.

Lemma weight_tokens s : (weight (tokens s) <= S (length s))%nat.
Proof. apply (weight_tokens_from s []). Qed.
