(* ===== verification/MessagePack.v ===== *)
(** * The datagram format ([net/message_pack.c])

    Messages of the UDP transport are written at fixed offsets of a buffer in
    network byte order; a value is its length followed by its bytes.  A pack
    function maps the buffer to the new buffer, [None] being an access outside
    the buffer or outside the value.  The theorem is the round trip through the
    part of the buffer that is sent. *)

From S2P Require Import Prelude Bytes PaxosTypes.

Definition MSGTYPE_OFFSET : Z := 0.
Definition IID_OFFSET : Z := 2.
Definition BALLOT_OFFSET : Z := 6.
Definition VALUE_BALLOT_OFFSET : Z := 8.
Definition AID_OFFSET : Z := 10.
Definition VALUE_OFFSET : Z := 12.
Definition FROM_OFFSET : Z := 2.
Definition TO_OFFSET : Z := 6.
Definition TRIM_OFFSET : Z := 2.
Definition STATE_AID_OFFSET : Z := 2.
Definition TRIM_IID_OFFSET : Z := 6.

(** [sizeof(paxos_message)]: a 4-byte tag and the 22 bytes of the largest
    member of the union, packed. *)
Definition sizeof_paxos_message : Z := 26.

Definition pack_uint32 (p : list byte) (value offset : Z) : option (list byte) :=
  write_at p offset (be_split 4 value).

Definition pack_uint16 (p : list byte) (value offset : Z) : option (list byte) :=
  write_at p offset (be_split 2 value).

(** A negative length converted to [size_t] is outside every buffer; a length
    of zero copies nothing, whatever the pointer. *)
Definition pack_value (p : list byte) (v : paxos_value) (offset : Z) : option (list byte) :=
  p ← pack_uint32 p (paxos_value_len v) offset;
  bs ← read_at (default [] (paxos_value_val v)) 0 (paxos_value_len v);
  write_at p (offset + 4) bs.

Definition unpack_uint32 (p : list byte) (offset : Z) : option Z :=
  be_combine <$> read_at p offset 4.

Definition unpack_uint16 (p : list byte) (offset : Z) : option Z :=
  be_combine <$> read_at p offset 2.

Definition unpack_value (p : list byte) (offset : Z) : option paxos_value :=
  len ← unpack_uint32 p offset;
  let len := i32 len in
  if 0 <? len then
    bs ← read_at p (offset + 4) len;
    Some {| paxos_value_len := len; paxos_value_val := Some (bs ++ [x00]) |}
  else Some {| paxos_value_len := len; paxos_value_val := None |}.

(** The five messages with a value differ in their tag only. *)
Definition pack_body (tag : Z) (p : list byte) (v : paxos_body) : option (list byte) :=
  p ← pack_uint16 p tag MSGTYPE_OFFSET;
  p ← pack_uint32 p (iid v) IID_OFFSET;
  p ← pack_uint16 p (ballot v) BALLOT_OFFSET;
  p ← pack_uint16 p (value_ballot v) VALUE_BALLOT_OFFSET;
  p ← pack_uint16 p (aid v) AID_OFFSET;
  pack_value p (value v) VALUE_OFFSET.

Definition unpack_body (p : list byte) : option paxos_body :=
  iid ← unpack_uint32 p IID_OFFSET;
  ballot ← unpack_uint16 p BALLOT_OFFSET;
  value_ballot ← unpack_uint16 p VALUE_BALLOT_OFFSET;
  aid ← unpack_uint16 p AID_OFFSET;
  value ← unpack_value p VALUE_OFFSET;
  Some {| iid := iid; ballot := ballot; value_ballot := value_ballot; aid := aid; value := value |}.

Definition pack_paxos_prepare (p : list byte) (v : paxos_prepare) := pack_body 0 p v.
Definition unpack_paxos_prepare (p : list byte) : option paxos_prepare := unpack_body p.
Definition pack_paxos_promise (p : list byte) (v : paxos_promise) := pack_body 1 p v.
Definition unpack_paxos_promise (p : list byte) : option paxos_promise := unpack_body p.
Definition pack_paxos_accept (p : list byte) (v : paxos_accept) := pack_body 2 p v.
Definition unpack_paxos_accept (p : list byte) : option paxos_accept := unpack_body p.
Definition pack_paxos_accepted (p : list byte) (v : paxos_accepted) := pack_body 3 p v.
Definition unpack_paxos_accepted (p : list byte) : option paxos_accepted := unpack_body p.
Definition pack_paxos_preempted (p : list byte) (v : paxos_preempted) := pack_body 4 p v.
Definition unpack_paxos_preempted (p : list byte) : option paxos_preempted := unpack_body p.

Definition pack_paxos_repeat (p : list byte) (v : paxos_repeat) : option (list byte) :=
  p ← pack_uint16 p 5 MSGTYPE_OFFSET;
  p ← pack_uint32 p (from v) FROM_OFFSET;
  pack_uint32 p (to v) TO_OFFSET.

Definition unpack_paxos_repeat (p : list byte) : option paxos_repeat :=
  from ← unpack_uint32 p FROM_OFFSET;
  to ← unpack_uint32 p TO_OFFSET;
  Some {| from := from; to := to |}.

Definition pack_paxos_trim (p : list byte) (v : paxos_trim) : option (list byte) :=
  p ← pack_uint16 p 6 MSGTYPE_OFFSET;
  pack_uint32 p (trim_iid v) TRIM_OFFSET.

Definition unpack_paxos_trim (p : list byte) : option paxos_trim :=
  iid ← unpack_uint32 p TRIM_OFFSET;
  Some {| trim_iid := iid |}.

Definition pack_paxos_acceptor_state (p : list byte) (v : paxos_acceptor_state) :
    option (list byte) :=
  p ← pack_uint16 p 7 MSGTYPE_OFFSET;
  p ← pack_uint32 p (state_aid v) STATE_AID_OFFSET;
  pack_uint32 p (state_trim_iid v) TRIM_IID_OFFSET.

Definition unpack_paxos_acceptor_state (p : list byte) : option paxos_acceptor_state :=
  aid ← unpack_uint32 p STATE_AID_OFFSET;
  trim ← unpack_uint32 p TRIM_IID_OFFSET;
  Some {| state_aid := aid; state_trim_iid := trim |}.

Definition pack_paxos_client_value (p : list byte) (v : paxos_client_value) : option (list byte) :=
  pack_value p (client_value v) 2.

Definition unpack_paxos_client_value (p : list byte) : option paxos_client_value :=
  v ← unpack_value p 2;
  Some {| client_value := v |}.

(** The buffer and the number of bytes to send. *)
Definition pack_paxos_message (p : list byte) (v : paxos_message) : option (list byte * Z) :=
  match v with
  | PAXOS_PREPARE b => p ← pack_paxos_prepare p b; Some (p, sizeof_paxos_message)
  | PAXOS_PROMISE b =>
      p ← pack_paxos_promise p b; Some (p, sizeof_paxos_message + paxos_value_len (value b))
  | PAXOS_ACCEPT b =>
      p ← pack_paxos_accept p b; Some (p, sizeof_paxos_message + paxos_value_len (value b))
  | PAXOS_ACCEPTED b =>
      p ← pack_paxos_accepted p b; Some (p, sizeof_paxos_message + paxos_value_len (value b))
  | PAXOS_PREEMPTED b => p ← pack_paxos_preempted p b; Some (p, sizeof_paxos_message)
  | PAXOS_REPEAT r => p ← pack_paxos_repeat p r; Some (p, sizeof_paxos_message)
  | PAXOS_TRIM t => p ← pack_paxos_trim p t; Some (p, sizeof_paxos_message)
  | PAXOS_ACCEPTOR_STATE s => p ← pack_paxos_acceptor_state p s; Some (p, sizeof_paxos_message)
  | PAXOS_CLIENT_VALUE c => p ← pack_paxos_client_value p c; Some (p, sizeof_paxos_message)
  end.

(** [Some None] is a tag that is none of the nine: the union is left alone. *)
Definition unpack_paxos_message (p : list byte) : option (option paxos_message) :=
  type ← unpack_uint16 p 0;
  match type with
  | 0 => v ← unpack_paxos_prepare p; Some (Some (PAXOS_PREPARE v))
  | 1 => v ← unpack_paxos_promise p; Some (Some (PAXOS_PROMISE v))
  | 2 => v ← unpack_paxos_accept p; Some (Some (PAXOS_ACCEPT v))
  | 3 => v ← unpack_paxos_accepted p; Some (Some (PAXOS_ACCEPTED v))
  | 4 => v ← unpack_paxos_preempted p; Some (Some (PAXOS_PREEMPTED v))
  | 5 => v ← unpack_paxos_repeat p; Some (Some (PAXOS_REPEAT v))
  | 6 => v ← unpack_paxos_trim p; Some (Some (PAXOS_TRIM v))
  | 7 => v ← unpack_paxos_acceptor_state p; Some (Some (PAXOS_ACCEPTOR_STATE v))
  | 8 => v ← unpack_paxos_client_value p; Some (Some (PAXOS_CLIENT_VALUE v))
  | _ => Some None
  end.

(** ** Round trip *)

(** The same value, up to the terminating NUL [unpack_value] appends. *)
Definition same_value (v w : paxos_value) : Prop :=
  paxos_value_len v = paxos_value_len w /\ value_bytes v = value_bytes w.

Definition same_body (b c : paxos_body) : Prop :=
  iid b = iid c /\ ballot b = ballot c /\ value_ballot b = value_ballot c /\ aid b = aid c /\
  same_value (value b) (value c).

Definition same_message (m m' : paxos_message) : Prop :=
  match m, m' with
  | PAXOS_PREPARE b, PAXOS_PREPARE c | PAXOS_PROMISE b, PAXOS_PROMISE c
  | PAXOS_ACCEPT b, PAXOS_ACCEPT c | PAXOS_ACCEPTED b, PAXOS_ACCEPTED c
  | PAXOS_PREEMPTED b, PAXOS_PREEMPTED c => same_body b c
  | PAXOS_CLIENT_VALUE v, PAXOS_CLIENT_VALUE w => same_value (client_value v) (client_value w)
  | _, _ => m = m'
  end.

(** Messages that survive the transport: the fields fit their types, the value
    of a prepare or preempted message fits in the 10 bytes that
    [sizeof_paxos_message] leaves after the fixed fields (its length does not
    count the value), and the message is not a client value. *)
Definition sendable (m : paxos_message) : Prop :=
  match m with
  | PAXOS_PREPARE b | PAXOS_PREEMPTED b => body_ok b /\ paxos_value_len (value b) <= 10
  | PAXOS_PROMISE b | PAXOS_ACCEPT b | PAXOS_ACCEPTED b => body_ok b
  | PAXOS_REPEAT r => is_u32 (from r) /\ is_u32 (to r)
  | PAXOS_TRIM t => is_u32 (trim_iid t)
  | PAXOS_ACCEPTOR_STATE s => is_u32 (state_aid s) /\ is_u32 (state_trim_iid s)
  | PAXOS_CLIENT_VALUE _ => False
  end.

(** The room a message needs. *)
Definition packed_size (m : paxos_message) : Z :=
  match m with
  | PAXOS_PROMISE b | PAXOS_ACCEPT b | PAXOS_ACCEPTED b =>
      sizeof_paxos_message + paxos_value_len (value b)
  | _ => sizeof_paxos_message
  end.

(** Integers. *)
Lemma pack_uint16_spec p v off p' :
  pack_uint16 p v off = Some p' -> is_u16 v -> length p' = length p /\ unpack_uint16 p' off = Some v.
Proof.
  intros Hw Hv. pose proof Hw as (_ & _ & Hlen & _)%write_at_Some. split; [done|].
  apply read_write_same in Hw. unfold unpack_uint16. rewrite length_be_split in Hw.
  change (Z.of_nat 2) with 2 in Hw. rewrite Hw. simpl. rewrite be_combine_split.
  f_equal. by apply Z.mod_small.
Qed.

Lemma pack_uint32_spec p v off p' :
  pack_uint32 p v off = Some p' -> is_u32 v -> length p' = length p /\ unpack_uint32 p' off = Some v.
Proof.
  intros Hw Hv. pose proof Hw as (_ & _ & Hlen & _)%write_at_Some. split; [done|].
  apply read_write_same in Hw. unfold unpack_uint32. rewrite length_be_split in Hw.
  change (Z.of_nat 4) with 4 in Hw. rewrite Hw. simpl. rewrite be_combine_split.
  f_equal. by apply Z.mod_small.
Qed.

(** The part of the buffer from [off] on is not read by what comes before. *)
Definition agrees (p p' : list byte) (off : Z) : Prop :=
  length p' = length p /\ forall o n, o + n <= off -> read_at p' o n = read_at p o n.

Lemma agrees_refl p off : agrees p p off.
Proof. done. Qed.

Lemma agrees_trans p1 p2 p3 off off' :
  agrees p1 p2 off -> agrees p2 p3 off' -> off <= off' -> agrees p1 p3 off.
Proof. intros [H1 H2] [H3 H4] Hle. split; [congruence|]. intros o n Hn. rewrite H4, H2 by lia. done. Qed.

Lemma write_agrees p off bs p' : write_at p off bs = Some p' -> agrees p p' off.
Proof.
  intros Hw. pose proof Hw as (_ & _ & Hlen & _)%write_at_Some. split; [done|]. intros o n Hle.
  eapply read_write_other; [done|lia].
Qed.

Lemma unpack_uint16_agrees p p' off o : agrees p p' off -> o + 2 <= off -> unpack_uint16 p' o = unpack_uint16 p o.
Proof. intros [_ Hr] Ho. unfold unpack_uint16. by rewrite Hr. Qed.

Lemma unpack_uint32_agrees p p' off o : agrees p p' off -> o + 4 <= off -> unpack_uint32 p' o = unpack_uint32 p o.
Proof. intros [_ Hr] Ho. unfold unpack_uint32. by rewrite Hr. Qed.

(** A value of known length at [off]. *)
Lemma pack_value_spec p v off :
  value_ok v -> 0 <= off -> off + 4 + paxos_value_len v <= Z.of_nat (length p) ->
  exists p' w, pack_value p v off = Some p' /\ agrees p p' off /\
    unpack_value p' off = Some w /\ same_value v w.
Proof.
  intros [Hl Hl'] Hoff Hroom. unfold pack_value.
  destruct (write_at_in p off (be_split 4 (paxos_value_len v))) as [p1 Hp1];
    [done|rewrite length_be_split; lia|].
  unfold pack_uint32. rewrite Hp1. simpl.
  destruct (pack_uint32_spec _ _ _ _ Hp1 ltac:(lia)) as [Hlen1 Hu].
  destruct (read_at_in (default [] (paxos_value_val v)) 0 (paxos_value_len v)) as (bs & Hbs & Hlbs); [lia..|].
  rewrite Hbs. simpl. destruct (write_at_in p1 (off + 4) bs) as [p2 Hp2]; [lia|lia|].
  pose proof (write_agrees _ _ _ _ Hp2) as Hag2. rewrite Hp2. exists p2.
  assert (value_bytes v = bs) as Hvb.
  { apply read_at_Some in Hbs as (_ & _ & _ & ->). unfold value_bytes. by rewrite drop_0. }
  assert (exists w, unpack_value p2 off = Some w /\ same_value v w) as (w & Hw & Hsame).
  { unfold unpack_value. rewrite (unpack_uint32_agrees p1 p2 (off + 4)), Hu by (done || lia). simpl.
    rewrite i32_small by lia. destruct (Z.ltb_spec 0 (paxos_value_len v)).
    - apply read_write_same in Hp2. rewrite Hlbs in Hp2. rewrite Hp2. simpl. eexists. split; [done|].
      split; [done|]. rewrite Hvb. unfold value_bytes. simpl. by rewrite take_app_le, take_ge by lia.
    - eexists. split; [done|]. split; [done|]. rewrite Hvb. unfold value_bytes. simpl.
      rewrite take_nil. by apply nil_length_inv; lia. }
  exists w. split; [done|]. split; [|done].
  eapply agrees_trans; [by eapply write_agrees|done|lia].
Qed.

(** Chains of integer writes at increasing offsets. *)
Lemma pack_uint16_at p v off :
  is_u16 v -> 0 <= off -> off + 2 <= Z.of_nat (length p) ->
  exists p', pack_uint16 p v off = Some p' /\ agrees p p' off /\ unpack_uint16 p' off = Some v.
Proof.
  intros Hv Ho Hroom. destruct (write_at_in p off (be_split 2 v)) as [p' Hp']; [done|rewrite length_be_split; lia|].
  exists p'. split; [done|]. split; [by eapply write_agrees|]. by eapply pack_uint16_spec.
Qed.

Lemma pack_uint32_at p v off :
  is_u32 v -> 0 <= off -> off + 4 <= Z.of_nat (length p) ->
  exists p', pack_uint32 p v off = Some p' /\ agrees p p' off /\ unpack_uint32 p' off = Some v.
Proof.
  intros Hv Ho Hroom. destruct (write_at_in p off (be_split 4 v)) as [p' Hp']; [done|rewrite length_be_split; lia|].
  exists p'. split; [done|]. split; [by eapply write_agrees|]. by eapply pack_uint32_spec.
Qed.

(** [chase]: a read below the offset of the last writes goes to the buffer it
    was written in. *)
Ltac chase :=
  repeat match goal with
  | H : agrees ?p ?p' ?off |- context [unpack_uint16 ?p' ?o] =>
      rewrite (unpack_uint16_agrees p p' off o H) by lia
  | H : agrees ?p ?p' ?off |- context [unpack_uint32 ?p' ?o] =>
      rewrite (unpack_uint32_agrees p p' off o H) by lia
  end.

Lemma pack_body_spec tag p b :
  is_u16 tag -> body_ok b -> 16 + paxos_value_len (value b) <= Z.of_nat (length p) ->
  exists p' c, pack_body tag p b = Some p' /\ length p' = length p /\
    unpack_uint16 p' 0 = Some tag /\ unpack_body p' = Some c /\ same_body b c.
Proof.
  intros Htag (Hi & Hb & Hvb & Ha & Hv) Hroom. pose proof Hv as [Hl _].
  unfold pack_body, unpack_body, MSGTYPE_OFFSET, IID_OFFSET, BALLOT_OFFSET, VALUE_BALLOT_OFFSET,
    AID_OFFSET, VALUE_OFFSET.
  destruct (pack_uint16_at p tag 0) as (p0 & -> & A0 & U0); [done|lia|lia|]. simpl. pose proof (proj1 A0).
  destruct (pack_uint32_at p0 (iid b) 2) as (p1 & -> & A1 & U1); [done|lia|lia|]. simpl. pose proof (proj1 A1).
  destruct (pack_uint16_at p1 (ballot b) 6) as (p2 & -> & A2 & U2); [done|lia|lia|]. simpl. pose proof (proj1 A2).
  destruct (pack_uint16_at p2 (value_ballot b) 8) as (p3 & -> & A3 & U3); [done|lia|lia|]. simpl. pose proof (proj1 A3).
  destruct (pack_uint16_at p3 (aid b) 10) as (p4 & -> & A4 & U4); [done|lia|lia|]. simpl. pose proof (proj1 A4).
  destruct (pack_value_spec p4 (value b) 12 Hv) as (p5 & w & -> & A5 & U5 & Hw); [lia|lia|]. pose proof (proj1 A5).
  eexists p5, _. split; [done|]. split; [congruence|].
  chase. rewrite U0, U1, U2, U3, U4, U5. simpl. split; [done|]. split; [done|]. by split_and!; try apply Hw.
Qed.

(** *** Reading the part that was sent *)

Lemma unpack_uint16_take p L o :
  o + 2 <= L -> L <= Z.of_nat (length p) -> unpack_uint16 (take (Z.to_nat L) p) o = unpack_uint16 p o.
Proof. intros. unfold unpack_uint16. by rewrite read_at_take by lia. Qed.

Lemma unpack_uint32_take p L o :
  o + 4 <= L -> L <= Z.of_nat (length p) -> unpack_uint32 (take (Z.to_nat L) p) o = unpack_uint32 p o.
Proof. intros. unfold unpack_uint32. by rewrite read_at_take by lia. Qed.

Lemma unpack_value_take p L o w :
  unpack_value p o = Some w -> o + 4 <= L -> o + 4 + paxos_value_len w <= L ->
  L <= Z.of_nat (length p) -> unpack_value (take (Z.to_nat L) p) o = Some w.
Proof.
  intros Hw HL1 HL2 HL. unfold unpack_value in *. rewrite unpack_uint32_take by lia.
  destruct (unpack_uint32 p o) as [len|]; simpl in *; [|done].
  destruct (Z.ltb_spec 0 (i32 len)); [|done].
  destruct (read_at p (o + 4) (i32 len)) as [bs|] eqn:Hbs; simpl in Hw; [|done]. simplify_eq. simpl in *.
  rewrite read_at_take by lia. by rewrite Hbs.
Qed.

Lemma unpack_body_take p L c :
  unpack_body p = Some c -> 16 <= L -> 16 + paxos_value_len (value c) <= L ->
  L <= Z.of_nat (length p) -> unpack_body (take (Z.to_nat L) p) = Some c.
Proof.
  intros Hc HL1 HL2 HL. unfold unpack_body, IID_OFFSET, BALLOT_OFFSET, VALUE_BALLOT_OFFSET, AID_OFFSET,
    VALUE_OFFSET in *.
  rewrite !unpack_uint16_take, !unpack_uint32_take by lia. simplify_bind. simplify_eq. simpl in *.
  by erewrite unpack_value_take by (done || lia).
Qed.

(** The messages with a value. *)
Lemma body_roundtrip tag p b L :
  is_u16 tag -> body_ok b -> 16 <= L -> 16 + paxos_value_len (value b) <= L ->
  L <= Z.of_nat (length p) ->
  exists p' c, pack_body tag p b = Some p' /\
    unpack_uint16 (take (Z.to_nat L) p') 0 = Some tag /\
    unpack_body (take (Z.to_nat L) p') = Some c /\ same_body b c.
Proof.
  intros Htag Hb HL HL2 Hroom.
  destruct (pack_body_spec tag p b Htag Hb ltac:(lia)) as (p' & c & Hp & Hlen & Hu & Hc & Hsame).
  exists p', c. split; [done|]. rewrite unpack_uint16_take by lia. split; [done|]. split; [|done].
  destruct Hsame as (_ & _ & _ & _ & Hl & _). apply unpack_body_take; try done; lia.
Qed.

(** The cases of the round trip: a message with a value that is sent in [L]
    bytes, and one more integer field of a message without. *)
Ltac body_case tag p b L :=
  destruct (body_roundtrip tag p b L) as (p' & c & Hp & Hu & Hc & Hs); [lia|naive_solver|lia|lia|lia|];
  rewrite Hp; simpl; eexists _, _, _; split; [done|]; split; [done|];
  rewrite Hu; simpl; by rewrite Hc.

Ltac field16 p v o := let p' := fresh "p" in let A := fresh "A" in
  destruct (pack_uint16_at p v o) as (p' & -> & A & ?); [lia..|]; simpl; pose proof (proj1 A).

Ltac field32 p v o := let p' := fresh "p" in let A := fresh "A" in
  destruct (pack_uint32_at p v o) as (p' & -> & A & ?); [lia..|]; simpl; pose proof (proj1 A).

Ltac fields_done :=
  eexists _, _, _; split; [done|]; split; [done|];
  rewrite ?unpack_uint16_take, ?unpack_uint32_take by lia; chase;
  repeat match goal with H : unpack_uint16 _ _ = Some _ |- _ => rewrite H; simpl; clear H end;
  rewrite ?unpack_uint16_take, ?unpack_uint32_take by lia; chase;
  repeat match goal with H : unpack_uint32 _ _ = Some _ |- _ => rewrite H; simpl; clear H end.

(** Packing and unpacking, for every type of message. *)
Lemma pack_unpack (p : list byte) (m : paxos_message) :
  sendable m -> packed_size m <= Z.of_nat (length p) ->
  exists p' L m', pack_paxos_message p m = Some (p', L) /\ L = packed_size m /\
    unpack_paxos_message (take (Z.to_nat L) p') = Some (Some m') /\ same_message m m'.
Proof.
  intros Hm Hroom. unfold packed_size, sizeof_paxos_message in Hroom.
  unfold unpack_paxos_message, pack_paxos_message, sizeof_paxos_message, pack_paxos_prepare, pack_paxos_promise,
    pack_paxos_accept, pack_paxos_accepted, pack_paxos_preempted, pack_paxos_repeat, pack_paxos_trim,
    pack_paxos_acceptor_state, unpack_paxos_prepare, unpack_paxos_promise, unpack_paxos_accept,
    unpack_paxos_accepted, unpack_paxos_preempted, unpack_paxos_repeat, unpack_paxos_trim,
    unpack_paxos_acceptor_state, MSGTYPE_OFFSET, FROM_OFFSET, TO_OFFSET, TRIM_OFFSET, STATE_AID_OFFSET,
    TRIM_IID_OFFSET.
  destruct m as [b|b|b|b|b|r|t|s|c]; simpl in Hm; [| | | | | | | |done];
    try (assert (0 <= paxos_value_len (value b) < 2 ^ 31) as Hl by (apply Hm)).
  - body_case 0 p b 26.
  - body_case 1 p b (26 + paxos_value_len (value b)).
  - body_case 2 p b (26 + paxos_value_len (value b)).
  - body_case 3 p b (26 + paxos_value_len (value b)).
  - body_case 4 p b 26.
  - field16 p 5 0. field32 p0 (from r) 2. field32 p1 (to r) 6. fields_done. by destruct r.
  - field16 p 6 0. field32 p0 (trim_iid t) 2. fields_done. by destruct t.
  - field16 p 7 0. field32 p0 (state_aid s) 2. field32 p1 (state_trim_iid s) 6. fields_done. by destruct s.
Qed.

(** C33. The datagram format loses nothing: every message of the protocol except
    client values, packed in a buffer with enough room and cut to the length
    [pack_paxos_message] returns, is unpacked to the same message (a value gets
    a terminating NUL that its length does not count). *)
Theorem message_pack_roundtrip (p : list byte) (m : paxos_message) :
  sendable m -> packed_size m <= Z.of_nat (length p) ->
  exists p' L m', pack_paxos_message p m = Some (p', L) /\ L = packed_size m /\
    unpack_paxos_message (take (Z.to_nat L) p') = Some (Some m') /\ same_message m m'.
Proof. apply pack_unpack. Qed.

(** An accept request with a two-byte value in a 64-byte buffer. *)
Definition sample_accept : paxos_message :=
  PAXOS_ACCEPT {| iid := 7; ballot := 258; value_ballot := 258; aid := 2;
    value := {| paxos_value_len := 2; paxos_value_val := Some [x61; x62] |} |}.

Lemma message_pack_roundtrip_witness :
  exists p' L m', pack_paxos_message (replicate 64 x00) sample_accept = Some (p', L) /\
    L = packed_size sample_accept /\
    unpack_paxos_message (take (Z.to_nat L) p') = Some (Some m') /\ same_message sample_accept m'.
Proof.
  apply (message_pack_roundtrip (replicate 64 x00) sample_accept).
  - unfold sample_accept, sendable, body_ok, value_ok. simpl. lia.
  - vm_compute. discriminate.
Defined.

(** A client value with the bytes "hi". *)
Definition sample_client : paxos_message :=
  PAXOS_CLIENT_VALUE {| client_value := {| paxos_value_len := 2; paxos_value_val := Some [x68; x69] |} |}.

(** Client values are not sent as such: [pack_paxos_client_value] does not
    write the tag, so in a zeroed buffer a client value arrives as a prepare
    request whose instance is the length of the value. *)
Theorem client_value_arrives_as_prepare :
  exists p' b, pack_paxos_message (replicate 64 x00) sample_client = Some (p', 26) /\
    unpack_paxos_message (take 26 p') = Some (Some (PAXOS_PREPARE b)) /\ iid b = 2.
Proof. eexists _, _. split; [vm_compute; reflexivity|]. split; vm_compute; reflexivity. Qed.

(** ** Datagrams in a larger buffer *)

Lemma pack_uint16_length p v o p' : pack_uint16 p v o = Some p' -> length p' = length p.
Proof. by intros (_ & _ & ? & _)%write_at_Some. Qed.

Lemma pack_uint32_length p v o p' : pack_uint32 p v o = Some p' -> length p' = length p.
Proof. by intros (_ & _ & ? & _)%write_at_Some. Qed.

Lemma pack_value_length p v o p' : pack_value p v o = Some p' -> length p' = length p.
Proof.
  unfold pack_value. destruct (pack_uint32 p _ o) as [p1|] eqn:E; simpl; [|done].
  destruct (read_at _ _ _); simpl; [|done]. intros (_ & _ & -> & _)%write_at_Some. by eapply pack_uint32_length.
Qed.

Lemma pack_message_length p m p' n : pack_paxos_message p m = Some (p', n) -> length p' = length p.
Proof.
  unfold pack_paxos_message, pack_paxos_prepare, pack_paxos_promise, pack_paxos_accept, pack_paxos_accepted,
    pack_paxos_preempted, pack_body, pack_paxos_repeat, pack_paxos_trim, pack_paxos_acceptor_state, pack_paxos_client_value.
  intros Hrun.
  destruct m; repeat (match type of Hrun with context [pack_uint16 ?q ?v ?o] =>
      destruct (pack_uint16 q v o) eqn:?; cbn [mbind option_bind] in Hrun; [|done]
    | context [pack_uint32 ?q ?v ?o] => destruct (pack_uint32 q v o) eqn:?; cbn [mbind option_bind] in Hrun; [|done]
    | context [pack_value ?q ?v ?o] => destruct (pack_value q v o) eqn:?; cbn [mbind option_bind] in Hrun; [|done]
    end); simplify_eq;
    repeat match goal with
    | H : pack_uint16 _ _ _ = Some ?p |- context [length ?p] => rewrite (pack_uint16_length _ _ _ _ H); clear H
    | H : pack_uint32 _ _ _ = Some ?p |- context [length ?p] => rewrite (pack_uint32_length _ _ _ _ H); clear H
    | H : pack_value _ _ _ = Some ?p |- context [length ?p] => rewrite (pack_value_length _ _ _ _ H); clear H
    end; done.
Qed.

(** A datagram: the bytes of the buffer that are sent. *)
Lemma pack_dgram p m :
  sendable m -> packed_size m <= Z.of_nat (length p) ->
  exists p' d m', pack_paxos_message p m = Some (p', packed_size m) /\ length p' = length p /\
    read_at p' 0 (packed_size m) = Some d /\ Z.of_nat (length d) = packed_size m /\
    unpack_paxos_message d = Some (Some m') /\ same_message m m'.
Proof.
  intros Hm Hroom. destruct (pack_unpack p m Hm Hroom) as (p' & L & m' & Hp & -> & Hu & Hs).
  pose proof (pack_message_length _ _ _ _ Hp) as Hlen.
  assert (0 <= packed_size m) as Hpos.
  { unfold packed_size, sizeof_paxos_message. unfold sendable, body_ok, value_ok in Hm. destruct m; lia. }
  exists p', (take (Z.to_nat (packed_size m)) p'), m'. split; [done|]. split; [done|].
  split; [by apply read_at_Some; rewrite Hlen|]. split; [rewrite length_take; lia|done].
Qed.

Lemma unpack_uint16_app p r o v : unpack_uint16 p o = Some v -> unpack_uint16 (p ++ r) o = Some v.
Proof.
  unfold unpack_uint16. destruct (read_at p o 2) eqn:E; simpl; [|done].
  by rewrite (read_at_prefix _ _ _ _ _ E).
Qed.

Lemma unpack_uint32_app p r o v : unpack_uint32 p o = Some v -> unpack_uint32 (p ++ r) o = Some v.
Proof.
  unfold unpack_uint32. destruct (read_at p o 4) eqn:E; simpl; [|done].
  by rewrite (read_at_prefix _ _ _ _ _ E).
Qed.

Lemma unpack_value_app p r o v : unpack_value p o = Some v -> unpack_value (p ++ r) o = Some v.
Proof.
  unfold unpack_value. destruct (unpack_uint32 p o) as [len|] eqn:E; simpl; [|done].
  rewrite (unpack_uint32_app _ _ _ _ E). simpl. destruct (0 <? i32 len); [|done].
  destruct (read_at p (o + 4) (i32 len)) eqn:E'; simpl; [|done]. by rewrite (read_at_prefix _ _ _ _ _ E').
Qed.

(** What a datagram holds does not depend on the bytes behind it. *)
Lemma unpack_body_app p r c : unpack_body p = Some c -> unpack_body (p ++ r) = Some c.
Proof.
  unfold unpack_body. intros Hrun.
  destruct (unpack_uint32 p IID_OFFSET) eqn:E1; simpl in Hrun; [|done].
  destruct (unpack_uint16 p BALLOT_OFFSET) eqn:E2; simpl in Hrun; [|done].
  destruct (unpack_uint16 p VALUE_BALLOT_OFFSET) eqn:E3; simpl in Hrun; [|done].
  destruct (unpack_uint16 p AID_OFFSET) eqn:E4; simpl in Hrun; [|done].
  destruct (unpack_value p VALUE_OFFSET) eqn:E5; simpl in Hrun; [|done].
  rewrite (unpack_uint32_app _ r _ _ E1). simpl. rewrite (unpack_uint16_app _ r _ _ E2). simpl.
  rewrite (unpack_uint16_app _ r _ _ E3). simpl. rewrite (unpack_uint16_app _ r _ _ E4). simpl.
  by rewrite (unpack_value_app _ r _ _ E5).
Qed.

Lemma unpack_paxos_message_app p r m :
  unpack_paxos_message p = Some m -> unpack_paxos_message (p ++ r) = Some m.
Proof.
  unfold unpack_paxos_message. destruct (unpack_uint16 p 0) as [tag|] eqn:Ht; simpl; [|done].
  rewrite (unpack_uint16_app _ r _ _ Ht). simpl.
  unfold unpack_paxos_prepare, unpack_paxos_promise, unpack_paxos_accept, unpack_paxos_accepted,
    unpack_paxos_preempted, unpack_paxos_repeat, unpack_paxos_trim, unpack_paxos_acceptor_state,
    unpack_paxos_client_value.
  intros Hm. repeat case_match; try done; simplify_eq;
    repeat match goal with
    | Hm : context [mbind _ (?f p)] |- _ =>
        let E := fresh in destruct (f p) eqn:E; simpl in Hm; [|done];
        rewrite (unpack_body_app _ r _ E); simpl
    | Hm : context [mbind _ (unpack_uint32 p ?o)] |- _ =>
        let E := fresh in destruct (unpack_uint32 p o) eqn:E; simpl in Hm; [|done];
        rewrite (unpack_uint32_app _ r _ _ E); simpl
    | Hm : context [mbind _ (unpack_value p ?o)] |- _ =>
        let E := fresh in destruct (unpack_value p o) eqn:E; simpl in Hm; [|done];
        rewrite (unpack_value_app _ r _ _ E); simpl
    end; done.
Qed.

(** Overwriting the instance id changes nothing else. *)
Definition set_iid (b : paxos_body) (i : Z) : paxos_body :=
  {| iid := i; ballot := ballot b; value_ballot := value_ballot b; aid := aid b; value := value b |}.

Lemma unpack_body_set_iid p p' i c t :
  is_u32 i -> write_at p IID_OFFSET (be_split 4 i) = Some p' -> unpack_body p = Some c ->
  unpack_uint16 p 0 = Some t -> unpack_body p' = Some (set_iid c i) /\ unpack_uint16 p' 0 = Some t.
Proof.
  unfold IID_OFFSET. intros Hi Hw Hrun Ht.
  assert (forall o n, o + n <= 2 \/ 6 <= o -> read_at p' o n = read_at p o n) as Hother.
  { intros o n Hon. eapply read_write_other; [exact Hw|]. by rewrite length_be_split. }
  assert (forall o, o = 0 \/ 6 <= o -> unpack_uint16 p' o = unpack_uint16 p o) as H16
    by (intros o Ho; unfold unpack_uint16; rewrite Hother by lia; done).
  assert (unpack_value p' 12 = unpack_value p 12) as Hv.
  { unfold unpack_value, unpack_uint32. rewrite Hother by lia. destruct (read_at p 12 4); simpl; [|done].
    by rewrite Hother by lia. }
  split; [|by rewrite H16 by lia]. destruct (pack_uint32_spec p i 2 p' Hw Hi) as [_ Hi'].
  unfold unpack_body, IID_OFFSET, BALLOT_OFFSET, VALUE_BALLOT_OFFSET, AID_OFFSET, VALUE_OFFSET in *.
  rewrite Hi', !H16, Hv by lia. simpl. destruct (unpack_uint32 p 2); simpl in Hrun; [|done].
  destruct (unpack_uint16 p 6); simpl in *; [|done]. destruct (unpack_uint16 p 8); simpl in *; [|done].
  destruct (unpack_uint16 p 10); simpl in *; [|done]. destruct (unpack_value p 12); simpl in *; [|done].
  by simplify_eq.
Qed.
