(* ===== verification/TypesPack.v ===== *)
(** * Messages on a TCP stream ([evpaxos/paxos_types_pack.c], [evpaxos/message.c])

    A message is written as one msgpack array.  The msgpack library is not part
    of this repository: it is the class [Msgpack], the bytes its packer writes
    and its stream parser, with the documented behaviour the code relies on in
    [MsgpackLaws].  A libevent buffer is the list of bytes in it.

    The theorems: a message is received as it was sent, one message at a time
    from the head of the buffer, and an incomplete message is left there. *)

From S2P Require Import Prelude Bytes PaxosTypes MessagePack.

(** ** The library *)

(** [msgpack_object]; only the members the code reads have contents. *)
Inductive msgpack_object :=
  | MpUint (u64 : Z)
  | MpBin (bin : list byte)
  | MpArray (array : list msgpack_object)
  | MpOther.

Class Msgpack := {
  mp_array : Z -> list byte;
  mp_uint16 : Z -> list byte;
  mp_uint32 : Z -> list byte;
  mp_int16 : Z -> list byte;
  mp_bin : Z -> list byte;
  (** result code, object and new offset *)
  msgpack_unpack_next : list byte -> Z * msgpack_object * Z;
}.

(** The union of an object read as another member has no determined value. *)
Definition via_u64 (o : msgpack_object) : option Z :=
  match o with MpUint n => Some n | _ => None end.
Definition via_bin (o : msgpack_object) : option (list byte) :=
  match o with MpBin b => Some b | _ => None end.

Definition MSGPACK_OBJECT_AT (o : msgpack_object) (i : Z) : option msgpack_object :=
  match o with MpArray l => arr_get l i | _ => None end.

Section pack.
Context `{MP : Msgpack}.

(** ** Packing

    The packer hands its bytes to [bufferevent_pack_data], which appends them to
    the output buffer of the connection, here [p]. *)

Definition bufferevent_pack_data (bev buf : list byte) : list byte * Z := (bev ++ buf, 0).

Definition msgpack_pack_array (p : list byte) (n : Z) : list byte := (bufferevent_pack_data p (mp_array n)).1.
Definition msgpack_pack_uint16 (p : list byte) (n : Z) : list byte := (bufferevent_pack_data p (mp_uint16 n)).1.
Definition msgpack_pack_uint32 (p : list byte) (n : Z) : list byte := (bufferevent_pack_data p (mp_uint32 n)).1.
Definition msgpack_pack_int16 (p : list byte) (n : Z) : list byte := (bufferevent_pack_data p (mp_int16 n)).1.

Definition msgpack_pack_string (p : list byte) (buffer : option (list byte)) (len : Z) : option (list byte) :=
  bs ← read_at (default [] buffer) 0 len;
  let p := (bufferevent_pack_data p (mp_bin len)).1 in
  Some (bufferevent_pack_data p bs).1.

Definition msgpack_pack_paxos_value (p : list byte) (v : paxos_value) : option (list byte) :=
  msgpack_pack_string p (paxos_value_val v) (paxos_value_len v).

(** The five messages with a value; the type is written with
    [msgpack_pack_uint16] in prepare messages and [msgpack_pack_int16] in the
    others. *)
Definition pack_fields (p : list byte) (v : paxos_body) : option (list byte) :=
  let p := msgpack_pack_uint32 p (iid v) in
  let p := msgpack_pack_uint16 p (ballot v) in
  let p := msgpack_pack_uint16 p (value_ballot v) in
  let p := msgpack_pack_uint16 p (aid v) in
  msgpack_pack_paxos_value p (value v).

Definition msgpack_pack_paxos_prepare (p : list byte) (v : paxos_prepare) : option (list byte) :=
  pack_fields (msgpack_pack_uint16 (msgpack_pack_array p 6) 0) v.
Definition msgpack_pack_paxos_promise (p : list byte) (v : paxos_promise) : option (list byte) :=
  pack_fields (msgpack_pack_int16 (msgpack_pack_array p 6) 1) v.
Definition msgpack_pack_paxos_accept (p : list byte) (v : paxos_accept) : option (list byte) :=
  pack_fields (msgpack_pack_int16 (msgpack_pack_array p 6) 2) v.
Definition msgpack_pack_paxos_accepted (p : list byte) (v : paxos_accepted) : option (list byte) :=
  pack_fields (msgpack_pack_int16 (msgpack_pack_array p 6) 3) v.
Definition msgpack_pack_paxos_preempted (p : list byte) (v : paxos_preempted) : option (list byte) :=
  pack_fields (msgpack_pack_int16 (msgpack_pack_array p 6) 4) v.

Definition msgpack_pack_paxos_repeat (p : list byte) (v : paxos_repeat) : list byte :=
  let p := msgpack_pack_array p 3 in
  let p := msgpack_pack_int16 p 5 in
  let p := msgpack_pack_uint32 p (from v) in
  msgpack_pack_uint32 p (to v).

Definition msgpack_pack_paxos_trim (p : list byte) (v : paxos_trim) : list byte :=
  let p := msgpack_pack_array p 2 in
  let p := msgpack_pack_int16 p 6 in
  msgpack_pack_uint32 p (trim_iid v).

Definition msgpack_pack_paxos_acceptor_state (p : list byte) (v : paxos_acceptor_state) : list byte :=
  let p := msgpack_pack_array p 3 in
  let p := msgpack_pack_int16 p 7 in
  let p := msgpack_pack_uint32 p (state_aid v) in
  msgpack_pack_uint32 p (state_trim_iid v).

Definition msgpack_pack_paxos_client_value (p : list byte) (v : paxos_client_value) : option (list byte) :=
  let p := msgpack_pack_array p 2 in
  let p := msgpack_pack_int16 p 8 in
  msgpack_pack_paxos_value p (client_value v).

Definition msgpack_pack_paxos_message (p : list byte) (v : paxos_message) : option (list byte) :=
  match v with
  | PAXOS_PREPARE b => msgpack_pack_paxos_prepare p b
  | PAXOS_PROMISE b => msgpack_pack_paxos_promise p b
  | PAXOS_ACCEPT b => msgpack_pack_paxos_accept p b
  | PAXOS_ACCEPTED b => msgpack_pack_paxos_accepted p b
  | PAXOS_PREEMPTED b => msgpack_pack_paxos_preempted p b
  | PAXOS_REPEAT r => Some (msgpack_pack_paxos_repeat p r)
  | PAXOS_TRIM t => Some (msgpack_pack_paxos_trim p t)
  | PAXOS_ACCEPTOR_STATE s => Some (msgpack_pack_paxos_acceptor_state p s)
  | PAXOS_CLIENT_VALUE c => msgpack_pack_paxos_client_value p c
  end.

(** ** Unpacking *)

Definition msgpack_unpack_uint32_at (o : msgpack_object) (i : Z) : option Z :=
  x ← MSGPACK_OBJECT_AT o i; u32 <$> via_u64 x.

Definition msgpack_unpack_uint16_at (o : msgpack_object) (i : Z) : option Z :=
  x ← MSGPACK_OBJECT_AT o i; u16 <$> via_u64 x.

Definition msgpack_unpack_string_at (o : msgpack_object) (i : Z) : option (option (list byte) * Z) :=
  x ← MSGPACK_OBJECT_AT o i;
  obj ← via_bin x;
  let len := i32 (Z.of_nat (length obj)) in
  if 0 <? len then bs ← read_at obj 0 len; Some (Some bs, len)
  else Some (None, len).

Definition msgpack_unpack_paxos_value_at (o : msgpack_object) (i : Z) : option paxos_value :=
  '(buffer, len) ← msgpack_unpack_string_at o i;
  Some {| paxos_value_len := len; paxos_value_val := buffer |}.

Definition unpack_fields (o : msgpack_object) : option paxos_body :=
  iid ← msgpack_unpack_uint32_at o 1;
  ballot ← msgpack_unpack_uint16_at o 2;
  value_ballot ← msgpack_unpack_uint16_at o 3;
  aid ← msgpack_unpack_uint16_at o 4;
  value ← msgpack_unpack_paxos_value_at o 5;
  Some {| iid := iid; ballot := ballot; value_ballot := value_ballot; aid := aid; value := value |}.

Definition msgpack_unpack_paxos_prepare (o : msgpack_object) : option paxos_prepare := unpack_fields o.
Definition msgpack_unpack_paxos_promise (o : msgpack_object) : option paxos_promise := unpack_fields o.
Definition msgpack_unpack_paxos_accept (o : msgpack_object) : option paxos_accept := unpack_fields o.
Definition msgpack_unpack_paxos_accepted (o : msgpack_object) : option paxos_accepted := unpack_fields o.
Definition msgpack_unpack_paxos_preempted (o : msgpack_object) : option paxos_preempted := unpack_fields o.

Definition msgpack_unpack_paxos_repeat (o : msgpack_object) : option paxos_repeat :=
  from ← msgpack_unpack_uint32_at o 1;
  to ← msgpack_unpack_uint32_at o 2;
  Some {| from := from; to := to |}.

Definition msgpack_unpack_paxos_trim (o : msgpack_object) : option paxos_trim :=
  iid ← msgpack_unpack_uint32_at o 1;
  Some {| trim_iid := iid |}.

Definition msgpack_unpack_paxos_acceptor_state (o : msgpack_object) : option paxos_acceptor_state :=
  aid ← msgpack_unpack_uint32_at o 1;
  trim ← msgpack_unpack_uint32_at o 2;
  Some {| state_aid := aid; state_trim_iid := trim |}.

Definition msgpack_unpack_paxos_client_value (o : msgpack_object) : option paxos_client_value :=
  v ← msgpack_unpack_paxos_value_at o 1;
  Some {| client_value := v |}.

(** [Some None] is a type that is none of the nine: the union is not written. *)
Definition msgpack_unpack_paxos_message (o : msgpack_object) : option (option paxos_message) :=
  x ← MSGPACK_OBJECT_AT o 0;
  type ← via_u64 x;
  match u32 type with
  | 0 => v ← msgpack_unpack_paxos_prepare o; Some (Some (PAXOS_PREPARE v))
  | 1 => v ← msgpack_unpack_paxos_promise o; Some (Some (PAXOS_PROMISE v))
  | 2 => v ← msgpack_unpack_paxos_accept o; Some (Some (PAXOS_ACCEPT v))
  | 3 => v ← msgpack_unpack_paxos_accepted o; Some (Some (PAXOS_ACCEPTED v))
  | 4 => v ← msgpack_unpack_paxos_preempted o; Some (Some (PAXOS_PREEMPTED v))
  | 5 => v ← msgpack_unpack_paxos_repeat o; Some (Some (PAXOS_REPEAT v))
  | 6 => v ← msgpack_unpack_paxos_trim o; Some (Some (PAXOS_TRIM v))
  | 7 => v ← msgpack_unpack_paxos_acceptor_state o; Some (Some (PAXOS_ACCEPTOR_STATE v))
  | 8 => v ← msgpack_unpack_paxos_client_value o; Some (Some (PAXOS_CLIENT_VALUE v))
  | _ => Some None
  end.

(** ** Sending and receiving ([message.c])

    [bev] is the output buffer of a connection. *)

Definition send_paxos_message (bev : list byte) (msg : paxos_message) : option (list byte) :=
  msgpack_pack_paxos_message bev msg.

Definition send_paxos_prepare (bev : list byte) (p : paxos_prepare) := send_paxos_message bev (PAXOS_PREPARE p).
Definition send_paxos_promise (bev : list byte) (p : paxos_promise) := send_paxos_message bev (PAXOS_PROMISE p).
Definition send_paxos_accept (bev : list byte) (p : paxos_accept) := send_paxos_message bev (PAXOS_ACCEPT p).
Definition send_paxos_accepted (bev : list byte) (p : paxos_accepted) := send_paxos_message bev (PAXOS_ACCEPTED p).
Definition send_paxos_preempted (bev : list byte) (p : paxos_preempted) := send_paxos_message bev (PAXOS_PREEMPTED p).
Definition send_paxos_repeat (bev : list byte) (p : paxos_repeat) := send_paxos_message bev (PAXOS_REPEAT p).
Definition send_paxos_trim (bev : list byte) (t : paxos_trim) := send_paxos_message bev (PAXOS_TRIM t).

Definition paxos_submit (bev : list byte) (data : option (list byte)) (size : Z) : option (list byte) :=
  send_paxos_message bev (PAXOS_CLIENT_VALUE
    {| client_value := {| paxos_value_len := size; paxos_value_val := data |} |}).

(** The result, the message (when its type is known) and the rest of the buffer. *)
Definition recv_paxos_message (inb : list byte) : option (Z * option paxos_message * list byte) :=
  let size := Z.of_nat (length inb) in
  if size =? 0 then Some (0, None, inb) else
  let '(ret, data, offset) := msgpack_unpack_next inb in
  if negb (ret =? 0) then
    out ← msgpack_unpack_paxos_message data;
    Some (1, out, drop (Z.to_nat offset) inb)
  else Some (0, None, inb).
End pack.

(** ** What the library promises *)

(** The calls of the packer in an array. *)
Inductive mp_item :=
  | ItUint16 (n : Z) | ItUint32 (n : Z) | ItInt16 (n : Z) | ItBin (bs : list byte).

Definition item_ok (it : mp_item) : Prop :=
  match it with
  | ItUint16 n => is_u16 n
  | ItUint32 n => is_u32 n
  | ItInt16 n => 0 <= n < 2 ^ 15
  | ItBin bs => Z.of_nat (length bs) < 2 ^ 32
  end.

Definition item_obj (it : mp_item) : msgpack_object :=
  match it with ItUint16 n | ItUint32 n | ItInt16 n => MpUint n | ItBin bs => MpBin bs end.

Definition item_bytes `{MP : Msgpack} (it : mp_item) : list byte :=
  match it with
  | ItUint16 n => mp_uint16 n
  | ItUint32 n => mp_uint32 n
  | ItInt16 n => mp_int16 n
  | ItBin bs => mp_bin (Z.of_nat (length bs)) ++ bs
  end.

Definition array_bytes `{MP : Msgpack} (its : list mp_item) : list byte :=
  mp_array (Z.of_nat (length its)) ++ concat (item_bytes <$> its).

Definition items_ok (its : list mp_item) : Prop := (length its < 16)%nat /\ Forall item_ok its.

(** The parser returns the array at the head of the buffer and the offset behind
    it, and 0 while the array is incomplete. *)
Class MsgpackLaws `{MP : Msgpack} := {
  law_header n : mp_array n <> [];
  law_unpack its rest : items_ok its -> exists ret, ret <> 0 /\
    msgpack_unpack_next (array_bytes its ++ rest) =
      (ret, MpArray (item_obj <$> its), Z.of_nat (length (array_bytes its)));
  law_partial its p q : items_ok its -> array_bytes its = p ++ q -> q <> [] ->
    exists o off, msgpack_unpack_next p = (0, o, off);
}.

(** ** Messages as items *)

Definition body_items (type : mp_item) (b : paxos_body) : list mp_item :=
  [type; ItUint32 (iid b); ItUint16 (ballot b); ItUint16 (value_ballot b); ItUint16 (aid b);
   ItBin (value_bytes (value b))].

Definition message_items (m : paxos_message) : list mp_item :=
  match m with
  | PAXOS_PREPARE b => body_items (ItUint16 0) b
  | PAXOS_PROMISE b => body_items (ItInt16 1) b
  | PAXOS_ACCEPT b => body_items (ItInt16 2) b
  | PAXOS_ACCEPTED b => body_items (ItInt16 3) b
  | PAXOS_PREEMPTED b => body_items (ItInt16 4) b
  | PAXOS_REPEAT r => [ItInt16 5; ItUint32 (from r); ItUint32 (to r)]
  | PAXOS_TRIM t => [ItInt16 6; ItUint32 (trim_iid t)]
  | PAXOS_ACCEPTOR_STATE s => [ItInt16 7; ItUint32 (state_aid s); ItUint32 (state_trim_iid s)]
  | PAXOS_CLIENT_VALUE c => [ItInt16 8; ItBin (value_bytes (client_value c))]
  end.

(** The fields fit their types. *)
Definition message_ok (m : paxos_message) : Prop :=
  match m with
  | PAXOS_PREPARE b | PAXOS_PROMISE b | PAXOS_ACCEPT b | PAXOS_ACCEPTED b | PAXOS_PREEMPTED b => body_ok b
  | PAXOS_REPEAT r => is_u32 (from r) /\ is_u32 (to r)
  | PAXOS_TRIM t => is_u32 (trim_iid t)
  | PAXOS_ACCEPTOR_STATE s => is_u32 (state_aid s) /\ is_u32 (state_trim_iid s)
  | PAXOS_CLIENT_VALUE c => value_ok (client_value c)
  end.

(** The value in a buffer of its own, none for the empty value. *)
Definition own_value (v : paxos_value) : paxos_value :=
  {| paxos_value_len := paxos_value_len v;
     paxos_value_val := if 0 <? paxos_value_len v then Some (value_bytes v) else None |}.

Definition own_body (b : paxos_body) : paxos_body :=
  {| iid := iid b; ballot := ballot b; value_ballot := value_ballot b; aid := aid b;
     value := own_value (value b) |}.

Definition own_message (m : paxos_message) : paxos_message :=
  match m with
  | PAXOS_PREPARE b => PAXOS_PREPARE (own_body b)
  | PAXOS_PROMISE b => PAXOS_PROMISE (own_body b)
  | PAXOS_ACCEPT b => PAXOS_ACCEPT (own_body b)
  | PAXOS_ACCEPTED b => PAXOS_ACCEPTED (own_body b)
  | PAXOS_PREEMPTED b => PAXOS_PREEMPTED (own_body b)
  | PAXOS_CLIENT_VALUE c => PAXOS_CLIENT_VALUE {| client_value := own_value (client_value c) |}
  | m => m
  end.

Lemma own_value_exact v : value_exact v -> own_value v = v.
Proof.
  intros Hv. destruct v as [len val]. destruct Hv as [Hl Hv]. unfold own_value, value_bytes. simpl in *.
  destruct val as [l|]; [|by subst].
  destruct Hv as [Hlen Hpos]. destruct (Z.ltb_spec 0 len); [|lia]. by rewrite take_ge by (simpl; lia).
Qed.

Lemma message_items_ok m : message_ok m -> items_ok (message_items m).
Proof.
  intros Hm. split; [by destruct m; simpl; lia|].
  assert (forall v, value_ok v -> Z.of_nat (length (value_bytes v)) < 2 ^ 32) as Hvl.
  { intros v Hv. rewrite length_value_bytes by done. destruct Hv. lia. }
  destruct m; simpl in Hm; unfold message_items, body_items;
    repeat constructor; simpl; try apply Hm; try apply Hvl; try apply Hm; lia.
Qed.

Section stream.
Context `{ML : MsgpackLaws}.

Lemma pack_value_items p v :
  value_ok v -> msgpack_pack_paxos_value p v = Some (p ++ item_bytes (ItBin (value_bytes v))).
Proof.
  intros Hv. unfold msgpack_pack_paxos_value, msgpack_pack_string. pose proof Hv as [Hl Hl'].
  destruct (read_at_in (default [] (paxos_value_val v)) 0 (paxos_value_len v)) as (bs & Hbs & Hlen); [lia..|].
  rewrite Hbs. simpl. apply read_at_Some in Hbs as (_ & _ & _ & Hbs). rewrite drop_0 in Hbs.
  change (bs = value_bytes v) in Hbs. subst bs. rewrite length_value_bytes by done. by rewrite (assoc_L (++)).
Qed.

Lemma pack_message_items p m :
  message_ok m -> msgpack_pack_paxos_message p m = Some (p ++ array_bytes (message_items m)).
Proof.
  intros Hm. destruct m as [b|b|b|b|b|r|t|s|c]; simpl in Hm;
    unfold msgpack_pack_paxos_message, msgpack_pack_paxos_prepare, msgpack_pack_paxos_promise,
      msgpack_pack_paxos_accept, msgpack_pack_paxos_accepted, msgpack_pack_paxos_preempted,
      msgpack_pack_paxos_client_value, pack_fields;
    try (rewrite pack_value_items by apply Hm);
    unfold array_bytes, msgpack_pack_paxos_repeat, msgpack_pack_paxos_trim, msgpack_pack_paxos_acceptor_state,
      msgpack_pack_array, msgpack_pack_uint16, msgpack_pack_uint32, msgpack_pack_int16, bufferevent_pack_data;
    simpl; f_equal; rewrite <- !(assoc_L (++)), ?app_nil_r; done.
Qed.

Lemma unpack_value_items its i v :
  value_ok v -> its !! i = Some (ItBin (value_bytes v)) ->
  msgpack_unpack_paxos_value_at (MpArray (item_obj <$> its)) (Z.of_nat i) = Some (own_value v).
Proof.
  intros Hv Hi. unfold msgpack_unpack_paxos_value_at, msgpack_unpack_string_at. simpl.
  unfold arr_get. rewrite (proj2 (Z.leb_le 0 _)), Nat2Z.id by lia. rewrite list_lookup_fmap, Hi. simpl.
  pose proof Hv as [Hl _]. rewrite length_value_bytes, i32_small by (done || lia). unfold own_value.
  destruct (Z.ltb_spec 0 (paxos_value_len v)); [|done].
  rewrite (read_at_app_r [] (value_bytes v)); [done|done|by rewrite length_value_bytes].
Qed.

Lemma unpack_fields_items type b :
  body_ok b -> unpack_fields (MpArray (item_obj <$> body_items type b)) = Some (own_body b).
Proof.
  intros (Hi & Hb & Hvb & Ha & Hv). unfold unpack_fields.
  pose proof (unpack_value_items (body_items type b) 5 (value b) Hv eq_refl) as Hval.
  change (Z.of_nat 5) with 5 in Hval. rewrite Hval.
  unfold msgpack_unpack_uint32_at, msgpack_unpack_uint16_at, MSGPACK_OBJECT_AT, arr_get. simpl.
  rewrite u32_small, !u16_small by done. done.
Qed.

Lemma unpack_message_items m :
  message_ok m ->
  msgpack_unpack_paxos_message (MpArray (item_obj <$> message_items m)) = Some (Some (own_message m)).
Proof.
  intros Hm. unfold msgpack_unpack_paxos_message. destruct m as [b|b|b|b|b|r|t|s|c]; cbn [message_ok message_items] in *;
    unfold msgpack_unpack_paxos_prepare, msgpack_unpack_paxos_promise, msgpack_unpack_paxos_accept,
      msgpack_unpack_paxos_accepted, msgpack_unpack_paxos_preempted, msgpack_unpack_paxos_repeat,
      msgpack_unpack_paxos_trim, msgpack_unpack_paxos_acceptor_state, msgpack_unpack_paxos_client_value;
    rewrite ?unpack_fields_items by done; try reflexivity.
  - unfold msgpack_unpack_uint32_at. simpl. rewrite !u32_small by apply Hm. by destruct r.
  - unfold msgpack_unpack_uint32_at. simpl. rewrite u32_small by apply Hm. by destruct t.
  - unfold msgpack_unpack_uint32_at. simpl. rewrite !u32_small by apply Hm. by destruct s.
  - pose proof (unpack_value_items (message_items (PAXOS_CLIENT_VALUE c)) 1 (client_value c) Hm eq_refl) as Hval.
    change (Z.of_nat 1) with 1 in Hval. cbn [message_items] in Hval. by rewrite Hval.
Qed.

(** The bytes of a message. *)
Definition wire (m : paxos_message) : list byte := array_bytes (message_items m).

Lemma send_wire bev m : message_ok m -> send_paxos_message bev m = Some (bev ++ wire m).
Proof. apply pack_message_items. Qed.

Lemma wire_nonempty m : wire m <> [].
Proof using ML. unfold wire, array_bytes. intros [E _]%app_eq_nil. by eapply law_header. Qed.

(** The message at the head of the buffer is received. *)
Lemma recv_wire m rest :
  message_ok m -> recv_paxos_message (wire m ++ rest) = Some (1, Some (own_message m), rest).
Proof using ML.
  intros Hm. unfold recv_paxos_message.
  destruct (Z.eqb_spec (Z.of_nat (length (wire m ++ rest))) 0) as [E|_].
  { exfalso. apply (wire_nonempty m). rewrite length_app in E. apply nil_length_inv. lia. }
  destruct (law_unpack (message_items m) rest (message_items_ok m Hm)) as (ret & Hret & Hnext).
  unfold wire. rewrite Hnext. destruct (Z.eqb_spec ret 0); [done|]. simpl.
  rewrite unpack_message_items by done. simpl. by rewrite Nat2Z.id, drop_app_length.
Qed.

(** An incomplete message stays in the buffer. *)
Lemma recv_partial m p q :
  message_ok m -> wire m = p ++ q -> q <> [] -> recv_paxos_message p = Some (0, None, p).
Proof using ML.
  intros Hm Hw Hq. unfold recv_paxos_message. destruct (Z.of_nat (length p) =? 0); [done|].
  destruct (law_partial (message_items m) p q (message_items_ok m Hm) Hw Hq) as (o & off & ->). done.
Qed.
End stream.

(** ** The msgpack format

    The encodings the packer chooses for these calls, and a parser for them: an
    instance of the library that satisfies the laws. *)

Module MsgpackFormat.

(** [More]: the buffer ends inside the object. *)
Inductive parsed (A : Type) := Done (x : A) (rest : list byte) | More | Bad.
Arguments Done {A}. Arguments More {A}. Arguments Bad {A}.

Definition parser (A : Type) := list byte -> parsed A.

Definition pret {A} (x : A) : parser A := fun l => Done x l.
Definition pbind {A B} (f : parser A) (g : A -> parser B) : parser B := fun l =>
  match f l with Done x rest => g x rest | More => More | Bad => Bad end.

Definition take_n (n : nat) : parser (list byte) := fun l =>
  if decide (length l < n)%nat then More else Done (take n l) (drop n l).
Definition any : parser Z := fun l => match l with [] => More | b :: l => Done (Z_of_byte b) l end.
Definition uint (n : nat) : parser Z := pbind (take_n n) (fun bs => pret (be_combine bs)).
Definition bin (n : Z) : parser msgpack_object := pbind (take_n (Z.to_nat n)) (fun bs => pret (MpBin bs)).

Definition object : parser msgpack_object :=
  pbind any (fun z =>
    if z <? 128 then pret (MpUint z)
    else if z =? 204 then pbind (uint 1) (fun n => pret (MpUint n))
    else if z =? 205 then pbind (uint 2) (fun n => pret (MpUint n))
    else if z =? 206 then pbind (uint 4) (fun n => pret (MpUint n))
    else if z =? 196 then pbind (uint 1) bin
    else if z =? 197 then pbind (uint 2) bin
    else if z =? 198 then pbind (uint 4) bin
    else fun _ => Bad).

Fixpoint objects (n : nat) : parser (list msgpack_object) :=
  match n with
  | O => pret []
  | S n => pbind object (fun x => pbind (objects n) (fun l => pret (x :: l)))
  end.

Definition array : parser msgpack_object :=
  pbind any (fun z =>
    if (144 <=? z) && (z <? 160) then pbind (objects (Z.to_nat (z - 144))) (fun l => pret (MpArray l))
    else fun _ => Bad).

Definition int_bytes (n : Z) : list byte :=
  if n <? 128 then [byte_of_Z n]
  else if n <? 2 ^ 8 then byte_of_Z 204 :: be_split 1 n
  else if n <? 2 ^ 16 then byte_of_Z 205 :: be_split 2 n
  else byte_of_Z 206 :: be_split 4 n.

Definition bin_bytes (n : Z) : list byte :=
  if n <? 2 ^ 8 then byte_of_Z 196 :: be_split 1 n
  else if n <? 2 ^ 16 then byte_of_Z 197 :: be_split 2 n
  else byte_of_Z 198 :: be_split 4 n.

#[export] Instance format : Msgpack := {|
  mp_array n := [byte_of_Z (144 + n)];
  mp_uint16 := int_bytes;
  mp_uint32 := int_bytes;
  mp_int16 := int_bytes;
  mp_bin := bin_bytes;
  msgpack_unpack_next l :=
    match array l with
    | Done o rest => (2, o, Z.of_nat (length l) - Z.of_nat (length rest))
    | More => (0, MpOther, 0)
    | Bad => (-1, MpOther, 0)
    end;
|}.

(** [f] reads exactly the bytes [bs] as [x], and waits for all of them. *)
Definition reads {A} (f : parser A) (bs : list byte) (x : A) : Prop :=
  (forall rest, f (bs ++ rest) = Done x rest) /\
  (forall p q, bs = p ++ q -> q <> [] -> f p = More).

Lemma reads_pret {A} (x : A) : reads (pret x) [] x.
Proof. split; [done|]. intros p q [-> ->]%eq_sym%app_eq_nil. done. Qed.

Lemma reads_pbind {A B} (f : parser A) (g : A -> parser B) b1 b2 x y :
  reads f b1 x -> reads (g x) b2 y -> reads (pbind f g) (b1 ++ b2) y.
Proof.
  intros [Hf Hf'] [Hg Hg']. split.
  - intros rest. unfold pbind. by rewrite <- (assoc_L (++)), Hf, Hg.
  - intros p q Hpq Hq. unfold pbind. apply app_eq_inv in Hpq as [(k & -> & ->)|(k & -> & ->)].
    + destruct k as [|c k]; [|by rewrite (Hf' p (c :: k))]. rewrite app_nil_r in Hf. rewrite (app_nil_r p) in Hf'.
      specialize (Hf []). rewrite app_nil_r in Hf. rewrite Hf. by apply (Hg' [] b2).
    + rewrite Hf. by apply (Hg' k q).
Qed.

Lemma reads_any z : 0 <= z < 256 -> reads any [byte_of_Z z] z.
Proof.
  intros Hz. split.
  - intros rest. simpl. rewrite Z_of_byte_of_Z. f_equal. by apply Z.mod_small.
  - intros [|b p] q Hpq Hq; [done|]. simplify_eq/=. by destruct p, q.
Qed.

Lemma reads_take n bs : n = length bs -> reads (take_n n) bs bs.
Proof.
  intros ->. split.
  - intros rest. unfold take_n. rewrite length_app, decide_False by lia. by rewrite take_app_length, drop_app_length.
  - intros p q -> Hq. unfold take_n. rewrite length_app. destruct q; [done|]. rewrite decide_True by (simpl; lia). done.
Qed.

Lemma reads_uint n z : 0 <= z < 256 ^ Z.of_nat n -> reads (uint n) (be_split n z) z.
Proof.
  intros Hz. unfold uint. rewrite <- (app_nil_r (be_split n z)).
  eapply reads_pbind; [apply reads_take; by rewrite length_be_split|].
  rewrite be_combine_split, Z.mod_small by done. apply reads_pret.
Qed.

Lemma reads_map {A B} (f : parser A) (h : A -> B) bs x :
  reads f bs x -> reads (pbind f (fun x => pret (h x))) bs (h x).
Proof. intros Hf. rewrite <- (app_nil_r bs). eapply reads_pbind; [done|]. apply reads_pret. Qed.

Lemma reads_tag {B} z (g : Z -> parser B) bs y :
  0 <= z < 256 -> reads (g z) bs y -> reads (pbind any g) (byte_of_Z z :: bs) y.
Proof. intros Hz Hg. apply (reads_pbind any g [byte_of_Z z] bs z); [by apply reads_any|done]. Qed.

#[local] Opaque be_split byte_of_Z.

Lemma reads_int n : is_u32 n -> reads object (int_bytes n) (MpUint n).
Proof.
  intros Hn. unfold int_bytes. destruct (Z.ltb_spec n 128).
  { apply reads_tag; [lia|]. rewrite (proj2 (Z.ltb_lt n 128)) by done. apply reads_pret. }
  destruct (Z.ltb_spec n (2 ^ 8)); [|destruct (Z.ltb_spec n (2 ^ 16))]; (apply reads_tag; [lia|]); simpl;
    apply (reads_map (uint _) MpUint), reads_uint; lia.
Qed.

Lemma reads_bin bs n : n = Z.of_nat (length bs) -> is_u32 n -> reads object (bin_bytes n ++ bs) (MpBin bs).
Proof.
  intros Hlen Hn.
  assert (reads (bin n) bs (MpBin bs)) as Hbin by (apply (reads_map (take_n _) MpBin), reads_take; lia).
  unfold bin_bytes. destruct (Z.ltb_spec n (2 ^ 8)); [|destruct (Z.ltb_spec n (2 ^ 16))]; rewrite <- app_comm_cons; (apply reads_tag; [lia|]); simpl;
    (eapply reads_pbind; [apply reads_uint; lia|done]).
Qed.

Lemma reads_item it : item_ok it -> reads object (item_bytes it) (item_obj it).
Proof. destruct it; simpl; intros; first [apply reads_int; lia|apply reads_bin; [done|lia]]. Qed.

Lemma reads_items its :
  Forall item_ok its -> reads (objects (length its)) (concat (item_bytes <$> its)) (item_obj <$> its).
Proof.
  induction 1 as [|it its Hit _ IH]; simpl; [apply reads_pret|].
  eapply reads_pbind; [by apply reads_item|]. by apply (reads_map _ (cons (item_obj it))).
Qed.

Lemma reads_array its : items_ok its -> reads array (array_bytes its) (MpArray (item_obj <$> its)).
Proof.
  intros [Hlen Hits]. unfold array_bytes, array. simpl. apply reads_tag; [lia|].
  rewrite (proj2 (Z.leb_le _ _)), (proj2 (Z.ltb_lt _ _)) by lia. simpl.
  replace (Z.to_nat (144 + Z.of_nat (length its) - 144)) with (length its) by lia.
  by apply (reads_map _ MpArray), reads_items.
Qed.

#[export] Instance format_laws : MsgpackLaws.
Proof.
  split.
  - done.
  - intros its rest Hits. exists 2. split; [done|]. destruct (reads_array its Hits) as [Hr _]. simpl in *.
    rewrite Hr. f_equal. rewrite length_app. lia.
  - intros its p q Hits Hpq Hq. destruct (reads_array its Hits) as [_ Hr]. simpl in *. rewrite (Hr p q Hpq Hq). eauto.
Qed.
End MsgpackFormat.

(** C30. TCP messages are received as they were sent: [send_paxos_message] appends
    one frame to the stream, [recv_paxos_message] on a buffer that starts with the
    frame returns the message (its value in a buffer of its own) and leaves
    exactly what follows, and on a part of the frame it returns 0 and leaves the
    buffer as it is. *)
Theorem message_stream_roundtrip `{ML : MsgpackLaws} (m : paxos_message) :
  message_ok m -> exists frame,
    (forall bev, send_paxos_message bev m = Some (bev ++ frame)) /\
    (forall rest, recv_paxos_message (frame ++ rest) = Some (1, Some (own_message m), rest)) /\
    (forall p q, frame = p ++ q -> q <> [] -> recv_paxos_message p = Some (0, None, p)).
Proof.
  intros Hm. exists (wire m). split; [intros bev; by apply send_wire|].
  split; [intros rest; by apply recv_wire|]. intros p q. by apply recv_partial.
Qed.

Lemma message_stream_roundtrip_witness :
  let MP := MsgpackFormat.format in exists frame,
    (forall bev, send_paxos_message bev sample_client = Some (bev ++ frame)) /\
    (forall rest, recv_paxos_message (frame ++ rest) = Some (1, Some (own_message sample_client), rest)) /\
    (forall p q, frame = p ++ q -> q <> [] -> recv_paxos_message p = Some (0, None, p)).
Proof.
  apply (message_stream_roundtrip (ML := MsgpackFormat.format_laws) sample_client).
  unfold message_ok, value_ok. simpl. lia.
Defined.

(** A parse error is taken for a message: [recv_paxos_message] does not tell
    the negative code of a parse error from success, and reads the object, which
    the parser left empty. *)
Theorem parse_error_is_read `{MP : Msgpack} inb ret off :
  inb <> [] -> ret < 0 -> msgpack_unpack_next inb = (ret, MpOther, off) -> recv_paxos_message inb = None.
Proof.
  intros Hne Hret Hnext. unfold recv_paxos_message. rewrite Hnext.
  destruct (Z.eqb_spec (Z.of_nat (length inb)) 0) as [E|_]; [destruct inb; [done|simpl in E; lia]|].
  destruct (Z.eqb_spec ret 0); [lia|done].
Qed.

Lemma parse_error_is_read_witness : recv_paxos_message (MP := MsgpackFormat.format) [xc1] = None.
Proof. apply (parse_error_is_read [xc1] (-1) 0); [done|lia|reflexivity]. Defined.
