(* ===== verification/Peers.v ===== *)
(** * Connections ([evpaxos/peers.c])

    The connections to the acceptors ([peers]) and from clients ([clients]), the
    subscriptions of message handlers, and the events of libevent.  libevent is
    not part of this repository; of a [struct bufferevent] the model has the bytes
    in the output buffer and what it is connected to.  The input buffer is an
    argument of [on_read].  A function pointer is a value of a type [F] that the
    program interprets ([call]).  [None] is an access outside an array. *)

From S2P Require Import Prelude Bytes PaxosTypes EvConfig MessagePack TypesPack.

Definition BEV_EVENT_EOF : Z := 16.
Definition BEV_EVENT_ERROR : Z := 32.
Definition BEV_EVENT_CONNECTED : Z := 128.

Inductive bev_link := BevNone | BevConnecting (a : sockaddr_in) | BevSocket (fd : Z).

Record bufferevent := Bufferevent { bev_output : list byte; bev_link_ : bev_link; bev_enabled : bool }.

(** [bufferevent_socket_new(base, -1, ...)] *)
Definition bufferevent_new : bufferevent :=
  {| bev_output := []; bev_link_ := BevNone; bev_enabled := false |}.

Record peer := Peer {
  id : Z;
  status : Z;
  bev : bufferevent;
  reconnect_ev : option bool;    (* NULL, or whether the timer is pending *)
  peer_addr : sockaddr_in;
}.

(** The argument of the callback is part of [callback]. *)
Record subscription (F : Type) := Subscription { sub_type : Z; callback : F }.
Arguments Subscription {F}. Arguments sub_type {F}. Arguments callback {F}.

Record peers (F : Type) := Peers {
  peers_count : Z;
  clients_count : Z;
  peers_ : list peer;
  clients : list peer;
  listener : option Z;
  config : evpaxos_config;
  subs : list (subscription F);
}.
Arguments Peers {F}. Arguments peers_count {F}. Arguments clients_count {F}. Arguments peers_ {F}.
Arguments clients {F}. Arguments listener {F}. Arguments config {F}. Arguments subs {F}.

(** A [struct peer*]: by its place in one of the two arrays. *)
Inductive peer_ref := AcceptorPeer (i : Z) | ClientPeer (i : Z).

Definition set_bev (p : peer) (b : bufferevent) : peer :=
  {| id := id p; status := status p; bev := b; reconnect_ev := reconnect_ev p; peer_addr := peer_addr p |}.
Definition set_id (p : peer) (i : Z) : peer :=
  {| id := i; status := status p; bev := bev p; reconnect_ev := reconnect_ev p; peer_addr := peer_addr p |}.

Definition make_peer (id : Z) (addr : sockaddr_in) : peer :=
  {| id := id; status := BEV_EVENT_EOF; bev := bufferevent_new; reconnect_ev := None; peer_addr := addr |}.

(** [bufferevent_enable] and [bufferevent_socket_connect]; the option
    [TCP_NODELAY] is not part of the state. *)
Definition connect_peer (p : peer) : peer :=
  set_bev p {| bev_output := bev_output (bev p); bev_link_ := BevConnecting (peer_addr p); bev_enabled := true |}.

Definition peer_get_id (p : peer) : Z := id p.
Definition peer_connected (p : peer) : bool := status p =? BEV_EVENT_CONNECTED.

Section peers.
Context {F : Type}.
Implicit Types (ps : peers F).

Definition with_peers ps (l : list peer) : peers F :=
  {| peers_count := peers_count ps; clients_count := clients_count ps; peers_ := l; clients := clients ps;
     listener := listener ps; config := config ps; subs := subs ps |}.
Definition with_clients ps (n : Z) (l : list peer) : peers F :=
  {| peers_count := peers_count ps; clients_count := n; peers_ := peers_ ps; clients := l;
     listener := listener ps; config := config ps; subs := subs ps |}.

Definition peers_new (c : evpaxos_config) : peers F :=
  {| peers_count := 0; clients_count := 0; peers_ := []; clients := []; listener := None; config := c;
     subs := [] |}.

Definition count_peers ps : Z := peers_count ps.

(** [realloc] keeps the first [peers_count] entries; the new one is written. *)
Definition peers_connect ps (id_ : Z) (addr : sockaddr_in) : peers F :=
  let p := make_peer id_ addr in
  let p := {| id := id p; status := status p; bev := bev p; reconnect_ev := Some false;
              peer_addr := peer_addr p |} in
  let p := connect_peer p in
  {| peers_count := peers_count ps + 1; clients_count := clients_count ps;
     peers_ := take (Z.to_nat (peers_count ps)) (peers_ ps) ++ [p];
     clients := clients ps; listener := listener ps; config := config ps; subs := subs ps |}.

(** The loop over the acceptors of the configuration from [i] on. *)
Fixpoint connect_from (inet_addr : cstring -> Z) (n : nat) (i : Z) ps : option (peers F) :=
  match n with
  | O => Some ps
  | S n =>
      addr ← evpaxos_acceptor_address inet_addr (config ps) i;
      connect_from inet_addr n (i + 1) (peers_connect ps i addr)
  end.

Definition peers_connect_to_acceptors (inet_addr : cstring -> Z) ps : option (peers F) :=
  connect_from inet_addr (Z.to_nat (evpaxos_acceptor_count (config ps))) 0 ps.

(** [cb] on the entries [i .. count - 1] of an array of peers. *)
Fixpoint foreach_from (cb : peer -> option peer) (n : nat) (i : Z) (l : list peer) : option (list peer) :=
  match n with
  | O => Some l
  | S n =>
      p ← arr_get l i;
      p ← cb p;
      l ← arr_set l i p;
      foreach_from cb n (i + 1) l
  end.

Definition peers_foreach_acceptor ps (cb : peer -> option peer) : option (peers F) :=
  l ← foreach_from cb (Z.to_nat (peers_count ps)) 0 (peers_ ps);
  Some (with_peers ps l).

Definition peers_foreach_client ps (cb : peer -> option peer) : option (peers F) :=
  l ← foreach_from cb (Z.to_nat (clients_count ps)) 0 (clients ps);
  Some (with_clients ps (clients_count ps) l).

(** The loop has no bound of its own: it ends at a peer with the id, or behind the
    array.  [Some None] is the result NULL. *)
Fixpoint get_acceptor_from (l : list peer) (i id_ : Z) : option (option Z) :=
  match l with
  | [] => None
  | p :: l => if id p =? id_ then Some (Some i) else get_acceptor_from l (i + 1) id_
  end.

Definition peers_get_acceptor ps (id : Z) : option (option Z) :=
  if peers_count ps =? 0 then Some None else get_acceptor_from (peers_ ps) 0 id.

(** [bind] tells whether [evconnlistener_new_bind] succeeds on the port. *)
Definition peers_listen (bind : Z -> bool) ps (port : Z) : peers F * Z :=
  if bind (u16 port) then
    ({| peers_count := peers_count ps; clients_count := clients_count ps; peers_ := peers_ ps;
        clients := clients ps; listener := Some (u16 port); config := config ps; subs := subs ps |}, 1)
  else
    ({| peers_count := peers_count ps; clients_count := clients_count ps; peers_ := peers_ ps;
        clients := clients ps; listener := None; config := config ps; subs := subs ps |}, 0).

(** [subs] has room for 32 subscriptions. *)
Definition peers_subscribe ps (type : Z) (cb : F) : option (peers F) :=
  assert_ (Z.of_nat (length (subs ps)) <? 32);;
  Some {| peers_count := peers_count ps; clients_count := clients_count ps; peers_ := peers_ ps;
          clients := clients ps; listener := listener ps; config := config ps;
          subs := subs ps ++ [Subscription type cb] |}.

(** ** Writing to a peer *)

Definition peer_get ps (r : peer_ref) : option peer :=
  match r with AcceptorPeer i => arr_get (peers_ ps) i | ClientPeer i => arr_get (clients ps) i end.

Definition peer_set ps (r : peer_ref) (p : peer) : option (peers F) :=
  match r with
  | AcceptorPeer i => l ← arr_set (peers_ ps) i p; Some (with_peers ps l)
  | ClientPeer i => l ← arr_set (clients ps) i p; Some (with_clients ps (clients_count ps) l)
  end.
End peers.

Section send.
Context `{MP : Msgpack} {F : Type}.

(** [send_paxos_message(peer_get_buffer(p), msg)]: the message is appended to
    the output of the peer, connected or not. *)
Definition peer_send (m : paxos_message) (p : peer) : option peer :=
  out ← send_paxos_message (bev_output (bev p)) m;
  Some (set_bev p {| bev_output := out; bev_link_ := bev_link_ (bev p); bev_enabled := bev_enabled (bev p) |}).

Definition send_to (ps : peers F) (r : peer_ref) (m : paxos_message) : option (peers F) :=
  p ← peer_get ps r;
  p ← peer_send m p;
  peer_set ps r p.
End send.

(** ** Events *)

Section events.
Context {F : Type}.
Implicit Types (ps : peers F).

Definition flag (ev mask : Z) : bool := negb (Z.land ev mask =? 0).

(** The peer after an event of its connection to an acceptor. *)
Definition on_peer_event (p : peer) (ev : Z) : peer :=
  if flag ev BEV_EVENT_CONNECTED then
    {| id := id p; status := ev; bev := bev p; reconnect_ev := reconnect_ev p; peer_addr := peer_addr p |}
  else if flag ev BEV_EVENT_ERROR || flag ev BEV_EVENT_EOF then
    {| id := id p; status := ev; bev := bufferevent_new; reconnect_ev := Some true; peer_addr := peer_addr p |}
  else p.

Definition on_connection_timeout (p : peer) : peer :=
  connect_peer {| id := id p; status := status p; bev := bev p; reconnect_ev := Some false;
                  peer_addr := peer_addr p |}.

(** [clients[i] = clients[i+1]; clients[i]->id = i;] for [n] turns. *)
Fixpoint shift_clients (n : nat) (i : Z) (l : list peer) : option (list peer) :=
  match n with
  | O => Some l
  | S n =>
      p ← arr_get l (i + 1);
      l ← arr_set l i (set_id p i);
      shift_clients n (i + 1) l
  end.

(** An event of the client whose [id] is [i]. *)
Definition on_client_event ps (i ev : Z) : option (peers F) :=
  if flag ev BEV_EVENT_EOF || flag ev BEV_EVENT_ERROR then
    l ← shift_clients (Z.to_nat (clients_count ps - 1 - i)) i (clients ps);
    let n := clients_count ps - 1 in
    Some (with_clients ps n (take (Z.to_nat n) l))
  else Some ps.

Definition on_accept ps (fd : Z) (addr : sockaddr_in) : peers F :=
  let p := make_peer (clients_count ps) addr in
  let p := set_bev p {| bev_output := []; bev_link_ := BevSocket fd; bev_enabled := true |} in
  with_clients ps (clients_count ps + 1) (take (Z.to_nat (clients_count ps)) (clients ps) ++ [p]).
End events.

(** ** Reading *)

Section reading.
Context `{MP : Msgpack} {F W : Type}.
(** The state of the process, its [struct peers], and the callbacks. *)
Variable get_peers : W -> peers F.
Variable call : F -> W -> peer_ref -> paxos_message -> option W.

(** The handlers subscribed to the type of the message, in the order of their
    subscription (no handler subscribes another). *)
Definition dispatch_message (w : W) (r : peer_ref) (msg : paxos_message) : option W :=
  foldl (fun w sub =>
    w ← w;
    if sub_type sub =? paxos_message_type msg then call (callback sub) w r msg else Some w)
    (Some w) (subs (get_peers w)).

(** The loop of [on_read] on the input buffer [inb]; a message takes at least a
    byte of it, so that its length is enough fuel.  A message of an unknown type
    has no handler. *)
Fixpoint on_read (fuel : nat) (w : W) (r : peer_ref) (inb : list byte) : option (W * list byte) :=
  match fuel with
  | O => None
  | S fuel =>
      '(rv, msg, inb) ← recv_paxos_message inb;
      if rv =? 0 then Some (w, inb) else
      w ← match msg with Some m => dispatch_message w r m | None => Some w end;
      on_read fuel w r inb
  end.

(** libevent appends what arrived to the input buffer and calls [on_read]. *)
Fixpoint receive_chunks (w : W) (r : peer_ref) (inb : list byte) (chunks : list (list byte)) :
    option (W * list byte) :=
  match chunks with
  | [] => Some (w, inb)
  | c :: chunks =>
      '(w, inb) ← on_read (S (length (inb ++ c))) w r (inb ++ c);
      receive_chunks w r inb chunks
  end.

(** The messages handled one after the other. *)
Fixpoint handle_all (w : W) (r : peer_ref) (ms : list paxos_message) : option W :=
  match ms with
  | [] => Some w
  | m :: ms => w ← dispatch_message w r (own_message m); handle_all w r ms
  end.

Context {ML : MsgpackLaws}.

Definition stream (ms : list paxos_message) : list byte := concat (wire <$> ms).

(** [p] is a proper part of the first message of [ms], or nothing. *)
Definition partial (p : list byte) (ms : list paxos_message) : Prop :=
  match ms with [] => p = [] | m :: _ => exists q, wire m = p ++ q /\ q <> [] end.

(** A prefix of a stream is some whole messages and a part of the next. *)
Lemma stream_prefix ms x y :
  stream ms = x ++ y -> exists ms1 ms2 p, ms = ms1 ++ ms2 /\ x = stream ms1 ++ p /\
    partial p ms2 /\ p ++ y = stream ms2.
Proof.
  revert x y. induction ms as [|m ms IH]; intros x y Hxy.
  { apply eq_sym, app_eq_nil in Hxy as [-> ->]. by exists [], [], []. }
  unfold stream in Hxy. simpl in Hxy. apply app_eq_inv in Hxy as [(k & Hk & Hy)|(k & -> & Hk)].
  - destruct k as [|c k].
    + rewrite app_nil_r in Hk. subst x. simpl in Hy. subst y. exists [m], ms, []. split; [done|].
      unfold stream. simpl. rewrite !app_nil_r. split; [done|]. split; [|done].
      destruct ms as [|m' ms]; [done|]. simpl. exists (wire m'). split; [done|]. apply wire_nonempty.
    + exists [], (m :: ms), x. split; [done|]. split; [done|]. split; [by exists (c :: k)|].
      unfold stream. simpl. by rewrite Hk, Hy, (assoc_L (++)).
  - destruct (IH k y Hk) as (ms1 & ms2 & p & -> & -> & Hp & Hs).
    exists (m :: ms1), ms2, p. split; [done|]. split; [unfold stream; simpl; by rewrite (assoc_L (++))|]. done.
Qed.

Lemma recv_partial_head p ms : Forall message_ok ms -> partial p ms -> recv_paxos_message p = Some (0, None, p).
Proof using ML.
  intros Hms Hp. destruct ms as [|m ms]; simpl in Hp; [by subst|].
  destruct Hp as (q & Hw & Hq). eapply recv_partial; [by eapply Forall_inv|done|done].
Qed.

Lemma on_read_stream ms ms2 p w r fuel :
  Forall message_ok ms -> Forall message_ok ms2 -> partial p ms2 -> (length (stream ms ++ p) < fuel)%nat ->
  on_read fuel w r (stream ms ++ p) = (w' ← handle_all w r ms; Some (w', p)).
Proof using ML.
  intros Hms Hms2 Hp. revert w fuel. induction Hms as [|m ms Hm _ IH]; intros w fuel Hfuel;
    (destruct fuel as [|fuel]; [lia|]).
  - simpl. by rewrite (recv_partial_head p ms2).
  - change (stream (m :: ms)) with (wire m ++ stream ms). rewrite <- (assoc_L (++)). cbn [on_read].
    rewrite recv_wire by done. simpl. destruct (dispatch_message w r (own_message m)) as [w1|]; simpl; [|done].
    apply IH. change (stream (m :: ms)) with (wire m ++ stream ms) in Hfuel.
    rewrite !length_app in *. pose proof (wire_nonempty m). destruct (wire m); [done|]. simpl in Hfuel. lia.
Qed.

Lemma handle_all_app w r ms1 ms2 :
  handle_all w r (ms1 ++ ms2) = (w' ← handle_all w r ms1; handle_all w' r ms2).
Proof.
  revert w. induction ms1 as [|m ms1 IH]; intros w; simpl; [done|].
  destruct (dispatch_message w r (own_message m)); simpl; [apply IH|done].
Qed.

Lemma receive_chunks_stream chunks ms p w r :
  Forall message_ok ms -> partial p ms -> p ++ concat chunks = stream ms ->
  receive_chunks w r p chunks = (w' ← handle_all w r ms; Some (w', [])).
Proof using ML.
  revert ms p w. induction chunks as [|c chunks IH]; intros ms p w Hms Hp Hs.
  - rewrite app_nil_r in Hs. destruct ms as [|m ms]; simpl in *; [by subst|].
    destruct Hp as (q & Hw & Hq). exfalso. apply Hq. change (stream (m :: ms)) with (wire m ++ stream ms) in Hs.
    rewrite Hw, <- (assoc_L (++)) in Hs. rewrite <- (app_nil_r p) in Hs at 1. apply app_inv_head in Hs.
    by apply eq_sym, app_eq_nil in Hs as [? _].
  - simpl in Hs. rewrite (assoc_L (++)) in Hs.
    destruct (stream_prefix ms (p ++ c) (concat chunks) (eq_sym Hs)) as (ms1 & ms2 & p' & -> & Hx & Hp' & Hs').
    apply Forall_app in Hms as [Hms1 Hms2]. cbn [receive_chunks]. rewrite Hx.
    rewrite (on_read_stream ms1 ms2 p') by (done || lia). rewrite handle_all_app.
    destruct (handle_all w r ms1) as [w1|]; simpl; [|done]. by apply IH.
Qed.

(** C29. TCP delivery: however the bytes of a sequence of messages are cut into
    pieces on their way, the process handles exactly these messages, each once
    and in order, and nothing is left in the input buffer. *)
Theorem chunked_delivery (chunks : list (list byte)) (ms : list paxos_message) (w : W) (r : peer_ref) :
  Forall message_ok ms -> concat chunks = stream ms ->
  receive_chunks w r [] chunks = (w' ← handle_all w r ms; Some (w', [])).
Proof using ML.
  intros Hms Hs. apply receive_chunks_stream; [done| |done].
  destruct ms as [|m ms]; [done|]. exists (wire m). split; [done|]. apply wire_nonempty.
Qed.
End reading.

(** A process that records the accept requests and client values it handles. *)
Definition sample_peers : peers unit :=
  {| peers_count := 0; clients_count := 0; peers_ := []; clients := []; listener := None;
     config := empty_config; subs := [Subscription 2 tt; Subscription 8 tt] |}.

Definition sample_stream : list byte := stream (MP := MsgpackFormat.format) [sample_accept; sample_client].

Lemma chunked_delivery_witness :
  let MP := MsgpackFormat.format in
  receive_chunks (fun _ => sample_peers) (fun _ w _ m => Some (w ++ [m])) [] (ClientPeer 0) []
    [take 5 sample_stream; take 9 (drop 5 sample_stream); drop 14 sample_stream] =
  Some ([own_message sample_accept; own_message sample_client], []).
Proof.
  intros MP. refine (chunked_delivery (ML := MsgpackFormat.format_laws) (fun _ => sample_peers)
    (fun _ w _ m => Some (w ++ [m])) _ [sample_accept; sample_client] [] (ClientPeer 0) _ _).
  - repeat constructor; simpl; lia.
  - reflexivity.
Defined.

(** ** The array of clients *)

(** The id of a client is its place. *)
Definition clients_ok {F} (ps : peers F) : Prop :=
  clients_count ps = Z.of_nat (length (clients ps)) /\
  forall i p, clients ps !! i = Some p -> id p = Z.of_nat i.

(** What identifies a client apart from its place. *)
Definition client_conn (p : peer) : bufferevent * sockaddr_in := (bev p, peer_addr p).

Lemma shift_clients_spec n i l :
  0 <= i -> i + Z.of_nat n < Z.of_nat (length l) ->
  exists l', shift_clients n i l = Some l' /\ length l' = length l /\
    forall j, l' !! j = if decide (Z.to_nat i <= j < Z.to_nat i + n)%nat
                        then (fun p => set_id p (Z.of_nat j)) <$> l !! S j else l !! j.
Proof.
  revert i l. induction n as [|n IH]; intros i l Hi Hn; simpl.
  { exists l. split; [done|]. split; [done|]. intros j. by rewrite decide_False by lia. }
  destruct (arr_get_in l (i + 1)) as [p Hp]; [lia|]. rewrite Hp. simpl.
  destruct (arr_set_in l i (set_id p i)) as [l1 Hl1]; [lia|]. rewrite Hl1. simpl.
  pose proof (arr_set_length _ _ _ _ Hl1) as Hlen. destruct (IH (i + 1) l1) as (l' & -> & Hlen' & Hl'); [lia..|].
  exists l'. split; [done|]. split; [lia|]. intros j. rewrite Hl'. apply arr_set_Some in Hl1 as [_ ->].
  apply arr_get_Some in Hp as [_ Hp]. replace (Z.to_nat (i + 1)) with (S (Z.to_nat i)) in * by lia.
  destruct (decide (j = Z.to_nat i)) as [->|Hne].
  - rewrite decide_False, decide_True by lia. rewrite list_lookup_insert_eq by lia. rewrite Hp. simpl.
    by rewrite Z2Nat.id.
  - destruct (decide (S (Z.to_nat i) <= j < S (Z.to_nat i) + n)%nat).
    + rewrite decide_True, list_lookup_insert_ne by lia. done.
    + rewrite decide_False, list_lookup_insert_ne by lia. done.
Qed.

(** The clients without the one at [k], with their new ids. *)
Lemma client_event_spec {F} (ps : peers F) k ev :
  clients_ok ps -> 0 <= k < clients_count ps -> flag ev BEV_EVENT_EOF || flag ev BEV_EVENT_ERROR = true ->
  exists ps', on_client_event ps k ev = Some ps' /\ clients_ok ps' /\
    client_conn <$> clients ps' = delete (Z.to_nat k) (client_conn <$> clients ps) /\
    peers_ ps' = peers_ ps /\ subs ps' = subs ps.
Proof.
  intros [Hc Hids] Hk Hev. unfold on_client_event. rewrite Hev.
  destruct (shift_clients_spec (Z.to_nat (clients_count ps - 1 - k)) k (clients ps)) as (l & -> & Hlen & Hl); [lia..|].
  eexists. split; [done|]. simpl.
  assert (forall j, take (Z.to_nat (clients_count ps - 1)) l !! j =
    if decide (j < Z.to_nat k)%nat then clients ps !! j
    else (fun p => set_id p (Z.of_nat j)) <$> clients ps !! S j) as Htake.
  { intros j. destruct (decide (j < Z.to_nat (clients_count ps - 1))%nat) as [Hj|Hj].
    - rewrite lookup_take_lt, Hl by lia. repeat case_decide; try done; lia.
    - rewrite lookup_take_ge by lia. rewrite decide_False by lia. by rewrite lookup_ge_None_2 by lia. }
  split; [split|split; [|done]].
  - simpl. rewrite length_take. lia.
  - intros j p. simpl. rewrite Htake. case_decide; [apply Hids|].
    destruct (clients ps !! S j); simpl; [|done]. by intros [= <-].
  - apply list_eq. intros j. rewrite list_lookup_fmap, Htake.
    destruct (decide (j < Z.to_nat k)%nat).
    + by rewrite list_lookup_delete_lt, list_lookup_fmap by lia.
    + rewrite list_lookup_delete_ge, list_lookup_fmap by lia. by destruct (clients ps !! S j).
Qed.

(** A client that disconnects leaves the others in place: it is removed, the
    others keep their connections and their order, and the id of every client is
    its place in the array, as the next such event relies on. *)
Theorem client_event_removes {F} (ps : peers F) k ev :
  clients_ok ps -> 0 <= k < clients_count ps -> flag ev BEV_EVENT_EOF || flag ev BEV_EVENT_ERROR = true ->
  exists ps', on_client_event ps k ev = Some ps' /\ clients_ok ps' /\
    client_conn <$> clients ps' = delete (Z.to_nat k) (client_conn <$> clients ps) /\
    peers_ ps' = peers_ ps /\ subs ps' = subs ps.
Proof. apply client_event_spec. Qed.

Lemma on_accept_ok {F} (ps : peers F) fd a : clients_ok ps -> clients_ok (on_accept ps fd a).
Proof.
  intros [Hc Hids]. unfold on_accept, clients_ok. simpl. rewrite take_ge by lia. rewrite length_app. simpl.
  split; [lia|]. intros i p [Hi|[Hi Hp]]%lookup_app_Some; [by apply Hids|].
  apply list_lookup_singleton_Some in Hp as [Hi' <-]. simpl. lia.
Qed.

(** Two clients, the first of which disconnects. *)
Definition two_clients : peers unit :=
  on_accept (on_accept (peers_new empty_config) 5 {| sin_port := 1; sin_addr := 1 |}) 6
    {| sin_port := 2; sin_addr := 2 |}.

Lemma two_clients_ok : clients_ok two_clients.
Proof. apply on_accept_ok, on_accept_ok. split; [done|]. by intros i p. Qed.

Lemma client_event_removes_witness :
  exists ps', on_client_event two_clients 0 BEV_EVENT_EOF = Some ps' /\ clients_ok ps' /\
    client_conn <$> clients ps' = delete 0%nat (client_conn <$> clients two_clients) /\
    peers_ ps' = peers_ two_clients /\ subs ps' = subs two_clients.
Proof.
  apply (client_event_removes two_clients 0); [apply two_clients_ok|vm_compute; split; [discriminate|reflexivity]|reflexivity].
Defined.

(** ** The array of acceptors *)

(** The id of an acceptor is its place. *)
Definition acceptors_ok {F} (ps : peers F) : Prop :=
  peers_count ps = Z.of_nat (length (peers_ ps)) /\
  forall i p, peers_ ps !! i = Some p -> id p = Z.of_nat i.

Lemma acceptors_ok_new {F} c : acceptors_ok (F := F) (peers_new c).
Proof. split; [done|]. by intros i p. Qed.

Lemma peers_connect_ok {F} (ps : peers F) a :
  acceptors_ok ps -> acceptors_ok (peers_connect ps (peers_count ps) a).
Proof.
  intros [Hc Hids]. unfold peers_connect, acceptors_ok. simpl. rewrite take_ge by lia. rewrite length_app. simpl.
  split; [lia|]. intros i p [Hi|[Hi Hp]]%lookup_app_Some; [by apply Hids|].
  apply list_lookup_singleton_Some in Hp as [Hi' <-]. simpl. lia.
Qed.

Lemma connect_from_spec {F} inet_addr n (ps : peers F) :
  acceptors_ok ps -> (forall i, 0 <= i < peers_count ps + Z.of_nat n ->
    is_Some (evpaxos_acceptor_address inet_addr (config ps) i)) ->
  exists ps', connect_from inet_addr n (peers_count ps) ps = Some ps' /\ acceptors_ok ps' /\
    peers_count ps' = peers_count ps + Z.of_nat n /\ clients ps' = clients ps /\
    clients_count ps' = clients_count ps /\ subs ps' = subs ps /\ config ps' = config ps.
Proof.
  revert ps. induction n as [|n IH]; intros ps Hok Haddr; simpl.
  { exists ps. split_and!; try done; try apply Hok. lia. }
  pose proof Hok as [Hc _]. destruct (Haddr (peers_count ps)) as [a Ha]; [lia|]. rewrite Ha. simpl.
  destruct (IH (peers_connect ps (peers_count ps) a)) as (ps' & Hrun & Hok' & Hn & Hrest);
    [by apply peers_connect_ok|intros i Hi; apply Haddr; simpl in Hi; lia|].
  simpl in *. exists ps'. split; [done|]. split; [done|]. split; [lia|done].
Qed.

Lemma get_acceptor_from_spec l i id_ :
  (forall j p, l !! j = Some p -> id p = i + Z.of_nat j) ->
  get_acceptor_from l i id_ =
    if (i <=? id_) && (id_ <? i + Z.of_nat (length l)) then Some (Some id_) else None.
Proof.
  revert i. induction l as [|p l IH]; intros i Hl; cbn [get_acceptor_from length].
  { destruct (Z.leb_spec i id_), (Z.ltb_spec id_ (i + Z.of_nat 0)); cbn [andb]; try done; lia. }
  pose proof (Hl 0%nat p eq_refl) as Hp. destruct (Z.eqb_spec (id p) id_) as [E|E].
  - rewrite (proj2 (Z.leb_le _ _)), (proj2 (Z.ltb_lt _ _)) by lia. simpl. repeat f_equal. lia.
  - rewrite IH by (intros j q Hq; rewrite (Hl (S j) q Hq); lia).
    destruct (Z.leb_spec (i + 1) id_), (Z.leb_spec i id_), (Z.ltb_spec id_ (i + 1 + Z.of_nat (length l))),
      (Z.ltb_spec id_ (i + Z.of_nat (S (length l)))); simpl; try done; lia.
Qed.

(** [peers_get_acceptor] finds the acceptors by their id, but it does not return
    NULL for another id when there are acceptors: its loop runs past the end of
    the array. *)
Theorem get_acceptor_unbounded {F} (ps : peers F) (id_ : Z) :
  acceptors_ok ps -> 0 < peers_count ps ->
  peers_get_acceptor ps id_ = if (0 <=? id_) && (id_ <? peers_count ps) then Some (Some id_) else None.
Proof.
  intros [Hc Hids] Hpos. unfold peers_get_acceptor. destruct (Z.eqb_spec (peers_count ps) 0); [lia|].
  rewrite get_acceptor_from_spec by (intros j p Hp; rewrite (Hids j p Hp); lia). by rewrite Z.add_0_l, Hc.
Qed.

Lemma get_acceptor_unbounded_witness :
  let ps := peers_connect (F := unit) (peers_new empty_config) 0 {| sin_port := 1; sin_addr := 1 |} in
  peers_get_acceptor ps 1 = None.
Proof.
  apply (get_acceptor_unbounded (peers_connect (F := unit) (peers_new empty_config) 0
    {| sin_port := 1; sin_addr := 1 |}) 1); [apply (peers_connect_ok (peers_new empty_config)), acceptors_ok_new|done].
Defined.

(** ** Sending to all *)

(** A peer with [m] appended to its output. *)
Definition written `{MP : Msgpack} (m : paxos_message) (p : peer) : peer :=
  set_bev p {| bev_output := bev_output (bev p) ++ wire m; bev_link_ := bev_link_ (bev p);
               bev_enabled := bev_enabled (bev p) |}.

Section broadcast.
Context `{MP : Msgpack} {F : Type}.
Implicit Types (ps : peers F).

Lemma peer_send_written m p : message_ok m -> peer_send m p = Some (written m p).
Proof. intros Hm. unfold peer_send. rewrite send_wire by done. done. Qed.

Lemma foreach_from_spec (f : peer -> peer) cb n i l :
  (forall p, cb p = Some (f p)) -> 0 <= i -> i + Z.of_nat n = Z.of_nat (length l) ->
  foreach_from cb n i l = Some (take (Z.to_nat i) l ++ (f <$> drop (Z.to_nat i) l)).
Proof.
  intros Hcb. revert i l. induction n as [|n IH]; intros i l Hi Hn; simpl.
  { rewrite take_ge, drop_ge by lia. by rewrite app_nil_r. }
  destruct (arr_get_in l i) as [p Hp]; [lia|]. rewrite Hp. simpl. rewrite Hcb. simpl.
  destruct (arr_set_in l i (f p)) as [l' Hl']; [lia|]. rewrite Hl'. simpl.
  pose proof (arr_set_length _ _ _ _ Hl') as Hlen. rewrite IH by lia.
  apply arr_set_Some in Hl' as [_ ->]. apply arr_get_Some in Hp as [_ Hp].
  replace (Z.to_nat (i + 1)) with (S (Z.to_nat i)) by lia. f_equal.
  rewrite drop_insert_lt by lia. rewrite (drop_S _ _ _ Hp). rewrite (take_S_r _ _ (f p)); [|by apply list_lookup_insert_eq; lia].
  rewrite take_insert_ge by lia. by rewrite <- (assoc_L (++)).
Qed.

(** [peers_foreach_acceptor] with a send writes the message to every acceptor. *)
Lemma foreach_acceptor_send ps m :
  message_ok m -> peers_count ps = Z.of_nat (length (peers_ ps)) ->
  peers_foreach_acceptor ps (peer_send m) = Some (with_peers ps (written m <$> peers_ ps)).
Proof.
  intros Hm Hc. unfold peers_foreach_acceptor.
  rewrite (foreach_from_spec (written m)) by (lia || intros; by apply peer_send_written). done.
Qed.

Lemma foreach_client_send ps m :
  message_ok m -> clients_count ps = Z.of_nat (length (clients ps)) ->
  peers_foreach_client ps (peer_send m) = Some (with_clients ps (clients_count ps) (written m <$> clients ps)).
Proof.
  intros Hm Hc. unfold peers_foreach_client.
  rewrite (foreach_from_spec (written m)) by (lia || intros; by apply peer_send_written). done.
Qed.
End broadcast.

(** ** The callbacks

    The function pointers the roles subscribe ([evacceptor.c], [evproposer.c],
    [evlearner.c]). *)
Inductive peer_cb :=
  | evacceptor_prepare_cb | evacceptor_accept_cb | evacceptor_repeat_cb | evacceptor_trim_cb
  | evproposer_promise_cb | evproposer_accepted_cb | evproposer_preempted_cb
  | evproposer_client_value_cb | evproposer_acceptor_state_cb
  | evlearner_accepted_cb.

(** ** Sending to one *)

Definition output_of {F} (ps : peers F) (r : peer_ref) : option (list byte) :=
  bev_output ∘ bev <$> peer_get ps r.

Section send_spec.
Context `{MP : Msgpack} {F : Type}.
Implicit Types (ps : peers F).

Lemma peer_set_spec ps r p q :
  peer_get ps r = Some p -> exists ps', peer_set ps r q = Some ps' /\ peer_get ps' r = Some q /\
    (forall r', r' <> r -> peer_get ps' r' = peer_get ps r') /\ clients_count ps' = clients_count ps /\
    peers_count ps' = peers_count ps /\ length (clients ps') = length (clients ps) /\
    length (peers_ ps') = length (peers_ ps) /\ subs ps' = subs ps.
Proof.
  destruct r as [i|i]; simpl; intros Hp; pose proof (arr_get_lt _ _ _ Hp) as Hi.
  - destruct (arr_set_in (peers_ ps) i q Hi) as [l Hl]. rewrite Hl. simpl. eexists. split; [done|].
    pose proof (arr_set_length _ _ _ _ Hl). simpl. rewrite (arr_get_set _ _ _ i _ Hl), decide_True by done.
    split; [done|]. split; [|done]. intros [j|j] Hne; simpl; [|done].
    rewrite (arr_get_set _ _ _ j _ Hl), decide_False by congruence. done.
  - destruct (arr_set_in (clients ps) i q Hi) as [l Hl]. rewrite Hl. simpl. eexists. split; [done|].
    pose proof (arr_set_length _ _ _ _ Hl). simpl. rewrite (arr_get_set _ _ _ i _ Hl), decide_True by done.
    split; [done|]. split; [|done]. intros [j|j] Hne; simpl; [done|].
    rewrite (arr_get_set _ _ _ j _ Hl), decide_False by congruence. done.
Qed.

(** [ps'] is [ps] with [bs] appended to the output of [r]. *)
Definition appended ps ps' r (bs : list byte) : Prop :=
  (exists out, output_of ps r = Some out /\ output_of ps' r = Some (out ++ bs)) /\
  (forall r', r' <> r -> peer_get ps' r' = peer_get ps r') /\
  clients_count ps' = clients_count ps /\ peers_count ps' = peers_count ps /\
  length (clients ps') = length (clients ps) /\ length (peers_ ps') = length (peers_ ps) /\ subs ps' = subs ps.

Lemma appended_refl ps r out : output_of ps r = Some out -> appended ps ps r [].
Proof. intros Ho. split; [exists out; by rewrite app_nil_r|done]. Qed.

Lemma appended_trans ps1 ps2 ps3 r b1 b2 :
  appended ps1 ps2 r b1 -> appended ps2 ps3 r b2 -> appended ps1 ps3 r (b1 ++ b2).
Proof.
  intros ((o1 & H1 & H1') & Hr1 & E1 & E2 & E3 & E4 & E5) ((o2 & H2 & H2') & Hr2 & F1 & F2 & F3 & F4 & F5).
  split.
  - exists o1. split; [done|]. rewrite H1' in H2. simplify_eq. by rewrite (assoc_L (++)).
  - split; [|split_and!; congruence]. intros r' Hne. by rewrite Hr2, Hr1.
Qed.

Lemma send_to_spec ps r out m :
  output_of ps r = Some out -> message_ok m ->
  exists ps', send_to ps r m = Some ps' /\ appended ps ps' r (wire m).
Proof.
  unfold output_of. intros Ho Hm. unfold send_to. destruct (peer_get ps r) as [p|] eqn:Hp; simpl in Ho; [|done].
  simpl. rewrite peer_send_written by done. simpl.
  destruct (peer_set_spec ps r p (written m p) Hp) as (ps' & -> & Hget & Hrest). exists ps'. split; [done|].
  split; [|done]. exists out. unfold output_of. rewrite Hp, Hget. simpl. by simplify_eq.
Qed.
End send_spec.

(** ** Broadcasts *)

(** The peers after [ms] went to every acceptor, in order. *)
Definition broadcast `{MP : Msgpack} {F} (ms : list paxos_message) (ps : peers F) : peers F :=
  with_peers ps ((fun p => foldl (fun p m => written m p) p ms) <$> peers_ ps).

Definition counted {F} (ps : peers F) : Prop := peers_count ps = Z.of_nat (length (peers_ ps)).

Section broadcasts.
Context `{MP : Msgpack} {F : Type}.
Implicit Types (ps : peers F).

Lemma broadcast_nil ps : broadcast [] ps = ps.
Proof. unfold broadcast, with_peers. simpl. rewrite list_fmap_id. by destruct ps. Qed.

Lemma broadcast_app ms ms' ps : broadcast (ms ++ ms') ps = broadcast ms' (broadcast ms ps).
Proof.
  unfold broadcast, with_peers. simpl. f_equal. rewrite <- list_fmap_compose. apply list_fmap_ext.
  intros i p _. simpl. by rewrite foldl_app.
Qed.

Lemma broadcast_cons m ms ps : broadcast (m :: ms) ps = broadcast ms (broadcast [m] ps).
Proof. apply (broadcast_app [m]). Qed.

Lemma broadcast_counted ms ps : counted ps -> counted (broadcast ms ps).
Proof. unfold counted. simpl. by rewrite length_fmap. Qed.

Lemma foreach_broadcast m ps :
  message_ok m -> counted ps -> peers_foreach_acceptor ps (peer_send m) = Some (broadcast [m] ps).
Proof. intros Hm Hc. by rewrite foreach_acceptor_send. Qed.
End broadcasts.
