(* ===== verification/Carray.v ===== *)
(** * Circular array ([paxos/carray.c])

    The growing circular buffer in which the proposer queues client values.
    [carray] is the C struct; a slot of [array] is [None] until it is written
    (the block comes from [malloc]).  The theorems show that it implements a
    FIFO queue: [contents] is the abstraction function, [carray_push_back]
    appends, [carray_pop_front] removes the head, and growing the array keeps
    the contents. *)

From S2P Require Import Prelude.

Record carray (A : Type) := Carray {
  head : Z;
  tail : Z;
  size : Z;
  count : Z;
  array : list (option A);
}.
Arguments Carray {A}.
Arguments head {A}.
Arguments tail {A}.
Arguments size {A}.
Arguments count {A}.
Arguments array {A}.

Section carray.
Context {A : Type}.
Implicit Types (a : carray A) (p : A).

(** [malloc] of a negative size converted to [size_t] fails, and the [assert]
    on its result aborts. *)
Definition carray_new (sz : Z) : option (carray A) :=
  assert_ (0 <=? sz) ;;
  Some {| head := 0; tail := 0; size := sz; count := 0;
          array := replicate (Z.to_nat sz) None |}.

Definition carray_empty a : bool := count a =? 0.

Definition carray_size a : Z := size a.

Definition carray_full a : bool := count a =? size a.

(** [a % b] with [b = 0] is undefined. *)
Definition c_rem (x y : Z) : option Z :=
  if y =? 0 then None else Some (Z.rem x y).

Definition carray_at a (i : Z) : option (option A) :=
  k ← c_rem (head a + i) (size a);
  arr_get (array a) k.

(** The stores of [carray_push_back] after the check for a full array. *)
Definition carray_store a (x : option A) : option (carray A) :=
  arr ← arr_set (array a) (tail a) x;
  t ← c_rem (tail a + 1) (size a);
  Some {| head := head a; tail := t; size := size a;
          count := count a + 1; array := arr |}.

(** The loop [for (i = 0; i < a->count; i++) push(tmp, carray_at(a, i))]
    of [carray_grow], from index [i] with [n] iterations left. *)
Fixpoint carray_copy (push : carray A -> option A -> option (carray A))
    (n : nat) (i : Z) (tmp a : carray A) : option (carray A) :=
  match n with
  | O => Some tmp
  | S n' =>
      x ← carray_at a i;
      tmp' ← push tmp x;
      carray_copy push n' (i + 1) tmp' a
  end.

(** [carray_grow]; the product [a->size * 2] is undefined when it overflows
    an [int]. *)
Definition carray_grow (push : carray A -> option A -> option (carray A)) a :
    option (carray A) :=
  assert_ (size a * 2 <=? INT_MAX) ;;
  tmp ← carray_new (size a * 2);
  tmp ← carray_copy push (Z.to_nat (count a)) 0 tmp a;
  Some {| head := 0; tail := tail tmp; size := size tmp;
          count := count a; array := array tmp |}.

(** [carray_push_back] and [carray_grow] are mutually recursive in C.  A grown
    array is never full, so the recursion has depth two. *)
Fixpoint carray_push_rec (depth : nat) a (x : option A) : option (carray A) :=
  match depth with
  | O => None
  | S d =>
      a ← (if carray_full a then carray_grow (carray_push_rec d) a else Some a);
      carray_store a x
  end.

Definition carray_push_back a p : option (carray A) :=
  carray_push_rec 2 a (Some p).

(** Returns the element ([None] for the NULL of an empty array) and the new
    array. *)
Definition carray_pop_front a : option (option A * carray A) :=
  if carray_empty a then Some (None, a) else
  p ← arr_get (array a) (head a);
  h ← c_rem (head a + 1) (size a);
  Some (p, {| head := h; tail := tail a; size := size a;
              count := count a - 1; array := array a |}).

(** The sequence of arguments [carray_foreach] calls its callback on. *)
Fixpoint carray_foreach_from (n : nat) (i : Z) a : option (list (option A)) :=
  match n with
  | O => Some []
  | S n' =>
      x ← carray_at a i;
      xs ← carray_foreach_from n' (i + 1) a;
      Some (x :: xs)
  end.

Definition carray_foreach a : option (list (option A)) :=
  carray_foreach_from (Z.to_nat (count a)) 0 a.

(** ** Invariant and abstraction *)

(** Slot of the [i]th element. *)
Definition slot a (i : Z) : Z := (head a + i) mod size a.

Definition carray_ok a : Prop :=
  0 < size a <= INT_MAX /\ 0 <= head a < size a /\
  0 <= count a <= size a /\ tail a = slot a (count a) /\
  Z.of_nat (length (array a)) = size a.

(** [contents a l]: the queue [a] holds the elements of [l], oldest first. *)
Definition contents a (l : list A) : Prop :=
  carray_ok a /\ count a = Z.of_nat (length l) /\
  forall i x, l !! i = Some x -> arr_get (array a) (slot a (Z.of_nat i)) = Some (Some x).

(** ** Lemmas *)

Lemma c_rem_nonneg x y : 0 <= x -> 0 < y -> c_rem x y = Some (x mod y).
Proof.
  intros. unfold c_rem. destruct (Z.eqb_spec y 0); [lia|].
  by rewrite Z.rem_mod_nonneg by lia.
Qed.

Lemma slot_range a i : 0 < size a -> 0 <= slot a i < size a.
Proof. intros. by apply Z.mod_pos_bound. Qed.

(** Distinct indices below [size] have distinct slots. *)
Lemma slot_inj a i j :
  0 < size a -> 0 <= i < size a -> 0 <= j < size a -> slot a i = slot a j -> i = j.
Proof.
  unfold slot. intros Hs Hi Hj Heq.
  pose proof (Z.div_mod (head a + i) (size a) ltac:(lia)).
  pose proof (Z.div_mod (head a + j) (size a) ltac:(lia)).
  assert ((head a + i) / size a = (head a + j) / size a) by nia. nia.
Qed.

Lemma slot_succ a i : 0 < size a -> (slot a i + 1) mod size a = slot a (i + 1).
Proof.
  intros. unfold slot. rewrite Zplus_mod_idemp_l. f_equal. lia.
Qed.

Lemma carray_at_contents a l i x :
  contents a l -> l !! i = Some x -> carray_at a (Z.of_nat i) = Some (Some x).
Proof.
  intros ((Hs & Hh & Hc & Ht & Hlen) & Hn & Hl) Hx. unfold carray_at.
  rewrite c_rem_nonneg by lia. simpl. by apply Hl.
Qed.

Lemma carray_new_contents n :
  0 < n <= INT_MAX -> exists a, carray_new n = Some a /\ contents a [] /\ size a = n /\ head a = 0.
Proof.
  intros Hn. unfold carray_new. rewrite (proj2 (Z.leb_le 0 n)) by lia.
  eexists; split; [done|]. split; [|done]. unfold contents, carray_ok, slot. simpl.
  rewrite length_replicate. split_and!; try lia; try done.
Qed.

(** Storing in an array that is not full appends. *)
Lemma carray_store_contents a l x :
  contents a l -> count a < size a ->
  exists a', carray_store a (Some x) = Some a' /\ contents a' (l ++ [x]) /\
    size a' = size a /\ head a' = head a.
Proof.
  intros (Hok & Hn & Hl) Hlt. pose proof Hok as (Hs & Hh & Hc & Ht & Hlen).
  pose proof (slot_range a (count a) ltac:(lia)) as Htr. rewrite <- Ht in Htr.
  unfold carray_store.
  destruct (arr_set_in (array a) (tail a) (Some x)) as [arr Harr]; [lia|].
  rewrite Harr, c_rem_nonneg by lia. simpl.
  eexists; split; [done|]. split; [|done].
  pose proof (arr_set_length _ _ _ _ Harr) as Hlarr.
  split; [|split].
  - unfold carray_ok, slot in *. simpl. split_and!; try lia.
    rewrite Ht. rewrite Zplus_mod_idemp_l. f_equal. lia.
  - simpl. rewrite length_app. simpl. lia.
  - intros i y Hi. simpl. change (slot _ _) with (slot a (Z.of_nat i)).
    rewrite (arr_get_set _ _ _ _ _ Harr).
    apply lookup_app_Some in Hi as [Hi|[Hge Hi]].
    + pose proof (lookup_lt_Some _ _ _ Hi). case_decide as Heq; [|by apply Hl].
      rewrite Ht in Heq. apply slot_inj in Heq; lia.
    + apply list_lookup_singleton_Some in Hi as [? <-].
      replace (Z.of_nat i) with (count a) by lia. by rewrite <- Ht, decide_True.
Qed.

Lemma carray_copy_contents push n (i : nat) tmp a l done_ :
  (forall t d x, contents t d -> count t < size t ->
     exists t', push t (Some x) = Some t' /\ contents t' (d ++ [x]) /\
       size t' = size t /\ head t' = head t) ->
  contents a l -> contents tmp done_ -> n = (length l - i)%nat -> (i <= length l)%nat ->
  Z.of_nat (length done_) + Z.of_nat n <= size tmp -> done_ = take i l ->
  exists tmp', carray_copy push n (Z.of_nat i) tmp a = Some tmp' /\
    contents tmp' l /\ size tmp' = size tmp /\ head tmp' = head tmp.
Proof.
  intros Hpush Ha. revert i tmp done_.
  induction n as [|n IH]; intros i tmp done_ Htmp Hn Hi Hsz Hd; simpl.
  - exists tmp. split; [done|]. split; [|done]. subst done_.
    by rewrite take_ge in Htmp by lia.
  - destruct (lookup_lt_is_Some_2 l i) as [x Hx]; [lia|].
    rewrite (carray_at_contents a l i x) by done. simpl.
    destruct (Hpush tmp done_ x Htmp) as (t' & -> & Ht' & Hs' & Hh').
    { pose proof (proj1 (proj2 Htmp)). lia. }
    simpl. replace (Z.of_nat i + 1) with (Z.of_nat (S i)) by lia.
    destruct (IH (S i) t' (done_ ++ [x])) as (t2 & -> & ? & ? & ?); try done; try lia.
    + rewrite length_app. simpl. lia.
    + subst done_. symmetry. by apply take_S_r.
    + eexists; split_and!; [done|done|lia|lia].
Qed.

Lemma carray_push_rec_not_full d a l x :
  contents a l -> count a < size a ->
  exists a', carray_push_rec (S d) a (Some x) = Some a' /\ contents a' (l ++ [x]) /\
    size a' = size a /\ head a' = head a.
Proof.
  intros Ha Hlt. simpl. unfold carray_full.
  destruct (Z.eqb_spec (count a) (size a)); [lia|]. simpl.
  by apply carray_store_contents.
Qed.

Lemma carray_push_rec_S d a x :
  carray_push_rec (S d) a x =
  (a ← (if carray_full a then carray_grow (carray_push_rec d) a else Some a);
   carray_store a x).
Proof. done. Qed.

#[local] Arguments carray_push_rec : simpl never.

(** Growing doubles the size and keeps the contents. *)
Lemma carray_grow_contents d a l :
  contents a l -> size a * 2 <= INT_MAX ->
  exists a', carray_grow (carray_push_rec (S d)) a = Some a' /\ contents a' l /\
    size a' = size a * 2.
Proof.
  intros Ha Hmax. pose proof Ha as ((Hs & Hh & Hc & Ht & Hlen) & Hn & Hl).
  unfold carray_grow. rewrite (proj2 (Z.leb_le _ _)) by done. simpl.
  destruct (carray_new_contents (size a * 2)) as (t0 & -> & Ht0 & Hsz0 & Hh0); [lia|]. simpl.
  rewrite Hn, Nat2Z.id.
  destruct (carray_copy_contents (carray_push_rec (S d)) (length l) 0 t0 a l [])
    as (t & Hcopy & Hct & Hst & Hht); try done; try (simpl; lia).
  { intros. by apply carray_push_rec_not_full. }
  change (Z.of_nat 0) with 0 in Hcopy. rewrite Hcopy. simpl.
  eexists; split; [done|]. simpl. split; [|lia].
  destruct Hct as ((Hs' & Hh' & Hc' & Ht' & Hlen') & Hn' & Hl').
  unfold contents, carray_ok, slot in *. simpl.
  rewrite Hht, Hh0, Hst, Hsz0 in *. split_and!; try lia; [|exact Hl'].
  by rewrite Ht', Hn'.
Qed.

(** ** The queue theorems *)

(** [carray_push_back] on a queue that holds fewer than 2^30 elements
    succeeds, never touches memory outside the array, and appends: the array
    grows when it is full and the elements keep their order. *)
Lemma push_back_contents a l p :
  contents a l -> Z.of_nat (length l) < 2 ^ 30 ->
  exists a', carray_push_back a p = Some a' /\ contents a' (l ++ [p]) /\
    size a' = (if carray_full a then 2 * size a else size a).
Proof.
  intros Ha Hbound. unfold carray_push_back.
  pose proof Ha as ((Hs & Hh & Hc & Ht & Hlen) & Hn & Hl).
  destruct (carray_full a) eqn:Hfull.
  - pose proof Hfull as Hf%Z.eqb_eq. unfold INT_MAX in *.
    rewrite carray_push_rec_S, Hfull.
    destruct (carray_grow_contents 0 a l Ha) as (g & Hg & Hcg & Hsg); [unfold INT_MAX; lia|].
    rewrite Hg. simpl.
    destruct (carray_store_contents g l p Hcg) as (a' & -> & ? & ? & ?).
    { destruct Hcg as (? & -> & _). lia. }
    eexists; split_and!; [done|done|lia].
  - destruct (carray_push_rec_not_full 1 a l p Ha) as (a' & -> & ? & ? & ?).
    { apply Z.eqb_neq in Hfull. lia. }
    by eexists.
Qed.

(** [carray_pop_front] returns NULL exactly on the empty queue, and
    otherwise removes and returns the oldest element. *)
Lemma pop_front_contents a l :
  contents a l ->
  exists a', carray_pop_front a = Some (List.hd_error l, a') /\ contents a' (List.tl l).
Proof.
  intros Ha. pose proof Ha as ((Hs & Hh & Hc & Ht & Hlen) & Hn & Hl).
  unfold carray_pop_front, carray_empty. rewrite Hn.
  destruct l as [|x l]; [by exists a|]. simpl length in *.
  destruct (Z.eqb_spec (Z.of_nat (S (length l))) 0); [lia|].
  pose proof (Hl 0%nat x eq_refl) as Hx.
  assert (slot a (Z.of_nat 0) = head a) as Hs0.
  { unfold slot. rewrite Z.mod_small; lia. }
  rewrite Hs0 in Hx. rewrite Hx. simpl. rewrite c_rem_nonneg by lia. simpl.
  eexists; split; [done|]. simpl.
  assert (forall i, ((head a + 1) mod size a + i) mod size a = slot a (i + 1)) as Hshift.
  { intros i. unfold slot. rewrite Zplus_mod_idemp_l. f_equal. lia. }
  split; [|split].
  - unfold carray_ok. simpl. pose proof (Z.mod_pos_bound (head a + 1) (size a)).
    split_and!; try lia. unfold slot at 1. simpl. rewrite Hshift. rewrite Ht. f_equal. lia.
  - simpl. lia.
  - intros i y Hy. simpl. unfold slot. simpl. rewrite Hshift.
    replace (Z.of_nat i + 1) with (Z.of_nat (S i)) by lia. by apply Hl.
Qed.

(** A push that succeeds appends. *)
Lemma push_back_inv a l p a' :
  contents a l -> carray_push_back a p = Some a' -> contents a' (l ++ [p]).
Proof.
  intros Ha Hpush. pose proof Ha as ((Hs & Hh & Hc & Ht & Hlen) & Hn & Hl).
  destruct (Z_lt_le_dec (Z.of_nat (length l)) (2 ^ 30)) as [Hlt|Hge].
  { destruct (push_back_contents a l p Ha Hlt) as (a1 & Heq & ? & _). congruence. }
  unfold carray_push_back in Hpush. destruct (carray_full a) eqn:Hfull.
  - rewrite carray_push_rec_S, Hfull in Hpush. unfold carray_grow in Hpush.
    apply Z.eqb_eq in Hfull. unfold INT_MAX in *.
    rewrite (proj2 (Z.leb_gt _ _)) in Hpush by lia. done.
  - destruct (carray_push_rec_not_full 1 a l p Ha) as (a1 & Heq & ? & _); [|congruence].
    apply Z.eqb_neq in Hfull. lia.
Qed.

(** [carray_foreach] visits the queue from the oldest to the newest element. *)
Lemma carray_foreach_from_spec a l n (i : nat) :
  contents a l -> n = (length l - i)%nat ->
  carray_foreach_from n (Z.of_nat i) a = Some (Some <$> drop i l).
Proof.
  intros Ha. revert i. induction n as [|n IH]; intros i Hn; simpl.
  - by rewrite drop_ge by lia.
  - destruct (lookup_lt_is_Some_2 l i) as [x Hx]; [lia|].
    rewrite (carray_at_contents a l i x) by done. simpl.
    replace (Z.of_nat i + 1) with (Z.of_nat (S i)) by lia.
    rewrite IH by lia. simpl. by rewrite (drop_S l x i Hx).
Qed.

Lemma carray_foreach_spec a l :
  contents a l -> carray_foreach a = Some (Some <$> l).
Proof.
  intros Ha. unfold carray_foreach. pose proof (proj1 (proj2 Ha)) as ->.
  rewrite Nat2Z.id. rewrite (carray_foreach_from_spec a l _ 0) by (done || lia).
  by rewrite drop_0.
Qed.

(** ** Runs of operations *)

Inductive queue_op := Push (x : A) | Pop.

(** The results of the pops of a run on a carray, and on a list. *)
Fixpoint run_carray (ops : list queue_op) a : option (list (option A) * carray A) :=
  match ops with
  | [] => Some ([], a)
  | Push x :: ops => a ← carray_push_back a x; run_carray ops a
  | Pop :: ops =>
      '(x, a) ← carray_pop_front a;
      '(xs, a) ← run_carray ops a;
      Some (x :: xs, a)
  end.

Fixpoint run_queue (ops : list queue_op) (l : list A) : list (option A) * list A :=
  match ops with
  | [] => ([], l)
  | Push x :: ops => run_queue ops (l ++ [x])
  | Pop :: ops => let '(xs, l') := run_queue ops (List.tl l) in (List.hd_error l :: xs, l')
  end.

Lemma run_carray_contents ops a l :
  contents a l -> Z.of_nat (length l + length ops) < 2 ^ 30 ->
  exists a', run_carray ops a = Some ((run_queue ops l).1, a') /\ contents a' (run_queue ops l).2.
Proof.
  revert a l. induction ops as [|[x|] ops IH]; intros a l Ha Hlen; simpl in *; [by eauto| |].
  - destruct (push_back_contents a l x Ha ltac:(lia)) as (a1 & -> & Ha1 & _). simpl.
    apply IH; [done|]. rewrite length_app. simpl. lia.
  - destruct (pop_front_contents a l Ha) as (a1 & -> & Ha1). simpl.
    destruct (IH a1 (List.tl l) Ha1) as (a2 & -> & Ha2).
    { destruct l; simpl in *; lia. }
    simpl. destruct (run_queue ops (List.tl l)) as [xs l']. by eauto.
Qed.
End carray.
Arguments queue_op : clear implicits.

(** C35. The circular array is a FIFO queue.  Any sequence of fewer than 2^30
    pushes and pops on a new array of positive capacity runs without leaving
    the array or failing (the array grows when it is full), the pops return
    what a list queue returns (NULL exactly when it is empty), and afterwards
    [carray_foreach] visits the queue from the oldest to the newest element. *)
Theorem carray_implements_queue {A} (n : Z) (ops : list (queue_op A)) :
  0 < n <= INT_MAX -> Z.of_nat (length ops) < 2 ^ 30 ->
  exists a a', carray_new n = Some a /\ run_carray ops a = Some ((run_queue ops []).1, a') /\
    carray_foreach a' = Some (Some <$> (run_queue ops []).2).
Proof.
  intros Hn Hops. destruct (carray_new_contents (A:=A) n Hn) as (a & Hnew & Ha & _).
  destruct (run_carray_contents ops a [] Ha) as (a' & Hrun & Ha'); [done|].
  exists a, a'. split; [done|]. split; [done|]. by apply carray_foreach_spec.
Qed.

(** An array of one slot that grows twice. *)
Lemma carray_implements_queue_witness :
  let ops := [Push 1; Push 2; Pop; Push 3; Push 4; Pop; Pop; Pop; Pop] in
  exists a a', carray_new 1 = Some a /\ run_carray ops a = Some ((run_queue ops []).1, a') /\
    carray_foreach a' = Some (Some <$> (run_queue ops []).2).
Proof. intros ops. apply (carray_implements_queue 1 ops); [unfold INT_MAX|simpl]; lia. Defined.
