(* ===== verification/Quorum.v ===== *)
(** * Quorum counter ([paxos/quorum.c])

    The set of acceptor ids that answered, as an array of flags with a
    counter.  The theorems show that the counter is the number of distinct
    ids, that [quorum_reached] tests for a strict majority, and that two
    reached quorums over the same acceptors have an acceptor in common. *)

From S2P Require Import Prelude PaxosTypes.

Record quorum := Quorum {
  count : Z;
  quorum_ : Z;
  acceptors : Z;
  acceptor_ids : list Z;
}.

Definition quorum_clear (q : quorum) : quorum :=
  {| count := 0; quorum_ := quorum_ q; acceptors := acceptors q;
     acceptor_ids := replicate (Z.to_nat (acceptors q)) 0 |}.

Definition quorum_init (acceptors : Z) : quorum :=
  quorum_clear
    {| count := 0; quorum_ := paxos_quorum acceptors; acceptors := acceptors;
       acceptor_ids := [] |}.

(** Returns the C result (1: the id was not there, 0: it was) and the new
    state; [None] is an id outside the array, which [quorum_add] does not
    check. *)
Definition quorum_add (q : quorum) (id : Z) : option (bool * quorum) :=
  f ← arr_get (acceptor_ids q) id;
  if f =? 0 then
    ids ← arr_set (acceptor_ids q) id 1;
    Some (true, {| count := count q + 1; quorum_ := quorum_ q;
                   acceptors := acceptors q; acceptor_ids := ids |})
  else Some (false, q).

Definition quorum_reached (q : quorum) : bool := quorum_ q <=? count q.

(** ** The set a counter stands for *)

(** Ids whose flag is set. *)
Definition members (q : quorum) : gset Z :=
  list_to_set (filter (fun i => arr_get (acceptor_ids q) i = Some 1)
    (seqZ 0 (acceptors q))).

Definition quorum_ok (q : quorum) : Prop :=
  0 <= acceptors q /\
  Z.of_nat (length (acceptor_ids q)) = acceptors q /\
  quorum_ q = paxos_quorum (acceptors q) /\
  count q = Z.of_nat (size (members q)) /\
  Forall (fun f => f = 0 \/ f = 1) (acceptor_ids q).

(** The ids of [n] acceptors. *)
Definition all_ids (n : Z) : gset Z := list_to_set (seqZ 0 n).

(** [majority n Q]: [Q] is a set of acceptor ids with more than half of
    [n] acceptors. *)
Definition majority (n : Z) (Q : gset Z) : Prop :=
  Q ⊆ all_ids n /\ paxos_quorum n <= Z.of_nat (size Q).

(** ** Lemmas *)

Lemma elem_of_all_ids n i : i ∈ all_ids n <-> 0 <= i < n.
Proof. unfold all_ids. rewrite elem_of_list_to_set, elem_of_seqZ. lia. Qed.

Lemma size_all_ids n : 0 <= n -> Z.of_nat (size (all_ids n)) = n.
Proof.
  intros. unfold all_ids. rewrite size_list_to_set by apply NoDup_seqZ.
  rewrite length_seqZ. lia.
Qed.

Lemma elem_of_members q i :
  i ∈ members q <-> 0 <= i < acceptors q /\ arr_get (acceptor_ids q) i = Some 1.
Proof.
  unfold members. rewrite elem_of_list_to_set, list_elem_of_filter, elem_of_seqZ.
  naive_solver lia.
Qed.

Lemma members_all_ids q : members q ⊆ all_ids (acceptors q).
Proof. intros i [? _]%elem_of_members. by apply elem_of_all_ids. Qed.

Lemma members_cleared q : members (quorum_clear q) = ∅.
Proof.
  apply set_eq. intros i. rewrite elem_of_members. simpl. unfold arr_get.
  split; [|set_solver]. intros [Hi Hg].
  rewrite (proj2 (Z.leb_le 0 i)), lookup_replicate_2 in Hg by lia. done.
Qed.

Lemma quorum_clear_ok q :
  0 <= acceptors q -> quorum_ q = paxos_quorum (acceptors q) -> quorum_ok (quorum_clear q).
Proof.
  intros Hn Hq. unfold quorum_ok. rewrite members_cleared. simpl.
  rewrite length_replicate. split_and!; try done; try lia.
  apply Forall_replicate. by left.
Qed.

Lemma quorum_init_ok n : 0 <= n -> quorum_ok (quorum_init n).
Proof. intros. by apply quorum_clear_ok. Qed.

Lemma members_init n : members (quorum_init n) = ∅.
Proof. apply members_cleared. Qed.

#[export] Hint Resolve quorum_clear_ok quorum_init_ok : quorum.

(** An id in range is added; the result tells whether it is new. *)
Lemma quorum_add_spec q id :
  quorum_ok q -> 0 <= id < acceptors q ->
  exists r q', quorum_add q id = Some (r, q') /\ quorum_ok q' /\
    members q' = members q ∪ {[id]} /\ acceptors q' = acceptors q /\
    r = negb (bool_decide (id ∈ members q)).
Proof.
  intros (Hn & Hlen & Hq & Hc & Hf) Hid. unfold quorum_add.
  destruct (arr_get_in (acceptor_ids q) id) as [f Hget]; [lia|]. rewrite Hget. simpl.
  assert (f = 0 \/ f = 1) as Hf01.
  { apply arr_get_Some in Hget as [_ Hget]. by eapply Forall_lookup_1 in Hf. }
  assert (id ∈ members q <-> f = 1) as Hin.
  { rewrite elem_of_members, Hget. naive_solver. }
  destruct (Z.eqb_spec f 0) as [->|Hf0].
  - destruct (arr_set_in (acceptor_ids q) id 1) as [ids Hset]; [lia|]. rewrite Hset. simpl.
    eexists _, _. split; [done|].
    assert (members {| count := count q + 1; quorum_ := quorum_ q;
      acceptors := acceptors q; acceptor_ids := ids |} = members q ∪ {[id]}) as Hm.
    { apply set_eq. intros i. rewrite elem_of_union, elem_of_singleton, !elem_of_members. simpl.
      rewrite (arr_get_set _ _ _ _ _ Hset). case_decide; naive_solver. }
    split; [|split_and!; [done|done|]].
    + unfold quorum_ok. rewrite Hm. simpl. rewrite (arr_set_length _ _ _ _ Hset).
      split_and!; try done.
      * rewrite size_union by (apply disjoint_singleton_r; naive_solver lia).
        rewrite size_singleton. lia.
      * apply arr_set_Some in Hset as [_ ->]. apply Forall_insert; [done|by right].
    + symmetry. rewrite negb_true_iff. apply bool_decide_eq_false_2. naive_solver lia.
  - eexists _, _. split; [done|]. split; [done|].
    assert (id ∈ members q) by naive_solver.
    split_and!; [set_solver | done |]. by rewrite bool_decide_eq_true_2.
Qed.

Lemma quorum_reached_iff q :
  quorum_ok q -> quorum_reached q = true <-> majority (acceptors q) (members q).
Proof.
  intros (Hn & Hlen & Hq & Hc & Hf). unfold quorum_reached, majority.
  rewrite Z.leb_le, Hq, Hc. pose proof (members_all_ids q). naive_solver.
Qed.

Lemma majority_intersect n Q1 Q2 :
  0 <= n -> majority n Q1 -> majority n Q2 -> exists i, i ∈ Q1 /\ i ∈ Q2.
Proof.
  intros Hn [Hs1 H1] [Hs2 H2].
  destruct (decide (Q1 ∩ Q2 = ∅)) as [Hd|Hd]; [|apply set_choose_L in Hd; set_solver].
  exfalso. assert (size (Q1 ∪ Q2) = size Q1 + size Q2)%nat as Hsz.
  { apply size_union. set_solver. }
  assert (size (Q1 ∪ Q2) <= size (all_ids n))%nat by (apply subseteq_size; set_solver).
  pose proof (size_all_ids n Hn). pose proof (paxos_quorum_majority n Hn). lia.
Qed.

(** ** Properties *)

(** a counter that starts from [quorum_init n] and receives the ids of a
    list (each in range) has counted exactly the distinct ids, and
    [quorum_reached] holds exactly when more than half of the [n] acceptors
    are among them. *)
Theorem quorum_counts_distinct n ids :
  0 <= n -> Forall (fun i => 0 <= i < n) ids ->
  exists q, foldl (fun o i => q ← o; snd <$> quorum_add q i) (Some (quorum_init n)) ids = Some q /\
    count q = Z.of_nat (size (list_to_set ids : gset Z)) /\
    (quorum_reached q = true <-> n < 2 * Z.of_nat (size (list_to_set ids : gset Z))).
Proof.
  intros Hn Hids.
  assert (exists q, foldl (fun o i => q ← o; snd <$> quorum_add q i) (Some (quorum_init n)) ids
    = Some q /\ quorum_ok q /\ members q = list_to_set ids /\ acceptors q = n) as
    (q & Hq & Hok & Hm & Ha).
  { induction ids as [|i ids IH] using rev_ind.
    - eexists; split; [done|]. split_and!; [by apply quorum_init_ok | apply members_init | done].
    - apply Forall_app in Hids as [Hids Hi]. rewrite Forall_singleton in Hi.
      destruct (IH Hids) as (q & Hq & Hok & Hm & Ha). rewrite foldl_app, Hq. simpl.
      destruct (quorum_add_spec q i Hok) as (r & q' & -> & Hok' & Hm' & Ha' & _); [lia|].
      exists q'; split; [done|]. split_and!; [done| |lia].
      rewrite Hm', Hm, list_to_set_app_L. set_solver. }
  exists q. split; [done|]. destruct Hok as (H1 & H2 & H3 & H4 & H5). rewrite <- Hm.
  split; [done|]. unfold quorum_reached. rewrite Z.leb_le, H3, H4, Ha.
  rewrite paxos_quorum_div by done.
  pose proof (Z.div_mod n 2 ltac:(lia)). pose proof (Z.mod_pos_bound n 2 ltac:(lia)). lia.
Qed.

Lemma quorum_counts_distinct_witness :
  exists q, foldl (fun o i => q ← o; snd <$> quorum_add q i) (Some (quorum_init 3)) [2; 0; 2]
    = Some q /\ count q = 2 /\ quorum_reached q = true.
Proof.
  destruct (quorum_counts_distinct 3 [2; 0; 2]) as (q & H1 & H2 & H3).
  - lia.
  - repeat constructor; lia.
  - exists q. split; [exact H1|]. split; [rewrite H2; reflexivity|].
    apply H3. by vm_compute.
Defined.
