(* ===== verification/KhashInterface.v ===== *)
(** * What the clients of [khash.h] rely on

    The proposer, the learner and the in-memory storage keep their tables in
    [khash] maps from 32-bit instance ids.  [KHash] is the interface they use:
    the operations of the macros [kh_init], [kh_get], [kh_put], [kh_del],
    [kh_end], [kh_exist], [kh_key], [kh_value] and [kh_size], with their laws.
    A client iterates over the slots [0 .. kh_end) and sees deletions and value
    updates through the slots, so the laws speak about slots; [kh_map] is the
    finite map a table stands for.  [Khash.v] discharges the interface for the
    hash table of [khash.h]. *)

From S2P Require Import Prelude.

(** Number of elements up to which a table is guaranteed to accept a new key:
    at 2^31 buckets [kroundup32] in [kh_resize] overflows and the table stops
    growing. *)
Definition KH_LIMIT : Z := 2 ^ 29.

Class KHash (T : Type -> Type) := {
  kh_wf {V} : T V -> Prop;
  kh_init {V} : T V;
  kh_end {V} : T V -> Z;
  kh_size {V} : T V -> Z;
  (** [kh_exist], [kh_key] and [kh_value] at a slot. *)
  kh_slot {V} : T V -> Z -> option (Z * V);
  kh_get {V} : T V -> Z -> Z;
  (** [k = kh_put(h, key, &rv); kh_value(h, k) = v], with the slot [k] and
      [rv]; [None] past the capacity of the table. *)
  kh_put {V} : T V -> Z -> V -> option (T V * Z * Z);
  (** [kh_value(h, k) = v] at an existing slot. *)
  kh_set {V} : T V -> Z -> V -> T V;
  kh_del {V} : T V -> Z -> T V;

  kh_end_range {V} (h : T V) : kh_wf h -> 0 <= kh_end h < 2 ^ 32;
  kh_slot_range {V} (h : T V) i kv :
    kh_wf h -> kh_slot h i = Some kv -> 0 <= i < kh_end h;
  kh_slot_key {V} (h : T V) i k v :
    kh_wf h -> kh_slot h i = Some (k, v) -> is_u32 k /\ kh_get h k = i;
  kh_get_absent {V} (h : T V) k :
    kh_wf h -> is_u32 k -> (forall i v, kh_slot h i <> Some (k, v)) ->
    kh_get h k = kh_end h;
  kh_size_slots {V} (h : T V) :
    kh_wf h -> kh_size h = Z.of_nat (length (omap (kh_slot h) (seqZ 0 (kh_end h))));
  kh_init_wf {V} : kh_wf (V:=V) kh_init;
  kh_init_slot {V} i : kh_slot (V:=V) kh_init i = None;
  kh_set_spec {V} (h : T V) i k v0 v :
    kh_wf h -> kh_slot h i = Some (k, v0) ->
    kh_wf (kh_set h i v) /\ kh_end (kh_set h i v) = kh_end h /\
    forall j, kh_slot (kh_set h i v) j = if decide (i = j) then Some (k, v) else kh_slot h j;
  kh_del_spec {V} (h : T V) i kv :
    kh_wf h -> kh_slot h i = Some kv ->
    kh_wf (kh_del h i) /\ kh_end (kh_del h i) = kh_end h /\
    forall j, kh_slot (kh_del h i) j = if decide (i = j) then None else kh_slot h j;
  kh_put_spec {V} (h h' : T V) k v i rv :
    kh_wf h -> is_u32 k -> kh_put h k v = Some (h', i, rv) ->
    kh_wf h' /\ kh_slot h' i = Some (k, v) /\ 0 <= rv /\
    (rv = 0 <-> exists j v0, kh_slot h j = Some (k, v0)) /\
    (forall k' v', k' <> k ->
      (exists j, kh_slot h' j = Some (k', v')) <-> (exists j, kh_slot h j = Some (k', v')));
  kh_put_total {V} (h : T V) k v :
    kh_wf h -> is_u32 k -> kh_size h < KH_LIMIT -> is_Some (kh_put h k v);
}.

(** [kh_exist(h, k)] *)
Definition kh_exist `{KHash T} {V} (h : T V) (i : Z) : bool :=
  bool_decide (is_Some (kh_slot h i)).

(** Slots in iteration order. *)
Definition kh_slots `{KHash T} {V} (h : T V) : list Z := seqZ 0 (kh_end h).

(** The value under a key: [k = kh_get(h, key)], then [kh_value(h, k)] unless
    [k == kh_end(h)]. *)
Definition kh_lookup `{KHash T} {V} (h : T V) (key : Z) : option (Z * V) :=
  let k := kh_get h key in
  if k =? kh_end h then None else (fun kv => (k, kv.2)) <$> kh_slot h k.

(** Key-value pairs in iteration order, and the finite map. *)
Definition kh_list `{KHash T} {V} (h : T V) : list (Z * V) :=
  omap (kh_slot h) (kh_slots h).
Definition kh_map `{KHash T} {V} (h : T V) : gmap Z V := list_to_map (kh_list h).

(** ** Derived facts *)

Section khash_facts.
Context `{KH : KHash T} {V : Type}.
Implicit Types (h : T V) (k i rv : Z) (v : V).

Lemma kh_slot_inj h i j k v v' :
  kh_wf h -> kh_slot h i = Some (k, v) -> kh_slot h j = Some (k, v') -> i = j.
Proof. intros Hwf [_ <-]%kh_slot_key [_ <-]%kh_slot_key; done. Qed.

Lemma elem_of_kh_slots h i kv :
  kh_wf h -> kh_slot h i = Some kv -> i ∈ kh_slots h.
Proof. intros Hwf Hs. apply elem_of_seqZ. pose proof (kh_slot_range _ _ _ Hwf Hs). lia. Qed.

Lemma elem_of_kh_list h k v :
  kh_wf h -> (k, v) ∈ kh_list h <-> exists i, kh_slot h i = Some (k, v).
Proof.
  intros Hwf. unfold kh_list. rewrite list_elem_of_omap. split; [naive_solver|].
  intros [i Hi]. exists i. split; [by eapply elem_of_kh_slots | done].
Qed.

Lemma kh_list_NoDup_omap h (l : list Z) :
  kh_wf h -> NoDup l -> NoDup (omap (kh_slot h) l).*1.
Proof.
  intros Hwf. induction l as [|i l IH]; intros Hnd; [constructor|].
  apply NoDup_cons in Hnd as [Hi Hnd]. simpl.
  destruct (kh_slot h i) as [[k v]|] eqn:Hs; [|by apply IH]. simpl.
  constructor; [|by apply IH].
  intros ([k' v'] & -> & Hin)%list_elem_of_fmap.
  apply list_elem_of_omap in Hin as (j & Hj & Hsj). simpl in Hs.
  by rewrite (kh_slot_inj h i j _ _ _ Hwf Hs Hsj) in Hi.
Qed.

Lemma kh_list_NoDup h : kh_wf h -> NoDup (kh_list h).*1.
Proof. intros. apply kh_list_NoDup_omap; [done | apply NoDup_seqZ]. Qed.

Lemma kh_map_Some h k v :
  kh_wf h -> kh_map h !! k = Some v <-> exists i, kh_slot h i = Some (k, v).
Proof.
  intros Hwf. rewrite <- elem_of_kh_list by done. unfold kh_map.
  by rewrite elem_of_list_to_map by by apply kh_list_NoDup.
Qed.

Lemma kh_map_None h k :
  kh_wf h -> kh_map h !! k = None <-> forall i v, kh_slot h i <> Some (k, v).
Proof.
  intros Hwf. split.
  - intros Hn i v Hs. assert (kh_map h !! k = Some v) by (apply kh_map_Some; eauto). congruence.
  - intros Hn. apply eq_None_not_Some. intros [v [i Hs]%kh_map_Some]; [|done]. by eapply Hn.
Qed.

Lemma kh_map_key_range h k v : kh_wf h -> kh_map h !! k = Some v -> is_u32 k.
Proof. intros Hwf [i Hs]%kh_map_Some; [|done]. by eapply kh_slot_key. Qed.

(** [kh_lookup] reads the map, and gives the slot. *)
Lemma kh_lookup_slot h k i v :
  kh_wf h -> is_u32 k -> kh_lookup h k = Some (i, v) <-> kh_slot h i = Some (k, v).
Proof.
  intros Hwf Hk. unfold kh_lookup. split.
  - destruct (Z.eqb_spec (kh_get h k) (kh_end h)); [done|]. intros Hl.
    destruct (kh_slot h (kh_get h k)) as [[k' v']|] eqn:Hs; simplify_eq/=.
    destruct (kh_map h !! k) as [v0|] eqn:Hm.
    + apply kh_map_Some in Hm as [j Hj]; [|done].
      destruct (kh_slot_key h j k v0 Hwf Hj) as [_ Hg]. rewrite Hg in *. congruence.
    + pose proof (proj1 (kh_map_None h k Hwf) Hm) as Hn. by apply kh_get_absent in Hn.
  - intros Hs. destruct (kh_slot_key h i k v Hwf Hs) as [_ Hg].
    pose proof (kh_slot_range h i _ Hwf Hs). rewrite Hg, Hs. simpl.
    destruct (Z.eqb_spec i (kh_end h)); [lia | done].
Qed.

Lemma kh_lookup_map h k :
  kh_wf h -> is_u32 k -> snd <$> kh_lookup h k = kh_map h !! k.
Proof.
  intros Hwf Hk. destruct (kh_lookup h k) as [[i v]|] eqn:Hl; simpl; symmetry.
  - apply kh_map_Some; [done|]. exists i. by apply kh_lookup_slot.
  - apply kh_map_None; [done|]. intros i v Hs.
    assert (kh_lookup h k = Some (i, v)) by by apply kh_lookup_slot. congruence.
Qed.

Lemma kh_lookup_map_Some h k i v :
  kh_wf h -> is_u32 k -> kh_lookup h k = Some (i, v) -> kh_map h !! k = Some v.
Proof. intros Hwf Hk Hl. by rewrite <- kh_lookup_map, Hl. Qed.

Lemma kh_lookup_map_None h k :
  kh_wf h -> is_u32 k -> kh_lookup h k = None -> kh_map h !! k = None.
Proof. intros Hwf Hk Hl. by rewrite <- kh_lookup_map, Hl. Qed.

Lemma kh_map_init : kh_map (V:=V) kh_init = ∅.
Proof.
  apply map_empty. intros k. apply kh_map_None; [apply kh_init_wf|].
  intros i v. by rewrite kh_init_slot.
Qed.

Lemma kh_map_set h i k v0 v :
  kh_wf h -> kh_slot h i = Some (k, v0) ->
  kh_wf (kh_set h i v) /\ kh_map (kh_set h i v) = <[k := v]> (kh_map h).
Proof.
  intros Hwf Hs. destruct (kh_set_spec h i k v0 v Hwf Hs) as (Hwf' & _ & Hslot).
  split; [done|]. apply map_eq. intros k'. apply option_eq. intros v'.
  rewrite kh_map_Some, lookup_insert_Some, kh_map_Some by done. setoid_rewrite Hslot. split.
  - intros [j Hj]. case_decide; [naive_solver|]. right. split; [|eauto].
    intros <-. by apply (kh_slot_inj h i j k v0 v') in Hs.
  - intros [[<- <-]|[Hk [j Hj]]]; [exists i; by rewrite decide_True|].
    exists j. rewrite decide_False; [done|]. intros <-. congruence.
Qed.

Lemma kh_map_del h i k v0 :
  kh_wf h -> kh_slot h i = Some (k, v0) ->
  kh_wf (kh_del h i) /\ kh_map (kh_del h i) = delete k (kh_map h).
Proof.
  intros Hwf Hs. destruct (kh_del_spec h i _ Hwf Hs) as (Hwf' & _ & Hslot).
  split; [done|]. apply map_eq. intros k'. apply option_eq. intros v'.
  rewrite kh_map_Some, lookup_delete_Some, kh_map_Some by done. setoid_rewrite Hslot. split.
  - intros [j Hj]. case_decide; [done|]. split; [|eauto].
    intros <-. by apply (kh_slot_inj h i j k v0 v') in Hs.
  - intros [Hk [j Hj]]. exists j. rewrite decide_False; [done|]. intros <-. congruence.
Qed.

Lemma kh_map_put h h' k v i rv :
  kh_wf h -> is_u32 k -> kh_put h k v = Some (h', i, rv) ->
  kh_wf h' /\ kh_map h' = <[k := v]> (kh_map h) /\ kh_slot h' i = Some (k, v) /\
  0 <= rv /\ (rv = 0 <-> is_Some (kh_map h !! k)).
Proof.
  intros Hwf Hk Hput. destruct (kh_put_spec h h' k v i rv Hwf Hk Hput)
    as (Hwf' & Hs & Hrv & Hrv0 & Hother).
  split; [done|]. split_and!; [|done|done|].
  - apply map_eq. intros k'. apply option_eq. intros v'.
    rewrite kh_map_Some, lookup_insert_Some, kh_map_Some by done. split.
    + intros [j Hj]. destruct (decide (k = k')) as [<-|Hne].
      * left. split; [done|]. assert (i = j) as <- by by eapply kh_slot_inj. congruence.
      * right. split; [done|]. apply Hother; eauto.
    + intros [[<- <-]|[Hne Hj]]; [eauto|]. apply Hother; eauto.
  - rewrite Hrv0. split.
    + intros (j & v0 & Hj). exists v0. apply kh_map_Some; eauto.
    + intros [v0 [j Hj]%kh_map_Some]; [eauto|done].
Qed.

(** The loops [for (k = kh_begin(h); k != kh_end(h); ++k)] that delete the
    elements a test [f] selects. *)
Definition prune_step (f : V -> bool) h (k : Z) : T V :=
  match kh_slot h k with
  | Some (_, v) => if f v then kh_del h k else h
  | None => h
  end.

(** A slot survives the loop over the slots [l] unless it is one of them and
    is selected. *)
Lemma prune_slots f (l : list Z) h :
  kh_wf h ->
  let h' := foldl (prune_step f) h l in
  kh_wf h' /\ forall j, kh_slot h' j =
    if decide (j ∈ l) then
      match kh_slot h j with
      | Some (k, v) => if f v then None else Some (k, v)
      | None => None
      end
    else kh_slot h j.
Proof.
  revert h. induction l as [|x l IH]; intros h Hwf; [done|]. cbn [foldl].
  assert (kh_wf (prune_step f h x) /\ forall j, kh_slot (prune_step f h x) j =
    if decide (x = j) then
      match kh_slot h j with
      | Some (k, v) => if f v then None else Some (k, v)
      | None => None
      end
    else kh_slot h j) as [Hwf1 Hsl1].
  { unfold prune_step. destruct (kh_slot h x) as [[k v]|] eqn:Hx.
    - destruct (f v) eqn:Hf.
      + destruct (kh_del_spec h x _ Hwf Hx) as (Hw & _ & Hsl). split; [done|]. intros j.
        rewrite Hsl. case_decide; [|done]. subst. by rewrite Hx, Hf.
      + split; [done|]. intros j. case_decide; [|done]. subst. by rewrite Hx, Hf.
    - split; [done|]. intros j. case_decide; [|done]. subst. by rewrite Hx. }
  destruct (IH _ Hwf1) as [Hwf' Hsl']. split; [done|]. intros j. rewrite Hsl', Hsl1.
  destruct (decide (x = j)) as [->|Hne].
  - rewrite (decide_True (P := j ∈ j :: l)) by set_solver.
    destruct (kh_slot h j) as [[k v]|]; [|by destruct (decide _)].
    destruct (f v) eqn:Hf; [by destruct (decide _)|]. rewrite Hf. by destruct (decide _).
  - destruct (decide (j ∈ l)), (decide (j ∈ x :: l)); set_solver.
Qed.

Lemma kh_map_prune f h :
  kh_wf h ->
  kh_wf (foldl (prune_step f) h (kh_slots h)) /\
  kh_map (foldl (prune_step f) h (kh_slots h)) = filter (fun kv => f kv.2 = false) (kh_map h).
Proof.
  intros Hwf. destruct (prune_slots f (kh_slots h) h Hwf) as [Hwf' Hsl]. split; [done|].
  apply map_eq. intros k. apply option_eq. intros v.
  rewrite map_lookup_filter_Some, !kh_map_Some by done. simpl. split.
  - intros [j Hj]. rewrite Hsl in Hj.
    destruct (kh_slot h j) as [[k' v']|] eqn:Hs; [|by destruct (decide _)].
    rewrite decide_True in Hj by by eapply elem_of_kh_slots.
    destruct (f v') eqn:Hf; simplify_eq. eauto.
  - intros [[j Hj] Hf]. exists j. rewrite Hsl, Hj.
    rewrite decide_True by by eapply elem_of_kh_slots. by rewrite Hf.
Qed.

Lemma kh_size_map h : kh_wf h -> kh_size h = Z.of_nat (size (kh_map h)).
Proof.
  intros Hwf. rewrite kh_size_slots by done. unfold kh_map, kh_list, kh_slots.
  rewrite map_size_list_to_map by by apply kh_list_NoDup. done.
Qed.

End khash_facts.

#[export] Hint Resolve kh_init_wf : khash.
