(* ===== verification/KhashProbe.v ===== *)
(** * Arithmetic of the hash table: packed flags and the probe sequence

    [khash.h] packs two flag bits per bucket, 16 buckets to a 32-bit word, and
    probes bucket [k], [k + 1], [k + 1 + 2], ... modulo a power of two.  This
    file models the flag macros and shows that setting a flag of one bucket
    leaves the others alone, and that the first [n] probes visit every bucket
    exactly once. *)

From S2P Require Import Prelude.

(** ** Flag macros *)

Definition word_at (flag : list Z) (i : Z) : Z :=
  default 0 (flag !! Z.to_nat (Z.shiftr i 4)).

Definition flag_shift (i : Z) : Z := Z.shiftl (Z.land i 15) 1.

Definition ac_isempty (flag : list Z) (i : Z) : bool :=
  negb (Z.land (Z.shiftr (word_at flag i) (flag_shift i)) 2 =? 0).
Definition ac_isdel (flag : list Z) (i : Z) : bool :=
  negb (Z.land (Z.shiftr (word_at flag i) (flag_shift i)) 1 =? 0).
Definition ac_iseither (flag : list Z) (i : Z) : bool :=
  negb (Z.land (Z.shiftr (word_at flag i) (flag_shift i)) 3 =? 0).

Definition set_word (flag : list Z) (i w : Z) : list Z :=
  <[Z.to_nat (Z.shiftr i 4) := u32 w]> flag.

Definition ac_set_isdel_false (flag : list Z) (i : Z) : list Z :=
  set_word flag i (Z.land (word_at flag i) (Z.lnot (Z.shiftl 1 (flag_shift i)))).
Definition ac_set_isempty_false (flag : list Z) (i : Z) : list Z :=
  set_word flag i (Z.land (word_at flag i) (Z.lnot (Z.shiftl 2 (flag_shift i)))).
Definition ac_set_isboth_false (flag : list Z) (i : Z) : list Z :=
  set_word flag i (Z.land (word_at flag i) (Z.lnot (Z.shiftl 3 (flag_shift i)))).
Definition ac_set_isdel_true (flag : list Z) (i : Z) : list Z :=
  set_word flag i (Z.lor (word_at flag i) (Z.shiftl 1 (flag_shift i))).

Definition ac_fsize (m : Z) : Z := if m <? 16 then 1 else Z.shiftr m 4.

(** [memset(flags, 0xaa, ...)]: every bucket empty. *)
Definition flags_empty (m : Z) : list Z := replicate (Z.to_nat (ac_fsize m)) 0xaaaaaaaa.

Definition kroundup32 (x : Z) : Z :=
  let x := u32 (x - 1) in
  let x := Z.lor x (Z.shiftr x 1) in
  let x := Z.lor x (Z.shiftr x 2) in
  let x := Z.lor x (Z.shiftr x 4) in
  let x := Z.lor x (Z.shiftr x 8) in
  let x := Z.lor x (Z.shiftr x 16) in
  u32 (x + 1).

(** ** The probe sequence *)

Definition tri (s : Z) : Z := s * (s + 1) / 2.
Definition probe (n k s : Z) : Z := (k + tri s) mod n.

(** ** Flags: one bucket at a time *)

(** The words of a flag array of [n] buckets. *)
Definition flags_ok (n : Z) (flag : list Z) : Prop :=
  n <= 16 * Z.of_nat (length flag) /\ Forall (fun w => is_u32 w) flag.

Lemma flag_shift_eq i : 0 <= i -> flag_shift i = 2 * (i mod 16).
Proof.
  intros. unfold flag_shift. change 15 with (Z.ones 4). rewrite Z.land_ones by lia.
  rewrite Z.shiftl_mul_pow2 by lia. change (2 ^ 4) with 16. lia.
Qed.

Lemma shiftr_4 i : Z.shiftr i 4 = i / 16.
Proof. by rewrite Z.shiftr_div_pow2 by lia. Qed.

Lemma land_bit_0 w b : 0 <= b -> negb (Z.land (Z.shiftr w b) 1 =? 0) = Z.testbit w b.
Proof.
  intros. change 1 with (Z.ones 1). rewrite Z.land_ones, Z.pow_1_r by lia.
  rewrite <- Z.bit0_mod, Z.shiftr_spec, Z.add_0_l by lia. by destruct (Z.testbit w b).
Qed.

Lemma land_bit_1 w b : 0 <= b -> negb (Z.land (Z.shiftr w b) 2 =? 0) = Z.testbit w (b + 1).
Proof.
  intros. rewrite <- land_bit_0 by lia. rewrite <- Z.shiftr_shiftr by lia.
  set (x := Z.shiftr w b).
  assert (Z.land x 2 = Z.shiftl (Z.land (Z.shiftr x 1) 1) 1) as ->.
  { apply Z.bits_inj'. intros n Hn. rewrite Z.shiftl_spec, !Z.land_spec by lia.
    destruct (decide (n = 0)) as [->|]; [by rewrite andb_false_r|].
    rewrite Z.shiftr_spec by lia. replace (n - 1 + 1) with n by lia. f_equal.
    change 2 with (Z.shiftl 1 1). by rewrite Z.shiftl_spec by lia. }
  rewrite Z.shiftl_mul_pow2 by lia. f_equal.
  destruct (Z.eqb_spec (Z.land (Z.shiftr x 1) 1 * 2 ^ 1) 0),
    (Z.eqb_spec (Z.land (Z.shiftr x 1) 1) 0); lia.
Qed.

Lemma ac_isdel_bit flag i :
  0 <= i -> ac_isdel flag i = Z.testbit (word_at flag i) (2 * (i mod 16)).
Proof.
  intros. unfold ac_isdel. rewrite flag_shift_eq by done.
  apply land_bit_0. pose proof (Z.mod_pos_bound i 16). lia.
Qed.

Lemma ac_isempty_bit flag i :
  0 <= i -> ac_isempty flag i = Z.testbit (word_at flag i) (2 * (i mod 16) + 1).
Proof.
  intros. unfold ac_isempty. rewrite flag_shift_eq by done.
  apply land_bit_1. pose proof (Z.mod_pos_bound i 16). lia.
Qed.

Lemma ac_iseither_or flag i : ac_iseither flag i = ac_isempty flag i || ac_isdel flag i.
Proof.
  unfold ac_iseither, ac_isempty, ac_isdel. set (x := Z.shiftr _ _).
  assert (Z.land x 3 = Z.lor (Z.land x 2) (Z.land x 1)) as ->.
  { rewrite <- Z.land_lor_distr_r. done. }
  destruct (Z.eqb_spec (Z.lor (Z.land x 2) (Z.land x 1)) 0) as [H|H].
  - by apply Z.lor_eq_0_iff in H as [-> ->].
  - destruct (Z.eqb_spec (Z.land x 2) 0), (Z.eqb_spec (Z.land x 1) 0); try done.
    exfalso. by apply H, Z.lor_eq_0_iff.
Qed.

(** A word update seen from every bucket. *)
Lemma word_at_set n flag i j w :
  flags_ok n flag -> 0 <= i < n -> 0 <= j ->
  word_at (set_word flag i w) j = if decide (i / 16 = j / 16) then u32 w else word_at flag j.
Proof.
  intros [Hlen _] Hi Hj. unfold word_at, set_word. rewrite !shiftr_4.
  pose proof (Z.div_pos i 16). pose proof (Z.div_pos j 16).
  assert (i / 16 < Z.of_nat (length flag)) by (apply Z.div_lt_upper_bound; lia).
  case_decide as Heq.
  - rewrite <- Heq. rewrite list_lookup_insert_eq by lia. done.
  - rewrite list_lookup_insert_ne by lia. done.
Qed.

Lemma flags_ok_set n flag i w : flags_ok n flag -> flags_ok n (set_word flag i w).
Proof.
  intros [Hlen Hw]. unfold set_word. split; [by rewrite length_insert|].
  apply Forall_insert; [done | apply u32_range].
Qed.

Lemma word_at_range n flag i : flags_ok n flag -> is_u32 (word_at flag i).
Proof.
  intros [_ Hw]. unfold word_at. destruct (flag !! _) as [w|] eqn:Hl; simpl; [|lia].
  by eapply Forall_lookup_1 in Hw.
Qed.

Lemma testbit_u32 w b : 0 <= b < 32 -> Z.testbit (u32 w) b = Z.testbit w b.
Proof. intros. unfold u32. by rewrite Z.mod_pow2_bits_low by lia. Qed.

(** Bits of the masks. *)
Lemma testbit_mask (m sh b : Z) :
  0 <= sh -> 0 <= b -> Z.testbit (Z.shiftl m sh) b = if decide (b < sh) then false else Z.testbit m (b - sh).
Proof.
  intros. rewrite Z.shiftl_spec by lia. case_decide; [|done]. apply Z.testbit_neg_r. lia.
Qed.

Lemma mod16_same_word i j :
  i / 16 = j / 16 -> i mod 16 = j mod 16 -> i = j.
Proof.
  intros. rewrite (Z.div_mod i 16), (Z.div_mod j 16) by lia. lia.
Qed.

Lemma word_at_same flag i j : i / 16 = j / 16 -> word_at flag i = word_at flag j.
Proof. intros Heq. unfold word_at. by rewrite !shiftr_4, Heq. Qed.

(** Bit [c] of bucket [j] in the mask [m << shift(i)], for a two-bit [m]. *)
Lemma testbit_bucket_mask m i j c :
  0 <= m < 4 -> 0 <= i -> 0 <= j -> 0 <= c < 2 -> i / 16 = j / 16 ->
  Z.testbit (Z.shiftl m (flag_shift i)) (2 * (j mod 16) + c) =
  if decide (i = j) then Z.testbit m c else false.
Proof.
  intros Hm Hi Hj Hc Hw. rewrite flag_shift_eq by done.
  pose proof (Z.mod_pos_bound i 16). pose proof (Z.mod_pos_bound j 16).
  rewrite testbit_mask by lia. destruct (decide (i = j)) as [Hij|Hij].
  - subst j. rewrite decide_False by lia. f_equal. lia.
  - assert (i mod 16 <> j mod 16) by (intros ?; by apply Hij, mod16_same_word).
    case_decide; [done|]. apply Z.bits_above_log2; [lia|].
    assert (Z.log2 m < 2); [|lia]. destruct (decide (m = 0)) as [->|]; [done|].
    apply Z.log2_lt_pow2; lia.
Qed.

Section set_flags.
Context (n : Z) (flag : list Z) (Hok : flags_ok n flag).
Context (i j : Z) (Hi : 0 <= i < n) (Hj : 0 <= j < n).

Lemma testbit_set_and m c :
  0 <= m < 4 -> 0 <= c < 2 ->
  Z.testbit (word_at (set_word flag i
    (Z.land (word_at flag i) (Z.lnot (Z.shiftl m (flag_shift i))))) j) (2 * (j mod 16) + c) =
  Z.testbit (word_at flag j) (2 * (j mod 16) + c) &&
    negb (if decide (i = j) then Z.testbit m c else false).
Proof using Hok Hi Hj.
  intros Hm Hc. pose proof (Z.mod_pos_bound j 16).
  rewrite (word_at_set n) by (done || lia). case_decide as Hw.
  - rewrite testbit_u32, Z.land_spec, Z.lnot_spec, testbit_bucket_mask by lia.
    by rewrite (word_at_same flag i j).
  - rewrite decide_False by congruence. by rewrite andb_true_r.
Qed.

Lemma testbit_set_or m c :
  0 <= m < 4 -> 0 <= c < 2 ->
  Z.testbit (word_at (set_word flag i
    (Z.lor (word_at flag i) (Z.shiftl m (flag_shift i)))) j) (2 * (j mod 16) + c) =
  Z.testbit (word_at flag j) (2 * (j mod 16) + c) ||
    (if decide (i = j) then Z.testbit m c else false).
Proof using Hok Hi Hj.
  intros Hm Hc. pose proof (Z.mod_pos_bound j 16).
  rewrite (word_at_set n) by (done || lia). case_decide as Hw.
  - rewrite testbit_u32, Z.lor_spec, testbit_bucket_mask by lia.
    by rewrite (word_at_same flag i j).
  - rewrite decide_False by congruence. by rewrite orb_false_r.
Qed.

Lemma isempty_set_isdel_true : ac_isempty (ac_set_isdel_true flag i) j = ac_isempty flag j.
Proof using Hok Hi Hj.
  rewrite !ac_isempty_bit by lia. unfold ac_set_isdel_true. rewrite testbit_set_or by lia.
  case_decide; by rewrite orb_false_r.
Qed.

Lemma isdel_set_isdel_true :
  ac_isdel (ac_set_isdel_true flag i) j = if decide (i = j) then true else ac_isdel flag j.
Proof using Hok Hi Hj.
  rewrite !ac_isdel_bit by lia. unfold ac_set_isdel_true.
  replace (2 * (j mod 16)) with (2 * (j mod 16) + 0) by lia. rewrite testbit_set_or by lia.
  case_decide; [by rewrite orb_true_r | by rewrite orb_false_r].
Qed.

Lemma isempty_set_isempty_false :
  ac_isempty (ac_set_isempty_false flag i) j =
  if decide (i = j) then false else ac_isempty flag j.
Proof using Hok Hi Hj.
  rewrite !ac_isempty_bit by lia. unfold ac_set_isempty_false. rewrite testbit_set_and by lia.
  case_decide; [by rewrite andb_false_r | by rewrite andb_true_r].
Qed.

Lemma isdel_set_isempty_false : ac_isdel (ac_set_isempty_false flag i) j = ac_isdel flag j.
Proof using Hok Hi Hj.
  rewrite !ac_isdel_bit by lia. unfold ac_set_isempty_false.
  replace (2 * (j mod 16)) with (2 * (j mod 16) + 0) by lia. rewrite testbit_set_and by lia.
  case_decide; by rewrite andb_true_r.
Qed.

Lemma isempty_set_isboth_false :
  ac_isempty (ac_set_isboth_false flag i) j =
  if decide (i = j) then false else ac_isempty flag j.
Proof using Hok Hi Hj.
  rewrite !ac_isempty_bit by lia. unfold ac_set_isboth_false. rewrite testbit_set_and by lia.
  case_decide; [by rewrite andb_false_r | by rewrite andb_true_r].
Qed.

Lemma isdel_set_isboth_false :
  ac_isdel (ac_set_isboth_false flag i) j =
  if decide (i = j) then false else ac_isdel flag j.
Proof using Hok Hi Hj.
  rewrite !ac_isdel_bit by lia. unfold ac_set_isboth_false.
  replace (2 * (j mod 16)) with (2 * (j mod 16) + 0) by lia. rewrite testbit_set_and by lia.
  case_decide; [by rewrite andb_false_r | by rewrite andb_true_r].
Qed.

End set_flags.

(** A fresh flag array: every bucket is empty and none is deleted. *)
Lemma flags_empty_ok n : 0 <= n -> n < 16 \/ n mod 16 = 0 -> flags_ok n (flags_empty n).
Proof.
  intros Hn H16. unfold flags_empty, flags_ok. rewrite length_replicate. split.
  - unfold ac_fsize. destruct (Z.ltb_spec n 16); [lia|]. rewrite shiftr_4.
    pose proof (Z.div_mod n 16 ltac:(lia)). pose proof (Z.div_pos n 16). lia.
  - apply Forall_replicate. lia.
Qed.

Lemma word_at_flags_empty n j :
  n < 16 \/ n mod 16 = 0 -> 0 <= j < n -> word_at (flags_empty n) j = 0xaaaaaaaa.
Proof.
  intros H16 Hj. unfold word_at, flags_empty. rewrite shiftr_4.
  assert (j / 16 < ac_fsize n) as Hlt.
  { unfold ac_fsize. apply Z.div_lt_upper_bound; [lia|].
    destruct (Z.ltb_spec n 16); [lia|]. rewrite shiftr_4.
    pose proof (Z.div_mod n 16 ltac:(lia)). lia. }
  pose proof (Z.div_pos j 16). by rewrite lookup_replicate_2 by lia.
Qed.

Lemma aa_bits c : 0 <= c < 16 ->
  Z.testbit 0xaaaaaaaa (2 * c) = false /\ Z.testbit 0xaaaaaaaa (2 * c + 1) = true.
Proof.
  intros Hc. assert (c ∈ seqZ 0 16) as Hin by (apply elem_of_seqZ; lia).
  vm_compute in Hin. repeat (apply elem_of_cons in Hin as [->|Hin]; [done|]).
  by apply elem_of_nil in Hin.
Qed.

Lemma flags_empty_bucket n j :
  n < 16 \/ n mod 16 = 0 -> 0 <= j < n ->
  ac_isempty (flags_empty n) j = true /\ ac_isdel (flags_empty n) j = false.
Proof.
  intros H16 Hj. rewrite ac_isempty_bit, ac_isdel_bit by lia.
  rewrite word_at_flags_empty by done.
  destruct (aa_bits (j mod 16)); [apply Z.mod_pos_bound; lia | done].
Qed.

(** ** The probe sequence visits every bucket *)

Lemma tri_double s : 2 * tri s = s * (s + 1).
Proof.
  unfold tri. pose proof (Z.div_mod (s * (s + 1)) 2 ltac:(lia)) as H.
  assert ((s * (s + 1)) mod 2 = 0) as H0; [|lia].
  apply Z.mod_divide; [lia|]. destruct (Z.Even_or_Odd s) as [[m ->]|[m ->]].
  - exists (m * (2 * m + 1)). lia.
  - exists ((2 * m + 1) * (m + 1)). lia.
Qed.

Lemma tri_succ s : tri (s + 1) = tri s + (s + 1).
Proof. pose proof (tri_double s). pose proof (tri_double (s + 1)). nia. Qed.

Lemma tri_0 : tri 0 = 0.
Proof. done. Qed.

Lemma tri_nonneg s : 0 <= s -> 0 <= tri s.
Proof. pose proof (tri_double s). nia. Qed.

Lemma probe_0 n k : probe n k 0 = k mod n.
Proof. unfold probe. by rewrite tri_0, Z.add_0_r. Qed.

Lemma probe_succ n k s : 0 < n -> (probe n k s + (s + 1)) mod n = probe n k (s + 1).
Proof. intros. unfold probe. rewrite tri_succ, Zplus_mod_idemp_l. f_equal. lia. Qed.

Lemma probe_range n k s : 0 < n -> 0 <= probe n k s < n.
Proof. intros. by apply Z.mod_pos_bound. Qed.

(** A power of two that divides a product with an odd factor divides the
    other factor. *)
Lemma pow2_divide_odd m a q :
  0 <= m -> (2 ^ m | a * (2 * q + 1)) -> (2 ^ m | a).
Proof.
  intros Hm. revert a. pattern m. apply natlike_ind; [intros a _; apply Z.divide_1_l| |done].
  clear m Hm. intros m Hm IH a Hd. rewrite Z.pow_succ_r in * by done.
  assert (exists a', a = 2 * a') as [a' ->].
  { destruct (Z.Even_or_Odd a) as [[a' ->]|[a' ->]]; [eauto|].
    destruct Hd as [c Hc]. exfalso. nia. }
  apply Z.mul_divide_mono_l, IH. destruct Hd as [c Hc]. exists c. nia.
Qed.

(** Two triangular numbers that agree modulo 2^m have indices that agree or
    sum to -1, modulo 2^(m+1). *)
Lemma tri_cong m s t :
  0 <= m -> (2 ^ m | tri s - tri t) ->
  (2 ^ (m + 1) | s - t) \/ (2 ^ (m + 1) | s + t + 1).
Proof.
  intros Hm [c Hc].
  assert ((s - t) * (s + t + 1) = c * 2 ^ (m + 1)) as Hprod.
  { pose proof (tri_double s). pose proof (tri_double t).
    rewrite Z.pow_add_r, Z.pow_1_r by lia. nia. }
  destruct (Z.Even_or_Odd (s - t)) as [[d Hd]|[d Hd]].
  - left. apply (pow2_divide_odd _ _ (d + t)); [lia|].
    replace (2 * (d + t) + 1) with (s + t + 1) by lia. by exists c.
  - right. apply (pow2_divide_odd _ _ d); [lia|].
    rewrite Z.mul_comm. rewrite <- Hd. by exists c.
Qed.

Lemma divide_small n x : 0 < n -> (n | x) -> - n < x < n -> x = 0.
Proof. intros Hn [c ->] Hx. assert (c = 0) as -> by nia. done. Qed.

(** The first [n] probes hit distinct buckets. *)
Lemma probe_inj m k s t :
  0 <= m -> 0 <= s < 2 ^ m -> 0 <= t < 2 ^ m ->
  probe (2 ^ m) k s = probe (2 ^ m) k t -> s = t.
Proof.
  intros Hm Hs Ht Heq. pose proof (Z.pow_pos_nonneg 2 m ltac:(lia) Hm).
  assert (2 ^ m | tri s - tri t) as Hd.
  { apply Z.mod_divide; [lia|]. unfold probe in Heq.
    replace (tri s - tri t) with ((k + tri s) - (k + tri t)) by lia.
    rewrite Zminus_mod, Heq, Z.sub_diag. apply Z.mod_0_l. lia. }
  apply tri_cong in Hd as [Hd|Hd]; [| |done]; apply divide_small in Hd;
    rewrite ?Z.pow_add_r, ?Z.pow_1_r by lia; lia.
Qed.

(** The probe returns to its first bucket only after 2n - 1 steps. *)
Lemma probe_no_return m k s :
  0 <= m -> 0 < s < 2 * 2 ^ m - 1 -> probe (2 ^ m) k s <> probe (2 ^ m) k 0.
Proof.
  intros Hm Hs Heq. pose proof (Z.pow_pos_nonneg 2 m ltac:(lia) Hm).
  assert (2 ^ m | tri s - tri 0) as Hd.
  { apply Z.mod_divide; [lia|]. unfold probe in Heq.
    replace (tri s - tri 0) with ((k + tri s) - (k + tri 0)) by lia.
    rewrite Zminus_mod, Heq, Z.sub_diag. apply Z.mod_0_l. lia. }
  apply tri_cong in Hd as [Hd|Hd]; [| |done]; apply divide_small in Hd;
    rewrite ?Z.pow_add_r, ?Z.pow_1_r by lia; lia.
Qed.

(** Every bucket is among the first [n] probes. *)
Lemma probe_cover m k i :
  0 <= m -> 0 <= i < 2 ^ m -> exists s, 0 <= s < 2 ^ m /\ probe (2 ^ m) k s = i.
Proof.
  intros Hm Hi. pose proof (Z.pow_pos_nonneg 2 m ltac:(lia) Hm).
  assert (NoDup (probe (2 ^ m) k <$> seqZ 0 (2 ^ m))) as Hnd.
  { apply NoDup_fmap_2_strong; [|apply NoDup_seqZ].
    intros s t Hs%elem_of_seqZ Ht%elem_of_seqZ. apply probe_inj; lia. }
  assert (probe (2 ^ m) k <$> seqZ 0 (2 ^ m) ≡ₚ seqZ 0 (2 ^ m)) as Hperm.
  { apply submseteq_length_Permutation; [|by rewrite length_fmap].
    apply NoDup_submseteq; [done|]. intros x (s & -> & _)%list_elem_of_fmap.
    apply elem_of_seqZ. pose proof (probe_range (2 ^ m) k s ltac:(lia)). lia. }
  assert (i ∈ probe (2 ^ m) k <$> seqZ 0 (2 ^ m)) as Hin.
  { rewrite Hperm. apply elem_of_seqZ. lia. }
  apply list_elem_of_fmap in Hin as (s & -> & Hs). apply elem_of_seqZ in Hs.
  exists s. split; [lia|done].
Qed.

(** ** Rounding up to a power of two *)

(** The sizes [kh_put] asks for: one less than a power of two rounds to it, one
    more to the next. *)
Lemma kroundup32_values m :
  2 <= m <= 30 -> kroundup32 (2 ^ m - 1) = 2 ^ m /\ kroundup32 (2 ^ m + 1) = 2 ^ (m + 1).
Proof.
  intros Hm. assert (m ∈ seqZ 2 29) as Hin by (apply elem_of_seqZ; lia).
  vm_compute in Hin. repeat (apply elem_of_cons in Hin as [->|Hin]; [done|]).
  by apply elem_of_nil in Hin.
Qed.

(** ** Counting buckets *)

Fixpoint cnt_nat (n : nat) (P : Z -> bool) : Z :=
  match n with
  | O => 0
  | S n' => cnt_nat n' P + Z.b2z (P (Z.of_nat n'))
  end.

(** Number of buckets below [n] that satisfy [P]. *)
Definition cnt (n : Z) (P : Z -> bool) : Z := cnt_nat (Z.to_nat n) P.

Lemma cnt_ext n P Q : (forall i, 0 <= i < n -> P i = Q i) -> cnt n P = cnt n Q.
Proof.
  unfold cnt. intros Heq.
  assert (forall j, (j <= Z.to_nat n)%nat -> cnt_nat j P = cnt_nat j Q) as H; [|by apply H].
  induction j as [|j IH]; intros Hj; [done|]. simpl. rewrite IH, Heq by lia. done.
Qed.

(** Changing one bucket from false to true adds one. *)
Lemma cnt_set n P Q i :
  0 <= i < n -> P i = false -> Q i = true -> (forall j, 0 <= j < n -> j <> i -> P j = Q j) ->
  cnt n Q = cnt n P + 1.
Proof.
  unfold cnt. intros Hi HP HQ Heq.
  assert (forall j, (j <= Z.to_nat n)%nat ->
    cnt_nat j Q = cnt_nat j P + Z.b2z (i <? Z.of_nat j)) as H.
  { induction j as [|j IH]; intros Hj; [destruct (Z.ltb_spec i (Z.of_nat 0)); simpl; lia|].
    cbn [cnt_nat]. rewrite IH by lia. destruct (decide (Z.of_nat j = i)) as [Hji|Hji].
    - rewrite Hji, HP, HQ. rewrite (proj2 (Z.ltb_ge i i)), (proj2 (Z.ltb_lt i (Z.of_nat (S j)))) by lia.
      simpl. lia.
    - rewrite Heq by lia.
      destruct (Z.ltb_spec i (Z.of_nat j)), (Z.ltb_spec i (Z.of_nat (S j))); lia. }
  rewrite H by done. by rewrite (proj2 (Z.ltb_lt i _)) by lia.
Qed.

Lemma cnt_nonneg n P : 0 <= cnt n P.
Proof.
  unfold cnt. induction (Z.to_nat n) as [|j IH]; simpl; [done|].
  destruct (P (Z.of_nat j)); simpl; lia.
Qed.

Lemma cnt_le n P Q : (forall i, 0 <= i < n -> P i = true -> Q i = true) -> cnt n P <= cnt n Q.
Proof.
  unfold cnt. intros Heq.
  assert (forall j, (j <= Z.to_nat n)%nat -> cnt_nat j P <= cnt_nat j Q) as H; [|by apply H].
  induction j as [|j IH]; intros Hj; [done|]. simpl. specialize (IH ltac:(lia)).
  specialize (Heq (Z.of_nat j) ltac:(lia)).
  destruct (P (Z.of_nat j)), (Q (Z.of_nat j)); simpl; try lia.
Qed.

Lemma cnt_false n P : (forall i, 0 <= i < n -> P i = false) -> cnt n P = 0.
Proof.
  intros HP. rewrite (cnt_ext n P (fun _ => false)) by done. unfold cnt.
  induction (Z.to_nat n) as [|j IH]; simpl; lia.
Qed.

Lemma cnt_pos n P i : 0 <= i < n -> P i = true -> 0 < cnt n P.
Proof.
  intros Hi HP. pose proof (cnt_nonneg n (fun j => P j && negb (j =? i))).
  rewrite (cnt_set n (fun j => P j && negb (j =? i)) P i); [lia|done| |done|].
  - by rewrite Z.eqb_refl, andb_false_r.
  - intros j _ Hj. apply Z.eqb_neq in Hj as ->. by rewrite andb_true_r.
Qed.

(** Fewer than [n] buckets satisfy [P]: one does not. *)
Lemma cnt_lt_exists n P : 0 <= n -> cnt n P < n -> exists i, 0 <= i < n /\ P i = false.
Proof.
  intros Hn. assert (forall m : nat, cnt_nat m P < Z.of_nat m ->
    exists i, 0 <= i < Z.of_nat m /\ P i = false) as H.
  { induction m as [|m IH]; intros Hlt; [simpl in *; lia|].
    cbn [cnt_nat] in Hlt. destruct (P (Z.of_nat m)) eqn:HP.
    - simpl in Hlt. destruct IH as (i & Hi & HPi); [lia|]. exists i. split; [lia|done].
    - exists (Z.of_nat m). split; [lia|done]. }
  unfold cnt. intros Hlt. destruct (H (Z.to_nat n)) as (i & Hi & HPi); [lia|].
  exists i. split; [lia|done].
Qed.

Lemma cnt_omap {A} n (f : Z -> option A) :
  Z.of_nat (length (omap f (seqZ 0 n))) = cnt n (fun i => bool_decide (is_Some (f i))).
Proof.
  unfold cnt, seqZ. assert (forall m, Z.of_nat (length (omap f ((fun i : nat => Z.of_nat i + 0) <$> seq 0 m)))
    = cnt_nat m (fun i => bool_decide (is_Some (f i)))) as H; [|apply H].
  induction m as [|m IH]; [done|]. rewrite seq_S, fmap_app, omap_app, length_app, Nat2Z.inj_add, IH.
  cbn [cnt_nat]. f_equal. simpl. rewrite Z.add_0_r. by destruct (f (Z.of_nat m)).
Qed.

(** The least index that satisfies a decidable predicate. *)
Lemma Z_least (P : Z -> bool) n s :
  0 <= s < n -> P s = true ->
  exists t, 0 <= t <= s /\ P t = true /\ forall u, 0 <= u < t -> P u = false.
Proof.
  intros Hs HP. assert (forall m : nat, (forall u, 0 <= u < Z.of_nat m -> P u = false) \/
    exists t, 0 <= t < Z.of_nat m /\ P t = true /\ forall u, 0 <= u < t -> P u = false) as H.
  { induction m as [|m [IH|(t & Ht & HPt & Hu)]]; [left; lia| |right; exists t; split_and!; try done; lia].
    destruct (P (Z.of_nat m)) eqn:Hm.
    - right. exists (Z.of_nat m). split_and!; try done; lia.
    - left. intros u Hu. destruct (decide (u = Z.of_nat m)) as [->|]; [done|]. apply IH. lia. }
  destruct (H (Z.to_nat (s + 1))) as [Hf|(t & Ht & HPt & Hu)].
  - rewrite Hf in HP by lia. done.
  - exists t. split_and!; try done; lia.
Qed.
