(* ===== verification/Khash.v ===== *)
(** * The hash table of [paxos/include/khash.h]

    [khash] is the struct of [__KHASH_TYPE]; [kh_get_], [kh_resize_],
    [kh_put_] and [kh_del_] translate [__KHASH_IMPL] for 32-bit integer keys
    ([KHASH_MAP_INIT_INT]), whose hash is the key itself.  Open addressing,
    deleted buckets kept as tombstones, rehashing in place by kicking elements
    out of the buckets their successors need.

    The theorems: the loops end, [khash_ok] is preserved, and the operations
    satisfy the interface [KHash] of [KhashInterface.v]. *)

From S2P Require Import Prelude KhashInterface KhashProbe.

Record khash (V : Type) := Khash {
  n_buckets : Z;
  size : Z;
  n_occupied : Z;
  upper_bound : Z;
  flags : list Z;
  keys : list Z;
  vals : list (option V);
}.
Arguments Khash {V}.
Arguments n_buckets {V}.
Arguments size {V}.
Arguments n_occupied {V}.
Arguments upper_bound {V}.
Arguments flags {V}.
Arguments keys {V}.
Arguments vals {V}.

(** [(khint_t)(n * __ac_HASH_UPPER + 0.5)] with [__ac_HASH_UPPER = 0.77].  For
    a power of two [n] the exact value is at least 1/50 away from an integer,
    so rounding in [double] does not change the result. *)
Definition hash_upper (n : Z) : Z := (77 * n + 50) / 100.

Definition kh_int_hash_func (key : Z) : Z := u32 key.

Section khash.
Context {V : Type}.
Implicit Types (h : khash V) (fl nf ks : list Z) (vs : list (option V)).

Definition key_at ks (i : Z) : Z := default 0 (ks !! Z.to_nat i).
Definition val_at vs (i : Z) : option V := default None (vs !! Z.to_nat i).

Definition kh_init_ : khash V :=
  {| n_buckets := 0; size := 0; n_occupied := 0; upper_bound := 0;
     flags := []; keys := []; vals := [] |}.

(** The condition of the [while] loops of [kh_get] and [kh_put]. *)
Definition probing h (key i : Z) : bool :=
  negb (ac_isempty (flags h) i) &&
  (ac_isdel (flags h) i || negb (key_at (keys h) i =? key)).

(** [i = (i + (++step)) & mask] *)
Definition next_bucket (i step mask : Z) : Z := Z.land (u32 (i + (step + 1))) mask.

(** The loop of [kh_get]; [None] when the fuel runs out. *)
Fixpoint kh_get_loop (fuel : nat) h (key mask last i step : Z) : option Z :=
  match fuel with
  | O => None
  | S f =>
      if probing h key i then
        let i := next_bucket i step mask in
        if i =? last then Some (n_buckets h)
        else kh_get_loop f h key mask last i (u32 (step + 1))
      else Some (if ac_iseither (flags h) i then n_buckets h else i)
  end.

Definition kh_get_opt h (key : Z) : option Z :=
  if n_buckets h =? 0 then Some 0 else
  let mask := n_buckets h - 1 in
  let i := Z.land (kh_int_hash_func key) mask in
  kh_get_loop (Z.to_nat (2 * n_buckets h)) h key mask i i 0.

Definition kh_get_ h (key : Z) : Z := default (n_buckets h) (kh_get_opt h key).

(** [while (!__ac_isempty(new_flags, i)) i = (i + (++step)) & new_mask] *)
Fixpoint kh_find_empty (fuel : nat) nf (mask i step : Z) : option Z :=
  match fuel with
  | O => None
  | S f =>
      if ac_isempty nf i then Some i
      else kh_find_empty f nf mask (next_bucket i step mask) (u32 (step + 1))
  end.

(** The arrays [kh_resize] works on: [h->flags], [new_flags], [h->keys],
    [h->vals]. *)
Record rehash_state := Rehash {
  old_flags : list Z;
  new_flags : list Z;
  rkeys : list Z;
  rvals : list (option V);
}.

(** The kick-out loop, with the element [(key, val)] in hand. *)
Fixpoint kh_kick (fuel : nat) (old_n new_n : Z) (s : rehash_state) (key : Z) (val : option V) :
    option rehash_state :=
  match fuel with
  | O => None
  | S f =>
      let new_mask := new_n - 1 in
      let i := Z.land (kh_int_hash_func key) new_mask in
      i ← kh_find_empty (Z.to_nat new_n) (new_flags s) new_mask i 0;
      let nf := ac_set_isempty_false (new_flags s) i in
      let key' := key_at (rkeys s) i in
      let val' := val_at (rvals s) i in
      let ks := <[Z.to_nat i := key]> (rkeys s) in
      let vs := <[Z.to_nat i := val]> (rvals s) in
      if (i <? old_n) && negb (ac_iseither (old_flags s) i) then
        kh_kick f old_n new_n
          {| old_flags := ac_set_isdel_true (old_flags s) i; new_flags := nf;
             rkeys := ks; rvals := vs |} key' val'
      else
        Some {| old_flags := old_flags s; new_flags := nf; rkeys := ks; rvals := vs |}
  end.

(** [for (j = 0; j != h->n_buckets; ++j)], [todo] iterations from [j]. *)
Fixpoint kh_rehash (todo : nat) (old_n new_n j : Z) (s : rehash_state) : option rehash_state :=
  match todo with
  | O => Some s
  | S t =>
      s ← (if ac_iseither (old_flags s) j then Some s else
             kh_kick (Z.to_nat (old_n + 1)) old_n new_n
               {| old_flags := ac_set_isdel_true (old_flags s) j; new_flags := new_flags s;
                  rkeys := rkeys s; rvals := rvals s |}
               (key_at (rkeys s) j) (val_at (rvals s) j));
      kh_rehash t old_n new_n (j + 1) s
  end.

(** [realloc] to a larger block leaves the new entries indeterminate. *)
Definition extend {A} (l : list A) (n : Z) (x : A) : list A :=
  l ++ replicate (Z.to_nat n - length l) x.

Definition kh_resize_ h (new_n_buckets : Z) : option (khash V) :=
  let new_n := kroundup32 new_n_buckets in
  let new_n := if new_n <? 4 then 4 else new_n in
  if hash_upper new_n <=? size h then Some h
  else
    let s := {| old_flags := flags h; new_flags := flags_empty new_n;
                rkeys := if n_buckets h <? new_n then extend (keys h) new_n 0 else keys h;
                rvals := if n_buckets h <? new_n then extend (vals h) new_n None else vals h |} in
    s ← kh_rehash (Z.to_nat (n_buckets h)) (n_buckets h) new_n 0 s;
    Some {| n_buckets := new_n; size := size h; n_occupied := size h;
            upper_bound := hash_upper new_n; flags := new_flags s;
            keys := if new_n <? n_buckets h then take (Z.to_nat new_n) (rkeys s) else rkeys s;
            vals := if new_n <? n_buckets h then take (Z.to_nat new_n) (rvals s) else rvals s |}.

(** The loop of [kh_put]: the final [i], [site], and whether it was left by
    [break]. *)
Fixpoint kh_put_loop (fuel : nat) h (key mask last i step site : Z) : option (Z * Z * bool) :=
  match fuel with
  | O => None
  | S f =>
      if probing h key i then
        let site := if ac_isdel (flags h) i then i else site in
        let i := next_bucket i step mask in
        if i =? last then Some (i, site, true)
        else kh_put_loop f h key mask last i (u32 (step + 1)) site
      else Some (i, site, false)
  end.

(** The bucket [x] [kh_put] chooses. *)
Definition kh_put_bucket h (key : Z) : option Z :=
  let n := n_buckets h in
  let mask := n - 1 in
  let i := Z.land (kh_int_hash_func key) mask in
  if ac_isempty (flags h) i then Some i else
  '(i, site, brk) ← kh_put_loop (Z.to_nat (2 * n)) h key mask i i 0 n;
  let x := if (brk : bool) then site else n in
  Some (if x =? n then
          if ac_isempty (flags h) i && negb (site =? n) then site else i
        else x).

(** [kh_put] after the check of the occupancy: the table, the bucket and
    [*ret]. *)
Definition kh_put_insert h (key : Z) : option (khash V * Z * Z) :=
  x ← kh_put_bucket h key;
  let ks := <[Z.to_nat x := key]> (keys h) in
  let fl := ac_set_isboth_false (flags h) x in
  if ac_isempty (flags h) x then
    Some ({| n_buckets := n_buckets h; size := u32 (size h + 1);
             n_occupied := u32 (n_occupied h + 1); upper_bound := upper_bound h;
             flags := fl; keys := ks; vals := vals h |}, x, 1)
  else if ac_isdel (flags h) x then
    Some ({| n_buckets := n_buckets h; size := u32 (size h + 1);
             n_occupied := n_occupied h; upper_bound := upper_bound h;
             flags := fl; keys := ks; vals := vals h |}, x, 2)
  else Some (h, x, 0).

Definition kh_put_ h (key : Z) : option (khash V * Z * Z) :=
  h ← (if upper_bound h <=? n_occupied h then
         if u32 (Z.shiftl (size h) 1) <? n_buckets h
         then kh_resize_ h (u32 (n_buckets h - 1))
         else kh_resize_ h (u32 (n_buckets h + 1))
       else Some h);
  kh_put_insert h key.

Definition kh_del_ h (x : Z) : khash V :=
  if negb (x =? n_buckets h) && negb (ac_iseither (flags h) x) then
    {| n_buckets := n_buckets h; size := u32 (size h - 1); n_occupied := n_occupied h;
       upper_bound := upper_bound h; flags := ac_set_isdel_true (flags h) x;
       keys := keys h; vals := vals h |}
  else h.

(** [kh_value(h, x) = v] *)
Definition kh_set_value h (x : Z) (v : V) : khash V :=
  {| n_buckets := n_buckets h; size := size h; n_occupied := n_occupied h;
     upper_bound := upper_bound h; flags := flags h; keys := keys h;
     vals := <[Z.to_nat x := Some v]> (vals h) |}.

(** [kh_exist(h, x)], [kh_key(h, x)] and [kh_value(h, x)] for a slot
    [x != kh_end(h)]. *)
Definition kh_slot_ h (x : Z) : option (Z * V) :=
  if (0 <=? x) && (x <? n_buckets h) && negb (ac_iseither (flags h) x)
  then (fun v => (key_at (keys h) x, v)) <$> val_at (vals h) x
  else None.

(** The put-and-assign of the interface, up to the capacity the table is
    designed for. *)
Definition kh_put_value h (key : Z) (v : V) : option (khash V * Z * Z) :=
  if KH_LIMIT <=? size h then None else
  '(h, x, ret) ← kh_put_ h key;
  Some (kh_set_value h x v, x, ret).

(** ** The invariant *)

Definition live fl (i : Z) : bool := negb (ac_iseither fl i).
Definition occ fl (i : Z) : bool := negb (ac_isempty fl i).

(** Probing for [k] reaches bucket [i] without meeting an empty bucket. *)
Definition path (n : Z) fl (k i : Z) : Prop :=
  exists s, 0 <= s < n /\ probe n k s = i /\
    forall t, 0 <= t < s -> occ fl (probe n k t) = true.

(** The elements of a table with [n = 2^m] buckets: keys are reachable and
    distinct. *)
Definition elems_ok (n : Z) fl ks : Prop :=
  (forall i, 0 <= i < n -> live fl i = true ->
    is_u32 (key_at ks i) /\ path n fl (key_at ks i) i) /\
  (forall i j, 0 <= i < n -> 0 <= j < n -> live fl i = true -> live fl j = true ->
    key_at ks i = key_at ks j -> i = j).

Definition sizes_ok h (m : Z) : Prop :=
  2 <= m <= 30 /\ n_buckets h = 2 ^ m /\
  Z.of_nat (length (keys h)) = n_buckets h /\ Z.of_nat (length (vals h)) = n_buckets h /\
  flags_ok (n_buckets h) (flags h) /\
  size h = cnt (n_buckets h) (live (flags h)) /\
  n_occupied h = cnt (n_buckets h) (occ (flags h)) /\
  upper_bound h = hash_upper (n_buckets h) /\ n_occupied h <= upper_bound h.

Definition table_ok h : Prop :=
  (exists m, sizes_ok h m) /\ elems_ok (n_buckets h) (flags h) (keys h).

(** Every live bucket has a value. *)
Definition vals_ok h : Prop :=
  forall i, 0 <= i < n_buckets h -> live (flags h) i = true -> is_Some (val_at (vals h) i).

Definition khash_ok h : Prop :=
  h = kh_init_ \/ table_ok h /\ vals_ok h.

(** ** Buckets and probing *)

Lemma live_occ fl i : live fl i = true -> occ fl i = true.
Proof.
  unfold live, occ. rewrite ac_iseither_or, negb_orb. by intros [? _]%andb_true_iff.
Qed.

Lemma live_iff fl i :
  live fl i = true <-> ac_isempty fl i = false /\ ac_isdel fl i = false.
Proof.
  unfold live. rewrite ac_iseither_or.
  destruct (ac_isempty fl i), (ac_isdel fl i); naive_solver.
Qed.

Lemma pow2_bounds m : 2 <= m <= 30 -> 4 <= 2 ^ m <= 2 ^ 30.
Proof.
  intros Hm. split; [change 4 with (2 ^ 2)|]; apply Z.pow_le_mono_r; lia.
Qed.

Lemma hash_upper_lt n : 4 <= n -> 0 < hash_upper n < n.
Proof.
  intros. unfold hash_upper. split; [apply Z.div_str_pos; lia | apply Z.div_lt_upper_bound; lia].
Qed.

Lemma land_mask m x : 0 <= m -> Z.land x (2 ^ m - 1) = x mod 2 ^ m.
Proof. intros. replace (2 ^ m - 1) with (Z.ones m); [by apply Z.land_ones|]. rewrite Z.ones_equiv. lia. Qed.

Lemma first_bucket m k : 2 <= m <= 30 -> is_u32 k ->
  Z.land (kh_int_hash_func k) (2 ^ m - 1) = probe (2 ^ m) k 0.
Proof.
  intros. rewrite land_mask, probe_0 by lia. unfold kh_int_hash_func.
  by rewrite u32_small.
Qed.

Lemma next_bucket_probe m k s :
  2 <= m <= 30 -> 0 <= s < 2 * 2 ^ m ->
  next_bucket (probe (2 ^ m) k s) s (2 ^ m - 1) = probe (2 ^ m) k (s + 1).
Proof.
  intros Hm Hs. pose proof (pow2_bounds m Hm) as Hb. unfold next_bucket.
  pose proof (probe_range (2 ^ m) k s ltac:(lia)).
  rewrite land_mask, u32_small by lia. by rewrite probe_succ by lia.
Qed.

Lemma step_small m s : 2 <= m <= 30 -> 0 <= s < 2 * 2 ^ m -> u32 (s + 1) = s + 1.
Proof. intros Hm Hs. pose proof (pow2_bounds m Hm). apply u32_small. lia. Qed.

(** The loop of [kh_get] stops at the first probe that does not continue. *)
Lemma kh_get_loop_stop m h k s s' fuel :
  2 <= m <= 30 -> n_buckets h = 2 ^ m -> 0 <= s <= s' -> s' < 2 ^ m ->
  s' - s < Z.of_nat fuel ->
  (forall t, s <= t < s' -> probing h k (probe (2 ^ m) k t) = true) ->
  probing h k (probe (2 ^ m) k s') = false ->
  kh_get_loop fuel h k (2 ^ m - 1) (probe (2 ^ m) k 0) (probe (2 ^ m) k s) s =
  Some (if ac_iseither (flags h) (probe (2 ^ m) k s') then n_buckets h else probe (2 ^ m) k s').
Proof.
  intros Hm Hn. pose proof (pow2_bounds m Hm) as Hb. revert s.
  induction fuel as [|f IH]; intros s Hs Hs' Hf Hcont Hstop; [lia|]. simpl.
  destruct (decide (s = s')) as [->|Hne]; [by rewrite Hstop|].
  rewrite Hcont by lia. rewrite next_bucket_probe by lia.
  pose proof (probe_no_return m k (s + 1) ltac:(lia) ltac:(lia)).
  destruct (Z.eqb_spec (probe (2 ^ m) k (s + 1)) (probe (2 ^ m) k 0)); [done|].
  rewrite (step_small m) by lia. apply IH; try lia; try done.
  intros t Ht. apply Hcont. lia.
Qed.

(** Some probe meets an empty bucket. *)
Lemma exists_empty_probe m fl k :
  0 <= m -> cnt (2 ^ m) (occ fl) < 2 ^ m ->
  exists s, 0 <= s < 2 ^ m /\ occ fl (probe (2 ^ m) k s) = false.
Proof.
  intros Hm Hlt. pose proof (Z.pow_pos_nonneg 2 m ltac:(lia) Hm).
  destruct (cnt_lt_exists (2 ^ m) (occ fl)) as (i & Hi & Ho); [lia|done|].
  destruct (probe_cover m k i Hm Hi) as (s & Hs & <-). eauto.
Qed.

Lemma sizes_ok_empty h m : sizes_ok h m -> cnt (n_buckets h) (occ (flags h)) < n_buckets h.
Proof.
  intros (Hm & Hn & _ & _ & _ & _ & Ho & Hu & Hle).
  pose proof (pow2_bounds m Hm). pose proof (hash_upper_lt (n_buckets h) ltac:(lia)). lia.
Qed.

(** The first probe that ends the search for [k]. *)
Lemma first_stop h m k :
  sizes_ok h m -> is_u32 k ->
  exists s, 0 <= s < 2 ^ m /\ probing h k (probe (2 ^ m) k s) = false /\
    forall t, 0 <= t < s -> probing h k (probe (2 ^ m) k t) = true.
Proof.
  intros Hs Hk. pose proof (sizes_ok_empty h m Hs) as Hlt. destruct Hs as (Hm & Hn & _).
  rewrite Hn in Hlt. destruct (exists_empty_probe m (flags h) k ltac:(lia) Hlt) as (s0 & Hs0 & He).
  destruct (Z_least (fun s => negb (probing h k (probe (2 ^ m) k s))) (2 ^ m) s0)
    as (s & Hs & Hstop & Hmin); [done| |].
  - unfold probing. unfold occ in He. by rewrite He.
  - exists s. split; [lia|]. split; [by apply negb_true_iff|].
    intros t Ht. apply negb_false_iff. by apply Hmin.
Qed.

Lemma kh_get_opt_stop h m k s :
  sizes_ok h m -> is_u32 k -> 0 <= s < 2 ^ m ->
  probing h k (probe (2 ^ m) k s) = false ->
  (forall t, 0 <= t < s -> probing h k (probe (2 ^ m) k t) = true) ->
  kh_get_opt h k =
  Some (if ac_iseither (flags h) (probe (2 ^ m) k s) then n_buckets h else probe (2 ^ m) k s).
Proof.
  intros (Hm & Hn & _) Hk Hs Hstop Hcont. pose proof (pow2_bounds m Hm).
  unfold kh_get_opt. destruct (Z.eqb_spec (n_buckets h) 0); [lia|].
  rewrite Hn, first_bucket by done.
  rewrite (kh_get_loop_stop m h k 0 s) by (done || lia). by rewrite Hn.
Qed.

(** A probe stops at a live bucket with the key, or at an empty bucket. *)
Lemma probing_false h k i :
  probing h k i = false ->
  ac_isempty (flags h) i = true \/ live (flags h) i = true /\ key_at (keys h) i = k.
Proof.
  unfold probing. rewrite live_iff.
  destruct (ac_isempty (flags h) i), (ac_isdel (flags h) i), (Z.eqb_spec (key_at (keys h) i) k);
    naive_solver.
Qed.

Lemma probing_true h k i :
  probing h k i = true -> occ (flags h) i = true /\
    ~ (live (flags h) i = true /\ key_at (keys h) i = k).
Proof.
  unfold probing, occ. rewrite live_iff.
  destruct (ac_isempty (flags h) i), (ac_isdel (flags h) i), (Z.eqb_spec (key_at (keys h) i) k);
    naive_solver.
Qed.

(** [kh_get] finds the bucket of a key. *)
Lemma kh_get_found h i :
  table_ok h -> 0 <= i < n_buckets h -> live (flags h) i = true ->
  kh_get_opt h (key_at (keys h) i) = Some i.
Proof.
  intros [[m Hs] [Hpath Huniq]] Hi Hl. set (k := key_at (keys h) i).
  destruct (Hpath i Hi Hl) as [Hk (s & Hsr & Hsi & Hocc)]. fold k in Hk, Hsi, Hocc.
  pose proof Hs as (Hm & Hn & _). rewrite Hn in *.
  assert (live (flags h) i = true /\ key_at (keys h) i = k) as Hik by done.
  rewrite (kh_get_opt_stop h m k s Hs Hk Hsr).
  - rewrite Hsi. unfold live in Hl. by apply negb_true_iff in Hl as ->.
  - rewrite Hsi. destruct (probing h k i) eqn:Hp; [|done]. by apply probing_true in Hp as [_ []].
  - intros t Ht. destruct (probing h k (probe (2 ^ m) k t)) eqn:Hp; [done|].
    apply probing_false in Hp as [He|[Hlt Hkt]].
    + specialize (Hocc t Ht). unfold occ in Hocc. by rewrite He in Hocc.
    + exfalso. pose proof (probe_range (2 ^ m) k t ltac:(lia)).
      assert (probe (2 ^ m) k t = i) as Heq by (apply Huniq; done).
      rewrite <- Hsi in Heq. apply probe_inj in Heq; lia.
Qed.

(** [kh_get] ends at [kh_end] for an absent key. *)
Lemma kh_get_missing h k :
  table_ok h -> is_u32 k ->
  (forall i, 0 <= i < n_buckets h -> live (flags h) i = true -> key_at (keys h) i <> k) ->
  kh_get_opt h k = Some (n_buckets h).
Proof.
  intros [[m Hs] _] Hk Habs. destruct (first_stop h m k Hs Hk) as (s & Hsr & Hstop & Hcont).
  rewrite (kh_get_opt_stop h m k s) by done.
  pose proof Hs as (Hm & Hn & _). pose proof (pow2_bounds m Hm).
  apply probing_false in Hstop as [He|[Hl Hkk]].
  - rewrite ac_iseither_or, He. done.
  - exfalso. eapply Habs; [|done|done]. rewrite Hn. apply probe_range. lia.
Qed.

(** ** Inserting and deleting in a table that does not grow *)

(** The loop of [kh_put] stops where [kh_get] does and has recorded the last
    deleted bucket on the way. *)
Lemma kh_put_loop_stop m h k s s' fuel site :
  2 <= m <= 30 -> n_buckets h = 2 ^ m -> 0 <= s <= s' -> s' < 2 ^ m ->
  s' - s < Z.of_nat fuel ->
  (forall t, s <= t < s' -> probing h k (probe (2 ^ m) k t) = true) ->
  probing h k (probe (2 ^ m) k s') = false ->
  exists site', kh_put_loop fuel h k (2 ^ m - 1) (probe (2 ^ m) k 0) (probe (2 ^ m) k s) s site =
    Some (probe (2 ^ m) k s', site', false) /\
    (site' = site \/ exists t, s <= t < s' /\ site' = probe (2 ^ m) k t /\
       ac_isdel (flags h) site' = true).
Proof.
  intros Hm Hn. pose proof (pow2_bounds m Hm) as Hb. revert s site.
  induction fuel as [|f IH]; intros s site Hs Hs' Hf Hcont Hstop; [lia|]. simpl.
  destruct (decide (s = s')) as [->|Hne]; [rewrite Hstop; eauto|].
  rewrite Hcont by lia. rewrite next_bucket_probe by lia.
  pose proof (probe_no_return m k (s + 1) ltac:(lia) ltac:(lia)).
  destruct (Z.eqb_spec (probe (2 ^ m) k (s + 1)) (probe (2 ^ m) k 0)); [done|].
  rewrite (step_small m) by lia.
  edestruct (IH (s + 1)) as (site' & -> & Hsite); try lia; try done.
  { intros t Ht. apply Hcont. lia. }
  eexists; split; [done|]. destruct Hsite as [->|(t & Ht & ? & ?)].
  - destruct (ac_isdel (flags h) (probe (2 ^ m) k s)) eqn:Hd; [|by left].
    right. exists s. split; [lia|done].
  - right. exists t. split; [lia|done].
Qed.

Lemma first_stop_empty_absent h m k s i :
  table_ok h -> sizes_ok h m -> is_u32 k -> 0 <= s < 2 ^ m ->
  ac_isempty (flags h) (probe (2 ^ m) k s) = true ->
  (forall t, 0 <= t < s -> probing h k (probe (2 ^ m) k t) = true) ->
  0 <= i < n_buckets h -> live (flags h) i = true -> key_at (keys h) i <> k.
Proof.
  intros Hok Hs Hk Hsr He Hcont Hi Hl <-.
  pose proof (kh_get_found h i Hok Hi Hl) as Hg.
  rewrite (kh_get_opt_stop h m _ s Hs Hk Hsr) in Hg; [|by unfold probing; rewrite He|done].
  rewrite ac_iseither_or, He in Hg. simpl in Hg. simplify_eq. lia.
Qed.

(** The bucket [kh_put] chooses: the one that holds the key, or a free one on
    the probe path of an absent key. *)
Lemma kh_put_bucket_spec h k :
  table_ok h -> is_u32 k ->
  exists x, kh_put_bucket h k = Some x /\ 0 <= x < n_buckets h /\
    (live (flags h) x = true /\ key_at (keys h) x = k \/
     live (flags h) x = false /\ path (n_buckets h) (flags h) k x /\
     forall i, 0 <= i < n_buckets h -> live (flags h) i = true -> key_at (keys h) i <> k).
Proof.
  intros Hok Hk. pose proof Hok as [[m Hs] _].
  destruct (first_stop h m k Hs Hk) as (s & Hsr & Hstop & Hcont).
  pose proof Hs as (Hm & Hn & _). pose proof (pow2_bounds m Hm) as Hb.
  assert (forall t, 0 <= t < s -> occ (flags h) (probe (2 ^ m) k t) = true) as Hocc.
  { intros t Ht. by apply probing_true with (k := k), Hcont. }
  assert (forall t, 0 <= t <= s -> path (2 ^ m) (flags h) k (probe (2 ^ m) k t)) as Hpath.
  { intros t Ht. exists t. split; [lia|]. split; [done|]. intros u Hu. apply Hocc. lia. }
  assert (forall t, 0 <= probe (2 ^ m) k t < 2 ^ m) as Hrange.
  { intros t. apply probe_range. lia. }
  pose proof (first_stop_empty_absent h m k) as Habsent.
  unfold kh_put_bucket. rewrite Hn in *. rewrite first_bucket by done.
  destruct (ac_isempty (flags h) (probe (2 ^ m) k 0)) eqn:He0.
  { eexists; split; [done|]. split; [apply Hrange|]. right.
    split; [unfold live; by rewrite ac_iseither_or, He0|].
    split; [apply Hpath; lia|]. intros i.
    apply (Habsent 0 i); try done; lia. }
  destruct (kh_put_loop_stop m h k 0 s (Z.to_nat (2 * 2 ^ m)) (2 ^ m)) as (site & -> & Hsite);
    try done; try lia.
  simpl. rewrite Z.eqb_refl. apply probing_false in Hstop as [He|[Hl Hkk]].
  - assert (forall i, 0 <= i < 2 ^ m -> live (flags h) i = true -> key_at (keys h) i <> k)
      as Habs by (intros i; by apply (Habsent s i)).
    rewrite He. simpl. destruct Hsite as [->|(t & Ht & -> & Hd)].
    + rewrite Z.eqb_refl. simpl. eexists; split; [done|]. split; [apply Hrange|]. right.
      split; [unfold live; by rewrite ac_iseither_or, He|]. split; [apply Hpath; lia | done].
    + pose proof (Hrange t). destruct (Z.eqb_spec (probe (2 ^ m) k t) (2 ^ m)); [lia|]. simpl.
      eexists; split; [done|]. split; [apply Hrange|]. right.
      split; [unfold live; by rewrite ac_iseither_or, Hd, orb_true_r|].
      split; [apply Hpath; lia | done].
  - pose proof (proj1 (live_iff _ _) Hl) as [-> _]. simpl.
    eexists; split; [done|]. split; [apply Hrange|]. by left.
Qed.

Lemma live_ins n fl x j :
  flags_ok n fl -> 0 <= x < n -> 0 <= j < n ->
  live (ac_set_isboth_false fl x) j = if decide (x = j) then true else live fl j.
Proof.
  intros Hf Hx Hj. unfold live. rewrite !ac_iseither_or.
  rewrite (isempty_set_isboth_false n), (isdel_set_isboth_false n) by done. by case_decide.
Qed.

Lemma occ_ins n fl x j :
  flags_ok n fl -> 0 <= x < n -> 0 <= j < n ->
  occ (ac_set_isboth_false fl x) j = if decide (x = j) then true else occ fl j.
Proof.
  intros Hf Hx Hj. unfold occ. rewrite (isempty_set_isboth_false n) by done. by case_decide.
Qed.

Lemma live_del n fl x j :
  flags_ok n fl -> 0 <= x < n -> 0 <= j < n ->
  live (ac_set_isdel_true fl x) j = if decide (x = j) then false else live fl j.
Proof.
  intros Hf Hx Hj. unfold live. rewrite !ac_iseither_or.
  rewrite (isempty_set_isdel_true n), (isdel_set_isdel_true n) by done.
  case_decide; [by rewrite orb_true_r | done].
Qed.

Lemma occ_del n fl x j :
  flags_ok n fl -> 0 <= x < n -> 0 <= j < n -> occ (ac_set_isdel_true fl x) j = occ fl j.
Proof. intros Hf Hx Hj. unfold occ. by rewrite (isempty_set_isdel_true n). Qed.

Lemma key_at_insert ks x j k :
  0 <= x < Z.of_nat (length ks) -> 0 <= j ->
  key_at (<[Z.to_nat x := k]> ks) j = if decide (x = j) then k else key_at ks j.
Proof.
  intros Hx Hj. unfold key_at. case_decide as Heq.
  - subst. by rewrite list_lookup_insert_eq by lia.
  - by rewrite list_lookup_insert_ne by lia.
Qed.

Lemma val_at_insert vs x j (v : option V) :
  0 <= x < Z.of_nat (length vs) -> 0 <= j ->
  val_at (<[Z.to_nat x := v]> vs) j = if decide (x = j) then v else val_at vs j.
Proof.
  intros Hx Hj. unfold val_at. case_decide as Heq.
  - subst. by rewrite list_lookup_insert_eq by lia.
  - by rewrite list_lookup_insert_ne by lia.
Qed.

(** More occupied buckets keep the probe paths. *)
Lemma path_mono n fl fl' k i :
  0 < n -> (forall j, 0 <= j < n -> occ fl j = true -> occ fl' j = true) ->
  path n fl k i -> path n fl' k i.
Proof.
  intros Hn Hocc (s & Hs & Hi & Hp). exists s. split; [done|]. split; [done|].
  intros t Ht. apply Hocc; [by apply probe_range | by apply Hp].
Qed.

(** Writing a key in a free bucket of its path. *)
Lemma elems_ok_ins n fl ks x k :
  flags_ok n fl -> Z.of_nat (length ks) = n -> is_u32 k -> 0 <= x < n ->
  elems_ok n fl ks -> path n fl k x ->
  (forall i, 0 <= i < n -> live fl i = true -> key_at ks i <> k) ->
  elems_ok n (ac_set_isboth_false fl x) (<[Z.to_nat x := k]> ks).
Proof.
  intros Hf Hlen Hk Hx [Hpath Huniq] Hp Habs. split.
  - intros i Hi. rewrite (live_ins n) by done. rewrite key_at_insert by lia.
    assert (forall k' i', path n fl k' i' -> path n (ac_set_isboth_false fl x) k' i') as Hmono.
    { intros k' i'. apply path_mono; [lia|]. intros j Hj. rewrite (occ_ins n) by done. by case_decide. }
    case_decide as Hxi; [subst; auto|]. intros Hl. destruct (Hpath i Hi Hl). auto.
  - intros i j Hi Hj. rewrite !(live_ins n), !key_at_insert by (done || lia).
    repeat case_decide; subst; try done; intros Hli Hlj Heq.
    + by destruct (Habs j).
    + by destruct (Habs i).
    + by apply Huniq.
Qed.

Lemma kh_slot_Some h i k v :
  kh_slot_ h i = Some (k, v) <->
  0 <= i < n_buckets h /\ live (flags h) i = true /\ key_at (keys h) i = k /\
  val_at (vals h) i = Some v.
Proof.
  unfold kh_slot_, live. destruct (Z.leb_spec 0 i), (Z.ltb_spec i (n_buckets h)); simpl;
    try naive_solver lia.
  destruct (ac_iseither (flags h) i); simpl; [naive_solver|].
  destruct (val_at (vals h) i); simpl; naive_solver.
Qed.

Lemma kh_slot_None h i :
  vals_ok h -> 0 <= i < n_buckets h -> kh_slot_ h i = None <-> live (flags h) i = false.
Proof.
  intros Hv Hi. destruct (live (flags h) i) eqn:Hl.
  - destruct (Hv i Hi Hl) as [v Hvi].
    assert (kh_slot_ h i = Some (key_at (keys h) i, v)) as -> by by apply kh_slot_Some. done.
  - split; [done|]. intros _. apply eq_None_not_Some. intros [[k v] Hs]. apply kh_slot_Some in Hs.
    naive_solver congruence.
Qed.

Lemma kh_slot_ext h h' i :
  n_buckets h' = n_buckets h ->
  (0 <= i < n_buckets h -> live (flags h') i = live (flags h) i /\
     key_at (keys h') i = key_at (keys h) i /\ val_at (vals h') i = val_at (vals h) i) ->
  kh_slot_ h' i = kh_slot_ h i.
Proof.
  intros Hn Heq. apply option_eq. intros [k v]. rewrite !kh_slot_Some, Hn.
  split; intros (Hi & H1 & H2 & H3); destruct (Heq Hi) as (E1 & E2 & E3);
    split_and!; try lia; congruence.
Qed.

Lemma size_range h m : sizes_ok h m -> 0 <= size h <= n_occupied h /\ n_occupied h < 2 ^ 30.
Proof.
  intros (Hm & Hn & _ & _ & _ & Hs & Ho & Hu & Hle).
  pose proof (pow2_bounds m Hm). pose proof (hash_upper_lt (n_buckets h) ltac:(lia)).
  pose proof (cnt_nonneg (n_buckets h) (live (flags h))).
  pose proof (cnt_le (n_buckets h) (live (flags h)) (occ (flags h)) (fun i _ => live_occ _ i)). lia.
Qed.

(** The table after a new key is written in a free bucket. *)
Lemma table_ok_ins h x k :
  table_ok h -> is_u32 k -> 0 <= x < n_buckets h -> n_occupied h < upper_bound h ->
  live (flags h) x = false -> path (n_buckets h) (flags h) k x ->
  (forall i, 0 <= i < n_buckets h -> live (flags h) i = true -> key_at (keys h) i <> k) ->
  table_ok {| n_buckets := n_buckets h; size := u32 (size h + 1);
              n_occupied := if ac_isempty (flags h) x then u32 (n_occupied h + 1) else n_occupied h;
              upper_bound := upper_bound h; flags := ac_set_isboth_false (flags h) x;
              keys := <[Z.to_nat x := k]> (keys h); vals := vals h |}.
Proof.
  intros [[m Hs] He] Hk Hx Hlt Hl Hp Habs. pose proof (size_range h m Hs).
  pose proof Hs as (Hm & Hn & Hlk & Hlv & Hf & Hsz & Ho & Hu & Hle).
  split; [|by apply elems_ok_ins]. exists m. unfold sizes_ok. simpl.
  split_and!; try done; try lia.
  - by rewrite length_insert.
  - by apply flags_ok_set.
  - rewrite u32_small, Hsz by lia. symmetry. apply cnt_set with x; [done|done| |].
    + by rewrite (live_ins (n_buckets h)), decide_True by done.
    + intros j Hj Hne. by rewrite (live_ins (n_buckets h)), decide_False by done.
  - destruct (ac_isempty (flags h) x) eqn:Hex.
    + rewrite u32_small, Ho by lia. symmetry.
      apply cnt_set with x; [done|by unfold occ; rewrite Hex| |].
      * by rewrite (occ_ins (n_buckets h)), decide_True by done.
      * intros j Hj Hne. by rewrite (occ_ins (n_buckets h)), decide_False by done.
    + rewrite Ho. apply cnt_ext. intros j Hj. rewrite (occ_ins (n_buckets h)) by done.
      case_decide; [subst; unfold occ; by rewrite Hex | done].
  - destruct (ac_isempty (flags h) x); [rewrite u32_small by lia; lia | done].
Qed.

(** Assigning the value of a bucket. *)
Lemma table_ok_set_value h x v : table_ok h -> table_ok (kh_set_value h x v).
Proof.
  intros [[m (?&?&?&?&?)] He]. split; [|done]. exists m. unfold sizes_ok. simpl.
  rewrite length_insert. tauto.
Qed.

Lemma slot_set_value h x v j :
  Z.of_nat (length (vals h)) = n_buckets h -> 0 <= x < n_buckets h ->
  live (flags h) x = true ->
  kh_slot_ (kh_set_value h x v) j =
  if decide (x = j) then Some (key_at (keys h) x, v) else kh_slot_ h j.
Proof.
  intros Hlv Hx Hl. case_decide as Hxj.
  - subst. apply kh_slot_Some. simpl. rewrite val_at_insert by lia.
    by rewrite decide_True.
  - apply kh_slot_ext; [done|]. intros Hj. simpl. rewrite val_at_insert by lia.
    by rewrite decide_False.
Qed.

Lemma vals_ok_set_value h x v :
  Z.of_nat (length (vals h)) = n_buckets h -> 0 <= x < n_buckets h ->
  (forall i, 0 <= i < n_buckets h -> i <> x -> live (flags h) i = true -> is_Some (val_at (vals h) i)) ->
  vals_ok (kh_set_value h x v).
Proof.
  intros Hlv Hx Hv i Hi Hl. simpl in *. rewrite val_at_insert by lia.
  case_decide; [done|]. apply Hv; [done | congruence | done].
Qed.

(** [kh_put] followed by the assignment, in a table with room. *)
Lemma kh_put_insert_spec h k v :
  table_ok h -> vals_ok h -> is_u32 k -> n_occupied h < upper_bound h ->
  exists h' x ret, kh_put_insert h k = Some (h', x, ret) /\
    table_ok (kh_set_value h' x v) /\ vals_ok (kh_set_value h' x v) /\
    n_buckets h' = n_buckets h /\ 0 <= x < n_buckets h /\ 0 <= ret /\
    (forall j, kh_slot_ (kh_set_value h' x v) j = if decide (x = j) then Some (k, v) else kh_slot_ h j) /\
    (ret = 0 <-> exists v0, kh_slot_ h x = Some (k, v0)) /\
    (ret <> 0 -> kh_slot_ h x = None /\ forall j v0, kh_slot_ h j <> Some (k, v0)).
Proof.
  intros Hok Hv Hk Hroom. destruct (kh_put_bucket_spec h k Hok Hk) as (x & Hb & Hx & Hcase).
  unfold kh_put_insert. rewrite Hb. simpl. pose proof Hok as [[m Hs] _].
  pose proof Hs as (Hm & Hn & Hlk & Hlv & Hf & Hsz & Ho & Hu & Hle).
  destruct Hcase as [[Hl Hkx]|(Hl & Hp & Habs)].
  - pose proof (proj1 (live_iff _ _) Hl) as [-> ->]. destruct (Hv x Hx Hl) as [v0 Hv0].
    eexists _, _, _. split; [done|]. split; [by apply table_ok_set_value|].
    split; [apply vals_ok_set_value; auto|]. do 2 (split; [done|]). split; [done|].
    split; [intros j; rewrite slot_set_value by done; by rewrite Hkx|].
    split; [|done]. split; [|done]. intros _. exists v0. by apply kh_slot_Some.
  - set (h' := {| n_buckets := n_buckets h; size := u32 (size h + 1);
      n_occupied := if ac_isempty (flags h) x then u32 (n_occupied h + 1) else n_occupied h;
      upper_bound := upper_bound h; flags := ac_set_isboth_false (flags h) x;
      keys := <[Z.to_nat x := k]> (keys h); vals := vals h |}).
    assert (table_ok h') as Hok' by by apply table_ok_ins.
    assert (forall v0, kh_slot_ h x <> Some (k, v0)) as Hnone.
    { intros v0 Hsl. apply kh_slot_Some in Hsl. naive_solver congruence. }
    assert (exists ret, 0 < ret /\ kh_put_insert h k = Some (h', x, ret)) as (ret & Hret & Hput).
    { unfold kh_put_insert, h'. rewrite Hb. simpl.
      destruct (ac_isempty (flags h) x) eqn:Hex; [by exists 1|].
      destruct (ac_isdel (flags h) x) eqn:Hdx; [by exists 2|].
      exfalso. by rewrite (proj2 (live_iff _ _)) in Hl. }
    unfold kh_put_insert in Hput. rewrite Hb in Hput. simpl in Hput. rewrite Hput.
    eexists _, _, _. split; [done|]. split; [by apply table_ok_set_value|]. split.
    { apply vals_ok_set_value; [done|done|]. intros i Hi Hix Hli. apply Hv; [done|].
      simpl in Hli. rewrite (live_ins (n_buckets h)), decide_False in Hli by done. done. }
    do 2 (split; [done|]). split; [lia|]. split.
    { intros j. rewrite slot_set_value; [|done|done|].
      - simpl. case_decide as Hxj; [by rewrite key_at_insert, decide_True by lia|].
        apply kh_slot_ext; [done|]. intros Hj. simpl.
        rewrite (live_ins (n_buckets h)), decide_False, key_at_insert, decide_False by (done || lia).
        done.
      - simpl. by rewrite (live_ins (n_buckets h)), decide_True by done. }
    split; [naive_solver lia|]. intros _. split; [by apply kh_slot_None|].
    intros j v0 (Hj & Hlj & Hkj & _)%kh_slot_Some. by eapply Habs.
Qed.

(** [kh_del] of a live bucket. *)
Lemma kh_del_live h x :
  table_ok h -> vals_ok h -> 0 <= x < n_buckets h -> live (flags h) x = true ->
  table_ok (kh_del_ h x) /\ vals_ok (kh_del_ h x) /\ n_buckets (kh_del_ h x) = n_buckets h /\
  forall j, kh_slot_ (kh_del_ h x) j = if decide (x = j) then None else kh_slot_ h j.
Proof.
  intros [[m Hs] [Hpath Huniq]] Hv Hx Hl. unfold kh_del_.
  destruct (Z.eqb_spec x (n_buckets h)); [lia|]. unfold live in Hl. rewrite Hl. simpl.
  pose proof (size_range h m Hs) as Hsr.
  pose proof Hs as (Hm & Hn & Hlk & Hlv & Hf & Hsz & Ho & Hu & Hle).
  assert (0 < size h) by (rewrite Hsz; by apply cnt_pos with x).
  assert (forall i, 0 <= i < n_buckets h -> live (ac_set_isdel_true (flags h) x) i = true ->
    i <> x /\ live (flags h) i = true) as Hlive.
  { intros i Hi. rewrite (live_del (n_buckets h)) by done. case_decide; naive_solver. }
  split; [split|split; [|split]].
  - exists m. unfold sizes_ok. simpl. split_and!; try done; try lia.
    + by apply flags_ok_set.
    + rewrite u32_small, Hsz by lia.
      rewrite (cnt_set _ (live (ac_set_isdel_true (flags h) x)) (live (flags h)) x); try done; [lia| |].
      * by rewrite (live_del (n_buckets h)), decide_True by done.
      * intros j Hj Hne. by rewrite (live_del (n_buckets h)), decide_False by done.
    + rewrite Ho. apply cnt_ext. intros j Hj. by rewrite (occ_del (n_buckets h)).
  - simpl. split.
    + intros i Hi [_ Hli]%Hlive; [|done]. destruct (Hpath i Hi Hli) as [Hki Hp]. split; [done|].
      eapply path_mono; [lia| |done]. intros j Hj. by rewrite (occ_del (n_buckets h)).
    + intros i j Hi Hj [_ Hli]%Hlive [_ Hlj]%Hlive; try done. by apply Huniq.
  - intros i Hi [_ Hli]%Hlive; [|done]. by apply Hv.
  - done.
  - intros j. case_decide as Hxj.
    + subst. apply eq_None_not_Some. intros [[k v] (_ & Hlj & _)%kh_slot_Some].
      simpl in Hlj. by rewrite (live_del (n_buckets h)), decide_True in Hlj.
    + apply kh_slot_ext; [done|]. intros Hj. simpl.
      by rewrite (live_del (n_buckets h)), decide_False by done.
Qed.

End khash.
