(* ===== verification/KhashResize.v ===== *)
(** * Rehashing in place ([kh_resize] of [khash.h])

    [kh_resize] moves every element to the bucket the new size asks for, in
    the same arrays: the element in hand is written to its new bucket, and an
    old element found there is taken in hand next.  [rehash_ok] is the
    invariant of the two nested loops; the result is that the loops end and
    the new table is well formed and holds exactly the old elements. *)

From S2P Require Import Prelude KhashInterface KhashProbe Khash.

Section rehash.
Context {V : Type}.
(** Old and new number of buckets, length of the arrays, number of elements,
    and the elements. *)
Context (N M m L sz : Z) (E : Z -> V -> Prop).
Context (Hm : 2 <= m <= 30) (HM : M = 2 ^ m) (HN : 0 <= N) (HNL : N <= L) (HML : M <= L).
Context (Hsz : sz < hash_upper M).
Implicit Types (s : @rehash_state V).

(** Bucket [i] holds an element that has not moved yet or one that has. *)
Definition inuse s (i : Z) : Prop :=
  0 <= i < N /\ live (old_flags s) i = true \/ 0 <= i < M /\ occ (new_flags s) i = true.

Record rehash_ok s (hand : option (Z * V)) : Prop := {
  r_keys : Z.of_nat (length (rkeys s)) = L;
  r_vals : Z.of_nat (length (rvals s)) = L;
  r_old : flags_ok N (old_flags s);
  r_new : flags_ok M (new_flags s);
  r_nodel : forall i, 0 <= i < M -> ac_isdel (new_flags s) i = false;
  r_disj : forall i, 0 <= i < N -> 0 <= i < M ->
    live (old_flags s) i = true -> occ (new_flags s) i = false;
  r_elems : forall k v, E k v <->
    (exists i, inuse s i /\ key_at (rkeys s) i = k /\ val_at (rvals s) i = Some v) \/
    hand = Some (k, v);
  r_some : forall i, inuse s i -> is_Some (val_at (rvals s) i);
  r_u32 : forall i, inuse s i -> is_u32 (key_at (rkeys s) i);
  r_inj : forall i j, inuse s i -> inuse s j ->
    key_at (rkeys s) i = key_at (rkeys s) j -> i = j;
  r_hand : forall k v, hand = Some (k, v) ->
    is_u32 k /\ forall i, inuse s i -> key_at (rkeys s) i <> k;
  r_path : forall i, 0 <= i < M -> occ (new_flags s) i = true ->
    path M (new_flags s) (key_at (rkeys s) i) i;
  r_cnt : cnt N (live (old_flags s)) + cnt M (occ (new_flags s)) +
    (if hand then 1 else 0) = sz;
}.

Lemma M_bounds : 4 <= M <= 2 ^ 30.
Proof. rewrite HM. by apply pow2_bounds. Qed.

Lemma inuse_range s i : inuse s i -> 0 <= i < L.
Proof. unfold inuse. lia. Qed.

Lemma occ_set_empty_false fl i j :
  flags_ok M fl -> 0 <= i < M -> 0 <= j < M ->
  occ (ac_set_isempty_false fl i) j = if decide (i = j) then true else occ fl j.
Proof.
  intros Hf Hi Hj. unfold occ. rewrite (isempty_set_isempty_false M) by done. by case_decide.
Qed.

(** The inner search ends at the first empty bucket of the probe sequence. *)
Lemma kh_find_empty_stop nf k a b fuel :
  0 <= a <= b -> b < M -> b - a < Z.of_nat fuel ->
  (forall t, a <= t < b -> occ nf (probe M k t) = true) -> occ nf (probe M k b) = false ->
  kh_find_empty fuel nf (M - 1) (probe M k a) a = Some (probe M k b).
Proof.
  pose proof M_bounds. revert a. induction fuel as [|f IH]; intros a Ha Hb Hf Hocc He; [lia|].
  simpl. destruct (decide (a = b)) as [->|Hne].
  - unfold occ in He. by apply negb_false_iff in He as ->.
  - specialize (Hocc a ltac:(lia)) as Hoa. unfold occ in Hoa. apply negb_true_iff in Hoa as ->.
    rewrite HM, next_bucket_probe, (step_small m) by lia. rewrite <- HM.
    apply IH; try lia; try done. intros t Ht. apply Hocc. lia.
Qed.

Lemma kh_find_empty_spec nf k :
  is_u32 k -> cnt M (occ nf) < M ->
  exists b, 0 <= b < M /\
    kh_find_empty (Z.to_nat M) nf (M - 1) (Z.land (kh_int_hash_func k) (M - 1)) 0 =
      Some (probe M k b) /\
    occ nf (probe M k b) = false /\ forall t, 0 <= t < b -> occ nf (probe M k t) = true.
Proof.
  intros Hk Hlt. pose proof M_bounds.
  destruct (exists_empty_probe m nf k) as (s0 & Hs0 & He0); [lia|by rewrite <- HM|].
  rewrite <- HM in *.
  destruct (Z_least (fun t => negb (occ nf (probe M k t))) M s0) as (b & Hb & Hob & Hmin);
    [done|by rewrite He0|].
  exists b. apply negb_true_iff in Hob.
  assert (forall t, 0 <= t < b -> occ nf (probe M k t) = true) as Hocc.
  { intros t Ht. apply negb_false_iff. by apply Hmin. }
  split; [lia|]. split; [|done].
  rewrite HM at 2 3. rewrite first_bucket by done. rewrite <- HM.
  apply kh_find_empty_stop; try done; lia.
Qed.

(** Taking the element of old bucket [j] in hand. *)
Lemma rehash_take s j :
  rehash_ok s None -> 0 <= j < N -> live (old_flags s) j = true ->
  exists v, val_at (rvals s) j = Some v /\
    rehash_ok {| old_flags := ac_set_isdel_true (old_flags s) j; new_flags := new_flags s;
                 rkeys := rkeys s; rvals := rvals s |} (Some (key_at (rkeys s) j, v)).
Proof.
  intros [Hlk Hlv Ho Hn Hnd Hd He Hs Hu Hi Hh Hp Hc] Hj Hl.
  assert (inuse s j) as Hju by by left. destruct (Hs j Hju) as [v Hv].
  exists v. split; [done|].
  set (s' := {| old_flags := _; new_flags := _; rkeys := _; rvals := _ |}).
  assert (forall i, inuse s' i <-> inuse s i /\ i <> j) as Huse.
  { intros i. unfold inuse, s'. simpl. split.
    - intros [[Hir Hli]|[Hir Hoi]].
      + rewrite (live_del N) in Hli by done. case_decide; [done|]. split; [by left | done].
      + split; [by right|]. intros ->. by rewrite Hd in Hoi.
    - intros [[[Hir Hli]|?] Hne]; [left|by right].
      split; [done|]. by rewrite (live_del N), decide_False by done. }
  split; simpl; try done.
  - by apply flags_ok_set.
  - intros i Hi1 Hi2 Hli. rewrite (live_del N) in Hli by done. case_decide; [done|]. by apply Hd.
  - intros k v'. rewrite He. split.
    + intros [(i & Hiu & Hk & Hv')|?]; [|done]. destruct (decide (i = j)) as [->|Hne].
      * right. congruence.
      * left. exists i. by rewrite Huse.
    + intros [(i & [Hiu _]%Huse & Hk & Hv')|?]; left; [by exists i|]. exists j. naive_solver.
  - intros i [? _]%Huse. auto.
  - intros i [? _]%Huse. auto.
  - intros a b [? _]%Huse [? _]%Huse. auto.
  - intros k v' ?. simplify_eq. split; [by apply Hu|]. intros i [Hiu Hne]%Huse Heq. by apply Hne, Hi.
  - rewrite (cnt_set N (live (ac_set_isdel_true (old_flags s) j)) (live (old_flags s)) j) in Hc;
      [lia|done| |done|].
    + by rewrite (live_del N), decide_True by done.
    + intros i Hir Hne. by rewrite (live_del N), decide_False by done.
Qed.

(** Putting the element in hand in the new bucket [i].  [old'] are the old
    flags without bucket [i], [hand'] the element found there. *)
Lemma rehash_place s k v b old' hand' :
  rehash_ok s (Some (k, v)) -> 0 <= b < M -> let i := probe M k b in
  occ (new_flags s) i = false -> (forall t, 0 <= t < b -> occ (new_flags s) (probe M k t) = true) ->
  flags_ok N old' ->
  (forall j, 0 <= j < N -> live old' j = if decide (i = j) then false else live (old_flags s) j) ->
  inuse s i /\ cnt N (live old') + 1 = cnt N (live (old_flags s)) /\
    (exists v', val_at (rvals s) i = Some v' /\ hand' = Some (key_at (rkeys s) i, v')) \/
  ~ inuse s i /\ cnt N (live old') = cnt N (live (old_flags s)) /\ hand' = None ->
  rehash_ok {| old_flags := old'; new_flags := ac_set_isempty_false (new_flags s) i;
               rkeys := <[Z.to_nat i := k]> (rkeys s);
               rvals := <[Z.to_nat i := Some v]> (rvals s) |} hand'.
Proof.
  intros [Hlk Hlv Ho Hn Hnd Hd He Hs Hu Hi Hh Hp Hc] Hb i Hoi Hpath Hf' Hl' Hcase.
  pose proof M_bounds as HMb. assert (0 <= i < M) as Hir by (apply probe_range; lia).
  destruct (Hh k v eq_refl) as [Hk Hkne].
  set (s' := {| old_flags := _; new_flags := _; rkeys := _; rvals := _ |}).
  assert (forall j, inuse s' j <-> inuse s j \/ j = i) as Huse.
  { intros j. unfold inuse, s'. simpl. split.
    - intros [[Hjr Hlj]|[Hjr Hoj]].
      + rewrite Hl' in Hlj by done. case_decide; [done|]. auto.
      + rewrite occ_set_empty_false in Hoj by done. case_decide; auto.
    - intros [[[Hjr Hlj]|[Hjr Hoj]]| ->].
      + destruct (decide (i = j)) as [<-|Hne].
        * right. split; [done|]. by rewrite occ_set_empty_false, decide_True by done.
        * left. split; [done|]. by rewrite Hl', decide_False by done.
      + right. split; [done|]. rewrite occ_set_empty_false by done. by case_decide.
      + right. split; [done|]. by rewrite occ_set_empty_false, decide_True by done. }
  assert (forall j, inuse s' j -> key_at (rkeys s') j = if decide (i = j) then k else key_at (rkeys s) j) as Hkey.
  { intros j Hj%inuse_range. apply key_at_insert; lia. }
  assert (forall j, inuse s' j -> val_at (rvals s') j = if decide (i = j) then Some v else val_at (rvals s) j) as Hval.
  { intros j Hj%inuse_range. apply val_at_insert; lia. }
  assert (forall j, inuse s' j -> i <> j -> inuse s j) as Hother by (intros j Hj%Huse; naive_solver).
  split; try done.
  - simpl. by rewrite length_insert.
  - simpl. by rewrite length_insert.
  - by apply flags_ok_set.
  - intros j Hj. simpl. rewrite (isdel_set_isempty_false M) by done. by apply Hnd.
  - intros j Hj1 Hj2. simpl. rewrite Hl', occ_set_empty_false by done. case_decide; [done|]. by apply Hd.
  - intros k0 v0. rewrite He. split.
    + intros [(j & Hj & Hkj & Hvj)|Heq]; simplify_eq.
      * destruct (decide (i = j)) as [<-|Hne].
        -- right. destruct Hcase as [(_ & _ & v' & Hv' & ->)|[? _]]; [congruence|done].
        -- left. exists j. assert (inuse s' j) as Hj' by (apply Huse; auto).
           rewrite Hkey, Hval, !decide_False by done. done.
      * left. exists i. assert (inuse s' i) as Hj' by (apply Huse; auto).
        rewrite Hkey, Hval, !decide_True by done. done.
    + intros [(j & Hj & Hkj & Hvj)|Heq].
      * rewrite Hkey in Hkj by done. rewrite Hval in Hvj by done. case_decide; [right; congruence|].
        left. exists j. auto.
      * left. destruct Hcase as [(Hiu & _ & v' & Hv' & Hh')|(_ & _ & Hh')]; [|congruence].
        exists i. split; [done|]. rewrite Hh' in Heq. by simplify_eq.
  - intros j Hj. rewrite Hval by done. case_decide; [done|]. auto.
  - intros j Hj. rewrite Hkey by done. case_decide; [done|]. auto.
  - intros a c Ha Hcu. rewrite !Hkey by done. repeat case_decide; subst; try done; intros Heq.
    + exfalso. by apply (Hkne c); [auto|].
    + exfalso. by apply (Hkne a); [auto|].
    + auto.
  - intros k0 v0 Hh0. destruct Hcase as [(Hiu & _ & v' & Hv' & Hh')|(_ & _ & Hh')]; [|congruence].
    rewrite Hh' in Hh0. simplify_eq. split; [by apply Hu|]. intros j Hj.
    rewrite Hkey by done. case_decide as Hij; [intros Heq; by apply (Hkne i)|].
    intros Heq. apply Hij. symmetry. auto.
  - intros j Hj Hoj. assert (inuse s' j) as Hju by by right.
    rewrite Hkey by done.
    assert (forall k' i', path M (new_flags s) k' i' ->
      path M (ac_set_isempty_false (new_flags s) i) k' i') as Hmono.
    { intros k' i'. apply path_mono; [lia|]. intros j' Hj'. rewrite occ_set_empty_false by done.
      by case_decide. }
    simpl in *. rewrite occ_set_empty_false in Hoj by done. case_decide as Hij.
    + subst j. apply Hmono. exists b. done.
    + apply Hmono. by apply Hp.
  - simpl. rewrite (cnt_set M (occ (new_flags s)) (occ (ac_set_isempty_false (new_flags s) i)) i);
      [|done|done| |].
    + destruct Hcase as [(_ & ? & v' & _ & ->)|(_ & ? & ->)]; lia.
    + by rewrite occ_set_empty_false, decide_True by done.
    + intros j Hj Hne. by rewrite occ_set_empty_false, decide_False by done.
Qed.

(** The kick-out loop ends with every element in a bucket. *)
Lemma kh_kick_spec fuel s k v :
  rehash_ok s (Some (k, v)) -> cnt N (live (old_flags s)) < Z.of_nat fuel ->
  exists s', kh_kick fuel N M s k (Some v) = Some s' /\ rehash_ok s' None /\
    forall j, 0 <= j < N -> live (old_flags s) j = false -> live (old_flags s') j = false.
Proof.
  pose proof M_bounds as HMb. pose proof (hash_upper_lt M ltac:(lia)) as Hup.
  revert s k v. induction fuel as [|f IH]; intros s k v Hok Hf.
  { pose proof (cnt_nonneg N (live (old_flags s))). lia. }
  pose proof (r_cnt _ _ Hok) as Hc. simpl in Hc. pose proof (cnt_nonneg N (live (old_flags s))).
  destruct (r_hand _ _ Hok k v eq_refl) as [Hk _].
  destruct (kh_find_empty_spec (new_flags s) k Hk) as (b & Hb & Hfind & Hoi & Hocc); [lia|].
  pose proof (probe_range M k b ltac:(lia)) as Hir.
  simpl. rewrite Hfind. simpl. set (i := probe M k b) in *.
  destruct ((i <? N) && negb (ac_iseither (old_flags s) i)) eqn:Hkick.
  - apply andb_true_iff in Hkick as [HiN%Z.ltb_lt Hli].
    assert (inuse s i) as Hiu by (left; split; [lia|done]).
    destruct (r_some _ _ Hok i Hiu) as [v' Hv']. rewrite Hv'.
    assert (forall j, 0 <= j < N -> live (ac_set_isdel_true (old_flags s) i) j =
      if decide (i = j) then false else live (old_flags s) j) as Hl'.
    { intros j Hj. apply (live_del N); [apply (r_old _ _ Hok)|lia|done]. }
    assert (cnt N (live (old_flags s)) = cnt N (live (ac_set_isdel_true (old_flags s) i)) + 1) as Hcc.
    { apply cnt_set with i; [lia| |done|].
      - by rewrite Hl', decide_True by lia.
      - intros j Hj Hne. by rewrite Hl', decide_False by done. }
    destruct (IH {| old_flags := ac_set_isdel_true (old_flags s) i;
                    new_flags := ac_set_isempty_false (new_flags s) i;
                    rkeys := <[Z.to_nat i := k]> (rkeys s);
                    rvals := <[Z.to_nat i := Some v]> (rvals s) |} (key_at (rkeys s) i) v')
      as (s' & -> & Hok' & Hlive'); [|simpl; lia|].
    + apply rehash_place; try done; [apply flags_ok_set, (r_old _ _ Hok)|].
      left. split; [done|]. split; [lia|]. by exists v'.
    + exists s'. split; [done|]. split; [done|]. intros j Hj Hlj. apply Hlive'; [done|]. simpl.
      rewrite Hl' by done. by case_decide.
  - eexists; split; [done|]. split; [|done].
    assert (~ (i < N /\ live (old_flags s) i = true)) as Hnl.
    { intros [HiN Hli]. apply Z.ltb_lt in HiN. unfold live in Hli. by rewrite HiN, Hli in Hkick. }
    apply rehash_place; try done; [apply (r_old _ _ Hok)| |].
    + intros j Hj. case_decide; [|done]. subst j. apply not_true_is_false. intros Hli.
      apply Hnl. split; [lia|done].
    + right. split; [|done]. intros [[? ?]|[? Ho]]; [apply Hnl; split; [lia|done]|by unfold i in *; congruence].
Qed.

(** The outer loop. *)
Lemma kh_rehash_spec todo s j :
  rehash_ok s None -> 0 <= j -> j + Z.of_nat todo = N ->
  (forall i, 0 <= i < j -> live (old_flags s) i = false) ->
  exists s', kh_rehash todo N M j s = Some s' /\ rehash_ok s' None /\
    forall i, 0 <= i < N -> live (old_flags s') i = false.
Proof.
  revert s j. induction todo as [|t IH]; intros s j Hok Hj Ht Hdone; simpl.
  { exists s. split; [done|]. split; [done|]. intros i Hi. apply Hdone. lia. }
  destruct (ac_iseither (old_flags s) j) eqn:Hej; simpl.
  - apply IH; try done; try lia. intros i Hi. destruct (decide (i = j)) as [->|]; [|apply Hdone; lia].
    unfold live. by rewrite Hej.
  - assert (live (old_flags s) j = true) as Hlj by (unfold live; by rewrite Hej).
    destruct (rehash_take s j Hok ltac:(lia) Hlj) as (v & Hv & Hok1). rewrite Hv.
    edestruct (kh_kick_spec (Z.to_nat (N + 1)) _ _ _ Hok1) as (s2 & -> & Hok2 & Hlive); simpl.
    { simpl. pose proof (r_cnt _ _ Hok1) as Hc. simpl in Hc.
      assert (cnt N (live (ac_set_isdel_true (old_flags s) j)) <= cnt N (fun _ => true)) as Hle
        by (by apply cnt_le).
      assert (cnt N (fun _ => true) = N) as Hall; [|lia].
      unfold cnt. clear -HN. rewrite <- (Z2Nat.id N) at 2 by done.
      induction (Z.to_nat N) as [|x IHx]; simpl; lia. }
    apply IH; try done; try lia. intros i Hi. apply Hlive; [lia|]. simpl.
    rewrite (live_del N); [|apply (r_old _ _ Hok)|lia|lia].
    case_decide; [done|]. apply Hdone. lia.
Qed.

End rehash.

(** ** [kh_resize] as a whole *)

Section resize.
Context {V : Type}.
Implicit Types (h : khash V).

(** What [kh_resize] needs of the old table; the empty table has it too. *)
Definition resizable h : Prop :=
  0 <= n_buckets h /\ Z.of_nat (length (keys h)) = n_buckets h /\
  Z.of_nat (length (vals h)) = n_buckets h /\ flags_ok (n_buckets h) (flags h) /\
  size h = cnt (n_buckets h) (live (flags h)) /\
  elems_ok (n_buckets h) (flags h) (keys h) /\ vals_ok h.

Lemma khash_ok_resizable h : khash_ok h -> resizable h.
Proof.
  intros [->|[[[m (Hm & Hn & Hlk & Hlv & Hf & Hs & _)] He] Hv]].
  - assert (forall i, 0 <= i < 0 -> False) as Hno by lia.
    unfold resizable, flags_ok, elems_ok, vals_ok.
    split_and!; try done; try (by constructor); intros i *; simpl; intros; exfalso; eauto.
  - pose proof (pow2_bounds m Hm). split_and!; try done. lia.
Qed.

Lemma length_extend {A} (l : list A) n x :
  Z.of_nat (length l) <= n -> Z.of_nat (length (extend l n x)) = n.
Proof. intros Hl. unfold extend. rewrite length_app, length_replicate. lia. Qed.

Lemma lookup_extend {A} (l : list A) n x i :
  0 <= i < Z.of_nat (length l) -> extend l n x !! Z.to_nat i = l !! Z.to_nat i.
Proof. intros Hi. unfold extend. apply lookup_app_l. lia. Qed.

(** The elements of a table. *)
Definition has h (k : Z) (v : V) : Prop := exists j, kh_slot_ h j = Some (k, v).

(** The state in which the loops of [kh_resize] start. *)
Lemma rehash_start h m (M := 2 ^ m) :
  resizable h -> 2 <= m <= 30 -> n_buckets h <= M ->
  rehash_ok (n_buckets h) M M (size h) (has h)
    {| old_flags := flags h; new_flags := flags_empty M;
       rkeys := if n_buckets h <? M then extend (keys h) M 0 else keys h;
       rvals := if n_buckets h <? M then extend (vals h) M None else vals h |} None.
Proof.
  intros (Hn & Hlk & Hlv & Hf & Hs & [Hpath Huniq] & Hv) Hm HnM.
  pose proof (pow2_bounds m Hm) as HMb. fold M in HMb.
  assert (M < 16 \/ M mod 16 = 0) as H16.
  { destruct (decide (m < 4)); [left|right].
    - apply Z.lt_le_trans with (2 ^ 4); [apply Z.pow_lt_mono_r; lia|done].
    - unfold M. replace m with (m - 4 + 4) by lia. rewrite Z.pow_add_r by lia. by apply Z.mod_mul. }
  assert (forall i, 0 <= i < M -> occ (flags_empty M) i = false) as Hocc.
  { intros i Hi. unfold occ. by destruct (flags_empty_bucket M i H16 Hi) as [-> _]. }
  set (s := {| old_flags := _; new_flags := _; rkeys := _; rvals := _ |}).
  assert (forall i, inuse (n_buckets h) M s i <-> 0 <= i < n_buckets h /\ live (flags h) i = true) as Hiu.
  { intros i. unfold inuse, s. simpl. split; [|by left]. intros [?|[Hi Ho]]; [done|].
    by rewrite Hocc in Ho. }
  assert (forall i, 0 <= i < n_buckets h -> key_at (rkeys s) i = key_at (keys h) i) as Hkey.
  { intros i Hi. unfold key_at, s. simpl. destruct (Z.ltb_spec (n_buckets h) M); [|done].
    by rewrite lookup_extend by lia. }
  assert (forall i, 0 <= i < n_buckets h -> val_at (rvals s) i = val_at (vals h) i) as Hval.
  { intros i Hi. unfold val_at, s. simpl. destruct (Z.ltb_spec (n_buckets h) M); [|done].
    by rewrite lookup_extend by lia. }
  split; try done.
  - unfold s. simpl. destruct (Z.ltb_spec (n_buckets h) M); [apply length_extend|]; lia.
  - unfold s. simpl. destruct (Z.ltb_spec (n_buckets h) M); [apply length_extend|]; lia.
  - apply flags_empty_ok; [lia|done].
  - intros i Hi. by destruct (flags_empty_bucket M i H16 Hi).
  - intros i _ Hi _. by apply Hocc.
  - intros k v. unfold has. split.
    + intros [j (Hj & Hl & Hk & Hvj)%kh_slot_Some]. left. exists j.
      rewrite Hiu, Hkey, Hval by done. done.
    + intros [(j & [Hj Hl]%Hiu & Hk & Hvj)|?]; [|done]. exists j. apply kh_slot_Some.
      rewrite Hkey in Hk by done. rewrite Hval in Hvj by done. done.
  - intros i [Hi Hl]%Hiu. rewrite Hval by done. by apply Hv.
  - intros i [Hi Hl]%Hiu. rewrite Hkey by done. by apply Hpath.
  - intros i j [Hi Hl]%Hiu [Hj Hl']%Hiu. rewrite !Hkey by done. by apply Huniq.
  - intros i Hi Ho. exfalso. simpl in Ho. by rewrite Hocc in Ho.
  - simpl. rewrite (cnt_false M) by done. lia.
Qed.

(** The table built from the final state of the loops. *)
Lemma rehash_end h m s (M := 2 ^ m) :
  rehash_ok (n_buckets h) M M (size h) (has h) s None -> 2 <= m <= 30 ->
  size h < hash_upper M -> (forall i, 0 <= i < n_buckets h -> live (old_flags s) i = false) ->
  let h' := {| n_buckets := M; size := size h; n_occupied := size h; upper_bound := hash_upper M;
               flags := new_flags s; keys := rkeys s; vals := rvals s |} in
  table_ok h' /\ vals_ok h' /\ forall k v, has h' k v <-> has h k v.
Proof.
  intros [Hlk Hlv Ho Hn Hnd Hd He Hs Hu Hi Hh Hp Hc] Hm Hup Hdead h'.
  assert (forall i, 0 <= i < M -> live (new_flags s) i = occ (new_flags s) i) as Hlo.
  { intros i Hir. unfold live, occ. by rewrite ac_iseither_or, Hnd, orb_false_r by done. }
  assert (forall i, inuse (n_buckets h) M s i <-> 0 <= i < M /\ live (new_flags s) i = true) as Hiu.
  { intros i. unfold inuse. split.
    - intros [[Hir Hl]|[Hir Hl]]; [by rewrite Hdead in Hl|]. by rewrite Hlo.
    - intros [Hir Hl]. right. by rewrite <- Hlo. }
  rewrite (cnt_false (n_buckets h)) in Hc by done.
  split_and!.
  - split.
    + exists m. unfold sizes_ok. simpl. fold M. rewrite (cnt_ext M (live _) (occ (new_flags s))) by done.
      split_and!; try done; lia.
    + split; simpl.
      * intros i Hir Hl. split; [apply Hu, Hiu; done|]. apply Hp; [done|]. by rewrite <- Hlo.
      * intros i j Hir Hjr Hl Hl'. apply Hi; by apply Hiu.
  - intros i Hir Hl. simpl in *. by apply Hs, Hiu.
  - intros k v. rewrite He. unfold has. split.
    + intros [j (Hj & Hl & Hk & Hvj)%kh_slot_Some]. left. exists j. by rewrite Hiu.
    + intros [(j & Hj%Hiu & Hk & Hvj)|?]; [|done]. exists j. apply kh_slot_Some. simpl. tauto.
Qed.

Lemma kh_resize_spec h x m (M := 2 ^ m) :
  resizable h -> 2 <= m <= 30 -> n_buckets h <= M -> size h < hash_upper M ->
  (if kroundup32 x <? 4 then 4 else kroundup32 x) = M ->
  exists h', kh_resize_ h x = Some h' /\ table_ok h' /\ vals_ok h' /\ n_buckets h' = M /\
    n_occupied h' = size h' /\ size h' = size h /\ forall k v, has h' k v <-> has h k v.
Proof.
  intros Hr Hm HnM Hup Hx. pose proof (rehash_start h m Hr Hm HnM) as Hstart. fold M in Hstart.
  pose proof Hr as (Hn & _). unfold kh_resize_. rewrite Hx.
  destruct (Z.leb_spec (hash_upper M) (size h)); [lia|].
  destruct (kh_rehash_spec (n_buckets h) M m M (size h) (has h) Hm eq_refl Hn HnM ltac:(lia) Hup
    (Z.to_nat (n_buckets h)) _ 0 Hstart) as (s & Hs & Hok & Hdead); [lia|lia|intros; lia|].
  rewrite Hs. simpl. destruct (Z.ltb_spec M (n_buckets h)); [lia|].
  destruct (rehash_end h m s Hok Hm Hup Hdead) as (Ht & Hv & Hhas).
  eexists; split; [done|]. by split_and!.
Qed.

Lemma hash_upper_half n sz : 4 <= n -> 2 * sz < n -> sz < hash_upper n.
Proof. intros. unfold hash_upper. apply Z.le_succ_l, Z.div_le_lower_bound; lia. Qed.

Lemma hash_upper_double n : 4 <= n -> hash_upper n < hash_upper (2 * n).
Proof.
  intros. unfold hash_upper. apply Z.le_succ_l, Z.div_le_lower_bound; [lia|].
  pose proof (Z.mul_div_le (77 * n + 50) 100 ltac:(lia)). lia.
Qed.

(** [kh_put] makes room when the table is full. *)
Lemma kh_put_room h :
  khash_ok h -> size h < KH_LIMIT ->
  exists h', (if upper_bound h <=? n_occupied h then
         if u32 (Z.shiftl (size h) 1) <? n_buckets h
         then kh_resize_ h (u32 (n_buckets h - 1))
         else kh_resize_ h (u32 (n_buckets h + 1))
       else Some h) = Some h' /\ table_ok h' /\ vals_ok h' /\ n_occupied h' < upper_bound h' /\
    forall k v, has h' k v <-> has h k v.
Proof.
  intros Hok Hlim. pose proof (khash_ok_resizable h Hok) as Hr.
  assert (forall x m, 2 <= m <= 30 -> n_buckets h <= 2 ^ m -> size h < hash_upper (2 ^ m) ->
    (if kroundup32 x <? 4 then 4 else kroundup32 x) = 2 ^ m ->
    exists h', kh_resize_ h x = Some h' /\ table_ok h' /\ vals_ok h' /\
      n_occupied h' < upper_bound h' /\ forall k v, has h' k v <-> has h k v) as Hres.
  { intros x m Hm HnM Hup Hx.
    destruct (kh_resize_spec h x m Hr Hm HnM Hup Hx) as (h' & ? & Ht & ? & Hn & Ho & Hs & ?).
    exists h'. split_and!; try done. destruct Ht as [[m' (_ & _ & _ & _ & _ & _ & _ & -> & _)] _].
    rewrite Hn. lia. }
  destruct Hok as [->|[[[m Hs] He] Hv]].
  - simpl. apply (Hres _ 2); [lia|done|done|by vm_compute].
  - pose proof (size_range h m Hs). pose proof Hs as (Hm & Hn & Hlk & Hlv & Hf & Hsz & Ho & Hu & Hle).
    pose proof (pow2_bounds m Hm) as Hb. destruct (kroundup32_values m Hm) as [Hk1 Hk2].
    unfold KH_LIMIT in Hlim. rewrite Z.shiftl_mul_pow2, u32_small by lia.
    destruct (Z.leb_spec (upper_bound h) (n_occupied h)); 
      [|exists h; split; [done|]; split; [by split; [exists m|]|done]].
    destruct (Z.ltb_spec (size h * 2 ^ 1) (n_buckets h)).
    + rewrite u32_small by lia. apply (Hres _ m); [done|lia| |].
      * apply hash_upper_half; lia.
      * rewrite Hn, Hk1. destruct (Z.ltb_spec (2 ^ m) 4); lia.
    + rewrite u32_small by lia. assert (2 ^ (m + 1) = 2 * 2 ^ m) as Hdbl
        by (rewrite Z.pow_add_r by lia; lia).
      assert (m < 30) as Hm30.
      { apply (Z.pow_lt_mono_r_iff 2); lia. }
      apply (Hres _ (m + 1)); [lia|lia| |].
      * rewrite Hdbl. pose proof (hash_upper_double (2 ^ m)). rewrite Hn in *. lia.
      * rewrite Hn, Hk2. destruct (Z.ltb_spec (2 ^ (m + 1)) 4); lia.
Qed.

Lemma kh_put_value_spec h k v :
  khash_ok h -> is_u32 k -> size h < KH_LIMIT ->
  exists h' x rv, kh_put_value h k v = Some (h', x, rv) /\ khash_ok h' /\
    kh_slot_ h' x = Some (k, v) /\ 0 <= rv /\ (rv = 0 <-> exists v0, has h k v0) /\
    forall k' v', k' <> k -> has h' k' v' <-> has h k' v'.
Proof.
  intros Hok Hk Hlim. destruct (kh_put_room h Hok Hlim) as (h1 & Hr & Ht & Hv & Hlt & Hhas).
  destruct (kh_put_insert_spec h1 k v Ht Hv Hk Hlt)
    as (h2 & x & rv & Hins & Ht2 & Hv2 & Hn & Hx & Hrv & Hsl & Hrv0 & Hrvn).
  exists (kh_set_value h2 x v), x, rv. unfold kh_put_value, kh_put_.
  destruct (Z.leb_spec KH_LIMIT (size h)); [lia|]. rewrite Hr. simpl. rewrite Hins. simpl.
  split_and!; try done.
  - by right.
  - by rewrite Hsl, decide_True.
  - split.
    + intros H0. destruct (proj1 Hrv0 H0) as [v0 Hv0]. exists v0. apply Hhas. by exists x.
    + intros [v0 [j Hj]%Hhas]. destruct (decide (rv = 0)) as [|Hne]; [done|]. by destruct (proj2 (Hrvn Hne) j v0).
  - intros k' v' Hne. rewrite <- Hhas. unfold has. split; intros [j Hj].
    + rewrite Hsl in Hj. case_decide; [congruence|]. eauto.
    + destruct (decide (x = j)) as [<-|Hxj]; [|exists j; by rewrite Hsl, decide_False].
      exfalso. destruct (decide (rv = 0)) as [H0|H0].
      * apply Hrv0 in H0 as [v0 Hv0]. congruence.
      * apply Hrvn in H0 as [Hnone _]. congruence.
Qed.
End resize.

(** ** The interface *)

Section interface.
Context {V : Type}.
Implicit Types (h : khash V).

Lemma khash_ok_slot h i kv :
  khash_ok h -> kh_slot_ h i = Some kv -> table_ok h /\ vals_ok h.
Proof. intros [->|?] Hs; [|done]. destruct kv. apply kh_slot_Some in Hs as [? _]. simpl in *. lia. Qed.

Lemma khash_get h i k v :
  khash_ok h -> kh_slot_ h i = Some (k, v) -> is_u32 k /\ kh_get_ h k = i.
Proof.
  intros Hok Hs. destruct (khash_ok_slot _ _ _ Hok Hs) as [Ht Hv].
  apply kh_slot_Some in Hs as (Hi & Hl & <- & _). split; [by apply Ht|].
  unfold kh_get_. by rewrite kh_get_found.
Qed.

Lemma khash_get_absent h k :
  khash_ok h -> is_u32 k -> (forall i v, kh_slot_ h i <> Some (k, v)) -> kh_get_ h k = n_buckets h.
Proof.
  intros [->|[Ht Hv]] Hk Habs; [done|]. unfold kh_get_. rewrite kh_get_missing; try done.
  intros i Hi Hl Heq. destruct (Hv i Hi Hl) as [v Hvi]. apply (Habs i v). by apply kh_slot_Some.
Qed.

Lemma khash_size h :
  khash_ok h -> size h = Z.of_nat (length (omap (kh_slot_ h) (seqZ 0 (n_buckets h)))).
Proof.
  intros [->|[[[m (_ & _ & _ & _ & _ & -> & _)] _] Hv]]; [done|].
  rewrite cnt_omap. apply cnt_ext. intros i Hi.
  destruct (live (flags h) i) eqn:Hl; symmetry.
  - apply bool_decide_eq_true, not_eq_None_Some. rewrite kh_slot_None by done. congruence.
  - apply bool_decide_eq_false, eq_None_not_Some. by apply kh_slot_None.
Qed.

Lemma khash_set h i k v0 v :
  khash_ok h -> kh_slot_ h i = Some (k, v0) ->
  khash_ok (kh_set_value h i v) /\ n_buckets (kh_set_value h i v) = n_buckets h /\
  forall j, kh_slot_ (kh_set_value h i v) j = if decide (i = j) then Some (k, v) else kh_slot_ h j.
Proof.
  intros Hok Hs. destruct (khash_ok_slot _ _ _ Hok Hs) as [Ht Hv].
  apply kh_slot_Some in Hs as (Hi & Hl & <- & _). pose proof Ht as [[m (_ & _ & _ & Hlv & _)] _].
  split; [|split; [done|]].
  - right. split; [by apply table_ok_set_value|]. apply vals_ok_set_value; auto.
  - intros j. by apply slot_set_value.
Qed.

Lemma khash_del h i kv :
  khash_ok h -> kh_slot_ h i = Some kv ->
  khash_ok (kh_del_ h i) /\ n_buckets (kh_del_ h i) = n_buckets h /\
  forall j, kh_slot_ (kh_del_ h i) j = if decide (i = j) then None else kh_slot_ h j.
Proof.
  intros Hok Hs. destruct (khash_ok_slot _ _ _ Hok Hs) as [Ht Hv]. destruct kv as [k v].
  apply kh_slot_Some in Hs as (Hi & Hl & _). destruct (kh_del_live h i Ht Hv Hi Hl) as (? & ? & ? & ?).
  split; [by right|done].
Qed.
End interface.

#[export, refine] Instance khash_KHash : KHash khash := {|
  kh_wf := @khash_ok;
  kh_init := @kh_init_;
  kh_end := @n_buckets;
  kh_size := @size;
  kh_slot := @kh_slot_;
  kh_get := @kh_get_;
  kh_put := @kh_put_value;
  kh_set := @kh_set_value;
  kh_del := @kh_del_;
|}.
Proof.
  - intros V h [->|[[[m (Hm & -> & _)] _] _]]; [done|]. pose proof (pow2_bounds m Hm). lia.
  - intros V h i [k v] _ Hs. apply kh_slot_Some in Hs. lia.
  - intros V h i k v. apply khash_get.
  - intros V h k. apply khash_get_absent.
  - intros V h. apply khash_size.
  - intros V. by left.
  - intros V i. apply eq_None_not_Some. intros [[k v] Hs]. apply kh_slot_Some in Hs. simpl in Hs. lia.
  - intros V h i k v0 v. apply khash_set.
  - intros V h i kv. apply khash_del.
  - intros V h h' k v i rv Hok Hk Hput. destruct (Z_lt_le_dec (size h) KH_LIMIT) as [Hlt|Hge].
    + destruct (kh_put_value_spec h k v Hok Hk Hlt) as (h1 & x & r & Hp & Hok1 & Hs & Hr & Hr0 & Hoth).
      rewrite Hp in Hput. simplify_eq. split_and!; try done. rewrite Hr0. unfold has. naive_solver.
    + unfold kh_put_value in Hput. apply Z.leb_le in Hge. by rewrite Hge in Hput.
  - intros V h k v Hok Hk Hlt. destruct (kh_put_value_spec h k v Hok Hk Hlt) as (h1 & x & r & -> & _).
    by eexists.
Defined.

(** ** Correctness of the table *)

Lemma kh_get_opt_total {V} (h : khash V) k :
  khash_ok h -> is_u32 k -> kh_get_opt h k = Some (kh_get_ h k).
Proof.
  intros Hok Hk. unfold kh_get_. enough (is_Some (kh_get_opt h k)) as [x ->] by done.
  destruct Hok as [->|[Ht Hv]]; [by eexists|].
  pose proof Ht as [[m Hs] _]. destruct (first_stop h m k Hs Hk) as (s & Hsr & Hstop & Hcont).
  rewrite (kh_get_opt_stop h m k s) by done. by eexists.
Qed.

(** C31. [kh_put] followed by the assignment of the value terminates (including
    the rehashing loops of [kh_resize]) below the table's capacity and
    implements insertion in the finite map the table stands for; it reports
    [0] exactly for a key that was present, and [kh_get] then finds the
    bucket. *)
Theorem kh_put_refines_insert {V} (h : khash V) k v :
  khash_ok h -> is_u32 k -> size h < KH_LIMIT ->
  exists h' x rv, kh_put_value h k v = Some (h', x, rv) /\ khash_ok h' /\
    kh_map h' = <[k := v]> (kh_map h) /\ (rv = 0 <-> is_Some (kh_map h !! k)) /\
    kh_get_opt h' k = Some x /\ kh_slot_ h' x = Some (k, v).
Proof.
  intros Hok Hk Hlt.
  destruct (kh_put_value_spec h k v Hok Hk Hlt) as (h' & x & rv & Hp & Hok' & Hs & Hr & Hr0 & Hoth).
  exists h', x, rv. split_and!; try done.
  - by eapply (kh_map_put (T:=khash)).
  - rewrite Hr0. split.
    + intros [v0 [j Hj]]. exists v0. apply (kh_map_Some (T:=khash)); [done|]. by exists j.
    + intros [v0 Hv0]. exists v0. by apply (kh_map_Some (T:=khash)) in Hv0.
  - rewrite kh_get_opt_total by done. f_equal. by destruct (khash_get h' x k v Hok' Hs).
Qed.

Lemma kh_put_refines_insert_witness :
  exists h' x rv, kh_put_value kh_init_ 7 true = Some (h', x, rv) /\ khash_ok h' /\
    kh_map h' = <[7 := true]> (kh_map (kh_init_ : khash bool)) /\
    (rv = 0 <-> is_Some (kh_map (kh_init_ : khash bool) !! 7)) /\
    kh_get_opt h' 7 = Some x /\ kh_slot_ h' x = Some (7, true).
Proof. apply kh_put_refines_insert; [by left|lia|done]. Defined.

(** [kh_get] terminates on every well-formed table and finds the bucket of
    a present key, [kh_end] for an absent one. *)
Theorem kh_get_refines_lookup {V} (h : khash V) k :
  khash_ok h -> is_u32 k ->
  exists x, kh_get_opt h k = Some x /\
    match kh_map h !! k with
    | Some v => x <> n_buckets h /\ kh_slot_ h x = Some (k, v)
    | None => x = n_buckets h
    end.
Proof.
  intros Hok Hk. exists (kh_get_ h k). split; [by apply kh_get_opt_total|].
  destruct (kh_map h !! k) as [v|] eqn:Hm.
  - apply (kh_map_Some (T:=khash)) in Hm as [i Hi]; [|done].
    destruct (khash_get h i k v Hok Hi) as [_ ->]. split; [|done].
    apply (kh_slot_range (T:=khash)) in Hi; simpl in *; [lia|done].
  - apply khash_get_absent; [done|done|]. intros i v Hi.
    assert (kh_map h !! k = Some v) as Hv; [|congruence].
    apply (kh_map_Some (T:=khash)); [done|]. by exists i.
Qed.

Lemma kh_get_refines_lookup_witness :
  exists x, kh_get_opt (kh_init_ : khash bool) 3 = Some x /\
    match kh_map (kh_init_ : khash bool) !! 3 with
    | Some v => x <> n_buckets (kh_init_ : khash bool) /\ kh_slot_ (kh_init_ : khash bool) x = Some (3, v)
    | None => x = n_buckets (kh_init_ : khash bool)
    end.
Proof. apply (kh_get_refines_lookup (kh_init_ : khash bool) 3); [by left|lia]. Defined.
