(* ===== verification/Storage.v ===== *)
(** * Storage of the acceptor

    [paxos/storage.c] dispatches to a backend through the function table of
    [struct storage]; here the table is the class [StorageApi], an instance per
    backend.  [StorageTx] is what the acceptor relies on of the transactions: a
    store represents an abstract state ([store_state]) of durable records and of the
    records the open transaction sees; any call may fail.  [StorageLaws] adds that
    reads find these records.  [mem_storage] is the in-memory backend of
    [paxos/storage_mem.c]; [StorageLmdb.v] has the lmdb backend.

    [None] is a failed [assert] (or a table past its capacity). *)

From S2P Require Import Prelude PaxosTypes KhashInterface.

(** ** [struct storage] *)

Class StorageApi (H : Type) := {
  api_open : H -> option (H * Z);
  api_tx_begin : H -> option (H * Z);
  api_tx_commit : H -> option (H * Z);
  api_tx_abort : H -> H;
  (** the result and the struct [out] points to, from its old contents *)
  api_get : H -> Z -> paxos_accepted -> option (Z * paxos_accepted);
  api_put : H -> paxos_accepted -> option (H * Z);
  api_trim : H -> Z -> option (H * Z);
  api_get_trim_instance : H -> option Z;
}.

Section dispatch.
Context `{StorageApi H}.

Definition storage_open (store : H) : option (H * Z) := api_open store.
Definition storage_tx_begin (store : H) : option (H * Z) := api_tx_begin store.
Definition storage_tx_commit (store : H) : option (H * Z) := api_tx_commit store.
Definition storage_tx_abort (store : H) : H := api_tx_abort store.
Definition storage_get_record (store : H) (iid : Z) (out : paxos_accepted) :
  option (Z * paxos_accepted) := api_get store iid out.
Definition storage_put_record (store : H) (acc : paxos_accepted) : option (H * Z) :=
  api_put store acc.
Definition storage_trim (store : H) (iid : Z) : option (H * Z) := api_trim store iid.
Definition storage_get_trim_instance (store : H) : option Z := api_get_trim_instance store.

End dispatch.

(** ** The contract *)

(** A record as the acceptor writes it. *)
Definition record_ok (b : paxos_accepted) : Prop :=
  is_u32 (iid b) /\ is_u16 (ballot b) /\ is_u16 (value_ballot b) /\ is_u16 (aid b) /\
  value_exact (value b).

(** Records are stored under their instance. *)
Definition records_ok (r : gmap Z paxos_accepted) : Prop :=
  forall k b, r !! k = Some b -> iid b = k /\ record_ok b.

Inductive store_state :=
  (** no open transaction: durable records and trim instance *)
  | Idle (r : gmap Z paxos_accepted) (t : Z)
  (** an open transaction: durable state and the transaction's *)
  | InTx (r : gmap Z paxos_accepted) (t : Z) (r' : gmap Z paxos_accepted) (t' : Z)
  (** an open transaction after a failed write *)
  | Broken (r : gmap Z paxos_accepted) (t : Z).

(** What the acceptor relies on of the transactions of a store. *)
Class StorageTx (H : Type) `{StorageApi H} := {
  rep : H -> store_state -> Prop;
  rep_idle_ok s r t : rep s (Idle r t) -> records_ok r /\ is_u32 t;
  rep_idle_inj s r t r' t' : rep s (Idle r t) -> rep s (Idle r' t') -> r = r' /\ t = t';
  rep_tx_ok s r t r' t' : rep s (InTx r t r' t') -> records_ok r' /\ is_u32 t';
  law_tx_begin s r t : rep s (Idle r t) -> exists s' rv,
    api_tx_begin s = Some (s', rv) /\
    (rv = 0 /\ rep s' (InTx r t r t) \/ rv <> 0 /\ rep s' (Idle r t));
  law_tx_commit s r t r' t' : rep s (InTx r t r' t') -> exists s' rv,
    api_tx_commit s = Some (s', rv) /\
    (rv = 0 /\ rep s' (Idle r' t') \/ rv <> 0 /\ rep s' (Idle r t));
  (** a transaction with a failed write cannot be committed *)
  law_commit_broken s r t : rep s (Broken r t) -> exists s' rv,
    api_tx_commit s = Some (s', rv) /\ rv <> 0 /\ rep s' (Idle r t);
  law_tx_abort s r t : rep s (Broken r t) -> rep (api_tx_abort s) (Idle r t);
  law_put s s' r t r' t' acc rv : rep s (InTx r t r' t') -> record_ok acc -> 0 < iid acc ->
    api_put s acc = Some (s', rv) ->
    rv = 0 /\ rep s' (InTx r t (<[iid acc := acc]> r') t') \/ rv <> 0 /\ rep s' (Broken r t);
  (** [trim] may leave some records behind when the backend fails, but keeps
      those of later instances. *)
  law_trim s s' r t r' t' i rv : rep s (InTx r t r' t') -> 0 < i < 2 ^ 32 ->
    api_trim s i = Some (s', rv) ->
    (exists r'', rep s' (InTx r t r'' i) /\ r'' ⊆ r' /\ forall k, i < k -> r'' !! k = r' !! k) \/
    rep s' (Broken r t);
}.

(** A store whose reads do not fail.  The interface cannot report a failed read:
    [get] returns 0 for it as for a missing record. *)
Class StorageLaws (H : Type) `{StorageApi H} := {
  #[global] storage_tx :: StorageTx H;
  law_get s r t r' t' i out : rep s (InTx r t r' t') -> 0 < i < 2 ^ 32 ->
    api_get s i out =
      Some match r' !! i with Some b => (1, b) | None => (0, out) end;
  law_get_trim s r t r' t' : rep s (InTx r t r' t') -> api_get_trim_instance s = Some t';
}.

(** ** The in-memory backend *)

Record mem_storage (T : Type -> Type) := MemStorage {
  mem_trim_iid : Z;
  mem_records : T paxos_accepted;
}.
Arguments MemStorage {T}.
Arguments mem_trim_iid {T}.
Arguments mem_records {T}.

Definition paxos_accepted_copy (src : paxos_accepted) : paxos_accepted :=
  {| iid := iid src; ballot := ballot src; value_ballot := value_ballot src; aid := aid src;
     value := value_dup (value src) |}.

Section mem_storage.
Context `{KH : KHash T}.
Implicit Types (s : mem_storage T).

Definition mem_storage_new : mem_storage T :=
  {| mem_trim_iid := 0; mem_records := kh_init |}.

Definition mem_storage_open s : option (mem_storage T * Z) := Some (s, 0).
Definition mem_storage_tx_begin s : option (mem_storage T * Z) := Some (s, 0).
Definition mem_storage_tx_commit s : option (mem_storage T * Z) := Some (s, 0).
Definition mem_storage_tx_abort s : mem_storage T := s.

Definition mem_storage_get s (iid : Z) (out : paxos_accepted) : option (Z * paxos_accepted) :=
  let k := kh_get (mem_records s) iid in
  if k =? kh_end (mem_records s) then Some (0, out) else
  '(_, v) ← kh_slot (mem_records s) k;
  Some (1, paxos_accepted_copy v).

Definition mem_storage_put s (acc : paxos_accepted) : option (mem_storage T * Z) :=
  let record := paxos_accepted_copy acc in
  '(h, k, rv) ← kh_put (mem_records s) (iid acc) record;
  if rv =? -1 then Some (s, -1)
  else Some ({| mem_trim_iid := mem_trim_iid s; mem_records := h |}, 0).

(** The loop over [kh_begin .. kh_end]; deleting keeps [kh_end]. *)
Definition mem_trim_loop (iid_ : Z) (h : T paxos_accepted) : T paxos_accepted :=
  foldl (fun h k =>
    match kh_slot h k with
    | Some (_, acc) => if iid acc <=? iid_ then kh_del h k else h
    | None => h
    end) h (kh_slots h).

Definition mem_storage_trim s (iid_ : Z) : option (mem_storage T * Z) :=
  Some ({| mem_trim_iid := iid_; mem_records := mem_trim_loop iid_ (mem_records s) |}, 0).

Definition mem_storage_get_trim_instance s : option Z := Some (mem_trim_iid s).

(** [storage_init_mem] fills the table. *)
#[export] Instance storage_init_mem : StorageApi (mem_storage T) := {|
  api_open := mem_storage_open;
  api_tx_begin := mem_storage_tx_begin;
  api_tx_commit := mem_storage_tx_commit;
  api_tx_abort := mem_storage_tx_abort;
  api_get := mem_storage_get;
  api_put := mem_storage_put;
  api_trim := mem_storage_trim;
  api_get_trim_instance := mem_storage_get_trim_instance;
|}.

(** What a store in memory represents; there are no transactions, so the state
    is the one an open transaction sees, and no write fails. *)
Definition mem_rep s (r : gmap Z paxos_accepted) (t : Z) : Prop :=
  kh_wf (mem_records s) /\ kh_map (mem_records s) = r /\ mem_trim_iid s = t /\
  records_ok r /\ is_u32 t.

Definition mem_state_rep s (a : store_state) : Prop :=
  match a with
  | Idle r t => mem_rep s r t
  | InTx _ _ r' t' => mem_rep s r' t'
  | Broken _ _ => False
  end.

(** ** Lemmas *)

Lemma paxos_accepted_copy_ok b : record_ok b -> paxos_accepted_copy b = b.
Proof.
  intros (_ & _ & _ & _ & Hv). unfold paxos_accepted_copy. rewrite value_dup_exact by done.
  by destruct b.
Qed.

Lemma mem_get_spec s r t i out :
  mem_rep s r t -> is_u32 i ->
  mem_storage_get s i out = Some match r !! i with Some b => (1, b) | None => (0, out) end.
Proof.
  intros (Hwf & <- & _ & Hrec & _) Hi. unfold mem_storage_get.
  destruct (kh_map (mem_records s) !! i) as [b|] eqn:Hb.
  - destruct (Hrec _ _ Hb) as [_ Hok]. apply kh_map_Some in Hb as [k Hk]; [|done].
    destruct (kh_slot_key _ _ _ _ Hwf Hk) as [_ ->]. pose proof (kh_slot_range _ _ _ Hwf Hk).
    destruct (Z.eqb_spec k (kh_end (mem_records s))); [lia|].
    rewrite Hk. simpl. by rewrite paxos_accepted_copy_ok.
  - rewrite kh_get_absent by (try done; by apply kh_map_None). by rewrite Z.eqb_refl.
Qed.

Lemma mem_put_spec s s' r t acc rv :
  mem_rep s r t -> record_ok acc -> mem_storage_put s acc = Some (s', rv) ->
  rv = 0 /\ mem_rep s' (<[iid acc := acc]> r) t.
Proof.
  intros (Hwf & <- & <- & Hrec & Ht) Hacc Hput. unfold mem_storage_put in Hput.
  rewrite paxos_accepted_copy_ok in Hput by done.
  destruct (kh_put _ _ _) as [[[h k] rv']|] eqn:Hk; simpl in Hput; [|done].
  apply kh_map_put in Hk as (Hwf' & Hmap & _ & Hrv & _); [|done|by destruct Hacc].
  destruct (Z.eqb_spec rv' (-1)); [lia|]. simplify_eq. split; [done|].
  do 3 (split; [done|]). split; [|done].
  intros k' b. destruct (decide (k' = iid acc)) as [->|Hne].
  - rewrite lookup_insert_eq. intros [= <-]. done.
  - rewrite lookup_insert_ne by done. apply Hrec.
Qed.

Lemma mem_trim_loop_spec i (h : T paxos_accepted) :
  kh_wf h -> records_ok (kh_map h) ->
  kh_wf (mem_trim_loop i h) /\
  kh_map (mem_trim_loop i h) = filter (fun kb => i < kb.1) (kh_map h).
Proof.
  intros Hwf Hrec. destruct (kh_map_prune (fun acc => iid acc <=? i) h Hwf) as [Hwf' Hmap].
  split; [done|]. etrans; [exact Hmap|]. apply map_filter_ext. intros k b Hb. simpl.
  destruct (Hrec _ _ Hb) as [-> _]. destruct (Z.leb_spec k i); naive_solver lia.
Qed.

Lemma mem_trim_spec s r t i :
  mem_rep s r t -> is_u32 i ->
  exists s', mem_storage_trim s i = Some (s', 0) /\ mem_rep s' (filter (fun kb => i < kb.1) r) i.
Proof.
  intros (Hwf & <- & <- & Hrec & Ht) Hi. eexists. split; [done|].
  destruct (mem_trim_loop_spec i _ Hwf Hrec) as [Hwf' Hmap].
  do 3 (split; [done|]). split; [|done].
  intros k b [Hb _]%map_lookup_filter_Some. by apply Hrec.
Qed.

Definition mem_storage_tx : StorageTx (mem_storage T).
Proof.
  refine {| rep := mem_state_rep : _ -> _ -> Prop |}.
  - intros s r t (_ & _ & _ & ? & ?). done.
  - intros s r t r' t' (_ & <- & <- & _) (_ & <- & <- & _). done.
  - intros s r t r' t' (_ & _ & _ & ? & ?). done.
  - intros s r t Hs. exists s, 0. auto.
  - intros s r t r' t' Hs. exists s, 0. auto.
  - intros s r t [].
  - intros s r t [].
  - intros s s' r t r' t' acc rv Hs Hacc _ Hput. left. by eapply mem_put_spec.
  - intros s s' r t r' t' i rv Hs Hi Htrim.
    destruct (mem_trim_spec s r' t' i Hs ltac:(lia)) as (s1 & Heq & Hrep).
    simpl in *. rewrite Heq in Htrim. simplify_eq. left. eexists. split; [done|].
    split; [apply map_filter_subseteq|]. intros k Hk.
    destruct (r' !! k) as [b|] eqn:Hb.
    + by apply map_lookup_filter_Some.
    + apply map_lookup_filter_None. by left.
Defined.

#[export, refine] Instance mem_storage_laws : StorageLaws (mem_storage T) := {|
  storage_tx := mem_storage_tx;
|}.
Proof.
  - intros s r t r' t' i out Hs Hi. simpl in Hs. eapply mem_get_spec; [exact Hs|lia].
  - intros s r t r' t' (_ & _ & Ht & _). simpl. unfold mem_storage_get_trim_instance. by rewrite Ht.
Defined.

Lemma mem_rep_new : mem_rep mem_storage_new ∅ 0.
Proof.
  split; [apply kh_init_wf|]. split; [apply kh_map_init|]. split; [done|].
  split; [by intros k b|lia].
Qed.

(** A write in memory succeeds below the capacity of the table. *)
Lemma mem_put_total s acc :
  kh_wf (mem_records s) -> record_ok acc -> kh_size (mem_records s) < KH_LIMIT ->
  is_Some (mem_storage_put s acc).
Proof.
  intros Hwf Hacc Hsz. unfold mem_storage_put.
  destruct (kh_put_total (mem_records s) (iid acc) (paxos_accepted_copy acc)) as [[[h k] rv] Hk];
    [done|by destruct Hacc|done|].
  rewrite Hk. simpl. destruct (rv =? -1); eauto.
Qed.
End mem_storage.

From S2P Require Import KhashResize.

(** A record written to the in-memory store is read back unchanged, and the
    write leaves every other instance as it was: [mem_storage_put] succeeds
    below the capacity of the table, [mem_storage_get] then finds the record,
    and answers as before for the other instances. *)
Theorem mem_storage_put_get `{KH : KHash T} (s : mem_storage T) r t acc out :
  mem_rep s r t -> record_ok acc -> kh_size (mem_records s) < KH_LIMIT ->
  exists s', mem_storage_put s acc = Some (s', 0) /\ mem_rep s' (<[iid acc := acc]> r) t /\
    mem_storage_get s' (iid acc) out = Some (1, acc) /\
    forall i, is_u32 i -> i <> iid acc -> mem_storage_get s' i out = mem_storage_get s i out.
Proof.
  intros Hrep Hacc Hsz. pose proof Hrep as (Hwf & _).
  destruct (mem_put_total s acc Hwf Hacc Hsz) as [[s' rv] Hput].
  destruct (mem_put_spec _ _ _ _ _ _ Hrep Hacc Hput) as [-> Hrep'].
  exists s'. split; [done|]. split; [done|]. split.
  - rewrite (mem_get_spec _ _ _ _ _ Hrep') by by destruct Hacc. by rewrite lookup_insert_eq.
  - intros i Hi Hne. rewrite (mem_get_spec _ _ _ _ _ Hrep'), (mem_get_spec _ _ _ _ _ Hrep) by done.
    by rewrite lookup_insert_ne.
Qed.

Lemma mem_storage_put_get_witness :
  let s := mem_storage_new (T := Khash.khash) in
  let acc := {| iid := 1; ballot := 12; value_ballot := 12; aid := 0;
                value := {| paxos_value_len := 1; paxos_value_val := Some [x61] |} |} in
  exists s', mem_storage_put s acc = Some (s', 0) /\ mem_rep s' (<[iid acc := acc]> ∅) 0 /\
    mem_storage_get s' (iid acc) zero_body = Some (1, acc) /\
    forall i, is_u32 i -> i <> iid acc ->
      mem_storage_get s' i zero_body = mem_storage_get s i zero_body.
Proof.
  intros s acc. apply mem_storage_put_get; [apply mem_rep_new| |done].
  unfold record_ok, value_exact. simpl. lia.
Defined.

(** Trimming the in-memory store deletes exactly the records of the
    instances up to the given one: afterwards [mem_storage_get] finds nothing
    for them and answers as before for the later ones. *)
Theorem mem_storage_trim_exact `{KH : KHash T} (s : mem_storage T) r t i out :
  mem_rep s r t -> is_u32 i ->
  exists s', mem_storage_trim s i = Some (s', 0) /\
    mem_storage_get_trim_instance s' = Some i /\
    (exists r', mem_rep s' r' i) /\
    forall k, is_u32 k -> mem_storage_get s' k out =
      if k <=? i then Some (0, out) else mem_storage_get s k out.
Proof.
  intros Hrep Hi. destruct (mem_trim_spec s r t i Hrep Hi) as (s' & Htrim & Hrep').
  exists s'. split; [done|]. split; [by destruct Hrep' as (_ & _ & <- & _)|]. split; [by eexists|].
  intros k Hk. rewrite (mem_get_spec _ _ _ _ _ Hrep'), (mem_get_spec _ _ _ _ _ Hrep) by done.
  rewrite map_lookup_filter. destruct (r !! k) as [b|] eqn:Hb; simpl.
  - destruct (Z.leb_spec k i); [rewrite option_guard_False by (simpl; lia)|
      rewrite option_guard_True by (simpl; lia)]; done.
  - by destruct (k <=? i).
Qed.

Lemma mem_storage_trim_exact_witness :
  let s := mem_storage_new (T := Khash.khash) in
  exists s', mem_storage_trim s 5 = Some (s', 0) /\
    mem_storage_get_trim_instance s' = Some 5 /\
    (exists r', mem_rep s' r' 5) /\
    forall k, is_u32 k -> mem_storage_get s' k zero_body =
      if k <=? 5 then Some (0, zero_body) else mem_storage_get s k zero_body.
Proof. intros s. eapply mem_storage_trim_exact; [apply mem_rep_new|lia]. Defined.
