(* ===== verification/StorageUtils.v ===== *)
(** * Records as bytes ([paxos/storage_utils.c])

    The lmdb backend stores an accepted record as the bytes of its struct
    followed by the bytes of its value.  [paxos_accepted] is a packed struct of
    22 bytes: [iid] at offset 0, [ballot] at 4, [value_ballot] at 6, [aid] at 8,
    [paxos_value_len] at 10 and the pointer [paxos_value_val] at 14, each in the
    little-endian order of the machine. *)

From S2P Require Import Prelude Bytes PaxosTypes Storage.

Definition sizeof_paxos_accepted : Z := 22.

Section storage_utils.
(** The address of the buffer of a value, stored with the struct. *)
Variable addr : paxos_value -> Z.

(** [memcpy(buffer, acc, sizeof(paxos_accepted))]. *)
Definition paxos_accepted_struct (acc : paxos_accepted) : list byte :=
  le_split 4 (iid acc) ++ le_split 2 (ballot acc) ++ le_split 2 (value_ballot acc) ++
  le_split 2 (aid acc) ++ le_split 4 (paxos_value_len (value acc)) ++
  le_split 8 (match paxos_value_val (value acc) with Some _ => addr (value acc) | None => 0 end).

(** [None] is a copy from outside the buffer of the value (a negative length
    becomes a huge [size_t]). *)
Definition paxos_accepted_to_buffer (acc : paxos_accepted) : option (list byte) :=
  let len := paxos_value_len (value acc) in
  if len =? 0 then Some (paxos_accepted_struct acc)
  else
    bs ← read_at (default [] (paxos_value_val (value acc))) 0 len;
    Some (paxos_accepted_struct acc ++ bs).
End storage_utils.

(** A value without bytes keeps the pointer that was stored: NULL, or the
    address of a block that may be gone, of which no byte can be read. *)
Definition paxos_accepted_from_buffer (buffer : list byte) : option paxos_accepted :=
  iid ← le_combine <$> read_at buffer 0 4;
  ballot ← le_combine <$> read_at buffer 4 2;
  value_ballot ← le_combine <$> read_at buffer 6 2;
  aid ← le_combine <$> read_at buffer 8 2;
  len ← le_combine <$> read_at buffer 10 4;
  ptr ← le_combine <$> read_at buffer 14 8;
  let len := i32 len in
  val ← (if 0 <? len then Some <$> read_at buffer sizeof_paxos_accepted len
         else Some (if ptr =? 0 then None else Some []));
  Some {| iid := iid; ballot := ballot; value_ballot := value_ballot; aid := aid;
          value := {| paxos_value_len := len; paxos_value_val := val |} |}.

(** ** Lemmas *)

Lemma length_paxos_accepted_struct addr acc :
  Z.of_nat (length (paxos_accepted_struct addr acc)) = sizeof_paxos_accepted.
Proof. unfold paxos_accepted_struct. rewrite !length_app, !length_le_split. done. Qed.

(** A field of [n] bytes that holds [w], behind the fields [a]. *)
Lemma read_field l a n w c off size :
  l = a ++ le_split n w ++ c -> off = Z.of_nat (length a) -> size = Z.of_nat n ->
  0 <= w < 256 ^ Z.of_nat n -> le_combine <$> read_at l off size = Some w.
Proof.
  intros -> -> -> Hw. rewrite read_at_app by (by rewrite ?length_le_split). simpl.
  rewrite le_combine_split. f_equal. by apply Z.mod_small.
Qed.

(** The field at [off] of the struct, of [n] bytes behind the fields [a]. *)
Ltac next_field l a off n w :=
  let size := eval compute in (Z.of_nat n) in
  erewrite (read_field l a n w _ off size); [simpl
    |unfold l, paxos_accepted_struct; rewrite <- ?(assoc_L (++)); reflexivity
    |rewrite ?length_app, ?length_le_split; reflexivity|reflexivity|lia].

#[local] Opaque le_split le_combine.

Lemma from_buffer_struct addr acc bs :
  record_ok acc -> bs = default [] (paxos_value_val (value acc)) ->
  0 <= addr (value acc) < 2 ^ 64 ->
  paxos_accepted_from_buffer (paxos_accepted_struct addr acc ++ bs) = Some acc.
Proof.
  intros (Hi & Hb & Hvb & Ha & Hl & Hv) Hbs Haddr. unfold paxos_accepted_from_buffer.
  pose proof (length_paxos_accepted_struct addr acc) as Hlen.
  set (l := paxos_accepted_struct addr acc ++ bs).
  set (ptr := match paxos_value_val (value acc) with Some _ => addr (value acc) | None => 0 end).
  assert (0 <= ptr < 256 ^ Z.of_nat 8) as Hptr by (unfold ptr; destruct (paxos_value_val _); lia).
  next_field l (@nil byte) 0 4%nat (iid acc).
  next_field l (le_split 4 (iid acc)) 4 2%nat (ballot acc).
  next_field l (le_split 4 (iid acc) ++ le_split 2 (ballot acc)) 6 2%nat (value_ballot acc).
  next_field l (le_split 4 (iid acc) ++ le_split 2 (ballot acc) ++ le_split 2 (value_ballot acc)) 8 2%nat (aid acc).
  next_field l (le_split 4 (iid acc) ++ le_split 2 (ballot acc) ++ le_split 2 (value_ballot acc) ++
    le_split 2 (aid acc)) 10 4%nat (paxos_value_len (value acc)).
  next_field l (le_split 4 (iid acc) ++ le_split 2 (ballot acc) ++ le_split 2 (value_ballot acc) ++
    le_split 2 (aid acc) ++ le_split 4 (paxos_value_len (value acc))) 14 8%nat ptr.
  rewrite i32_small by lia. unfold l, ptr. destruct acc as [i b vb a [len val]]. simpl in *.
  destruct val as [bs'|]; simpl in *; subst bs.
  - destruct (Z.ltb_spec 0 len); [|lia].
    rewrite read_at_app_r; [done|by rewrite Hlen|lia].
  - subst len. done.
Qed.

(** The buffer of a record decodes to the record. *)
Lemma to_from_buffer addr acc :
  record_ok acc -> 0 <= addr (value acc) < 2 ^ 64 ->
  exists buf, paxos_accepted_to_buffer addr acc = Some buf /\ paxos_accepted_from_buffer buf = Some acc /\
    Z.of_nat (length buf) = sizeof_paxos_accepted + paxos_value_len (value acc).
Proof.
  intros Hacc Haddr. pose proof Hacc as (_ & _ & _ & _ & Hl & Hv). unfold paxos_accepted_to_buffer.
  pose proof (length_paxos_accepted_struct addr acc) as Hlen.
  destruct (Z.eqb_spec (paxos_value_len (value acc)) 0) as [E|E].
  - eexists. split; [done|]. rewrite E, Hlen. split; [|done].
    rewrite <- (app_nil_r (paxos_accepted_struct addr acc)). apply from_buffer_struct; [done| |done].
    destruct (paxos_value_val _); [lia|done].
  - destruct (paxos_value_val (value acc)) as [bs|] eqn:Hbs; [|lia]. simpl.
    rewrite (read_at_app_r [] bs) by (done || lia). simpl.
    eexists. split; [done|]. split; [|rewrite length_app; lia].
    apply from_buffer_struct; [done|by rewrite Hbs|done].
Qed.

(** A record survives the bytes the database stores: [paxos_accepted_to_buffer]
    of a record as the acceptor writes it gives a buffer of the size
    [lmdb_storage_put] stores, and [paxos_accepted_from_buffer] reads the record
    back from it, wherever its value was in memory. *)
Theorem accepted_buffer_roundtrip addr acc :
  record_ok acc -> 0 <= addr (value acc) < 2 ^ 64 ->
  exists buf, paxos_accepted_to_buffer addr acc = Some buf /\ paxos_accepted_from_buffer buf = Some acc /\
    Z.of_nat (length buf) = sizeof_paxos_accepted + paxos_value_len (value acc).
Proof. apply to_from_buffer. Qed.

Lemma accepted_buffer_roundtrip_witness :
  let acc := {| iid := 70000; ballot := 21; value_ballot := 21; aid := 2;
                value := {| paxos_value_len := 3; paxos_value_val := Some [x61; x62; x63] |} |} in
  exists buf, paxos_accepted_to_buffer (fun _ => 4096) acc = Some buf /\
    paxos_accepted_from_buffer buf = Some acc /\
    Z.of_nat (length buf) = sizeof_paxos_accepted + paxos_value_len (value acc).
Proof.
  intros acc. apply accepted_buffer_roundtrip; [|simpl; lia].
  unfold acc, record_ok, value_exact. simpl. lia.
Defined.
