(* ===== verification/StorageLmdb.v ===== *)
(** * The lmdb backend ([paxos/storage_lmdb.c])

    lmdb and the file system are not part of this repository: they are the
    class [Lmdb], a world [W] and the library functions on it.  [LmdbLaws] states
    the documented behaviour of transactions, [mdb_get], [mdb_put] and cursors,
    every one of which may fail; under it the backend satisfies the contract
    [StorageTx] of [Storage.v], and [StorageLaws] when no read fails ([LmdbReads]).
    A library handle ([MDB_env*], [MDB_txn*], [MDB_cursor*], [MDB_dbi]) is a
    number, 0 being NULL. *)

From S2P Require Import Prelude Bytes PaxosTypes Storage StorageUtils.
From Stdlib Require Import DecimalString String.
#[local] Open Scope Z_scope.

(** ** The library *)

(** A function with an out parameter returns [inl e], an error code, or [inr x],
    the result 0 and the value stored in the out parameter. *)
Class Lmdb (W : Type) := {
  mdb_env_create : W -> W * (Z + Z);
  mdb_env_set_mapsize : W -> Z -> Z -> W * Z;
  mdb_env_open : W -> Z -> list byte -> Z -> Z -> W * Z;
  mdb_env_close : W -> Z -> W;
  mdb_txn_begin : W -> Z -> W * (Z + Z);
  mdb_txn_commit : W -> Z -> W * Z;
  mdb_txn_abort : W -> Z -> W;
  mdb_open : W -> Z -> Z -> W * (Z + Z);
  mdb_close : W -> Z -> Z -> W;
  mdb_set_compare : W -> Z -> Z -> (list byte -> list byte -> option Z) -> W * Z;
  mdb_get : W -> Z -> Z -> list byte -> Z + list byte;
  mdb_put : W -> Z -> Z -> list byte -> list byte -> W * Z;
  mdb_cursor_open : W -> Z -> Z -> W * (Z + Z);
  (** [mdb_cursor_get] with [MDB_NEXT]: the key and the data *)
  mdb_cursor_next : W -> Z -> W * (Z + list byte * list byte);
  mdb_cursor_del : W -> Z -> W * Z;
  mdb_cursor_close : W -> Z -> W;
  (** [stat(path) == 0], [mkdir] and [rm -r] *)
  sys_exists : W -> list byte -> bool;
  sys_mkdir : W -> list byte -> Z -> W * Z;
  sys_rm : W -> list byte -> W;
}.

Definition MDB_NOTFOUND : Z := -30798.
Definition MDB_NOSYNC : Z := 65536.
Definition MDB_INTEGERKEY : Z := 8.

(** ** The backend *)

Record lmdb_storage := LmdbStorage {
  env : Z;
  txn : Z;
  dbi : Z;
  lmdb_acceptor_id : Z;
}.

Definition sizeof_iid_t : Z := 4.

(** The bytes of a variable of type [iid_t]. *)
Definition iid_bytes (iid : Z) : list byte := le_split 4 iid.

(** The [iid_t] at the address [p]. *)
Definition read_iid (p : list byte) : option Z := le_combine <$> read_at p 0 sizeof_iid_t.

Definition lmdb_compare_iid (lhs rhs : list byte) : option Z :=
  assert_ (Z.of_nat (List.length lhs) =? sizeof_iid_t);;
  assert_ (Z.of_nat (List.length rhs) =? sizeof_iid_t);;
  lid ← read_iid lhs;
  rid ← read_iid rhs;
  Some (if lid =? rid then 0 else if lid <? rid then -1 else 1).

Definition lmdb_storage_new (acceptor_id : Z) : lmdb_storage :=
  {| env := 0; txn := 0; dbi := 0; lmdb_acceptor_id := acceptor_id |}.

(** ["%d"] *)
Definition decimal (z : Z) : list byte :=
  list_byte_of_string (NilZero.string_of_int (Z.to_int z)).

Section lmdb.
Context `{LM : Lmdb W}.
Variable config : paxos_config.
Variable addr : paxos_value -> Z.
Implicit Types (s : lmdb_storage) (w : W).

(** The label [error] of [lmdb_storage_init]. *)
Definition lmdb_init_error w (env txn dbi : Z) : W :=
  let w := if negb (txn =? 0) then mdb_txn_abort w txn else w in
  let w := if negb (dbi =? 0) then mdb_close w env dbi else w in
  if negb (env =? 0) then mdb_env_close w env else w.

Definition lmdb_storage_init s w (db_env_path : list byte) : lmdb_storage * W * Z :=
  match mdb_env_create w with
  | (w, inl _) => (s, lmdb_init_error w 0 0 0, -1)
  | (w, inr env) =>
  let '(w, result) := mdb_env_set_mapsize w env (lmdb_mapsize config) in
  if negb (result =? 0) then (s, lmdb_init_error w env 0 0, -1) else
  let '(w, result) := mdb_env_open w env db_env_path
    (if lmdb_sync config =? 0 then MDB_NOSYNC else 0) 436 in
  if negb (result =? 0) then (s, lmdb_init_error w env 0 0, -1) else
  match mdb_txn_begin w env with
  | (w, inl _) => (s, lmdb_init_error w env 0 0, -1)
  | (w, inr txn_) =>
  match mdb_open w txn_ MDB_INTEGERKEY with
  | (w, inl _) => (s, lmdb_init_error w env txn_ 0, -1)
  | (w, inr dbi) =>
  let '(w, result) := mdb_set_compare w txn_ dbi lmdb_compare_iid in
  if negb (result =? 0) then (s, lmdb_init_error w env txn_ dbi, -1) else
  let '(w, result) := mdb_txn_commit w txn_ in
  if negb (result =? 0) then (s, lmdb_init_error w env txn_ dbi, -1) else
  ({| env := env; txn := txn s; dbi := dbi; lmdb_acceptor_id := lmdb_acceptor_id s |}, w, 0)
  end end end.

(** The handle is freed. *)
Definition lmdb_storage_close s w : W :=
  let w := if negb (txn s =? 0) then mdb_txn_abort w (txn s) else w in
  let w := if negb (dbi s =? 0) then mdb_close w (env s) (dbi s) else w in
  if negb (env s =? 0) then mdb_env_close w (env s) else w.

(** ["%s_%d"] *)
Definition lmdb_path s : list byte :=
  lmdb_env_path config ++ [x5f] ++ decimal (lmdb_acceptor_id s).

(** ["rm -r %s"] is printed to a buffer of 600 bytes. *)
Definition lmdb_trash s w : option W :=
  if trash_files config =? 0 then Some w else
  assert_ (6 + Z.of_nat (List.length (lmdb_path s)) <? 600);;
  Some (sys_rm w (lmdb_path s)).

Definition lmdb_storage_open s w : option (lmdb_storage * W * Z) :=
  w ← lmdb_trash s w;
  let '(w, made) := (if sys_exists w (lmdb_path s) then (w, 0) else sys_mkdir w (lmdb_path s) 448) in
  if negb (made =? 0) then Some (s, lmdb_storage_close s w, -1) else
  let '(s, w, result) := lmdb_storage_init s w (lmdb_path s) in
  if negb (result =? 0) then Some (s, lmdb_storage_close s w, 1) else
  Some (s, w, 0).

Definition with_txn s (t : Z) : lmdb_storage :=
  {| env := env s; txn := t; dbi := dbi s; lmdb_acceptor_id := lmdb_acceptor_id s |}.

Definition lmdb_storage_tx_begin s w : option (lmdb_storage * W * Z) :=
  assert_ (txn s =? 0);;
  Some match mdb_txn_begin w (env s) with
       | (w, inl e) => (s, w, e)
       | (w, inr t) => (with_txn s t, w, 0)
       end.

Definition lmdb_storage_tx_commit s w : option (lmdb_storage * W * Z) :=
  assert_ (negb (txn s =? 0));;
  let '(w, result) := mdb_txn_commit w (txn s) in
  Some (with_txn s 0, w, result).

Definition lmdb_storage_tx_abort s w : lmdb_storage * W :=
  if negb (txn s =? 0) then (with_txn s 0, mdb_txn_abort w (txn s)) else (s, w).

Definition lmdb_storage_get s w (iid_ : Z) (out : paxos_accepted) : option (Z * paxos_accepted) :=
  match mdb_get w (txn s) (dbi s) (iid_bytes iid_) with
  | inl _ => Some (0, out)
  | inr data =>
      out ← paxos_accepted_from_buffer data;
      assert_ (iid_ =? iid out);;
      Some (1, out)
  end.

Definition lmdb_storage_put s w (acc : paxos_accepted) : option (lmdb_storage * W * Z) :=
  buffer ← paxos_accepted_to_buffer addr acc;
  let '(w, result) := mdb_put w (txn s) (dbi s) (iid_bytes (iid acc)) buffer in
  Some (s, w, result).

Definition lmdb_storage_get_trim_instance s w : option Z :=
  match mdb_get w (txn s) (dbi s) (iid_bytes 0) with
  | inl result => if negb (result =? MDB_NOTFOUND) then None else Some 0
  | inr data => read_iid data
  end.

Definition lmdb_storage_put_trim_instance s w (iid : Z) : option W :=
  let '(w, result) := mdb_put w (txn s) (dbi s) (iid_bytes 0) (iid_bytes iid) in
  assert_ (result =? 0);;
  Some w.

(** The loop of [lmdb_storage_trim]; every turn moves the cursor to a greater
    key, so that [iid + 2] turns are enough ([lmdb_trim_loop_total]). *)
Fixpoint lmdb_trim_loop (fuel : nat) w (cursor iid : Z) : option W :=
  match fuel with
  | O => None
  | S fuel =>
      match mdb_cursor_next w cursor with
      | (w, inl _) => Some w
      | (w, inr (key, _)) =>
          min ← read_iid key;
          let '(w, result) :=
            if negb (min =? 0) && (min <=? iid) then mdb_cursor_del w cursor else (w, 0) in
          if negb (result =? 0) then Some w else
          if min <=? iid then lmdb_trim_loop fuel w cursor iid else Some w
      end
  end.

Definition lmdb_storage_trim s w (iid : Z) : option (lmdb_storage * W * Z) :=
  if iid =? 0 then Some (s, w, 0) else
  w ← lmdb_storage_put_trim_instance s w iid;
  match mdb_cursor_open w (txn s) (dbi s) with
  | (w, inl _) => Some (s, w, 0)
  | (w, inr cursor) =>
      w ← lmdb_trim_loop (Z.to_nat (iid + 2)) w cursor iid;
      Some (s, if negb (cursor =? 0) then mdb_cursor_close w cursor else w, 0)
  end.
End lmdb.

(** [storage_init_lmdb] fills the table; the handle comes with the world. *)
Definition storage_init_lmdb `{LM : Lmdb W} (config : paxos_config) (addr : paxos_value -> Z) :
    StorageApi (lmdb_storage * W) := {|
  api_open '(s, w) := lmdb_storage_open config s w;
  api_tx_begin '(s, w) := lmdb_storage_tx_begin s w;
  api_tx_commit '(s, w) := lmdb_storage_tx_commit s w;
  api_tx_abort '(s, w) := lmdb_storage_tx_abort s w;
  api_get '(s, w) := lmdb_storage_get s w;
  api_put '(s, w) := lmdb_storage_put addr s w;
  api_trim '(s, w) := lmdb_storage_trim s w;
  api_get_trim_instance '(s, w) := lmdb_storage_get_trim_instance s w;
|}.

(** ** What the library promises *)

(** A database as the holder of its environment sees it: the durable contents
    [m], and the contents [m'] an open transaction sees.  A cursor has passed the
    keys up to [lo].  A transaction with a failed write is broken: it can only be
    ended. *)
Inductive db_state :=
  | DbIdle (m : gmap Z (list byte))
  | DbTx (t : Z) (m m' : gmap Z (list byte))
  | DbCursor (t c : Z) (m m' : gmap Z (list byte)) (lo : Z)
  | DbBroken (t : Z) (m : gmap Z (list byte))
  | DbBrokenCursor (t c : Z) (m : gmap Z (list byte)).

Class LmdbLaws (W : Type) `{Lmdb W} := {
  mdb_view : W -> Z -> Z -> option db_state;
  law_begin w e d m : mdb_view w e d = Some (DbIdle m) ->
    match mdb_txn_begin w e with
    | (w', inl rv) => rv <> 0 /\ mdb_view w' e d = Some (DbIdle m)
    | (w', inr t) => t <> 0 /\ mdb_view w' e d = Some (DbTx t m m)
    end;
  law_commit w e d t m m' : mdb_view w e d = Some (DbTx t m m') ->
    let '(w', rv) := mdb_txn_commit w t in
    rv = 0 /\ mdb_view w' e d = Some (DbIdle m') \/ rv <> 0 /\ mdb_view w' e d = Some (DbIdle m);
  law_commit_failed w e d t m : mdb_view w e d = Some (DbBroken t m) ->
    let '(w', rv) := mdb_txn_commit w t in rv <> 0 /\ mdb_view w' e d = Some (DbIdle m);
  law_abort w e d t m : mdb_view w e d = Some (DbBroken t m) ->
    mdb_view (mdb_txn_abort w t) e d = Some (DbIdle m);
  law_mdb_get w e d t m m' k : mdb_view w e d = Some (DbTx t m m') -> is_u32 k ->
    match mdb_get w t d (iid_bytes k) with
    | inr data => m' !! k = Some data
    | inl rv => rv = MDB_NOTFOUND -> m' !! k = None
    end;
  law_mdb_put w e d t m m' k data : mdb_view w e d = Some (DbTx t m m') -> is_u32 k ->
    let '(w', rv) := mdb_put w t d (iid_bytes k) data in
    rv = 0 /\ mdb_view w' e d = Some (DbTx t m (<[k := data]> m')) \/
    rv <> 0 /\ mdb_view w' e d = Some (DbBroken t m);
  law_cursor_open w e d t m m' : mdb_view w e d = Some (DbTx t m m') ->
    match mdb_cursor_open w t d with
    | (w', inl rv) => rv <> 0 /\ mdb_view w' e d = Some (DbTx t m m')
    | (w', inr c) => c <> 0 /\ mdb_view w' e d = Some (DbCursor t c m m' (-1))
    end;
  (** the next key in the order of [lmdb_compare_iid] *)
  law_cursor_next w e d t c m m' lo : mdb_view w e d = Some (DbCursor t c m m' lo) ->
    match mdb_cursor_next w c with
    | (w', inl rv) => mdb_view w' e d = Some (DbCursor t c m m' lo) /\
        (rv = MDB_NOTFOUND -> forall k, lo < k -> m' !! k = None)
    | (w', inr (key, data)) => exists k, key = iid_bytes k /\ lo < k /\ m' !! k = Some data /\
        (forall j, lo < j < k -> m' !! j = None) /\ mdb_view w' e d = Some (DbCursor t c m m' k)
    end;
  law_cursor_del w e d t c m m' k : mdb_view w e d = Some (DbCursor t c m m' k) ->
    is_Some (m' !! k) ->
    let '(w', rv) := mdb_cursor_del w c in
    rv = 0 /\ mdb_view w' e d = Some (DbCursor t c m (delete k m') k) \/
    rv <> 0 /\ mdb_view w' e d = Some (DbBrokenCursor t c m);
  law_cursor_close w e d t c m m' lo : mdb_view w e d = Some (DbCursor t c m m' lo) ->
    mdb_view (mdb_cursor_close w c) e d = Some (DbTx t m m');
  law_cursor_close_failed w e d t c m : mdb_view w e d = Some (DbBrokenCursor t c m) ->
    mdb_view (mdb_cursor_close w c) e d = Some (DbBroken t m);
}.

(** A library whose reads fail only for a missing key. *)
Class LmdbReads (W : Type) `{LmdbLaws W} :=
  reads_succeed w e d t m m' k rv : mdb_view w e d = Some (DbTx t m m') -> is_u32 k ->
    mdb_get w t d (iid_bytes k) = inl rv -> rv = MDB_NOTFOUND.

(** ** The contents as records *)

(** The key 0 holds the trim instance, the other keys the records. *)
Definition db_records (m : gmap Z (list byte)) : gmap Z paxos_accepted :=
  omap paxos_accepted_from_buffer (delete 0 m).

Definition db_trim (m : gmap Z (list byte)) : Z :=
  match m !! 0 with Some d => default 0 (read_iid d) | None => 0 end.

Definition entry_ok (k : Z) (d : list byte) : Prop :=
  if decide (k = 0) then is_Some (read_iid d)
  else is_u32 k /\ exists b, paxos_accepted_from_buffer d = Some b /\ record_ok b /\ iid b = k.

Definition db_ok (m : gmap Z (list byte)) : Prop := map_Forall entry_ok m.

Definition db_abs (m : gmap Z (list byte)) (r : gmap Z paxos_accepted) (t : Z) : Prop :=
  db_ok m /\ r = db_records m /\ t = db_trim m.

Lemma read_iid_bytes k : is_u32 k -> read_iid (iid_bytes k) = Some k.
Proof.
  intros Hk. unfold read_iid, iid_bytes, sizeof_iid_t.
  rewrite (read_at_app_r [] (le_split 4 k)); [|done|by rewrite length_le_split].
  change (Some (le_combine (le_split 4 k)) = Some k). rewrite le_combine_split. f_equal. by apply Z.mod_small.
Qed.

Lemma read_iid_range d k : read_iid d = Some k -> is_u32 k.
Proof.
  unfold read_iid, sizeof_iid_t. destruct (read_at d 0 4) as [bs|] eqn:E; [|done]. simpl. intros [= <-].
  apply read_at_Some in E as (_ & _ & Hl & ->). pose proof (le_combine_range (take (Z.to_nat 4) (drop (Z.to_nat 0) d))) as Hr.
  rewrite length_take, length_drop in Hr. replace (Z.of_nat _) with 4 in Hr by lia. done.
Qed.

Lemma db_records_lookup m k :
  db_records m !! k = if decide (k = 0) then None else m !! k ≫= paxos_accepted_from_buffer.
Proof.
  unfold db_records. rewrite lookup_omap. case_decide as E; [subst; by rewrite lookup_delete_eq|].
  by rewrite lookup_delete_ne.
Qed.

Lemma db_records_ok m : db_ok m -> records_ok (db_records m).
Proof.
  intros Hm k b. rewrite db_records_lookup. case_decide as E; [done|].
  destruct (m !! k) as [d|] eqn:Hd; simpl; [|done]. intros Hb.
  apply Hm in Hd. unfold entry_ok in Hd. rewrite decide_False in Hd by done. naive_solver.
Qed.

Lemma db_trim_range m : is_u32 (db_trim m).
Proof.
  unfold db_trim. destruct (m !! 0) as [d|]; [|lia]. destruct (read_iid d) eqn:E; simpl; [|lia].
  by apply read_iid_range in E.
Qed.

Lemma entry_key k d : entry_ok k d -> is_u32 k.
Proof. unfold entry_ok. case_decide; [lia|naive_solver]. Qed.

(** A record is written. *)
Lemma db_abs_put m r t acc buf :
  db_abs m r t -> record_ok acc -> 0 < iid acc -> paxos_accepted_from_buffer buf = Some acc ->
  db_abs (<[iid acc := buf]> m) (<[iid acc := acc]> r) t.
Proof.
  intros (Hm & -> & ->) Hacc Hpos Hbuf. split; [|split].
  - apply map_Forall_insert_2; [|done]. unfold entry_ok. rewrite decide_False by lia.
    split; [apply Hacc|]. eauto.
  - apply map_eq. intros k. rewrite db_records_lookup. destruct (decide (k = iid acc)) as [->|Hne].
    + rewrite !lookup_insert_eq, decide_False by lia. by rewrite <- Hbuf.
    + rewrite !lookup_insert_ne, db_records_lookup by done. done.
  - unfold db_trim. by rewrite lookup_insert_ne by lia.
Qed.

(** The trim instance is written. *)
Lemma db_abs_trim m r t i :
  db_abs m r t -> is_u32 i -> db_abs (<[0 := iid_bytes i]> m) r i.
Proof.
  intros (Hm & -> & ->) Hi. split; [|split].
  - apply map_Forall_insert_2; [|done]. unfold entry_ok. rewrite decide_True by done.
    by rewrite read_iid_bytes.
  - apply map_eq. intros k. rewrite !db_records_lookup. case_decide; [done|].
    by rewrite lookup_insert_ne.
  - unfold db_trim. rewrite lookup_insert_eq, read_iid_bytes by done. done.
Qed.

Section laws.
Context `{LL : LmdbLaws W}.

(** The cursor [c] cannot be moved, for another reason than the end of the keys. *)
Definition cursor_stuck (c : Z) : Prop := exists w w' rv, mdb_cursor_next w c = (w', inl rv) /\ rv <> MDB_NOTFOUND.

(** The loop of [lmdb_storage_trim] ends, and it deletes the keys [1 .. i] unless
    a deletion fails; when the cursor gets stuck, only the keys up to some [j]. *)
Lemma lmdb_trim_loop_total fuel w e d t c m m' lo i :
  mdb_view w e d = Some (DbCursor t c m m' lo) ->
  (forall k, is_Some (m' !! k) -> is_u32 k) -> (forall k, 0 < k <= lo -> m' !! k = None) ->
  (Z.to_nat (i - lo) < fuel)%nat -> 0 <= i ->
  exists w', lmdb_trim_loop fuel w c i = Some w' /\
    ((exists m'' lo' j, mdb_view w' e d = Some (DbCursor t c m m'' lo') /\ 0 <= j <= i /\ (j = i \/ cursor_stuck c) /\
       forall k, m'' !! k = if decide (0 < k <= j) then None else m' !! k) \/
     mdb_view w' e d = Some (DbBrokenCursor t c m)).
Proof.
  intros Hv Hkeys Hlo Hfuel Hi0. revert w m' lo Hv Hkeys Hlo Hfuel. induction fuel as [|fuel IH]; intros w m' lo Hv Hkeys Hlo Hfuel; [lia|]. simpl.
  pose proof (law_cursor_next _ _ _ _ _ _ _ _ Hv) as Hnext.
  destruct (mdb_cursor_next w c) as [w1 [rv|[key data]]] eqn:Ec.
  { destruct Hnext as [Hv1 Hnone]. exists w1. split; [done|]. left. destruct (decide (rv = MDB_NOTFOUND)) as [Hrv|Hrv].
    - exists m', lo, i. split; [done|]. split; [lia|]. split; [by left|].
      intros k. case_decide; [|done]. destruct (decide (k <= lo)); [apply Hlo; lia|apply Hnone; [done|lia]].
    - exists m', lo, 0. split; [done|]. split; [lia|]. split; [right; by exists w, w1, rv|].
      intros k. by rewrite decide_False by lia. }
  destruct Hnext as (k & -> & Hk & Hm & Hskip & Hv1).
  pose proof (Hkeys k ltac:(by rewrite Hm)) as Hu. rewrite read_iid_bytes by done. simpl.
  assert (forall j, 0 < j < k -> m' !! j = None) as Hbelow.
  { intros j Hj. destruct (decide (j <= lo)); [apply Hlo|apply Hskip]; lia. }
  destruct (Z.leb_spec k i) as [Hki|Hki]; [|rewrite andb_false_r; simpl].
  2: { exists w1. split; [done|]. left. exists m', k, i. split; [done|]. split; [lia|]. split; [by left|]. intros j.
       case_decide; [apply Hbelow; lia|done]. }
  destruct (Z.eqb_spec k 0) as [->|Hk0]; simpl.
  - destruct (IH w1 m' 0 Hv1 Hkeys) as (w2 & Hw2 & Hres); [intros; lia|lia|]. eauto.
  - pose proof (law_cursor_del _ _ _ _ _ _ _ _ Hv1 ltac:(by rewrite Hm)) as Hdel.
    destruct (mdb_cursor_del w1 c) as [w2 rv]. destruct Hdel as [[-> Hv2]|[Hrv Hv2]]; simpl.
    2: { destruct (Z.eqb_spec rv 0); [done|]. simpl. eauto. }
    assert (forall j, is_Some (delete k m' !! j) -> is_u32 j) as Hkeys2.
    { intros j. destruct (decide (j = k)) as [->|]; [by rewrite lookup_delete_eq; intros []|].
      rewrite lookup_delete_ne by done. apply Hkeys. }
    assert (forall j, 0 < j <= k -> delete k m' !! j = None) as Hlo2.
    { intros j Hj. destruct (decide (j = k)) as [->|]; [by rewrite lookup_delete_eq|].
      rewrite lookup_delete_ne by done. apply Hbelow; lia. }
    destruct (IH w2 (delete k m') k Hv2 Hkeys2 Hlo2 ltac:(lia)) as (w3 & Hw3 & Hres).
    exists w3. split; [done|]. destruct Hres as [(m'' & lo' & j & Hv3 & Hj & Hwhy & Hm'')|?]; [left|by right].
    exists m'', lo', (Z.max j k). split; [done|]. split; [lia|]. split; [destruct Hwhy; [left; lia|by right]|].
    intros x. rewrite Hm''. destruct (decide (0 < x <= Z.max j k)) as [Hx|Hx].
    + case_decide; [done|]. apply Hlo2. lia.
    + rewrite decide_False by lia. by rewrite lookup_delete_ne by lia.
Qed.

Definition lmdb_rep (h : lmdb_storage * W) (a : store_state) : Prop :=
  let '(s, w) := h in
  match a with
  | Idle r t => txn s = 0 /\ exists m, mdb_view w (env s) (dbi s) = Some (DbIdle m) /\ db_abs m r t
  | InTx r t r' t' => txn s <> 0 /\ exists m m',
      mdb_view w (env s) (dbi s) = Some (DbTx (txn s) m m') /\ db_abs m r t /\ db_abs m' r' t'
  | Broken r t => txn s <> 0 /\ exists m,
      mdb_view w (env s) (dbi s) = Some (DbBroken (txn s) m) /\ db_abs m r t
  end.

Lemma db_abs_ok m r t : db_abs m r t -> records_ok r /\ is_u32 t.
Proof. intros (Hm & -> & ->). split; [by apply db_records_ok|apply db_trim_range]. Qed.

Lemma lmdb_tx_begin_spec s w r t :
  lmdb_rep (s, w) (Idle r t) -> exists h' rv, lmdb_storage_tx_begin s w = Some (h', rv) /\
    (rv = 0 /\ lmdb_rep h' (InTx r t r t) \/ rv <> 0 /\ lmdb_rep h' (Idle r t)).
Proof.
  intros (Htxn & m & Hv & Hm). unfold lmdb_storage_tx_begin. rewrite Htxn. simpl.
  pose proof (law_begin _ _ _ _ Hv) as Hb. destruct (mdb_txn_begin w (env s)) as [w' [rv|t']].
  - exists (s, w'), rv. split; [done|]. right. split; [apply Hb|]. split; [done|]. exists m. by destruct Hb.
  - exists (with_txn s t', w'), 0. split; [done|]. left. split; [done|]. destruct Hb as [Ht' Hv'].
    split; [done|]. exists m, m. done.
Qed.

Lemma lmdb_tx_commit_spec s w r t r' t' :
  lmdb_rep (s, w) (InTx r t r' t') -> exists h' rv, lmdb_storage_tx_commit s w = Some (h', rv) /\
    (rv = 0 /\ lmdb_rep h' (Idle r' t') \/ rv <> 0 /\ lmdb_rep h' (Idle r t)).
Proof.
  intros (Htxn & m & m' & Hv & Hm & Hm'). unfold lmdb_storage_tx_commit.
  destruct (Z.eqb_spec (txn s) 0); [done|]. simpl.
  pose proof (law_commit _ _ _ _ _ _ Hv) as Hc. destruct (mdb_txn_commit w (txn s)) as [w' rv].
  exists (with_txn s 0, w'), rv. split; [done|].
  destruct Hc as [[-> Hv']|[Hrv Hv']]; [left|right]; (split; [done|]; split; [done|]); eauto.
Qed.

Lemma lmdb_commit_broken_spec s w r t :
  lmdb_rep (s, w) (Broken r t) -> exists h' rv, lmdb_storage_tx_commit s w = Some (h', rv) /\
    rv <> 0 /\ lmdb_rep h' (Idle r t).
Proof.
  intros (Htxn & m & Hv & Hm). unfold lmdb_storage_tx_commit. destruct (Z.eqb_spec (txn s) 0); [done|]. simpl.
  pose proof (law_commit_failed _ _ _ _ _ Hv) as Hc. destruct (mdb_txn_commit w (txn s)) as [w' rv].
  exists (with_txn s 0, w'), rv. split; [done|]. destruct Hc as [Hrv Hv']. split; [done|]. split; [done|]. eauto.
Qed.

Lemma lmdb_tx_abort_spec s w r t :
  lmdb_rep (s, w) (Broken r t) -> lmdb_rep (lmdb_storage_tx_abort s w) (Idle r t).
Proof.
  intros (Htxn & m & Hv & Hm). unfold lmdb_storage_tx_abort. destruct (Z.eqb_spec (txn s) 0); [done|]. simpl.
  split; [done|]. exists m. split; [|done]. by apply law_abort.
Qed.

(** The read of the handle [h] for instance [i] fails. *)
Definition read_fails (h : lmdb_storage * W) (i : Z) : Prop :=
  exists rv, mdb_get h.2 (txn h.1) (dbi h.1) (iid_bytes i) = inl rv /\ rv <> MDB_NOTFOUND.

(** A failed read is reported as a missing record. *)
Lemma lmdb_get_spec s w r t r' t' i out :
  lmdb_rep (s, w) (InTx r t r' t') -> 0 < i < 2 ^ 32 ->
  lmdb_storage_get s w i out = Some match r' !! i with Some b => (1, b) | None => (0, out) end \/
  read_fails (s, w) i /\ lmdb_storage_get s w i out = Some (0, out).
Proof.
  intros (Htxn & m & m' & Hv & _ & Hm' & -> & ->) Hi. unfold lmdb_storage_get, read_fails. cbn [fst snd].
  pose proof (law_mdb_get _ _ _ _ _ _ i Hv ltac:(lia)) as Hg.
  destruct (mdb_get w (txn s) (dbi s) (iid_bytes i)) as [rv|data].
  - destruct (decide (rv = MDB_NOTFOUND)) as [Hrv|Hrv]; [left|right; eauto].
    rewrite db_records_lookup, decide_False, (Hg Hrv) by lia. done.
  - left. rewrite db_records_lookup, decide_False, Hg by lia. simpl.
    apply Hm' in Hg. unfold entry_ok in Hg. rewrite decide_False in Hg by lia.
    destruct Hg as (_ & b & -> & _ & Hb). simpl. by rewrite Hb, Z.eqb_refl.
Qed.

Lemma lmdb_get_trim_spec `{!LmdbReads W} s w r t r' t' :
  lmdb_rep (s, w) (InTx r t r' t') -> lmdb_storage_get_trim_instance s w = Some t'.
Proof.
  intros (Htxn & m & m' & Hv & _ & Hm' & -> & ->). unfold lmdb_storage_get_trim_instance, db_trim.
  pose proof (law_mdb_get _ _ _ _ _ _ 0 Hv ltac:(lia)) as Hg.
  destruct (mdb_get w (txn s) (dbi s) (iid_bytes 0)) as [rv|data] eqn:E.
  - pose proof (reads_succeed _ _ _ _ _ _ 0 _ Hv ltac:(lia) E) as ->. by rewrite (Hg eq_refl).
  - rewrite Hg. apply Hm' in Hg as [k Hk]. by rewrite Hk.
Qed.

(** The entries up to [i] are gone. *)
Lemma db_abs_prune m m' r t i :
  db_abs m r t -> 0 <= i -> (forall k, m' !! k = if decide (0 < k <= i) then None else m !! k) ->
  db_abs m' (filter (fun kb => i < kb.1) r) t.
Proof.
  intros (Hm & -> & ->) Hi Hm'. split; [|split].
  - intros k d. rewrite Hm'. case_decide; [done|]. apply Hm.
  - apply map_eq. intros k. rewrite map_lookup_filter, !db_records_lookup, Hm'.
    destruct (decide (k = 0)) as [->|Hk0]; [done|].
    destruct (m !! k) as [d|] eqn:Hd; simpl; [|by case_decide].
    apply Hm, entry_key in Hd. case_decide; simpl.
    + destruct (paxos_accepted_from_buffer d); simpl; [|done]. by rewrite option_guard_False by (simpl; lia).
    + destruct (paxos_accepted_from_buffer d); simpl; [|done]. by rewrite option_guard_True by (simpl; lia).
  - unfold db_trim. rewrite Hm', decide_False by lia. done.
Qed.

(** [None] is the failed [assert] of [lmdb_storage_put_trim_instance]. *)
Lemma lmdb_trim_spec s w r t r' t' i :
  lmdb_rep (s, w) (InTx r t r' t') -> 0 < i < 2 ^ 32 ->
  lmdb_storage_put_trim_instance s w i = None /\ lmdb_storage_trim s w i = None \/
  exists h', lmdb_storage_trim s w i = Some (h', 0) /\
    ((exists j, 0 <= j <= i /\ (j = i \/ exists c, cursor_stuck c) /\
        lmdb_rep h' (InTx r t (filter (fun kb => j < kb.1) r') i)) \/
     lmdb_rep h' (InTx r t r' i) \/ lmdb_rep h' (Broken r t)).
Proof.
  intros (Htxn & m & m' & Hv & Hm & Hm') Hi. unfold lmdb_storage_trim, lmdb_storage_put_trim_instance.
  destruct (Z.eqb_spec i 0); [lia|].
  pose proof (law_mdb_put _ _ _ _ _ _ 0 (iid_bytes i) Hv ltac:(lia)) as Hp.
  destruct (mdb_put w (txn s) (dbi s) (iid_bytes 0) (iid_bytes i)) as [w1 rv].
  destruct Hp as [[-> Hv1]|[Hrv Hv1]]; [|left; by destruct (Z.eqb_spec rv 0)].
  right. simpl.
  pose proof (db_abs_trim _ _ _ i Hm' ltac:(lia)) as Hm1.
  pose proof (law_cursor_open _ _ _ _ _ _ Hv1) as Ho.
  destruct (mdb_cursor_open w1 (txn s) (dbi s)) as [w2 [rv|c]].
  { exists (s, w2). split; [done|]. right; left. split; [done|]. exists m, (<[0:=iid_bytes i]> m'). naive_solver. }
  destruct Ho as [Hc Hv2].
  destruct (lmdb_trim_loop_total (Z.to_nat (i + 2)) _ _ _ _ _ _ _ _ i Hv2) as (w3 & -> & Hres); simpl.
  { intros k [d Hd]. apply (entry_key k d). by apply Hm1. }
  { intros k Hk. lia. }
  { lia. }
  { lia. }
  destruct (Z.eqb_spec c 0); [done|]. simpl. eexists. split; [done|].
  destruct Hres as [(m'' & lo & j & Hv3 & Hj & Hwhy & Hm'')|Hv3].
  - left. exists j. split; [done|]. split; [destruct Hwhy; eauto|]. split; [done|]. exists m, m''.
    split; [by eapply law_cursor_close|]. split; [done|]. eapply db_abs_prune; [done|lia|done].
  - right; right. split; [done|]. exists m. split; [by eapply law_cursor_close_failed|done].
Qed.

Variable config : paxos_config.
Variable addr : paxos_value -> Z.
Hypothesis addr_range : forall v, 0 <= addr v < 2 ^ 64.

Lemma lmdb_put_spec s w r t r' t' acc :
  lmdb_rep (s, w) (InTx r t r' t') -> record_ok acc -> 0 < iid acc ->
  exists h' rv, lmdb_storage_put addr s w acc = Some (h', rv) /\
    (rv = 0 /\ lmdb_rep h' (InTx r t (<[iid acc := acc]> r') t') \/ rv <> 0 /\ lmdb_rep h' (Broken r t)).
Proof.
  intros (Htxn & m & m' & Hv & Hm & Hm') Hacc Hpos. unfold lmdb_storage_put.
  destruct (to_from_buffer addr acc Hacc (addr_range _)) as (buf & -> & Hbuf & _). simpl.
  pose proof (law_mdb_put _ _ _ _ _ _ (iid acc) buf Hv ltac:(apply Hacc)) as Hp.
  destruct (mdb_put w (txn s) (dbi s) (iid_bytes (iid acc)) buf) as [w' rv].
  exists (s, w'), rv. split; [done|]. destruct Hp as [[-> Hv']|[Hrv Hv']]; [left|right]; (split; [done|]; split; [done|]).
  - exists m, (<[iid acc := buf]> m'). split; [done|]. split; [done|]. by apply db_abs_put.
  - eauto.
Qed.

(** The backend satisfies the contract the acceptor relies on. *)
Definition lmdb_storage_tx : @StorageTx (lmdb_storage * W) (storage_init_lmdb config addr).
Proof.
  refine {| rep := lmdb_rep : _ -> _ -> Prop |}.
  - intros [s w] r t (_ & m & _ & Hm). by eapply db_abs_ok.
  - intros [s w] r t r' t' (_ & m & Hv & _ & -> & ->) (_ & m1 & Hv1 & _ & -> & ->). naive_solver.
  - intros [s w] r t r' t' (_ & m & m' & _ & _ & Hm'). by eapply db_abs_ok.
  - intros [s w] r t. apply lmdb_tx_begin_spec.
  - intros [s w] r t r' t'. apply lmdb_tx_commit_spec.
  - intros [s w] r t. apply lmdb_commit_broken_spec.
  - intros [s w] r t. apply lmdb_tx_abort_spec.
  - intros [s w] h' r t r' t' acc rv Hs Hacc Hpos Hput.
    destruct (lmdb_put_spec _ _ _ _ _ _ _ Hs Hacc Hpos) as (h1 & rv1 & Hput1 & Hres).
    simpl in Hput. rewrite Hput1 in Hput. by simplify_eq.
  - intros [s w] h' r t r' t' i rv Hs Hi Htrim. simpl in Htrim.
    destruct (lmdb_trim_spec _ _ _ _ _ _ i Hs Hi) as [[_ E]|(h1 & E & Hres)]; rewrite E in Htrim; [done|].
    simplify_eq. destruct Hres as [(j & Hj & _ & Hrep)|[Hrep|Hrep]]; [left|left|by right].
    + eexists. split; [done|]. split; [apply map_filter_subseteq|]. intros k Hk.
      rewrite map_lookup_filter. destruct (r' !! k); simpl; [|done]. by rewrite option_guard_True by (simpl; lia).
    + by exists r'.
Defined.

Definition lmdb_storage_laws `{!LmdbReads W} : @StorageLaws (lmdb_storage * W) (storage_init_lmdb config addr).
Proof.
  refine {| storage_tx := lmdb_storage_tx |}.
  - intros [s w] r t r' t' i out Hs Hi. destruct (lmdb_get_spec _ _ _ _ _ _ i out Hs Hi) as [?|[(rv & Hrv & Hne) _]]; [done|].
    destruct Hs as (_ & m & m' & Hv & _). by pose proof (reads_succeed _ _ _ _ _ _ i _ Hv ltac:(lia) Hrv).
  - intros [s w] r t r' t'. apply lmdb_get_trim_spec.
Defined.
End laws.

(** ** A library that satisfies the laws

    One environment (handle 1) with one database, and no failures. *)

Definition ref_world : Type := db_state.

(** The least key above [lo]. *)
Fixpoint next_key (lo : Z) (l : list Z) : option Z :=
  match l with
  | [] => None
  | k :: l =>
      match next_key lo l with
      | Some j => Some (if (lo <? k) && (k <? j) then k else j)
      | None => if lo <? k then Some k else None
      end
  end.

Definition map_keys (m : gmap Z (list byte)) : list Z := (map_to_list m).*1.

Lemma next_key_spec lo l :
  match next_key lo l with
  | Some k => k ∈ l /\ lo < k /\ forall j, j ∈ l -> lo < j -> k <= j
  | None => forall j, j ∈ l -> j <= lo
  end.
Proof.
  induction l as [|k l IH]; simpl; [by intros j Hj%elem_of_nil|].
  destruct (next_key lo l) as [j|].
  - destruct IH as (Hj & Hlt & Hmin).
    destruct (Z.ltb_spec lo k), (Z.ltb_spec k j); simpl;
      (split; [set_solver|split; [lia|]]); intros i [->|Hi]%elem_of_cons Hli;
      try lia; specialize (Hmin _ Hi Hli); lia.
  - destruct (Z.ltb_spec lo k).
    + split; [set_solver|]. split; [done|]. intros i [->|Hi]%elem_of_cons Hli; [lia|]. specialize (IH _ Hi). lia.
    + intros i [->|Hi]%elem_of_cons; [lia|]. by apply IH.
Qed.

Lemma elem_of_map_keys m k : k ∈ map_keys m <-> is_Some (m !! k).
Proof.
  unfold map_keys. rewrite list_elem_of_fmap. split.
  - intros ([k' d] & -> & Hin%elem_of_map_to_list). by eexists.
  - intros [d Hd]. exists (k, d). split; [done|]. by apply elem_of_map_to_list.
Qed.

Definition ref_next (w : ref_world) : ref_world * (Z + list byte * list byte) :=
  match w with
  | DbCursor t c m m' lo =>
      match next_key lo (map_keys m') with
      | Some k => (DbCursor t c m m' k, inr (iid_bytes k, default [] (m' !! k)))
      | None => (w, inl MDB_NOTFOUND)
      end
  | w => (w, inl MDB_NOTFOUND)
  end.

#[export] Instance ref_lmdb : Lmdb ref_world := {|
  mdb_env_create w := (w, inr 1);
  mdb_env_set_mapsize w _ _ := (w, 0);
  mdb_env_open w _ _ _ _ := (w, 0);
  mdb_env_close w _ := w;
  mdb_txn_begin w _ := match w with DbIdle m => (DbTx 1 m m, inr 1) | w => (w, inl 22) end;
  mdb_txn_commit w _ := match w with
    | DbTx _ m m' => (DbIdle m', 0) | DbBroken _ m => (DbIdle m, 22) | w => (w, 22) end;
  mdb_txn_abort w _ := match w with DbTx _ m _ | DbBroken _ m => DbIdle m | w => w end;
  mdb_open w _ _ := (w, inr 1);
  mdb_close w _ _ := w;
  mdb_set_compare w _ _ _ := (w, 0);
  mdb_get w _ _ k := match w with
    | DbTx _ _ m' => match read_iid k ≫= (m' !!.) with Some d => inr d | None => inl MDB_NOTFOUND end
    | _ => inl 22 end;
  mdb_put w _ _ k d := match w, read_iid k with
    | DbTx t m m', Some i => (DbTx t m (<[i := d]> m'), 0) | w, _ => (w, 22) end;
  mdb_cursor_open w _ _ := match w with
    | DbTx t m m' => (DbCursor t 1 m m' (-1), inr 1) | w => (w, inl 22) end;
  mdb_cursor_next w _ := ref_next w;
  mdb_cursor_del w _ := match w with
    | DbCursor t c m m' k => (DbCursor t c m (delete k m') k, 0) | w => (w, 22) end;
  mdb_cursor_close w _ := match w with
    | DbCursor t _ m m' _ => DbTx t m m' | DbBrokenCursor t _ m => DbBroken t m | w => w end;
  sys_exists _ _ := true;
  sys_mkdir w _ _ := (w, 0);
  sys_rm w _ := w;
|}.

#[local] Opaque iid_bytes read_iid.

#[export, refine] Instance ref_lmdb_laws : LmdbLaws ref_world := {| mdb_view w _ _ := Some w |}.
Proof.
  - intros w e d m [= ->]. done.
  - intros w e d t m m' [= ->]. simpl. auto.
  - intros w e d t m [= ->]. done.
  - intros w e d t m [= ->]. done.
  - intros w e d t m m' k [= ->] Hk. simpl. rewrite read_iid_bytes by done. simpl. by destruct (m' !! k).
  - intros w e d t m m' k data [= ->] Hk. simpl. rewrite read_iid_bytes by done. auto.
  - intros w e d t m m' [= ->]. simpl. auto.
  - intros w e d t c m m' lo [= ->]. simpl. pose proof (next_key_spec lo (map_keys m')) as Hk.
    destruct (next_key lo (map_keys m')) as [k|].
    + destruct Hk as (Hin & Hlt & Hmin). exists k. split; [done|]. split; [done|].
      apply elem_of_map_keys in Hin as [data Hd]. rewrite Hd. split; [done|]. split; [|done].
      intros j Hj. destruct (m' !! j) as [x|] eqn:Hx; [|done].
      assert (k <= j); [|lia]. apply Hmin; [|lia]. apply elem_of_map_keys. by eexists.
    + split; [done|]. intros _ k Hlt. destruct (m' !! k) as [x|] eqn:Hx; [|done].
      assert (k <= lo); [|lia]. apply Hk, elem_of_map_keys. by eexists.
  - intros w e d t c m m' k [= ->] _. simpl. auto.
  - intros w e d t c m m' lo [= ->]. done.
  - intros w e d t c m [= ->]. done.
Defined.

#[export] Instance ref_lmdb_reads : LmdbReads ref_world.
Proof.
  intros w e d t m m' k rv [= ->] Hk. simpl. rewrite read_iid_bytes by done. simpl. destruct (m' !! k); by intros [= <-].
Qed.

#[local] Transparent iid_bytes read_iid.

(** Trimming the database: unless the trim instance cannot be written (the
    process stops), [lmdb_storage_trim] returns 0 with the trim instance written,
    its loop ends, and in the transaction either exactly the records up to the
    given instance are deleted (up to an earlier one when the cursor gets
    stuck), or none (no cursor could be opened), or a deletion failed and the
    transaction cannot be committed. *)
Theorem lmdb_trim_exact `{LL : LmdbLaws W} s w r t r' t' i :
  lmdb_rep (s, w) (InTx r t r' t') -> 0 < i < 2 ^ 32 ->
  lmdb_storage_put_trim_instance s w i = None \/
  exists h', lmdb_storage_trim s w i = Some (h', 0) /\
    ((exists j, 0 <= j <= i /\ (j = i \/ exists c, cursor_stuck c) /\
        lmdb_rep h' (InTx r t (filter (fun kb => j < kb.1) r') i)) \/
     lmdb_rep h' (InTx r t r' i) \/ lmdb_rep h' (Broken r t)).
Proof.
  intros Hs Hi. destruct (lmdb_trim_spec _ _ _ _ _ _ i Hs Hi) as [[E _]|?]; auto.
Qed.

(** The records 1 and 2 and the trim instance 0, in an open transaction. *)
Definition sample_record (i : Z) : paxos_accepted :=
  {| iid := i; ballot := 11; value_ballot := 11; aid := 1;
     value := {| paxos_value_len := 1; paxos_value_val := Some [x61] |} |}.

Definition sample_entry (i : Z) : list byte :=
  default [] (paxos_accepted_to_buffer (fun _ => 4096) (sample_record i)).

Definition sample_db : gmap Z (list byte) := <[1 := sample_entry 1]> (<[2 := sample_entry 2]> ∅).

Definition sample_handle (t : Z) : lmdb_storage := {| env := 1; txn := t; dbi := 1; lmdb_acceptor_id := 1 |}.

Lemma sample_entry_ok i : 0 < i < 2 ^ 32 -> entry_ok i (sample_entry i).
Proof.
  intros Hi. unfold entry_ok. rewrite decide_False by lia. split; [lia|]. exists (sample_record i).
  assert (record_ok (sample_record i)) as Hok by (unfold record_ok, value_exact; simpl; lia).
  split; [|done]. unfold sample_entry.
  destruct (to_from_buffer (fun _ => 4096) (sample_record i) Hok ltac:(lia)) as (buf & -> & Hbuf & _). done.
Qed.

Lemma sample_db_abs : db_abs sample_db (db_records sample_db) 0.
Proof.
  split; [|done]. apply map_Forall_insert_2; [by apply sample_entry_ok|].
  apply map_Forall_insert_2; [by apply sample_entry_ok|]. apply map_Forall_empty.
Qed.

Lemma lmdb_trim_exact_witness :
  let s := sample_handle 1 in let w := DbTx 1 sample_db sample_db in let r := db_records sample_db in
  lmdb_storage_put_trim_instance s w 1 = None \/
  exists h', lmdb_storage_trim s w 1 = Some (h', 0) /\
    ((exists j, 0 <= j <= 1 /\ (j = 1 \/ exists c, cursor_stuck c) /\
        lmdb_rep h' (InTx r 0 (filter (fun kb => j < kb.1) r) 1)) \/
     lmdb_rep h' (InTx r 0 r 1) \/ lmdb_rep h' (Broken r 0)).
Proof.
  intros s w r. apply (lmdb_trim_exact s w r 0 r 0 1); [|lia].
  split; [done|]. exists sample_db, sample_db. split; [done|]. split; apply sample_db_abs.
Defined.
