(* ===== verification/Acceptor.v ===== *)
(** * The acceptor ([paxos/acceptor.c])

    The acceptor keeps, per instance, a record with the highest ballot it
    promised ([ballot]) and its last vote ([value_ballot], [value]).  Its
    handlers run in a storage transaction and are translated over any backend
    with the [StorageApi]; their specification is proved for every backend that
    satisfies [StorageLaws], failing transactions included. *)

From S2P Require Import Prelude PaxosTypes KhashInterface KhashResize Storage.

Record acceptor (H : Type) := Acceptor {
  acc_id : Z;
  acc_trim_iid : Z;
  store : H;
}.
Arguments Acceptor {H}.
Arguments acc_id {H}.
Arguments acc_trim_iid {H}.
Arguments store {H}.

Definition paxos_accepted_to_promise (acc : paxos_accepted) : paxos_message :=
  PAXOS_PROMISE {| iid := iid acc; ballot := ballot acc; value_ballot := value_ballot acc;
                   aid := aid acc;
                   value := {| paxos_value_len := paxos_value_len (value acc);
                               paxos_value_val := paxos_value_val (value acc) |} |}.

(** The struct [out->u.accepted]; [id] is converted to [uint16_t]. *)
Definition paxos_accept_to_accepted (id : Z) (acc : paxos_accept) : paxos_accepted :=
  let value_size := paxos_value_len (value acc) in
  let val := if 0 <? value_size then Some (value_bytes (value acc)) else None in
  {| iid := iid acc; ballot := ballot acc; value_ballot := ballot acc; aid := u16 id;
     value := {| paxos_value_len := value_size; paxos_value_val := val |} |}.

Definition paxos_accepted_to_preempted (id : Z) (acc : paxos_accepted) : paxos_message :=
  PAXOS_PREEMPTED {| iid := iid acc; ballot := ballot acc; value_ballot := 0; aid := u16 id;
                     value := null_value |}.

Section acceptor.
Context `{StorageApi H}.
Implicit Types (a : acceptor H).

Definition with_store a (s : H) : acceptor H :=
  {| acc_id := acc_id a; acc_trim_iid := acc_trim_iid a; store := s |}.

(** [acceptor_new] on the handle [storage_init] made; [Some None] is the
    result [NULL]. *)
Definition acceptor_new (id : Z) (s : H) : option (option (acceptor H)) :=
  '(s, rv) ← storage_open s;
  if negb (rv =? 0) then Some None else
  '(s, rv) ← storage_tx_begin s;
  if negb (rv =? 0) then Some None else
  trim ← storage_get_trim_instance s;
  '(s, rv) ← storage_tx_commit s;
  if negb (rv =? 0) then Some None else
  Some (Some {| acc_id := id; acc_trim_iid := trim; store := s |}).

Definition acceptor_receive_prepare a (req : paxos_prepare) (out : paxos_message) :
    option (acceptor H * Z * paxos_message) :=
  if iid req <=? acc_trim_iid a then Some (a, 0, out) else
  let acc := zero_body in
  '(s, rv) ← storage_tx_begin (store a);
  if negb (rv =? 0) then Some (with_store a s, 0, out) else
  '(found, acc) ← storage_get_record s (iid req) acc;
  '(s, acc, failed) ←
    (if (found =? 0) || (ballot acc <=? ballot req) then
       let acc := {| iid := iid req; ballot := ballot req; value_ballot := value_ballot acc;
                     aid := u16 (acc_id a); value := value acc |} in
       '(s, rv) ← storage_put_record s acc;
       if negb (rv =? 0) then Some (storage_tx_abort s, acc, true) else Some (s, acc, false)
     else Some (s, acc, false));
  if (failed : bool) then Some (with_store a s, 0, out) else
  '(s, rv) ← storage_tx_commit s;
  if negb (rv =? 0) then Some (with_store a s, 0, out) else
  Some (with_store a s, 1, paxos_accepted_to_promise acc).

Definition acceptor_receive_accept a (req : paxos_accept) (out : paxos_message) :
    option (acceptor H * Z * paxos_message) :=
  if iid req <=? acc_trim_iid a then Some (a, 0, out) else
  let acc := zero_body in
  '(s, rv) ← storage_tx_begin (store a);
  if negb (rv =? 0) then Some (with_store a s, 0, out) else
  '(found, acc) ← storage_get_record s (iid req) acc;
  '(s, out, failed) ←
    (if (found =? 0) || (ballot acc <=? ballot req) then
       let accepted := paxos_accept_to_accepted (acc_id a) req in
       '(s, rv) ← storage_put_record s accepted;
       if negb (rv =? 0) then Some (storage_tx_abort s, PAXOS_ACCEPTED accepted, true)
       else Some (s, PAXOS_ACCEPTED accepted, false)
     else Some (s, paxos_accepted_to_preempted (acc_id a) acc, false));
  if (failed : bool) then Some (with_store a s, 0, out) else
  '(s, rv) ← storage_tx_commit s;
  if negb (rv =? 0) then Some (with_store a s, 0, out) else
  Some (with_store a s, 1, out).

(** The result is the C truth value of [found && len > 0]. *)
Definition acceptor_receive_repeat a (iid : Z) : option (acceptor H * bool * paxos_accepted) :=
  let out := zero_body in
  '(s, rv) ← storage_tx_begin (store a);
  if negb (rv =? 0) then Some (with_store a s, false, out) else
  '(found, out) ← storage_get_record s iid out;
  '(s, rv) ← storage_tx_commit s;
  if negb (rv =? 0) then Some (with_store a s, false, out) else
  Some (with_store a s, negb (found =? 0) && (0 <? paxos_value_len (value out)), out).

Definition acceptor_receive_trim a (trim : paxos_trim) : option (acceptor H * Z) :=
  if trim_iid trim <=? acc_trim_iid a then Some (a, 0) else
  let a := {| acc_id := acc_id a; acc_trim_iid := trim_iid trim; store := store a |} in
  '(s, rv) ← storage_tx_begin (store a);
  if negb (rv =? 0) then Some (with_store a s, 0) else
  '(s, _) ← storage_trim s (trim_iid trim);
  '(s, rv) ← storage_tx_commit s;
  if negb (rv =? 0) then Some (with_store a s, 0) else
  Some (with_store a s, 1).

Definition acceptor_set_current_state a : paxos_acceptor_state :=
  {| state_aid := u32 (acc_id a); state_trim_iid := acc_trim_iid a |}.
End acceptor.

(** ** Specification

    The abstract acceptor is the map from instances to records; [promised] and
    [accept_ok] are its two rules. *)

(** The record after a prepare request. *)
Definition promised (id : Z) (r : gmap Z paxos_accepted) (req : paxos_prepare) : paxos_accepted :=
  match r !! iid req with
  | Some b =>
      if ballot b <=? ballot req
      then {| iid := iid req; ballot := ballot req; value_ballot := value_ballot b; aid := id;
              value := value b |}
      else b
  | None => {| iid := iid req; ballot := ballot req; value_ballot := 0; aid := id;
               value := null_value |}
  end.

(** An accept request is accepted unless a higher ballot was promised. *)
Definition accept_ok (r : gmap Z paxos_accepted) (req : paxos_accept) : bool :=
  match r !! iid req with Some b => ballot b <=? ballot req | None => true end.

Definition accept_reply (id : Z) (r : gmap Z paxos_accepted) (req : paxos_accept) : paxos_message :=
  match r !! iid req with
  | Some b => if ballot b <=? ballot req then PAXOS_ACCEPTED (paxos_accept_to_accepted id req)
              else paxos_accepted_to_preempted id b
  | None => PAXOS_ACCEPTED (paxos_accept_to_accepted id req)
  end.

Definition accept_records (id : Z) (r : gmap Z paxos_accepted) (req : paxos_accept) :
    gmap Z paxos_accepted :=
  if accept_ok r req then <[iid req := paxos_accept_to_accepted id req]> r else r.

(** An operation of the transaction in which a handler writes a record of
    instance [i] fails: its start, the write, or its end. *)
Inductive tx_fails `{StorageApi H} (s : H) (i : Z) : Prop :=
  | begin_fails s' rv : storage_tx_begin s = Some (s', rv) -> rv <> 0 -> tx_fails s i
  | put_fails s1 s2 acc rv : storage_tx_begin s = Some (s1, 0) -> iid acc = i ->
      storage_put_record s1 acc = Some (s2, rv) -> rv <> 0 -> tx_fails s i
  | commit_fails s1 s2 s3 rv : storage_tx_begin s = Some (s1, 0) ->
      s2 = s1 \/ (exists acc, iid acc = i /\ storage_put_record s1 acc = Some (s2, 0)) ->
      storage_tx_commit s2 = Some (s3, rv) -> rv <> 0 -> tx_fails s i.

(** The acceptor [a] durably holds the records [r] and the trim instance [t]. *)
Definition acceptor_ok `{StorageTx H} (a : acceptor H) (r : gmap Z paxos_accepted) (t : Z) : Prop :=
  is_u16 (acc_id a) /\ is_u32 (acc_trim_iid a) /\ t <= acc_trim_iid a /\ rep (store a) (Idle r t).

(** ** Proofs *)

Lemma record_ok_body b : record_ok b -> body_ok b.
Proof. intros (? & ? & ? & ? & ?). do 4 (split; [done|]). by apply value_exact_ok. Qed.

Lemma records_ok_insert r b :
  records_ok r -> record_ok b -> records_ok (<[iid b := b]> r).
Proof.
  intros Hr Hb k b'. destruct (decide (k = iid b)) as [->|Hne].
  - rewrite lookup_insert_eq. by intros [= <-].
  - rewrite lookup_insert_ne by done. apply Hr.
Qed.

Lemma accept_to_accepted_ok id req :
  body_ok req -> is_u16 id -> record_ok (paxos_accept_to_accepted id req).
Proof.
  intros (? & ? & ? & ? & Hv) Hid. unfold record_ok. simpl. rewrite u16_small by done.
  do 4 (split; [done|]). pose proof (length_value_bytes _ Hv). destruct Hv as [Hl Hl'].
  split; simpl; [done|]. destruct (Z.ltb_spec 0 (paxos_value_len (value req))); lia.
Qed.

Lemma promised_ok id r req :
  records_ok r -> body_ok req -> is_u16 id ->
  record_ok (promised id r req) /\ iid (promised id r req) = iid req.
Proof.
  intros Hr (? & ? & ? & ? & ?) Hid. unfold promised.
  destruct (r !! iid req) as [b|] eqn:Hb.
  - destruct (Hr _ _ Hb) as [Hi (Hb1 & Hb2 & Hb3 & Hb4 & Hb5)].
    destruct (ballot b <=? ballot req); unfold record_ok; simpl; (split; [split_and!|]; try done; lia).
  - unfold record_ok, value_exact. simpl. split; [split_and!|]; try done; lia.
Qed.

(** Case analysis on the result of a storage operation of a handler. *)
Ltac storage_step law :=
  let s := fresh "s" in let rv := fresh "rv" in let Heq := fresh "Heq" in
  let Hrep := fresh "Hrep" in let Hrv := fresh "Hrv" in
  destruct law as (s & rv & Heq & [[-> Hrep]|[Hrv Hrep]]);
  rewrite ?Heq; simpl;
  [|apply Z.eqb_neq in Hrv; rewrite ?Hrv; simpl].

Ltac unfold_storage :=
  unfold storage_open, storage_tx_begin, storage_get_record, storage_put_record, storage_tx_commit,
    storage_tx_abort, storage_trim, storage_get_trim_instance in *.

Section transactions.
Context `{ST : StorageTx H}.
Implicit Types (a : acceptor H) (r : gmap Z paxos_accepted) (out : paxos_message).

Lemma acceptor_ok_store a r t s r' t' :
  acceptor_ok a r t -> t' <= acc_trim_iid a -> rep s (Idle r' t') ->
  acceptor_ok (with_store a s) r' t'.
Proof. intros (? & ? & _) Ht Hrep. by do 3 (split; [done|]). Qed.

(** The write of a handler: the record is in the transaction, or the
    transaction is aborted. *)
Lemma put_or_abort {X} (x x' : X) s1 s2 r t r' b failed :
  rep s1 (InTx r t r' t) -> record_ok b -> 0 < iid b ->
  ('(s, rv) ← storage_put_record s1 b;
   if negb (rv =? 0) then Some (storage_tx_abort s, x, true) else Some (s, x, false)) =
    Some (s2, x', failed) ->
  x' = x /\ (failed = true /\ rep s2 (Idle r t) \/
             failed = false /\ rep s2 (InTx r t (<[iid b := b]> r') t)).
Proof.
  intros Hs1 Hb Hi Hrun. unfold_storage. simplify_bind. destruct p as [s rv].
  destruct (law_put _ _ _ _ _ _ _ _ Hs1 Hb Hi E) as [[-> Hs]|[Hrv Hs]]; simpl in Hrun.
  - simplify_eq. auto.
  - apply Z.eqb_neq in Hrv. rewrite Hrv in Hrun. simpl in Hrun. simplify_eq.
    apply law_tx_abort in Hs. auto.
Qed.

(** The commit at the end of a handler. *)
Lemma commit_or_fail a r t s1 r' out msg a' ret out' :
  acceptor_ok a r t -> t <= acc_trim_iid a -> rep s1 (InTx r t r' t) ->
  ('(s, rv) ← storage_tx_commit s1;
   if negb (rv =? 0) then Some (with_store a s, 0, out) else Some (with_store a s, 1, msg)) =
    Some (a', ret, out') ->
  acc_id a' = acc_id a /\ acc_trim_iid a' = acc_trim_iid a /\
  (ret = 0 /\ out' = out /\ acceptor_ok a' r t \/ ret = 1 /\ out' = msg /\ acceptor_ok a' r' t).
Proof.
  intros Hok Ht Hs1. unfold_storage.
  storage_step (law_tx_commit _ _ _ _ _ Hs1); intros; simplify_eq; eauto 10 using acceptor_ok_store.
Qed.

Lemma to_promise_eq b : paxos_accepted_to_promise b = PAXOS_PROMISE b.
Proof. by destruct b as [? ? ? ? []]. Qed.

(** The handler of instance [i] reads the records [q]: those of the store, or
    these without the one it asks for. *)
Definition reads_as (s : H) (i : Z) r (q : gmap Z paxos_accepted) : Prop :=
  (q = r \/ q = delete i r) /\
  forall s1, storage_tx_begin s = Some (s1, 0) ->
    storage_get_record s1 i zero_body = Some match q !! i with Some b => (1, b) | None => (0, zero_body) end.

Lemma reads_as_ok s i r q : reads_as s i r q -> records_ok r -> records_ok q.
Proof. intros [[->| ->] _] Hr; [done|]. intros k b [_ Hb]%lookup_delete_Some. by apply Hr. Qed.

Lemma reads_as_Some s i r q b : reads_as s i r q -> q !! i = Some b -> r !! i = Some b.
Proof. intros [[->| ->] _]; [done|]. by intros [? _]%lookup_delete_Some. Qed.

Lemma reads_as_insert s i r q x : reads_as s i r q -> <[i := x]> q = <[i := x]> r.
Proof. intros [[->| ->] _]; [done|apply insert_delete_eq]. Qed.

(** The handler of prepare requests. *)
Lemma receive_prepare_reads a r q t req out a' ret out' :
  acceptor_ok a r t -> body_ok req -> reads_as (store a) (iid req) r q ->
  acceptor_receive_prepare a req out = Some (a', ret, out') ->
  acc_id a' = acc_id a /\ acc_trim_iid a' = acc_trim_iid a /\
  (ret = 0 /\ out' = out /\ acceptor_ok a' r t \/
   ret = 1 /\ acc_trim_iid a < iid req /\
     out' = PAXOS_PROMISE (promised (acc_id a) q req) /\
     acceptor_ok a' (<[iid req := promised (acc_id a) q req]> r) t).
Proof.
  intros Hok Hreq Hq. pose proof Hok as (Hid & Htrim & Ht & Hrep0).
  destruct (rep_idle_ok _ _ _ Hrep0) as [Hr _]. pose proof Hreq as (Hi & _).
  pose proof (promised_ok (acc_id a) q req (reads_as_ok _ _ _ _ Hq Hr) Hreq Hid) as [Hpok Hpi].
  unfold acceptor_receive_prepare.
  destruct (Z.leb_spec (iid req) (acc_trim_iid a)) as [Hle|Hlt]; [intros; simplify_eq; auto 10|].
  pose proof (proj2 Hq) as Hread. unfold storage_tx_begin, storage_get_record in *.
  storage_step (law_tx_begin _ _ _ Hrep0); [|intros; simplify_eq; eauto 10 using acceptor_ok_store].
  rewrite (Hread _ Heq). simpl.
  destruct (match q !! iid req with Some b => (1, b) | None => (0, zero_body) end)
    as [found acc0] eqn:Hget.
  intros Hrun. simplify_bind. destruct p as [[s1 acc] failed].
  assert (acc = promised (acc_id a) q req /\ (failed = true /\ rep s1 (Idle r t) \/
    failed = false /\ rep s1 (InTx r t (<[iid req := promised (acc_id a) q req]> r) t))) as [-> Hs1].
  { clear Hrun. rewrite <- Hpi at 1. revert Hpok Hpi E. unfold promised.
    destruct (q !! iid req) as [b|] eqn:Hb; [pose proof (reads_as_Some _ _ _ _ _ Hq Hb) as Hb'|]; simplify_eq; simpl.
    - destruct (ballot _ <=? ballot req) eqn:Hbal; simpl; intros Hpok Hpi E.
      + rewrite u16_small in E by done. eapply put_or_abort in E; [exact E|done|done|simpl; lia].
      + simplify_eq. rewrite Hpi, insert_id by done. auto.
    - intros Hpok _ E. rewrite u16_small in E by done. eapply put_or_abort in E; [exact E|done|done|simpl; lia]. }
  rewrite to_promise_eq in Hrun. destruct Hs1 as [[-> Hs1]|[-> Hs1]].
  - simplify_eq. eauto 10 using acceptor_ok_store.
  - destruct (commit_or_fail _ _ _ _ _ _ _ _ _ _ Hok Ht Hs1 Hrun) as (? & ? & ?). naive_solver.
Qed.

(** The records after an accept request that was decided on [q]. *)
Lemma accept_records_reads s id r q req :
  reads_as s (iid req) r q ->
  accept_records id q req = if accept_ok q req then <[iid req := paxos_accept_to_accepted id req]> r else r.
Proof.
  intros Hq. unfold accept_records. destruct (accept_ok q req) eqn:E; [by eapply reads_as_insert|].
  destruct Hq as [[->| ->] _]; [done|]. unfold accept_ok in E. by rewrite lookup_delete_eq in E.
Qed.

(** The handler of accept requests. *)
Lemma receive_accept_reads a r q t req out a' ret out' :
  acceptor_ok a r t -> body_ok req -> reads_as (store a) (iid req) r q ->
  acceptor_receive_accept a req out = Some (a', ret, out') ->
  acc_id a' = acc_id a /\ acc_trim_iid a' = acc_trim_iid a /\
  (ret = 0 /\ acceptor_ok a' r t \/
   ret = 1 /\ acc_trim_iid a < iid req /\ out' = accept_reply (acc_id a) q req /\
     acceptor_ok a' (accept_records (acc_id a) q req) t).
Proof.
  intros Hok Hreq Hq. pose proof Hok as (Hid & Htrim & Ht & Hrep0). pose proof Hreq as (Hi & _).
  pose proof (accept_to_accepted_ok (acc_id a) req Hreq Hid) as Hpok.
  unfold acceptor_receive_accept.
  destruct (Z.leb_spec (iid req) (acc_trim_iid a)) as [Hle|Hlt]; [intros; simplify_eq; auto 10|].
  pose proof (proj2 Hq) as Hread. unfold storage_tx_begin, storage_get_record in *.
  storage_step (law_tx_begin _ _ _ Hrep0); [|intros; simplify_eq; eauto 10 using acceptor_ok_store].
  rewrite (Hread _ Heq). simpl.
  destruct (match q !! iid req with Some b => (1, b) | None => (0, zero_body) end)
    as [found acc0] eqn:Hget.
  intros Hrun. simplify_bind. destruct p as [[s1 out1] failed].
  assert (out1 = accept_reply (acc_id a) q req /\ (failed = true /\ rep s1 (Idle r t) \/
    failed = false /\ rep s1 (InTx r t (accept_records (acc_id a) q req) t))) as [-> Hs1].
  { clear Hrun. revert E. rewrite (accept_records_reads _ _ _ _ _ Hq). unfold accept_reply, accept_ok.
    destruct (q !! iid req) as [b|] eqn:Hb; simplify_eq; simpl.
    - destruct (ballot _ <=? ballot req) eqn:Hbal; simpl; intros E.
      + eapply put_or_abort in E; [exact E|done|done|simpl; lia].
      + simplify_eq. auto.
    - intros E. eapply put_or_abort in E; [exact E|done|done|simpl; lia]. }
  destruct Hs1 as [[-> Hs1]|[-> Hs1]].
  - simplify_eq. eauto 10 using acceptor_ok_store.
  - destruct (commit_or_fail _ _ _ _ _ _ _ _ _ _ Hok Ht Hs1 Hrun) as (? & ? & ?). naive_solver.
Qed.
End transactions.

Section acceptor_spec.
Context `{SL : StorageLaws H}.
Implicit Types (a : acceptor H) (r : gmap Z paxos_accepted) (out : paxos_message).

Lemma reads_as_stored a r t req : acceptor_ok a r t -> body_ok req -> acc_trim_iid a < iid req -> reads_as (store a) (iid req) r r.
Proof.
  intros (_ & Htrim & _ & Hrep) (Hi & _) Hlt. split; [by left|]. intros s1 Hb. unfold storage_tx_begin, storage_get_record in *.
  destruct (law_tx_begin _ _ _ Hrep) as (s & rv & Heq & [[-> Hs]|[Hrv _]]); [|congruence].
  assert (s1 = s) as -> by congruence. apply (law_get _ _ _ _ _ _ _ Hs). lia.
Qed.

Lemma receive_prepare_spec a r t req out a' ret out' :
  acceptor_ok a r t -> body_ok req ->
  acceptor_receive_prepare a req out = Some (a', ret, out') ->
  acc_id a' = acc_id a /\ acc_trim_iid a' = acc_trim_iid a /\
  (ret = 0 /\ out' = out /\ acceptor_ok a' r t \/
   ret = 1 /\ acc_trim_iid a < iid req /\
     out' = PAXOS_PROMISE (promised (acc_id a) r req) /\
     acceptor_ok a' (<[iid req := promised (acc_id a) r req]> r) t).
Proof.
  intros Hok Hreq Hrun. destruct (Z.leb_spec (iid req) (acc_trim_iid a)) as [Hle|Hlt].
  - unfold acceptor_receive_prepare in Hrun. rewrite (proj2 (Z.leb_le _ _) Hle) in Hrun. simplify_eq. auto 10.
  - eapply receive_prepare_reads; eauto using reads_as_stored.
Qed.

Lemma receive_accept_spec a r t req out a' ret out' :
  acceptor_ok a r t -> body_ok req ->
  acceptor_receive_accept a req out = Some (a', ret, out') ->
  acc_id a' = acc_id a /\ acc_trim_iid a' = acc_trim_iid a /\
  (ret = 0 /\ acceptor_ok a' r t \/
   ret = 1 /\ acc_trim_iid a < iid req /\ out' = accept_reply (acc_id a) r req /\
     acceptor_ok a' (accept_records (acc_id a) r req) t).
Proof.
  intros Hok Hreq Hrun. destruct (Z.leb_spec (iid req) (acc_trim_iid a)) as [Hle|Hlt].
  - unfold acceptor_receive_accept in Hrun. rewrite (proj2 (Z.leb_le _ _) Hle) in Hrun. simplify_eq. auto 10.
  - eapply receive_accept_reads; eauto using reads_as_stored.
Qed.

(** The handler of repeat requests changes nothing. *)
Lemma receive_repeat_spec a r t i a' b (out : paxos_accepted) :
  acceptor_ok a r t -> 0 < i < 2 ^ 32 ->
  acceptor_receive_repeat a i = Some (a', b, out) ->
  acc_id a' = acc_id a /\ acc_trim_iid a' = acc_trim_iid a /\ acceptor_ok a' r t /\
  (b = true -> r !! i = Some out /\ 0 < paxos_value_len (value out)).
Proof.
  intros Hok Hi. pose proof Hok as (Hid & Htrim & Ht & Hrep0).
  unfold acceptor_receive_repeat. unfold_storage.
  storage_step (law_tx_begin _ _ _ Hrep0); [|intros; simplify_eq;
    do 2 (split; [done|]); split; [eauto using acceptor_ok_store|done]].
  rewrite (law_get _ _ _ _ _ i zero_body Hrep) by lia. simpl.
  destruct (match r !! i with Some b => (1, b) | None => (0, zero_body) end)
    as [found o] eqn:Hget.
  storage_step (law_tx_commit _ _ _ _ _ Hrep); intros; simplify_eq;
    [|do 2 (split; [done|]); split; [eauto using acceptor_ok_store|done]].
  do 2 (split; [done|]). split; [eauto using acceptor_ok_store|].
  intros [Hf Hl%Z.ltb_lt]%andb_true_iff.
  destruct (r !! i); simplify_eq; done.
Qed.

(** The handler of trim messages keeps the records of later instances. *)
Lemma receive_trim_spec a r t tr a' ret :
  acceptor_ok a r t -> is_u32 (trim_iid tr) ->
  acceptor_receive_trim a tr = Some (a', ret) ->
  acc_id a' = acc_id a /\ acc_trim_iid a' = Z.max (acc_trim_iid a) (trim_iid tr) /\
  exists r' t', acceptor_ok a' r' t' /\ t <= t' /\ r' ⊆ r /\ forall k, t' < k -> r' !! k = r !! k.
Proof.
  intros Hok Htr. pose proof Hok as (Hid & Htrim & Ht & Hrep0).
  unfold acceptor_receive_trim. unfold_storage.
  destruct (Z.leb_spec (trim_iid tr) (acc_trim_iid a)) as [Hle|Hlt].
  { intros. simplify_eq. rewrite Z.max_l by lia. do 2 (split; [done|]). by exists r, t. }
  set (a1 := {| acc_id := acc_id a; acc_trim_iid := trim_iid tr; store := store a |}).
  assert (acceptor_ok a1 r t) as Hok1.
  { split; [done|]. split; [done|]. split; [simpl; lia|done]. }
  change (store a1) with (store a). storage_step (law_tx_begin _ _ _ Hrep0); intros Hrun.
  - simplify_bind. destruct p as [s1 rv1].
    destruct (law_trim _ _ _ _ _ _ (trim_iid tr) _ Hrep ltac:(lia) E) as [(r'' & Hrep1 & Hsub & Hlater)|Hrep1].
    2: { destruct (law_commit_broken _ _ _ Hrep1) as (s2 & rv2 & Hc & Hrv2 & Hrep2).
      rewrite Hc in Hrun. simpl in Hrun. destruct (Z.eqb_spec rv2 0); [done|]. simpl in Hrun. simplify_eq. simpl.
      split; [done|]. split; [lia|]. exists r, t. split; [|done].
      eapply (acceptor_ok_store a1); [done| |done]; simpl; lia. }
    revert Hrun. storage_step (law_tx_commit _ _ _ _ _ Hrep1); intros; simplify_eq; simpl;
      (split; [done|]; split; [lia|]).
    + exists r'', (trim_iid tr). split; [|split; [lia|done]]. eapply (acceptor_ok_store a1); [done| |done]; simpl; lia.
    + exists r, t. split; [|done]. eapply (acceptor_ok_store a1); [done| |done]; simpl; lia.
  - simplify_eq. simpl. split; [done|]. split; [lia|]. exists r, t. split; [|done].
    eapply (acceptor_ok_store a1); [done| |done]; simpl; lia.
Qed.

(** Starting on a store: the acceptor holds the durable records. *)
Lemma acceptor_new_spec id s r t a :
  (exists s', api_open s = Some (s', 0) /\ rep s' (Idle r t)) -> is_u16 id ->
  acceptor_new id s = Some (Some a) ->
  acc_id a = id /\ acc_trim_iid a = t /\ acceptor_ok a r t.
Proof.
  intros (s' & Hopen & Hrep0) Hid. destruct (rep_idle_ok _ _ _ Hrep0) as [Hr Ht].
  unfold acceptor_new. unfold_storage. rewrite Hopen. simpl.
  storage_step (law_tx_begin _ _ _ Hrep0); [|done]. rewrite (law_get_trim _ _ _ _ _ Hrep). simpl.
  storage_step (law_tx_commit _ _ _ _ _ Hrep); [|done]. intros. simplify_eq. simpl.
  split; [done|]. split; [done|]. by do 3 (split; [done|]).
Qed.
End acceptor_spec.

(** ** The acceptor over the in-memory store *)

Section mem_acceptor.
Context `{KH : KHash T}.
Implicit Types (a : acceptor (mem_storage T)) (r : gmap Z paxos_accepted).

(** There is room for one more record. *)
Definition mem_room a : Prop := kh_size (mem_records (store a)) < KH_LIMIT.

Lemma mem_prepare_runs a r t req out :
  acceptor_ok a r t -> body_ok req -> mem_room a ->
  exists a' out', acceptor_receive_prepare a req out =
    Some (a', if iid req <=? acc_trim_iid a then 0 else 1, out').
Proof.
  intros Hok Hreq Hroom. pose proof Hok as (Hid & Htrim & Ht & Hrep).
  pose proof Hrep as (Hwf & _ & _ & Hr & _). pose proof Hreq as (Hi & _).
  pose proof (promised_ok (acc_id a) r req Hr Hreq Hid) as [Hpok _].
  unfold acceptor_receive_prepare, storage_get_record, storage_put_record. simpl.
  destruct (Z.leb_spec (iid req) (acc_trim_iid a)); [by eauto|].
  rewrite (mem_get_spec _ _ _ (iid req) zero_body Hrep Hi). simpl.
  destruct (mem_put_total (store a) _ Hwf Hpok Hroom) as [[s' rv] Hput].
  destruct (mem_put_spec _ _ _ _ _ _ Hrep Hpok Hput) as [-> _].
  unfold promised in Hput. destruct (r !! iid req) as [b|] eqn:Hb; simpl.
  - destruct (ballot b <=? ballot req); simpl; [|by eauto].
    rewrite u16_small by done. rewrite Hput. simpl. by eauto.
  - rewrite u16_small by done. simpl in *. rewrite Hput. simpl. by eauto.
Qed.

Lemma mem_accept_runs a r t req out :
  acceptor_ok a r t -> body_ok req -> mem_room a ->
  exists a' out', acceptor_receive_accept a req out =
    Some (a', if iid req <=? acc_trim_iid a then 0 else 1, out').
Proof.
  intros Hok Hreq Hroom. pose proof Hok as (Hid & Htrim & Ht & Hrep).
  pose proof Hrep as (Hwf & _ & _ & Hr & _). pose proof Hreq as (Hi & _).
  pose proof (accept_to_accepted_ok (acc_id a) req Hreq Hid) as Hpok.
  unfold acceptor_receive_accept, storage_get_record, storage_put_record. simpl.
  destruct (Z.leb_spec (iid req) (acc_trim_iid a)); [by eauto|].
  rewrite (mem_get_spec _ _ _ (iid req) zero_body Hrep Hi). simpl.
  destruct (mem_put_total (store a) _ Hwf Hpok Hroom) as [[s' rv] Hput].
  destruct (mem_put_spec _ _ _ _ _ _ Hrep Hpok Hput) as [-> _].
  destruct (r !! iid req) as [b|] eqn:Hb; simpl; rewrite ?Hput; simpl; [|by eauto].
  destruct (ballot b <=? ballot req); simpl; rewrite ?Hput; simpl; by eauto.
Qed.

Lemma mem_acceptor_new id : is_u16 id ->
  acceptor_ok {| acc_id := id; acc_trim_iid := 0; store := mem_storage_new (T:=T) |} ∅ 0.
Proof.
  intros Hid. do 3 (split; [done|]). apply mem_rep_new.
Qed.
End mem_acceptor.

(** A handler reports failure for a trimmed instance or when its transaction
    fails, and for no other reason. *)
Lemma commit_fails_why `{StorageApi H} (a a' : acceptor H) (i : Z) s1 s2 (out1 out2 out' : paxos_message) :
  storage_tx_begin (store a) = Some (s1, 0) ->
  s2 = s1 \/ (exists acc, iid acc = i /\ storage_put_record s1 acc = Some (s2, 0)) ->
  ('(s, rv) ← storage_tx_commit s2;
   if negb (rv =? 0) then Some (with_store a s, 0, out1) else Some (with_store a s, 1, out2)) = Some (a', 0, out') ->
  tx_fails (store a) i.
Proof.
  intros Hb Hs. destruct (storage_tx_commit s2) as [[s3 rv]|] eqn:Hc; simpl; [|done].
  destruct (Z.eqb_spec rv 0); simpl; [done|]. intros _. by eapply commit_fails.
Qed.

Lemma prepare_fails_why `{StorageApi H} (a : acceptor H) req out a' out' :
  acceptor_receive_prepare a req out = Some (a', 0, out') ->
  iid req <= acc_trim_iid a \/ tx_fails (store a) (iid req).
Proof.
  unfold acceptor_receive_prepare. destruct (Z.leb_spec (iid req) (acc_trim_iid a)); [by left|].
  destruct (storage_tx_begin (store a)) as [[s rv]|] eqn:Hb; simpl; [|done].
  destruct (Z.eqb_spec rv 0) as [->|Hrv]; simpl; [|intros; right; by eapply begin_fails].
  destruct (storage_get_record s (iid req) zero_body) as [[found acc]|]; simpl; [|done]. right.
  destruct ((found =? 0) || (ballot acc <=? ballot req)); simpl in *;
    [|by eapply commit_fails_why; eauto].
  destruct (storage_put_record s _) as [[s2 rv]|] eqn:Hp; simpl in *; [|done].
  destruct (Z.eqb_spec rv 0) as [->|Hrv]; simpl in *; [|by eapply put_fails; [exact Hb| |exact Hp|]].
  eapply commit_fails_why; [done| |done]. right. eexists. by split; [|exact Hp].
Qed.

Lemma accept_fails_why `{StorageApi H} (a : acceptor H) req out a' out' :
  acceptor_receive_accept a req out = Some (a', 0, out') ->
  iid req <= acc_trim_iid a \/ tx_fails (store a) (iid req).
Proof.
  unfold acceptor_receive_accept. destruct (Z.leb_spec (iid req) (acc_trim_iid a)); [by left|].
  destruct (storage_tx_begin (store a)) as [[s rv]|] eqn:Hb; simpl; [|done].
  destruct (Z.eqb_spec rv 0) as [->|Hrv]; simpl; [|intros; right; by eapply begin_fails].
  destruct (storage_get_record s (iid req) zero_body) as [[found acc]|]; simpl; [|done]. right.
  destruct ((found =? 0) || (ballot acc <=? ballot req)); simpl in *;
    [|by eapply commit_fails_why; eauto].
  destruct (storage_put_record s _) as [[s2 rv]|] eqn:Hp; simpl in *; [|done].
  destruct (Z.eqb_spec rv 0) as [->|Hrv]; simpl in *; [|by eapply put_fails; [exact Hb| |exact Hp|]].
  eapply commit_fails_why; [done| |done]. right. eexists. by split; [|exact Hp].
Qed.

(** ** Properties *)

(** C5. A prepare request, over any storage backend that keeps its contract
    ([StorageLaws]: calls may fail, but not reads).
    Either the handler reports failure, which happens only for a trimmed instance
    or when its transaction fails, and the durable records are unchanged; or it answers with
    a promise for the instance whose ballot is the maximum of the requested and
    the promised one and which carries the acceptor's last vote unchanged, and
    exactly this promise is durable. *)
Theorem acceptor_prepare_promises `{SL : StorageLaws H} (a : acceptor H) r t req out a' ret out' :
  acceptor_ok a r t -> body_ok req ->
  acceptor_receive_prepare a req out = Some (a', ret, out') ->
  ret = 0 /\ out' = out /\ acceptor_ok a' r t /\ (iid req <= acc_trim_iid a \/ tx_fails (store a) (iid req)) \/
  ret = 1 /\ acc_trim_iid a < iid req /\ exists p,
    out' = PAXOS_PROMISE p /\ acceptor_ok a' (<[iid req := p]> r) t /\
    iid p = iid req /\
    match r !! iid req with
    | Some b => ballot p = Z.max (ballot b) (ballot req) /\
                value_ballot p = value_ballot b /\ value p = value b
    | None => ballot p = ballot req /\ value_ballot p = 0 /\ value p = null_value
    end.
Proof.
  intros Hok Hreq Hrun. pose proof Hok as (Hid & _ & _ & Hrep).
  destruct (rep_idle_ok _ _ _ Hrep) as [Hr _].
  destruct (receive_prepare_spec _ _ _ _ _ _ _ _ Hok Hreq Hrun) as (_ & _ & [(-> & -> & Hok')|(-> & Hlt & -> & Hok')]);
    [left; by eauto using prepare_fails_why|].
  right. split; [done|]. split; [done|]. eexists. split; [done|]. split; [done|].
  split; [by apply promised_ok|]. unfold promised.
  destruct (r !! iid req) as [b|]; [|done].
  destruct (Z.leb_spec (ballot b) (ballot req)); simpl; split_and!; try done; lia.
Qed.

Lemma acceptor_prepare_promises_witness :
  let a := {| acc_id := 2; acc_trim_iid := 0; store := mem_storage_new (T:=Khash.khash) |} in
  let req := {| iid := 1; ballot := 12; value_ballot := 0; aid := 0; value := null_value |} in
  let r := ∅ : gmap Z paxos_accepted in
  exists a' ret out', acceptor_receive_prepare a req (PAXOS_PREPARE req) = Some (a', ret, out') /\
  (ret = 0 /\ out' = PAXOS_PREPARE req /\ acceptor_ok a' r 0 /\ (iid req <= acc_trim_iid a \/ tx_fails (store a) (iid req)) \/
   ret = 1 /\ acc_trim_iid a < iid req /\ exists p,
    out' = PAXOS_PROMISE p /\ acceptor_ok a' (<[iid req := p]> r) 0 /\
    iid p = iid req /\
    match r !! iid req with
    | Some b => ballot p = Z.max (ballot b) (ballot req) /\
                value_ballot p = value_ballot b /\ value p = value b
    | None => ballot p = ballot req /\ value_ballot p = 0 /\ value p = null_value
    end).
Proof.
  intros a req r. eexists _, _, _. split; [reflexivity|].
  eapply acceptor_prepare_promises; [by apply mem_acceptor_new| |reflexivity].
  unfold body_ok, value_ok. simpl. lia.
Defined.

(** C6. An accept request, over any backend whose reads do not fail.  Either the handler reports
    failure, which happens only for a trimmed instance or when its transaction
    fails, and the durable records are unchanged; or it answers Accepted, the
    acceptor had promised no higher ballot, and its durable vote is now the
    request's ballot and value; or it answers Preempted with the higher ballot
    it promised, and the records are unchanged. *)
Theorem acceptor_accept_votes `{SL : StorageLaws H} (a : acceptor H) r t req out a' ret out' :
  acceptor_ok a r t -> body_ok req ->
  acceptor_receive_accept a req out = Some (a', ret, out') ->
  ret = 0 /\ acceptor_ok a' r t /\ (iid req <= acc_trim_iid a \/ tx_fails (store a) (iid req)) \/
  ret = 1 /\ acc_trim_iid a < iid req /\
   ((exists acc, out' = PAXOS_ACCEPTED acc /\ acceptor_ok a' (<[iid req := acc]> r) t /\
       (forall b, r !! iid req = Some b -> ballot b <= ballot req) /\
       iid acc = iid req /\ ballot acc = ballot req /\ value_ballot acc = ballot req /\
       aid acc = acc_id a /\ value_bytes (value acc) = value_bytes (value req)) \/
    (exists p b, out' = PAXOS_PREEMPTED p /\ acceptor_ok a' r t /\
       r !! iid req = Some b /\ ballot req < ballot b /\
       iid p = iid req /\ ballot p = ballot b /\ aid p = acc_id a)).
Proof.
  intros Hok Hreq Hrun. pose proof Hok as (Hid & _ & _ & Hrep).
  destruct (rep_idle_ok _ _ _ Hrep) as [Hr _].
  destruct (receive_accept_spec _ _ _ _ _ _ _ _ Hok Hreq Hrun) as (_ & _ & [[-> Hok']|(-> & Hlt & -> & Hok')]);
    [left; by eauto using accept_fails_why|].
  right. split; [done|]. split; [done|].
  assert (value_bytes (value (paxos_accept_to_accepted (acc_id a) req)) = value_bytes (value req)) as Hv.
  { unfold value_bytes at 1. simpl. destruct (Z.ltb_spec 0 (paxos_value_len (value req))); simpl.
    - apply take_ge. pose proof (length_value_bytes (value req) ltac:(apply Hreq)). lia.
    - unfold value_bytes. by rewrite !Z2Nat.nonpos by lia. }
  unfold accept_reply, accept_records, accept_ok in *.
  destruct (r !! iid req) as [b|] eqn:Hb;
    [destruct (Z.leb_spec (ballot b) (ballot req))|].
  - left. eexists. split; [done|]. split; [done|]. split; [naive_solver|]. simpl.
    rewrite u16_small by done. done.
  - right. eexists _, b. split; [done|]. simpl. rewrite u16_small by done.
    destruct (Hr _ _ Hb) as [? _]. done.
  - left. eexists. split; [done|]. split; [done|]. split; [naive_solver|]. simpl.
    rewrite u16_small by done. done.
Qed.

Lemma acceptor_accept_votes_witness :
  let a := {| acc_id := 2; acc_trim_iid := 0; store := mem_storage_new (T:=Khash.khash) |} in
  let req := {| iid := 1; ballot := 12; value_ballot := 0; aid := 0;
                value := {| paxos_value_len := 1; paxos_value_val := Some [x61] |} |} in
  let r := ∅ : gmap Z paxos_accepted in
  exists a' ret out', acceptor_receive_accept a req (PAXOS_ACCEPT req) = Some (a', ret, out') /\
  (ret = 0 /\ acceptor_ok a' r 0 /\ (iid req <= acc_trim_iid a \/ tx_fails (store a) (iid req)) \/
   ret = 1 /\ acc_trim_iid a < iid req /\
   ((exists acc, out' = PAXOS_ACCEPTED acc /\ acceptor_ok a' (<[iid req := acc]> r) 0 /\
       (forall b, r !! iid req = Some b -> ballot b <= ballot req) /\
       iid acc = iid req /\ ballot acc = ballot req /\ value_ballot acc = ballot req /\
       aid acc = acc_id a /\ value_bytes (value acc) = value_bytes (value req)) \/
    (exists p b, out' = PAXOS_PREEMPTED p /\ acceptor_ok a' r 0 /\
       r !! iid req = Some b /\ ballot req < ballot b /\
       iid p = iid req /\ ballot p = ballot b /\ aid p = acc_id a))).
Proof.
  intros a req r. eexists _, _, _. split; [reflexivity|].
  eapply (acceptor_accept_votes a r 0 req (PAXOS_ACCEPT req)); [by apply mem_acceptor_new| |reflexivity].
  unfold body_ok, value_ok. simpl. lia.
Defined.

(** Over the in-memory store with room for one more record the two
    handlers always return, and report failure exactly for the instances that
    are trimmed. *)
Theorem acceptor_mem_total `{KH : KHash T} (a : acceptor (mem_storage T)) r t req out :
  acceptor_ok a r t -> body_ok req -> mem_room a ->
  let ret := if iid req <=? acc_trim_iid a then 0 else 1 in
  (exists a' out', acceptor_receive_prepare a req out = Some (a', ret, out')) /\
  (exists a' out', acceptor_receive_accept a req out = Some (a', ret, out')).
Proof. intros. split; [by eapply mem_prepare_runs|by eapply mem_accept_runs]. Qed.

Lemma acceptor_mem_total_witness :
  let a := {| acc_id := 2; acc_trim_iid := 4; store := mem_storage_new (T:=Khash.khash) |} in
  let req := {| iid := 4; ballot := 12; value_ballot := 0; aid := 0; value := null_value |} in
  let ret := if iid req <=? acc_trim_iid a then 0 else 1 in
  (exists a' out', acceptor_receive_prepare a req (PAXOS_PREPARE req) = Some (a', ret, out')) /\
  (exists a' out', acceptor_receive_accept a req (PAXOS_PREPARE req) = Some (a', ret, out')).
Proof.
  intros a req. apply (acceptor_mem_total a ∅ 0); [|unfold body_ok, value_ok; simpl; lia|done].
  do 3 (split; [done|]). apply mem_rep_new.
Defined.

(** Trimming keeps every record of an instance after the trim point, adds
    none, and never moves the trim point back, whatever storage operation
    fails. *)
Theorem acceptor_trim_keeps_later `{SL : StorageLaws H} (a : acceptor H) r t tr a' ret :
  acceptor_ok a r t -> is_u32 (trim_iid tr) ->
  acceptor_receive_trim a tr = Some (a', ret) ->
  acc_trim_iid a' = Z.max (acc_trim_iid a) (trim_iid tr) /\
  exists r' t', acceptor_ok a' r' t' /\ t <= t' /\ r' ⊆ r /\ forall k, t' < k -> r' !! k = r !! k.
Proof.
  intros Hok Htr Hrun. by destruct (receive_trim_spec _ _ _ _ _ _ Hok Htr Hrun) as (_ & ? & ?).
Qed.

Lemma acceptor_trim_keeps_later_witness :
  let a := {| acc_id := 2; acc_trim_iid := 0; store := mem_storage_new (T:=Khash.khash) |} in
  let tr := {| trim_iid := 7 |} in
  let r := ∅ : gmap Z paxos_accepted in
  exists a' ret, acceptor_receive_trim a tr = Some (a', ret) /\
  acc_trim_iid a' = Z.max (acc_trim_iid a) (trim_iid tr) /\
  exists r' t', acceptor_ok a' r' t' /\ 0 <= t' /\ r' ⊆ r /\ forall k, t' < k -> r' !! k = r !! k.
Proof.
  intros a tr r. eexists _, _. split; [reflexivity|].
  eapply (acceptor_trim_keeps_later a r 0 tr); [by apply mem_acceptor_new|simpl; lia|reflexivity].
Defined.
