(* ===== verification/AcceptorLmdb.v ===== *)
(** * The acceptor over the lmdb backend

    The handlers of [Acceptor.v] on the backend of [StorageLmdb.v]: whatever
    call of the library fails, a handler returns, and the durable records change
    only when it has a reply.  A failed read is taken for a missing record; the
    theorem [failed_read_forgets_promise] shows what follows.  The last part is the error path of
    [lmdb_storage_init]. *)

From S2P Require Import Prelude PaxosTypes Storage StorageUtils StorageLmdb Acceptor.

(** ** Handlers return when the store accepts writes *)

Section total.
Context `{ST : StorageTx H}.
Hypothesis put_total : forall s r t r' t' acc,
  rep s (InTx r t r' t') -> record_ok acc -> 0 < iid acc -> is_Some (api_put s acc).
Implicit Types (a : acceptor H) (r q : gmap Z paxos_accepted).

(** A write followed by the end of the transaction. *)
Lemma put_commit_runs {X} a s r t r' t' acc (x : X) (fin : acceptor H -> Z -> X -> acceptor H * Z * paxos_message) :
  rep s (InTx r t r' t') -> record_ok acc -> 0 < iid acc ->
  is_Some ('(s, x, failed) ←
      ('(s, rv) ← storage_put_record s acc;
       if negb (rv =? 0) then Some (storage_tx_abort s, x, true) else Some (s, x, false));
    if (failed : bool) then Some (fin (with_store a s) 0 x) else
    '(s, rv) ← storage_tx_commit s;
    if negb (rv =? 0) then Some (fin (with_store a s) 0 x) else Some (fin (with_store a s) 1 x)).
Proof.
  intros Hs Hacc Hi. destruct (put_total _ _ _ _ _ _ Hs Hacc Hi) as [[s1 rv] Hput].
  unfold storage_put_record, storage_tx_commit. rewrite Hput. simpl.
  destruct (law_put _ _ _ _ _ _ _ _ Hs Hacc Hi Hput) as [[-> Hs1]|[Hrv _]]; simpl.
  - destruct (law_tx_commit _ _ _ _ _ Hs1) as (s2 & rv & -> & _). simpl. by destruct (rv =? 0); eexists.
  - destruct (Z.eqb_spec rv 0); [done|]. by eexists.
Qed.

Lemma accept_reads_runs a r q t req out :
  acceptor_ok a r t -> body_ok req -> reads_as (store a) (iid req) r q -> is_Some (acceptor_receive_accept a req out).
Proof using put_total.
  intros (Hid & Htrim & Ht & Hrep) Hreq [_ Hread]. pose proof Hreq as (Hi & _).
  pose proof (accept_to_accepted_ok (acc_id a) req Hreq Hid) as Hacc.
  unfold acceptor_receive_accept, storage_tx_begin, storage_get_record in *.
  destruct (Z.leb_spec (iid req) (acc_trim_iid a)); [by eexists|].
  destruct (law_tx_begin _ _ _ Hrep) as (s & rv & Heq & [[-> Hs]|[Hrv Hs]]); rewrite Heq; simpl.
  2: { destruct (Z.eqb_spec rv 0); [done|]. by eexists. }
  rewrite (Hread _ Heq). simpl.
  pose proof (put_commit_runs a s r t r t _ (PAXOS_ACCEPTED (paxos_accept_to_accepted (acc_id a) req))
    (fun a n x => (a, n, x)) Hs Hacc ltac:(simpl; lia)) as Hput.
  destruct (law_tx_commit _ _ _ _ _ Hs) as (s2 & rv & Hc & _).
  destruct (q !! iid req) as [b|]; [|exact Hput]. simpl.
  destruct (ballot b <=? ballot req); [exact Hput|]. simpl. unfold storage_tx_commit. rewrite Hc. simpl.
  by destruct (rv =? 0); eexists.
Qed.

Lemma prepare_reads_runs a r q t req out :
  acceptor_ok a r t -> body_ok req -> reads_as (store a) (iid req) r q -> is_Some (acceptor_receive_prepare a req out).
Proof using put_total.
  intros (Hid & Htrim & Ht & Hrep) Hreq Hq. pose proof Hreq as (Hi & _).
  destruct (rep_idle_ok _ _ _ Hrep) as [Hr _].
  pose proof (promised_ok (acc_id a) q req (reads_as_ok _ _ _ _ Hq Hr) Hreq Hid) as [Hacc Hai].
  pose proof (proj2 Hq) as Hread. unfold acceptor_receive_prepare, storage_tx_begin, storage_get_record in *.
  destruct (Z.leb_spec (iid req) (acc_trim_iid a)); [by eexists|].
  destruct (law_tx_begin _ _ _ Hrep) as (s & rv & Heq & [[-> Hs]|[Hrv Hs]]); rewrite Heq; simpl.
  2: { destruct (Z.eqb_spec rv 0); [done|]. by eexists. }
  rewrite (Hread _ Heq). simpl. rewrite u16_small by done.
  pose proof (put_commit_runs a s r t r t _ (promised (acc_id a) q req)
    (fun a n x => (a, n, if n =? 0 then out else paxos_accepted_to_promise x)) Hs Hacc ltac:(lia)) as Hput.
  destruct (law_tx_commit _ _ _ _ _ Hs) as (s2 & rv & Hc & _). revert Hput. unfold promised.
  destruct (q !! iid req) as [b|]; [|done]. simpl.
  destruct (ballot b <=? ballot req); [done|]. intros _. simpl. unfold storage_tx_commit. rewrite Hc. simpl.
  by destruct (rv =? 0); eexists.
Qed.
End total.

(** A store whose reads do not fail. *)
Lemma accept_runs `{SL : StorageLaws H} (a : acceptor H) r t req out :
  (forall s r t r' t' acc, rep s (InTx r t r' t') -> record_ok acc -> 0 < iid acc -> is_Some (api_put s acc)) ->
  acceptor_ok a r t -> body_ok req -> is_Some (acceptor_receive_accept a req out).
Proof.
  intros Hput Hok Hreq. destruct (Z.leb_spec (iid req) (acc_trim_iid a)) as [Hle|Hlt].
  - unfold acceptor_receive_accept. rewrite (proj2 (Z.leb_le _ _) Hle). by eexists.
  - eapply accept_reads_runs; eauto using reads_as_stored.
Qed.

(** ** The database *)

Section lmdb_acceptor.
Context `{LL : LmdbLaws W}.
Variable config : paxos_config.
Variable addr : paxos_value -> Z.
Hypothesis addr_range : forall v, 0 <= addr v < 2 ^ 64.

#[local] Instance lmdb_api : StorageApi (lmdb_storage * W) := storage_init_lmdb config addr.
#[local] Instance lmdb_tx : StorageTx (lmdb_storage * W) := lmdb_storage_tx config addr addr_range.

Lemma lmdb_put_total s r t r' t' acc :
  rep s (InTx r t r' t') -> record_ok acc -> 0 < iid acc -> is_Some (api_put s acc).
Proof.
  destruct s as [s w]. intros Hs Hacc Hi.
  destruct (lmdb_put_spec addr addr_range _ _ _ _ _ _ _ Hs Hacc Hi) as (h' & rv & Hput & _).
  exists (h', rv). exact Hput.
Qed.

(** The read in the transaction of a handler fails. *)
Definition get_fails (h : lmdb_storage * W) (i : Z) : Prop :=
  exists h1, storage_tx_begin h = Some (h1, 0) /\ read_fails h1 i.

(** What the handler sees: the records of the store, or, when the read fails, these
    without the record it asks for. *)
Lemma lmdb_reads_as (a : acceptor (lmdb_storage * W)) r t i :
  acceptor_ok a r t -> 0 < i < 2 ^ 32 ->
  exists q, reads_as (store a) i r q /\ (q = r \/ get_fails (store a) i /\ q = delete i r).
Proof.
  intros (_ & _ & _ & Hrep) Hi. destruct (law_tx_begin _ _ _ Hrep) as ([s w] & rv & Heq & [[-> Hs]|[Hrv _]]).
  2: { exists r. split; [|by left]. split; [by left|]. intros s1 Hs1. unfold storage_tx_begin in Hs1. congruence. }
  destruct (lmdb_get_spec s w _ _ _ _ i zero_body Hs Hi) as [Hg|[Hf Hg]].
  - exists r. split; [|by left]. split; [by left|]. intros s1 Hs1. unfold storage_tx_begin in Hs1.
    assert (s1 = (s, w)) as -> by congruence. exact Hg.
  - exists (delete i r). split; [|right; split; [by exists (s, w)|done]]. split; [by right|]. intros s1 Hs1.
    unfold storage_tx_begin in Hs1. assert (s1 = (s, w)) as -> by congruence. rewrite lookup_delete_eq. exact Hg.
Qed.

(** C7. An accept request on a database: whatever library call fails, the
    handler returns, and either it has no reply, because the instance is trimmed
    or the transaction failed, and the durable records are those it started with;
    or it replies, and the durable records are those with the vote (unchanged when
    the request is preempted).  The handler decides on the records [q], which are
    the durable ones unless [mdb_get] failed: a failed read is taken for an
    instance without a promise, so that the request is then always accepted. *)
Theorem lmdb_accept_atomic (a : acceptor (lmdb_storage * W)) r t req out :
  acceptor_ok a r t -> body_ok req ->
  exists a' ret out' q, acceptor_receive_accept a req out = Some (a', ret, out') /\
    (q = r \/ get_fails (store a) (iid req) /\ q = delete (iid req) r) /\
    (ret = 0 /\ acceptor_ok a' r t /\ (iid req <= acc_trim_iid a \/ tx_fails (store a) (iid req)) \/
     ret = 1 /\ acc_trim_iid a < iid req /\ out' = accept_reply (acc_id a) q req /\
       acceptor_ok a' (if accept_ok q req then <[iid req := paxos_accept_to_accepted (acc_id a) req]> r else r) t).
Proof.
  intros Hok Hreq. pose proof Hreq as (Hi & _). destruct (Z.leb_spec (iid req) (acc_trim_iid a)) as [Hle|Hlt].
  { exists a, 0, out, r. unfold acceptor_receive_accept. rewrite (proj2 (Z.leb_le _ _) Hle). auto 10. }
  pose proof Hok as (_ & Htr & _).
  destruct (lmdb_reads_as a r t (iid req) Hok ltac:(lia)) as (q & Hq & Hwhy).
  destruct (accept_reads_runs lmdb_put_total a r q t req out Hok Hreq Hq) as [[[a' ret] out'] Hrun].
  exists a', ret, out', q. split; [done|]. split; [done|].
  destruct (receive_accept_reads _ _ _ _ _ _ _ _ _ Hok Hreq Hq Hrun) as (_ & _ & [[-> ?]|(-> & _ & -> & Hok')]).
  - left. eauto using accept_fails_why.
  - rewrite (accept_records_reads _ _ _ _ _ Hq) in Hok'. auto.
Qed.

(** A prepare request on a database: whatever library call fails, the
    handler returns, and either it has no reply, because the instance is trimmed
    or the transaction failed, and the durable records are unchanged, or it replies
    with a promise that is durable, made on the durable records unless [mdb_get]
    failed. *)
Theorem lmdb_prepare_atomic (a : acceptor (lmdb_storage * W)) r t req out :
  acceptor_ok a r t -> body_ok req ->
  exists a' ret out' q, acceptor_receive_prepare a req out = Some (a', ret, out') /\
    (q = r \/ get_fails (store a) (iid req) /\ q = delete (iid req) r) /\
    (ret = 0 /\ acceptor_ok a' r t /\ (iid req <= acc_trim_iid a \/ tx_fails (store a) (iid req)) \/
     ret = 1 /\ acc_trim_iid a < iid req /\ out' = PAXOS_PROMISE (promised (acc_id a) q req) /\
       acceptor_ok a' (<[iid req := promised (acc_id a) q req]> r) t).
Proof.
  intros Hok Hreq. pose proof Hreq as (Hi & _). destruct (Z.leb_spec (iid req) (acc_trim_iid a)) as [Hle|Hlt].
  { exists a, 0, out, r. unfold acceptor_receive_prepare. rewrite (proj2 (Z.leb_le _ _) Hle). auto 10. }
  pose proof Hok as (_ & Htr & _).
  destruct (lmdb_reads_as a r t (iid req) Hok ltac:(lia)) as (q & Hq & Hwhy).
  destruct (prepare_reads_runs lmdb_put_total a r q t req out Hok Hreq Hq) as [[[a' ret] out'] Hrun].
  exists a', ret, out', q. split; [done|]. split; [done|].
  destruct (receive_prepare_reads _ _ _ _ _ _ _ _ _ Hok Hreq Hq Hrun) as (_ & _ & [(-> & _ & ?)|(-> & _ & -> & Hok')]); [|auto].
  left. eauto using prepare_fails_why.
Qed.
End lmdb_acceptor.

(** The database as a store whose reads do not fail. *)
Definition lmdb_laws `{LR : LmdbReads W} (config : paxos_config) (addr : paxos_value -> Z)
    (addr_range : forall v, 0 <= addr v < 2 ^ 64) : @StorageLaws _ (lmdb_api config addr) :=
  lmdb_storage_laws config addr addr_range.

(** An acceptor on the sample database. *)
Definition sample_acceptor : acceptor (lmdb_storage * ref_world) :=
  {| acc_id := 1; acc_trim_iid := 0; store := (sample_handle 0, DbIdle sample_db) |}.

Definition sample_request : paxos_accept :=
  {| iid := 2; ballot := 21; value_ballot := 0; aid := 0;
     value := {| paxos_value_len := 1; paxos_value_val := Some [x62] |} |}.

Lemma sample_request_ok : body_ok sample_request.
Proof. unfold body_ok, value_ok. simpl. lia. Qed.

Lemma sample_acceptor_ok config (addr_ok : forall v : paxos_value, 0 <= 4096 < 2 ^ 64) :
  @acceptor_ok _ _ (lmdb_tx config (fun _ => 4096) addr_ok) sample_acceptor (db_records sample_db) 0.
Proof.
  do 3 (split; [simpl; lia|]). split; [done|]. exists sample_db. split; [done|]. apply sample_db_abs.
Qed.

Lemma addr_4096 (v : paxos_value) : 0 <= 4096 < 2 ^ 64.
Proof. lia. Qed.

Lemma lmdb_accept_atomic_witness :
  let c := default_paxos_config in let A := lmdb_api c (fun _ => 4096) in
  let L := lmdb_tx c (fun _ => 4096) addr_4096 in let r := db_records sample_db in
  exists a' ret out' q, acceptor_receive_accept sample_acceptor sample_request (PAXOS_TRIM (PaxosTrim 0)) =
      Some (a', ret, out') /\
    (q = r \/ get_fails c (fun _ => 4096) (store sample_acceptor) 2 /\ q = delete 2 r) /\
    (ret = 0 /\ acceptor_ok a' r 0 /\ (2 <= 0 \/ tx_fails (store sample_acceptor) 2) \/
     ret = 1 /\ 0 < 2 /\ out' = accept_reply 1 q sample_request /\
       acceptor_ok a' (if accept_ok q sample_request
         then <[2 := paxos_accept_to_accepted 1 sample_request]> r else r) 0).
Proof.
  intros c A L r. apply (lmdb_accept_atomic c (fun _ => 4096) addr_4096 sample_acceptor);
    [apply sample_acceptor_ok|apply sample_request_ok].
Defined.

(** ** A failed read *)

(** The reference library, with an input error (EIO) on every read. *)
Definition eio_lmdb : Lmdb ref_world := {|
  mdb_env_create := mdb_env_create; mdb_env_set_mapsize := mdb_env_set_mapsize;
  mdb_env_open := mdb_env_open; mdb_env_close := mdb_env_close;
  mdb_txn_begin := mdb_txn_begin; mdb_txn_commit := mdb_txn_commit; mdb_txn_abort := mdb_txn_abort;
  mdb_open := mdb_open; mdb_close := mdb_close; mdb_set_compare := mdb_set_compare;
  mdb_get _ _ _ _ := inl 5;
  mdb_put := mdb_put; mdb_cursor_open := mdb_cursor_open; mdb_cursor_next := mdb_cursor_next;
  mdb_cursor_del := mdb_cursor_del; mdb_cursor_close := mdb_cursor_close;
  sys_exists := sys_exists; sys_mkdir := sys_mkdir; sys_rm := sys_rm;
|}.

(** The library documents such errors: it satisfies the laws. *)
#[refine] Definition eio_lmdb_laws : @LmdbLaws ref_world eio_lmdb := {| mdb_view w _ _ := Some w |}.
Proof.
  1-4, 6-11: apply ref_lmdb_laws.
  intros. simpl. done.
Defined.

Definition low_request : paxos_accept :=
  {| iid := 2; ballot := 5; value_ballot := 0; aid := 0;
     value := {| paxos_value_len := 1; paxos_value_val := Some [x62] |} |}.

(** An acceptor that has promised ballot 11 in instance 2, and whose read of that
    promise fails, accepts a request with ballot 5: [lmdb_storage_get] returns 0
    for every error, as for an instance without a record. *)
Theorem failed_read_forgets_promise :
  let A := @lmdb_api _ eio_lmdb default_paxos_config (fun _ => 4096) in
  (ballot <$> db_records sample_db !! 2) = Some 11 /\
  exists a', acceptor_receive_accept sample_acceptor low_request (PAXOS_TRIM (PaxosTrim 0)) =
      Some (a', 1, PAXOS_ACCEPTED (paxos_accept_to_accepted 1 low_request)) /\
    exists m, store a' = (sample_handle 0, DbIdle m) /\ (ballot <$> db_records m !! 2) = Some 5.
Proof.
  split; [by vm_compute|]. eexists. split; [by vm_compute|]. eexists. split; [done|]. by vm_compute.
Qed.

(** ** The error path of [lmdb_storage_init] *)

(** The calls on transactions, oldest first, of a library whose commits fail
    and whose other calls succeed. *)
Inductive txn_call := Begin | Commit (t : Z) | Abort (t : Z).

#[local] Instance failing_lmdb : Lmdb (list txn_call) := {|
  mdb_env_create w := (w, inr 1);
  mdb_env_set_mapsize w _ _ := (w, 0);
  mdb_env_open w _ _ _ _ := (w, 0);
  mdb_env_close w _ := w;
  mdb_txn_begin w _ := (w ++ [Begin], inr 7);
  mdb_txn_commit w t := (w ++ [Commit t], 28);
  mdb_txn_abort w t := w ++ [Abort t];
  mdb_open w _ _ := (w, inr 1);
  mdb_close w _ _ := w;
  mdb_set_compare w _ _ _ := (w, 0);
  mdb_get _ _ _ _ := inl MDB_NOTFOUND;
  mdb_put w _ _ _ _ := (w, 0);
  mdb_cursor_open w _ _ := (w, inr 1);
  mdb_cursor_next w _ := (w, inl MDB_NOTFOUND);
  mdb_cursor_del w _ := (w, 0);
  mdb_cursor_close w _ := w;
  sys_exists _ _ := true;
  sys_mkdir w _ _ := (w, 0);
  sys_rm w _ := w;
|}.

(** When the commit in [lmdb_storage_init] fails, the error path aborts the
    transaction again, although [mdb_txn_commit] has freed the handle. *)
Theorem lmdb_init_aborts_committed :
  lmdb_storage_init default_paxos_config (lmdb_storage_new 1) [] default_lmdb_env_path =
    (lmdb_storage_new 1, [Begin; Commit 7; Abort 7], -1).
Proof. vm_compute. reflexivity. Qed.
