(* ===== verification/EvAcceptor.v ===== *)
(** * The acceptor process ([evpaxos/evacceptor.c])

    The handlers that connect the acceptor of [Acceptor.v] to its peers: a reply
    goes to the peer that sent the request, a vote to every client.  A handler
    maps the [struct peers] and the acceptor to their new values.

    [None] is undefined behaviour, or a loop that does not end. *)

From S2P Require Import Prelude Bytes PaxosTypes EvConfig MessagePack TypesPack Peers.
From S2P Require Import KhashInterface KhashResize Storage StorageLmdb Acceptor AcceptorLmdb.

(** [state] is [None] when [acceptor_new] returned NULL; the timer is pending
    again after each of its events. *)
Record evacceptor (H : Type) := Evacceptor { ea_state : option (acceptor H); ea_timer : bool }.
Arguments Evacceptor {H}. Arguments ea_state {H}. Arguments ea_timer {H}.

Section evacceptor.
Context `{SA : StorageApi H} `{MP : Msgpack}.
Implicit Types (ps : peers peer_cb) (a : evacceptor H) (r : peer_ref).

Definition set_state a (st : acceptor H) : evacceptor H := {| ea_state := Some st; ea_timer := ea_timer a |}.

(** The handler writes [out] only when it has a reply. *)
Definition evacceptor_handle_prepare ps a r (prepare : paxos_prepare) (out : paxos_message) :
    option (peers peer_cb * evacceptor H) :=
  st ← ea_state a;
  '(st, rv, out) ← acceptor_receive_prepare st prepare out;
  ps ← (if negb (rv =? 0) then send_to ps r out else Some ps);
  Some (ps, set_state a st).

Definition evacceptor_handle_accept ps a r (accept : paxos_accept) (out : paxos_message) :
    option (peers peer_cb * evacceptor H) :=
  st ← ea_state a;
  '(st, rv, out) ← acceptor_receive_accept st accept out;
  ps ← (if negb (rv =? 0) then
          match out with
          | PAXOS_ACCEPTED _ => peers_foreach_client ps (peer_send out)
          | PAXOS_PREEMPTED _ => send_to ps r out
          | _ => Some ps
          end
        else Some ps);
  Some (ps, set_state a st).

(** The loop [for (iid = from; iid <= to; ++iid)] with a 32-bit [iid]. *)
Fixpoint repeat_loop (fuel : nat) ps (st : acceptor H) r (iid to : Z) : option (peers peer_cb * acceptor H) :=
  match fuel with
  | O => None
  | S fuel =>
      if iid <=? to then
        '(st, found, accepted) ← acceptor_receive_repeat st iid;
        ps ← (if (found : bool) then send_to ps r (PAXOS_ACCEPTED accepted) else Some ps);
        repeat_loop fuel ps st r (u32 (iid + 1)) to
      else Some (ps, st)
  end.

(** [to - from + 2] turns are enough (one if [from] is behind [to]) unless [to] is the greatest [iid_t]
    ([repeat_loop_total], [repeat_loop_forever]). *)
Definition evacceptor_handle_repeat ps a r (repeat : paxos_repeat) : option (peers peer_cb * evacceptor H) :=
  st ← ea_state a;
  '(ps, st) ← repeat_loop (S (Z.to_nat (to repeat - from repeat + 1))) ps st r (from repeat) (to repeat);
  Some (ps, set_state a st).

Definition evacceptor_handle_trim ps a r (trim : paxos_trim) : option (peers peer_cb * evacceptor H) :=
  st ← ea_state a;
  '(st, _) ← acceptor_receive_trim st trim;
  Some (ps, set_state a st).

Definition send_acceptor_state ps a : option (peers peer_cb * evacceptor H) :=
  st ← ea_state a;
  ps ← peers_foreach_client ps (peer_send (PAXOS_ACCEPTOR_STATE (acceptor_set_current_state st)));
  Some (ps, {| ea_state := ea_state a; ea_timer := true |}).

(** [s] is the handle [storage_init] makes. *)
Definition evacceptor_init_internal (id : Z) (s : H) ps : option (peers peer_cb * evacceptor H) :=
  st ← acceptor_new id s;
  ps ← peers_subscribe ps 0 evacceptor_prepare_cb;
  ps ← peers_subscribe ps 2 evacceptor_accept_cb;
  ps ← peers_subscribe ps 5 evacceptor_repeat_cb;
  ps ← peers_subscribe ps 6 evacceptor_trim_cb;
  Some (ps, {| ea_state := st; ea_timer := true |}).

(** [config] is the result of [evpaxos_config_read]; [Some None] is NULL. *)
Definition evacceptor_init (bind : Z -> bool) (id : Z) (config : option evpaxos_config) (s : H) :
    option (option (peers peer_cb * evacceptor H)) :=
  match config with
  | None => Some None
  | Some c =>
      let acceptor_count := evpaxos_acceptor_count c in
      if (id <? 0) || (acceptor_count <=? id) then Some None else
      port ← evpaxos_acceptor_listen_port c id;
      let '(ps, rv) := peers_listen bind (peers_new c) port in
      if rv =? 0 then Some None else
      Some <$> evacceptor_init_internal id s ps
  end.
End evacceptor.

(** ** Repeat requests *)

(** A repeat request up to the greatest instance id is never finished: the
    counter wraps around and the loop condition always holds. *)
Theorem repeat_loop_forever `{SA : StorageApi H} `{MP : Msgpack} fuel ps (st : acceptor H) r iid :
  is_u32 iid -> repeat_loop fuel ps st r iid UINT32_MAX = None.
Proof.
  revert ps st iid. induction fuel as [|fuel IH]; intros ps st iid Hi; simpl; [done|].
  destruct (Z.leb_spec iid UINT32_MAX) as [_|Hlt]; [|unfold UINT32_MAX in Hlt; lia].
  destruct (acceptor_receive_repeat st iid) as [[[st' found] acc]|]; simpl; [|done].
  destruct (if found then _ else _); simpl; [|done]. apply IH, u32_range.
Qed.

Lemma repeat_loop_forever_witness :
  let st := {| acc_id := 1; acc_trim_iid := 0; store := mem_storage_new (T := Khash.khash) |} in
  repeat_loop (MP := MsgpackFormat.format) 1000 (peers_new empty_config) st (ClientPeer 0) 1 UINT32_MAX = None.
Proof. intros st. apply repeat_loop_forever. lia. Defined.

(** The records a repeat request asks for. *)
Definition repeated (r : gmap Z paxos_accepted) (from to : Z) : list paxos_message :=
  PAXOS_ACCEPTED <$> filter (fun b => 0 < paxos_value_len (value b))
    (omap (r !!.) (seqZ from (to - from + 1))).

Section mem_repeat.
Context `{KH : KHash T} `{MP : Msgpack}.
Implicit Types (st : acceptor (mem_storage T)).

Lemma mem_receive_repeat st r t i :
  acceptor_ok st r t -> is_u32 i ->
  acceptor_receive_repeat st i = Some (st, match r !! i with Some b => 0 <? paxos_value_len (value b) | None => false end,
    match r !! i with Some b => b | None => zero_body end).
Proof.
  intros (_ & _ & _ & Hrep) Hi. unfold acceptor_receive_repeat, storage_get_record. simpl.
  rewrite (mem_get_spec _ _ _ i zero_body Hrep Hi). destruct st as [id tr s]. simpl. by destruct (r !! i).
Qed.
End mem_repeat.

Section mem_repeat_loop.
Context `{KH : KHash T} `{MP : Msgpack}.
Implicit Types (st : acceptor (mem_storage T)).

Lemma repeated_step (r : gmap Z paxos_accepted) i to :
  i <= to -> repeated r i to =
    match r !! i with
    | Some b => if 0 <? paxos_value_len (value b) then PAXOS_ACCEPTED b :: repeated r (i + 1) to else repeated r (i + 1) to
    | None => repeated r (i + 1) to
    end.
Proof.
  intros Hi. unfold repeated. rewrite (seqZ_cons i) by lia.
  replace (Z.succ i) with (i + 1) by lia. replace (Z.pred (to - i + 1)) with (to - (i + 1) + 1) by lia.
  simpl. destruct (r !! i) as [b|]; [|done]. rewrite filter_cons.
  destruct (Z.ltb_spec 0 (paxos_value_len (value b))); [by rewrite decide_True|by rewrite decide_False by lia].
Qed.

Lemma repeat_loop_total st r t fuel ps ref out i to :
  acceptor_ok st r t -> output_of ps ref = Some out -> 0 <= i -> to < UINT32_MAX ->
  (Z.to_nat (to - i + 1) < fuel)%nat ->
  exists ps', repeat_loop fuel ps st ref i to = Some (ps', st) /\ appended ps ps' ref (stream (repeated r i to)).
Proof.
  intros Hok. pose proof Hok as (_ & _ & _ & Hrep). destruct (rep_idle_ok _ _ _ Hrep) as [Hrec _]. unfold UINT32_MAX.
  revert fuel ps out i. induction fuel as [|fuel IH]; intros ps out i Ho Hi Hto Hfuel; [lia|]. cbn [repeat_loop].
  destruct (Z.leb_spec i to) as [Hit|Hit].
  2: { exists ps. split; [done|]. unfold repeated. rewrite seqZ_nil by lia. by eapply appended_refl. }
  rewrite (mem_receive_repeat st r t i Hok) by lia. cbn [mbind option_bind]. rewrite u32_small by lia.
  rewrite repeated_step by done. destruct (r !! i) as [b|] eqn:Hb; [|eapply IH; [done|lia..]].
  destruct (Z.ltb_spec 0 (paxos_value_len (value b))); [|eapply IH; [done|lia..]].
  destruct (Hrec _ _ Hb) as [_ Hbok].
  destruct (send_to_spec ps ref out (PAXOS_ACCEPTED b) Ho) as (ps1 & -> & Happ); [by apply record_ok_body|].
  cbn [mbind option_bind]. pose proof Happ as ((o1 & _ & Ho1) & _).
  destruct (IH ps1 _ (i + 1) Ho1) as (ps' & Hrun & Happ'); [lia..|]. exists ps'. split; [exact Hrun|].
  change (stream (PAXOS_ACCEPTED b :: repeated r (i + 1) to))
    with (wire (PAXOS_ACCEPTED b) ++ stream (repeated r (i + 1) to)). by eapply appended_trans.
Qed.

(** A repeat request on the in-memory store is answered completely: the
    handler returns, it has written to the peer exactly the stored records with a
    value of the instances asked for, in the order of the instances, and the
    acceptor is unchanged. *)
Theorem repeat_answered ps a st r t ref out req :
  ea_state a = Some st -> acceptor_ok st r t -> output_of ps ref = Some out ->
  0 <= from req -> to req < UINT32_MAX ->
  exists ps', evacceptor_handle_repeat ps a ref req = Some (ps', a) /\
    appended ps ps' ref (stream (repeated r (from req) (to req))).
Proof.
  intros Hst Hok Ho Hf Hto. unfold evacceptor_handle_repeat. rewrite Hst. cbn [mbind option_bind].
  destruct (repeat_loop_total st r t (S (Z.to_nat (to req - from req + 1))) ps ref out (from req) (to req))
    as (ps' & -> & Happ); [done|done|lia..|]. exists ps'. split; [|done].
  destruct a as [s timer]. simpl in *. by subst.
Qed.
End mem_repeat_loop.

(** An acceptor with a vote of instance 1, asked by its first client. *)
Definition vote_request : paxos_accept :=
  {| iid := 1; ballot := 11; value_ballot := 0; aid := 0;
     value := {| paxos_value_len := 1; paxos_value_val := Some [x61] |} |}.

Definition no_vote : acceptor (mem_storage Khash.khash) :=
  {| acc_id := 1; acc_trim_iid := 0; store := mem_storage_new |}.

Definition one_vote : acceptor (mem_storage Khash.khash) :=
  match acceptor_receive_accept no_vote vote_request (PAXOS_TRIM (PaxosTrim 0)) with
  | Some (a, _, _) => a
  | None => no_vote
  end.

Definition the_vote : paxos_accepted := paxos_accept_to_accepted 1 vote_request.

Lemma vote_request_ok : body_ok vote_request.
Proof. unfold body_ok, value_ok. simpl. lia. Qed.

Lemma no_vote_ok : acceptor_ok no_vote ∅ 0.
Proof. by apply mem_acceptor_new. Qed.

Lemma one_vote_ok : acceptor_ok one_vote {[1 := the_vote]} 0.
Proof.
  destruct (mem_accept_runs no_vote ∅ 0 vote_request (PAXOS_TRIM (PaxosTrim 0)) no_vote_ok vote_request_ok)
    as (a' & out' & Hrun); [done|]. unfold one_vote. rewrite Hrun.
  destruct (receive_accept_spec _ _ _ _ _ _ _ _ no_vote_ok vote_request_ok Hrun)
    as (_ & _ & [[Hret _]|(_ & _ & _ & Hok)]); [done|exact Hok].
Qed.

Lemma repeat_answered_witness :
  let MP := MsgpackFormat.format in
  let ps := on_accept (peers_new empty_config) 5 {| sin_port := 1; sin_addr := 1 |} in
  let a := {| ea_state := Some one_vote; ea_timer := true |} in
  exists ps', evacceptor_handle_repeat ps a (ClientPeer 0) {| from := 1; to := 3 |} = Some (ps', a) /\
    appended ps ps' (ClientPeer 0) (stream (repeated {[1 := the_vote]} 1 3)).
Proof.
  intros MP ps a. apply (repeat_answered ps a one_vote {[1 := the_vote]} 0 (ClientPeer 0) [] {| from := 1; to := 3 |});
    [done|apply one_vote_ok|done|simpl; lia|simpl; unfold UINT32_MAX; lia].
Defined.

(** ** Accept requests *)

Section accept_request.
Context `{SL : StorageLaws H} `{MP : Msgpack}.
(** The store takes writes, or reports that it cannot. *)
Hypothesis put_total : forall s r t r' t' acc,
  rep s (InTx r t r' t') -> record_ok acc -> 0 < iid acc -> is_Some (api_put s acc).

(** C34. An accept request is answered to the right processes: the handler returns
    with the state and the result of [acceptor_receive_accept];
    when that reports a failure nothing is sent and the durable records are
    unchanged; when the vote is durable every client gets the accepted message,
    once, and nobody else; when a higher ballot was promised only the sender of the
    request gets a message, with that ballot. *)
Theorem accept_request_answered ps a (st : acceptor H) r t ref out req junk :
  ea_state a = Some st -> acceptor_ok st r t -> body_ok req ->
  clients_count ps = Z.of_nat (length (clients ps)) -> output_of ps ref = Some out ->
  exists ps' a' st' rv msg, evacceptor_handle_accept ps a ref req junk = Some (ps', a') /\ ea_state a' = Some st' /\
    acceptor_receive_accept st req junk = Some (st', rv, msg) /\
    (rv = 0 /\ ps' = ps /\ acceptor_ok st' r t \/
     rv = 1 /\ accept_ok r req = true /\
       ps' = with_clients ps (clients_count ps)
               (written (PAXOS_ACCEPTED (paxos_accept_to_accepted (acc_id st) req)) <$> clients ps) /\
       acceptor_ok st' (<[iid req := paxos_accept_to_accepted (acc_id st) req]> r) t \/
     rv = 1 /\ accept_ok r req = false /\ acceptor_ok st' r t /\
       exists b, r !! iid req = Some b /\ ballot req < ballot b /\
         appended ps ps' ref (wire (paxos_accepted_to_preempted (acc_id st) b))).
Proof using put_total.
  intros Hst Hok Hreq Hc Ho. unfold evacceptor_handle_accept. rewrite Hst. cbn [mbind option_bind].
  destruct (accept_runs st r t req junk put_total Hok Hreq) as [[[st' rv] msg] Hrun]. rewrite Hrun. cbn [mbind option_bind].
  pose proof Hok as (Hid & _ & _ & Hrep). destruct (rep_idle_ok _ _ _ Hrep) as [Hrec _].
  destruct (receive_accept_spec _ _ _ _ _ _ _ _ Hok Hreq Hrun) as (_ & _ & [[-> Hok']|(-> & _ & -> & Hok')]).
  { simpl. eexists _, _, _, _, _. split; [done|]. split; [done|]. split; [done|]. by left. }
  pose proof (accept_to_accepted_ok (acc_id st) req Hreq Hid) as Hacc.
  cbn [negb Z.eqb]. unfold accept_reply, accept_records in *. unfold accept_ok in *.
  assert (message_ok (PAXOS_ACCEPTED (paxos_accept_to_accepted (acc_id st) req))) as Hm by by apply record_ok_body.
  destruct (r !! iid req) as [b|] eqn:Hb; [destruct (Z.leb_spec (ballot b) (ballot req)) as [Hle|Hlt]|].
  - rewrite foreach_client_send by done. cbn [mbind option_bind]. eexists _, _, _, _, _.
    split; [done|]. split; [done|]. split; [done|]. right; left. done.
  - destruct (Hrec _ _ Hb) as [_ (Hbi & Hbb & _)].
    assert (message_ok (paxos_accepted_to_preempted (acc_id st) b)) as Hpm.
    { unfold message_ok, body_ok, value_ok. simpl. pose proof (u16_range (acc_id st)). lia. }
    destruct (send_to_spec ps ref out _ Ho Hpm) as (ps' & Hsend & Happ). unfold paxos_accepted_to_preempted in *.
    rewrite Hsend. cbn [mbind option_bind]. eexists _, _, _, _, _. split; [done|]. split; [done|]. split; [done|].
    right; right. split; [done|]. split; [done|]. split; [done|]. eauto.
  - rewrite foreach_client_send by done. cbn [mbind option_bind]. eexists _, _, _, _, _.
    split; [done|]. split; [done|]. split; [done|]. right; left. done.
Qed.
End accept_request.

Lemma accept_request_answered_witness :
  let MP := MsgpackFormat.format in
  let A := lmdb_api default_paxos_config (fun _ => 4096) in
  let L := lmdb_laws default_paxos_config (fun _ => 4096) addr_4096 in
  let ps := on_accept (peers_new empty_config) 5 {| sin_port := 1; sin_addr := 1 |} in
  let a := {| ea_state := Some sample_acceptor; ea_timer := true |} in
  let r := db_records sample_db in let req := sample_request in
  exists ps' a' st' rv msg,
    evacceptor_handle_accept ps a (ClientPeer 0) req (PAXOS_TRIM (PaxosTrim 0)) = Some (ps', a') /\
    ea_state a' = Some st' /\
    acceptor_receive_accept sample_acceptor req (PAXOS_TRIM (PaxosTrim 0)) = Some (st', rv, msg) /\
    (rv = 0 /\ ps' = ps /\ acceptor_ok st' r 0 \/
     rv = 1 /\ accept_ok r req = true /\
       ps' = with_clients ps (clients_count ps)
               (written (PAXOS_ACCEPTED (paxos_accept_to_accepted 1 req)) <$> clients ps) /\
       acceptor_ok st' (<[iid req := paxos_accept_to_accepted 1 req]> r) 0 \/
     rv = 1 /\ accept_ok r req = false /\ acceptor_ok st' r 0 /\
       exists b, r !! iid req = Some b /\ ballot req < ballot b /\
         appended ps ps' (ClientPeer 0) (wire (paxos_accepted_to_preempted 1 b))).
Proof.
  intros MP A L ps a r req.
  apply (accept_request_answered (SL := L) (lmdb_put_total (LL := ref_lmdb_laws) default_paxos_config (fun _ => 4096) addr_4096) ps a sample_acceptor r 0
    (ClientPeer 0) [] req); [done|apply sample_acceptor_ok|apply sample_request_ok|done|done].
Defined.
