(* ===== verification/Proposer.v ===== *)
(** * The proposer ([paxos/proposer.c])

    The proposer keeps a queue of client values and two tables of instances:
    [prepare_instances] (phase 1 pending) and [accept_instances] (phase 2
    pending).  A [struct instance] lives in exactly one table and is changed
    through the pointer in it, here by [kh_set] at its slot.

    The time [gettimeofday] returns is an argument [now]; [None] is a failed
    [assert], an access outside an array, or a full table. *)

From S2P Require Import Prelude PaxosTypes KhashInterface Carray Quorum.

Record timeval := Timeval { tv_sec : Z; tv_usec : Z }.

Record instance := Instance {
  inst_iid : Z;
  inst_ballot : Z;                          (* ballot_t: uint32_t *)
  inst_value : option paxos_value;          (* NULL or a value *)
  inst_promised_value : option paxos_value;
  inst_value_ballot : Z;
  inst_quorum : quorum;
  created_at : timeval;
}.

Record proposer (T : Type -> Type) := Proposer {
  prop_id : Z;
  prop_acceptors : Z;
  values : carray paxos_value;
  max_trim_iid : Z;
  next_prepare_iid : Z;
  prepare_instances : T instance;
  accept_instances : T instance;
}.
Arguments Proposer {T}.
Arguments prop_id {T}.
Arguments prop_acceptors {T}.
Arguments values {T}.
Arguments max_trim_iid {T}.
Arguments next_prepare_iid {T}.
Arguments prepare_instances {T}.
Arguments accept_instances {T}.

Record timeout_iterator := TimeoutIterator { pi : Z; ai : Z; timeout : timeval }.

(** ** Instances *)

Definition instance_new (iid ballot acceptors : Z) (now : timeval) : option instance :=
  assert_ (0 <? iid) ;;
  Some {| inst_iid := iid; inst_ballot := ballot; inst_value := None;
          inst_promised_value := None; inst_value_ballot := 0;
          inst_quorum := quorum_init acceptors; created_at := now |}.

Definition instance_has_value (inst : instance) : bool :=
  match inst_value inst with Some _ => true | None => false end.

Definition instance_has_promised_value (inst : instance) : bool :=
  match inst_promised_value inst with Some _ => true | None => false end.

(** [timeout] is [paxos_config.proposer_timeout]. *)
Definition instance_has_timedout (proposer_timeout : Z) (inst : instance) (now : timeval) : bool :=
  let diff := i32 (tv_sec now - tv_sec (created_at inst)) in
  proposer_timeout <=? diff.

(** [(paxos_prepare) {inst->iid, inst->ballot}]: the other members are zero. *)
Definition prepare_of (inst : instance) : paxos_prepare :=
  {| iid := inst_iid inst; ballot := u16 (inst_ballot inst); value_ballot := 0; aid := 0;
     value := null_value |}.

(** [None] is the access through a NULL [v]. *)
Definition instance_to_accept (inst : instance) : option paxos_accept :=
  v ← (if instance_has_promised_value inst then inst_promised_value inst else inst_value inst);
  Some {| iid := inst_iid inst; ballot := u16 (inst_ballot inst);
          value_ballot := u16 (inst_ballot inst); aid := 0;
          value := {| paxos_value_len := paxos_value_len v;
                      paxos_value_val := paxos_value_val v |} |}.

(** Whether [paxos_value_cmp] returns 0. *)
Definition paxos_value_eq (v1 v2 : paxos_value) : bool :=
  if negb (paxos_value_len v1 =? paxos_value_len v2) then false
  else bool_decide (value_bytes v1 = value_bytes v2).

Definition set_inst_quorum (inst : instance) (q : quorum) : instance :=
  {| inst_iid := inst_iid inst; inst_ballot := inst_ballot inst; inst_value := inst_value inst;
     inst_promised_value := inst_promised_value inst; inst_value_ballot := inst_value_ballot inst;
     inst_quorum := q; created_at := created_at inst |}.

Definition set_inst_value (inst : instance) (v : option paxos_value) : instance :=
  {| inst_iid := inst_iid inst; inst_ballot := inst_ballot inst; inst_value := v;
     inst_promised_value := inst_promised_value inst; inst_value_ballot := inst_value_ballot inst;
     inst_quorum := inst_quorum inst; created_at := created_at inst |}.

Definition set_created_at (inst : instance) (t : timeval) : instance :=
  {| inst_iid := inst_iid inst; inst_ballot := inst_ballot inst; inst_value := inst_value inst;
     inst_promised_value := inst_promised_value inst; inst_value_ballot := inst_value_ballot inst;
     inst_quorum := inst_quorum inst; created_at := t |}.

Section proposer.
Context `{KH : KHash T}.
Implicit Types (p : proposer T) (inst : instance) (h : T instance) (now : timeval).

Definition with_values p (vs : carray paxos_value) : proposer T :=
  {| prop_id := prop_id p; prop_acceptors := prop_acceptors p; values := vs;
     max_trim_iid := max_trim_iid p; next_prepare_iid := next_prepare_iid p;
     prepare_instances := prepare_instances p; accept_instances := accept_instances p |}.

Definition with_tables p (prep acc : T instance) : proposer T :=
  {| prop_id := prop_id p; prop_acceptors := prop_acceptors p; values := values p;
     max_trim_iid := max_trim_iid p; next_prepare_iid := next_prepare_iid p;
     prepare_instances := prep; accept_instances := acc |}.

Definition proposer_new (id acceptors : Z) : option (proposer T) :=
  vs ← carray_new 128;
  Some {| prop_id := id; prop_acceptors := acceptors; values := vs; max_trim_iid := 0;
          next_prepare_iid := 0; prepare_instances := kh_init; accept_instances := kh_init |}.

Definition proposer_propose p (v : list byte) (size : Z) : option (proposer T) :=
  vs ← carray_push_back (values p) (paxos_value_new v size);
  Some (with_values p vs).

Definition proposer_prepared_count p : Z := i32 (kh_size (prepare_instances p)).

Definition proposer_next_ballot p (b : Z) : Z :=
  if 0 <? b then u32 (MAX_N_OF_PROPOSERS + b) else u32 (MAX_N_OF_PROPOSERS + prop_id p).

(** The new contents of [*inst] and [*out]. *)
Definition proposer_preempt p inst now : instance * paxos_prepare :=
  let inst := {| inst_iid := inst_iid inst;
                 inst_ballot := proposer_next_ballot p (inst_ballot inst);
                 inst_value := inst_value inst; inst_promised_value := None;
                 inst_value_ballot := 0; inst_quorum := quorum_clear (inst_quorum inst);
                 created_at := now |} in
  (inst, prepare_of inst).

(** The tables [f] and [t] after the move, and the slot of [inst] in [t]. *)
Definition proposer_move_instance (f t : T instance) inst : option (T instance * T instance * Z) :=
  let k := kh_get f (inst_iid inst) in
  assert_ (negb (k =? kh_end f)) ;;
  let f := kh_del f k in
  '(t, k, rv) ← kh_put t (inst_iid inst) (set_inst_quorum inst (quorum_clear (inst_quorum inst)));
  assert_ (0 <? rv) ;;
  Some (f, t, k).

(** The loop over a table; returns the values given back and the table. *)
Definition trim_step (iid : Z) (st : option (carray paxos_value * T instance)) (k : Z) :
    option (carray paxos_value * T instance) :=
  match st with
  | None => None
  | Some (vs, h) =>
      match kh_slot h k with
      | None => Some (vs, h)
      | Some (_, inst) =>
          if inst_iid inst <=? iid then
            vs ← match inst_value inst with
                 | Some v => carray_push_back vs v
                 | None => Some vs
                 end;
            Some (vs, kh_del h k)
          else Some (vs, h)
      end
  end.

Definition proposer_trim_instances (vs : carray paxos_value) h (iid : Z) :
    option (carray paxos_value * T instance) :=
  foldl (trim_step iid) (Some (vs, h)) (kh_slots h).

Definition proposer_set_instance_id p (iid : Z) : option (proposer T) :=
  if next_prepare_iid p <? iid then
    '(vs, prep) ← proposer_trim_instances (values p) (prepare_instances p) iid;
    '(vs, acc) ← proposer_trim_instances vs (accept_instances p) iid;
    Some {| prop_id := prop_id p; prop_acceptors := prop_acceptors p; values := vs;
            max_trim_iid := max_trim_iid p; next_prepare_iid := iid;
            prepare_instances := prep; accept_instances := acc |}
  else Some p.

Definition proposer_prepare p now : option (proposer T * paxos_prepare) :=
  let iid := u32 (next_prepare_iid p + 1) in
  let bal := proposer_next_ballot p 0 in
  inst ← instance_new iid bal (prop_acceptors p) now;
  '(h, k, rv) ← kh_put (prepare_instances p) iid inst;
  assert_ (0 <? rv) ;;
  Some ({| prop_id := prop_id p; prop_acceptors := prop_acceptors p; values := values p;
           max_trim_iid := max_trim_iid p; next_prepare_iid := iid;
           prepare_instances := h; accept_instances := accept_instances p |},
        prepare_of inst).

Definition proposer_prepare_instance p (iid : Z) now : option (proposer T * paxos_prepare) :=
  let k := kh_get (prepare_instances p) iid in
  if k =? kh_end (prepare_instances p) then
    let bal := proposer_next_ballot p 0 in
    inst ← instance_new iid bal (prop_acceptors p) now;
    '(h, k, rv) ← kh_put (prepare_instances p) iid inst;
    assert_ (0 <? rv) ;;
    Some (with_tables p h (accept_instances p), prepare_of inst)
  else
    '(_, inst) ← kh_slot (prepare_instances p) k;
    let '(inst, out) := proposer_preempt p inst now in
    Some (with_tables p (kh_set (prepare_instances p) k inst) (accept_instances p), out).

(** The part of [proposer_receive_promise] that saves the value of a new
    promise in [*inst]. *)
Definition save_promised_value inst (ack : paxos_promise) : instance :=
  if 0 <? paxos_value_len (value ack) then
    if inst_value_ballot inst <? value_ballot ack then
      {| inst_iid := inst_iid inst; inst_ballot := inst_ballot inst;
         inst_value := inst_value inst;
         inst_promised_value := Some (paxos_value_new (default [] (paxos_value_val (value ack)))
                                        (paxos_value_len (value ack)));
         inst_value_ballot := value_ballot ack; inst_quorum := inst_quorum inst;
         created_at := created_at inst |}
    else inst
  else inst.

(** The result, [p] and [*out] ([None] when it is not written). *)
Definition proposer_receive_promise p (ack : paxos_promise) now :
    option (Z * proposer T * option paxos_prepare) :=
  let h := prepare_instances p in
  let k := kh_get h (iid ack) in
  if k =? kh_end h then Some (0, p, None) else
  '(_, inst) ← kh_slot h k;
  if ballot ack <? inst_ballot inst then Some (0, p, None) else
  if inst_ballot inst <? ballot ack then
    let '(inst, out) := proposer_preempt p inst now in
    Some (1, with_tables p (kh_set h k inst) (accept_instances p), Some out)
  else
    '(added, q) ← quorum_add (inst_quorum inst) (aid ack);
    let inst := set_inst_quorum inst q in
    if negb added then Some (0, with_tables p (kh_set h k inst) (accept_instances p), None) else
    let inst := save_promised_value inst ack in
    Some (0, with_tables p (kh_set h k inst) (accept_instances p), None).

(** The loop that finds the instance with the smallest id: the slot and the
    instance. *)
Definition min_step h (best : option (Z * instance)) (k : Z) : option (Z * instance) :=
  match kh_slot h k with
  | None => best
  | Some (_, inst') =>
      match best with
      | Some (_, inst) => if inst_iid inst' <? inst_iid inst then Some (k, inst') else best
      | None => Some (k, inst')
      end
  end.

Definition find_min h : option (Z * instance) := foldl (min_step h) None (kh_slots h).

Definition proposer_accept p : option (Z * proposer T * option paxos_accept) :=
  match find_min (prepare_instances p) with
  | None => Some (0, p, None)
  | Some (k, inst) =>
      if negb (quorum_reached (inst_quorum inst)) then Some (0, p, None) else
      '(v, vs) ← (if negb (instance_has_value inst) then carray_pop_front (values p)
                  else Some (inst_value inst, values p));
      let inst := set_inst_value inst v in
      let p := with_values p vs in
      let p := with_tables p (kh_set (prepare_instances p) k inst) (accept_instances p) in
      if negb (instance_has_value inst) && negb (instance_has_promised_value inst) then
        Some (0, p, None)
      else
        '(f, t, _) ← proposer_move_instance (prepare_instances p) (accept_instances p) inst;
        out ← instance_to_accept inst;
        Some (1, with_tables p f t, Some out)
  end.

Definition proposer_receive_accepted p (ack : paxos_accepted) : option (Z * proposer T) :=
  let h := accept_instances p in
  let k := kh_get h (iid ack) in
  if k =? kh_end h then Some (0, p) else
  '(_, inst) ← kh_slot h k;
  if ballot ack =? inst_ballot inst then
    '(added, q) ← quorum_add (inst_quorum inst) (aid ack);
    let inst := set_inst_quorum inst q in
    if negb added then Some (0, with_tables p (prepare_instances p) (kh_set h k inst)) else
    if quorum_reached q then
      vs ← match inst_promised_value inst, inst_value inst with
           | Some pv, Some v =>
               if negb (paxos_value_eq v pv) then carray_push_back (values p) v
               else Some (values p)
           | _, _ => Some (values p)
           end;
      Some (2, with_tables (with_values p vs) (prepare_instances p) (kh_del h k))
    else Some (1, with_tables p (prepare_instances p) (kh_set h k inst))
  else Some (0, p).

Definition proposer_receive_preempted p (ack : paxos_preempted) now :
    option (Z * proposer T * option paxos_prepare) :=
  let h := accept_instances p in
  let k := kh_get h (iid ack) in
  if k =? kh_end h then Some (0, p, None) else
  '(_, inst) ← kh_slot h k;
  if inst_ballot inst <? ballot ack then
    '(f, t, k) ← proposer_move_instance h (prepare_instances p) inst;
    let inst := set_inst_quorum inst (quorum_clear (inst_quorum inst)) in
    let '(inst, out) := proposer_preempt p inst now in
    Some (1, with_tables p (kh_set t k inst) f, Some out)
  else Some (0, p, None).

Definition proposer_receive_acceptor_state p (state : paxos_acceptor_state) : option (proposer T) :=
  if max_trim_iid p <? state_trim_iid state then
    proposer_set_instance_id
      {| prop_id := prop_id p; prop_acceptors := prop_acceptors p; values := values p;
         max_trim_iid := state_trim_iid state; next_prepare_iid := next_prepare_iid p;
         prepare_instances := prepare_instances p; accept_instances := accept_instances p |}
      (state_trim_iid state)
  else Some p.

(** ** Timeouts *)

Definition proposer_timeout_iterator p now : timeout_iterator :=
  {| pi := 0; ai := 0; timeout := now |}.

(** The new value of [*k] and the instance found there; [n] is the number of
    slots from [k] to [kh_end(h)]. *)
Fixpoint next_timedout_from (proposer_timeout : Z) (n : nat) h (k : Z) (t : timeval) :
    Z * option instance :=
  match n with
  | O => (k, None)
  | S n' =>
      match kh_slot h k with
      | None => next_timedout_from proposer_timeout n' h (k + 1) t
      | Some (_, inst) =>
          if quorum_reached (inst_quorum inst) then
            next_timedout_from proposer_timeout n' h (k + 1) t
          else if instance_has_timedout proposer_timeout inst t then (k, Some inst)
          else next_timedout_from proposer_timeout n' h (k + 1) t
      end
  end.

Definition next_timedout (proposer_timeout : Z) h (k : Z) (t : timeval) : Z * option instance :=
  next_timedout_from proposer_timeout (Z.to_nat (kh_end h - k)) h k t.

Definition timeout_iterator_prepare (proposer_timeout : Z) (iter : timeout_iterator) p :
    timeout_iterator * proposer T * option paxos_prepare :=
  let h := prepare_instances p in
  let '(k, found) := next_timedout proposer_timeout h (pi iter) (timeout iter) in
  let iter := {| pi := k; ai := ai iter; timeout := timeout iter |} in
  match found with
  | None => (iter, p, None)
  | Some inst =>
      (iter, with_tables p (kh_set h k (set_created_at inst (timeout iter))) (accept_instances p),
       Some (prepare_of inst))
  end.

Definition timeout_iterator_accept (proposer_timeout : Z) (iter : timeout_iterator) p :
    option (timeout_iterator * proposer T * option paxos_accept) :=
  let h := accept_instances p in
  let '(k, found) := next_timedout proposer_timeout h (ai iter) (timeout iter) in
  let iter := {| pi := pi iter; ai := k; timeout := timeout iter |} in
  match found with
  | None => Some (iter, p, None)
  | Some inst =>
      out ← instance_to_accept inst;
      Some (iter, with_tables p (prepare_instances p)
                    (kh_set h k (set_created_at inst (timeout iter))), Some out)
  end.
End proposer.

(** ** Effect of the operations on the tables *)

Section effects.
Context `{KH : KHash T}.
Implicit Types (p : proposer T) (inst : instance) (h : T instance) (now : timeval).

(** The instances in phase 1 and in phase 2. *)
Definition preparing p : gmap Z instance := kh_map (prepare_instances p).
Definition accepting p : gmap Z instance := kh_map (accept_instances p).

Definition tables_wf p : Prop := kh_wf (prepare_instances p) /\ kh_wf (accept_instances p).

(** [p'] is [p] with the tables [m1] and [m2]. *)
Definition tables_to p p' (m1 m2 : gmap Z instance) : Prop :=
  prop_id p' = prop_id p /\ prop_acceptors p' = prop_acceptors p /\
  max_trim_iid p' = max_trim_iid p /\ next_prepare_iid p' = next_prepare_iid p /\
  tables_wf p' /\ preparing p' = m1 /\ accepting p' = m2.

(** The look-up at the beginning of a handler. *)
Lemma handler_lookup h i :
  kh_wf h -> is_u32 i ->
  (kh_get h i = kh_end h /\ kh_map h !! i = None) \/
  (kh_get h i <> kh_end h /\ exists inst, kh_slot h (kh_get h i) = Some (i, inst) /\
    kh_map h !! i = Some inst).
Proof.
  intros Hwf Hi. destruct (kh_map h !! i) as [inst|] eqn:Hm.
  - right. pose proof Hm as [s Hs]%kh_map_Some; [|done].
    destruct (kh_slot_key _ _ _ _ Hwf Hs) as [_ ->]. pose proof (kh_slot_range _ _ _ Hwf Hs).
    split; [lia|]. eauto.
  - left. split; [|done]. apply kh_get_absent; [done|done|]. by apply kh_map_None.
Qed.

Lemma receive_promise_effect p ack now ret p' out :
  tables_wf p -> is_u32 (iid ack) ->
  proposer_receive_promise p ack now = Some (ret, p', out) ->
  ret = 0 /\ p' = p /\ out = None \/
  exists inst, preparing p !! iid ack = Some inst /\
    (inst_ballot inst < ballot ack /\ ret = 1 /\ out = Some (proposer_preempt p inst now).2 /\
       tables_to p p' (<[iid ack := (proposer_preempt p inst now).1]> (preparing p)) (accepting p) \/
     inst_ballot inst = ballot ack /\ ret = 0 /\ out = None /\ exists added q,
       quorum_add (inst_quorum inst) (aid ack) = Some (added, q) /\
       tables_to p p' (<[iid ack := if added : bool then save_promised_value (set_inst_quorum inst q) ack
                                    else set_inst_quorum inst q]> (preparing p)) (accepting p)).
Proof.
  intros [Hwp Hwa] Hi. unfold proposer_receive_promise.
  destruct (handler_lookup (prepare_instances p) (iid ack) Hwp Hi) as [[-> _]|(Hne & inst & Hs & Hm)].
  { rewrite Z.eqb_refl. intros [= <- <- <-]. auto. }
  apply Z.eqb_neq in Hne as ->. rewrite Hs. simpl.
  destruct (Z.ltb_spec (ballot ack) (inst_ballot inst)); [intros [= <- <- <-]; auto|].
  assert (forall inst', tables_to p (with_tables p (kh_set (prepare_instances p)
    (kh_get (prepare_instances p) (iid ack)) inst') (accept_instances p))
    (<[iid ack := inst']> (preparing p)) (accepting p)) as Hset.
  { intros inst'. destruct (kh_map_set _ _ _ _ inst' Hwp Hs) as [Hw' Hm']. by split_and!. }
  intros Hrun. right. exists inst. split; [done|].
  destruct (Z.ltb_spec (inst_ballot inst) (ballot ack)).
  - left. simpl in Hrun. simplify_eq. do 3 (split; [done|]). apply Hset.
  - right. split; [lia|]. simplify_bind. destruct p0 as [added q].
    destruct added; simpl in Hrun; simplify_eq; (split; [done|]; split; [done|]; eexists _, _; split; [done|]; apply Hset).
Qed.

Lemma receive_promise_values p ack now ret p' out :
  proposer_receive_promise p ack now = Some (ret, p', out) -> values p' = values p.
Proof.
  unfold proposer_receive_promise. destruct (_ =? _); [by intros [= <- <- <-]|].
  destruct (kh_slot _ _) as [[k inst]|]; simpl; [|done].
  destruct (_ <? _); [by intros [= <- <- <-]|]. destruct (_ <? _); [by intros [= <- <- <-]|].
  destruct (quorum_add _ _) as [[[] q]|]; simpl; [..|done]; by intros [= <- <- <-].
Qed.

Lemma prepare_effect p now p' out :
  tables_wf p -> proposer_prepare p now = Some (p', out) ->
  exists inst, instance_new (u32 (next_prepare_iid p + 1)) (proposer_next_ballot p 0)
      (prop_acceptors p) now = Some inst /\ out = prepare_of inst /\
    preparing p !! u32 (next_prepare_iid p + 1) = None /\
    prop_id p' = prop_id p /\ prop_acceptors p' = prop_acceptors p /\ values p' = values p /\
    next_prepare_iid p' = u32 (next_prepare_iid p + 1) /\ tables_wf p' /\
    preparing p' = <[u32 (next_prepare_iid p + 1) := inst]> (preparing p) /\
    accepting p' = accepting p.
Proof.
  intros [Hwp Hwa] Hrun. unfold proposer_prepare in Hrun.
  destruct (instance_new _ _ _ _) as [inst|] eqn:Hinst; simpl in Hrun; [|done].
  destruct (kh_put _ _ _) as [[[h k] rv]|] eqn:Hput; simpl in Hrun; [|done].
  apply kh_map_put in Hput as (Hwf & Hmap & _ & Hrv & Hrv0); [|done|apply u32_range].
  destruct (Z.ltb_spec 0 rv); simpl in Hrun; [|done]. simplify_eq. exists inst.
  do 2 (split; [done|]). split; [apply eq_None_not_Some; intros ?%Hrv0; lia|]. by split_and!.
Qed.

(** The loop of [find_min] over the slots [l], when every key is the id of its
    instance. *)
Lemma min_loop h l best :
  (forall s k inst, kh_slot h s = Some (k, inst) -> k = inst_iid inst) ->
  (forall s inst, best = Some (s, inst) -> kh_slot h s = Some (inst_iid inst, inst)) ->
  match foldl (min_step h) best l with
  | None => best = None /\ forall s, s ∈ l -> kh_slot h s = None
  | Some (s, inst) => kh_slot h s = Some (inst_iid inst, inst) /\
      (forall s' inst', best = Some (s', inst') -> inst_iid inst <= inst_iid inst') /\
      (forall s' k inst', s' ∈ l -> kh_slot h s' = Some (k, inst') -> inst_iid inst <= k)
  end.
Proof.
  intros Hkeys. revert best. induction l as [|s l IH]; intros best Hbest; simpl.
  { destruct best as [[s inst]|]; [|set_solver]. split; [by apply Hbest|]. split; [naive_solver|set_solver]. }
  specialize (IH (min_step h best s)). unfold min_step in *.
  destruct (kh_slot h s) as [[k i]|] eqn:Hs.
  - pose proof (Hkeys _ _ _ Hs). subst k.
    assert (exists s1 i1, match best with
      | Some (_, inst) => if inst_iid i <? inst_iid inst then Some (s, i) else best
      | None => Some (s, i) end = Some (s1, i1) /\ kh_slot h s1 = Some (inst_iid i1, i1) /\
      inst_iid i1 <= inst_iid i /\
      forall s' inst', best = Some (s', inst') -> inst_iid i1 <= inst_iid inst') as (s1 & i1 & Heq & Hs1 & Hle & Hleb).
    { destruct best as [[s0 i0]|]; [|naive_solver lia].
      destruct (Z.ltb_spec (inst_iid i) (inst_iid i0)); eexists _, _; (split; [done|]);
        (split; [by auto|]); split; try lia; intros ? ? [= <- <-]; lia. }
    rewrite Heq in *. specialize (IH ltac:(naive_solver)).
    destruct (foldl _ _ l) as [[s2 i2]|]; [|naive_solver].
    destruct IH as (H1 & H2 & H3). specialize (H2 _ _ eq_refl). split; [done|].
    split; [intros s' inst' Hb; specialize (Hleb _ _ Hb); lia|].
    intros s' k' inst' [->|Hin]%elem_of_cons Hs'; [|by eapply H3]. rewrite Hs in Hs'. simplify_eq. lia.
  - specialize (IH Hbest). destruct (foldl _ _ l) as [[s2 i2]|]; destruct IH as (H1 & H2).
    + split; [done|]. split; [by apply H2|]. intros s' k' inst' [->|Hin]%elem_of_cons Hs'; [congruence|].
      by eapply H2.
    + split; [done|]. intros s' [->|Hin]%elem_of_cons; [done|by apply H2].
Qed.

(** [find_min] finds an instance with the smallest id. *)
Lemma find_min_spec h :
  kh_wf h -> (forall k inst, kh_map h !! k = Some inst -> inst_iid inst = k) ->
  match find_min h with
  | None => kh_map h = ∅
  | Some (s, inst) => kh_slot h s = Some (inst_iid inst, inst) /\
      forall k inst', kh_map h !! k = Some inst' -> inst_iid inst <= k
  end.
Proof.
  intros Hwf Hkeys. unfold find_min.
  pose proof (min_loop h (kh_slots h) None) as Hloop.
  specialize (Hloop ltac:(intros s k inst Hs; symmetry; apply Hkeys, kh_map_Some; eauto) ltac:(done)).
  destruct (foldl _ _ _) as [[s inst]|].
  - destruct Hloop as (H1 & _ & H3). split; [done|]. intros k inst' [s' Hs']%kh_map_Some; [|done].
    eapply H3; [by eapply elem_of_kh_slots|done].
  - destruct Hloop as [_ H2]. apply map_empty. intros k. apply kh_map_None; [done|]. intros s v Hs.
    rewrite H2 in Hs; [done|by eapply elem_of_kh_slots].
Qed.

(** [proposer_move_instance] moves the instance and clears its quorum. *)
Lemma move_effect f t inst f' t' k inst0 :
  kh_wf f -> kh_wf t -> is_u32 (inst_iid inst) -> kh_map f !! inst_iid inst = Some inst0 ->
  proposer_move_instance f t inst = Some (f', t', k) ->
  let inst' := set_inst_quorum inst (quorum_clear (inst_quorum inst)) in
  kh_wf f' /\ kh_wf t' /\ kh_map f' = delete (inst_iid inst) (kh_map f) /\
  kh_map t !! inst_iid inst = None /\
  kh_map t' = <[inst_iid inst := inst']> (kh_map t) /\ kh_slot t' k = Some (inst_iid inst, inst').
Proof.
  intros Hwf Hwt Hi Hm Hrun inst'. unfold proposer_move_instance in Hrun.
  destruct (handler_lookup f (inst_iid inst) Hwf Hi) as [[_ ?]|(Hne & i0 & Hs & _)]; [congruence|].
  apply Z.eqb_neq in Hne. rewrite Hne in Hrun. simpl in Hrun.
  destruct (kh_put _ _ _) as [[[h k'] rv]|] eqn:Hput; simpl in Hrun; [|done].
  apply kh_map_put in Hput as (Hwt' & Hmap & Hslot & Hrv & Hrv0); [|done|done].
  destruct (Z.ltb_spec 0 rv); simpl in Hrun; [|done]. simplify_eq.
  destruct (kh_map_del _ _ _ _ Hwf Hs) as [Hwf' Hdel].
  split_and!; try done. apply eq_None_not_Some. intros ?%Hrv0. lia.
Qed.

(** Keys of the table are the ids of its instances. *)
Definition keys_ok (m : gmap Z instance) : Prop :=
  forall k inst, m !! k = Some inst -> inst_iid inst = k /\ is_u32 k.

(** The instance [proposer_accept] moves, with the value it may take from the
    queue [q], and the rest of the queue. *)
Definition take_value inst (q : list paxos_value) : instance * list paxos_value :=
  if instance_has_value inst then (inst, q)
  else (set_inst_value inst (List.hd_error q), List.tl q).

Lemma accept_effect p q ret p' out :
  tables_wf p -> keys_ok (preparing p) -> contents (values p) q ->
  proposer_accept p = Some (ret, p', out) ->
  ret = 0 /\ out = None /\ tables_to p p' (preparing p) (accepting p) /\ contents (values p') q \/
  exists inst inst' q' m, ret = 1 /\ preparing p !! inst_iid inst = Some inst /\
    (forall k i, preparing p !! k = Some i -> inst_iid inst <= k) /\
    quorum_reached (inst_quorum inst) = true /\ take_value inst q = (inst', q') /\
    instance_to_accept inst' = Some m /\ out = Some m /\ contents (values p') q' /\
    accepting p !! inst_iid inst = None /\
    tables_to p p' (delete (inst_iid inst) (preparing p))
      (<[inst_iid inst := set_inst_quorum inst' (quorum_clear (inst_quorum inst))]> (accepting p)).
Proof.
  intros [Hwp Hwa] Hkeys Hq Hrun. unfold proposer_accept in Hrun.
  pose proof (find_min_spec (prepare_instances p) Hwp (fun k i Hk => proj1 (Hkeys k i Hk))) as Hmin.
  assert (tables_to p p (preparing p) (accepting p)) as Hsame by by split_and!.
  destruct (find_min (prepare_instances p)) as [[s inst]|]; [|left; simplify_eq; done].
  destruct Hmin as [Hs Hmin].
  destruct (quorum_reached (inst_quorum inst)) eqn:Hreach; simpl in Hrun; [|left; simplify_eq; done].
  assert (preparing p !! inst_iid inst = Some inst) as Hm by (apply kh_map_Some; eauto).
  destruct (Hkeys _ _ Hm) as [_ Hi32].
  assert (exists vs inst' q', take_value inst q = (inst', q') /\ contents vs q' /\
    inst' = set_inst_value inst (inst_value inst') /\
    (if negb (instance_has_value inst) then carray_pop_front (values p)
     else Some (inst_value inst, values p)) = Some (inst_value inst', vs) /\
    (inst_value inst' = None -> q' = q /\ inst' = inst)) as (vs & inst' & q' & Htake & Hvs & Hi' & Hpop & Hnone).
  { unfold take_value, instance_has_value. destruct (inst_value inst) as [v|] eqn:Hv.
    - exists (values p), inst, q. rewrite Hv. simpl. split_and!; try done. destruct inst; simpl in *. by subst.
    - destruct (pop_front_contents (values p) q Hq) as (vs & Hp & Hvs).
      eexists vs, _, _. split; [done|]. simpl. split_and!; try done.
      destruct q; [|done]. intros _. split; [done|]. destruct inst; simpl in *. by subst. }
  rewrite Hpop in Hrun. simpl in Hrun. rewrite <- Hi' in Hrun.
  destruct (kh_map_set _ _ _ _ inst' Hwp Hs) as [Hw1 Hm1].
  destruct (negb (instance_has_value inst') && negb (instance_has_promised_value inst')) eqn:Hhas.
  - left. simplify_eq. destruct (inst_value inst') eqn:Hv; [by unfold instance_has_value in Hhas; rewrite Hv in Hhas|].
    destruct (Hnone eq_refl) as [-> ->]. do 2 (split; [done|]). split; [|done].
    split_and!; try done. unfold preparing at 1. simpl. by rewrite Hm1, insert_id.
  - right. destruct (proposer_move_instance _ _ _) as [[[f t] k]|] eqn:Hmove; simpl in Hrun; [|done].
    destruct (instance_to_accept inst') as [m|] eqn:Hacc; simpl in Hrun; [|done]. simplify_eq.
    assert (inst_iid inst' = inst_iid inst /\ inst_quorum inst' = inst_quorum inst) as [Hii Hqq]
      by (rewrite Hi'; done).
    eapply (move_effect _ _ _ _ _ _ inst') in Hmove as (Hwf & Hwt & Hf & Hno & Ht & _);
      [|done|done|by rewrite Hii|by rewrite Hii, Hm1, lookup_insert_eq].
    exists inst, inst', q', m. rewrite Hii, Hqq in *. do 9 (split; [done|]). split_and!; try done.
    unfold preparing at 1. simpl. by rewrite Hf, Hm1, delete_insert_eq.
Qed.

(** Why it returns 0: the lowest instance has a quorum only if there is no value for it. *)
Lemma accept_stops p q p' out inst :
  tables_wf p -> keys_ok (preparing p) -> contents (values p) q -> proposer_accept p = Some (0, p', out) ->
  preparing p !! inst_iid inst = Some inst -> (forall k i, preparing p !! k = Some i -> inst_iid inst <= k) ->
  quorum_reached (inst_quorum inst) = true -> instance_to_accept (take_value inst q).1 = None.
Proof.
  intros [Hwp Hwa] Hkeys Hq Hrun Hm Hlow Hreach. unfold proposer_accept in Hrun.
  pose proof (find_min_spec (prepare_instances p) Hwp (fun k i Hk => proj1 (Hkeys k i Hk))) as Hmin.
  destruct (find_min (prepare_instances p)) as [[s inst0]|]; [|unfold preparing in Hm; by rewrite Hmin in Hm].
  destruct Hmin as [Hs Hmin].
  assert (preparing p !! inst_iid inst0 = Some inst0) as Hm0 by (apply kh_map_Some; eauto).
  assert (inst0 = inst) as ->.
  { pose proof (Hlow _ _ Hm0). pose proof (Hmin _ _ Hm). replace (inst_iid inst0) with (inst_iid inst) in Hm0 by lia. congruence. }
  rewrite Hreach in Hrun. cbn [negb] in Hrun. unfold take_value.
  destruct (instance_has_value inst) eqn:Hhas; cbn [negb] in Hrun.
  - cbn [mbind option_bind] in Hrun. unfold instance_has_value in *. cbn [inst_value set_inst_value] in Hrun.
    rewrite Hhas in Hrun. cbn [negb andb] in Hrun. destruct (proposer_move_instance _ _ _) as [[[f t] x]|]; [|done]. cbn [mbind option_bind] in Hrun. by destruct (instance_to_accept _).
  - destruct (pop_front_contents (values p) q Hq) as (vs & Hpop & _). rewrite Hpop in Hrun. cbn [mbind option_bind] in Hrun.
    destruct (negb _ && negb _) eqn:Hno in Hrun; [|destruct (proposer_move_instance _ _ _) as [[[f t] x]|]; [|done]; cbn [mbind option_bind] in Hrun; by destruct (instance_to_accept _)].
    unfold instance_to_accept, instance_has_value, instance_has_promised_value in *. cbn in *.
    by destruct q, (inst_promised_value inst).
Qed.

(** Writing an instance back to the table it is in. *)
Lemma set_accepting p k s inst0 inst :
  tables_wf p -> kh_slot (accept_instances p) s = Some (k, inst0) ->
  tables_to p (with_tables p (prepare_instances p) (kh_set (accept_instances p) s inst))
    (preparing p) (<[k := inst]> (accepting p)).
Proof.
  intros [Hwp Hwa] Hs. destruct (kh_map_set _ _ _ _ inst Hwa Hs) as [Hw Hm]. by split_and!.
Qed.

Lemma set_preparing p k s inst0 inst :
  tables_wf p -> kh_slot (prepare_instances p) s = Some (k, inst0) ->
  tables_to p (with_tables p (kh_set (prepare_instances p) s inst) (accept_instances p))
    (<[k := inst]> (preparing p)) (accepting p).
Proof.
  intros [Hwp Hwa] Hs. destruct (kh_map_set _ _ _ _ inst Hwp Hs) as [Hw Hm]. by split_and!.
Qed.

Lemma receive_accepted_effect p q ack ret p' :
  tables_wf p -> is_u32 (iid ack) -> contents (values p) q ->
  proposer_receive_accepted p ack = Some (ret, p') ->
  ret = 0 /\ p' = p \/
  exists inst added qr, accepting p !! iid ack = Some inst /\ ballot ack = inst_ballot inst /\
    quorum_add (inst_quorum inst) (aid ack) = Some (added, qr) /\
    ((added && quorum_reached qr) = false /\ (ret = if added : bool then 1 else 0) /\
       values p' = values p /\
       tables_to p p' (preparing p) (<[iid ack := set_inst_quorum inst qr]> (accepting p)) \/
     (added && quorum_reached qr) = true /\ ret = 2 /\
       tables_to p p' (preparing p) (delete (iid ack) (accepting p)) /\
       (contents (values p') q \/
        exists v, inst_value inst = Some v /\ contents (values p') (q ++ [v]))).
Proof.
  intros Hwf Hi Hq. pose proof Hwf as [Hwp Hwa]. unfold proposer_receive_accepted.
  destruct (handler_lookup (accept_instances p) (iid ack) Hwa Hi) as [[-> _]|(Hne & inst & Hs & Hm)].
  { rewrite Z.eqb_refl. intros [= <- <-]. auto. }
  apply Z.eqb_neq in Hne as ->. rewrite Hs. simpl.
  destruct (Z.eqb_spec (ballot ack) (inst_ballot inst)) as [Hb|_]; [|intros [= <- <-]; auto].
  destruct (quorum_add _ _) as [[added qr]|] eqn:Hadd; simpl; [|done].
  intros Hrun. right. exists inst, added, qr. do 3 (split; [done|]).
  destruct added; simpl in *.
  - destruct (quorum_reached qr) eqn:Hreach.
    + right. split; [done|]. destruct (kh_map_del _ _ _ _ Hwa Hs) as [Hw Hd].
      destruct (match inst_promised_value inst with Some _ => _ | None => _ end) as [vs|] eqn:Hvs;
        simpl in Hrun; [|done]. simplify_eq. split; [done|]. split; [by split_and!|].
      simpl. destruct (inst_promised_value inst) as [pv|], (inst_value inst) as [v|];
        simplify_eq; auto.
      destruct (negb (paxos_value_eq v pv)); simplify_eq; auto.
      right. exists v. split; [done|]. by eapply push_back_inv.
    + left. simplify_eq. do 3 (split; [done|]). by eapply set_accepting.
  - left. simplify_eq. do 3 (split; [done|]). by eapply set_accepting.
Qed.

Lemma receive_preempted_effect p ack now ret p' out :
  tables_wf p -> keys_ok (accepting p) -> is_u32 (iid ack) ->
  proposer_receive_preempted p ack now = Some (ret, p', out) ->
  ret = 0 /\ p' = p /\ out = None \/
  exists inst, ret = 1 /\ accepting p !! iid ack = Some inst /\ inst_ballot inst < ballot ack /\
    preparing p !! iid ack = None /\
    let inst1 := set_inst_quorum inst (quorum_clear (inst_quorum inst)) in
    out = Some (proposer_preempt p inst1 now).2 /\ values p' = values p /\
    tables_to p p' (<[iid ack := (proposer_preempt p inst1 now).1]> (preparing p))
      (delete (iid ack) (accepting p)).
Proof.
  intros Hwf Hkeys Hi. pose proof Hwf as [Hwp Hwa]. unfold proposer_receive_preempted.
  destruct (handler_lookup (accept_instances p) (iid ack) Hwa Hi) as [[-> _]|(Hne & inst & Hs & Hm)].
  { rewrite Z.eqb_refl. intros [= <- <- <-]. auto. }
  apply Z.eqb_neq in Hne as ->. rewrite Hs. simpl.
  destruct (Z.ltb_spec (inst_ballot inst) (ballot ack)) as [Hb|_]; [|intros [= <- <- <-]; auto].
  destruct (proposer_move_instance _ _ _) as [[[f t] k]|] eqn:Hmove; simpl; [|done].
  destruct (Hkeys _ _ Hm) as [Hki _].
  eapply (move_effect _ _ _ _ _ _ inst) in Hmove as (Hwf' & Hwt & Hf & Hno & Ht & Hsl);
    [|done|done|by rewrite Hki|by rewrite Hki].
  rewrite Hki in Hf, Hno, Ht, Hsl. intros Hrun. right. exists inst. simpl in *. injection Hrun as <- <- <-.
  do 6 (split; [done|]).
  set (inst2 := {| inst_iid := inst_iid inst |}).
  destruct (kh_map_set _ _ _ _ inst2 Hwt Hsl) as [Hw2 Hm2].
  split_and!; try done. unfold preparing at 1. simpl. by rewrite Hm2, Ht, insert_insert_eq.
Qed.

(** ** Trimming *)

(** The table component of the loop is a [prune_step] loop, and the values of
    the removed instances go to the queue. *)
Lemma trim_fold i l vs h q (V : paxos_value -> Prop) vs' h' :
  kh_wf h -> contents vs q -> Forall V q ->
  (forall s k inst v, kh_slot h s = Some (k, inst) -> inst_value inst = Some v -> V v) ->
  foldl (trim_step i) (Some (vs, h)) l = Some (vs', h') ->
  h' = foldl (prune_step (fun inst => inst_iid inst <=? i)) h l /\
  exists q', contents vs' q' /\ Forall V q'.
Proof.
  revert vs h q. induction l as [|s l IH]; intros vs h q Hwf Hq HV Hinst; simpl.
  { intros [= <- <-]. eauto. }
  assert (foldl (trim_step i) None l = None) as Hnone by (clear; induction l; done).
  unfold prune_step at 2. destruct (kh_slot h s) as [[k inst]|] eqn:Hs; [|by eapply IH].
  destruct (inst_iid inst <=? i); [|by eapply IH].
  destruct (kh_del_spec h s _ Hwf Hs) as (Hw & _ & Hsl).
  assert (forall s' k' inst' v, kh_slot (kh_del h s) s' = Some (k', inst') ->
    inst_value inst' = Some v -> V v) as Hinst'.
  { intros s' k' inst' v. rewrite Hsl. case_decide; [done|]. apply Hinst. }
  destruct (inst_value inst) as [v|] eqn:Hv; simpl; [|by eapply IH].
  destruct (carray_push_back vs v) as [vs1|] eqn:Hpush; simpl; [|by rewrite Hnone].
  eapply IH; [done|by eapply push_back_inv| |done].
  apply Forall_app. split; [done|]. apply Forall_singleton. by eapply Hinst.
Qed.

Lemma trim_effect i vs h q (V : paxos_value -> Prop) vs' h' :
  kh_wf h -> contents vs q -> Forall V q -> keys_ok (kh_map h) ->
  (forall k inst v, kh_map h !! k = Some inst -> inst_value inst = Some v -> V v) ->
  proposer_trim_instances vs h i = Some (vs', h') ->
  kh_wf h' /\ kh_map h' = filter (fun kv => i < kv.1) (kh_map h) /\
  exists q', contents vs' q' /\ Forall V q'.
Proof.
  intros Hwf Hq HV Hkeys Hinst Hrun.
  eapply trim_fold in Hrun as [-> Hq']; [|done|done|done|].
  - destruct (kh_map_prune (fun inst => inst_iid inst <=? i) h Hwf) as [Hwf' Hm].
    split; [done|]. split; [|done]. rewrite Hm. apply map_filter_ext. intros k inst Hk. simpl.
    destruct (Hkeys _ _ Hk) as [-> _]. destruct (Z.leb_spec k i); naive_solver lia.
  - intros s k inst v Hs. apply (Hinst k). apply kh_map_Some; eauto.
Qed.

(** Instances up to [i] leave the tables. *)
Lemma set_instance_id_effect p i q (V : paxos_value -> Prop) p' :
  tables_wf p -> keys_ok (preparing p) -> keys_ok (accepting p) ->
  contents (values p) q -> Forall V q ->
  (forall k inst v, preparing p !! k = Some inst -> inst_value inst = Some v -> V v) ->
  (forall k inst v, accepting p !! k = Some inst -> inst_value inst = Some v -> V v) ->
  proposer_set_instance_id p i = Some p' ->
  p' = p \/
  next_prepare_iid p < i /\ prop_id p' = prop_id p /\ prop_acceptors p' = prop_acceptors p /\
  next_prepare_iid p' = i /\ tables_wf p' /\
  preparing p' = filter (fun kv => i < kv.1) (preparing p) /\
  accepting p' = filter (fun kv => i < kv.1) (accepting p) /\
  exists q', contents (values p') q' /\ Forall V q'.
Proof.
  intros [Hwp Hwa] Hkp Hka Hq HV HVp HVa Hrun. unfold proposer_set_instance_id in Hrun.
  destruct (Z.ltb_spec (next_prepare_iid p) i); [right|left; by simplify_eq].
  destruct (proposer_trim_instances (values p) _ _) as [[vs1 h1]|] eqn:H1; simpl in Hrun; [|done].
  destruct (proposer_trim_instances vs1 _ _) as [[vs2 h2]|] eqn:H2; simpl in Hrun; [|done].
  eapply (trim_effect _ _ _ _ V) in H1 as (Hw1 & Hm1 & q1 & Hq1 & HV1); [|done..].
  eapply (trim_effect _ _ _ _ V) in H2 as (Hw2 & Hm2 & q2 & Hq2 & HV2); [|done..].
  simplify_eq. split; [done|]. do 3 (split; [done|]). do 3 (split; [done|]). simpl. eauto.
Qed.

(** ** Timeouts *)

Lemma next_timedout_from_spec to n h k t k' inst :
  next_timedout_from to n h k t = (k', Some inst) ->
  exists i, kh_slot h k' = Some (i, inst) /\ quorum_reached (inst_quorum inst) = false /\
    instance_has_timedout to inst t = true.
Proof.
  revert k. induction n as [|n IH]; intros k; simpl; [done|].
  destruct (kh_slot h k) as [[i inst']|] eqn:Hs; [|apply IH].
  destruct (quorum_reached (inst_quorum inst')) eqn:Hr; [apply IH|].
  destruct (instance_has_timedout to inst' t) eqn:Ht; [|apply IH].
  intros [= <- <-]. eauto.
Qed.

(** A timed-out instance is sent again with its ballot, and only its time
    stamp changes. *)
Lemma timeout_prepare_effect to iter p iter' p' out :
  tables_wf p -> timeout_iterator_prepare to iter p = (iter', p', out) ->
  p' = p /\ out = None \/
  exists k inst, preparing p !! k = Some inst /\ out = Some (prepare_of inst) /\
    values p' = values p /\
    tables_to p p' (<[k := set_created_at inst (timeout iter)]> (preparing p)) (accepting p).
Proof.
  intros Hwf Hrun. unfold timeout_iterator_prepare in Hrun.
  destruct (next_timedout _ _ _ _) as [k [inst|]] eqn:Hn; simplify_eq; [|auto].
  apply next_timedout_from_spec in Hn as (i & Hs & _). right. exists i, inst.
  split; [apply kh_map_Some; [apply Hwf|eauto]|]. do 2 (split; [done|]). by eapply set_preparing.
Qed.

Lemma timeout_accept_effect to iter p iter' p' out :
  tables_wf p -> timeout_iterator_accept to iter p = Some (iter', p', out) ->
  p' = p /\ out = None \/
  exists k inst, accepting p !! k = Some inst /\ out = instance_to_accept inst /\ is_Some out /\
    values p' = values p /\
    tables_to p p' (preparing p) (<[k := set_created_at inst (timeout iter)]> (accepting p)).
Proof.
  intros Hwf Hrun. unfold timeout_iterator_accept in Hrun.
  destruct (next_timedout _ _ _ _) as [k [inst|]] eqn:Hn; [|simplify_eq; auto].
  apply next_timedout_from_spec in Hn as (i & Hs & _).
  destruct (instance_to_accept inst) as [m|] eqn:Hacc; simpl in Hrun; [|done]. simplify_eq.
  right. exists i, inst.
  split; [apply kh_map_Some; [apply Hwf|eauto]|]. do 3 (split; [done|]). by eapply set_accepting.
Qed.
End effects.
