(* ===== verification/EvProposer.v ===== *)
(** * The proposer process ([evpaxos/evproposer.c])

    The handlers that drive the proposer of [Proposer.v]: they keep
    [preexec_window] instances in phase 1, propose as soon as an instance has a
    quorum of promises, and retry what times out.  Every message goes to all
    acceptors.  [clock i] is the [i]-th time the handler reads with
    [gettimeofday].

    [None] is undefined behaviour, a failed [assert] or a loop that does not
    end. *)

From S2P Require Import Prelude Bytes PaxosTypes EvConfig MessagePack TypesPack Peers.
From S2P Require Import KhashInterface Khash KhashResize Carray Quorum Proposer.

Record evproposer (T : Type -> Type) := Evproposer {
  ep_id : Z;
  preexec_window : Z;
  ep_state : proposer T;
  ep_tv : timeval;
  timeout_pending : bool;
}.
Arguments Evproposer {T}. Arguments ep_id {T}. Arguments preexec_window {T}. Arguments ep_state {T}.
Arguments ep_tv {T}. Arguments timeout_pending {T}.

Section evproposer.
Context `{KH : KHash T} `{MP : Msgpack}.
Implicit Types (ps : peers peer_cb) (p : evproposer T) (clock : Z -> timeval).

Definition set_proposer p (st : proposer T) : evproposer T :=
  {| ep_id := ep_id p; preexec_window := preexec_window p; ep_state := st; ep_tv := ep_tv p;
     timeout_pending := timeout_pending p |}.

Definition peer_send_prepare (pr : paxos_prepare) : peer -> option peer := peer_send (PAXOS_PREPARE pr).
Definition peer_send_accept (ar : paxos_accept) : peer -> option peer := peer_send (PAXOS_ACCEPT ar).

(** [n] turns of the loop, the [i]-th time being [clock i]. *)
Fixpoint preexecute_loop (n : nat) (i : Z) clock ps (st : proposer T) : option (peers peer_cb * proposer T) :=
  match n with
  | O => Some (ps, st)
  | S n =>
      '(st, pr) ← proposer_prepare st (clock i);
      ps ← peers_foreach_acceptor ps (peer_send_prepare pr);
      preexecute_loop n (i + 1) clock ps st
  end.

Definition proposer_preexecute clock ps p : option (peers peer_cb * evproposer T) :=
  let count := preexec_window p - proposer_prepared_count (ep_state p) in
  if count <=? 0 then Some (ps, p) else
  '(ps, st) ← preexecute_loop (Z.to_nat count) 0 clock ps (ep_state p);
  Some (ps, set_proposer p st).

(** [while (proposer_accept(p->state, &accept))]: every turn takes an instance
    out of phase 1, so that their number plus one is enough fuel
    ([accept_loop_total]). *)
Fixpoint accept_loop (fuel : nat) ps (st : proposer T) : option (peers peer_cb * proposer T) :=
  match fuel with
  | O => None
  | S fuel =>
      '(rv, st, accept) ← proposer_accept st;
      if rv =? 0 then Some (ps, st) else
      accept ← accept;
      ps ← peers_foreach_acceptor ps (peer_send_accept accept);
      accept_loop fuel ps st
  end.

Definition try_accept clock ps p : option (peers peer_cb * evproposer T) :=
  '(ps, st) ← accept_loop (S (Z.to_nat (kh_size (prepare_instances (ep_state p))))) ps (ep_state p);
  proposer_preexecute clock ps (set_proposer p st).

Definition send_prepare ps (out : option paxos_prepare) : option (peers peer_cb) :=
  pr ← out;
  peers_foreach_acceptor ps (peer_send_prepare pr).

Definition evproposer_handle_promise clock ps p (pro : paxos_promise) : option (peers peer_cb * evproposer T) :=
  '(preempted, st, prepare) ← proposer_receive_promise (ep_state p) pro (clock (-1));
  ps ← (if negb (preempted =? 0) then send_prepare ps prepare else Some ps);
  try_accept clock ps (set_proposer p st).

Definition evproposer_handle_accepted clock ps p (acc : paxos_accepted) : option (peers peer_cb * evproposer T) :=
  '(rv, st) ← proposer_receive_accepted (ep_state p) acc;
  if negb (rv =? 0) then try_accept clock ps (set_proposer p st) else Some (ps, set_proposer p st).

Definition evproposer_handle_preempted clock ps p (msg : paxos_preempted) : option (peers peer_cb * evproposer T) :=
  '(preempted, st, prepare) ← proposer_receive_preempted (ep_state p) msg (clock (-1));
  if negb (preempted =? 0) then
    ps ← send_prepare ps prepare;
    try_accept clock ps (set_proposer p st)
  else Some (ps, set_proposer p st).

(** A NULL value is copied with length 0 or not at all. *)
Definition evproposer_handle_client_value clock ps p (v : paxos_client_value) : option (peers peer_cb * evproposer T) :=
  st ← proposer_propose (ep_state p) (default [] (paxos_value_val (client_value v)))
         (paxos_value_len (client_value v));
  try_accept clock ps (set_proposer p st).

Definition evproposer_handle_acceptor_state ps p (acc_state : paxos_acceptor_state) :
    option (peers peer_cb * evproposer T) :=
  st ← proposer_receive_acceptor_state (ep_state p) acc_state;
  Some (ps, set_proposer p st).

(** The loops of [evproposer_check_timeouts]; a turn goes past a slot of the
    table when [proposer_timeout] is positive ([timeout_prepare_loop_total]). *)
Fixpoint timeout_prepare_loop (to : Z) (fuel : nat) iter ps (st : proposer T) :
    option (timeout_iterator * peers peer_cb * proposer T) :=
  match fuel with
  | O => None
  | S fuel =>
      match timeout_iterator_prepare to iter st with
      | (iter, st, None) => Some (iter, ps, st)
      | (iter, st, Some pr) =>
          ps ← peers_foreach_acceptor ps (peer_send_prepare pr);
          timeout_prepare_loop to fuel iter ps st
      end
  end.

Fixpoint timeout_accept_loop (to : Z) (fuel : nat) iter ps (st : proposer T) :
    option (timeout_iterator * peers peer_cb * proposer T) :=
  match fuel with
  | O => None
  | S fuel =>
      '(iter, st, out) ← timeout_iterator_accept to iter st;
      match out with
      | None => Some (iter, ps, st)
      | Some ar =>
          ps ← peers_foreach_acceptor ps (peer_send_accept ar);
          timeout_accept_loop to fuel iter ps st
      end
  end.

Definition evproposer_check_timeouts (to : Z) clock ps p : option (peers peer_cb * evproposer T) :=
  let iter := proposer_timeout_iterator (ep_state p) (clock 0) in
  '(iter, ps, st) ← timeout_prepare_loop to (S (Z.to_nat (kh_end (prepare_instances (ep_state p))))) iter ps (ep_state p);
  '(iter, ps, st) ← timeout_accept_loop to (S (Z.to_nat (kh_end (accept_instances st)))) iter ps st;
  Some (ps, {| ep_id := ep_id p; preexec_window := preexec_window p; ep_state := st; ep_tv := ep_tv p;
               timeout_pending := true |}).

Definition evproposer_preexec_once clock ps p : option (peers peer_cb * evproposer T) :=
  proposer_preexecute clock ps p.

Definition evproposer_init_internal (g : paxos_config) (id : Z) (c : evpaxos_config) ps :
    option (peers peer_cb * evproposer T) :=
  let acceptor_count := evpaxos_acceptor_count c in
  ps ← peers_subscribe ps 1 evproposer_promise_cb;
  ps ← peers_subscribe ps 3 evproposer_accepted_cb;
  ps ← peers_subscribe ps 4 evproposer_preempted_cb;
  ps ← peers_subscribe ps 8 evproposer_client_value_cb;
  ps ← peers_subscribe ps 7 evproposer_acceptor_state_cb;
  st ← proposer_new id acceptor_count;
  Some (ps, {| ep_id := id; preexec_window := proposer_preexec_window g; ep_state := st;
               ep_tv := {| tv_sec := proposer_timeout g; tv_usec := 0 |}; timeout_pending := true |}).

(** [config] is the result of [evpaxos_config_read]; [Some None] is NULL. *)
Definition evproposer_init (inet_addr : cstring -> Z) (bind : Z -> bool) (g : paxos_config) (id : Z)
    (config : option evpaxos_config) : option (option (peers peer_cb * evproposer T)) :=
  match config with
  | None => Some None
  | Some c =>
      if (id <? 0) || (MAX_N_OF_PROPOSERS <=? id) then Some None else
      ps ← peers_connect_to_acceptors inet_addr (peers_new c);
      port ← evpaxos_proposer_listen_port c id;
      let '(ps, rv) := peers_listen bind ps port in
      if rv =? 0 then Some None else
      Some <$> evproposer_init_internal g id c ps
  end.

Definition evproposer_set_instance_id p (iid : Z) : option (evproposer T) :=
  st ← proposer_set_instance_id (ep_state p) iid;
  Some (set_proposer p st).
End evproposer.

(** ** The invariant of the tables *)

(** What is sent of an instance is well formed. *)
Record instance_wf (next k : Z) (inst : instance) : Prop := {
  iw_iid : inst_iid inst = k;
  iw_pos : 0 < k < 2 ^ 32;
  iw_next : k <= next;
  iw_value v : inst_value inst = Some v -> value_ok v;
  iw_promised v : inst_promised_value inst = Some v -> value_ok v;
}.

Section wf.
Context `{KH : KHash T}.
Implicit Types (st : proposer T).

Record proposer_wf st : Prop := {
  pw_tables : tables_wf st;
  pw_next : is_u32 (next_prepare_iid st);
  pw_prep k inst : preparing st !! k = Some inst -> instance_wf (next_prepare_iid st) k inst;
  pw_acc k inst : accepting st !! k = Some inst -> instance_wf (next_prepare_iid st) k inst;
  pw_ready k inst : accepting st !! k = Some inst -> is_Some (instance_to_accept inst);
  pw_disj k : is_Some (preparing st !! k) -> accepting st !! k = None;
  pw_queue : exists q, contents (values st) q /\ Forall value_ok q;
}.

Definition prep_size st : Z := Z.of_nat (base.size (preparing st)).
Definition acc_size st : Z := Z.of_nat (base.size (accepting st)).

Lemma instance_wf_mono next next' k inst : next <= next' -> instance_wf next k inst -> instance_wf next' k inst.
Proof. intros Hle []. split; try done. lia. Qed.

Lemma proposer_wf_keys st : proposer_wf st -> keys_ok (preparing st) /\ keys_ok (accepting st).
Proof.
  intros Hst. split; intros k inst Hk; [apply (pw_prep st Hst) in Hk|apply (pw_acc st Hst) in Hk];
    (split; [apply Hk|]; destruct Hk; lia).
Qed.

Lemma proposer_new_wf id n st : proposer_new id n = Some st -> proposer_wf st.
Proof.
  unfold proposer_new. intros Hrun. destruct (carray_new 128) as [vs|] eqn:Hvs; simpl in Hrun; [|done]. simplify_eq.
  assert (forall k, kh_map (T := T) (V := instance) kh_init !! k = None) as Hempty by (intros; by rewrite kh_map_init).
  split; simpl; try done; try lia.
  - split; apply kh_init_wf.
  - intros k inst Hk. unfold preparing in Hk. simpl in Hk. by rewrite Hempty in Hk.
  - intros k inst Hk. unfold accepting in Hk. simpl in Hk. by rewrite Hempty in Hk.
  - intros k inst Hk. unfold accepting in Hk. simpl in Hk. by rewrite Hempty in Hk.
  - exists []. split; [|done]. destruct (carray_new_contents (A := paxos_value) 128) as (a & Ha & Hc & _); [done|].
    by simplify_eq.
Qed.

Lemma prepare_of_body_ok inst : is_u32 (inst_iid inst) -> body_ok (prepare_of inst).
Proof. intros Hi. unfold body_ok, value_ok. simpl. pose proof (u16_range (inst_ballot inst)). lia. Qed.

(** A prepare request is always made below the limits. *)
Lemma open_instance_runs st now :
  proposer_wf st -> next_prepare_iid st < UINT32_MAX -> prep_size st < KH_LIMIT ->
  exists st' pr, proposer_prepare st now = Some (st', pr) /\ proposer_wf st' /\
    prep_size st' = prep_size st + 1 /\ accepting st' = accepting st /\
    next_prepare_iid st' = next_prepare_iid st + 1 /\ iid pr = next_prepare_iid st + 1 /\ body_ok pr.
Proof.
  intros Hst Hnext Hsize. unfold UINT32_MAX, prep_size in *. pose proof (pw_next st Hst) as Hu.
  assert (preparing st !! (next_prepare_iid st + 1) = None) as Hfresh.
  { apply eq_None_not_Some. intros [inst Hk]. apply (pw_prep st Hst) in Hk as []. lia. }
  destruct (pw_tables st Hst) as [Hwp Hwa]. unfold preparing in *.
  destruct (kh_put_total (prepare_instances st) (next_prepare_iid st + 1)
    {| inst_iid := next_prepare_iid st + 1; inst_ballot := proposer_next_ballot st 0; inst_value := None;
       inst_promised_value := None; inst_value_ballot := 0; inst_quorum := quorum_init (prop_acceptors st);
       created_at := now |}) as [[[h k] rv] Hput]; [done|lia|by rewrite kh_size_map by done|].
  pose proof Hput as (Hwf & Hmap & _ & Hrv & Hrv0)%kh_map_put; [|done|lia].
  unfold proposer_prepare, instance_new. rewrite u32_small by lia.
  rewrite (proj2 (Z.ltb_lt 0 _)) by lia. cbn [assert_ mbind option_bind]. rewrite Hput. cbn [mbind option_bind].
  rewrite (proj2 (Z.ltb_lt 0 rv)) by (destruct (decide (rv = 0)) as [E|]; [apply Hrv0 in E as [? E]; congruence|lia]).
  cbn [assert_ mbind option_bind]. eexists _, _. split; [done|]. unfold preparing, accepting. simpl.
  split; [|rewrite Hmap, map_size_insert_None by done; split; [lia|]; do 3 (split; [done|]);
    by apply prepare_of_body_ok; simpl; lia].
  split; unfold preparing, accepting; simpl; try done; try lia; try apply Hst.
  - intros k' inst. rewrite Hmap. destruct (decide (k' = next_prepare_iid st + 1)) as [->|Hne].
    + rewrite lookup_insert_eq. intros [= <-]. split; simpl; try done; lia.
    + rewrite lookup_insert_ne by done. intros Hk. eapply instance_wf_mono; [|by apply (pw_prep st Hst)]. lia.
  - intros k' inst Hk. eapply instance_wf_mono; [|by apply (pw_acc st Hst)]. lia.
  - intros k'. rewrite Hmap. destruct (decide (k' = next_prepare_iid st + 1)) as [->|Hne].
    + intros _. apply eq_None_not_Some. intros [inst Hk]. apply (pw_acc st Hst) in Hk as []. lia.
    + rewrite lookup_insert_ne by done. apply (pw_disj st Hst).
Qed.

(** Moving an instance between the tables does not fail. *)
Lemma move_runs f t inst inst0 :
  kh_wf f -> kh_wf t -> is_u32 (inst_iid inst) -> kh_map f !! inst_iid inst = Some inst0 ->
  kh_map t !! inst_iid inst = None -> Z.of_nat (base.size (kh_map t)) < KH_LIMIT ->
  is_Some (proposer_move_instance (T := T) f t inst).
Proof.
  intros Hf Ht Hi Hin Hout Hsize. unfold proposer_move_instance.
  destruct (handler_lookup f (inst_iid inst) Hf Hi) as [[_ ?]|(Hne & _)]; [congruence|].
  apply Z.eqb_neq in Hne. rewrite Hne. cbn [negb assert_ mbind option_bind].
  destruct (kh_put_total t (inst_iid inst) (set_inst_quorum inst (quorum_clear (inst_quorum inst))))
    as [[[h k] rv] Hput]; [done|done|by rewrite kh_size_map by done|].
  pose proof Hput as (_ & _ & _ & Hrv & Hrv0)%kh_map_put; [|done|done]. rewrite Hput. cbn [mbind option_bind].
  rewrite (proj2 (Z.ltb_lt 0 rv)) by (destruct (decide (rv = 0)) as [E|]; [apply Hrv0 in E as [? E]; congruence|lia]).
  by eexists.
Qed.

Lemma accept_total st :
  proposer_wf st -> acc_size st < KH_LIMIT -> is_Some (proposer_accept st).
Proof.
  intros Hst Hsize. destruct (pw_tables st Hst) as [Hwp Hwa]. destruct (proposer_wf_keys st Hst) as [Hkp _].
  destruct (pw_queue st Hst) as (q & Hq & _). unfold proposer_accept.
  pose proof (find_min_spec (prepare_instances st) Hwp (fun k i Hk => proj1 (Hkp k i Hk))) as Hmin.
  destruct (find_min (prepare_instances st)) as [[s inst]|]; [|by eexists]. destruct Hmin as [Hs _].
  destruct (quorum_reached (inst_quorum inst)); simpl; [|by eexists].
  assert (preparing st !! inst_iid inst = Some inst) as Hm by (apply kh_map_Some; eauto).
  destruct (Hkp _ _ Hm) as [_ Hi].
  assert (exists v vs, (if negb (instance_has_value inst) then carray_pop_front (values st)
    else Some (inst_value inst, values st)) = Some (v, vs)) as (v & vs & ->).
  { destruct (instance_has_value inst); simpl; [by eauto|].
    destruct (pop_front_contents (values st) q Hq) as (vs & -> & _). eauto. }
  simpl. destruct (negb (instance_has_value _) && negb (instance_has_promised_value _)) eqn:Hhas; [by eexists|].
  destruct (kh_map_set _ _ _ _ (set_inst_value inst v) Hwp Hs) as [Hw1 Hm1].
  destruct (move_runs (kh_set (prepare_instances st) s (set_inst_value inst v)) (accept_instances st)
    (set_inst_value inst v) (set_inst_value inst v)) as [[[f t] k] ->]; try done.
  { simpl. by rewrite Hm1, lookup_insert_eq. }
  { apply (pw_disj st Hst). by eexists. }
  simpl. unfold instance_to_accept, instance_has_value, instance_has_promised_value in *. simpl in *.
  destruct (inst_promised_value inst), v; simpl in *; first [discriminate | by eexists].
Qed.

Lemma take_value_wf inst q inst' q' next :
  take_value inst q = (inst', q') -> instance_wf next (inst_iid inst) inst -> Forall value_ok q ->
  instance_wf next (inst_iid inst) inst' /\ Forall value_ok q' /\ inst_iid inst' = inst_iid inst.
Proof.
  unfold take_value. intros Htake [] Hq. destruct (instance_has_value inst); simplify_eq; [done|].
  split; [|split; [|done]].
  - split; simpl; try done. intros v Hv. destruct q; simplify_eq/=. by inversion Hq.
  - destruct Hq; done.
Qed.

Lemma to_accept_ok next k inst m :
  instance_wf next k inst -> instance_to_accept inst = Some m -> body_ok m.
Proof.
  intros [Hk Hpos _ Hv Hpv] Hm. unfold instance_to_accept in Hm.
  pose proof (u16_range (inst_ballot inst)).
  destruct (if instance_has_promised_value inst then _ else _) as [v|] eqn:E; simpl in Hm; [|done]. simplify_eq.
  assert (value_ok v) as Hvok.
  { unfold instance_has_promised_value in E. destruct (inst_promised_value inst) eqn:Ep; [apply Hpv; congruence|].
    apply Hv. congruence. }
  split; [simpl; lia|]. split; [done|]. split; [done|]. split; [simpl; lia|]. done.
Qed.

Lemma accept_wf st rv st' out :
  proposer_wf st -> proposer_accept st = Some (rv, st', out) ->
  proposer_wf st' /\ next_prepare_iid st' = next_prepare_iid st /\
  (rv = 0 /\ out = None /\ prep_size st' = prep_size st /\ acc_size st' = acc_size st \/
   rv = 1 /\ exists m, out = Some m /\ body_ok m /\ prep_size st' = prep_size st - 1 /\
     acc_size st' = acc_size st + 1).
Proof.
  intros Hst Hrun. destruct (proposer_wf_keys st Hst) as [Hkp _]. destruct (pw_queue st Hst) as (q & Hq & Hqok).
  destruct (accept_effect st q rv st' out (pw_tables st Hst) Hkp Hq Hrun) as
    [(-> & -> & (_ & _ & _ & Hn & Hwf & Hp & Ha) & Hq')|
     (inst & inst' & q' & m & -> & Hm & _ & _ & Htake & Hacc & -> & Hq' & Hno & (_ & _ & _ & Hn & Hwf & Hp & Ha))].
  - unfold prep_size, acc_size. rewrite Hp, Ha. split; [|split; [done|by left]].
    split; rewrite ?Hn, ?Hp, ?Ha; try done; try apply Hst. eauto.
  - pose proof (pw_prep st Hst _ _ Hm) as Hiwf.
    destruct (take_value_wf _ _ _ _ _ Htake Hiwf Hqok) as (Hiwf' & Hqok' & Hii).
    unfold prep_size, acc_size. rewrite Hp, Ha. split; [|split; [done|right]].
    + split; rewrite ?Hn, ?Hp, ?Ha; try done; try apply Hst; [..|by eauto].
      * intros k i [_ Hk]%lookup_delete_Some. by apply (pw_prep st Hst).
      * intros k i. destruct (decide (k = inst_iid inst)) as [->|Hne].
        -- rewrite lookup_insert_eq. intros [= <-]. destruct Hiwf'. split; done.
        -- rewrite lookup_insert_ne by done. apply (pw_acc st Hst).
      * intros k i. destruct (decide (k = inst_iid inst)) as [->|Hne].
        -- rewrite lookup_insert_eq. intros [= <-]. by exists m.
        -- rewrite lookup_insert_ne by done. apply (pw_ready st Hst).
      * intros k [i [Hne Hk]%lookup_delete_Some]. rewrite lookup_insert_ne by done.
        apply (pw_disj st Hst). by eexists.
    + split; [done|]. exists m. split; [done|]. split; [by eapply to_accept_ok|].
      rewrite map_size_insert_None by done. rewrite map_size_delete_Some by by eexists.
      assert (base.size (preparing st) <> 0%nat) by (intros E%map_size_empty_inv; rewrite E in Hm; done). lia.
Qed.
End wf.

(** ** What [try_accept] does to the instances

    The instances in phase 1 are taken from the lowest one on, as long as that one
    has a quorum of promises, and a value: its own, one that was promised, or the first of the queue [q].
    Its accept request is sent, and it goes to phase 2. *)

Definition lower (x : Z * instance) (y : option (Z * instance)) : option (Z * instance) :=
  match y with Some y => if x.1 <=? y.1 then Some x else Some y | None => Some x end.
Definition lowest (m : gmap Z instance) : option instance := snd <$> foldr lower None (map_to_list m).

Definition accept_next (m : gmap Z instance) (q : list paxos_value) : option (instance * paxos_accept * list paxos_value) :=
  inst ← lowest m;
  if quorum_reached (inst_quorum inst) then
    let '(inst, q) := take_value inst q in ac ← instance_to_accept inst; Some (inst, ac, q)
  else None.

(** The requests, the instances in the two phases, and the queue. *)
Fixpoint accept_all (n : nat) (m a : gmap Z instance) (q : list paxos_value) :
    list paxos_accept * gmap Z instance * gmap Z instance * list paxos_value :=
  match n, accept_next m q with
  | S n, Some (inst, ac, q) =>
      let '(acs, m, a, q) := accept_all n (delete (inst_iid inst) m)
        (<[inst_iid inst := set_inst_quorum inst (quorum_clear (inst_quorum inst))]> a) q in
      (ac :: acs, m, a, q)
  | _, _ => ([], m, a, q)
  end.

(** A new instance of the proposer [st]. *)
Definition new_instance {T} (st : proposer T) (k : Z) (now : timeval) : instance :=
  {| inst_iid := k; inst_ballot := proposer_next_ballot st 0; inst_value := None; inst_promised_value := None;
     inst_value_ballot := 0; inst_quorum := quorum_init (prop_acceptors st); created_at := now |}.
Definition add_instances (l : list instance) (m : gmap Z instance) : gmap Z instance :=
  foldl (fun m inst => <[inst_iid inst := inst]> m) m l.

Lemma lowest_spec (l : list (Z * instance)) :
  match foldr lower None l with
  | None => l = []
  | Some x => x ∈ l /\ forall y, y ∈ l -> x.1 <= y.1
  end.
Proof.
  induction l as [|x l IH]; [done|]. cbn [foldr]. destruct (foldr lower None l) as [y|]; cbn [lower].
  - destruct IH as [Hin Hmin]. destruct (Z.leb_spec x.1 y.1); (split; [set_solver|]); intros z [->|Hz]%elem_of_cons; try lia;
      apply Hmin in Hz; lia.
  - subst l. split; [set_solver|]. intros z ->%list_elem_of_singleton. done.
Qed.

Lemma lowest_Some m inst :
  keys_ok m -> lowest m = Some inst <-> m !! inst_iid inst = Some inst /\ forall k i, m !! k = Some i -> inst_iid inst <= k.
Proof.
  intros Hkeys. unfold lowest. pose proof (lowest_spec (map_to_list m)) as Hl. destruct (foldr lower None _) as [[k i]|]; cbn.
  - destruct Hl as [Hin%elem_of_map_to_list Hmin]. destruct (Hkeys _ _ Hin) as [Hk _].
    assert (forall k' i', m !! k' = Some i' -> k <= k') as Hmin'.
    { intros k' i' Hk'. by apply (Hmin (k', i')), elem_of_map_to_list. }
    split; [intros [= <-]; by rewrite Hk|]. intros [Hm Hlow]. pose proof (Hmin' _ _ Hm). pose proof (Hlow _ _ Hin).
    assert (k = inst_iid inst) as -> by lia. congruence.
  - apply map_to_list_empty_iff in Hl as ->. split; [done|]. by intros [? _].
Qed.

(** ** What the handlers send *)

Section loops.
Context `{KH : KHash T} `{MP : Msgpack}.
Implicit Types (ps : peers peer_cb) (st : proposer T).

Lemma take_value_same inst q : inst_iid (take_value inst q).1 = inst_iid inst /\ inst_quorum (take_value inst q).1 = inst_quorum inst.
Proof. unfold take_value. by destruct (instance_has_value inst). Qed.

(** [proposer_accept] is [accept_next]. *)
Lemma proposer_accept_next st q :
  proposer_wf st -> contents (values st) q -> acc_size st < KH_LIMIT ->
  match accept_next (preparing st) q with
  | None => exists st', proposer_accept st = Some (0, st', None) /\ contents (values st') q /\
      tables_to st st' (preparing st) (accepting st)
  | Some (inst, m, q') => exists st', proposer_accept st = Some (1, st', Some m) /\ contents (values st') q' /\
      is_Some (preparing st !! inst_iid inst) /\ accepting st !! inst_iid inst = None /\
      tables_to st st' (delete (inst_iid inst) (preparing st))
        (<[inst_iid inst := set_inst_quorum inst (quorum_clear (inst_quorum inst))]> (accepting st))
  end.
Proof.
  intros Hst Hq Hlim. destruct (proposer_wf_keys st Hst) as [Hkp _].
  destruct (accept_total st Hst Hlim) as [[[rv st'] out] Hrun]. unfold accept_next.
  destruct (accept_effect st q rv st' out (pw_tables st Hst) Hkp Hq Hrun) as
    [(-> & -> & Hto & Hq')|(inst & inst' & q' & m & -> & Hm & Hlow & Hreach & Htake & Hacc & -> & Hq' & Hno & Hto)].
  - assert (accept_next (preparing st) q = None) as Hnone; [|unfold accept_next in Hnone; rewrite Hnone; by exists st'].
    unfold accept_next. destruct (lowest (preparing st)) as [inst|] eqn:Hlow; [|done]. cbn [mbind option_bind].
    apply lowest_Some in Hlow as [Hm Hlow]; [|done]. destruct (quorum_reached (inst_quorum inst)) eqn:Hreach; [|done].
    pose proof (accept_stops st q st' None inst (pw_tables st Hst) Hkp Hq Hrun Hm Hlow Hreach) as Hstop.
    destruct (take_value inst q) as [inst' q']. cbn [fst] in Hstop. by rewrite Hstop.
  - rewrite (proj2 (lowest_Some _ inst Hkp)) by done. cbn [mbind option_bind]. rewrite Hreach, Htake, Hacc. cbn [mbind option_bind].
    pose proof (take_value_same inst q) as [Hi Hqu]. rewrite Htake in Hi, Hqu. cbn [fst] in Hi, Hqu. rewrite Hi, Hqu.
    exists st'. by split_and!.
Qed.

Lemma accept_loop_S fuel ps st :
  accept_loop (S fuel) ps st =
    '(rv, st, accept) ← proposer_accept st;
    if rv =? 0 then Some (ps, st) else
    accept ← accept;
    ps ← peers_foreach_acceptor ps (peer_send_accept accept);
    accept_loop fuel ps st.
Proof. done. Qed.

(** The loop of [try_accept] ends and does what [accept_all] says. *)
Lemma accept_loop_total n ps st q acs m a q' :
  proposer_wf st -> contents (values st) q -> counted ps -> acc_size st + prep_size st < KH_LIMIT ->
  base.size (preparing st) = n -> accept_all n (preparing st) (accepting st) q = (acs, m, a, q') ->
  exists st', accept_loop (S n) ps st = Some (broadcast (PAXOS_ACCEPT <$> acs) ps, st') /\ proposer_wf st' /\
    tables_to st st' m a /\ contents (values st') q' /\ accept_next m q' = None /\ Forall body_ok acs /\
    acc_size st' + prep_size st' < KH_LIMIT.
Proof.
  revert ps st q acs. induction n as [|n IH]; intros ps st q acs Hst Hq Hc Hlim Hn Hall; rewrite accept_loop_S.
  all: assert (acc_size st < KH_LIMIT) as Hlim' by (unfold prep_size in Hlim; lia).
  all: pose proof (proposer_accept_next st q Hst Hq Hlim') as Hstep; cbn [accept_all] in Hall.
  - apply map_size_empty_inv in Hn. rewrite Hn in *. change (accept_next ∅ q) with (None (A := instance * paxos_accept * list paxos_value)) in Hstep.
    destruct Hstep as (st' & Hrun & Hq' & Hto). rewrite Hrun. simplify_eq/=. exists st'. rewrite broadcast_nil.
    destruct (accept_wf st 0 st' None Hst Hrun) as (Hst' & _ & [(_ & _ & Hp & Ha)|[? _]]); [|done].
    rewrite Hp, Ha. by split_and!.
  - destruct (accept_next (preparing st) q) as [[[inst ac] q1]|] eqn:Hnext.
    2: { destruct Hstep as (st' & Hrun & Hq' & Hto). rewrite Hrun. simplify_eq/=. exists st'. rewrite broadcast_nil.
         destruct (accept_wf st 0 st' None Hst Hrun) as (Hst' & _ & [(_ & _ & Hp & Ha)|[? _]]); [|done].
         rewrite Hp, Ha. by split_and!. }
    destruct Hstep as (st1 & Hrun & Hq1 & Hin & Hout & (I1 & I2 & I3 & I4 & Hwf1 & Hp1 & Ha1)). rewrite Hrun. cbn [mbind option_bind].
    destruct (accept_wf st 1 st1 (Some ac) Hst Hrun) as (Hst1 & _ & [[? _]|(_ & ac' & [= <-] & Hac & Hp & Ha)]); [done|].
    change (1 =? 0) with false. cbv iota. unfold peer_send_accept at 1. rewrite foreach_broadcast by done. cbn [mbind option_bind].
    rewrite <- Hp1, <- Ha1 in Hall. destruct (accept_all n _ _ q1) as [[[acs1 m1] a1] q2] eqn:Hrest. simplify_eq.
    destruct (IH (broadcast [PAXOS_ACCEPT ac] ps) st1 q1 acs1) as (st' & Hloop & Hst' & (J1 & J2 & J3 & J4 & J5) & Hq' & Hend & Hacs & Hl);
      [done|done|by apply broadcast_counted|lia|unfold prep_size in Hp; lia|done|].
    exists st'. rewrite Hloop. split; [rewrite fmap_cons; f_equal; f_equal; symmetry; apply broadcast_cons|].
    split; [done|]. split; [split_and!; congruence || done || apply J5|]. split_and!; try done. by constructor.
Qed.

(** The loop of [proposer_preexecute] opens the next [n] instances. *)
Lemma preexecute_loop_total n i clock ps st :
  proposer_wf st -> counted ps -> next_prepare_iid st + Z.of_nat n <= UINT32_MAX ->
  prep_size st + Z.of_nat n <= KH_LIMIT ->
  let new := (fun j => new_instance st (next_prepare_iid st + 1 - i + j) (clock j)) <$> seqZ i (Z.of_nat n) in
  exists st', preexecute_loop n i clock ps st = Some (broadcast (PAXOS_PREPARE <$> (prepare_of <$> new)) ps, st') /\
    proposer_wf st' /\ prep_size st' = prep_size st + Z.of_nat n /\ preparing st' = add_instances new (preparing st) /\
    accepting st' = accepting st /\ values st' = values st /\
    next_prepare_iid st' = next_prepare_iid st + Z.of_nat n /\ Forall body_ok (prepare_of <$> new).
Proof.
  revert i ps st. induction n as [|n IH]; intros i ps st Hst Hc Hnext Hlim new; simpl.
  { exists st. unfold new. cbn. rewrite broadcast_nil. repeat (split; [done || lia|]). by constructor. }
  destruct (open_instance_runs st (clock i) Hst) as (st1 & pr & Hrun & Hst1 & Hp & Ha & Hn & Hi & Hpr); [lia|lia|].
  destruct (prepare_effect st (clock i) st1 pr (pw_tables st Hst) Hrun) as (inst & Hinst & -> & _ & Hid & Hacs & Hv & _ & _ & Hprep & _).
  rewrite Hrun. cbn [mbind option_bind]. pose proof (pw_next st Hst). unfold UINT32_MAX in *. rewrite u32_small in Hinst, Hprep by lia.
  assert (inst = new_instance st (next_prepare_iid st + 1 - i + i) (clock i)) as ->.
  { unfold instance_new in Hinst. rewrite (proj2 (Z.ltb_lt 0 _)) in Hinst by lia. injection Hinst as <-. unfold new_instance. f_equal. lia. }
  unfold peer_send_prepare at 1. rewrite foreach_broadcast by done. cbn [mbind option_bind].
  destruct (IH (i + 1) (broadcast [PAXOS_PREPARE (prepare_of (new_instance st (next_prepare_iid st + 1 - i + i) (clock i)))] ps) st1)
    as (st' & Hloop & Hst' & Hp' & Hprep' & Ha' & Hv' & Hn' & Hprs); [done|by apply broadcast_counted|lia|lia|].
  assert (new = new_instance st (next_prepare_iid st + 1 - i + i) (clock i) ::
    ((fun j => new_instance st1 (next_prepare_iid st1 + 1 - (i + 1) + j) (clock j)) <$> seqZ (i + 1) (Z.of_nat n))) as Hnew.
  { unfold new. rewrite Nat2Z.inj_succ, (seqZ_cons i (Z.succ (Z.of_nat n))) by lia. rewrite fmap_cons. f_equal.
    replace (Z.pred (Z.succ (Z.of_nat n))) with (Z.of_nat n) by lia. replace (Z.succ i) with (i + 1) by lia.
    apply list_fmap_ext. intros _ j _. unfold new_instance, proposer_next_ballot. rewrite Hid, Hacs. f_equal. lia. }
  rewrite Hnew. exists st'. rewrite Hloop. split; [rewrite !fmap_cons; f_equal; f_equal; symmetry; apply broadcast_cons|].
  split; [done|]. split; [lia|]. split; [|split_and!; [congruence|congruence|lia|by constructor]].
  rewrite Hprep', Hprep. unfold add_instances. cbn [foldl]. f_equal. f_equal. cbn. lia.
Qed.

Lemma prepared_count_size st :
  proposer_wf st -> prep_size st <= KH_LIMIT -> proposer_prepared_count st = prep_size st.
Proof.
  intros Hst Hlim. unfold proposer_prepared_count. rewrite kh_size_map by apply Hst. fold (preparing st).
  apply i32_small. unfold prep_size, KH_LIMIT in *. lia.
Qed.

(** [proposer_preexecute] fills the window. *)
Lemma preexecute_total clock ps p :
  let st := ep_state p in
  proposer_wf st -> counted ps -> next_prepare_iid st + preexec_window p <= UINT32_MAX ->
  preexec_window p <= KH_LIMIT -> prep_size st <= KH_LIMIT ->
  let new := (fun j => new_instance st (next_prepare_iid st + 1 + j) (clock j)) <$> seqZ 0 (preexec_window p - prep_size st) in
  exists st', proposer_preexecute clock ps p = Some (broadcast (PAXOS_PREPARE <$> (prepare_of <$> new)) ps, set_proposer p st') /\
    proposer_wf st' /\ prep_size st' = Z.max (preexec_window p) (prep_size st) /\
    preparing st' = add_instances new (preparing st) /\ accepting st' = accepting st /\ values st' = values st /\
    next_prepare_iid st' = next_prepare_iid st + Z.max 0 (preexec_window p - prep_size st) /\ Forall body_ok (prepare_of <$> new).
Proof.
  intros st Hst Hc Hnext Hlim Hsize new. unfold proposer_preexecute. fold st. rewrite prepared_count_size by done.
  assert (0 <= prep_size st) by (unfold prep_size; lia).
  destruct (Z.leb_spec (preexec_window p - prep_size st) 0).
  - exists st. unfold new. rewrite seqZ_nil by lia. cbn. rewrite broadcast_nil. split; [by destruct p|].
    repeat (split; [done || lia|]). by constructor.
  - destruct (preexecute_loop_total (Z.to_nat (preexec_window p - prep_size st)) 0 clock ps st)
      as (st' & Hloop & Hst' & Hp & Hprep & Ha & Hv & Hn & Hprs); [done|done|lia|lia|].
    rewrite Z2Nat.id in * by lia. rewrite Z.sub_0_r in *. fold new in Hloop, Hprep, Hprs. rewrite Hloop. cbn [mbind option_bind].
    exists st'. repeat (split; [done || lia|]). done.
Qed.
End loops.

(** C9. [try_accept] ends, and keeps the window.  As long as the lowest instance in
    phase 1 has a quorum of promises and there is a value for it ([accept_all]), it goes to phase 2, and
    its accept request is sent: with its number and ballot, and the value that
    was promised for it, or else its own, which may be the next one of the queue.  Then the next
    instances are opened in order, with the ballot of this proposer, until [preexec_window] of them are in
    phase 1 (more only when more were there already), and their prepare requests are sent.  Every
    acceptor is sent these messages, in this order, and the two tables, the queue
    and the next number are those of the reference.  The tables are below
    the limit of khash, and the numbers of the instances do not pass the largest one. *)
Theorem try_accept_keeps_window `{KH : KHash T} `{MP : Msgpack} clock (ps : peers peer_cb) (p : evproposer T) q acs m a q' :
  let st := ep_state p in
  proposer_wf st -> contents (values st) q -> counted ps -> acc_size st + prep_size st < KH_LIMIT ->
  preexec_window p <= KH_LIMIT -> next_prepare_iid st + preexec_window p <= UINT32_MAX ->
  accept_all (base.size (preparing st)) (preparing st) (accepting st) q = (acs, m, a, q') ->
  let n := preexec_window p - Z.of_nat (base.size m) in
  let new := (fun j => new_instance st (next_prepare_iid st + 1 + j) (clock j)) <$> seqZ 0 n in
  exists st',
    try_accept clock ps p =
      Some (broadcast ((PAXOS_ACCEPT <$> acs) ++ (PAXOS_PREPARE <$> (prepare_of <$> new))) ps, set_proposer p st') /\
    proposer_wf st' /\ accept_next m q' = None /\ preparing st' = add_instances new m /\ accepting st' = a /\
    contents (values st') q' /\ next_prepare_iid st' = next_prepare_iid st + Z.max 0 n /\
    prep_size st' = Z.max (preexec_window p) (Z.of_nat (base.size m)) /\
    Forall body_ok (acs ++ (prepare_of <$> new)).
Proof.
  intros st Hst Hq Hc Hlim Hwin Hnext Hall n new. unfold try_accept. fold st.
  replace (Z.to_nat (kh_size (prepare_instances st))) with (base.size (preparing st))
    by (rewrite kh_size_map by apply Hst; unfold preparing; lia).
  destruct (accept_loop_total _ ps st q acs m a q' Hst Hq Hc Hlim eq_refl Hall)
    as (st1 & -> & Hst1 & (Hid & Hac & _ & Hn & _ & Hm & Ha) & Hq1 & Hend & Hacs & Hl).
  cbn [mbind option_bind]. assert (prep_size st1 = Z.of_nat (base.size m)) as Hp1 by (unfold prep_size; by rewrite Hm).
  assert (0 <= acc_size st1) by (unfold acc_size; lia).
  destruct (preexecute_total clock (broadcast (PAXOS_ACCEPT <$> acs) ps) (set_proposer p st1))
    as (st' & Hpre & Hst' & Hp' & Hprep & Ha' & Hv & Hn' & Hprs);
    [done|by apply broadcast_counted|simpl; lia|done|simpl; lia|]. cbn [ep_state preexec_window set_proposer] in *.
  assert (((fun j => new_instance st1 (next_prepare_iid st1 + 1 + j) (clock j)) <$> seqZ 0 (preexec_window p - prep_size st1)) = new) as Hnew.
  { unfold new, n. rewrite Hp1. apply list_fmap_ext. intros _ j _. unfold new_instance, proposer_next_ballot. by rewrite Hid, Hac, Hn. }
  rewrite Hnew in *. exists st'. rewrite Hpre, broadcast_app. rewrite <- Hn, <- Hp1, <- Ha, <- Hm.
  split_and!; try done; [congruence|by rewrite Hv|unfold n; by rewrite <- Hp1|by apply Forall_app_2].
Qed.

(** A proposer just started, connected to an acceptor. *)
Definition sample_state : proposer khash :=
  {| prop_id := 3; prop_acceptors := 2;
     values := Carray 0 0 128 0 (replicate 128 None);
     max_trim_iid := 0; next_prepare_iid := 0; prepare_instances := kh_init; accept_instances := kh_init |}.
Definition sample_evproposer : evproposer khash :=
  {| ep_id := 3; preexec_window := 2; ep_state := sample_state; ep_tv := {| tv_sec := 1; tv_usec := 0 |};
     timeout_pending := true |}.
Definition sample_acceptors : peers peer_cb :=
  peers_connect (peers_new empty_config) 0 {| sin_port := 1; sin_addr := 1 |}.

Lemma sample_state_wf : proposer_wf sample_state.
Proof. by apply (proposer_new_wf 3 2). Qed.

Lemma sample_state_sizes : prep_size sample_state = 0 /\ acc_size sample_state = 0.
Proof. by vm_compute. Qed.

(** This proposer with an instance that has a quorum of promises, and a value of a client. *)
Definition ready_instance : instance :=
  {| inst_iid := 1; inst_ballot := 131; inst_value := None; inst_promised_value := None; inst_value_ballot := 0;
     inst_quorum := Quorum 2 2 2 [1; 1]; created_at := {| tv_sec := 0; tv_usec := 0 |} |}.
Definition ready_value : paxos_value := {| paxos_value_len := 1; paxos_value_val := Some [x61] |}.
Definition ready_state : proposer khash :=
  {| prop_id := 3; prop_acceptors := 2; values := default (values sample_state) (carray_push_back (values sample_state) ready_value);
     max_trim_iid := 0; next_prepare_iid := 1;
     prepare_instances := match kh_put kh_init 1 ready_instance with Some (h, _, _) => h | None => kh_init end;
     accept_instances := kh_init |}.

Lemma ready_values : contents (values ready_state) [ready_value].
Proof.
  destruct (pw_queue _ sample_state_wf) as (q & Hq & _).
  assert (q = []) as -> by (destruct Hq as (_ & Hl & _); by destruct q).
  by apply (push_back_inv (values sample_state) [] ready_value).
Qed.

Lemma ready_state_wf : proposer_wf ready_state.
Proof.
  destruct (kh_put kh_init 1 ready_instance) as [[[h i] rv]|] eqn:Hput; [|by vm_compute in Hput].
  pose proof (kh_map_put kh_init h 1 ready_instance i rv kh_init_wf ltac:(done) Hput) as (Hwf & Hmap & _).
  rewrite kh_map_init in Hmap. assert (prepare_instances ready_state = h) as Hh by (unfold ready_state; cbn [prepare_instances]; by rewrite Hput).
  split; unfold preparing, accepting; rewrite ?Hh, ?Hmap.
  - split; [by rewrite Hh|apply kh_init_wf].
  - done.
  - intros k inst [[<- <-]|[_ ?]]%lookup_insert_Some; [by split|done].
  - cbn [accept_instances ready_state]. by rewrite kh_map_init.
  - cbn [accept_instances ready_state]. by rewrite kh_map_init.
  - intros k _. cbn [accept_instances ready_state]. by rewrite kh_map_init.
  - exists [ready_value]. split; [apply ready_values|by repeat constructor].
Qed.

Lemma try_accept_keeps_window_witness :
  let MP := MsgpackFormat.format in let clock := fun i => {| tv_sec := i; tv_usec := 0 |} in
  let ev := set_proposer sample_evproposer ready_state in
  exists st', try_accept clock sample_acceptors ev =
    Some (broadcast [PAXOS_ACCEPT {| iid := 1; ballot := 131; value_ballot := 131; aid := 0; value := ready_value |};
                     PAXOS_PREPARE (prepare_of (new_instance ready_state 2 (clock 0)));
                     PAXOS_PREPARE (prepare_of (new_instance ready_state 3 (clock 1)))] sample_acceptors, set_proposer ev st') /\
    prep_size st' = 2 /\ next_prepare_iid st' = 3.
Proof.
  intros MP clock ev.
  destruct (try_accept_keeps_window (MP := MP) clock sample_acceptors ev [ready_value]
    [{| iid := 1; ballot := 131; value_ballot := 131; aid := 0; value := ready_value |}] ∅
    {[1 := set_inst_quorum (set_inst_value ready_instance (Some ready_value)) (Quorum 0 2 2 [0; 0])]} [])
    as (st' & Hrun & _ & _ & _ & _ & _ & Hn & Hp & _).
  - apply ready_state_wf.
  - apply ready_values.
  - done.
  - by vm_compute.
  - done.
  - done.
  - vm_compute. reflexivity.
  - exists st'. split; [exact Hrun|]. split; [exact Hp|exact Hn].
Defined.

(** ** Timeouts *)

Section timeouts.
Context `{KH : KHash T}.
Implicit Types (h : T instance).

(** What [next_timedout] looks for, and what the loop leaves of an instance. *)
Definition due (to : Z) (t : timeval) (inst : instance) : bool :=
  negb (quorum_reached (inst_quorum inst)) && instance_has_timedout to inst t.
Definition refresh (to : Z) (t : timeval) (inst : instance) : instance :=
  if due to t inst then set_created_at inst t else inst.

(** The instances that are due in the slots from [k], in order. *)
Definition due_at (to : Z) (t : timeval) h (i : Z) : option instance :=
  '(_, inst) ← kh_slot h i; if due to t inst then Some inst else None.
Definition due_from (to : Z) (t : timeval) h (k : Z) : list instance :=
  omap (due_at to t h) (seqZ k (kh_end h - k)).

(** The table with the instances of the slots from [k] refreshed. *)
Definition refreshed (to : Z) (t : timeval) h (k : Z) h' : Prop :=
  kh_wf h' /\ kh_end h' = kh_end h /\
  forall j, kh_slot h' j = if decide (k <= j) then (fun kv => (kv.1, refresh to t kv.2)) <$> kh_slot h j else kh_slot h j.

Lemma refresh_not_due to t inst : due to t inst = false -> refresh to t inst = inst.
Proof. unfold refresh. by intros ->. Qed.

Lemma due_refreshed to t inst : 0 < to -> due to t (set_created_at inst t) = false.
Proof.
  intros Hto. unfold due, instance_has_timedout. simpl. rewrite Z.sub_diag.
  rewrite (proj2 (Z.leb_gt to _)) by (by vm_compute in *). by rewrite andb_false_r.
Qed.

Lemma due_at_None to t h i k inst : due_at to t h i = None -> kh_slot h i = Some (k, inst) -> due to t inst = false.
Proof. unfold due_at. intros Hd Hs. rewrite Hs in Hd. simpl in Hd. by destruct (due to t inst). Qed.

Lemma next_timedout_due to t h n k :
  let '(k', found) := next_timedout_from to n h k t in
  (forall j, k <= j < k' -> due_at to t h j = None) /\ k <= k' <= k + Z.of_nat n /\
  match found with
  | None => k' = k + Z.of_nat n
  | Some inst => k' < k + Z.of_nat n /\ due_at to t h k' = Some inst
  end.
Proof.
  revert k. induction n as [|n IH]; intros k; cbn [next_timedout_from]; [split; [intros; lia|lia]|].
  assert (due_at to t h k = None ->
    let '(k', found) := next_timedout_from to n h (k + 1) t in
    (forall j, k <= j < k' -> due_at to t h j = None) /\ k <= k' <= k + Z.of_nat (S n) /\
    match found with
    | None => k' = k + Z.of_nat (S n)
    | Some inst => k' < k + Z.of_nat (S n) /\ due_at to t h k' = Some inst
    end) as Hskip.
  { intros Hk. specialize (IH (k + 1)). destruct (next_timedout_from to n h (k + 1) t) as [k' found].
    destruct IH as (Hbefore & Hrange & Hfound). split; [|split; [lia|destruct found; lia || (destruct Hfound; split; [lia|done])]].
    intros j Hj. destruct (decide (j = k)) as [->|]; [done|apply Hbefore; lia]. }
  unfold due_at, due in *. destruct (kh_slot h k) as [[key inst]|] eqn:Hs; [|by apply Hskip]. simpl in *.
  destruct (quorum_reached (inst_quorum inst)) eqn:Hr; simpl in *; [by apply Hskip|].
  destruct (instance_has_timedout to inst t) eqn:Ht; [|by apply Hskip].
  split; [intros; lia|]. split; [lia|]. split; [lia|]. rewrite Hs. simpl. by rewrite Hr, Ht.
Qed.

Lemma omap_none_seqZ {A} (f : Z -> option A) k k' e :
  k <= k' <= e -> (forall j, k <= j < k' -> f j = None) -> omap f (seqZ k (e - k)) = omap f (seqZ k' (e - k')).
Proof.
  intros Hk Hnone. replace (e - k) with ((k' - k) + (e - k')) by lia. rewrite seqZ_app, omap_app by lia.
  replace (k + (k' - k)) with k' by lia.
  assert (forall l, (forall j, j ∈ l -> f j = None) -> omap f l = []) as Hnil.
  { intros l. induction l as [|x l IH]; intros Hl; [done|]. simpl.
    rewrite (Hl x) by apply list_elem_of_here. apply IH. intros j Hj. apply Hl. by apply list_elem_of_further. }
  rewrite (Hnil (seqZ k (k' - k))); [done|]. intros j Hj%elem_of_seqZ. apply Hnone. lia.
Qed.

(** A turn of the loop takes the first instance that is due; when there is
    none, refreshing changes nothing. *)
Lemma next_timedout_none to t h k k' :
  kh_wf h -> 0 <= k <= kh_end h -> next_timedout to h k t = (k', None) ->
  due_from to t h k = [] /\ refreshed to t h k h.
Proof.
  intros Hwf Hk Hrun. unfold next_timedout in Hrun.
  pose proof (next_timedout_due to t h (Z.to_nat (kh_end h - k)) k) as Hspec. rewrite Hrun in Hspec.
  destruct Hspec as (Hnone & _ & ->). replace (k + Z.of_nat (Z.to_nat (kh_end h - k))) with (kh_end h) in * by lia.
  split.
  - unfold due_from. rewrite (omap_none_seqZ _ k (kh_end h) (kh_end h)) by (done || lia). by rewrite Z.sub_diag.
  - split; [done|]. split; [done|]. intros j. case_decide; [|done].
    destruct (kh_slot h j) as [[key inst]|] eqn:Hs; [|done]. simpl. rewrite refresh_not_due; [done|].
    eapply due_at_None; [apply Hnone|done]. pose proof (kh_slot_range h j _ Hwf Hs). lia.
Qed.

Lemma next_timedout_some to t h k k' inst :
  kh_wf h -> 0 < to -> 0 <= k <= kh_end h -> next_timedout to h k t = (k', Some inst) ->
  let h1 := kh_set h k' (set_created_at inst t) in
  exists key, kh_slot h k' = Some (key, inst) /\ kh_wf h1 /\ 0 <= k' <= kh_end h1 /\
    (forall j, kh_slot h1 j = if decide (k' = j) then Some (key, set_created_at inst t) else kh_slot h j) /\
    due_from to t h k = inst :: due_from to t h1 k' /\
    forall h', refreshed to t h1 k' h' -> refreshed to t h k h'.
Proof.
  intros Hwf Hto Hk Hrun h1. unfold next_timedout in Hrun.
  pose proof (next_timedout_due to t h (Z.to_nat (kh_end h - k)) k) as Hspec. rewrite Hrun in Hspec.
  destruct Hspec as (Hnone & Hr & Hlt & Hdue).
  assert (exists key, kh_slot h k' = Some (key, inst) /\ due to t inst = true) as (key & Hs & Hd).
  { unfold due_at in Hdue. destruct (kh_slot h k') as [[key i]|]; simpl in Hdue; [|done]. exists key.
    destruct (due to t i) eqn:E; by simplify_eq. }
  exists key. destruct (kh_set_spec h k' key inst (set_created_at inst t) Hwf Hs) as (Hwf1 & Hend & Hslots).
  fold h1 in Hwf1, Hend, Hslots. split; [done|]. split; [done|]. split; [lia|]. split; [done|]. split.
  - unfold due_from. rewrite (omap_none_seqZ _ k k' (kh_end h)) by (done || lia).
    rewrite (omap_none_seqZ (due_at to t h1) k' (k' + 1) (kh_end h1)); [|lia|].
    + rewrite Hend, (seqZ_cons k') by lia. simpl. rewrite Hdue. f_equal.
      replace (Z.succ k') with (k' + 1) by lia. replace (Z.pred (kh_end h - k')) with (kh_end h - (k' + 1)) by lia.
      apply list_omap_ext, Forall_Forall2_diag, Forall_forall. intros j Hj%elem_of_seqZ. unfold due_at. by rewrite Hslots, decide_False by lia.
    + intros j Hj. unfold due_at. rewrite Hslots, decide_True by lia. simpl. by rewrite due_refreshed.
  - intros h' (Hwf' & Hend' & Hslots'). split; [done|]. split; [congruence|]. intros j. rewrite Hslots', Hslots.
    destruct (decide (k' = j)) as [<-|Hne].
    + rewrite !decide_True by lia. rewrite Hs. simpl. unfold refresh at 2. rewrite Hd.
      by rewrite refresh_not_due by by apply due_refreshed.
    + destruct (decide (k' <= j)), (decide (k <= j)); try lia; try done.
      destruct (kh_slot h j) as [[key' inst']|] eqn:Hj; [|done]. simpl. rewrite refresh_not_due; [done|].
      eapply due_at_None; [apply (Hnone j); lia|done].
Qed.

Lemma refreshed_map to t h h' :
  kh_wf h -> refreshed to t h 0 h' -> kh_map h' = refresh to t <$> kh_map h.
Proof.
  intros Hwf (Hwf' & Hend & Hslots). apply map_eq. intros k. apply option_eq. intros inst.
  rewrite lookup_fmap_Some. rewrite kh_map_Some by done. split.
  - intros [i Hi]. rewrite Hslots in Hi. pose proof (kh_slot_range h' i (k, inst) Hwf') as Hr.
    rewrite Hslots in Hr. specialize (Hr Hi). rewrite decide_True in Hi by lia.
    destruct (kh_slot h i) as [[k' inst']|] eqn:Hs; simpl in Hi; [|done]. simplify_eq.
    exists inst'. split; [done|]. apply kh_map_Some; eauto.
  - intros (inst' & <- & [i Hi]%kh_map_Some); [|done]. exists i. rewrite Hslots.
    pose proof (kh_slot_range h i _ Hwf Hi). rewrite decide_True by lia. by rewrite Hi.
Qed.

Lemma length_due_from to t h : kh_wf h -> (length (due_from to t h 0) < S (Z.to_nat (kh_end h)))%nat.
Proof.
  intros Hwf. unfold due_from. rewrite Z.sub_0_r. rewrite <- (length_seqZ 0 (kh_end h)).
  generalize (seqZ 0 (kh_end h)). intros l. induction l as [|i l IH]; csimpl; [lia|].
  destruct (due_at to t h i); csimpl; lia.
Qed.

(** Properties of instances that do not depend on the time stamp hold again
    after a turn. *)
Definition slots_all (P : Z -> instance -> Prop) h : Prop :=
  forall i k inst, kh_slot h i = Some (k, inst) -> P k inst.

Lemma slots_all_set P h h1 i k inst t :
  slots_all P h -> kh_slot h i = Some (k, inst) -> (P k inst -> P k (set_created_at inst t)) ->
  (forall j, kh_slot h1 j = if decide (i = j) then Some (k, set_created_at inst t) else kh_slot h j) ->
  slots_all P h1.
Proof.
  intros Hall Hs HP Hslots j k' inst' Hj. rewrite Hslots in Hj. case_decide; [|by eapply Hall].
  simplify_eq. by apply HP, (Hall j).
Qed.

Context `{MP : Msgpack}.
Implicit Types (ps : peers peer_cb) (st : proposer T).

Lemma timeout_prepare_loop_total to fuel iter ps st h a :
  0 < to -> kh_wf h -> counted ps -> 0 <= pi iter <= kh_end h ->
  slots_all (fun _ inst => is_u32 (inst_iid inst)) h ->
  (length (due_from to (timeout iter) h (pi iter)) < fuel)%nat ->
  exists k' h',
    timeout_prepare_loop to fuel iter ps (with_tables st h a) =
      Some ({| pi := k'; ai := ai iter; timeout := timeout iter |},
            broadcast (PAXOS_PREPARE <$> (prepare_of <$> due_from to (timeout iter) h (pi iter))) ps,
            with_tables st h' a) /\
    refreshed to (timeout iter) h (pi iter) h'.
Proof.
  intros Hto. revert iter ps h. induction fuel as [|fuel IH]; intros iter ps h Hwf Hc Hk Hids Hf; [lia|].
  cbn [timeout_prepare_loop]. unfold timeout_iterator_prepare. cbn [prepare_instances with_tables].
  destruct (next_timedout to h (pi iter) (timeout iter)) as [k' [inst|]] eqn:Hn.
  - destruct (next_timedout_some _ _ _ _ _ _ Hwf Hto Hk Hn) as (key & Hs & Hwf1 & Hk' & Hslots & Hdue & Href).
    cbn [timeout] in *. rewrite Hdue in Hf |- *. simpl in Hf.
    unfold peer_send_prepare at 1. rewrite foreach_broadcast; [|apply prepare_of_body_ok, (Hids _ _ _ Hs)|done].
    cbn [mbind option_bind].
    destruct (IH {| pi := k'; ai := ai iter; timeout := timeout iter |} (broadcast [PAXOS_PREPARE (prepare_of inst)] ps)
      (kh_set h k' (set_created_at inst (timeout iter)))) as (k2 & h' & Hloop & Hrest);
      [done|by apply broadcast_counted|done|by eapply slots_all_set|simpl; lia|].
    exists k2, h'. split; [|by apply Href]. cbn [pi ai timeout] in Hloop.
    etrans; [exact Hloop|]. rewrite !fmap_cons. do 3 f_equal. symmetry. apply broadcast_cons.
  - destruct (next_timedout_none _ _ _ _ _ Hwf Hk Hn) as [Hdue Href]. exists k', h. rewrite Hdue.
    by rewrite broadcast_nil.
Qed.

Lemma timeout_accept_loop_total next to fuel iter ps st p h :
  0 < to -> kh_wf h -> counted ps -> 0 <= ai iter <= kh_end h ->
  slots_all (fun k inst => instance_wf next k inst /\ is_Some (instance_to_accept inst)) h ->
  (length (due_from to (timeout iter) h (ai iter)) < fuel)%nat ->
  exists k' h' acs,
    timeout_accept_loop to fuel iter ps (with_tables st p h) =
      Some ({| pi := pi iter; ai := k'; timeout := timeout iter |}, broadcast (PAXOS_ACCEPT <$> acs) ps,
            with_tables st p h') /\
    Forall2 (fun inst m => instance_to_accept inst = Some m) (due_from to (timeout iter) h (ai iter)) acs /\
    refreshed to (timeout iter) h (ai iter) h'.
Proof.
  intros Hto. revert iter ps h. induction fuel as [|fuel IH]; intros iter ps h Hwf Hc Hk Hids Hf; [lia|].
  cbn [timeout_accept_loop]. unfold timeout_iterator_accept. cbn [accept_instances prepare_instances with_tables].
  destruct (next_timedout to h (ai iter) (timeout iter)) as [k' [inst|]] eqn:Hn.
  - destruct (next_timedout_some _ _ _ _ _ _ Hwf Hto Hk Hn) as (key & Hs & Hwf1 & Hk' & Hslots & Hdue & Href).
    cbn [timeout] in *. rewrite Hdue in Hf |- *. simpl in Hf. destruct (Hids _ _ _ Hs) as [Hiwf [m Hm]].
    rewrite Hm. cbn [mbind option_bind].
    unfold peer_send_accept at 1. rewrite foreach_broadcast; [|by eapply to_accept_ok|done].
    cbn [mbind option_bind].
    destruct (IH {| pi := pi iter; ai := k'; timeout := timeout iter |} (broadcast [PAXOS_ACCEPT m] ps)
      (kh_set h k' (set_created_at inst (timeout iter)))) as (k2 & h' & acs & Hloop & Hacs & Hrest);
      [done|by apply broadcast_counted|done| |simpl; lia|].
    { eapply slots_all_set; [done|done| |done]. by intros [[] ?]. }
    exists k2, h', (m :: acs). split; [|split; [by constructor|by apply Href]].
    etrans; [exact Hloop|]. rewrite fmap_cons. do 3 f_equal. symmetry. apply broadcast_cons.
  - destruct (next_timedout_none _ _ _ _ _ Hwf Hk Hn) as [Hdue Href]. exists k', h, []. rewrite Hdue.
    simpl. by rewrite broadcast_nil.
Qed.
End timeouts.

Lemma refreshed_wf `{KH : KHash T} to t (st : proposer T) h h' :
  proposer_wf st -> refreshed to t (prepare_instances st) 0 h -> refreshed to t (accept_instances st) 0 h' ->
  preparing (with_tables st h h') = refresh to t <$> preparing st /\
  accepting (with_tables st h h') = refresh to t <$> accepting st /\ proposer_wf (with_tables st h h').
Proof.
  intros Hst Hh Hh'. destruct (pw_tables st Hst) as [Hwp Hwa].
  assert (preparing (with_tables st h h') = refresh to t <$> preparing st) as Hp by by apply refreshed_map.
  assert (accepting (with_tables st h h') = refresh to t <$> accepting st) as Ha by by apply refreshed_map.
  assert (forall next k inst, instance_wf next k inst -> instance_wf next k (refresh to t inst)) as Hinst.
  { intros next k inst []. unfold refresh. by destruct (due to t inst). }
  split; [done|]. split; [done|]. split; rewrite ?Hp, ?Ha; try apply Hst.
  - split; [apply Hh|apply Hh'].
  - intros k inst (inst' & <- & Hk)%lookup_fmap_Some. by apply Hinst, (pw_prep st Hst).
  - intros k inst (inst' & <- & Hk)%lookup_fmap_Some. by apply Hinst, (pw_acc st Hst).
  - intros k inst (inst' & <- & Hk)%lookup_fmap_Some. apply (pw_ready st Hst) in Hk.
    unfold refresh. by destruct (due to t inst').
  - intros k. rewrite !lookup_fmap, fmap_is_Some, fmap_None. apply (pw_disj st Hst).
Qed.

(** C10. With a positive [proposer_timeout] the timeout handler ends.  It sends
    again, once and to every acceptor, the prepare request of each instance in
    phase 1 and then the accept request of each instance in phase 2 that is due
    (without a quorum, and older than the timeout), gives exactly these a new
    time stamp and arms the timer. *)
Theorem check_timeouts_resends `{KH : KHash T} `{MP : Msgpack} to clock (ps : peers peer_cb) (p : evproposer T) :
  let st := ep_state p in let t := clock 0 in
  0 < to -> proposer_wf st -> counted ps ->
  exists acs st',
    evproposer_check_timeouts to clock ps p =
      Some (broadcast ((PAXOS_PREPARE <$> (prepare_of <$> due_from to t (prepare_instances st) 0)) ++
                       (PAXOS_ACCEPT <$> acs)) ps,
            {| ep_id := ep_id p; preexec_window := preexec_window p; ep_state := st'; ep_tv := ep_tv p;
               timeout_pending := true |}) /\
    Forall2 (fun inst m => instance_to_accept inst = Some m) (due_from to t (accept_instances st) 0) acs /\
    preparing st' = refresh to t <$> preparing st /\ accepting st' = refresh to t <$> accepting st /\
    proposer_wf st'.
Proof.
  intros st t Hto Hst Hc. destruct (pw_tables st Hst) as [Hwp Hwa]. unfold evproposer_check_timeouts. fold st t.
  assert (st = with_tables st (prepare_instances st) (accept_instances st)) as Heta by by destruct st.
  destruct (timeout_prepare_loop_total to (S (Z.to_nat (kh_end (prepare_instances st)))) (proposer_timeout_iterator st t)
    ps st (prepare_instances st) (accept_instances st)) as (k & h & Hloop & Hh); try done.
  { simpl. pose proof (kh_end_range _ Hwp). lia. }
  { intros i key inst Hs. destruct (pw_prep st Hst key inst); [by apply kh_map_Some; eauto|]. lia. }
  { by apply length_due_from. }
  rewrite <- Heta in Hloop. rewrite Hloop. cbn [mbind option_bind accept_instances with_tables].
  set (ps1 := broadcast _ ps).
  destruct (timeout_accept_loop_total (next_prepare_iid st) to (S (Z.to_nat (kh_end (accept_instances st))))
    {| pi := k; ai := 0; timeout := t |} ps1 st h (accept_instances st)) as (k' & h' & acs & Hloop' & Hacs & Hh'); try done.
  { by apply broadcast_counted. }
  { simpl. pose proof (kh_end_range _ Hwa). lia. }
  { intros i key inst Hs. assert (accepting st !! key = Some inst) by (apply kh_map_Some; eauto).
    split; [by apply (pw_acc st Hst)|by eapply (pw_ready st Hst)]. }
  { by apply length_due_from. }
  cbn [ai timeout proposer_timeout_iterator]. rewrite Hloop'. cbn [mbind option_bind].
  exists acs, (with_tables st h h'). split; [|split; [done|by apply refreshed_wf]].
  rewrite broadcast_app. done.
Qed.

Lemma due_at_Some `{KH : KHash T} to t (h : T instance) i inst :
  due_at to t h i = Some inst <-> exists k, kh_slot h i = Some (k, inst) /\ due to t inst = true.
Proof.
  unfold due_at. destruct (kh_slot h i) as [[k inst']|]; simpl; [|naive_solver].
  destruct (due to t inst') eqn:E; (split; [intros ?; simplify_eq; eauto|intros (? & ? & ?); simplify_eq; congruence]).
Qed.

Lemma due_again to t inst : to <= 0 -> due to t inst = true -> due to t (set_created_at inst t) = true.
Proof.
  unfold due, instance_has_timedout. simpl. rewrite Z.sub_diag, !andb_true_iff, !Z.leb_le.
  intros Hto [Hq _]. split; [done|]. exact Hto.
Qed.

Lemma timeout_prepare_loop_stuck `{KH : KHash T} `{MP : Msgpack} to fuel iter (ps : peers peer_cb) (st : proposer T) h a :
  to <= 0 -> kh_wf h -> counted ps -> 0 <= pi iter ->
  slots_all (fun _ inst => is_u32 (inst_iid inst)) h ->
  (exists j inst, pi iter <= j /\ due_at to (timeout iter) h j = Some inst) ->
  timeout_prepare_loop to fuel iter ps (with_tables st h a) = None.
Proof.
  intros Hto. revert iter ps h. induction fuel as [|fuel IH]; intros iter ps h Hwf Hc Hk Hids (j & instj & Hj & Hdj); [done|].
  cbn [timeout_prepare_loop]. unfold timeout_iterator_prepare, next_timedout. cbn [prepare_instances with_tables].
  pose proof (next_timedout_due to (timeout iter) h (Z.to_nat (kh_end h - pi iter)) (pi iter)) as Hspec.
  pose proof Hdj as (key' & Hsj & _)%due_at_Some. pose proof (kh_slot_range h j _ Hwf Hsj).
  destruct (next_timedout_from _ _ _ _ _) as [k' [inst|]]; destruct Hspec as (Hnone & Hr & Hfound).
  - destruct Hfound as [_ (key & Hs & Hd)%due_at_Some]. cbn [timeout].
    unfold peer_send_prepare at 1. rewrite foreach_broadcast; [|apply prepare_of_body_ok, (Hids _ _ _ Hs)|done].
    cbn [mbind option_bind].
    destruct (kh_set_spec h k' key inst (set_created_at inst (timeout iter)) Hwf Hs) as (Hwf1 & Hend & Hslots).
    apply (IH {| pi := k'; ai := ai iter; timeout := timeout iter |}); cbn [pi timeout]; try done.
    + by apply broadcast_counted.
    + lia.
    + by apply (slots_all_set _ h _ k' key inst (timeout iter)); [..|done].
    + exists k', (set_created_at inst (timeout iter)). split; [lia|]. apply due_at_Some. exists key.
      split; [|by apply due_again]. by rewrite Hslots, decide_True.
  - specialize (Hnone j). rewrite Hnone in Hdj; [done|lia].
Qed.

(** With a [proposer_timeout] of zero or less the timeout handler never
    ends once an instance in phase 1 is due: the loop finds the instance again
    right after it gave it a new time stamp, whatever the number of turns. *)
Theorem check_timeouts_forever `{KH : KHash T} `{MP : Msgpack} to clock (ps : peers peer_cb) (p : evproposer T) fuel :
  to <= 0 -> proposer_wf (ep_state p) -> counted ps ->
  due_from to (clock 0) (prepare_instances (ep_state p)) 0 <> [] ->
  timeout_prepare_loop to fuel (proposer_timeout_iterator (ep_state p) (clock 0)) ps (ep_state p) = None /\
  evproposer_check_timeouts to clock ps p = None.
Proof.
  intros Hto Hst Hc Hdue. set (st := ep_state p) in *. set (t := clock 0) in *.
  assert (forall n, timeout_prepare_loop to n (proposer_timeout_iterator st t) ps st = None) as Hnone.
  { intros n. replace st with (with_tables st (prepare_instances st) (accept_instances st)) at 2 by by destruct st.
    destruct (due_from to t (prepare_instances st) 0) as [|inst l] eqn:E; [done|].
    assert (inst ∈ due_from to t (prepare_instances st) 0) as Hin by (rewrite E; apply list_elem_of_here).
    apply list_elem_of_omap in Hin as (j & Hj%elem_of_seqZ & Hdj).
    apply timeout_prepare_loop_stuck; try done; [apply Hst| |by exists j, inst; split; [simpl; lia|]].
    intros i key inst' Hs. destruct (pw_prep st Hst key inst'); [|lia]. apply kh_map_Some; [apply Hst|eauto]. }
  split; [apply Hnone|]. unfold evproposer_check_timeouts. fold st t. by rewrite Hnone.
Qed.

(** A proposer with the instances of its window open since time 0. *)
Definition sample_opened : proposer khash :=
  default sample_state (fst <$> proposer_prepare sample_state {| tv_sec := 0; tv_usec := 0 |}).
Definition sample_opened_evproposer : evproposer khash := set_proposer sample_evproposer sample_opened.

Lemma sample_opened_wf : proposer_wf sample_opened.
Proof.
  destruct (open_instance_runs sample_state {| tv_sec := 0; tv_usec := 0 |}) as (st' & pr & Hrun & Hst & _);
    [apply sample_state_wf|done|by rewrite (proj1 sample_state_sizes)|].
  unfold sample_opened. by rewrite Hrun.
Qed.

(** Sent again at time 5 with a timeout of 1. *)
Lemma check_timeouts_resends_witness :
  let MP := MsgpackFormat.format in
  exists st', evproposer_check_timeouts 1 (fun _ => {| tv_sec := 5; tv_usec := 0 |}) sample_acceptors
      sample_opened_evproposer =
    Some (broadcast [PAXOS_PREPARE {| iid := 1; ballot := 13; value_ballot := 0; aid := 0; value := null_value |}]
            sample_acceptors, set_proposer sample_evproposer st').
Proof.
  intros MP. destruct (check_timeouts_resends (MP := MP) 1 (fun _ => {| tv_sec := 5; tv_usec := 0 |}) sample_acceptors
    sample_opened_evproposer) as (acs & st' & Hrun & Hacs & _); [done|apply sample_opened_wf|done|].
  exists st'. apply Forall2_nil_inv_l in Hacs. subst acs. exact Hrun.
Defined.

Lemma check_timeouts_forever_witness :
  let MP := MsgpackFormat.format in
  evproposer_check_timeouts 0 (fun _ => {| tv_sec := 5; tv_usec := 0 |}) sample_acceptors sample_opened_evproposer = None.
Proof.
  intros MP. refine (proj2 (check_timeouts_forever (MP := MP) 0 (fun _ => {| tv_sec := 5; tv_usec := 0 |}) sample_acceptors
    sample_opened_evproposer 0 _ _ _ _)); [done|apply sample_opened_wf|done|by vm_compute].
Defined.
