(* ===== verification/Learner.v ===== *)
(** * The learner ([paxos/learner.c])

    The learner collects the accepted messages of each instance until a quorum
    agrees on a ballot, and delivers the values in instance order.  For missing
    instances ("gaps") it can run both phases of the protocol itself.

    [None] is a failed [assert], an access outside an array, an undefined
    shift, or a full table. *)

From S2P Require Import Prelude PaxosTypes KhashInterface Quorum.

(** [struct instance]; [acks] has a slot per acceptor.  [final_value] points to
    one of them, which is not changed any more once it is set. *)
Record instance := Instance {
  linst_iid : Z;
  last_update_ballot : Z;
  acks : list (option paxos_accepted);
  final_value : option paxos_accepted;
}.

Record gap := Gap {
  gap_iid : Z;
  gap_ballot : Z;
  highest_accepted_ballot : Z;
  highest_accepted_value : option paxos_value;
  acceptor_bitmap : Z;   (* uint8_t *)
  gap_majority : Z;
  reached_majority : bool;
}.

Record learner (T : Type -> Type) := Learner {
  lrn_acceptors : Z;
  late_start : bool;
  current_iid : Z;
  highest_iid_closed : Z;
  instances : T instance;
  gaps : T gap;
}.
Arguments Learner {T}.
Arguments lrn_acceptors {T}.
Arguments late_start {T}.
Arguments current_iid {T}.
Arguments highest_iid_closed {T}.
Arguments instances {T}.
Arguments gaps {T}.

(** ** Values and instances *)

Definition paxos_value_copy (dst src : paxos_value) : paxos_value :=
  let len := paxos_value_len src in
  {| paxos_value_len := len;
     paxos_value_val :=
       match paxos_value_val src with
       | Some l => Some (take (Z.to_nat len) l)
       | None => paxos_value_val dst
       end |}.

Definition set_value (b : paxos_accepted) (v : paxos_value) : paxos_accepted :=
  {| iid := iid b; ballot := ballot b; value_ballot := value_ballot b; aid := aid b; value := v |}.

Definition paxos_accepted_dup (ack : paxos_accepted) : paxos_accepted :=
  set_value ack (paxos_value_copy (value ack) (value ack)).

Definition instance_new (acceptors : Z) : instance :=
  {| linst_iid := 0; last_update_ballot := 0; acks := replicate (Z.to_nat acceptors) None;
     final_value := None |}.

(** The loop of [instance_has_quorum]: [count] and [a_valid_index] after the
    acks [l], which start at index [i]. *)
Fixpoint count_acks (l : list (option paxos_accepted)) (b i a_valid_index count : Z) : Z * Z :=
  match l with
  | [] => (a_valid_index, count)
  | None :: l => count_acks l b (i + 1) a_valid_index count
  | Some curr_ack :: l =>
      if ballot curr_ack =? b then count_acks l b (i + 1) i (count + 1)
      else count_acks l b (i + 1) a_valid_index count
  end.

(** The result, and the instance with [final_value] set. *)
Definition instance_has_quorum (inst : instance) (acceptors : Z) : option (bool * instance) :=
  match final_value inst with
  | Some _ => Some (true, inst)
  | None =>
      let '(a_valid_index, count) := count_acks (acks inst) (last_update_ballot inst) 0 (-1) 0 in
      if paxos_quorum acceptors <=? count then
        a ← arr_get (acks inst) a_valid_index;
        Some (true, {| linst_iid := linst_iid inst; last_update_ballot := last_update_ballot inst;
                       acks := acks inst; final_value := a |})
      else Some (false, inst)
  end.

Definition instance_add_accept (inst : instance) (accepted : paxos_accepted) : option instance :=
  l ← arr_set (acks inst) (aid accepted) (Some (paxos_accepted_dup accepted));
  Some {| linst_iid := linst_iid inst; last_update_ballot := ballot accepted;
          acks := l; final_value := final_value inst |}.

Definition instance_update (inst : instance) (accepted : paxos_accepted) (acceptors : Z) :
    option instance :=
  let inst := if linst_iid inst =? 0
              then {| linst_iid := iid accepted; last_update_ballot := ballot accepted;
                      acks := acks inst; final_value := final_value inst |}
              else inst in
  '(closed, inst) ← instance_has_quorum inst acceptors;
  if closed : bool then Some inst else
  if acceptors - 1 <? aid accepted then Some inst else
  prev_accepted ← arr_get (acks inst) (aid accepted);
  match prev_accepted with
  | Some prev => if ballot accepted <=? ballot prev then Some inst
                 else instance_add_accept inst accepted
  | None => instance_add_accept inst accepted
  end.

(** ** Gaps *)

(** Initialised with ballot 3. *)
Definition gap_new (iid acceptors : Z) : gap :=
  {| gap_iid := iid; gap_ballot := 3; highest_accepted_ballot := 0;
     highest_accepted_value := None; acceptor_bitmap := 0; gap_majority := paxos_quorum acceptors;
     reached_majority := false |}.

Definition gap_reset (g : gap) : gap :=
  {| gap_iid := gap_iid g; gap_ballot := u32 (gap_ballot g + 11); highest_accepted_ballot := 0;
     highest_accepted_value := None; acceptor_bitmap := 0; gap_majority := gap_majority g;
     reached_majority := reached_majority g |}.

(** [uint8_t mask = 1 << acceptor_id]; a shift by 31 or more is undefined. *)
Definition is_duplicated (bitmap acceptor_id : Z) : option (bool * Z) :=
  assert_ (acceptor_id <? 31) ;;
  let mask := u8 (Z.shiftl 1 acceptor_id) in
  Some (if negb (Z.land bitmap mask =? 0) then (true, bitmap) else (false, Z.lor bitmap mask)).

(** A fresh [highest_accepted_value] block has indeterminate contents. *)
Definition update_accepted_value (g : gap) (promise : paxos_promise) : gap :=
  if highest_accepted_ballot g <? value_ballot promise then
    {| gap_iid := gap_iid g; gap_ballot := gap_ballot g;
       highest_accepted_ballot := value_ballot promise;
       highest_accepted_value :=
         if negb (paxos_value_len (value promise) =? 0)
         then Some (paxos_value_copy (default null_value (highest_accepted_value g)) (value promise))
         else highest_accepted_value g;
       acceptor_bitmap := acceptor_bitmap g; gap_majority := gap_majority g;
       reached_majority := reached_majority g |}
  else g.

(** [__builtin_popcount] of the bitmap. *)
Definition popcount8 (b : Z) : Z :=
  Z.of_nat (length (List.filter (Z.testbit b) (seqZ 0 8))).

Definition is_majority_promised (g : gap) : bool * gap :=
  if gap_majority g <=? popcount8 (acceptor_bitmap g)
  then (true, {| gap_iid := gap_iid g; gap_ballot := gap_ballot g;
                 highest_accepted_ballot := highest_accepted_ballot g;
                 highest_accepted_value := highest_accepted_value g;
                 acceptor_bitmap := acceptor_bitmap g; gap_majority := gap_majority g;
                 reached_majority := true |})
  else (false, g).

Definition update_gap (g : gap) (promise : paxos_promise) : option (bool * gap) :=
  '(dup, bitmap) ← is_duplicated (acceptor_bitmap g) (aid promise);
  let g := {| gap_iid := gap_iid g; gap_ballot := gap_ballot g;
              highest_accepted_ballot := highest_accepted_ballot g;
              highest_accepted_value := highest_accepted_value g;
              acceptor_bitmap := bitmap; gap_majority := gap_majority g;
              reached_majority := reached_majority g |} in
  if dup : bool then Some (false, g) else
  let g := update_accepted_value g promise in
  Some (is_majority_promised g).

(** [(paxos_prepare) {gap->iid, gap->ballot}] *)
Definition gap_prepare (g : gap) : paxos_prepare :=
  {| iid := gap_iid g; ballot := u16 (gap_ballot g); value_ballot := 0; aid := 0;
     value := null_value |}.

Section learner.
Context `{KH : KHash T}.
Implicit Types (l : learner T).

Definition with_instances l (h : T instance) : learner T :=
  {| lrn_acceptors := lrn_acceptors l; late_start := late_start l; current_iid := current_iid l;
     highest_iid_closed := highest_iid_closed l; instances := h; gaps := gaps l |}.

Definition with_gaps l (h : T gap) : learner T :=
  {| lrn_acceptors := lrn_acceptors l; late_start := late_start l; current_iid := current_iid l;
     highest_iid_closed := highest_iid_closed l; instances := instances l; gaps := h |}.

(** [learner_catch_up] is the configuration option of that name. *)
Definition learner_new (learner_catch_up acceptors : Z) : learner T :=
  {| lrn_acceptors := acceptors; late_start := learner_catch_up =? 0; current_iid := 1;
     highest_iid_closed := 1; instances := kh_init; gaps := kh_init |}.

Definition learner_set_instance_id l (iid : Z) : learner T :=
  {| lrn_acceptors := lrn_acceptors l; late_start := late_start l; current_iid := u32 (iid + 1);
     highest_iid_closed := iid; instances := instances l; gaps := gaps l |}.

Definition learner_get_instance_id l : Z := current_iid l.
Definition learner_get_highest_instance l : Z := highest_iid_closed l.

(** The slot and the instance, [None] for NULL. *)
Definition learner_get_instance l (iid : Z) : option (Z * instance) :=
  kh_lookup (instances l) iid.

Definition learner_get_current_instance l : option (Z * instance) :=
  learner_get_instance l (current_iid l).

Definition learner_create_instance l (iid : Z) : option (learner T * Z * instance) :=
  let inst := instance_new (lrn_acceptors l) in
  '(h, k, rv) ← kh_put (instances l) iid inst;
  assert_ (negb (rv =? -1)) ;;
  Some (with_instances l h, k, inst).

Definition learner_get_instance_or_create l (iid : Z) : option (learner T * Z * instance) :=
  match learner_get_instance l iid with
  | Some (k, inst) => Some (l, k, inst)
  | None => learner_create_instance l iid
  end.

Definition learner_delete_instance l (inst : instance) : learner T :=
  let k := kh_get (instances l) (linst_iid inst) in
  with_instances l (kh_del (instances l) k).

(** Closing [highest_iid_closed] after an update of the instance at slot [k]. *)
Definition learner_close l (k : Z) (inst : instance) : option (learner T) :=
  '(closed, inst) ← instance_has_quorum inst (lrn_acceptors l);
  let l := with_instances l (kh_set (instances l) k inst) in
  Some (if (closed : bool) && (highest_iid_closed l <? linst_iid inst)
        then {| lrn_acceptors := lrn_acceptors l; late_start := late_start l;
                current_iid := current_iid l; highest_iid_closed := linst_iid inst;
                instances := instances l; gaps := gaps l |}
        else l).

Definition learner_receive_accepted l (ack : paxos_accepted) : option (learner T) :=
  let l := if late_start l
           then {| lrn_acceptors := lrn_acceptors l; late_start := false; current_iid := iid ack;
                   highest_iid_closed := highest_iid_closed l; instances := instances l;
                   gaps := gaps l |}
           else l in
  if iid ack <? current_iid l then Some l else
  '(l, k, inst) ← learner_get_instance_or_create l (iid ack);
  inst ← instance_update inst ack (lrn_acceptors l);
  learner_close l k inst.

Definition set_aid (b : paxos_accepted) (a : Z) : paxos_accepted :=
  {| iid := iid b; ballot := ballot b; value_ballot := value_ballot b; aid := a; value := value b |}.

Definition learner_receive_chosen l (ack : paxos_accepted) : option (learner T) :=
  if iid ack <? current_iid l then Some l else
  '(l, k, inst) ← learner_create_instance l (iid ack);
  inst ← instance_update inst (set_aid ack 1) (lrn_acceptors l);
  inst ← instance_update inst (set_aid ack 2) (lrn_acceptors l);
  learner_close l k inst.

Definition learner_get_gap l (iid : Z) : option (Z * gap) := kh_lookup (gaps l) iid.

Definition learner_delete_gap l (g : gap) : learner T :=
  let k := kh_get (gaps l) (gap_iid g) in
  if negb (k =? kh_end (gaps l)) then with_gaps l (kh_del (gaps l) k) else l.

Definition learner_receive_preempted l (ack : paxos_preempted) :
    Z * learner T * option paxos_prepare :=
  match learner_get_gap l (iid ack) with
  | None => (0, l, None)
  | Some (k, g) =>
      let g := {| gap_iid := gap_iid g; gap_ballot := ballot ack;
                  highest_accepted_ballot := highest_accepted_ballot g;
                  highest_accepted_value := highest_accepted_value g;
                  acceptor_bitmap := acceptor_bitmap g; gap_majority := gap_majority g;
                  reached_majority := reached_majority g |} in
      let g := gap_reset g in
      (1, with_gaps l (kh_set (gaps l) k g), Some (gap_prepare g))
  end.

(** [inst->iid] is read after [learner_delete_instance] freed [inst]; what the
    read returns is the argument [freed_iid]. *)
Definition learner_deliver_next l (freed_iid : Z) : option (Z * learner T * option paxos_accepted) :=
  match learner_get_current_instance l with
  | None => Some (0, l, None)
  | Some (k, inst) =>
      '(closed, inst) ← instance_has_quorum inst (lrn_acceptors l);
      let l := with_instances l (kh_set (instances l) k inst) in
      if negb closed then Some (0, l, None) else
      final ← final_value inst;
      let out := set_value final (paxos_value_copy (value final) (value final)) in
      let l := learner_delete_instance l inst in
      let l := match learner_get_gap l freed_iid with
               | Some (_, g) => learner_delete_gap l g
               | None => l
               end in
      Some (1, {| lrn_acceptors := lrn_acceptors l; late_start := late_start l;
                  current_iid := u32 (current_iid l + 1);
                  highest_iid_closed := highest_iid_closed l;
                  instances := instances l; gaps := gaps l |}, Some out)
  end.

(** [from] and [to] when there are holes. *)
Definition learner_has_holes l : option (Z * Z) :=
  if current_iid l <? highest_iid_closed l then Some (current_iid l, highest_iid_closed l) else None.

Definition learner_new_gap l (iid : Z) : option (learner T * gap) :=
  let g := gap_new iid (lrn_acceptors l) in
  '(h, k, absent) ← kh_put (gaps l) iid g;
  assert_ (negb (absent =? 0)) ;;
  Some (with_gaps l h, g).

Definition get_gap_or_create l (iid : Z) : option (learner T * gap) :=
  match learner_get_gap l iid with
  | None => learner_new_gap l iid
  | Some (k, g) =>
      let g := gap_reset g in
      Some (with_gaps l (kh_set (gaps l) k g), g)
  end.

Definition learner_prepare l (iid : Z) : option (learner T * paxos_prepare) :=
  '(l, g) ← get_gap_or_create l iid;
  Some (l, gap_prepare g).

(** [accept] is the struct the caller passes; its other members are left as
    they are. *)
Definition learner_receive_promise l (promise : paxos_promise) (accept : paxos_accept) :
    option (Z * learner T * paxos_accept) :=
  match learner_get_gap l (iid promise) with
  | None => Some (0, l, accept)
  | Some (k, g) =>
      if reached_majority g then Some (0, l, accept) else
      '(reached, g) ← update_gap g promise;
      let l := with_gaps l (kh_set (gaps l) k g) in
      if negb reached then Some (0, l, accept) else
      let v := match highest_accepted_value g with
               | Some hv => paxos_value_copy (value accept) hv
               | None => null_value
               end in
      Some (1, l, {| iid := gap_iid g; ballot := u16 (gap_ballot g);
                     value_ballot := value_ballot accept; aid := aid accept; value := v |})
  end.
End learner.

(** ** Votes *)

(** Acceptors whose ack in [l] has ballot [b]; [l] starts at index [i]. *)
Fixpoint voters_from (l : list (option paxos_accepted)) (b i : Z) : gset Z :=
  match l with
  | [] => ∅
  | None :: l => voters_from l b (i + 1)
  | Some ack :: l =>
      if ballot ack =? b then {[i]} ∪ voters_from l b (i + 1) else voters_from l b (i + 1)
  end.

Definition voters (inst : instance) (b : Z) : gset Z := voters_from (acks inst) b 0.

Lemma elem_of_voters_from l b i a :
  a ∈ voters_from l b i <->
  i <= a /\ exists ack, l !! Z.to_nat (a - i) = Some (Some ack) /\ ballot ack = b.
Proof.
  revert i. induction l as [|o l IH]; intros i; simpl.
  { split; [set_solver|]. intros (_ & ack & ? & _). done. }
  assert (a ∈ voters_from l b (i + 1) <-> i < a /\
    exists ack, (o :: l) !! Z.to_nat (a - i) = Some (Some ack) /\ ballot ack = b) as Htl.
  { rewrite IH. split.
    - intros [Hle Hack]. split; [lia|]. replace (Z.to_nat (a - i)) with (S (Z.to_nat (a - (i + 1)))) by lia.
      done.
    - intros [Hlt Hack]. split; [lia|].
      replace (Z.to_nat (a - i)) with (S (Z.to_nat (a - (i + 1)))) in Hack by lia. done. }
  assert (i <= a -> i < a \/ a = i) as Hcase by lia.
  destruct o as [x|]; [destruct (Z.eqb_spec (ballot x) b)|];
    rewrite ?elem_of_union, ?elem_of_singleton, Htl; split.
  - intros [->|[? ?]]; [|split; [lia|done]]. rewrite Z.sub_diag. split; [done|]. by exists x.
  - intros [[?| ->]%Hcase Hack]; auto.
  - intros [? ?]; split; [lia|done].
  - intros [[?| ->]%Hcase Hack]; [auto|]. rewrite Z.sub_diag in Hack. simpl in Hack. naive_solver.
  - intros [? ?]; split; [lia|done].
  - intros [[?| ->]%Hcase Hack]; [auto|]. rewrite Z.sub_diag in Hack. simpl in Hack. naive_solver.
Qed.

Lemma elem_of_voters inst b a :
  a ∈ voters inst b <-> exists ack, arr_get (acks inst) a = Some (Some ack) /\ ballot ack = b.
Proof.
  unfold voters. rewrite elem_of_voters_from, Z.sub_0_r. setoid_rewrite arr_get_Some. naive_solver.
Qed.

(** The loop counts the voters and remembers one of them. *)
Lemma count_acks_spec l b i v c :
  exists v', count_acks l b i v c = (v', c + Z.of_nat (size (voters_from l b i))) /\
    (v' = v \/ v' ∈ voters_from l b i) /\ (voters_from l b i ≠ ∅ -> v' ∈ voters_from l b i).
Proof.
  revert i v c. induction l as [|o l IH]; intros i v c; cbn [count_acks voters_from].
  { exists v. rewrite size_empty, Z.add_0_r. split; [done|]. split; [by left|done]. }
  destruct o as [x|]; [|apply IH]. destruct (ballot x =? b) eqn:Hb; [|apply IH].
  destruct (IH (i + 1) i (c + 1)) as (v' & -> & Hv & Hv'). exists v'.
  assert (i ∉ voters_from l b (i + 1)) as Hni.
  { rewrite elem_of_voters_from. lia. }
  rewrite size_union by set_solver. rewrite size_singleton. split; [f_equal; lia|].
  assert (v' ∈ {[i]} ∪ voters_from l b (i + 1)) as Hin by set_solver. auto.
Qed.

(** ** Invariant *)

(** The acks of instance [k] over [n] acceptors; each satisfies [P]. *)
Definition acks_ok (P : paxos_accepted -> Prop) (n k : Z) (l : list (option paxos_accepted)) : Prop :=
  Z.of_nat (length l) = n /\
  forall a ack, arr_get l a = Some (Some ack) -> iid ack = k /\ aid ack = a /\ P ack.

(** [f] is the ack of one of a majority of acceptors with the same ballot. *)
Definition closed_by (n : Z) (l : list (option paxos_accepted)) (f : paxos_accepted) : Prop :=
  exists Q, Quorum.majority n Q /\ (exists a, arr_get l a = Some (Some f)) /\
    forall a, a ∈ Q -> exists ack, arr_get l a = Some (Some ack) /\ ballot ack = ballot f.

Definition instance_ok (P : paxos_accepted -> Prop) (n k : Z) (inst : instance) : Prop :=
  acks_ok P n k (acks inst) /\ (linst_iid inst = k \/ inst = instance_new n) /\
  forall f, final_value inst = Some f -> closed_by n (acks inst) f.

Lemma voters_range P n k inst b : instance_ok P n k inst -> voters inst b ⊆ all_ids n.
Proof.
  intros [[Hlen _] _] a (ack & Ha & _)%elem_of_voters. apply elem_of_all_ids.
  apply arr_get_lt in Ha. lia.
Qed.

(** [instance_has_quorum] decides whether a majority agrees with the last
    update, and then remembers a vote of that majority. *)
Lemma has_quorum_spec P n k inst :
  0 <= n -> instance_ok P n k inst ->
  exists b inst', instance_has_quorum inst n = Some (b, inst') /\ instance_ok P n k inst' /\
    acks inst' = acks inst /\ linst_iid inst' = linst_iid inst /\
    last_update_ballot inst' = last_update_ballot inst /\
    b = bool_decide (is_Some (final_value inst')) /\
    (b = true <-> is_Some (final_value inst) \/ Quorum.majority n (voters inst (last_update_ballot inst))).
Proof.
  intros Hn Hok. pose proof Hok as (Hacks & Hiid & Hfin). unfold instance_has_quorum.
  destruct (final_value inst) as [f|] eqn:Hf.
  { eexists _, _. split; [done|]. rewrite Hf. split_and!; try done. split; [by left|done]. }
  destruct (count_acks_spec (acks inst) (last_update_ballot inst) 0 (-1) 0) as (v & -> & Hv & Hv').
  fold (voters inst (last_update_ballot inst)) in *. rewrite Z.add_0_l.
  pose proof (voters_range _ _ _ _ (last_update_ballot inst) Hok) as Hsub.
  pose proof (paxos_quorum_majority n Hn) as Hq.
  destruct (Z.leb_spec (paxos_quorum n) (Z.of_nat (size (voters inst (last_update_ballot inst))))).
  - assert (v ∈ voters inst (last_update_ballot inst)) as Hvin.
    { apply Hv'. intros Heq. fold (voters inst (last_update_ballot inst)) in Heq.
      rewrite Heq, size_empty in *. lia. }
    pose proof Hvin as (ack & Hack & Hb)%elem_of_voters. rewrite Hack. simpl.
    eexists _, _. split; [done|]. simpl. split_and!; try done; [|by split; [right|]].
    split; [done|]. split; [left; simpl; destruct Hiid as [?| ->]; [done|]|].
    + exfalso. apply arr_get_Some in Hack as [_ Hack]. simpl in Hack. by apply lookup_replicate in Hack as [? _].
    + intros f [= <-]. exists (voters inst (last_update_ballot inst)). split; [done|].
      split; [by eexists|]. intros a (ack' & ? & ?)%elem_of_voters. exists ack'. split; [done|congruence].
  - eexists _, _. split; [done|]. rewrite Hf. split_and!; try done.
    split; [done|]. intros [[? ?]|[_ ?]]; [done|lia].
Qed.

Lemma arr_get_replicate {A} n (a : Z) (x y : A) : arr_get (replicate n x) a = Some y -> y = x.
Proof. intros [_ [? _]%lookup_replicate]%arr_get_Some. done. Qed.

Lemma instance_new_ok P n k : 0 <= n -> instance_ok P n k (instance_new n).
Proof.
  intros Hn. split; [|split; [by right|done]]. split; simpl; [rewrite length_replicate; lia|].
  intros a ack Ha. by apply arr_get_replicate in Ha.
Qed.

(** Recording an ack in a table of acks. *)
Lemma acks_ok_set P n k l l' ack :
  acks_ok P n k l -> arr_set l (aid ack) (Some ack) = Some l' -> iid ack = k -> P ack ->
  acks_ok P n k l'.
Proof.
  intros [Hlen Hl] Hset Hk HP. split; [by rewrite (arr_set_length _ _ _ _ Hset)|].
  intros a ack'. rewrite (arr_get_set _ _ _ _ _ Hset). case_decide; [naive_solver|]. apply Hl.
Qed.

Lemma instance_update_spec P n k inst ack :
  0 <= n -> instance_ok P n k inst -> iid ack = k -> 0 <= aid ack -> P (paxos_accepted_dup ack) ->
  exists inst', instance_update inst ack n = Some inst' /\ instance_ok P n k inst' /\
    linst_iid inst' = k.
Proof.
  intros Hn Hok Hk Ha HP. unfold instance_update.
  set (inst0 := if linst_iid inst =? 0 then _ else _).
  assert (instance_ok P n k inst0 /\ linst_iid inst0 = k) as [Hok0 Hk0].
  { pose proof Hok as (Hacks & Hiid & Hfin). unfold inst0.
    destruct (Z.eqb_spec (linst_iid inst) 0) as [H0|H0]; [|by destruct Hiid as [?| ->]].
    split; [|done]. split; [done|]. split; [by left|]. done. }
  destruct (has_quorum_spec P n k inst0 Hn Hok0) as (b & inst1 & -> & Hok1 & Hacks1 & Hk1 & _ & Hb & _).
  simpl. rewrite Hk0 in Hk1. destruct b; [by eauto|].
  assert (final_value inst1 = None) as Hnone.
  { destruct (final_value inst1); [|done]. by rewrite bool_decide_eq_true_2 in Hb by eauto. }
  destruct (Z.ltb_spec (n - 1) (aid ack)) as [Hlt|Hge]; [by eauto|].
  pose proof Hok1 as ([Hlen Hl] & _).
  destruct (arr_get_in (acks inst1) (aid ack)) as [prev Hprev]; [lia|]. rewrite Hprev. simpl.
  assert (exists inst', instance_add_accept inst1 ack = Some inst' /\ instance_ok P n k inst' /\
    linst_iid inst' = k) as Hadd.
  { unfold instance_add_accept.
    destruct (arr_set_in (acks inst1) (aid ack) (Some (paxos_accepted_dup ack))) as [l' Hset]; [lia|].
    rewrite Hset. simpl. eexists. split; [done|]. split; [|done]. split; simpl.
    - eapply (acks_ok_set P n k _ _ (paxos_accepted_dup ack)); [by destruct Hok1|done|done|done].
    - split; [by left|]. by rewrite Hnone. }
  destruct prev as [prev|]; [|done]. destruct (ballot ack <=? ballot prev); [by eauto|done].
Qed.

Section learner_spec.
Context `{KH : KHash T}.
Implicit Types (l : learner T) (P : paxos_accepted -> Prop).

(** Every stored ack satisfies [P]. *)
Definition learner_ok P l : Prop :=
  0 <= lrn_acceptors l /\ is_u32 (current_iid l) /\ is_u32 (highest_iid_closed l) /\
  kh_wf (instances l) /\ kh_wf (gaps l) /\
  (forall k inst, kh_map (instances l) !! k = Some inst ->
    instance_ok P (lrn_acceptors l) k inst) /\
  (forall k g, kh_map (gaps l) !! k = Some g -> gap_iid g = k).

Lemma learner_new_ok P c n : 0 <= n -> learner_ok P (learner_new c n).
Proof.
  intros Hn. unfold learner_ok. simpl. rewrite !kh_map_init.
  repeat split; try done; try apply kh_init_wf; set_solver.
Qed.

Lemma learner_ok_set_slot P l k s inst0 inst :
  learner_ok P l -> kh_slot (instances l) s = Some (k, inst0) ->
  instance_ok P (lrn_acceptors l) k inst ->
  learner_ok P (with_instances l (kh_set (instances l) s inst)).
Proof.
  intros (Hn & Hc & Hh & Hwf & Hwg & Hi & Hg) Hs Hinst.
  destruct (kh_map_set _ _ _ _ inst Hwf Hs) as [Hwf' Hmap].
  do 5 (split; [done|]). split; [|done]. simpl. rewrite Hmap. intros k' inst'.
  destruct (decide (k = k')) as [<-|Hne].
  - rewrite lookup_insert_eq. by intros [= <-].
  - rewrite lookup_insert_ne by done. apply Hi.
Qed.

(** Weakening of the predicate. *)
Lemma learner_ok_mono P Q l : (forall ack, P ack -> Q ack) -> learner_ok P l -> learner_ok Q l.
Proof.
  intros HPQ (Hn & Hc & Hh & Hwf & Hwg & Hi & Hg). do 5 (split; [done|]). split; [|done].
  intros k inst Hk. destruct (Hi k inst Hk) as ((Hlen & Hacks) & Hrest).
  split; [|done]. split; [done|]. naive_solver.
Qed.

(** The end of a handler, after the update of the instance at slot [s]. *)
Lemma learner_close_spec P l k s inst0 inst :
  learner_ok P l -> kh_slot (instances l) s = Some (k, inst0) ->
  instance_ok P (lrn_acceptors l) k inst -> linst_iid inst = k -> is_u32 k ->
  exists l', learner_close l s inst = Some l' /\ learner_ok P l' /\
    lrn_acceptors l' = lrn_acceptors l /\ current_iid l' = current_iid l.
Proof.
  intros Hok Hs Hinst Hk Hk32. pose proof Hok as (Hn & _). unfold learner_close.
  destruct (has_quorum_spec P _ k inst Hn Hinst) as (b & inst' & -> & Hinst' & _ & Hk' & _).
  simpl. rewrite Hk in Hk'.
  pose proof (learner_ok_set_slot P l k s inst0 inst' Hok Hs Hinst') as Hok'.
  eexists. split; [done|]. destruct (b && _); [|done]. split; [|done].
  destruct Hok' as (? & ? & ? & ? & ? & ? & ?). do 2 (split; [done|]). split; [simpl; lia|].
  by split_and!.
Qed.

Lemma create_spec P l k l' s inst :
  learner_ok P l -> is_u32 k -> learner_create_instance l k = Some (l', s, inst) ->
  learner_ok P l' /\ lrn_acceptors l' = lrn_acceptors l /\ current_iid l' = current_iid l /\
  kh_slot (instances l') s = Some (k, inst) /\ instance_ok P (lrn_acceptors l) k inst.
Proof.
  intros (Hn & Hc & Hh & Hwf & Hwg & Hi & Hg) Hk. unfold learner_create_instance. intros Hrun.
  destruct (kh_put _ _ _) as [[[h s'] rv]|] eqn:Hput; simpl in Hrun; [|done].
  destruct (negb (rv =? -1)); simpl in Hrun; [|done]. simplify_eq.
  apply kh_map_put in Hput as (Hwf' & Hmap & Hslot & _); [|done|done].
  pose proof (instance_new_ok P (lrn_acceptors l) k Hn).
  split; [|done]. do 5 (split; [done|]). split; [|done]. simpl. rewrite Hmap. intros k' inst'.
  destruct (decide (k = k')) as [<-|Hne].
  - rewrite lookup_insert_eq. by intros [= <-].
  - rewrite lookup_insert_ne by done. apply Hi.
Qed.

Lemma get_or_create_spec P l k l' s inst :
  learner_ok P l -> is_u32 k -> learner_get_instance_or_create l k = Some (l', s, inst) ->
  learner_ok P l' /\ lrn_acceptors l' = lrn_acceptors l /\ current_iid l' = current_iid l /\
  kh_slot (instances l') s = Some (k, inst) /\ instance_ok P (lrn_acceptors l) k inst.
Proof.
  intros Hok Hk. unfold learner_get_instance_or_create, learner_get_instance.
  destruct (kh_lookup (instances l) k) as [[s' inst']|] eqn:Hl; [|by apply create_spec].
  intros [= <- <- <-]. pose proof Hok as (Hn & Hc & Hh & Hwf & Hwg & Hi & Hg).
  apply kh_lookup_slot in Hl; [|done|done].
  assert (kh_map (instances l) !! k = Some inst') as Hm by (apply kh_map_Some; eauto).
  split_and!; try done. by apply Hi.
Qed.

(** [learner_receive_accepted]: [l] only learns acks that satisfy [P]. *)
Lemma receive_accepted_ok P l ack l' :
  learner_ok P l -> body_ok ack -> P (paxos_accepted_dup ack) ->
  learner_receive_accepted l ack = Some l' ->
  learner_ok P l' /\ lrn_acceptors l' = lrn_acceptors l /\
  current_iid l' = if late_start l then iid ack else current_iid l.
Proof.
  intros Hok (Hi & _ & _ & Ha & _) HP. unfold learner_receive_accepted.
  set (l0 := if late_start l then _ else l).
  assert (learner_ok P l0 /\ lrn_acceptors l0 = lrn_acceptors l /\
    current_iid l0 = if late_start l then iid ack else current_iid l) as (Hok0 & Hn0 & Hc0).
  { unfold l0. destruct (late_start l); [|done]. split; [|done].
    destruct Hok as (? & ? & ? & ? & ? & ? & ?). by do 6 (split; [done|]). }
  clearbody l0. rewrite <- Hn0, <- Hc0. clear Hc0 Hn0 Hok l.
  destruct (iid ack <? current_iid l0); [intros [= <-]; done|]. intros Hrun.
  destruct (learner_get_instance_or_create l0 (iid ack)) as [[[l1 s] inst]|] eqn:Hget; simpl in Hrun; [|done].
  destruct (get_or_create_spec P _ _ _ _ _ Hok0 Hi Hget) as (Hok1 & Hn1 & Hc1 & Hs & Hinst).
  pose proof Hok1 as (Hn & _). rewrite <- Hn1, <- Hc1 in *.
  destruct (instance_update_spec P _ _ inst ack Hn Hinst eq_refl ltac:(lia) HP)
    as (inst' & Hupd & Hinst' & Hk'). rewrite Hupd in Hrun. simpl in Hrun.
  destruct (learner_close_spec P l1 (iid ack) s inst inst' Hok1 Hs Hinst' Hk' Hi)
    as (l2 & Hclose & Hok2 & Hn2 & Hc2). rewrite Hclose in Hrun. simplify_eq. done.
Qed.

(** The learner with a gap removed. *)
Lemma delete_gap_ok P l k s g :
  learner_ok P l -> kh_slot (gaps l) s = Some (k, g) ->
  exists h, learner_delete_gap l g = with_gaps l h /\ learner_ok P (with_gaps l h).
Proof.
  intros (Hn & Hc & Hh & Hwf & Hwg & Hi & Hg) Hs. unfold learner_delete_gap.
  assert (kh_map (gaps l) !! k = Some g) as Hm by (apply kh_map_Some; eauto).
  rewrite (Hg _ _ Hm). destruct (kh_slot_key _ _ _ _ Hwg Hs) as [_ ->].
  pose proof (kh_slot_range _ _ _ Hwg Hs). destruct (Z.eqb_spec s (kh_end (gaps l))); [lia|].
  simpl. eexists. split; [done|]. destruct (kh_map_del _ _ _ _ Hwg Hs) as [Hwg' Hmap].
  do 4 (split; [done|]). split; [done|]. split; [done|]. simpl. rewrite Hmap.
  intros k' g' [_ Hk']%lookup_delete_Some. by apply Hg.
Qed.

(** The learner with the delivered instance removed. *)
Lemma delete_instance_ok P l k s inst :
  learner_ok P l -> kh_slot (instances l) s = Some (k, inst) -> linst_iid inst = k ->
  learner_ok P (learner_delete_instance l inst) /\
  kh_map (instances (learner_delete_instance l inst)) = delete k (kh_map (instances l)).
Proof.
  intros (Hn & Hc & Hh & Hwf & Hwg & Hi & Hg) Hs Hk. unfold learner_delete_instance. rewrite Hk.
  destruct (kh_slot_key _ _ _ _ Hwf Hs) as [_ ->]. destruct (kh_map_del _ _ _ _ Hwf Hs) as [Hwf' Hmap].
  split; [|done]. do 5 (split; [done|]). split; [|done]. simpl. rewrite Hmap.
  intros k' inst' [_ Hk']%lookup_delete_Some. by apply Hi.
Qed.

Lemma drop_gap_ok P l freed (l' := match learner_get_gap l freed with
    | Some (_, g) => learner_delete_gap l g | None => l end) :
  learner_ok P l -> is_u32 freed ->
  learner_ok P l' /\ lrn_acceptors l' = lrn_acceptors l /\ current_iid l' = current_iid l.
Proof.
  intros Hok Hfr. pose proof Hok as (_ & _ & _ & _ & Hwg & _). unfold l', learner_get_gap.
  destruct (kh_lookup (gaps l) freed) as [[s g]|] eqn:Hl; [|done].
  apply kh_lookup_slot in Hl; [|done|done].
  by destruct (delete_gap_ok P l _ s g Hok Hl) as (h & -> & ?).
Qed.

(** What [learner_deliver_next] delivers. *)
Lemma deliver_next_spec P l freed ret l' out :
  learner_ok P l -> is_u32 freed -> learner_deliver_next l freed = Some (ret, l', out) ->
  learner_ok P l' /\ lrn_acceptors l' = lrn_acceptors l /\
  (ret = 0 /\ out = None /\ current_iid l' = current_iid l \/
   ret = 1 /\ current_iid l' = u32 (current_iid l + 1) /\ exists f Q,
     out = Some (paxos_accepted_dup f) /\ iid f = current_iid l /\ P f /\
     Quorum.majority (lrn_acceptors l) Q /\
     forall a, a ∈ Q -> exists ack, P ack /\ aid ack = a /\ iid ack = current_iid l /\
       ballot ack = ballot f).
Proof.
  intros Hok Hfr. pose proof Hok as (Hn & Hc & Hh & Hwf & Hwg & Hi & Hg).
  unfold learner_deliver_next, learner_get_current_instance, learner_get_instance.
  destruct (kh_lookup (instances l) (current_iid l)) as [[s inst]|] eqn:Hl;
    [|intros [= <- <- <-]; auto 10].
  apply kh_lookup_slot in Hl; [|done|done].
  assert (instance_ok P (lrn_acceptors l) (current_iid l) inst) as Hinst
    by (apply Hi, kh_map_Some; eauto).
  destruct (has_quorum_spec P _ _ inst Hn Hinst) as (b & inst' & -> & Hinst' & Hacks & Hk' & _ & Hb & _).
  simpl. pose proof (learner_ok_set_slot P l _ s inst inst' Hok Hl Hinst') as Hok1.
  set (l1 := with_instances l _) in *. destruct b; simpl; [|intros [= <- <- <-]; auto 10].
  symmetry in Hb. apply bool_decide_eq_true in Hb as [f Hf]. rewrite Hf. simpl.
  pose proof Hinst' as ([Hlen Hack] & Hiid & Hclosed).
  destruct (Hclosed f Hf) as (Q & HQ & (a0 & Ha0) & HQack).
  assert (linst_iid inst' = current_iid l) as Hkk.
  { destruct Hiid as [?| ->]; [done|]. by apply arr_get_replicate in Ha0. }
  assert (kh_slot (instances l1) s = Some (current_iid l, inst')) as Hs1.
  { destruct (kh_set_spec _ _ _ _ inst' Hwf Hl) as (_ & _ & Hsl). simpl. rewrite Hsl.
    by rewrite decide_True. }
  destruct (delete_instance_ok P l1 _ s inst' Hok1 Hs1 Hkk) as [Hok2 _].
  destruct (drop_gap_ok P _ freed Hok2 Hfr) as (Hok3 & Hn3 & Hc3). intros [= <- <- <-].
  destruct Hok3 as (? & ? & ? & ? & ? & ? & ?). simpl in Hn3, Hc3.
  split; [|split; [done|]].
  - split; [done|]. split; [apply u32_range|]. done.
  - right. split; [done|]. split; [simpl; by rewrite Hc3|].
    destruct (Hack _ _ Ha0) as (? & ? & ?). exists f, Q. split_and!; try done.
    intros a Ha. destruct (HQack a Ha) as (ack & Hacka & Hbal). destruct (Hack _ _ Hacka) as (? & ? & ?).
    by exists ack.
Qed.
(** A learner with a late start waits for its first accepted message. *)
Lemma close_late l k inst l' : learner_close l k inst = Some l' -> late_start l' = late_start l.
Proof.
  unfold learner_close. destruct (instance_has_quorum _ _) as [[b inst']|]; simpl; [|done].
  intros [= <-]. by destruct (b && _).
Qed.

Lemma create_late l k l' s inst :
  learner_get_instance_or_create l k = Some (l', s, inst) -> late_start l' = late_start l.
Proof.
  unfold learner_get_instance_or_create, learner_create_instance.
  destruct (learner_get_instance l k) as [[? ?]|]; [by intros [= <- <- <-]|].
  destruct (kh_put _ _ _) as [[[h s'] rv]|]; simpl; [|done].
  destruct (negb _); simpl; [|done]. by intros [= <- <- <-].
Qed.

Lemma receive_accepted_late l ack l' :
  learner_receive_accepted l ack = Some l' -> late_start l' = false.
Proof.
  unfold learner_receive_accepted. set (l0 := if late_start l then _ else l).
  assert (late_start l0 = false) as Hl0 by (unfold l0; by destruct (late_start l) eqn:E).
  clearbody l0. destruct (iid ack <? current_iid l0); [by intros [= <-]|].
  destruct (learner_get_instance_or_create l0 (iid ack)) as [[[l1 s] inst]|] eqn:Hc; simpl; [|done].
  destruct (instance_update _ _ _); simpl; [|done].
  intros ->%close_late. by apply create_late in Hc as ->.
Qed.

Lemma deliver_next_late l freed ret l' out :
  learner_deliver_next l freed = Some (ret, l', out) ->
  late_start l' = late_start l /\
  (kh_wf (instances l) -> is_u32 (current_iid l) -> kh_map (instances l) = ∅ -> l' = l /\ out = None).
Proof.
  unfold learner_deliver_next, learner_get_current_instance, learner_get_instance.
  destruct (kh_lookup (instances l) (current_iid l)) as [[s inst]|] eqn:Hl;
    [|intros [= <- <- <-]; done].
  intros Hrun. split.
  - destruct (instance_has_quorum _ _) as [[b inst']|]; simpl in Hrun; [|done].
    destruct b; simpl in Hrun; [|by simplify_eq].
    destruct (final_value inst'); simpl in Hrun; [|done]. simplify_eq. simpl.
    destruct (learner_get_gap _ _) as [[? g]|]; [|done]. unfold learner_delete_gap. by destruct (negb _).
  - intros Hwf Hc Hm. apply kh_lookup_map_Some in Hl; [|done|done]. rewrite Hm in Hl. done.
Qed.
End learner_spec.
