(* ===== verification/NetPaxos.v ===== *)
(** * UDP processes: context and sockets ([net/netpaxos.c], [net/netutils.c])

    The processes of [src/net] exchange the datagrams of [MessagePack.v].  All
    of them keep their state in a [struct paxos_ctx]; [outbox] is what was sent
    on its socket, oldest first.  What the operating system decides (addresses,
    binding, multicast groups, whether a datagram is accepted) is the class
    [Os].

    [None] is undefined behaviour, a failed [assert], a loop that does not end,
    or the exit of the process after an error. *)

From S2P Require Import Prelude Bytes PaxosTypes EvConfig MessagePack.
From S2P Require Import KhashInterface Storage Acceptor Proposer Learner.

Definition BUFSIZE : Z := 128.

Record dgram := Dgram { dst : sockaddr_in; payload : list byte }.

Class Os := {
  inet_addr : cstring -> Z;
  bind_ok : Z -> bool;
  join_ok : Z -> bool;
  (** Whether [sendto] succeeds after the datagrams sent so far. *)
  send_ok : list dgram -> dgram -> bool;
}.

(** A datagram socket: the port it is bound to and its multicast groups. *)
Record socket := Socket { sock_port : option Z; sock_groups : list Z }.

Record netpaxos_configuration := NetpaxosConfiguration {
  proposer_port : list Z;
  proposer_address : list (option cstring);
  acceptor_port : Z;
  acceptor_address : option cstring;
  learner_port : Z;
  learner_address : option cstring;
  coordinator_port : Z;
  coordinator_address : option cstring;
  acceptor_count : Z;
  proposer_count : Z;
  max_num_proposer : Z;
  proxy_port : Z;
}.

Record sequencer := Sequencer { current_instance : Z }.

(** The events of the context are the callbacks of the process; they are not
    part of its state but for the timers, which are pending again after each of
    their events. *)
Record paxos_ctx (T : Type -> Type) (H : Type) := PaxosCtx {
  my_id : Z;
  sock : socket;
  coordinator_sin : sockaddr_in;
  acceptor_sin : sockaddr_in;
  learner_sin : sockaddr_in;
  proposer_sin : sockaddr_in;
  learner_state : option (learner T);
  acceptor_state : option (acceptor H);
  proposer_state : option (proposer T);
  ctx_sequencer : option sequencer;
  ctx_tv : timeval;
  at_second : Z;
  message_per_second : Z;
  buffer : list byte;
  outbox : list dgram;
}.
Arguments PaxosCtx {T H}. Arguments my_id {T H}. Arguments sock {T H}. Arguments coordinator_sin {T H}.
Arguments acceptor_sin {T H}. Arguments learner_sin {T H}. Arguments proposer_sin {T H}.
Arguments learner_state {T H}. Arguments acceptor_state {T H}. Arguments proposer_state {T H}.
Arguments ctx_sequencer {T H}. Arguments ctx_tv {T H}. Arguments at_second {T H}.
Arguments message_per_second {T H}. Arguments buffer {T H}. Arguments outbox {T H}.

(** ** Sockets *)

Section os.
Context {OS : Os}.

(** A failed [bind] is only reported. *)
Definition create_server_socket (port : Z) : socket :=
  {| sock_port := if bind_ok (u16 port) then Some (u16 port) else None; sock_groups := [] |}.

Definition ip_to_sockaddr (host : option cstring) (port : Z) : option sockaddr_in :=
  host ← host;
  Some {| sin_port := u16 port; sin_addr := inet_addr host |}.

(** The process exits when it cannot join the group. *)
Definition subcribe_to_multicast_group (group : cstring) (s : socket) : option socket :=
  assert_ (join_ok (inet_addr group));;
  Some {| sock_port := sock_port s; sock_groups := sock_groups s ++ [inet_addr group] |}.

(** The first byte in network order, the lowest of the integer. *)
Definition net_ip__is_multicast_ip (ip_address : cstring) : bool :=
  let i := Z.land (inet_addr ip_address) 255 in
  (224 <=? i) && (i <=? 239).

Definition join_if_multicast (address : option cstring) (s : socket) : option socket :=
  address ← address;
  if net_ip__is_multicast_ip address then subcribe_to_multicast_group address s else Some s.
End os.

(** ** The context *)

Section ctx.
Context {T : Type -> Type} {H : Type} {OS : Os}.
Implicit Types (ctx : paxos_ctx T H).

Definition zero_sin : sockaddr_in := {| sin_port := 0; sin_addr := 0 |}.

(** [junk] is the block [malloc] returned; [my_id], [tv] and the callbacks are
    set by the callers. *)
Definition init_paxos_ctx (junk : list byte) : paxos_ctx T H :=
  {| my_id := 0; sock := {| sock_port := None; sock_groups := [] |}; coordinator_sin := zero_sin;
     acceptor_sin := zero_sin; learner_sin := zero_sin; proposer_sin := zero_sin; learner_state := None;
     acceptor_state := None; proposer_state := None; ctx_sequencer := None;
     ctx_tv := {| tv_sec := 0; tv_usec := 0 |}; at_second := 0; message_per_second := 0; buffer := junk;
     outbox := [] |}.

Definition set_out ctx (buf : list byte) (out : list dgram) : paxos_ctx T H :=
  {| my_id := my_id ctx; sock := sock ctx; coordinator_sin := coordinator_sin ctx;
     acceptor_sin := acceptor_sin ctx; learner_sin := learner_sin ctx; proposer_sin := proposer_sin ctx;
     learner_state := learner_state ctx; acceptor_state := acceptor_state ctx;
     proposer_state := proposer_state ctx; ctx_sequencer := ctx_sequencer ctx; ctx_tv := ctx_tv ctx;
     at_second := at_second ctx; message_per_second := message_per_second ctx; buffer := buf; outbox := out |}.

(** The id, the socket, the addresses and the interval of the timers. *)
Definition set_net ctx (id : Z) (s : socket) (coordinator acceptor learner proposer : sockaddr_in) (tv : timeval) :
    paxos_ctx T H :=
  {| my_id := id; sock := s; coordinator_sin := coordinator; acceptor_sin := acceptor; learner_sin := learner;
     proposer_sin := proposer; learner_state := learner_state ctx; acceptor_state := acceptor_state ctx;
     proposer_state := proposer_state ctx; ctx_sequencer := ctx_sequencer ctx; ctx_tv := tv;
     at_second := at_second ctx; message_per_second := message_per_second ctx; buffer := buffer ctx;
     outbox := outbox ctx |}.

(** The state of the roles and the counters. *)
Definition set_roles ctx (l : option (learner T)) (a : option (acceptor H)) (p : option (proposer T))
    (s : option sequencer) (second per_second : Z) : paxos_ctx T H :=
  {| my_id := my_id ctx; sock := sock ctx; coordinator_sin := coordinator_sin ctx;
     acceptor_sin := acceptor_sin ctx; learner_sin := learner_sin ctx; proposer_sin := proposer_sin ctx;
     learner_state := l; acceptor_state := a; proposer_state := p; ctx_sequencer := s; ctx_tv := ctx_tv ctx;
     at_second := second; message_per_second := per_second; buffer := buffer ctx; outbox := outbox ctx |}.

Definition set_learner_state ctx l :=
  set_roles ctx (Some l) (acceptor_state ctx) (proposer_state ctx) (ctx_sequencer ctx) (at_second ctx)
    (message_per_second ctx).
Definition set_acceptor_state ctx a :=
  set_roles ctx (learner_state ctx) (Some a) (proposer_state ctx) (ctx_sequencer ctx) (at_second ctx)
    (message_per_second ctx).
Definition set_proposer_state ctx p :=
  set_roles ctx (learner_state ctx) (acceptor_state ctx) (Some p) (ctx_sequencer ctx) (at_second ctx)
    (message_per_second ctx).
Definition set_sequencer ctx s :=
  set_roles ctx (learner_state ctx) (acceptor_state ctx) (proposer_state ctx) (Some s) (at_second ctx)
    (message_per_second ctx).

Definition on_perf ctx : paxos_ctx T H :=
  set_roles ctx (learner_state ctx) (acceptor_state ctx) (proposer_state ctx) (ctx_sequencer ctx)
    (i32 (at_second ctx + 1)) 0.

(** [sendto(ctx->sock, buf, len, ...)] reads [len] bytes of the buffer; the
    result is whether it succeeded. *)
Definition sendto ctx (buf : list byte) (len : Z) (to : sockaddr_in) : option (paxos_ctx T H * bool) :=
  bs ← read_at buf 0 len;
  let d := {| dst := to; payload := bs |} in
  Some (if send_ok (outbox ctx) d then (set_out ctx (buffer ctx) (outbox ctx ++ [d]), true) else (ctx, false)).

(** [sendto] of a process that exits when it fails ([error_at_line]). *)
Definition sendto_or_exit ctx (buf : list byte) (len : Z) (to : sockaddr_in) : option (paxos_ctx T H) :=
  '(ctx, ok) ← sendto ctx buf len to;
  assert_ ok;;
  Some ctx.

(** [sendmmsg] sends the datagrams in order, up to the first that fails. *)
Fixpoint sendmmsg (out : list dgram) (ds : list dgram) : list dgram :=
  match ds with
  | [] => out
  | d :: ds => if send_ok out d then sendmmsg (out ++ [d]) ds else out
  end.

(** [recvfrom(fd, buf, BUFSIZE, ...)]: the buffer and the number of bytes. *)
Definition recvfrom (buf : list byte) (d : list byte) : list byte * Z :=
  let d := take (Z.to_nat BUFSIZE) d in
  (d ++ drop (length d) buf, Z.of_nat (length d)).
End ctx.
