(* ===== verification/AppConfig.v ===== *)
(** * Configuration of the applications ([sample/application_config.c], [caans/configuration.c])

    Both readers go through the file by lines and through a line by tokens; a
    keyword is followed by its arguments.  A keyword is recognised anywhere in a
    line, and [parse_verbosity] restarts [strtok] on its own argument.

    [None] is the use of NULL where a token is missing, an index outside of an
    array, a failed [assert] or the exit of the process. *)

From S2P Require Import Prelude PaxosTypes EvConfig Strtok NetPaxos.
From Stdlib Require Import String.
#[local] Open Scope Z_scope.
#[local] Notation length := List.length.

(** The argument of [verbosity], and what [strtok] continues with. *)
Definition parse_verbosity_line (s : cstring) (g : paxos_config) : paxos_config * list cstring :=
  let '(s, rest) := strtok_line s in
  (match parse_verbosity s with Some v => set_verbosity g v | None => g end, tokens rest).

(** ** The sample programs *)

Definition MAX_LEARNER : Z := 2.

Record application_config := ApplicationConfig { number_of_learners : Z; learners : list address }.

(** The tokens of one line. *)
Fixpoint parse_tokens (fuel : nat) (ts : list cstring) (conf : application_config) (g : paxos_config) :
    option (application_config * paxos_config) :=
  match fuel with
  | O => None
  | S fuel =>
      match ts with
      | [] => Some (conf, g)
      | token :: ts =>
          '(token, ts, conf) ← (if bool_decide (token = str "learner") then
             match ts with
             | a :: p :: ts =>
                 ls ← arr_set (learners conf) (number_of_learners conf) (Address (Some a) (atoi p));
                 Some (p, ts, ApplicationConfig (number_of_learners conf + 1) ls)
             | _ => None
             end else Some (token, ts, conf));
          if bool_decide (token = str "verbosity") then
            match ts with
            | [] => None
            | v :: _ => let '(g, ts) := parse_verbosity_line v g in parse_tokens fuel ts conf g
            end
          else parse_tokens fuel ts conf g
      end
  end.

(** Enough for the tokens of a line and of what follows a restart. *)
Definition line_fuel (l : list byte) : nat := S (S (length l)).

Fixpoint parse_lines (ls : list (list byte)) (conf : application_config) (g : paxos_config) :
    option (application_config * paxos_config) :=
  match ls with
  | [] => Some (conf, g)
  | l :: ls => '(conf, g) ← parse_tokens (line_fuel l) (tokens (cstr l)) conf g; parse_lines ls conf g
  end.

(** [junk] is what [malloc] left in the array; the file is [None] when it cannot
    be opened. *)
Definition parse_configuration (junk : list address) (file : option (list byte)) (g : paxos_config) :
    option (application_config * paxos_config) :=
  f ← file;
  parse_lines (split_lines f []) (ApplicationConfig 0 junk) g.

(** ** CAANS *)

Definition set_proposer (c : netpaxos_configuration) (a : cstring) (p : Z) : option netpaxos_configuration :=
  addresses ← arr_set (proposer_address c) (proposer_count c) (Some a);
  ports ← arr_set (proposer_port c) (proposer_count c) p;
  Some (NetpaxosConfiguration ports addresses (acceptor_port c) (acceptor_address c) (learner_port c)
    (learner_address c) (coordinator_port c) (coordinator_address c) (acceptor_count c) (proposer_count c + 1)
    (max_num_proposer c) (proxy_port c)).
Definition set_acceptor (c : netpaxos_configuration) (a : cstring) (p : Z) : netpaxos_configuration :=
  NetpaxosConfiguration (proposer_port c) (proposer_address c) p (Some a) (learner_port c) (learner_address c)
    (coordinator_port c) (coordinator_address c) (acceptor_count c) (proposer_count c) (max_num_proposer c) (proxy_port c).
Definition set_learner (c : netpaxos_configuration) (a : cstring) (p : Z) : netpaxos_configuration :=
  NetpaxosConfiguration (proposer_port c) (proposer_address c) (acceptor_port c) (acceptor_address c) p (Some a)
    (coordinator_port c) (coordinator_address c) (acceptor_count c) (proposer_count c) (max_num_proposer c) (proxy_port c).
Definition set_coordinator (c : netpaxos_configuration) (a : cstring) (p : Z) : netpaxos_configuration :=
  NetpaxosConfiguration (proposer_port c) (proposer_address c) (acceptor_port c) (acceptor_address c) (learner_port c)
    (learner_address c) p (Some a) (acceptor_count c) (proposer_count c) (max_num_proposer c) (proxy_port c).
Definition set_counts (c : netpaxos_configuration) (acceptors proxy : Z) : netpaxos_configuration :=
  NetpaxosConfiguration (proposer_port c) (proposer_address c) (acceptor_port c) (acceptor_address c) (learner_port c)
    (learner_address c) (coordinator_port c) (coordinator_address c) acceptors (proposer_count c) (max_num_proposer c) proxy.

(** The token, the tokens behind it, and the configurations. *)
Definition cursor : Type := cstring * list cstring * netpaxos_configuration * paxos_config.

(** A keyword with an address and a port, which is the token afterwards. *)
Definition on_address (k : string) (f : netpaxos_configuration -> cstring -> Z -> option netpaxos_configuration)
    (s : cursor) : option cursor :=
  let '(token, ts, c, g) := s in
  if bool_decide (token = str k)
  then match ts with a :: p :: ts => c ← f c a (atoi p); Some (p, ts, c, g) | _ => None end
  else Some s.

Definition on_number (k : string) (f : netpaxos_configuration -> paxos_config -> Z -> netpaxos_configuration * paxos_config)
    (s : cursor) : option cursor :=
  let '(token, ts, c, g) := s in
  if bool_decide (token = str k)
  then match ts with n :: ts => Some (n, ts, (f c g (atoi n)).1, (f c g (atoi n)).2) | [] => None end
  else Some s.

(** The keywords in the order of the code. *)
Definition on_token (s : cursor) : option cursor :=
  s ← on_address "proposer" set_proposer s;
  s ← on_address "acceptor" (fun c a p => Some (set_acceptor c a p)) s;
  s ← on_address "learner" (fun c a p => Some (set_learner c a p)) s;
  s ← on_address "coordinator" (fun c a p => Some (set_coordinator c a p)) s;
  s ← on_number "num_acceptors" (fun c g n => (set_counts c n (proxy_port c), g)) s;
  s ← on_number "proxy_port" (fun c g n => (set_counts c (acceptor_count c) n, g)) s;
  s ← on_number "proposer_preexec_window" (fun c g n => (c, set_int g F_preexec_window n)) s;
  let '(token, ts, c, g) := s in
  if bool_decide (token = str "verbosity") then
    match ts with
    | [] => None
    | v :: _ => let '(g, ts) := parse_verbosity_line v g in Some (v, ts, c, g)
    end
  else Some s.

Fixpoint populate_tokens (fuel : nat) (ts : list cstring) (c : netpaxos_configuration) (g : paxos_config) :
    option (netpaxos_configuration * paxos_config) :=
  match fuel with
  | O => None
  | S fuel =>
      match ts with
      | [] => Some (c, g)
      | token :: ts => '(_, ts, c, g) ← on_token (token, ts, c, g); populate_tokens fuel ts c g
      end
  end.

Fixpoint populate_lines (ls : list (list byte)) (c : netpaxos_configuration) (g : paxos_config) :
    option (netpaxos_configuration * paxos_config) :=
  match ls with
  | [] => Some (c, g)
  | l :: ls => '(c, g) ← populate_tokens (line_fuel l) (tokens (cstr l)) c g; populate_lines ls c g
  end.

Definition initial_configuration : netpaxos_configuration :=
  NetpaxosConfiguration (repeat 0 10) (repeat None 10) 0 None 0 None 0 None 1 0 10 0.

(** The result is [EXIT_FAILURE] (1) when the file cannot be opened. *)
Definition populate_configuration (file : option (list byte)) (g : paxos_config) :
    option (Z * netpaxos_configuration * paxos_config) :=
  match file with
  | None => Some (1, initial_configuration, g)
  | Some f =>
      '(c, g) ← populate_lines (split_lines f []) initial_configuration g;
      assert_ (bool_decide (is_Some (learner_address c)));;
      assert_ (bool_decide (is_Some (acceptor_address c)));;
      Some (0, c, g)
  end.

(** ** The fuel is enough *)

Lemma strtok_line_rest s : (length (strtok_line s).2 <= Nat.pred (length s))%nat.
Proof.
  assert (forall s, (length (cut_line s).2 <= length s)%nat) as Hcut.
  { clear. induction s as [|b s IH]; cbn [cut_line]; [done|]. destruct (Z_of_byte b =? 10); [cbn; lia|].
    destruct (cut_line s) as [t r]. cbn in *. lia. }
  induction s as [|b s IH]; cbn [strtok_line]; [done|]. destruct (Z_of_byte b =? 10).
  - destruct (strtok_line s) as [t r]. cbn in *. lia.
  - specialize (Hcut s). destruct (cut_line s) as [t r]. cbn in *. lia.
Qed.

Lemma parse_verbosity_rest v ts g : (weight (parse_verbosity_line v g).2 <= weight (v :: ts))%nat.
Proof.
  unfold parse_verbosity_line. pose proof (strtok_line_rest v) as H. destruct (strtok_line v) as [t r].
  pose proof (weight_tokens r). cbn [snd weight] in *. lia.
Qed.

Lemma on_address_rest k f s s' :
  on_address k f s = Some s' -> (weight s'.1.1.2 <= weight s.1.1.2)%nat.
Proof.
  destruct s as [[[t ts] c] g]. unfold on_address. destruct (bool_decide _); [|by intros [= <-]].
  destruct ts as [|a [|p ts]]; try done. destruct (f c a (atoi p)); [|done]. intros [= <-]. cbn. lia.
Qed.

Lemma on_number_rest k f s s' :
  on_number k f s = Some s' -> (weight s'.1.1.2 <= weight s.1.1.2)%nat.
Proof.
  destruct s as [[[t ts] c] g]. unfold on_number. destruct (bool_decide _); [|by intros [= <-]].
  destruct ts as [|a ts]; [done|]. intros [= <-]. cbn. lia.
Qed.

Lemma on_token_rest s s' : on_token s = Some s' -> (weight s'.1.1.2 <= weight s.1.1.2)%nat.
Proof.
  unfold on_token. intros H.
  repeat (let E := fresh in apply bind_Some in H as (? & E & H); first [apply on_address_rest in E|apply on_number_rest in E]).
  match type of H with match ?x with _ => _ end = _ => destruct x as [[[t ts] c] g] end. destruct (bool_decide _); [|injection H as <-; cbn in *; lia].
  destruct ts as [|v ts]; [done|]. pose proof (parse_verbosity_rest v ts g). destruct (parse_verbosity_line v g).
  injection H as <-. cbn [fst snd] in *. lia.
Qed.

(** More fuel than [line_fuel] makes no difference: [None] is never the end of
    the fuel. *)
Lemma populate_tokens_fuel n m ts c g :
  (weight ts < n)%nat -> (weight ts < m)%nat -> populate_tokens n ts c g = populate_tokens m ts c g.
Proof.
  revert m ts c g. induction n as [|n IH]; intros m ts c g Hn Hm; [lia|]. destruct m as [|m]; [lia|].
  destruct ts as [|t ts]; [done|]. cbn [populate_tokens].
  destruct (on_token (t, ts, c, g)) as [[[[t' ts'] c'] g']|] eqn:E; [|done]. apply on_token_rest in E.
  cbn [mbind option_bind fst snd weight] in *. apply IH; lia.
Qed.

Lemma parse_tokens_fuel n m ts c g :
  (weight ts < n)%nat -> (weight ts < m)%nat -> parse_tokens n ts c g = parse_tokens m ts c g.
Proof.
  revert m ts c g. induction n as [|n IH]; intros m ts c g Hn Hm; [lia|]. destruct m as [|m]; [lia|].
  destruct ts as [|t ts]; [done|]. cbn [parse_tokens].
  assert (forall t' ts' c', (weight ts' <= weight ts)%nat ->
    (if bool_decide (t' = str "verbosity") then
       match ts' with [] => None | v :: _ => let '(g, ts) := parse_verbosity_line v g in parse_tokens n ts c' g end
     else parse_tokens n ts' c' g) =
    (if bool_decide (t' = str "verbosity") then
       match ts' with [] => None | v :: _ => let '(g, ts) := parse_verbosity_line v g in parse_tokens m ts c' g end
     else parse_tokens m ts' c' g)) as Hstep.
  { intros t' ts' c' Hw. cbn [weight] in *. destruct (bool_decide _); [|apply IH; lia]. destruct ts' as [|v ts']; [done|].
    pose proof (parse_verbosity_rest v ts' g). destruct (parse_verbosity_line v g) as [g' r]. cbn [snd] in *. apply IH; lia. }
  destruct (bool_decide (t = str "learner")); [|apply Hstep; lia].
  destruct ts as [|a [|p ts]]; try done. destruct (arr_set _ _ _); [|done]. cbn [mbind option_bind]. apply Hstep. cbn. lia.
Qed.

(** ** Reading back a printed configuration *)

Definition print_line (k : string) (x : cstring * Z) : list byte :=
  str k ++ [x20] ++ x.1 ++ [x20] ++ print_nat x.2 ++ [x0a].

(** A keyword: neither white space nor NUL in it, and it does not begin with a digit. *)
Definition keyword (k : string) : bool :=
  forallb (fun b => negb (isspace b) && negb (Z_of_byte b =? 0)) (str k) &&
  match str k with b :: _ => negb (isdigit b) | [] => false end.

Lemma not_space b : isspace b = false -> Z_of_byte b <> 32 /\ Z_of_byte b <> 10.
Proof. unfold isspace. lia. Qed.

Lemma keyword_word k : keyword k = true -> word (str k) /\ Forall inline (str k).
Proof.
  unfold keyword. intros [Hf Hd]%andb_prop. split; [split; [by destruct (str k)|]|]; apply Forall_forall; intros b Hb.
  all: apply list_elem_of_In in Hb; apply (proj1 (forallb_forall _ _) Hf) in Hb; apply andb_prop in Hb as [Hs Hz].
  all: apply negb_true_iff in Hs; pose proof (not_space b Hs); unfold inline; lia.
Qed.

Lemma port_word p : 0 <= p -> word (print_nat p ++ [x0a]).
Proof.
  intros Hp. split; [by intros [_ ?]%app_eq_nil|]. apply Forall_app. split; [|by repeat constructor].
  eapply Forall_impl; [by apply print_nat_digit|]. unfold digit. intros b Hb. lia.
Qed.

Lemma port_keyword k p : keyword k = true -> 0 <= p -> bool_decide (print_nat p ++ [x0a] = str k) = false.
Proof.
  unfold keyword. intros [_ Hd]%andb_prop Hp. apply bool_decide_eq_false. intros E. rewrite <- E in Hd.
  pose proof (print_nat_digit p Hp) as Hdig. destruct (print_nat p) as [|b l] eqn:El; [by destruct (print_nat_nonempty p)|].
  cbn [app] in Hd. apply Forall_cons in Hdig as [Hb _]. unfold isdigit, digit in *. lia.
Qed.

Lemma print_line_inline k x : keyword k = true -> printable x -> exists l, print_line k x = l ++ [x0a] /\ Forall inline l.
Proof.
  intros Hk (Ha & _ & _ & Hp). exists (str k ++ [x20] ++ x.1 ++ [x20] ++ print_nat x.2).
  split; [unfold print_line; by rewrite <- !app_assoc|]. apply keyword_word in Hk as [_ Hk].
  rewrite !Forall_app. split_and!; [done|by repeat constructor| |by repeat constructor|].
  - eapply Forall_impl; [exact Ha|]. intros b [Hs Hz]. pose proof (not_space b Hs). split; lia.
  - eapply Forall_impl; [apply print_nat_digit; lia|]. unfold digit. intros b Hb. split; lia.
Qed.

Lemma print_line_tokens k x : keyword k = true -> printable x ->
  tokens (cstr (print_line k x)) = [str k; x.1; print_nat x.2 ++ [x0a]].
Proof.
  intros Hk Hx. destruct (print_line_inline k x Hk Hx) as (l & E & Hl). rewrite E, cstr_app, <- E by done.
  destruct Hx as (Ha & Hne & _ & Hp). unfold print_line. apply keyword_word in Hk as [Hk _].
  rewrite tokens_word by done. rewrite tokens_word.
  - rewrite tokens_last by (apply port_word; lia). done.
  - split; [done|]. eapply Forall_impl; [exact Ha|]. intros b [Hs _]. apply (not_space b Hs).
Qed.

Lemma print_line_split k x f : keyword k = true -> printable x ->
  split_lines (print_line k x ++ f) [] = print_line k x :: split_lines f [].
Proof.
  intros Hk Hx. destruct (print_line_inline k x Hk Hx) as (l & E & Hl). rewrite E, <- app_assoc, split_lines_app; [done|].
  eapply Forall_impl; [exact Hl|]. by intros b [? _].
Qed.

(** A keyword and its arguments; any other token. *)
Lemma on_address_hit k f a p ts c g : on_address k f (str k, a :: p :: ts, c, g) = c ← f c a (atoi p); Some (p, ts, c, g).
Proof. unfold on_address. by rewrite bool_decide_true. Qed.

Lemma on_address_miss k f t ts c g : bool_decide (t = str k) = false -> on_address k f (t, ts, c, g) = Some (t, ts, c, g).
Proof. unfold on_address. by intros ->. Qed.

Lemma on_number_hit k f n ts c g : on_number k f (str k, n :: ts, c, g) = Some (n, ts, (f c g (atoi n)).1, (f c g (atoi n)).2).
Proof. unfold on_number. by rewrite bool_decide_true. Qed.

Lemma on_number_miss k f t ts c g : bool_decide (t = str k) = false -> on_number k f (t, ts, c, g) = Some (t, ts, c, g).
Proof. unfold on_number. by intros ->. Qed.

(** The line of a keyword; the number at its end matches no keyword. *)
Ltac token_steps :=
  repeat (first [rewrite on_address_hit|rewrite on_address_miss by (reflexivity || (apply port_keyword; [reflexivity|lia]))
                |rewrite on_number_hit|rewrite on_number_miss by (reflexivity || (apply port_keyword; [reflexivity|lia]))
                |rewrite port_keyword by (reflexivity || lia)|rewrite atoi_print by lia]; cbn [mbind option_bind fst snd]).

Lemma read_proposer l x c g : printable x ->
  populate_tokens (line_fuel l) [str "proposer"; x.1; print_nat x.2 ++ [x0a]] c g = c ← set_proposer c x.1 x.2; Some (c, g).
Proof.
  intros (_ & _ & _ & Hp). unfold line_fuel. cbn [populate_tokens]. unfold on_token. token_steps.
  destruct (set_proposer c x.1 x.2); [|done]. cbn [mbind option_bind]. by token_steps.
Qed.

Lemma read_acceptor l x c g : printable x ->
  populate_tokens (line_fuel l) [str "acceptor"; x.1; print_nat x.2 ++ [x0a]] c g = Some (set_acceptor c x.1 x.2, g).
Proof. intros (_ & _ & _ & Hp). unfold line_fuel. cbn [populate_tokens]. unfold on_token. by token_steps. Qed.

Lemma read_learner l x c g : printable x ->
  populate_tokens (line_fuel l) [str "learner"; x.1; print_nat x.2 ++ [x0a]] c g = Some (set_learner c x.1 x.2, g).
Proof. intros (_ & _ & _ & Hp). unfold line_fuel. cbn [populate_tokens]. unfold on_token. by token_steps. Qed.

Lemma read_coordinator l x c g : printable x ->
  populate_tokens (line_fuel l) [str "coordinator"; x.1; print_nat x.2 ++ [x0a]] c g = Some (set_coordinator c x.1 x.2, g).
Proof. intros (_ & _ & _ & Hp). unfold line_fuel. cbn [populate_tokens]. unfold on_token. by token_steps. Qed.

Definition print_number (k : string) (n : Z) : list byte := str k ++ [x20] ++ print_nat n ++ [x0a].

Lemma print_number_tokens k n : keyword k = true -> 0 <= n -> tokens (cstr (print_number k n)) = [str k; print_nat n ++ [x0a]].
Proof.
  intros [Hk Hi]%keyword_word Hn. replace (print_number k n) with ((str k ++ [x20] ++ print_nat n) ++ [x0a]) by (unfold print_number; by rewrite <- !app_assoc).
  rewrite cstr_app.
  - rewrite <- !app_assoc, tokens_word by done. by rewrite tokens_last by (by apply port_word).
  - rewrite !Forall_app. split_and!; [done|by repeat constructor|]. eapply Forall_impl; [by apply print_nat_digit|]. unfold digit, inline. lia.
Qed.

Lemma print_number_split k n f : keyword k = true -> 0 <= n ->
  split_lines (print_number k n ++ f) [] = print_number k n :: split_lines f [].
Proof.
  intros [Hk Hi]%keyword_word Hn. replace (print_number k n) with ((str k ++ [x20] ++ print_nat n) ++ [x0a]) by (unfold print_number; by rewrite <- !app_assoc).
  rewrite <- (app_assoc _ [x0a] f), split_lines_app; [done|]. rewrite !Forall_app. split_and!.
  - eapply Forall_impl; [exact Hi|]. by intros b [? _].
  - by repeat constructor.
  - eapply Forall_impl; [by apply print_nat_digit|]. unfold digit. lia.
Qed.

Lemma read_acceptors l n c g : 0 <= n < 2 ^ 31 ->
  populate_tokens (line_fuel l) [str "num_acceptors"; print_nat n ++ [x0a]] c g = Some (set_counts c n (proxy_port c), g).
Proof. intros Hn. unfold line_fuel. cbn [populate_tokens]. unfold on_token. by token_steps. Qed.

Lemma arr_set_fill {A} (l : list A) d x n : (length l < n)%nat ->
  arr_set (l ++ repeat d (n - length l)) (Z.of_nat (length l)) x = Some ((l ++ [x]) ++ repeat d (n - length (l ++ [x]))).
Proof.
  intros Hn. apply arr_set_Some. rewrite length_app, repeat_length. split; [lia|]. rewrite Nat2Z.id.
  rewrite insert_app_r_alt, Nat.sub_diag, <- app_assoc by lia. f_equal. rewrite length_app. cbn [length].
  destruct (n - length l)%nat as [|k] eqn:E; [lia|]. cbn [repeat insert list_insert app]. do 2 f_equal. lia.
Qed.

Definition with_proposers (n : Z) (ps : list (cstring * Z)) : netpaxos_configuration :=
  NetpaxosConfiguration (ps.*2 ++ repeat 0 (10 - length ps.*2)) ((Some <$> ps.*1) ++ repeat None (10 - length (Some <$> ps.*1)))
    0 None 0 None 0 None n (Z.of_nat (length ps)) 10 0.

Lemma set_proposer_next n ps x : (length ps < 10)%nat ->
  set_proposer (with_proposers n ps) x.1 x.2 = Some (with_proposers n (ps ++ [x])).
Proof.
  intros Hps. unfold set_proposer, with_proposers. cbn [proposer_address proposer_port proposer_count].
  replace (Z.of_nat (length ps)) with (Z.of_nat (length (Some <$> ps.*1))) at 1 by (by rewrite !length_fmap).
  rewrite arr_set_fill by (by rewrite !length_fmap). cbn [mbind option_bind].
  replace (Z.of_nat (length ps)) with (Z.of_nat (length ps.*2)) at 1 by (by rewrite !length_fmap).
  rewrite arr_set_fill by (by rewrite !length_fmap). cbn [mbind option_bind].
  rewrite !fmap_app. cbn. do 2 f_equal. rewrite length_app. cbn. lia.
Qed.

Lemma set_proposer_full n ps x : length ps = 10%nat -> set_proposer (with_proposers n ps) x.1 x.2 = None.
Proof.
  intros Hps. unfold set_proposer. destruct (arr_set (proposer_address _) _ _) as [l|] eqn:E; [|done]. apply arr_set_Some in E as [Hi _].
  unfold with_proposers in Hi. cbn [proposer_address proposer_count] in Hi.
  rewrite length_app, !length_fmap, repeat_length, Hps in Hi. cbn in Hi. lia.
Qed.

Definition print_proposers (ps : list (cstring * Z)) : list byte := List.concat (print_line "proposer" <$> ps).

Lemma read_line k x f c g :
  keyword k = true -> printable x ->
  populate_lines (split_lines (print_line k x ++ f) []) c g =
    '(c, g) ← populate_tokens (line_fuel (print_line k x)) [str k; x.1; print_nat x.2 ++ [x0a]] c g;
    populate_lines (split_lines f []) c g.
Proof. intros Hk Hx. rewrite print_line_split by done. cbn [populate_lines]. by rewrite print_line_tokens. Qed.

Lemma read_proposers n ps1 ps2 f g :
  Forall printable ps2 -> (length (ps1 ++ ps2) <= 10)%nat ->
  populate_lines (split_lines (print_proposers ps2 ++ f) []) (with_proposers n ps1) g =
  populate_lines (split_lines f []) (with_proposers n (ps1 ++ ps2)) g.
Proof.
  intros Hps. revert ps1. induction Hps as [|x ps2 Hx _ IH]; intros ps1 Hlen; [by rewrite app_nil_r|].
  unfold print_proposers. cbn [fmap list_fmap List.concat]. rewrite <- app_assoc, read_line by done.
  rewrite length_app in Hlen. cbn [length] in Hlen.
  rewrite read_proposer by done. rewrite set_proposer_next by lia. cbn [mbind option_bind].
  fold (print_proposers ps2). rewrite IH by (rewrite !length_app; cbn [length]; lia). by rewrite <- app_assoc.
Qed.

(** C37. A printed configuration of CAANS (the number of acceptors, at most ten
    proposers, the coordinator, the acceptors' and the learners' address) is read
    back as it was; with an eleventh proposer the reader writes outside of its
    arrays. *)
Theorem caans_config_roundtrip n ps coord acc lea g :
  0 <= n < 2 ^ 31 -> Forall printable ps -> printable coord -> printable acc -> printable lea ->
  populate_configuration (Some (print_number "num_acceptors" n ++ print_proposers ps ++
    print_line "coordinator" coord ++ print_line "acceptor" acc ++ print_line "learner" lea)) g =
  if decide (length ps <= 10)%nat then
    Some (0, NetpaxosConfiguration (ps.*2 ++ repeat 0 (10 - length ps)) ((Some <$> ps.*1) ++ repeat None (10 - length ps))
               acc.2 (Some acc.1) lea.2 (Some lea.1) coord.2 (Some coord.1) n (Z.of_nat (length ps)) 10 0, g)
  else None.
Proof.
  intros Hn Hps Hcoord Hacc Hlea. unfold populate_configuration. rewrite print_number_split by (done || lia).
  cbn [populate_lines]. rewrite print_number_tokens by (done || lia).
  rewrite read_acceptors by done. cbn [mbind option_bind].
  change (set_counts initial_configuration n _) with (with_proposers n []). case_decide as Hlen.
  - rewrite read_proposers by done. rewrite !read_line by done.
    rewrite read_coordinator by done. cbn [mbind option_bind]. rewrite read_line by done.
    rewrite read_acceptor by done. cbn [mbind option_bind].
    rewrite <- (app_nil_r (print_line "learner" lea)), read_line, read_learner by done. cbn [mbind option_bind]. unfold with_proposers. rewrite !length_fmap. reflexivity.
  - rewrite <- (take_drop 10 ps). unfold print_proposers. rewrite fmap_app, concat_app, <- app_assoc.
    fold (print_proposers (take 10 ps)) (print_proposers (drop 10 ps)).
    rewrite read_proposers by (by (apply Forall_take) || (rewrite length_app, length_take; cbn [length]; lia)).
    destruct (drop 10 ps) as [|x r] eqn:E; [apply (f_equal length) in E; rewrite length_drop in E; cbn [length] in E; lia|].
    assert (printable x) as Hx. { apply (Forall_drop _ 10) in Hps. rewrite E in Hps. by inversion Hps. }
    unfold print_proposers. cbn [fmap list_fmap List.concat]. rewrite <- app_assoc, read_line, read_proposer by done.
    by rewrite set_proposer_full by (cbn [app]; rewrite length_take; lia).
Qed.

(** The file [config_file.conf] of the repository: the spaces around the one
    behind the learners' address are no-break spaces in UTF-8. *)
Definition config_file : list byte :=
  str "num_acceptors 3
proposer 192.168.4.95 34941
proposer 192.168.4.96 34942
proposer 192.168.4.97 34943
proposer 192.168.4.98 34944
coordinator 224.3.29.71 34951
acceptor 224.3.29.72 34952
learner 224.3.29.73" ++ [xc2; xa0] ++ str " " ++ [xc2; xa0] ++ str " 34953
verbosity quite
proposer-preexec-window 10
".

(** So the learners' port is 0 and a part of the spaces belongs to the address;
    the verbosity and the window of the file are ignored: neither the level
    [quite] nor the name with dashes is known. *)
Lemma config_file_learner_port g :
  exists c, populate_configuration (Some config_file) g = Some (0, c, g) /\
    learner_port c = 0 /\ learner_address c = Some (str "224.3.29.73" ++ [xc2; xa0]) /\
    acceptor_port c = 34952 /\ coordinator_port c = 34951 /\ proposer_count c = 4 /\ acceptor_count c = 3.
Proof. eexists. split; [vm_compute; reflexivity|]. by split_and!. Qed.

Definition sample_addresses : list (cstring * Z) :=
  [(str "192.168.4.97", 34941); (str "192.168.4.97", 34942); (str "192.168.4.97", 34943)].
Definition sample_group : cstring * Z := (str "224.3.29.73", 34952).

Lemma sample_addresses_printable : Forall printable (sample_group :: sample_addresses).
Proof.
  assert (forall x, forallb (fun b => negb (isspace b) && negb (Z_of_byte b =? 0)) x.1 = true -> x.1 <> [] ->
    (length x.1 < 128)%nat -> 0 <= x.2 < 2 ^ 16 -> printable x) as H.
  { intros x Hf Hne Hl Hp. split_and!; [|done..|lia|lia]. apply Forall_forall. intros b Hb%list_elem_of_In.
    apply (proj1 (forallb_forall _ _) Hf) in Hb. apply andb_prop in Hb as [Hs Hz]. apply negb_true_iff in Hs. split; [done|lia]. }
  repeat (apply Forall_cons; split; [apply H; cbn; (reflexivity || discriminate || lia)|]). constructor.
Qed.

Lemma caans_config_roundtrip_witness :
  exists c, populate_configuration (Some (print_number "num_acceptors" 3 ++ print_proposers sample_addresses ++
    print_line "coordinator" sample_group ++ print_line "acceptor" sample_group ++ print_line "learner" sample_group)) default_paxos_config =
    Some (0, c, default_paxos_config) /\ proposer_count c = 3 /\ learner_address c = Some (str "224.3.29.73").
Proof.
  pose proof sample_addresses_printable as [Hg Hps]%Forall_cons.
  rewrite (caans_config_roundtrip 3 sample_addresses sample_group sample_group sample_group default_paxos_config) by (done || lia).
  eexists. split; [reflexivity|]. by split.
Defined.

(** ** The reader of the sample programs *)

Lemma arr_set_over {A} (l junk : list A) x : (length l < length junk)%nat ->
  arr_set (l ++ drop (length l) junk) (Z.of_nat (length l)) x = Some ((l ++ [x]) ++ drop (length (l ++ [x])) junk).
Proof.
  intros Hl. apply arr_set_Some. rewrite length_app, length_drop. split; [lia|]. rewrite Nat2Z.id.
  rewrite insert_app_r_alt, Nat.sub_diag, <- app_assoc by lia. f_equal. rewrite length_app. cbn [length].
  destruct (drop (length l) junk) as [|y r] eqn:E; [apply (f_equal length) in E; rewrite length_drop in E; cbn in E; lia|].
  cbn. rewrite <- drop_drop, E. done.
Qed.

Definition learner_entry (x : cstring * Z) : address := Address (Some x.1) x.2.

Lemma parse_learner l x ls junk g : printable x -> 
  parse_tokens (line_fuel l) [str "learner"; x.1; print_nat x.2 ++ [x0a]] 
    (ApplicationConfig (Z.of_nat (length ls)) (ls ++ drop (length ls) junk)) g =
  if decide (length ls < length junk)%nat
  then Some (ApplicationConfig (Z.of_nat (length (ls ++ [learner_entry x])))
              ((ls ++ [learner_entry x]) ++ drop (length (ls ++ [learner_entry x])) junk), g)
  else None.
Proof.
  intros (_ & _ & _ & Hp). unfold line_fuel. cbn [parse_tokens]. rewrite bool_decide_true by done.
  rewrite atoi_print by lia. cbn [learners number_of_learners]. fold (learner_entry x). case_decide as Hl.
  - rewrite arr_set_over by done. cbn [mbind option_bind]. rewrite port_keyword by (done || lia).
    rewrite (length_app ls). cbn. do 3 f_equal. lia.
  - destruct (arr_set _ _ _) eqn:E; [|done]. apply arr_set_Some in E as [Hi _]. rewrite length_app, length_drop in Hi. lia.
Qed.

(** The learners of a printed configuration are read back in their order, on
    top of whatever [malloc] left in the array; one more than its
    [MAX_LEARNER] (2) elements is written outside of it. *)
Theorem sample_config_roundtrip xs junk g :
  Forall printable xs -> Z.of_nat (length junk) = MAX_LEARNER ->
  parse_configuration junk (Some (List.concat (print_line "learner" <$> xs))) g =
  if decide (Z.of_nat (length xs) <= MAX_LEARNER)
  then Some (ApplicationConfig (Z.of_nat (length xs)) ((learner_entry <$> xs) ++ drop (length xs) junk), g)
  else None.
Proof.
  unfold MAX_LEARNER. intros Hxs Hjunk. unfold parse_configuration. cbn [mbind option_bind].
  assert (forall ls, (length ls <= 2)%nat ->
    parse_lines (split_lines (List.concat (print_line "learner" <$> xs)) [])
      (ApplicationConfig (Z.of_nat (length ls)) (ls ++ drop (length ls) junk)) g =
    if decide (Z.of_nat (length (ls ++ (learner_entry <$> xs))) <= 2)
    then Some (ApplicationConfig (Z.of_nat (length (ls ++ (learner_entry <$> xs))))
                ((ls ++ (learner_entry <$> xs)) ++ drop (length (ls ++ (learner_entry <$> xs))) junk), g)
    else None) as H.
  { induction Hxs as [|x xs Hx _ IH]; intros ls Hls; [rewrite app_nil_r, decide_True by lia; done|].
    cbn [fmap list_fmap List.concat]. rewrite print_line_split by done. cbn [parse_lines].
    rewrite print_line_tokens, parse_learner by done. case_decide as Hl.
    - cbn [mbind option_bind]. rewrite IH by (rewrite length_app; cbn; lia). by rewrite <- !app_assoc.
    - rewrite decide_False; [done|]. rewrite length_app. cbn [length]. lia. }
  specialize (H [] ltac:(cbn; lia)). cbn [app] in H. rewrite length_fmap in H. exact H.
Qed.

Lemma sample_config_roundtrip_witness :
  parse_configuration [zero_address; zero_address] (Some (print_line "learner" sample_group)) default_paxos_config =
    Some (ApplicationConfig 1 [learner_entry sample_group; zero_address], default_paxos_config).
Proof.
  pose proof sample_addresses_printable as [Hg _]%Forall_cons.
  exact (sample_config_roundtrip [sample_group] [zero_address; zero_address] default_paxos_config ltac:(by constructor) eq_refl).
Defined.
