(* ===== verification/NetSequencer.v ===== *)
(** * UDP clients and the sequencer ([net/proposer.c], [net/sequencer.c])

    A client submits a value as an accept request to the coordinator's address.
    There a sequencer may stand in for the coordinator: it writes the next
    instance id into the request and passes it on to the acceptors. *)

From S2P Require Import Prelude Bytes PaxosTypes EvConfig MessagePack StorageUtils NetPaxos.
From S2P Require Import Proposer.

Section sequencer.
Context {T : Type -> Type} {H : Type} {OS : Os}.
Implicit Types (ctx : paxos_ctx T H).

Definition VLEN : Z := 1024.

(** ** Submitting a value *)

(** [tx_buffer]: the datagrams put in the array since the last flush; they are
    built from [tx_iovecs], which point to the buffer of the caller. *)
Definition flush_buffer ctx (tx_buffer : list dgram) : paxos_ctx T H :=
  set_out ctx (buffer ctx) (sendmmsg (outbox ctx) tx_buffer).

(** [junk] is the uninitialised buffer on the stack. *)
Definition submit ctx (junk : list byte) (value : option (list byte)) (size : Z) : option (paxos_ctx T H) :=
  let msg := PAXOS_ACCEPT {| iid := 1; ballot := 0; value_ballot := 0; aid := 0;
                             value := {| paxos_value_len := size; paxos_value_val := value |} |} in
  '(buf, _) ← pack_paxos_message junk msg;
  let msg_len := sizeof_paxos_message + size in
  bs ← read_at buf 0 msg_len;
  Some (flush_buffer ctx [{| dst := coordinator_sin ctx; payload := bs |}]).

(** The messages the proposer reads are dropped; [None] is the exit after a
    failed [recvmmsg]. *)
Definition proposer_read_cb ctx (received : option (list (list byte))) : option (paxos_ctx T H) :=
  _ ← received;
  Some ctx.

Definition make_proposer (junk : list byte) (conf : netpaxos_configuration) (proposer_id : Z) :
    option (paxos_ctx T H) :=
  let ctx := init_paxos_ctx junk in
  port ← arr_get (proposer_port conf) proposer_id;
  address ← arr_get (proposer_address conf) proposer_id;
  own ← ip_to_sockaddr address port;
  coord ← ip_to_sockaddr (coordinator_address conf) (coordinator_port conf);
  Some (set_net ctx (my_id ctx) (create_server_socket port) coord (acceptor_sin ctx) (learner_sin ctx) own (ctx_tv ctx)).

(** ** The sequencer *)

Definition sequencer_handle_proposal ctx (buf : list byte) (size : Z) : option (paxos_ctx T H) :=
  sq ← ctx_sequencer ctx;
  buf ← write_at buf 2 (be_split 4 (current_instance sq));
  let ctx := set_sequencer ctx {| current_instance := u32 (current_instance sq + 1) |} in
  sendto_or_exit ctx buf size (acceptor_sin ctx).

(** Answers a benchmark packet with a part of its value; the offset skips a
    command id of two bytes and an address of 16. *)
Definition sizeof_sockaddr_in : Z := 16.

Definition benchmark_reply ctx (msg : paxos_accepted) (size : Z) (remote : sockaddr_in) : option (paxos_ctx T H) :=
  let retsize := (size - sizeof_paxos_accepted + 2 + sizeof_sockaddr_in) mod 2 ^ 64 in
  retval ← read_at (default [] (paxos_value_val (value msg))) (2 + sizeof_sockaddr_in) retsize;
  '(ctx, ok) ← sendto ctx retval retsize remote;
  let ctx := set_roles ctx (learner_state ctx) (acceptor_state ctx) (proposer_state ctx) (ctx_sequencer ctx)
               (at_second ctx) (i32 (message_per_second ctx + 1)) in
  assert_ ok;;
  Some ctx.

Definition handle_accepted ctx (buf : list byte) (size : Z) (remote : sockaddr_in) : option (paxos_ctx T H) :=
  msg ← unpack_paxos_message buf;
  match msg with
  | Some (PAXOS_ACCEPTED b) => benchmark_reply ctx b size remote
  | _ => None
  end.

(** [received] is the datagram and its sender, [None] the exit after an error;
    [junk] is the uninitialised buffer on the stack. *)
Definition handle_packet_in ctx (junk : list byte) (received : option (sockaddr_in * list byte)) :
    option (paxos_ctx T H) :=
  '(remote, d) ← received;
  let '(buf, n) := recvfrom junk d in
  msgtype ← unpack_uint16 buf 0;
  if msgtype =? 2 then sequencer_handle_proposal ctx buf n
  else if msgtype =? 3 then handle_accepted ctx buf n remote
  else Some ctx.

Definition sequencer_new : sequencer := {| current_instance := 1 |}.

Definition make_sequencer (junk : list byte) (conf : netpaxos_configuration) : option (paxos_ctx T H) :=
  let ctx := set_sequencer (init_paxos_ctx junk) sequencer_new in
  s ← join_if_multicast (coordinator_address conf) (create_server_socket (coordinator_port conf));
  acc ← ip_to_sockaddr (acceptor_address conf) (acceptor_port conf);
  Some (set_net ctx (my_id ctx) s (coordinator_sin ctx) acc (learner_sin ctx) (proposer_sin ctx) (ctx_tv ctx)).
End sequencer.

(** ** Numbering *)

Section numbering.
Context {T : Type -> Type} {H : Type} {OS : Os}.
Implicit Types (ctx : paxos_ctx T H).

(** A datagram with an accept request [c]. *)
Definition accept_dgram (d : list byte) (c : paxos_accept) : Prop :=
  Z.of_nat (length d) <= BUFSIZE /\ unpack_uint16 d 0 = Some 2 /\ unpack_body d = Some c.

Lemma accept_dgram_unpack d r c :
  accept_dgram d c -> unpack_paxos_message (d ++ r) = Some (Some (PAXOS_ACCEPT c)).
Proof.
  intros (_ & Ht & Hc). unfold unpack_paxos_message. rewrite (unpack_uint16_app _ r _ _ Ht). simpl.
  unfold unpack_paxos_accept. by rewrite (unpack_body_app _ r _ Hc).
Qed.

(** A client's datagram. *)
Lemma submit_dgram ctx junk v size :
  0 <= size -> size <= Z.of_nat (length v) -> sizeof_paxos_message + size <= BUFSIZE ->
  Z.of_nat (length junk) = BUFSIZE ->
  exists d c, submit ctx junk (Some v) size = Some (flush_buffer ctx [{| dst := coordinator_sin ctx; payload := d |}]) /\
    accept_dgram d c /\ iid c = 1 /\ ballot c = 0 /\ paxos_value_len (value c) = size /\
    value_bytes (value c) = take (Z.to_nat size) v.
Proof.
  unfold BUFSIZE, sizeof_paxos_message. intros Hs Hv Hroom Hjunk. unfold submit.
  set (b := {| iid := 1; ballot := 0; value_ballot := 0; aid := 0; value := _ |}).
  destruct (body_roundtrip 2 junk b (26 + size)) as (p & c & Hp & Ht & Hc & Hi & Hb & _ & _ & Hl & Hbytes);
    [done|unfold body_ok, value_ok; simpl; lia|lia|simpl; lia|lia|].
  unfold pack_paxos_message, pack_paxos_accept. rewrite Hp. simpl.
  assert (length p = length junk) as Hlen.
  { destruct (pack_body_spec 2 junk b) as (p' & _ & Hp' & Hlen & _); [done|unfold body_ok, value_ok; simpl; lia|
      simpl; lia|]. congruence. }
  unfold sizeof_paxos_message. exists (take (Z.to_nat (26 + size)) p), c.
  rewrite (proj2 (read_at_Some p 0 (26 + size) _)) by (do 3 (split; [lia|]); done).
  split; [done|]. split; [|done]. split; [rewrite length_take; unfold BUFSIZE; lia|done].
Qed.

(** The sequencer writes its number in the request and passes it on. *)
Lemma sequencer_step ctx junk remote d c sq :
  accept_dgram d c -> 6 <= Z.of_nat (length d) -> ctx_sequencer ctx = Some sq -> is_u32 (current_instance sq) ->
  Z.of_nat (length junk) = BUFSIZE -> (forall out d, send_ok out d = true) ->
  exists d', handle_packet_in ctx junk (Some (remote, d)) =
      Some (set_out (set_sequencer ctx {| current_instance := u32 (current_instance sq + 1) |}) (buffer ctx)
              (outbox ctx ++ [{| dst := acceptor_sin ctx; payload := d' |}])) /\
    length d' = length d /\ accept_dgram d' (set_iid c (current_instance sq)).
Proof.
  intros (Hlen & Ht & Hc) Hmin Hsq Hi Hjunk Hok. unfold handle_packet_in, recvfrom. unfold BUFSIZE in *.
  cbn [mbind option_bind]. rewrite (take_ge d) by lia. rewrite (unpack_uint16_app _ _ _ _ Ht).
  cbn [mbind option_bind]. rewrite Z.eqb_refl. unfold sequencer_handle_proposal. rewrite Hsq. cbn [mbind option_bind].
  destruct (write_at_in d 2 (be_split 4 (current_instance sq))) as [d' Hd']; [lia|rewrite length_be_split; lia|].
  rewrite (write_at_prefix _ _ _ _ _ Hd'). pose proof Hd' as (_ & _ & Hlen' & _)%write_at_Some.
  unfold sendto_or_exit, sendto. cbn [mbind option_bind].
  rewrite (read_at_prefix d' _ 0 (Z.of_nat (length d)) d')
    by (apply read_at_Some; do 3 (split; [lia|]); rewrite Nat2Z.id, drop_0, take_ge by lia; done).
  cbn [mbind option_bind]. rewrite Hok. exists d'. split; [done|]. split; [done|]. unfold accept_dgram, BUFSIZE.
  split; [lia|]. destruct (unpack_body_set_iid d d' (current_instance sq) c 2); done.
Qed.

(** The sequencer over the datagrams that arrive, one after the other. *)
Fixpoint sequence ctx (junk : list byte) (ds : list (sockaddr_in * list byte)) : option (paxos_ctx T H) :=
  match ds with
  | [] => Some ctx
  | d :: ds => ctx ← handle_packet_in ctx junk (Some d); sequence ctx junk ds
  end.

(** C25. The sequencer numbers the accept requests that arrive consecutively: it
    sends each on to the acceptors, in order and unchanged but for the instance
    id, which counts up from its current instance. *)
Theorem sequencer_numbers ctx junk (ds : list (sockaddr_in * list byte)) (cs : list paxos_accept) sq :
  Forall2 (fun d c => accept_dgram d.2 c /\ 6 <= Z.of_nat (length d.2)) ds cs ->
  ctx_sequencer ctx = Some sq -> 0 <= current_instance sq -> current_instance sq + Z.of_nat (length ds) < 2 ^ 32 ->
  Z.of_nat (length junk) = BUFSIZE -> (forall out d, send_ok out d = true) ->
  exists ctx' ds', sequence ctx junk ds = Some ctx' /\
    outbox ctx' = outbox ctx ++ (Dgram (acceptor_sin ctx) <$> ds') /\
    ctx_sequencer ctx' = Some {| current_instance := current_instance sq + Z.of_nat (length ds) |} /\
    Forall2 accept_dgram ds' (zip_with set_iid cs (seqZ (current_instance sq) (Z.of_nat (length ds)))).
Proof.
  intros Hds. revert ctx sq. induction Hds as [|[remote d] c ds cs [Hd Hmin] Hds IH]; intros ctx sq Hsq Hpos Hmax Hjunk Hok.
  { exists ctx, []. simpl. rewrite app_nil_r, Z.add_0_r, Hsq. split; [done|]. split; [done|]. split; [by destruct sq|]. constructor. }
  cbn [sequence length] in *.
  destruct (sequencer_step ctx junk remote d c sq) as (d' & -> & _ & Hd'); [done|done|done|lia|done|done|].
  cbn [mbind option_bind]. rewrite u32_small by lia. set (ctx1 := set_out _ _ _).
  destruct (IH ctx1 {| current_instance := current_instance sq + 1 |}) as (ctx' & ds' & Hrun & Hout & Hsq' & Hds');
    [done|simpl; lia|simpl; lia|done|done|]. simpl in *.
  exists ctx', (d' :: ds'). split; [done|]. split; [rewrite Hout; cbn; by rewrite <- (assoc_L (++))|].
  split; [rewrite Hsq'; do 2 f_equal; lia|].
  rewrite Nat2Z.inj_succ, (seqZ_cons (current_instance sq)) by lia. cbn. constructor; [done|].
  replace (Z.pred (Z.succ (Z.of_nat (length ds)))) with (Z.of_nat (length ds)) by lia.
  by replace (Z.succ (current_instance sq)) with (current_instance sq + 1) by lia.
Qed.

(** ** Benchmark packets *)

Lemma unpack_value_size p o v :
  unpack_value p o = Some v ->
  Z.of_nat (length (default [] (paxos_value_val v))) <= Z.max 0 (paxos_value_len v + 1).
Proof.
  unfold unpack_value. destruct (unpack_uint32 p o) as [len|]; simpl; [|done].
  destruct (Z.ltb_spec 0 (i32 len)); [|intros [= <-]; simpl; lia].
  destruct (read_at p (o + 4) (i32 len)) as [bs|] eqn:E; simpl; [|done]. intros [= <-]. simpl.
  apply read_at_Some in E as (_ & _ & Hle & ->). rewrite length_app, length_take. simpl. lia.
Qed.

(** The answer to a benchmark packet reads behind the value: whenever the
    packet holds its value, the bytes sent back go beyond the block the value was
    copied to. *)
Theorem benchmark_overreads ctx junk remote d b :
  unpack_uint16 d 0 = Some 3 -> unpack_body d = Some b -> 0 <= paxos_value_len (value b) ->
  16 + paxos_value_len (value b) <= Z.of_nat (length d) -> Z.of_nat (length d) <= BUFSIZE ->
  handle_packet_in ctx junk (Some (remote, d)) = None.
Proof.
  unfold BUFSIZE. intros Ht Hb Hl Hlen Hmax. unfold handle_packet_in, recvfrom, BUFSIZE.
  cbn [mbind option_bind]. rewrite (take_ge d) by lia. rewrite (unpack_uint16_app _ _ _ _ Ht).
  cbn [mbind option_bind Z.eqb Pos.eqb]. unfold handle_accepted, unpack_paxos_message.
  rewrite (unpack_uint16_app _ _ _ _ Ht). cbn [mbind option_bind]. unfold unpack_paxos_accepted.
  rewrite (unpack_body_app _ _ _ Hb). cbn [mbind option_bind]. unfold benchmark_reply, sizeof_paxos_accepted, sizeof_sockaddr_in.
  rewrite Z.mod_small by lia.
  assert (Z.of_nat (length (default [] (paxos_value_val (value b)))) <= paxos_value_len (value b) + 1) as Hsize.
  { unfold unpack_body in Hb. destruct (unpack_uint32 d IID_OFFSET); simpl in Hb; [|done].
    destruct (unpack_uint16 d BALLOT_OFFSET); simpl in Hb; [|done].
    destruct (unpack_uint16 d VALUE_BALLOT_OFFSET); simpl in Hb; [|done].
    destruct (unpack_uint16 d AID_OFFSET); simpl in Hb; [|done].
    destruct (unpack_value d VALUE_OFFSET) eqn:E; simpl in Hb; [|done]. apply unpack_value_size in E.
    simplify_eq. simpl in *. lia. }
  unfold read_at at 1. rewrite (proj2 (Z.leb_gt _ (Z.of_nat (length (default [] _))))) by lia.
  by rewrite andb_false_r.
Qed.
End numbering.

(** A network that loses nothing, and a packet with the value [v]. *)
Definition sample_os : Os :=
  {| inet_addr _ := 1; bind_ok _ := true; join_ok _ := true; send_ok _ _ := true |}.
Lemma sample_send_ok : forall out d, send_ok (Os := sample_os) out d = true.
Proof. done. Qed.

Definition sample_body (v : byte) : paxos_body :=
  {| iid := 1; ballot := 0; value_ballot := 0; aid := 0;
     value := {| paxos_value_len := 1; paxos_value_val := Some [v; x00] |} |}.
Definition sample_packet (m : paxos_message) : list byte :=
  match pack_paxos_message (replicate 128 x00) m with Some (p, len) => take (Z.to_nat len) p | None => [] end.
Definition sample_sequencer : paxos_ctx Khash.khash unit :=
  set_sequencer (init_paxos_ctx (replicate 128 x00)) {| current_instance := 41 |}.

Lemma sequencer_numbers_witness :
  let OS := sample_os in
  exists ctx' ds', sequence sample_sequencer (replicate 128 xff)
      [(zero_sin, sample_packet (PAXOS_ACCEPT (sample_body x61))); (zero_sin, sample_packet (PAXOS_ACCEPT (sample_body x62)))]
    = Some ctx' /\ outbox ctx' = Dgram zero_sin <$> ds' /\ ctx_sequencer ctx' = Some {| current_instance := 43 |} /\
    Forall2 accept_dgram ds' [set_iid (sample_body x61) 41; set_iid (sample_body x62) 42].
Proof.
  intros OS. refine (sequencer_numbers sample_sequencer (replicate 128 xff) _
    [sample_body x61; sample_body x62] {| current_instance := 41 |} _ _ _ _ _ _); try done.
  constructor; [by vm_compute|]. constructor; [by vm_compute|constructor].
Defined.

Lemma benchmark_overreads_witness :
  handle_packet_in (OS := sample_os) sample_sequencer (replicate 128 xff)
    (Some (zero_sin, sample_packet (PAXOS_ACCEPTED (sample_body x61)))) = None.
Proof. apply (benchmark_overreads _ _ _ _ (sample_body x61)); by vm_compute. Defined.
