(* ===== verification/NetAcceptor.v ===== *)
(** * The UDP acceptor ([net/acceptor.c])

    Votes go to the learners and to the sender of the request, promises and
    repeated votes to the sender.  [out] is the uninitialised reply the handlers
    pass to the acceptor. *)

From S2P Require Import Prelude Bytes PaxosTypes EvConfig MessagePack StorageUtils.
From S2P Require Import KhashInterface KhashResize Storage StorageLmdb Acceptor AcceptorLmdb NetPaxos NetSequencer.

Section net_acceptor.
Context {T : Type -> Type} `{SA : StorageApi H} {OS : Os}.
Implicit Types (ctx : paxos_ctx T H) (remote : sockaddr_in).

(** Packs the message in the buffer of the context. *)
Definition pack_in_ctx ctx (m : paxos_message) : option (paxos_ctx T H * Z) :=
  '(buf, msg_len) ← pack_paxos_message (buffer ctx) m;
  Some (set_out ctx buf (outbox ctx), msg_len).

Definition acceptor_handle_prepare ctx (prepare : paxos_prepare) remote (out : paxos_message) :
    option (paxos_ctx T H) :=
  st ← acceptor_state ctx;
  '(st, rv, out) ← acceptor_receive_prepare st prepare out;
  let ctx := set_acceptor_state ctx st in
  if negb (rv =? 0) then
    '(ctx, msg_len) ← pack_in_ctx ctx out;
    sendto_or_exit ctx (buffer ctx) msg_len remote
  else Some ctx.

Definition acceptor_handle_accept ctx (accept : paxos_accept) remote (out : paxos_message) :
    option (paxos_ctx T H) :=
  st ← acceptor_state ctx;
  '(st, rv, out) ← acceptor_receive_accept st accept out;
  let ctx := set_acceptor_state ctx st in
  if negb (rv =? 0) then
    match out with
    | PAXOS_ACCEPTED _ =>
        '(ctx, msg_len) ← pack_in_ctx ctx out;
        ctx ← sendto_or_exit ctx (buffer ctx) msg_len (learner_sin ctx);
        sendto_or_exit ctx (buffer ctx) msg_len remote
    | _ => Some ctx
    end
  else Some ctx.

(** The loop [for (iid = from; iid <= to; ++iid)] with a 32-bit [iid]. *)
Fixpoint net_repeat_loop (fuel : nat) ctx remote (iid to : Z) : option (paxos_ctx T H) :=
  match fuel with
  | O => None
  | S fuel =>
      if iid <=? to then
        st ← acceptor_state ctx;
        '(st, found, accepted) ← acceptor_receive_repeat st iid;
        let ctx := set_acceptor_state ctx st in
        ctx ← (if (found : bool) then
                 '(ctx, msg_len) ← pack_in_ctx ctx (PAXOS_ACCEPTED accepted);
                 sendto_or_exit ctx (buffer ctx) msg_len remote
               else Some ctx);
        net_repeat_loop fuel ctx remote (u32 (iid + 1)) to
      else Some ctx
  end.

Definition acceptor_handle_repeat ctx (repeat : paxos_repeat) remote : option (paxos_ctx T H) :=
  net_repeat_loop (S (Z.to_nat (to repeat - from repeat + 1))) ctx remote (from repeat) (to repeat).

Definition acceptor_handle_benchmark ctx (msg : paxos_accepted) (size : Z) remote : option (paxos_ctx T H) :=
  benchmark_reply ctx msg size remote.

(** [received] is the datagram and its sender; after an error of [recvfrom],
    [None], the zeroed buffer is read as a message and the sender is not set. *)
Definition acceptor_read ctx (received : option (sockaddr_in * list byte)) (out : paxos_message) :
    option (paxos_ctx T H) :=
  let '(remote, d, n) := match received with
                         | Some (remote, d) =>
                             let '(buf, n) := recvfrom (replicate (Z.to_nat BUFSIZE) x00) d in (remote, buf, n)
                         | None => (zero_sin, replicate (Z.to_nat BUFSIZE) x00, -1)
                         end in
  let ctx := set_out ctx d (outbox ctx) in
  msg ← unpack_paxos_message (buffer ctx);
  match msg with
  | Some (PAXOS_ACCEPT b) => acceptor_handle_accept ctx b remote out
  | Some (PAXOS_PREPARE b) => acceptor_handle_prepare ctx b remote out
  | Some (PAXOS_REPEAT b) => acceptor_handle_repeat ctx b remote
  | Some (PAXOS_ACCEPTED b) => acceptor_handle_benchmark ctx b n remote
  | _ => Some ctx
  end.

(** [s] is the handle [storage_init] makes. *)
Definition make_acceptor (junk : list byte) (conf : netpaxos_configuration) (aid : Z) (s : H) :
    option (paxos_ctx T H) :=
  let ctx := init_paxos_ctx junk in
  st ← acceptor_new aid s;
  let ctx := set_roles ctx None st None None 0 0 in
  so ← join_if_multicast (acceptor_address conf) (create_server_socket (acceptor_port conf));
  lea ← ip_to_sockaddr (learner_address conf) (learner_port conf);
  coord ← ip_to_sockaddr (coordinator_address conf) (coordinator_port conf);
  Some (set_net ctx (my_id ctx) so coord (acceptor_sin ctx) lea (proposer_sin ctx)
          (ctx_tv ctx)).
End net_acceptor.

(** ** Sending from the buffer of the context *)

Section sending.
Context {T : Type -> Type} {H : Type} {OS : Os}.
Implicit Types (ctx : paxos_ctx T H).
Hypothesis send_total : forall out d, send_ok out d = true.

Lemma pack_in_ctx_runs ctx m :
  sendable m -> packed_size m <= Z.of_nat (length (buffer ctx)) ->
  exists buf d m', pack_in_ctx ctx m = Some (set_out ctx buf (outbox ctx), packed_size m) /\
    length buf = length (buffer ctx) /\ read_at buf 0 (packed_size m) = Some d /\
    Z.of_nat (length d) = packed_size m /\ unpack_paxos_message d = Some (Some m') /\ same_message m m'.
Proof.
  intros Hm Hroom. destruct (pack_dgram _ m Hm Hroom) as (buf & d & m' & Hp & Hrest). exists buf, d, m'.
  split; [|done]. unfold pack_in_ctx. by rewrite Hp.
Qed.

Lemma sendto_or_exit_runs ctx buf len d to :
  read_at buf 0 len = Some d ->
  sendto_or_exit ctx buf len to = Some (set_out ctx (buffer ctx) (outbox ctx ++ [{| dst := to; payload := d |}])).
Proof using send_total. intros Hd. unfold sendto_or_exit, sendto. rewrite Hd. simpl. by rewrite send_total. Qed.
End sending.

Section answers.
Context {T : Type -> Type} `{SL : StorageLaws H} {OS : Os}.
Implicit Types (ctx : paxos_ctx T H).
Hypothesis send_total : forall out d, send_ok out d = true.
Hypothesis put_total : forall s r t r' t' acc,
  rep s (InTx r t r' t') -> record_ok acc -> 0 < iid acc -> is_Some (api_put s acc).

(** C24. An accept request over UDP: the handler returns, with the state
    and the result of [acceptor_receive_accept].  When that reports a failure
    nothing is sent.  When the vote is durable, one datagram that holds it goes
    to the learners and the same to the sender of the request.  When a higher
    ballot was promised the acceptor has an answer too, but nothing is sent: the
    coordinator is not told that it was preempted. *)
Theorem udp_accept_answered ctx st r t remote req junk :
  acceptor_state ctx = Some st -> acceptor_ok st r t -> body_ok req ->
  sizeof_paxos_message + paxos_value_len (value req) <= Z.of_nat (length (buffer ctx)) ->
  exists ctx' st' rv out, acceptor_handle_accept ctx req remote junk = Some ctx' /\
    acceptor_state ctx' = Some st' /\ acceptor_receive_accept st req junk = Some (st', rv, out) /\
    (rv = 0 /\ outbox ctx' = outbox ctx /\ acceptor_ok st' r t \/
     rv = 1 /\ accept_ok r req = false /\ outbox ctx' = outbox ctx /\ acceptor_ok st' r t \/
     rv = 1 /\ accept_ok r req = true /\
     acceptor_ok st' (<[iid req := paxos_accept_to_accepted (acc_id st) req]> r) t /\
     exists d c, outbox ctx' = outbox ctx ++ [Dgram (learner_sin ctx) d; Dgram remote d] /\
       unpack_paxos_message d = Some (Some (PAXOS_ACCEPTED c)) /\
       same_body (paxos_accept_to_accepted (acc_id st) req) c).
Proof using send_total put_total.
  intros Hst Hok Hreq Hroom. unfold acceptor_handle_accept. rewrite Hst. cbn [mbind option_bind].
  destruct (accept_runs st r t req junk put_total Hok Hreq) as [[[st' rv] msg] Hrun]. rewrite Hrun. cbn [mbind option_bind].
  pose proof Hok as (Hid & _ & _ & Hrep).
  destruct (receive_accept_spec _ _ _ _ _ _ _ _ Hok Hreq Hrun) as (_ & _ & [[-> Hok']|(-> & _ & -> & Hok')]).
  { simpl. eexists _, _, _, _. split; [done|]. split; [done|]. split; [done|]. by left. }
  pose proof (accept_to_accepted_ok (acc_id st) req Hreq Hid) as Hacc.
  cbn [negb Z.eqb]. unfold accept_reply, accept_records in *.
  assert (accept_ok r req = true \/ exists b, r !! iid req = Some b /\ (ballot b <=? ballot req) = false) as
    [Ha|(b & Hb & Ha)].
  { unfold accept_ok. destruct (r !! iid req) as [b|]; [|by left]. destruct (ballot b <=? ballot req) eqn:E; eauto. }
  - rewrite Ha in Hok'. unfold accept_ok in Ha. set (acc := paxos_accept_to_accepted (acc_id st) req) in *.
    replace (match r !! iid req with Some _ => _ | None => _ end) with (PAXOS_ACCEPTED acc)
      by (destruct (r !! iid req); [by rewrite Ha|done]).
    destruct (pack_in_ctx_runs (set_acceptor_state ctx st') (PAXOS_ACCEPTED acc)) as (buf & d & m' & -> & Hlen & Hd & _ & Hu & Hs).
    { by apply record_ok_body. }
    { unfold packed_size, acc, paxos_accept_to_accepted. simpl. lia. }
    cbn [mbind option_bind]. erewrite sendto_or_exit_runs by done. cbn [mbind option_bind].
    erewrite sendto_or_exit_runs by done. eexists _, st', _, _. split; [done|]. split; [done|]. split; [done|].
    right; right. split; [done|]. split; [done|]. split; [done|]. destruct m' as [| | |c| | | | |]; try done. exists d, c.
    split; [cbn; by rewrite <- (assoc_L (++))|done].
  - unfold accept_ok in Hok'. rewrite Hb, Ha in Hok' |- *. cbn.
    eexists _, st', _, _. split; [done|]. split; [done|]. split; [done|]. right; left.
    split; [done|]. split; [|done]. unfold accept_ok. by rewrite Hb.
Qed.
End answers.

Definition sample_net_acceptor : paxos_ctx Khash.khash (lmdb_storage * ref_world) :=
  set_acceptor_state (init_paxos_ctx (replicate 128 x00)) sample_acceptor.

Lemma udp_accept_answered_witness :
  let OS := sample_os in
  let A := lmdb_api default_paxos_config (fun _ => 4096) in
  let L := lmdb_laws default_paxos_config (fun _ => 4096) addr_4096 in
  let r := db_records sample_db in let req := sample_request in
  exists ctx' st' rv out, acceptor_handle_accept sample_net_acceptor req zero_sin (PAXOS_TRIM (PaxosTrim 0)) = Some ctx' /\
    acceptor_state ctx' = Some st' /\
    acceptor_receive_accept sample_acceptor req (PAXOS_TRIM (PaxosTrim 0)) = Some (st', rv, out) /\
    (rv = 0 /\ outbox ctx' = [] /\ acceptor_ok st' r 0 \/
     rv = 1 /\ accept_ok r req = false /\ outbox ctx' = [] /\ acceptor_ok st' r 0 \/
     rv = 1 /\ accept_ok r req = true /\ acceptor_ok st' (<[iid req := paxos_accept_to_accepted 1 req]> r) 0 /\
     exists d c, outbox ctx' = [Dgram zero_sin d; Dgram zero_sin d] /\
       unpack_paxos_message d = Some (Some (PAXOS_ACCEPTED c)) /\ same_body (paxos_accept_to_accepted 1 req) c).
Proof.
  intros OS A L r req.
  apply (udp_accept_answered (OS := sample_os) (SL := L) sample_send_ok (lmdb_put_total (LL := ref_lmdb_laws) default_paxos_config (fun _ => 4096) addr_4096)
    sample_net_acceptor sample_acceptor r 0 zero_sin req); [done|apply sample_acceptor_ok|apply sample_request_ok|done].
Defined.
