(* ===== verification/NetCoordinator.v ===== *)
(** * The UDP coordinator ([net/coordinator.c])

    The coordinator drives the proposer of [Proposer.v] as the process of
    [EvProposer.v] does, with datagrams to the acceptors' address.  [clock i] is
    the [i]-th time a handler reads with [gettimeofday]; [window] is the option
    [proposer_preexec_window] and [to] the option [proposer_timeout]. *)

From S2P Require Import Prelude Bytes PaxosTypes EvConfig MessagePack TypesPack Peers.
From S2P Require Import KhashInterface Khash KhashResize Carray Quorum Proposer EvProposer NetPaxos NetSequencer.

Section coordinator.
Context `{KH : KHash T} {H : Type} {OS : Os}.
Implicit Types (ctx : paxos_ctx T H) (clock : Z -> timeval).

(** A failed [sendto] is only reported. *)
Definition net_send_paxos_message ctx (msg : paxos_message) : option (paxos_ctx T H) :=
  '(buf, msg_len) ← pack_paxos_message (replicate (Z.to_nat BUFSIZE) x00) msg;
  '(ctx, _) ← sendto ctx buf msg_len (acceptor_sin ctx);
  Some ctx.

Fixpoint coordinator_preexecute_loop (n : nat) (i : Z) clock ctx : option (paxos_ctx T H) :=
  match n with
  | O => Some ctx
  | S n =>
      st ← proposer_state ctx;
      '(st, pr) ← proposer_prepare st (clock i);
      ctx ← net_send_paxos_message (set_proposer_state ctx st) (PAXOS_PREPARE pr);
      coordinator_preexecute_loop n (i + 1) clock ctx
  end.

Definition coordinator_preexecute (window : Z) clock ctx : option (paxos_ctx T H) :=
  st ← proposer_state ctx;
  let count := window - proposer_prepared_count st in
  if count <=? 0 then Some ctx else coordinator_preexecute_loop (Z.to_nat count) 0 clock ctx.

(** Every turn takes an instance out of phase 1, so that their number plus one
    is enough fuel. *)
Fixpoint coordinator_accept_loop (fuel : nat) ctx : option (paxos_ctx T H) :=
  match fuel with
  | O => None
  | S fuel =>
      st ← proposer_state ctx;
      '(rv, st, accept) ← proposer_accept st;
      let ctx := set_proposer_state ctx st in
      if rv =? 0 then Some ctx else
      accept ← accept;
      ctx ← net_send_paxos_message ctx (PAXOS_ACCEPT accept);
      coordinator_accept_loop fuel ctx
  end.

Definition coordinator_try_accept (window : Z) clock ctx : option (paxos_ctx T H) :=
  st ← proposer_state ctx;
  ctx ← coordinator_accept_loop (S (Z.to_nat (kh_size (prepare_instances st)))) ctx;
  coordinator_preexecute window clock ctx.

(** A NULL value is copied with length 0 or not at all. *)
Definition coordinator_handle_proposal (window : Z) clock ctx (msg : paxos_accept) : option (paxos_ctx T H) :=
  st ← proposer_state ctx;
  st ← proposer_propose st (default [] (paxos_value_val (value msg))) (paxos_value_len (value msg));
  coordinator_try_accept window clock (set_proposer_state ctx st).

Definition coordinator_handle_accepted (window : Z) clock ctx (acc : paxos_accepted) : option (paxos_ctx T H) :=
  st ← proposer_state ctx;
  '(rv, st) ← proposer_receive_accepted st acc;
  let ctx := set_proposer_state ctx st in
  if negb (rv =? 0) then coordinator_try_accept window clock ctx else Some ctx.

Definition coordinator_handle_promise (window : Z) clock ctx (pro : paxos_promise) : option (paxos_ctx T H) :=
  st ← proposer_state ctx;
  '(preempted, st, prepare) ← proposer_receive_promise st pro (clock (-1));
  let ctx := set_proposer_state ctx st in
  ctx ← (if negb (preempted =? 0) then pr ← prepare; net_send_paxos_message ctx (PAXOS_PREPARE pr) else Some ctx);
  coordinator_try_accept window clock ctx.

(** [received] is a datagram, [None] an error of [recvfrom], after which the
    zeroed buffer is read as a message.  [ev_read] and [ev_timeout] are the
    events of the call. *)
Definition coordinator_read (window : Z) clock ctx (ev_read ev_timeout : bool) (received : option (list byte)) :
    option (paxos_ctx T H) :=
  ctx ← (if ev_read then
           let buf := match received with
                      | Some d => fst (recvfrom (replicate (Z.to_nat BUFSIZE) x00) d)
                      | None => replicate (Z.to_nat BUFSIZE) x00
                      end in
           let ctx := set_out ctx buf (outbox ctx) in
           msg ← unpack_paxos_message (buffer ctx);
           match msg with
           | Some (PAXOS_PROMISE b) => coordinator_handle_promise window clock ctx b
           | Some (PAXOS_ACCEPT b) => coordinator_handle_proposal window clock ctx b
           | Some (PAXOS_ACCEPTED b) => coordinator_handle_accepted window clock ctx b
           | _ => Some ctx
           end
         else Some ctx);
  if ev_timeout then coordinator_preexecute window clock ctx else Some ctx.

Fixpoint net_timeout_prepare_loop (to : Z) (fuel : nat) iter ctx : option (timeout_iterator * paxos_ctx T H) :=
  match fuel with
  | O => None
  | S fuel =>
      st ← proposer_state ctx;
      match timeout_iterator_prepare to iter st with
      | (iter, st, None) => Some (iter, set_proposer_state ctx st)
      | (iter, st, Some pr) =>
          ctx ← net_send_paxos_message (set_proposer_state ctx st) (PAXOS_PREPARE pr);
          net_timeout_prepare_loop to fuel iter ctx
      end
  end.

Fixpoint net_timeout_accept_loop (to : Z) (fuel : nat) iter ctx : option (timeout_iterator * paxos_ctx T H) :=
  match fuel with
  | O => None
  | S fuel =>
      st ← proposer_state ctx;
      '(iter, st, out) ← timeout_iterator_accept to iter st;
      let ctx := set_proposer_state ctx st in
      match out with
      | None => Some (iter, ctx)
      | Some ar =>
          ctx ← net_send_paxos_message ctx (PAXOS_ACCEPT ar);
          net_timeout_accept_loop to fuel iter ctx
      end
  end.

(** The handler arms its timer again. *)
Definition net_check_timeouts (to : Z) clock ctx : option (paxos_ctx T H) :=
  st ← proposer_state ctx;
  let iter := proposer_timeout_iterator st (clock 0) in
  '(iter, ctx) ← net_timeout_prepare_loop to (S (Z.to_nat (kh_end (prepare_instances st)))) iter ctx;
  st ← proposer_state ctx;
  '(iter, ctx) ← net_timeout_accept_loop to (S (Z.to_nat (kh_end (accept_instances st)))) iter ctx;
  Some ctx.

Definition make_coordinator (junk : list byte) (conf : netpaxos_configuration) (id : Z) : option (paxos_ctx T H) :=
  let ctx := init_paxos_ctx junk in
  st ← proposer_new id (acceptor_count conf);
  let ctx := set_proposer_state ctx st in
  acc ← ip_to_sockaddr (acceptor_address conf) (acceptor_port conf);
  Some (set_net ctx id (create_server_socket (coordinator_port conf)) (coordinator_sin ctx) acc (learner_sin ctx) (proposer_sin ctx)
          {| tv_sec := 1; tv_usec := 0 |}).
End coordinator.

(** ** The same proposer as over TCP *)

(** What the proposer does in the loops of [try_accept], apart from sending. *)
Section runs.
Context `{KH : KHash T}.
Implicit Types (st : proposer T).

Fixpoint accept_run (fuel : nat) st : option (list paxos_accept * proposer T) :=
  match fuel with
  | O => None
  | S fuel =>
      '(rv, st, accept) ← proposer_accept st;
      if rv =? 0 then Some ([], st) else
      accept ← accept;
      '(acs, st) ← accept_run fuel st;
      Some (accept :: acs, st)
  end.

Fixpoint prepare_run (n : nat) (i : Z) (clock : Z -> timeval) st : option (list paxos_prepare * proposer T) :=
  match n with
  | O => Some ([], st)
  | S n =>
      '(st, pr) ← proposer_prepare st (clock i);
      '(prs, st) ← prepare_run n (i + 1) clock st;
      Some (pr :: prs, st)
  end.

Lemma accept_run_total fuel st :
  proposer_wf st -> acc_size st + prep_size st < KH_LIMIT -> prep_size st < Z.of_nat fuel ->
  exists acs st', accept_run fuel st = Some (acs, st') /\ proposer_wf st' /\ Forall body_ok acs /\
    prep_size st' <= prep_size st /\ next_prepare_iid st' = next_prepare_iid st.
Proof.
  revert st. induction fuel as [|fuel IH]; intros st Hst Hlim Hf; [unfold prep_size in Hf; lia|]. simpl.
  destruct (accept_total st Hst) as [[[rv st1] out] Hrun]; [unfold prep_size in *; lia|]. rewrite Hrun. simpl.
  destruct (accept_wf st rv st1 out Hst Hrun) as (Hst1 & Hn & [(-> & -> & Hp & Ha)|(-> & m & -> & Hm & Hp & Ha)]); simpl.
  - exists [], st1. split; [done|]. split; [done|]. split; [constructor|]. split; [lia|done].
  - destruct (IH st1) as (acs & st' & -> & Hst' & Hacs & Hp' & Hn'); [done|lia|lia|]. simpl.
    exists (m :: acs), st'. split; [done|]. split; [done|]. split; [by constructor|]. split; [lia|congruence].
Qed.

Lemma prepare_run_total n i clock st :
  proposer_wf st -> next_prepare_iid st + Z.of_nat n <= UINT32_MAX -> prep_size st + Z.of_nat n <= KH_LIMIT ->
  exists prs st', prepare_run n i clock st = Some (prs, st') /\ Forall body_ok prs /\
    Forall (fun pr => paxos_value_len (value pr) = 0) prs.
Proof.
  revert i st. induction n as [|n IH]; intros i st Hst Hnext Hlim; simpl; [by exists [], st|].
  destruct (open_instance_runs st (clock i) Hst) as (st1 & pr & Hrun & Hst1 & Hp & _ & Hn & _ & Hpr); [lia|lia|].
  rewrite Hrun. simpl. destruct (IH (i + 1) st1) as (prs & st' & -> & Hprs & Hlen); [done|lia|lia|]. simpl.
  exists (pr :: prs), st'. split; [done|]. split; [by constructor|]. constructor; [|done].
  unfold proposer_prepare in Hrun. destruct (Proposer.instance_new _ _ _ _) as [inst|]; simpl in Hrun; [|done].
  destruct (kh_put _ _ _) as [[[h k] rv]|]; simpl in Hrun; [|done]. destruct (0 <? rv); simpl in Hrun; [|done].
  by simplify_eq.
Qed.

Context `{MP : Msgpack}.
Implicit Types (ps : peers peer_cb).

Lemma accept_loop_run fuel ps st acs st' :
  accept_run fuel st = Some (acs, st') -> Forall body_ok acs -> counted ps ->
  accept_loop fuel ps st = Some (broadcast (PAXOS_ACCEPT <$> acs) ps, st').
Proof.
  revert ps st acs. induction fuel as [|fuel IH]; intros ps st acs Hrun Hacs Hc; simpl in *; [done|].
  destruct (proposer_accept st) as [[[rv st1] out]|]; simpl in *; [|done].
  destruct (rv =? 0); [simplify_eq; simpl; by rewrite broadcast_nil|].
  destruct out as [m|]; simpl in *; [|done].
  destruct (accept_run fuel st1) as [[acs1 st2]|] eqn:E; simpl in *; [|done]. simplify_eq. inversion Hacs; subst.
  unfold peer_send_accept. rewrite foreach_broadcast by done. simpl.
  rewrite (IH _ _ _ E) by (done || by apply broadcast_counted). f_equal. f_equal. symmetry. apply broadcast_cons.
Qed.

Lemma preexecute_loop_run n i clock ps st prs st' :
  prepare_run n i clock st = Some (prs, st') -> Forall body_ok prs -> counted ps ->
  preexecute_loop n i clock ps st = Some (broadcast (PAXOS_PREPARE <$> prs) ps, st').
Proof.
  revert i ps st prs. induction n as [|n IH]; intros i ps st prs Hrun Hprs Hc; simpl in *.
  { simplify_eq. simpl. by rewrite broadcast_nil. }
  destruct (proposer_prepare st (clock i)) as [[st1 pr]|]; simpl in *; [|done].
  destruct (prepare_run n (i + 1) clock st1) as [[prs1 st2]|] eqn:E; simpl in *; [|done]. simplify_eq.
  inversion Hprs; subst. unfold peer_send_prepare. rewrite foreach_broadcast by done. simpl.
  fold peer_send_prepare. rewrite (IH _ _ _ _ E) by (done || by apply broadcast_counted).
  f_equal. f_equal. symmetry. apply broadcast_cons.
Qed.
End runs.

Section datagrams.
Context `{KH : KHash T} {H : Type} {OS : Os}.
Implicit Types (ctx : paxos_ctx T H).

Fixpoint send_all (ms : list paxos_message) ctx : option (paxos_ctx T H) :=
  match ms with
  | [] => Some ctx
  | m :: ms => ctx ← net_send_paxos_message ctx m; send_all ms ctx
  end.

Lemma send_all_app ms ms' ctx : send_all (ms ++ ms') ctx = (ctx ← send_all ms ctx; send_all ms' ctx).
Proof.
  revert ctx. induction ms as [|m ms IH]; intros ctx; simpl; [done|].
  destruct (net_send_paxos_message ctx m); simpl; [apply IH|done].
Qed.

Lemma send_set_proposer ctx st m :
  net_send_paxos_message (set_proposer_state ctx st) m =
  (ctx ← net_send_paxos_message ctx m; Some (set_proposer_state ctx st)).
Proof.
  unfold net_send_paxos_message. destruct (pack_paxos_message _ m) as [[buf len]|]; simpl; [|done].
  unfold sendto. destruct (read_at buf 0 len) as [bs|]; simpl; [|done]. by destruct (send_ok _ _).
Qed.

Lemma send_all_set_proposer ms ctx st :
  send_all ms (set_proposer_state ctx st) = (ctx ← send_all ms ctx; Some (set_proposer_state ctx st)).
Proof.
  revert ctx. induction ms as [|m ms IH]; intros ctx; simpl; [done|]. rewrite send_set_proposer.
  destruct (net_send_paxos_message ctx m); simpl; [apply IH|done].
Qed.

Lemma set_proposer_state_same ctx st : proposer_state ctx = Some st -> set_proposer_state ctx st = ctx.
Proof. destruct ctx. simpl. intros ->. done. Qed.

Lemma coordinator_accept_loop_run fuel ctx st acs st' :
  proposer_state ctx = Some st -> accept_run fuel st = Some (acs, st') ->
  coordinator_accept_loop fuel ctx =
    (ctx ← send_all (PAXOS_ACCEPT <$> acs) ctx; Some (set_proposer_state ctx st')).
Proof.
  revert ctx st acs. induction fuel as [|fuel IH]; intros ctx st acs Hst Hrun; simpl in *; [done|].
  rewrite Hst. simpl. destruct (proposer_accept st) as [[[rv st1] out]|]; simpl in *; [|done].
  destruct (rv =? 0); [by simplify_eq|]. destruct out as [m|]; simpl in *; [|done].
  destruct (accept_run fuel st1) as [[acs1 st2]|] eqn:E; simpl in *; [|done]. simplify_eq. rewrite send_set_proposer. simpl.
  destruct (net_send_paxos_message ctx (PAXOS_ACCEPT m)) as [ctx1|]; simpl; [|done].
  rewrite (IH (set_proposer_state ctx1 st1) st1 acs1) by done. rewrite send_all_set_proposer.
  change (list_fmap _ _ PAXOS_ACCEPT acs1) with (PAXOS_ACCEPT <$> acs1).
  by destruct (send_all (PAXOS_ACCEPT <$> acs1) ctx1).
Qed.

Lemma coordinator_preexecute_loop_run n i clock ctx st prs st' :
  proposer_state ctx = Some st -> prepare_run n i clock st = Some (prs, st') ->
  coordinator_preexecute_loop n i clock ctx =
    (ctx ← send_all (PAXOS_PREPARE <$> prs) ctx; Some (set_proposer_state ctx st')).
Proof.
  revert i ctx st prs. induction n as [|n IH]; intros i ctx st prs Hst Hrun; simpl in *.
  { simplify_eq. simpl. by rewrite set_proposer_state_same. }
  rewrite Hst. simpl. destruct (proposer_prepare st (clock i)) as [[st1 pr]|]; simpl in *; [|done].
  destruct (prepare_run n (i + 1) clock st1) as [[prs1 st2]|] eqn:E; simpl in *; [|done]. simplify_eq.
  rewrite send_set_proposer. simpl. destruct (net_send_paxos_message ctx (PAXOS_PREPARE pr)) as [ctx1|]; simpl; [|done].
  rewrite (IH _ (set_proposer_state ctx1 st1) st1 prs1) by done. rewrite send_all_set_proposer.
  change (list_fmap _ _ PAXOS_PREPARE prs1) with (PAXOS_PREPARE <$> prs1).
  by destruct (send_all (PAXOS_PREPARE <$> prs1) ctx1).
Qed.

(** Messages that fit in the buffer are sent, one datagram each. *)
Definition fits (m : paxos_message) : Prop := sendable m /\ packed_size m <= BUFSIZE.
Definition holds (m : paxos_message) (d : list byte) : Prop :=
  exists m', unpack_paxos_message d = Some (Some m') /\ same_message m m'.

Lemma send_all_runs ms ctx :
  (forall out d, send_ok out d = true) -> Forall fits ms ->
  exists ds, send_all ms ctx = Some (set_out ctx (buffer ctx) (outbox ctx ++ (Dgram (acceptor_sin ctx) <$> ds))) /\
    Forall2 holds ms ds.
Proof.
  intros Hok Hms. revert ctx. induction Hms as [|m ms [Hm Hsize] Hms IH]; intros ctx; simpl.
  { exists []. simpl. rewrite app_nil_r. split; [by destruct ctx|constructor]. }
  unfold net_send_paxos_message at 1.
  destruct (pack_dgram (replicate (Z.to_nat BUFSIZE) x00) m Hm) as (p & d & m' & -> & _ & Hd & _ & Hu & Hs).
  { rewrite length_replicate. unfold BUFSIZE in *. lia. }
  simpl. unfold sendto at 1. rewrite Hd. simpl. rewrite Hok. simpl.
  match goal with |- context [send_all ms ?c] => destruct (IH c) as (ds & -> & Hds) end.
  exists (d :: ds). cbn. split; [by rewrite <- (assoc_L (++))|]. constructor; [by exists m'|done].
Qed.
End datagrams.

Lemma preexecute_same `{KH : KHash T} {H} {OS : Os} `{MP : Msgpack} clock (ps : peers peer_cb) (p : evproposer T) :
  let st := ep_state p in
  proposer_wf st -> counted ps -> prep_size st <= KH_LIMIT -> preexec_window p <= KH_LIMIT ->
  next_prepare_iid st + preexec_window p <= UINT32_MAX ->
  exists prs st', proposer_preexecute clock ps p = Some (broadcast (PAXOS_PREPARE <$> prs) ps, set_proposer p st') /\
    forall ctx : paxos_ctx T H, proposer_state ctx = Some st ->
      coordinator_preexecute (preexec_window p) clock ctx =
        (ctx ← send_all (PAXOS_PREPARE <$> prs) ctx; Some (set_proposer_state ctx st')).
Proof.
  intros st Hst Hc Hsize Hwin Hnext. unfold proposer_preexecute, coordinator_preexecute. fold st.
  rewrite prepared_count_size by done. assert (0 <= prep_size st) by (unfold prep_size; lia).
  destruct (Z.leb_spec (preexec_window p - prep_size st) 0) as [Hle|Hgt].
  - exists [], st. cbn. rewrite broadcast_nil. split; [unfold st; by destruct p|]. intros ctx Hctx. rewrite Hctx. cbn.
    rewrite prepared_count_size by done. rewrite (proj2 (Z.leb_le _ 0)) by lia. by rewrite set_proposer_state_same.
  - destruct (prepare_run_total (Z.to_nat (preexec_window p - prep_size st)) 0 clock st)
      as (prs & st' & Hrun & Hprs & _); [done|lia|lia|].
    exists prs, st'. rewrite (preexecute_loop_run _ _ _ _ _ _ _ Hrun Hprs Hc). split; [done|].
    intros ctx Hctx. rewrite Hctx. cbn [mbind option_bind]. rewrite prepared_count_size by done.
    rewrite (proj2 (Z.leb_gt _ 0)) by lia. by apply (coordinator_preexecute_loop_run _ _ _ _ st).
Qed.

(** C11. The coordinator treats the proposer as the TCP process does: in the same
    state, [try_accept] of both ends with the same proposer state and sends the
    same messages in the same order, the coordinator each in a datagram to the
    acceptors. *)
Theorem coordinator_same_as_evproposer `{KH : KHash T} {H} {OS : Os} `{MP : Msgpack} clock (ps : peers peer_cb)
    (p : evproposer T) (ctx : paxos_ctx T H) :
  let st := ep_state p in
  proposer_state ctx = Some st -> (forall out d, send_ok out d = true) ->
  proposer_wf st -> counted ps -> acc_size st + prep_size st < KH_LIMIT -> preexec_window p <= KH_LIMIT ->
  next_prepare_iid st + preexec_window p <= UINT32_MAX ->
  exists ms st', EvProposer.try_accept clock ps p = Some (broadcast ms ps, set_proposer p st') /\
    coordinator_try_accept (preexec_window p) clock ctx =
      (ctx ← send_all ms ctx; Some (set_proposer_state ctx st')) /\
    (Forall fits ms -> exists ds, coordinator_try_accept (preexec_window p) clock ctx =
      Some (set_proposer_state (set_out ctx (buffer ctx) (outbox ctx ++ (Dgram (acceptor_sin ctx) <$> ds))) st') /\
      Forall2 holds ms ds).
Proof.
  intros st Hctx Hok Hst Hc Hlim Hwin Hnext. assert (0 <= acc_size st) by (unfold acc_size; lia).
  destruct (accept_run_total (S (Z.to_nat (kh_size (prepare_instances st)))) st Hst Hlim)
    as (acs & st1 & Hrun & Hst1 & Hacs & Hp & Hn).
  { rewrite kh_size_map by apply Hst. unfold prep_size, preparing. lia. }
  destruct (preexecute_same (H := H) clock (broadcast (PAXOS_ACCEPT <$> acs) ps) (set_proposer p st1))
    as (prs & st' & Hev & Hco); [done|by apply broadcast_counted|simpl; lia|done|simpl; lia|]. cbn [preexec_window set_proposer ep_state] in Hco.
  assert (coordinator_try_accept (preexec_window p) clock ctx =
    (ctx ← send_all ((PAXOS_ACCEPT <$> acs) ++ (PAXOS_PREPARE <$> prs)) ctx; Some (set_proposer_state ctx st'))) as Hnet.
  { unfold coordinator_try_accept. rewrite Hctx. cbn [mbind option_bind].
    rewrite (coordinator_accept_loop_run _ ctx st acs st1) by done. rewrite send_all_app.
    destruct (send_all (PAXOS_ACCEPT <$> acs) ctx) as [ctx1|]; [|done]. cbn [mbind option_bind].
    rewrite (Hco (set_proposer_state ctx1 st1)) by done. rewrite send_all_set_proposer.
    by destruct (send_all (PAXOS_PREPARE <$> prs) ctx1). }
  exists ((PAXOS_ACCEPT <$> acs) ++ (PAXOS_PREPARE <$> prs)), st'. split; [|split; [done|]].
  - unfold EvProposer.try_accept. fold st. rewrite (accept_loop_run _ _ _ _ _ Hrun Hacs Hc). cbn [mbind option_bind].
    rewrite Hev, broadcast_app. done.
  - intros Hfits. rewrite Hnet. destruct (send_all_runs _ ctx Hok Hfits) as (ds & -> & Hds). exists ds. done.
Qed.

(** The coordinator of the proposer just started. *)
Definition sample_coordinator : paxos_ctx khash unit :=
  set_proposer_state (init_paxos_ctx (replicate 128 x00)) sample_state.

Lemma coordinator_same_as_evproposer_witness :
  let OS := sample_os in let MP := MsgpackFormat.format in
  let clock i := {| tv_sec := i; tv_usec := 0 |} in
  exists ms st', EvProposer.try_accept clock sample_acceptors sample_evproposer =
      Some (broadcast ms sample_acceptors, set_proposer sample_evproposer st') /\
    coordinator_try_accept 2 clock sample_coordinator =
      (ctx ← send_all ms sample_coordinator; Some (set_proposer_state ctx st')).
Proof.
  intros OS MP clock. destruct sample_state_sizes as [Hp Ha].
  destruct (coordinator_same_as_evproposer (OS := OS) (MP := MP) clock sample_acceptors sample_evproposer sample_coordinator)
    as (ms & st' & Hev & Hco & _); [done|apply sample_send_ok|apply sample_state_wf|done
    |change (acc_size sample_state + prep_size sample_state < KH_LIMIT); by rewrite Hp, Ha|done|done|].
  exists ms, st'. split; [exact Hev|exact Hco].
Defined.

(** ** From the client to the coordinator *)

Lemma propose_same `{KH : KHash T} (st : proposer T) v w size :
  take (Z.to_nat size) v = take (Z.to_nat size) w -> proposer_propose st v size = proposer_propose st w size.
Proof. intros Heq. unfold proposer_propose, paxos_value_new. by rewrite Heq. Qed.

(** A value of up to 102 bytes that a client submits is proposed: the client
    sends one datagram to the coordinator, and reading it the coordinator queues
    exactly these bytes in its proposer and tries to propose them. *)
Theorem submitted_value_proposed `{KH : KHash T} {H} {OS : Os} window clock (client ctx : paxos_ctx T H) junk v size :
  0 <= size <= 102 -> size <= Z.of_nat (length v) -> Z.of_nat (length junk) = BUFSIZE ->
  (forall out d, send_ok out d = true) ->
  exists d buf, submit client junk (Some v) size =
      Some (set_out client (buffer client) (outbox client ++ [{| dst := coordinator_sin client; payload := d |}])) /\
    coordinator_read window clock ctx true false (Some d) =
      (st ← proposer_state ctx;
       st ← proposer_propose st v size;
       coordinator_try_accept window clock (set_proposer_state (set_out ctx buf (outbox ctx)) st)).
Proof.
  intros Hsize Hv Hjunk Hok. destruct (submit_dgram client junk v size) as (d & c & Hsub & Hd & _ & _ & Hl & Hb);
    [lia|done|unfold sizeof_paxos_message, BUFSIZE; lia|done|].
  exists d, (d ++ drop (length d) (replicate (Z.to_nat BUFSIZE) x00)). split.
  - rewrite Hsub. unfold flush_buffer. simpl. by rewrite Hok.
  - unfold coordinator_read, recvfrom. pose proof Hd as (Hlen & _). unfold BUFSIZE in *. rewrite (take_ge d) by lia.
    cbn [fst buffer set_out]. rewrite (accept_dgram_unpack _ _ c) by done. cbn [mbind option_bind].
    unfold coordinator_handle_proposal. cbn [proposer_state set_out]. rewrite Hl.
    destruct (proposer_state ctx) as [st|]; [|done]. cbn [mbind option_bind].
    rewrite (propose_same st _ v) by (unfold value_bytes in Hb; by rewrite Hl in Hb).
    destruct (proposer_propose st v size) as [st'|]; [|done]. cbn [mbind option_bind].
    by destruct (coordinator_try_accept _ _ _).
Qed.

Lemma submitted_value_proposed_witness :
  let OS := sample_os in let clock i := {| tv_sec := i; tv_usec := 0 |} in
  exists d buf, submit sample_coordinator (replicate 128 xff) (Some [x61; x62]) 2 =
      Some (set_out sample_coordinator (replicate 128 x00) [{| dst := zero_sin; payload := d |}]) /\
    coordinator_read 2 clock sample_coordinator true false (Some d) =
      (st ← Some sample_state;
       st ← proposer_propose st [x61; x62] 2;
       coordinator_try_accept 2 clock (set_proposer_state (set_out sample_coordinator buf []) st)).
Proof.
  intros OS clock. refine (submitted_value_proposed (OS := OS) 2 clock sample_coordinator sample_coordinator
    (replicate 128 xff) [x61; x62] 2 _ _ _ _); [lia|done|done|apply sample_send_ok].
Defined.
