(* ===== verification/EvLearner.v ===== *)
(** * The learner process ([evpaxos/evlearner.c])

    The handlers that feed the learner of [Learner.v] and hand what it delivers
    to the application.  [delfun w iid value len] is the delivery callback,
    acting on the state [w] behind [delarg]; [freed i] is what the [i]-th
    delivery reads from the instance it has freed.

    [None] is undefined behaviour, a failed [assert], a loop that does not end,
    or a failure of the callback. *)

From S2P Require Import Prelude Bytes PaxosTypes EvConfig MessagePack TypesPack Peers.
From S2P Require Import KhashInterface Khash KhashResize Quorum Learner.

Record evlearner (T : Type -> Type) := Evlearner {
  el_state : learner T;
  el_tv_usec : Z;
  el_timer : bool;
}.
Arguments Evlearner {T}. Arguments el_state {T}. Arguments el_tv_usec {T}. Arguments el_timer {T}.

Section evlearner.
Context `{KH : KHash T} `{MP : Msgpack} {W : Type}.
Context (delfun : W -> Z -> option (list byte) -> Z -> option W) (freed : Z -> Z).
Implicit Types (ps : peers peer_cb) (l : evlearner T) (w : W).

Definition set_learner l (st : learner T) : evlearner T :=
  {| el_state := st; el_tv_usec := el_tv_usec l; el_timer := el_timer l |}.

Definition peer_send_repeat (msg : paxos_repeat) : peer -> option peer := peer_send (PAXOS_REPEAT msg).

(** [chunks] is converted to unsigned in the comparison. *)
Definition evlearner_check_holes ps l : option (peers peer_cb * evlearner T) :=
  let chunks := 10 in
  ps ← match learner_has_holes (el_state l) with
       | Some (from, to) =>
           let to := if u32 chunks <? u32 (to - from) then u32 (from + chunks) else to in
           peers_foreach_acceptor ps (peer_send_repeat {| from := from; to := to |})
       | None => Some ps
       end;
  Some (ps, {| el_state := el_state l; el_tv_usec := el_tv_usec l; el_timer := true |}).

Definition deliver_one w (deliver : paxos_accepted) : option W :=
  delfun w (iid deliver) (paxos_value_val (value deliver)) (paxos_value_len (value deliver)).

(** Each turn removes an instance from the table: its size plus one is enough
    fuel ([deliver_loop_total]). *)
Fixpoint deliver_loop (fuel : nat) (i : Z) w (st : learner T) : option (W * learner T) :=
  match fuel with
  | O => None
  | S fuel =>
      '(rv, st, deliver) ← learner_deliver_next st (freed i);
      if rv =? 0 then Some (w, st) else
      deliver ← deliver;
      w ← deliver_one w deliver;
      deliver_loop fuel (i + 1) w st
  end.

Definition evlearner_deliver_next_closed w l : option (W * evlearner T) :=
  '(w, st) ← deliver_loop (S (Z.to_nat (kh_size (instances (el_state l))))) 0 w (el_state l);
  Some (w, set_learner l st).

Definition evlearner_handle_accepted w l (accepted : paxos_accepted) : option (W * evlearner T) :=
  st ← learner_receive_accepted (el_state l) accepted;
  evlearner_deliver_next_closed w (set_learner l st).

Definition evlearner_init_internal (g : paxos_config) (c : evpaxos_config) ps :
    option (peers peer_cb * evlearner T) :=
  let acceptor_count := evpaxos_acceptor_count c in
  let st := learner_new (learner_catch_up g) acceptor_count in
  ps ← peers_subscribe ps 3 evlearner_accepted_cb;
  Some (ps, {| el_state := st; el_tv_usec := 100000; el_timer := true |}).

(** [config] is the result of [evpaxos_config_read]; [Some None] is NULL. *)
Definition evlearner_init (inet_addr : cstring -> Z) (g : paxos_config) (config : option evpaxos_config) :
    option (option (peers peer_cb * evlearner T)) :=
  match config with
  | None => Some None
  | Some c =>
      ps ← peers_connect_to_acceptors inet_addr (peers_new c);
      Some <$> evlearner_init_internal g c ps
  end.

Definition evlearner_set_instance_id l (iid : Z) : evlearner T :=
  set_learner l (learner_set_instance_id (el_state l) iid).

Definition peer_send_trim (t : paxos_trim) : peer -> option peer := peer_send (PAXOS_TRIM t).

Definition evlearner_send_trim ps (iid : Z) : option (peers peer_cb) :=
  peers_foreach_acceptor ps (peer_send_trim {| trim_iid := iid |}).
End evlearner.

(** ** Delivery *)

Section delivery.
Context `{KH : KHash T}.
Implicit Types (l : learner T).

(** Instance [k] has a quorum. *)
Definition ready l (k : Z) : Prop :=
  exists inst inst', kh_map (instances l) !! k = Some inst /\
    instance_has_quorum inst (lrn_acceptors l) = Some (true, inst').

Lemma quorum_false_same inst n inst' : instance_has_quorum inst n = Some (false, inst') -> inst' = inst.
Proof.
  unfold instance_has_quorum. destruct (final_value inst); [done|]. destruct (count_acks _ _ _ _ _) as [v c].
  destruct (paxos_quorum n <=? c); [|by intros [= <-]]. by destruct (arr_get (acks inst) v).
Qed.

(** [learner_deliver_next] does not fail, and tells whether the current
    instance is ready. *)
Lemma deliver_next_runs P l freed :
  learner_ok P l -> is_u32 freed ->
  (~ ready l (current_iid l) /\ exists l', learner_deliver_next l freed = Some (0, l', None) /\ learner_ok P l' /\
     current_iid l' = current_iid l /\ kh_map (instances l') = kh_map (instances l)) \/
  (ready l (current_iid l) /\ exists l' out, learner_deliver_next l freed = Some (1, l', Some out) /\ learner_ok P l' /\
     current_iid l' = u32 (current_iid l + 1) /\ lrn_acceptors l' = lrn_acceptors l /\ iid out = current_iid l /\
     kh_map (instances l') = delete (current_iid l) (kh_map (instances l))).
Proof.
  intros Hok Hfr. pose proof Hok as (Hn & Hc & _ & Hwf & _ & Hi & _).
  unfold learner_deliver_next, learner_get_current_instance, learner_get_instance.
  destruct (kh_lookup (instances l) (current_iid l)) as [[s inst]|] eqn:Hl.
  2: { left. apply kh_lookup_map_None in Hl; [|done|done].
       split; [intros (? & ? & ? & _); congruence|]. eauto. }
  apply kh_lookup_slot in Hl; [|done|done].
  assert (kh_map (instances l) !! current_iid l = Some inst) as Hm by (apply kh_map_Some; eauto).
  destruct (kh_map_set _ _ _ _ inst Hwf Hl) as [_ Hmap0].
  destruct (has_quorum_spec P _ _ inst Hn (Hi _ _ Hm)) as (b & inst' & Hq & Hinst' & _ & _ & _ & Hb & _).
  pose proof (learner_ok_set_slot P l _ s inst inst' Hok Hl Hinst') as Hok1. rewrite Hq. simpl.
  destruct b; simpl.
  - right. split; [by exists inst, inst'|]. symmetry in Hb. apply bool_decide_eq_true in Hb as [f Hf]. rewrite Hf. simpl.
    pose proof Hinst' as ([_ Hack] & Hiid & Hclosed). destruct (Hclosed f Hf) as (_ & _ & (a0 & Ha0) & _).
    assert (linst_iid inst' = current_iid l) as Hkk.
    { destruct Hiid as [?| ->]; [done|]. by apply arr_get_replicate in Ha0. }
    destruct (kh_set_spec _ _ _ _ inst' Hwf Hl) as (_ & _ & Hsl).
    destruct (delete_instance_ok P (with_instances l (kh_set (instances l) s inst')) (current_iid l) s inst')
      as [Hok2 Hmap2]; [done|simpl; by rewrite Hsl, decide_True|done|].
    destruct (drop_gap_ok P _ freed Hok2 Hfr) as ((? & ? & ? & ? & ? & ? & ?) & Hn3 & Hc3). simpl in Hn3, Hc3.
    eexists _, _. split; [done|]. split; [|split; [|split; [|split]]]; simpl.
    + by split; [done|]; split; [apply u32_range|].
    + by rewrite Hc3.
    + done.
    + by destruct (Hack _ _ Ha0).
    + destruct (kh_map_set _ _ _ _ inst' Hwf Hl) as [_ Hmap1]. simpl in Hmap2. rewrite Hmap1 in Hmap2.
      rewrite delete_insert_eq in Hmap2. rewrite <- Hmap2. unfold learner_get_gap.
      destruct (kh_lookup _ freed) as [[? g]|]; [|done]. unfold learner_delete_gap at 1. by destruct (negb _).
  - left. pose proof (quorum_false_same _ _ _ Hq) as ->.
    split; [intros (i & i' & ? & ?); simplify_eq; congruence|].
    eexists. split; [done|]. split; [done|]. split; [done|]. simpl. by rewrite Hmap0, insert_id.
Qed.

Fixpoint deliver_all {W} (delfun : W -> Z -> option (list byte) -> Z -> option W) (w : W)
    (outs : list paxos_accepted) : option W :=
  match outs with
  | [] => Some w
  | out :: outs => w ← deliver_one delfun w out; deliver_all delfun w outs
  end.

Lemma ready_delete l l' k j :
  kh_map (instances l') = delete k (kh_map (instances l)) -> lrn_acceptors l' = lrn_acceptors l -> j <> k ->
  ready l' j <-> ready l j.
Proof. intros Hm Hn Hne. unfold ready. rewrite Hm, Hn. by setoid_rewrite lookup_delete_ne; [|done]. Qed.

(** The loop hands over the ready instances from the current one on, up to the
    first that is not ready. *)
Lemma deliver_loop_total {W} (delfun : W -> Z -> option (list byte) -> Z -> option W) freed P fuel i (w : W) l :
  learner_ok P l -> (forall i, is_u32 (freed i)) -> (base.size (kh_map (instances l)) < fuel)%nat ->
  current_iid l + Z.of_nat fuel < 2 ^ 32 ->
  exists l' outs, deliver_loop delfun freed fuel i w l = (w ← deliver_all delfun w outs; Some (w, l')) /\
    learner_ok P l' /\ current_iid l' = current_iid l + Z.of_nat (length outs) /\
    iid <$> outs = seqZ (current_iid l) (Z.of_nat (length outs)) /\
    (forall k, current_iid l <= k < current_iid l' -> ready l k) /\ ~ ready l (current_iid l').
Proof.
  intros Hok Hfr. revert i w l Hok. induction fuel as [|fuel IH]; intros i w l Hok Hsize Hmax; [lia|]. simpl.
  destruct (deliver_next_runs P l (freed i) Hok (Hfr i)) as
    [(Hno & l' & -> & Hok' & Hc & _)|(Hyes & l1 & out & -> & Hok1 & Hc & Hn & Hi & Hm)]; simpl.
  - exists l', []. simpl. rewrite Hc. split; [done|]. split; [done|]. split; [lia|]. split; [done|].
    split; [intros; lia|done].
  - pose proof Hok as (_ & Hcr & _). rewrite u32_small in Hc by lia.
    assert (is_Some (kh_map (instances l) !! current_iid l)) as Hin by (destruct Hyes as (? & ? & ? & _); eauto).
    destruct (IH (i + 1) (default w (deliver_one delfun w out)) l1 Hok1) as (l' & outs & Hloop & Hok' & Hc' & Hi' & Hr & Hno).
    { rewrite Hm, map_size_delete_Some by done.
      assert (base.size (kh_map (instances l)) <> 0%nat) by (intros E%map_size_empty_inv; rewrite E in Hin; by destruct Hin).
      lia. }
    { lia. }
    assert (forall k, k <> current_iid l -> ready l1 k <-> ready l k) as Hready by (intros; by eapply ready_delete).
    exists l', (out :: outs). csimpl. split.
    { destruct (deliver_one delfun w out); simpl in *; [exact Hloop|done]. }
    split; [done|]. split; [lia|]. split; [|split].
    + rewrite Hi', Hi, Nat2Z.inj_succ, (seqZ_cons (current_iid l)) by lia. f_equal. f_equal; lia.
    + intros k Hk. destruct (decide (k = current_iid l)) as [->|]; [done|]. apply Hready; [done|]. apply Hr. lia.
    + by rewrite <- Hready by lia.
Qed.
End delivery.

(** C8. When an accepted message arrives the learner updates its instance and
    then hands the application every instance that is decided, in order and
    without a gap, from the current one to the first that is not decided; the
    loop ends. *)
Theorem accepted_delivers `{KH : KHash T} {W} (delfun : W -> Z -> option (list byte) -> Z -> option W) freed P (w : W)
    (l : evlearner T) accepted st :
  learner_ok P (el_state l) -> (forall i, is_u32 (freed i)) -> body_ok accepted -> P (paxos_accepted_dup accepted) ->
  learner_receive_accepted (el_state l) accepted = Some st ->
  current_iid st + kh_size (instances st) + 1 < 2 ^ 32 ->
  exists l' outs, evlearner_handle_accepted delfun freed w l accepted =
      (w ← deliver_all delfun w outs; Some (w, set_learner l l')) /\
    learner_ok P l' /\ current_iid l' = current_iid st + Z.of_nat (length outs) /\
    iid <$> outs = seqZ (current_iid st) (Z.of_nat (length outs)) /\
    (forall k, current_iid st <= k < current_iid l' -> ready st k) /\ ~ ready st (current_iid l').
Proof.
  intros Hok Hfr Hbody HP Hst Hmax. unfold evlearner_handle_accepted. rewrite Hst. cbn [mbind option_bind].
  destruct (receive_accepted_ok P _ _ _ Hok Hbody HP Hst) as (Hok1 & _). pose proof Hok1 as (_ & _ & _ & Hwf & _).
  rewrite kh_size_map in Hmax by done. unfold evlearner_deliver_next_closed. cbn [el_state set_learner]. rewrite kh_size_map by done.
  destruct (deliver_loop_total delfun freed P (S (Z.to_nat (Z.of_nat (base.size (kh_map (instances st)))))) 0 w st)
    as (l' & outs & Hloop & Hrest); [done|done|lia|lia|].
  exists l', outs. split; [|done]. rewrite Hloop. by destruct (deliver_all delfun w outs).
Qed.

(** The hole check asks every acceptor to repeat at most the eleven next
    instances, none behind the highest instance known to be closed, and nothing
    when there is no hole. *)
Theorem check_holes_bounded `{KH : KHash T} `{MP : Msgpack} P ps (l : evlearner T) :
  let st := el_state l in learner_ok P st -> counted ps ->
  evlearner_check_holes ps l =
    Some (broadcast (if current_iid st <? highest_iid_closed st
                     then [PAXOS_REPEAT {| from := current_iid st;
                                           to := Z.min (highest_iid_closed st) (current_iid st + 10) |}]
                     else []) ps,
          {| el_state := st; el_tv_usec := el_tv_usec l; el_timer := true |}).
Proof.
  intros st (_ & Hc & Hh & _) Hps. unfold evlearner_check_holes, learner_has_holes. fold st.
  destruct (Z.ltb_spec (current_iid st) (highest_iid_closed st)); [|cbn; by rewrite broadcast_nil].
  cbn zeta iota beta. rewrite (u32_small 10), (u32_small (_ - _)) by lia.
  replace (if 10 <? _ then _ else _) with (Z.min (highest_iid_closed st) (current_iid st + 10)).
  - unfold peer_send_repeat. rewrite foreach_broadcast; [done|split; simpl; lia|done].
  - destruct (Z.ltb_spec 10 (highest_iid_closed st - current_iid st)); [rewrite u32_small by lia|]; lia.
Qed.

(** A learner of three acceptors with one vote for instance 1. *)
Definition sample_vote (a : Z) : paxos_accepted :=
  {| iid := 1; ballot := 5; value_ballot := 5; aid := a;
     value := {| paxos_value_len := 1; paxos_value_val := Some [byte_of_Z 7] |} |}.
Definition sample_learner : learner khash :=
  default (learner_new 1 3) (learner_receive_accepted (learner_new 1 3) (sample_vote 0)).

Lemma sample_vote_ok a : is_u16 a -> body_ok (sample_vote a).
Proof. intros Ha. unfold body_ok, value_ok. simpl. lia. Qed.

Lemma sample_learner_ok : learner_ok (fun _ => True) sample_learner.
Proof.
  destruct (receive_accepted_ok (fun _ => True) (T := khash) (learner_new 1 3) (sample_vote 0) sample_learner)
    as [Hok _]; [by apply learner_new_ok|by apply sample_vote_ok|done|by vm_compute|done].
Qed.

(** The second vote delivers the value. *)
Definition sample_evlearner : evlearner khash :=
  {| el_state := sample_learner; el_tv_usec := 100000; el_timer := true |}.
Definition sample_delfun (w : list (Z * option (list byte))) (iid : Z) (v : option (list byte)) (len : Z) :
    option (list (Z * option (list byte))) := Some (w ++ [(iid, v)]).
Definition sample_voted : learner khash :=
  default sample_learner (learner_receive_accepted sample_learner (sample_vote 1)).

Lemma accepted_delivers_witness :
  fst <$> evlearner_handle_accepted sample_delfun (fun _ => 0) [] sample_evlearner (sample_vote 1) =
    Some [(1, Some [byte_of_Z 7])] /\
  exists l' outs, evlearner_handle_accepted sample_delfun (fun _ => 0) [] sample_evlearner (sample_vote 1) =
      (w ← deliver_all sample_delfun [] outs; Some (w, set_learner sample_evlearner l')) /\
    current_iid l' = 1 + Z.of_nat (length outs).
Proof.
  split; [vm_compute; reflexivity|].
  destruct (accepted_delivers sample_delfun (fun _ => 0) (fun _ => True) [] sample_evlearner (sample_vote 1) sample_voted)
    as (l' & outs & Hrun & _ & Hc & _);
    [apply sample_learner_ok|done|by apply sample_vote_ok|done|vm_compute; reflexivity|vm_compute; reflexivity|].
  exists l', outs. split; [exact Hrun|]. rewrite Hc. by f_equal.
Defined.

(** Instance 20 is closed, and instance 1 has not been delivered. *)
Definition sample_holes : evlearner khash :=
  {| el_state := {| lrn_acceptors := 3; late_start := false; current_iid := 1; highest_iid_closed := 20;
                    instances := kh_init; gaps := kh_init |}; el_tv_usec := 100000; el_timer := true |}.

Lemma check_holes_bounded_witness :
  let MP := MsgpackFormat.format in
  evlearner_check_holes (peers_new empty_config) sample_holes =
    Some (broadcast [PAXOS_REPEAT {| from := 1; to := 11 |}] (peers_new empty_config), sample_holes).
Proof.
  intros MP. refine (check_holes_bounded (MP := MP) (fun _ => True) (peers_new empty_config) sample_holes _ _); [|done].
  destruct (learner_new_ok (T := khash) (fun _ => True) 1 3) as (? & ? & ? & ? & ? & ? & ?); [done|].
  by repeat (split; [done|]).
Defined.
