(* ===== verification/NetLearner.v ===== *)
(** * The UDP learner and replica ([net/learner.c], [net/replica.c])

    The learner of [Learner.v] fed by datagrams; unlike the TCP process it fills
    its holes by running both phases of the protocol itself.  [delfun] is the
    delivery callback on the state [W] of the application, [freed i] what the
    [i]-th delivery reads from the instance it has freed.

    The buffers the datagrams are received in, and the vectors that describe
    them to [recvmmsg], are static variables of [net/learner.c], zero at the
    start of the process and shared by the learner and the replica. *)

From S2P Require Import Prelude Bytes PaxosTypes EvConfig MessagePack TypesPack Peers.
From S2P Require Import KhashInterface Khash KhashResize Quorum Proposer Learner EvLearner NetPaxos NetSequencer.

Definition MAX_GAPS : Z := 128.

(** The static variables: [iov_len] is the room the vectors in [msgs] describe
    for a datagram, 0 as long as [msg_iovlen] is 0. *)
Record statics := Statics { bufs : list (list byte); iov_len : Z; max_received : Z }.

Definition statics_zero : statics :=
  {| bufs := replicate (Z.to_nat VLEN) (replicate (Z.to_nat (BUFSIZE + 1)) x00); iov_len := 0; max_received := 0 |}.

Section net_learner.
Context `{KH : KHash T} {H : Type} {OS : Os} {W : Type}.
Context (delfun : W -> Z -> option (list byte) -> Z -> option W) (freed : Z -> Z).
Implicit Types (ctx : paxos_ctx T H).

Record net_learner := NetLearner {
  nl_ctx : paxos_ctx T H;
  nl_app : W;
  nl_statics : statics;
}.

(** [junk] is the uninitialised buffer on the stack; the result of [sendto] is
    not looked at. *)
Definition learner_send_paxos_message ctx (junk : list byte) (msg : paxos_message) (msg_size : Z) :
    option (paxos_ctx T H) :=
  '(buf, _) ← pack_paxos_message junk msg;
  '(ctx, _) ← sendto ctx buf msg_size (acceptor_sin ctx);
  Some ctx.

(** The loop from [iid] (an [int]) to [to_inst]; its increment must not
    overflow. *)
Fixpoint prepare_holes (fuel : nat) (l : learner T) (iid to_inst : Z) : option (learner T) :=
  match fuel with
  | O => None
  | S fuel =>
      if u32 iid <? to_inst then
        '(l, _) ← learner_prepare l (u32 iid);
        assert_ (iid <? INT_MAX);;
        prepare_holes fuel l (iid + 1) to_inst
      else Some l
  end.

(** The vectors all point to the local [out] of the loop body, whose lifetime is
    over when [sendmmsg] reads it: [dead] is what it finds there. *)
Definition learner_check_holes ctx (dead : list byte) : option (paxos_ctx T H) :=
  l ← learner_state ctx;
  match learner_has_holes l with
  | None => Some ctx
  | Some (from_inst, to_inst) =>
      let to_inst := if MAX_GAPS <? u32 (to_inst - from_inst) then u32 (from_inst + MAX_GAPS) else to_inst in
      let vlen := u32 (to_inst - from_inst) in
      l ← prepare_holes (S (Z.to_nat vlen)) l (i32 from_inst) to_inst;
      let ctx := set_learner_state ctx l in
      bs ← read_at dead 0 sizeof_paxos_message;
      let d := {| dst := acceptor_sin ctx; payload := bs |} in
      Some (set_out ctx (buffer ctx) (sendmmsg (outbox ctx) (replicate (Z.to_nat vlen) d)))
  end.

(** The timer is armed again. *)
Definition check_holes ctx (dead : list byte) : option (paxos_ctx T H) := learner_check_holes ctx dead.

Definition on_paxos_accepted ctx (w : W) (accepted : paxos_accepted) : option (paxos_ctx T H * W) :=
  l ← learner_state ctx;
  l ← learner_receive_accepted l accepted;
  '(w, l) ← deliver_loop delfun freed (S (Z.to_nat (kh_size (instances l)))) 0 w l;
  Some (set_learner_state ctx l, w).

(** [out] is the uninitialised accept request the learner fills in. *)
Definition on_paxos_promise ctx (junk : list byte) (promise : paxos_promise) (out : paxos_accept) :
    option (paxos_ctx T H) :=
  l ← learner_state ctx;
  '(ret, l, out) ← learner_receive_promise l promise out;
  let ctx := set_learner_state ctx l in
  if negb (ret =? 0) then
    let datagram_len := i32 (sizeof_paxos_message + paxos_value_len (value promise)) in
    learner_send_paxos_message ctx junk (PAXOS_ACCEPT out) datagram_len
  else Some ctx.

Definition on_paxos_preempted ctx (junk : list byte) (preempted : paxos_preempted) : option (paxos_ctx T H) :=
  l ← learner_state ctx;
  let '(ret, l, out) := learner_receive_preempted l preempted in
  let ctx := set_learner_state ctx l in
  if negb (ret =? 0) then
    out ← out;
    learner_send_paxos_message ctx junk (PAXOS_PREPARE out) sizeof_paxos_message
  else Some ctx.

Definition learner_dispatch ctx (w : W) (junk : list byte) (out : paxos_accept) (msg : option paxos_message) :
    option (paxos_ctx T H * W) :=
  match msg with
  | Some (PAXOS_ACCEPTED b) => on_paxos_accepted ctx w b
  | Some (PAXOS_PROMISE b) => ctx ← on_paxos_promise ctx junk b out; Some (ctx, w)
  | Some (PAXOS_PREEMPTED b) => ctx ← on_paxos_preempted ctx junk b; Some (ctx, w)
  | _ => Some (ctx, w)
  end.

(** The [i]-th of the [retval] datagrams received; [len] is its [msg_len]. *)
Definition learner_handle_dgram (n : net_learner) (junk : list byte) (out : paxos_accept) (i retval len : Z) :
    option net_learner :=
  let st := nl_statics n in
  buf ← arr_get (bufs st) i;
  buf ← arr_set buf len x00;
  bs ← arr_set (bufs st) i buf;
  let max := if max_received st <? retval then retval else max_received st in
  msg ← unpack_paxos_message buf;
  '(ctx, w) ← learner_dispatch (nl_ctx n) (nl_app n) junk out msg;
  Some {| nl_ctx := ctx; nl_app := w;
          nl_statics := {| bufs := bs; iov_len := iov_len st; max_received := max |} |}.

Fixpoint learner_handle_all (n : net_learner) (junk : list byte) (out : paxos_accept) (i retval : Z)
    (lens : list Z) : option net_learner :=
  match lens with
  | [] => Some n
  | len :: lens =>
      n ← learner_handle_dgram n junk out i retval len;
      learner_handle_all n junk out (i + 1) retval lens
  end.

(** [recvmmsg(fd, msgs, VLEN, ...)] on the datagrams [ds]: each is cut to the
    room for it and written over the old contents of its buffer.  The result is
    the buffers and the lengths [msg_len]. *)
Definition recvmmsg (st : statics) (ds : list (list byte)) : list (list byte) * list Z :=
  let ds := take (Z.to_nat (iov_len st)) <$> take (Z.to_nat VLEN) ds in
  let filled := zip_with (fun d buf => d ++ drop (length d) buf) ds (bufs st) in
  (filled ++ drop (length filled) (bufs st), (fun d => Z.of_nat (length d)) <$> ds).

(** [None] for [received] is the exit after an error of [recvmmsg]. *)
Definition learner_read_cb (n : net_learner) (junk : list byte) (out : paxos_accept)
    (received : option (list (list byte))) : option net_learner :=
  ds ← received;
  let st := nl_statics n in
  let '(bs, lens) := recvmmsg st ds in
  let st := {| bufs := bs; iov_len := iov_len st; max_received := max_received st |} in
  let n := {| nl_ctx := nl_ctx n; nl_app := nl_app n; nl_statics := st |} in
  learner_handle_all n junk out 0 (Z.of_nat (length lens)) lens.

(** What [make_learner] and [make_replica] have in common. *)
Definition make_learner_ctx (junk : list byte) (conf : netpaxos_configuration) (g : paxos_config) (tv : timeval) :
    option (paxos_ctx T H) :=
  let ctx := init_paxos_ctx junk in
  so ← join_if_multicast (learner_address conf) (create_server_socket (learner_port conf));
  let l := learner_set_instance_id (learner_new (learner_catch_up g) (acceptor_count conf)) 0 in
  let ctx := set_learner_state ctx l in
  acc ← ip_to_sockaddr (acceptor_address conf) (acceptor_port conf);
  Some (set_net ctx (my_id ctx) so (coordinator_sin ctx) acc (learner_sin ctx) (proposer_sin ctx) tv).

(** [rnd] is the result of [rand], [st] the static variables before. *)
Definition make_learner (junk : list byte) (conf : netpaxos_configuration) (g : paxos_config) (rnd : Z)
    (st : statics) (w : W) : option net_learner :=
  ctx ← make_learner_ctx junk conf g {| tv_sec := 1; tv_usec := 100000 * (rnd mod 7) |};
  Some {| nl_ctx := ctx; nl_app := w;
          nl_statics := {| bufs := bufs st; iov_len := BUFSIZE; max_received := 0 |} |}.

(** The vectors of [msgs] are left as they are. *)
Definition make_replica (junk : list byte) (conf : netpaxos_configuration) (g : paxos_config)
    (st : statics) (w : W) : option net_learner :=
  ctx ← make_learner_ctx junk conf g {| tv_sec := 0; tv_usec := 100000 |};
  lea ← ip_to_sockaddr (learner_address conf) (learner_port conf);
  let ctx := set_net ctx (my_id ctx) (sock ctx) (coordinator_sin ctx) (acceptor_sin ctx) lea (proposer_sin ctx) (ctx_tv ctx) in
  Some {| nl_ctx := ctx; nl_app := w; nl_statics := st |}.
End net_learner.

(** ** Reading datagrams *)

Section reading.
Context `{KH : KHash T} {H : Type} {OS : Os} {W : Type}.
Context (delfun : W -> Z -> option (list byte) -> Z -> option W) (freed : Z -> Z).
Implicit Types (ctx : paxos_ctx T H) (n : net_learner (T := T) (H := H) (W := W)).

(** The handlers on the messages [ms], in order. *)
Fixpoint dispatch_all ctx (w : W) (junk : list byte) (out : paxos_accept) (ms : list (option paxos_message)) :
    option (paxos_ctx T H * W) :=
  match ms with
  | [] => Some (ctx, w)
  | m :: ms =>
      '(ctx, w) ← learner_dispatch delfun freed ctx w junk out m;
      dispatch_all ctx w junk out ms
  end.

Definition bufs_ok (st : statics) : Prop :=
  length (bufs st) = Z.to_nat VLEN /\ Forall (fun b => length b = Z.to_nat (BUFSIZE + 1)) (bufs st).

(** From the [i]-th on, the buffers hold the datagrams [ds] with room behind. *)
Definition holds_from (bs : list (list byte)) (i : Z) (ds : list (list byte)) : Prop :=
  forall j d, ds !! j = Some d -> exists x r, bs !! (Z.to_nat i + j)%nat = Some (d ++ x :: r).

Lemma holds_from_next bs b i d ds :
  0 <= i -> holds_from bs i (d :: ds) -> holds_from (<[Z.to_nat i := b]> bs) (i + 1) ds.
Proof.
  intros Hi Hh j d' Hd. destruct (Hh (S j) d' Hd) as (x & r & Hb). exists x, r.
  rewrite list_lookup_insert_ne by lia. by replace (Z.to_nat (i + 1) + j)%nat with (Z.to_nat i + S j)%nat by lia.
Qed.

Lemma handle_dgram_reads n junk out i rv d ds m :
  0 <= i -> holds_from (bufs (nl_statics n)) i (d :: ds) -> unpack_paxos_message d = Some m ->
  exists st, holds_from (bufs st) (i + 1) ds /\
    learner_handle_dgram delfun freed n junk out i rv (Z.of_nat (length d)) =
      ('(ctx, w) ← learner_dispatch delfun freed (nl_ctx n) (nl_app n) junk out m;
       Some {| nl_ctx := ctx; nl_app := w; nl_statics := st |}).
Proof.
  intros Hi Hh Hm. destruct (Hh O d eq_refl) as (x & r & Hb). rewrite Nat.add_0_r in Hb.
  eexists {| bufs := <[Z.to_nat i := d ++ x00 :: r]> (bufs (nl_statics n)); iov_len := _; max_received := _ |}.
  split; [by eapply holds_from_next|].
  unfold learner_handle_dgram. rewrite (proj2 (arr_get_Some _ _ _)) by done. cbn [mbind option_bind].
  rewrite (proj2 (arr_set_Some _ (d ++ x00 :: r) _ _)).
  2: { rewrite length_app. simpl. split; [lia|]. rewrite Nat2Z.id. by rewrite insert_app_r_alt, Nat.sub_diag. }
  cbn [mbind option_bind]. pose proof (lookup_lt_Some _ _ _ Hb).
  rewrite (proj2 (arr_set_Some _ (<[Z.to_nat i := d ++ x00 :: r]> (bufs (nl_statics n))) _ _)) by (split; [lia|done]).
  cbn [mbind option_bind]. rewrite (unpack_paxos_message_app _ _ _ Hm). done.
Qed.

Lemma handle_all_reads n junk out i rv ds ms :
  0 <= i -> holds_from (bufs (nl_statics n)) i ds ->
  Forall2 (fun d m => unpack_paxos_message d = Some m) ds ms ->
  (fun n => (nl_ctx n, nl_app n)) <$>
    learner_handle_all delfun freed n junk out i rv ((fun d => Z.of_nat (length d)) <$> ds) =
  dispatch_all (nl_ctx n) (nl_app n) junk out ms.
Proof.
  intros Hi Hh Hds. revert n i Hi Hh. induction Hds as [|d m ds ms Hm _ IH]; intros n i Hi Hh; [done|].
  destruct (handle_dgram_reads n junk out i rv d ds m Hi Hh Hm) as (st & Hst & Hrun).
  cbn [fmap list_fmap learner_handle_all dispatch_all]. rewrite Hrun.
  destruct (learner_dispatch delfun freed _ _ _ _ _) as [[ctx w]|]; [|done]. cbn [mbind option_bind].
  by apply IH; [lia|].
Qed.

Lemma recvmmsg_holds st ds :
  bufs_ok st -> iov_len st = BUFSIZE -> (length ds <= Z.to_nat VLEN)%nat ->
  Forall (fun d => Z.of_nat (length d) <= BUFSIZE) ds ->
  exists bs, recvmmsg st ds = (bs, (fun d => Z.of_nat (length d)) <$> ds) /\ holds_from bs 0 ds.
Proof.
  intros [Hlen Hb] Hiov Hn Hds. unfold recvmmsg. rewrite Hiov, (take_ge ds) by done.
  assert (take (Z.to_nat BUFSIZE) <$> ds = ds) as ->.
  { rewrite <- (list_fmap_id ds) at 2. apply list_fmap_ext. intros j d Hd.
    apply take_ge. pose proof (Forall_lookup_1 _ _ _ _ Hds Hd). simpl in *. lia. }
  eexists. split; [done|]. intros j d Hd. pose proof (lookup_lt_Some _ _ _ Hd) as Hj.
  destruct (lookup_lt_is_Some_2 (bufs st) j) as [b Hbj]; [lia|].
  pose proof (Forall_lookup_1 _ _ _ _ Hb Hbj) as Hbl. pose proof (Forall_lookup_1 _ _ _ _ Hds Hd) as Hdl.
  simpl in Hbl, Hdl. unfold BUFSIZE in *.
  destruct (drop (length d) b) as [|x r] eqn:E.
  { apply (f_equal length) in E. rewrite length_drop in E. simpl in E. lia. }
  exists x, r. change (Z.to_nat 0 + j)%nat with j.
  rewrite lookup_app_l by (rewrite length_zip_with; lia).
  rewrite lookup_zip_with, Hd. simpl. rewrite Hbj. simpl. by rewrite E.
Qed.

(** C23. A batch of up to [VLEN] datagrams, each the bytes of a message, is
    handled exactly as its messages in order, whatever earlier batches left in
    the static buffers: the outcome of [learner_read_cb] on the context and the
    application is that of the handlers, failures included. *)
Theorem udp_batch_in_order n junk out ds ms :
  bufs_ok (nl_statics n) -> iov_len (nl_statics n) = BUFSIZE -> (length ds <= Z.to_nat VLEN)%nat ->
  Forall (fun d => Z.of_nat (length d) <= BUFSIZE) ds ->
  Forall2 (fun d m => unpack_paxos_message d = Some m) ds ms ->
  (fun n => (nl_ctx n, nl_app n)) <$> learner_read_cb delfun freed n junk out (Some ds) =
    dispatch_all (nl_ctx n) (nl_app n) junk out ms.
Proof.
  intros Hb Hiov Hn Hds Hms. destruct (recvmmsg_holds _ ds Hb Hiov Hn Hds) as (bs & Hrecv & Hh).
  unfold learner_read_cb. cbn [mbind option_bind]. rewrite Hrecv.
  set (st := {| bufs := bs; iov_len := _; max_received := _ |}).
  by apply (handle_all_reads {| nl_ctx := nl_ctx n; nl_app := nl_app n; nl_statics := st |}).
Qed.

(** ** The replica *)

(** The static variables of a process in which [make_learner] did not run. *)
Definition deaf (st : statics) : Prop := bufs st = bufs statics_zero /\ iov_len st = 0.

Lemma zero_buf_reads b :
  b = replicate (Z.to_nat (BUFSIZE + 1)) x00 ->
  exists v, unpack_paxos_message b = Some (Some (PAXOS_PREPARE v)) /\ arr_set b 0 x00 = Some b.
Proof. intros ->. eexists. split; vm_compute; reflexivity. Qed.

Lemma deaf_handle_dgram n junk out i rv :
  deaf (nl_statics n) -> 0 <= i < VLEN ->
  exists st, deaf st /\ learner_handle_dgram delfun freed n junk out i rv 0 =
    Some {| nl_ctx := nl_ctx n; nl_app := nl_app n; nl_statics := st |}.
Proof.
  intros [Hb Hiov] Hi. destruct (zero_buf_reads _ eq_refl) as (v & Hv & Hset).
  set (st := nl_statics n) in *. set (max := if max_received st <? rv then rv else max_received st).
  exists {| bufs := bufs statics_zero; iov_len := 0; max_received := max |}. split; [done|].
  unfold learner_handle_dgram. fold st. rewrite Hb, Hiov. unfold statics_zero, bufs.
  rewrite (proj2 (arr_get_Some _ _ (replicate (Z.to_nat (BUFSIZE + 1)) x00)))
    by (split; [lia|]; apply lookup_replicate; split; [done|lia]).
  cbn [mbind option_bind]. rewrite Hset. cbn [mbind option_bind].
  rewrite (proj2 (arr_set_Some _ (replicate (Z.to_nat VLEN) (replicate (Z.to_nat (BUFSIZE + 1)) x00)) _ _)).
  2: { rewrite length_replicate. split; [lia|]. symmetry. apply list_insert_id, lookup_replicate. split; [done|lia]. }
  cbn [mbind option_bind]. rewrite Hv. done.
Qed.

Lemma deaf_handle_all n junk out i rv k :
  deaf (nl_statics n) -> 0 <= i -> i + Z.of_nat k <= VLEN ->
  exists st, deaf st /\ learner_handle_all delfun freed n junk out i rv (replicate k 0) =
    Some {| nl_ctx := nl_ctx n; nl_app := nl_app n; nl_statics := st |}.
Proof.
  revert n i. induction k as [|k IH]; intros n i Hd Hi Hk.
  { exists (nl_statics n). split; [done|]. by destruct n. }
  destruct (deaf_handle_dgram n junk out i rv Hd) as (st & Hst & Hrun); [lia|].
  cbn [replicate learner_handle_all]. rewrite Hrun. cbn [mbind option_bind].
  by apply (IH {| nl_ctx := nl_ctx n; nl_app := nl_app n; nl_statics := st |}); [|lia|lia].
Qed.

Lemma deaf_recvmmsg st ds :
  deaf st -> exists k, recvmmsg st ds = (bufs statics_zero, replicate k 0) /\ Z.of_nat k <= VLEN.
Proof.
  intros [Hb Hiov]. exists (length (take (Z.to_nat VLEN) ds)).
  split; [|rewrite length_take; unfold VLEN; lia].
  unfold recvmmsg. rewrite Hiov, Hb. change (take (Z.to_nat 0)) with (fun _ : list byte => @nil byte).
  generalize (take (Z.to_nat VLEN) ds) (bufs statics_zero). clear. intros ds bs. f_equal.
  - revert bs. induction ds as [|d ds IH]; intros [|b bs]; simpl; [done..|]. by rewrite drop_0, IH.
  - induction ds as [|d ds IH]; csimpl; [done|]. by rewrite IH.
Qed.

Fixpoint read_batches n (junk : list byte) (out : paxos_accept) (batches : list (list (list byte))) :
    option net_learner :=
  match batches with
  | [] => Some n
  | ds :: batches => n ← learner_read_cb delfun freed n junk out (Some ds); read_batches n junk out batches
  end.

Lemma deaf_read_batches n junk out batches :
  deaf (nl_statics n) ->
  exists st, read_batches n junk out batches = Some {| nl_ctx := nl_ctx n; nl_app := nl_app n; nl_statics := st |}.
Proof.
  revert n. induction batches as [|ds batches IH]; intros n Hd; [exists (nl_statics n); by destruct n|].
  destruct (deaf_recvmmsg _ ds Hd) as (k & Hrecv & Hk).
  cbn [read_batches]. unfold learner_read_cb. cbn [mbind option_bind]. rewrite Hrecv.
  set (n' := {| nl_ctx := _; nl_app := _; nl_statics := _ |}).
  destruct (deaf_handle_all n' junk out 0 (Z.of_nat (length (replicate k 0))) k) as (st & Hst & ->);
    [by destruct Hd|lia|lia|].
  by apply (IH {| nl_ctx := nl_ctx n; nl_app := nl_app n; nl_statics := st |}).
Qed.

(** A replica in a process that made no learner hears nothing: its receive
    vectors have no room, so whatever datagrams arrive, in any number of
    batches, its state is unchanged and nothing is delivered. *)
Theorem replica_hears_nothing n junk junk' conf g w out batches :
  make_replica junk conf g statics_zero w = Some n ->
  exists st, read_batches n junk' out batches = Some {| nl_ctx := nl_ctx n; nl_app := w; nl_statics := st |}.
Proof.
  unfold make_replica. destruct (make_learner_ctx _ _ _ _) as [ctx|]; [|done]. cbn [mbind option_bind].
  destruct (ip_to_sockaddr _ _); [|done]. intros [= <-]. by apply deaf_read_batches.
Qed.
End reading.

(** ** Filling a hole *)

Definition sample_gap_value : paxos_value :=
  {| paxos_value_len := 12; paxos_value_val := Some (replicate 12 x61 ++ [x00]) |}.
Definition sample_promise (aid value_ballot : Z) (v : paxos_value) : paxos_promise :=
  {| iid := 1; ballot := 3; value_ballot := value_ballot; aid := aid; value := v |}.

(** A learner of three acceptors that has opened a gap for instance 1. *)
Definition sample_gap_learner : option (learner khash) :=
  '(l, _) ← learner_prepare (learner_set_instance_id (learner_new 1 3) 0) 1;
  Some l.

Definition fill_gap (promises : list paxos_promise) : option (list dgram) :=
  let OS := sample_os in
  l ← sample_gap_learner;
  let junk := replicate 128 x00 in
  ctx ← foldl (fun ctx p => ctx ← ctx; on_paxos_promise ctx junk p (sample_promise 0 0 null_value))
          (Some (set_learner_state (H := unit) (init_paxos_ctx junk) l)) promises;
  Some (outbox ctx).

(** The learner that fills a hole can ask the acceptors to accept a value
    nobody proposed: acceptor 0 promises with the value [aaaaaaaaaaaa] it has
    accepted, acceptor 1 with none; the accept request is sent with the length
    of the second promise, and an acceptor reads from its zeroed buffer a value
    that ends in two zero bytes. *)
Theorem gap_accept_truncated :
  exists d c, fill_gap [sample_promise 0 2 sample_gap_value; sample_promise 1 0 null_value] = Some [d] /\
    unpack_paxos_message (fst (recvfrom (replicate 128 x00) (payload d))) = Some (Some (PAXOS_ACCEPT c)) /\
    iid c = 1 /\ ballot c = 3 /\ value_bytes (value c) = replicate 10 x61 ++ [x00; x00] /\
    value_bytes (value c) <> value_bytes sample_gap_value.
Proof. eexists _, _. split; [vm_compute; reflexivity|]. split; [vm_compute; reflexivity|]. by vm_compute. Qed.

(** ** Witnesses *)

Definition sample_conf : netpaxos_configuration :=
  NetpaxosConfiguration [] [] 1 (Some []) 2 (Some []) 3 (Some []) 3 0 0 0.
Definition sample_out : paxos_accept := sample_promise 0 0 null_value.
Definition sample_vote_packet (a : Z) : list byte := sample_packet (PAXOS_ACCEPTED (sample_vote a)).

(** A learner with the buffers of an earlier batch. *)
Definition sample_net_learner : net_learner (T := khash) (H := unit) (W := list (Z * option (list byte))) :=
  {| nl_ctx := set_learner_state (init_paxos_ctx []) (learner_new 1 3); nl_app := [];
     nl_statics := {| bufs := replicate (Z.to_nat VLEN) (replicate (Z.to_nat (BUFSIZE + 1)) xff);
                      iov_len := BUFSIZE; max_received := 0 |} |}.

Lemma sample_net_learner_ok : bufs_ok (nl_statics sample_net_learner).
Proof. split; [apply length_replicate|]. apply Forall_replicate, length_replicate. Qed.

(** The votes of two acceptors are a quorum: the value is delivered. *)
Lemma udp_batch_in_order_witness :
  let OS := sample_os in let ds := [sample_vote_packet 0; sample_vote_packet 1] in
  exists ctx, (fun n => (nl_ctx n, nl_app n)) <$>
      learner_read_cb sample_delfun (fun _ => 1) sample_net_learner (replicate 128 xff) sample_out (Some ds) =
    Some (ctx, [(1, Some [byte_of_Z 7])]).
Proof.
  intros OS ds. eexists.
  rewrite (udp_batch_in_order sample_delfun (fun _ => 1) sample_net_learner (replicate 128 xff) sample_out ds
    (Some <$> [PAXOS_ACCEPTED (set_value (sample_vote 0) {| paxos_value_len := 1; paxos_value_val := Some [byte_of_Z 7; x00] |});
               PAXOS_ACCEPTED (set_value (sample_vote 1) {| paxos_value_len := 1; paxos_value_val := Some [byte_of_Z 7; x00] |})])).
  - vm_compute. reflexivity.
  - apply sample_net_learner_ok.
  - reflexivity.
  - vm_compute. lia.
  - repeat constructor; vm_compute; discriminate.
  - repeat constructor.
Defined.

(** The same votes, and a replica. *)
Definition sample_replica : net_learner (T := khash) (H := unit) (W := list (Z * option (list byte))) :=
  let OS := sample_os in
  default sample_net_learner (make_replica [] sample_conf default_paxos_config statics_zero []).

Lemma replica_hears_nothing_witness :
  let OS := sample_os in
  make_replica [] sample_conf default_paxos_config statics_zero [] = Some sample_replica /\
  exists st, read_batches sample_delfun (fun _ => 1) sample_replica [] sample_out
      [[sample_vote_packet 0]; [sample_vote_packet 1]] =
    Some {| nl_ctx := nl_ctx sample_replica; nl_app := []; nl_statics := st |}.
Proof.
  intros OS. split; [reflexivity|].
  apply (replica_hears_nothing sample_delfun (fun _ => 1) sample_replica [] [] sample_conf default_paxos_config).
  reflexivity.
Defined.
