(* ===== verification/EvReplica.v ===== *)
(** * The replica process ([evpaxos/evreplica.c])

    A replica is an acceptor, a proposer and a learner over one [struct peers].
    [replica_call] is the callback of a subscription: the handlers of the three
    roles on the state of the process.  [A] is the state of the application,
    [deliver] its delivery callback ([None] for NULL), which may send through the
    peers of the replica: [evpaxos_replica_submit] and [evpaxos_replica_send_trim]
    change nothing else ([submit_to], [send_trim_to]).

    [None] is undefined behaviour, a failed [assert], a loop that does not end,
    or a failure of the callback. *)

From S2P Require Import Prelude Bytes PaxosTypes EvConfig MessagePack TypesPack Peers.
From S2P Require Import KhashInterface KhashResize Storage EvAcceptor EvProposer EvLearner.

Section replica.
Context `{KH : KHash T} `{SA : StorageApi H} `{MP : Msgpack} {A : Type}.
Context (deliver : option (peers peer_cb -> A -> Z -> option (list byte) -> Z -> option (peers peer_cb * A))).

Record evpaxos_replica := EvpaxosReplica {
  rep_peers : peers peer_cb;
  rep_learner : evlearner T;
  rep_proposer : evproposer T;
  rep_acceptor : evacceptor H;
  rep_app : A;
}.
Implicit Types (r : evpaxos_replica).

Definition with_rep_peers r (ps : peers peer_cb) : evpaxos_replica :=
  {| rep_peers := ps; rep_learner := rep_learner r; rep_proposer := rep_proposer r;
     rep_acceptor := rep_acceptor r; rep_app := rep_app r |}.
Definition with_rep_acceptor r (ps : peers peer_cb) (a : evacceptor H) : evpaxos_replica :=
  {| rep_peers := ps; rep_learner := rep_learner r; rep_proposer := rep_proposer r;
     rep_acceptor := a; rep_app := rep_app r |}.
Definition with_rep_proposer r (ps : peers peer_cb) (p : evproposer T) : evpaxos_replica :=
  {| rep_peers := ps; rep_learner := rep_learner r; rep_proposer := p;
     rep_acceptor := rep_acceptor r; rep_app := rep_app r |}.

(** The callback the replica gives to its learner; it changes the proposer and,
    through the callback of the application, the peers and the application. *)
Definition evpaxos_replica_deliver (w : evproposer T * (peers peer_cb * A)) (iid : Z) (value : option (list byte))
    (size : Z) : option (evproposer T * (peers peer_cb * A)) :=
  p ← evproposer_set_instance_id w.1 iid;
  x ← match deliver with Some f => f w.2.1 w.2.2 iid value size | None => Some w.2 end;
  Some (p, x).

(** [config] is the result of [evpaxos_config_read], which is not checked:
    [peers_new] reads through it.  [s] is the handle [storage_init] makes. *)
Definition evpaxos_replica_init (inet_addr : cstring -> Z) (bind : Z -> bool) (g : paxos_config) (id : Z)
    (config : option evpaxos_config) (s : H) (app : A) : option (option evpaxos_replica) :=
  c ← config;
  ps ← peers_connect_to_acceptors inet_addr (peers_new c);
  '(ps, acc) ← evacceptor_init_internal id s ps;
  '(ps, pro) ← evproposer_init_internal g id c ps;
  '(ps, lea) ← evlearner_init_internal g c ps;
  port ← evpaxos_acceptor_listen_port c id;
  let '(ps, rv) := peers_listen bind ps port in
  if rv =? 0 then Some None else
  Some (Some {| rep_peers := ps; rep_learner := lea; rep_proposer := pro; rep_acceptor := acc; rep_app := app |}).

Definition evpaxos_replica_set_instance_id r (iid : Z) : option evpaxos_replica :=
  p ← evproposer_set_instance_id (rep_proposer r) iid;
  Some {| rep_peers := rep_peers r; rep_learner := evlearner_set_instance_id (rep_learner r) iid;
          rep_proposer := p; rep_acceptor := rep_acceptor r; rep_app := rep_app r |}.

Definition send_trim_to (ps : peers peer_cb) (iid : Z) : option (peers peer_cb) :=
  peers_foreach_acceptor ps (peer_send_trim {| trim_iid := iid |}).
Definition evpaxos_replica_send_trim r (iid : Z) : option evpaxos_replica :=
  ps ← send_trim_to (rep_peers r) iid;
  Some (with_rep_peers r ps).

(** The loop over the acceptors from [i], [n] of them left. *)
Fixpoint submit_loop (n : nat) (i : Z) (ps : peers peer_cb) (value : option (list byte)) (size : Z) :
    option (peers peer_cb) :=
  match n with
  | O => Some ps
  | S n =>
      k ← peers_get_acceptor ps i;
      k ← k;
      p ← arr_get (peers_ ps) k;
      if peer_connected p then
        out ← paxos_submit (bev_output (bev p)) value size;
        l ← arr_set (peers_ ps) k (set_bev p {| bev_output := out; bev_link_ := bev_link_ (bev p);
                                               bev_enabled := bev_enabled (bev p) |});
        Some (with_peers ps l)
      else submit_loop n (i + 1) ps value size
  end.

Definition submit_to (ps : peers peer_cb) (value : option (list byte)) (size : Z) : option (peers peer_cb) :=
  submit_loop (Z.to_nat (peers_count ps)) 0 ps value size.
Definition evpaxos_replica_submit r (value : option (list byte)) (size : Z) : option evpaxos_replica :=
  ps ← submit_to (rep_peers r) value size;
  Some (with_rep_peers r ps).

Definition evpaxos_replica_count r : Z := peers_count (rep_peers r).

(** ** The callbacks *)

Context (clock : Z -> Proposer.timeval) (freed : Z -> Z) (out : paxos_message).

Definition replica_call (cb : peer_cb) r (ref : peer_ref) (m : paxos_message) : option evpaxos_replica :=
  let ps := rep_peers r in
  let acc res := '(ps, a) ← res; Some (with_rep_acceptor r ps a) in
  let pro res := '(ps, p) ← res; Some (with_rep_proposer r ps p) in
  match cb, m with
  | evacceptor_prepare_cb, PAXOS_PREPARE b => acc (evacceptor_handle_prepare ps (rep_acceptor r) ref b out)
  | evacceptor_accept_cb, PAXOS_ACCEPT b => acc (evacceptor_handle_accept ps (rep_acceptor r) ref b out)
  | evacceptor_repeat_cb, PAXOS_REPEAT b => acc (evacceptor_handle_repeat ps (rep_acceptor r) ref b)
  | evacceptor_trim_cb, PAXOS_TRIM b => acc (evacceptor_handle_trim ps (rep_acceptor r) ref b)
  | evproposer_promise_cb, PAXOS_PROMISE b => pro (evproposer_handle_promise clock ps (rep_proposer r) b)
  | evproposer_accepted_cb, PAXOS_ACCEPTED b => pro (evproposer_handle_accepted clock ps (rep_proposer r) b)
  | evproposer_preempted_cb, PAXOS_PREEMPTED b => pro (evproposer_handle_preempted clock ps (rep_proposer r) b)
  | evproposer_client_value_cb, PAXOS_CLIENT_VALUE b => pro (evproposer_handle_client_value clock ps (rep_proposer r) b)
  | evproposer_acceptor_state_cb, PAXOS_ACCEPTOR_STATE b => pro (evproposer_handle_acceptor_state ps (rep_proposer r) b)
  | evlearner_accepted_cb, PAXOS_ACCEPTED b =>
      '(w, l) ← evlearner_handle_accepted evpaxos_replica_deliver freed (rep_proposer r, (ps, rep_app r)) (rep_learner r) b;
      Some {| rep_peers := w.2.1; rep_learner := l; rep_proposer := w.1; rep_acceptor := rep_acceptor r;
              rep_app := w.2.2 |}
  | _, _ => None
  end.

Definition replica_dispatch := dispatch_message rep_peers replica_call.
End replica.

(** ** Submitting a value *)

Section submit.
Context `{MP : Msgpack}.
Implicit Types (ps : peers peer_cb).

Definition client_message (value : option (list byte)) (size : Z) : paxos_message :=
  PAXOS_CLIENT_VALUE {| client_value := {| paxos_value_len := size; paxos_value_val := value |} |}.

(** The peers after the message went to the first connected acceptor of those
    from [i]. *)
Definition submitted (i : nat) ps value size : peers peer_cb :=
  match list_find (fun p => peer_connected p) (drop i (peers_ ps)) with
  | Some (j, p) => with_peers ps (<[(i + j)%nat := written (client_message value size) p]> (peers_ ps))
  | None => ps
  end.

Lemma submit_loop_spec n i ps value size :
  acceptors_ok ps -> message_ok (client_message value size) -> (n + i = length (peers_ ps))%nat ->
  submit_loop n (Z.of_nat i) ps value size = Some (submitted i ps value size).
Proof.
  intros [Hc Hids] Hm. revert i. induction n as [|n IH]; intros i Hn; cbn [submit_loop].
  { unfold submitted. by rewrite drop_ge by lia. }
  destruct (lookup_lt_is_Some_2 (peers_ ps) i) as [p Hp]; [lia|].
  unfold peers_get_acceptor. rewrite (proj2 (Z.eqb_neq _ _)) by lia.
  rewrite get_acceptor_from_spec by (intros j q Hq; rewrite (Hids j q Hq); lia).
  rewrite (proj2 (Z.leb_le 0 _)), (proj2 (Z.ltb_lt _ _)) by lia. cbn [andb mbind option_bind].
  assert (arr_get (peers_ ps) (Z.of_nat i) = Some p) as -> by (apply arr_get_Some; rewrite Nat2Z.id; split; [lia|done]).
  cbn [mbind option_bind]. unfold submitted. rewrite (drop_S _ p) by done. cbn [list_find].
  destruct (peer_connected p) eqn:Hconn.
  - rewrite decide_True by done. unfold paxos_submit. fold (client_message value size). rewrite send_wire by done.
    cbn [mbind option_bind]. fold (written (client_message value size) p).
    destruct (arr_set_in (peers_ ps) (Z.of_nat i) (written (client_message value size) p)) as [l Hl]; [lia|].
    rewrite Hl. apply arr_set_Some in Hl as [_ ->]. simpl. by rewrite Nat2Z.id, Nat.add_0_r.
  - rewrite decide_False by by intros []. replace (Z.of_nat i + 1) with (Z.of_nat (S i)) by lia.
    rewrite IH by lia. f_equal. unfold submitted. destruct (list_find _ _) as [[j q]|]; [|done]. simpl.
    by rewrite Nat.add_succ_r.
Qed.
End submit.

(** [evpaxos_replica_submit] sends the value to exactly one acceptor, the
    first that is connected; without a connected acceptor the value is dropped
    without a notice. *)
Theorem submit_first_connected `{MP : Msgpack} {T H A} (r : evpaxos_replica (T := T) (H := H) (A := A)) value size :
  acceptors_ok (rep_peers r) -> message_ok (client_message value size) ->
  evpaxos_replica_submit r value size =
    Some (with_rep_peers r
      match list_find (fun p => peer_connected p) (peers_ (rep_peers r)) with
      | Some (i, p) => with_peers (rep_peers r) (<[i := written (client_message value size) p]> (peers_ (rep_peers r)))
      | None => rep_peers r
      end).
Proof.
  intros Hok Hm. unfold evpaxos_replica_submit, submit_to. pose proof Hok as [Hc _].
  rewrite (submit_loop_spec _ 0) by (done || lia). done.
Qed.

(** A replica that knows two acceptors, of which the second is connected. *)
Definition sample_addr : sockaddr_in := {| sin_port := 8800; sin_addr := 1 |}.
Definition sample_second : peer :=
  {| id := 1; status := BEV_EVENT_CONNECTED; bev := bufferevent_new; reconnect_ev := None; peer_addr := sample_addr |}.
Definition sample_two : peers peer_cb :=
  {| peers_count := 2; clients_count := 0; peers_ := [make_peer 0 sample_addr; sample_second]; clients := [];
     listener := None; config := empty_config; subs := [] |}.
Definition sample_replica : evpaxos_replica (T := Khash.khash) (H := mem_storage Khash.khash) (A := unit) :=
  {| rep_peers := sample_two; rep_learner := sample_evlearner; rep_proposer := sample_evproposer;
     rep_acceptor := {| ea_state := None; ea_timer := true |}; rep_app := tt |}.

Lemma submit_first_connected_witness :
  let MP := MsgpackFormat.format in
  let m := client_message (Some [byte_of_Z 7]) 1 in
  evpaxos_replica_submit sample_replica (Some [byte_of_Z 7]) 1 =
    Some (with_rep_peers sample_replica (with_peers sample_two [make_peer 0 sample_addr; written m sample_second])).
Proof.
  intros MP m. refine (submit_first_connected (MP := MP) sample_replica (Some [byte_of_Z 7]) 1 _ _).
  - split; [done|]. intros i p Hp. destruct i as [|[|i]]; simplify_eq/=; done.
  - unfold message_ok, value_ok. simpl. lia.
Defined.

(** ** Subscriptions *)

Definition replica_subs : list (subscription peer_cb) :=
  [Subscription 0 evacceptor_prepare_cb; Subscription 2 evacceptor_accept_cb; Subscription 5 evacceptor_repeat_cb;
   Subscription 6 evacceptor_trim_cb; Subscription 1 evproposer_promise_cb; Subscription 3 evproposer_accepted_cb;
   Subscription 4 evproposer_preempted_cb; Subscription 8 evproposer_client_value_cb;
   Subscription 7 evproposer_acceptor_state_cb; Subscription 3 evlearner_accepted_cb].

Lemma subscribe_subs {F} (ps ps' : peers F) t cb :
  peers_subscribe ps t cb = Some ps' -> subs ps' = subs ps ++ [Subscription t cb].
Proof. unfold peers_subscribe. destruct (_ <? 32); simpl; [|done]. by intros [= <-]. Qed.

Lemma connect_from_subs {F} inet_addr n i (ps ps' : peers F) :
  connect_from inet_addr n i ps = Some ps' -> subs ps' = subs ps.
Proof.
  revert i ps. induction n as [|n IH]; intros i ps; simpl; [by intros [= <-]|].
  destruct (evpaxos_acceptor_address _ _ _); simpl; [|done]. by intros ->%IH.
Qed.

(** The subscriptions of an initialisation that ran. *)
Ltac run_subs :=
  intros Hrun; repeat match type of Hrun with
  | (?x ≫= _) = Some _ => destruct x eqn:?; cbn [mbind option_bind] in Hrun; [|done]
  end;
  simplify_eq;
  repeat match goal with H : peers_subscribe _ _ _ = Some _ |- _ => apply subscribe_subs in H end;
  repeat match goal with H : subs ?p = _ |- context [subs ?p] => rewrite H end;
  by rewrite <- ?(assoc_L (++)).

Lemma evacceptor_init_subs `{SA : StorageApi H} id (s : H) ps ps' a :
  evacceptor_init_internal id s ps = Some (ps', a) -> subs ps' = subs ps ++ take 4 replica_subs.
Proof. unfold evacceptor_init_internal. run_subs. Qed.

Lemma evproposer_init_subs `{KH : KHash T} g id c ps ps' p :
  evproposer_init_internal (T := T) g id c ps = Some (ps', p) -> subs ps' = subs ps ++ take 5 (drop 4 replica_subs).
Proof. unfold evproposer_init_internal. run_subs. Qed.

Lemma evlearner_init_subs `{KH : KHash T} g c ps ps' l :
  evlearner_init_internal (T := T) g c ps = Some (ps', l) -> subs ps' = subs ps ++ drop 9 replica_subs.
Proof. unfold evlearner_init_internal. run_subs. Qed.

Lemma replica_init_subs `{KH : KHash T} `{SA : StorageApi H} {A} inet_addr bind g id config (s : H) (app : A) r :
  evpaxos_replica_init (T := T) inet_addr bind g id config s app = Some (Some r) -> subs (rep_peers r) = replica_subs.
Proof.
  unfold evpaxos_replica_init. intros Hrun. destruct config as [c|]; simpl in Hrun; [|done].
  destruct (peers_connect_to_acceptors _ _) as [ps0|] eqn:H0; simpl in Hrun; [|done].
  destruct (evacceptor_init_internal _ _ _) as [[ps1 a]|] eqn:H1; simpl in Hrun; [|done].
  destruct (evproposer_init_internal _ _ _ _) as [[ps2 p]|] eqn:H2; simpl in Hrun; [|done].
  destruct (evlearner_init_internal _ _ _) as [[ps3 l]|] eqn:H3; simpl in Hrun; [|done].
  destruct (evpaxos_acceptor_listen_port _ _); simpl in Hrun; [|done].
  apply connect_from_subs in H0. apply evacceptor_init_subs in H1. apply evproposer_init_subs in H2.
  apply evlearner_init_subs in H3. unfold peers_listen in Hrun. destruct (bind _); simpl in Hrun; [|done].
  simplify_eq. simpl. by rewrite H3, H2, H1, H0.
Qed.

(** In a replica that started an accepted message goes to the proposer first
    and then to the learner, a message of another type to the one role that
    handles it. *)
Theorem replica_dispatch_order `{KH : KHash T} `{SA : StorageApi H} `{MP : Msgpack} {A} inet_addr bind g id config
    (s : H) (app : A) r deliver clock freed out ref m :
  evpaxos_replica_init (T := T) inet_addr bind g id config s app = Some (Some r) ->
  let call := replica_call deliver clock freed out in
  replica_dispatch deliver clock freed out r ref m =
    match m with
    | PAXOS_PREPARE _ => call evacceptor_prepare_cb r ref m
    | PAXOS_PROMISE _ => call evproposer_promise_cb r ref m
    | PAXOS_ACCEPT _ => call evacceptor_accept_cb r ref m
    | PAXOS_ACCEPTED _ => r ← call evproposer_accepted_cb r ref m; call evlearner_accepted_cb r ref m
    | PAXOS_PREEMPTED _ => call evproposer_preempted_cb r ref m
    | PAXOS_REPEAT _ => call evacceptor_repeat_cb r ref m
    | PAXOS_TRIM _ => call evacceptor_trim_cb r ref m
    | PAXOS_ACCEPTOR_STATE _ => call evproposer_acceptor_state_cb r ref m
    | PAXOS_CLIENT_VALUE _ => call evproposer_client_value_cb r ref m
    end.
Proof.
  intros Hinit call. unfold replica_dispatch, dispatch_message. rewrite (replica_init_subs _ _ _ _ _ _ _ _ Hinit).
  unfold replica_subs. fold call. clearbody call. cbn [foldl].
  destruct m; cbn [paxos_message_type sub_type callback mbind option_bind Z.eqb Pos.eqb]; try done;
    by repeat match goal with |- context [call ?cb ?x ref ?m] =>
      destruct (call cb x ref m); cbn [mbind option_bind] end.
Qed.

(** A replica of a single acceptor, started with the storage in memory. *)
Definition sample_single : evpaxos_config :=
  {| proposers_count := 0; acceptors_count := 1; proposers := proposers empty_config;
     acceptors := <[0%nat := {| addr := Some [byte_of_Z 49]; port := 8800 |}]> (acceptors empty_config) |}.

Lemma sample_init_runs : exists r, evpaxos_replica_init (T := Khash.khash) (fun _ => 1) (fun _ => true)
  default_paxos_config 0 (Some sample_single) (mem_storage_new (T := Khash.khash)) tt = Some (Some r).
Proof.
  destruct (evpaxos_replica_init _ _ _ _ _ _ _) as [[r|]|] eqn:E; [by exists r|vm_compute in E; discriminate E..].
Qed.

Lemma replica_dispatch_order_witness :
  let MP := MsgpackFormat.format in
  let vote := PAXOS_ACCEPTED (sample_vote 0) in
  let clock _ := Proposer.Timeval 0 0 in
  exists r, evpaxos_replica_init (fun _ => 1) (fun _ => true) default_paxos_config 0 (Some sample_single)
      mem_storage_new tt = Some (Some r) /\
    replica_dispatch None clock (fun _ => 0) vote r (ClientPeer 0) vote =
      (r ← replica_call None clock (fun _ => 0) vote evproposer_accepted_cb r (ClientPeer 0) vote;
       replica_call None clock (fun _ => 0) vote evlearner_accepted_cb r (ClientPeer 0) vote).
Proof.
  intros MP vote clock. destruct sample_init_runs as [r E]. exists r. split; [exact E|].
  exact (replica_dispatch_order (MP := MP) (fun _ => 1) (fun _ => true) default_paxos_config 0
    (Some sample_single) mem_storage_new tt r None clock (fun _ => 0) vote (ClientPeer 0) vote E).
Defined.
