(* ===== verification/Counter.v ===== *)
(** * The replicated counter ([sample/counter.c])

    An application of the replica process: every replica counts the commands it
    is delivered, writes the count to a file at every hundredth instance, and
    announces to the others up to which instance it has done so; what every replica
    has written is trimmed.

    The operations of [evreplica.c] the application calls are the class
    [ReplicaApi]: the peers of a replica are one instance, the list of what was
    called another, with which the replicas of a system are put together below.
    The file ["state-<id>"] is the component [disk] of the application, [None] when
    there is none.  [None] as a result is undefined behaviour. *)

From S2P Require Import Prelude Bytes PaxosTypes EvConfig MessagePack TypesPack Peers.
From S2P Require Import KhashInterface Storage EvAcceptor EvProposer EvLearner EvReplica.
From Stdlib Require Import String.
#[local] Open Scope Z_scope.

(** ** The C library *)

(** ["%d"] *)
Definition print_int (z : Z) : cstring := if z <? 0 then x2d :: print_nat (- z) else print_nat z.

Fixpoint strip (prefix s : cstring) : option cstring :=
  match prefix, s with
  | [], _ => Some s
  | a :: prefix, b :: s => if decide (a = b) then strip prefix s else None
  | _ :: _, [] => None
  end.

(** What ["%d %d"] reads from [s]: none, one or two numbers. *)
Definition scan_two (s : cstring) : option (list Z) :=
  a ← scan_int s;
  match a with
  | None => Some []
  | Some (a, s) => b ← scan_int s; Some match b with None => [a] | Some (b, _) => [a; b] end
  end.

(** [sscanf(value, "TRIM %d %d", &replica_id, &trim_id)], the numbers when both
    are read.  The value has to be a string. *)
Definition sscanf_trim (value : list byte) : option (option (Z * Z)) :=
  assert_ (bool_decide (x00 ∈ value));;
  match strip (str "TRIM") (cstr value) with
  | None => Some None
  | Some s => l ← scan_two s; Some match l with [a; b] => Some (a, b) | _ => None end
  end.

(** ** The application *)

Class ReplicaApi (R : Type) := {
  replica_submit : R -> list byte -> Z -> option R;
  replica_send_trim : R -> Z -> option R;
}.

Record trim_info := TrimInfo { trim_count : Z; last_trim : Z; trim_instances : list Z }.

Record counter_replica := CounterReplica {
  ctr_id : Z;
  count : Z;
  instance_id : Z;
  trim : trim_info;
  disk : option (list byte);
}.

Definition with_count (c : counter_replica) (n i : Z) : counter_replica := CounterReplica (ctr_id c) n i (trim c) (disk c).
Definition with_trim (c : counter_replica) (t : trim_info) : counter_replica :=
  CounterReplica (ctr_id c) (count c) (instance_id c) t (disk c).
Definition with_disk (c : counter_replica) (d : option (list byte)) : counter_replica :=
  CounterReplica (ctr_id c) (count c) (instance_id c) (trim c) d.

(** [fscanf] through an [int] pointer to the [unsigned] instance. *)
Definition init_state (c : counter_replica) : option counter_replica :=
  let c := with_count c 0 0 in
  match disk c with
  | None => Some c
  | Some f =>
      l ← scan_two f;
      Some match l with
           | [] => c
           | [a] => with_count c a 0
           | a :: b :: _ => with_count c a (u32 b)
           end
  end.

(** [writable]: whether [fopen] succeeds; its result is not checked. *)
Definition checkpoint_state (writable : bool) (c : counter_replica) : option counter_replica :=
  assert_ writable;;
  Some (with_disk c (Some (print_int (count c) ++ str " " ++ print_int (i32 (instance_id c))))).

Definition update_state (c : counter_replica) (iid : Z) : counter_replica := with_count c (i32 (count c + 1)) iid.

(** The loop over [trim.instances]. *)
Fixpoint min_loop (n : nat) (i min : Z) (l : list Z) : option Z :=
  match n with
  | O => Some min
  | S n => x ← arr_get l i; min_loop n (i + 1) (if x <? min then x else min) l
  end.

Section counter.
Context `{RA : ReplicaApi R} (writable : bool).
Implicit Types (r : R) (c : counter_replica).

Definition update_trim_info r c (replica_id trim_id : Z) : option (R * counter_replica) :=
  let t := trim c in
  cur ← arr_get (trim_instances t) replica_id;
  if trim_id <=? cur then Some (r, c) else
  min ← arr_get (trim_instances t) 0;
  l ← arr_set (trim_instances t) replica_id trim_id;
  min ← min_loop (Z.to_nat (trim_count t)) 0 min l;
  if last_trim t <? min then
    r ← replica_send_trim r min;
    Some (r, with_trim c (TrimInfo (trim_count t) min l))
  else Some (r, with_trim c (TrimInfo (trim_count t) (last_trim t) l)).

(** The text fits into the buffer of 64 bytes. *)
Definition trim_value (id iid : Z) : list byte := str "TRIM " ++ print_int id ++ str " " ++ print_int (i32 iid) ++ [x00].

Definition submit_trim r c : option R :=
  let v := trim_value (ctr_id c) (instance_id c) in replica_submit r v (Z.of_nat (List.length v)).

Definition on_deliver r c (iid : Z) (value : option (list byte)) (size : Z) : option (R * counter_replica) :=
  v ← value;
  t ← sscanf_trim v;
  '(r, c) ← match t with
            | Some (replica_id, trim_id) => update_trim_info r c replica_id trim_id
            | None => Some (r, update_state c iid)
            end;
  if iid mod 100 =? 0 then
    c ← checkpoint_state writable c;
    r ← submit_trim r c;
    Some (r, c)
  else Some (r, c).

Definition count_value : list byte := str "COUNT" ++ [x00].

(** The timer is started again. *)
Definition on_client_value r : option R := replica_submit r count_value 6.
End counter.

(** ** On the replica process *)

#[global] Instance peers_replica `{MP : Msgpack} : ReplicaApi (peers peer_cb) := {|
  replica_submit ps v size := submit_to ps (Some v) size;
  replica_send_trim := send_trim_to;
|}.

Section start.
Context `{KH : KHash T} `{SA : StorageApi H} `{MP : Msgpack} (writable : bool).

(** The callback [on_deliver] in the form of [evreplica.c]. *)
Definition counter_deliver (ps : peers peer_cb) (c : counter_replica) iid value size :
    option (peers peer_cb * counter_replica) := on_deliver writable ps c iid value size.

Definition zero_trim (n : Z) : trim_info := TrimInfo n 0 (replicate 16 0).

(** [d] is the file; [Some None] is the exit of the process without a replica. *)
Definition start_replica (inet_addr : cstring -> Z) (bind : Z -> bool) (g : paxos_config) (id : Z)
    (config : option evpaxos_config) (s : H) (d : option (list byte)) :
    option (option (evpaxos_replica (T := T) (H := H) (A := counter_replica))) :=
  r ← evpaxos_replica_init inet_addr bind g id config s (CounterReplica id 0 0 (zero_trim 0) d);
  match r with
  | None => Some None
  | Some r =>
      c ← init_state (rep_app r);
      r ← evpaxos_replica_set_instance_id r (instance_id c);
      let c := with_trim c (zero_trim (evpaxos_replica_count r)) in
      Some (Some {| rep_peers := rep_peers r; rep_learner := rep_learner r; rep_proposer := rep_proposer r;
                    rep_acceptor := rep_acceptor r; rep_app := c |})
  end.
End start.

(** ** What a replica sends

    The calls a callback makes, in order. *)

Inductive effect := Submitted (v : list byte) (size : Z) | Trimmed (iid : Z).

#[global] Instance effects_replica : ReplicaApi (list effect) := {|
  replica_submit l v size := Some (l ++ [Submitted v size]);
  replica_send_trim l iid := Some (l ++ [Trimmed iid]);
|}.

Definition replay `{ReplicaApi R} (r : option R) (e : effect) : option R :=
  r ← r; match e with Submitted v size => replica_submit r v size | Trimmed iid => replica_send_trim r iid end.

(** ** Lemmas on the texts *)

Lemma scan_int_print n s :
  0 <= n < 2 ^ 31 -> match s with b :: _ => isdigit b = false | [] => True end ->
  scan_int (print_nat n ++ s) = Some (Some (n, s)).
Proof.
  intros Hn Hs. unfold scan_int. rewrite read_number_print by (done || lia). cbn beta iota.
  by rewrite (proj2 (Z.leb_le _ n)), (proj2 (Z.ltb_lt n _)) by lia.
Qed.

Lemma scan_int_space s : scan_int (str " " ++ s) = scan_int s.
Proof. done. Qed.

Lemma scan_two_space s : scan_two (str " " ++ s) = scan_two s.
Proof. done. Qed.

Lemma print_int_nat n : 0 <= n -> print_int n = print_nat n.
Proof. intros. unfold print_int. by destruct (Z.ltb_spec n 0); [lia|]. Qed.

(** Two printed numbers are read back. *)
Lemma scan_two_print a b s :
  0 <= a < 2 ^ 31 -> 0 <= b < 2 ^ 31 -> match s with x :: _ => isdigit x = false | [] => True end ->
  scan_two (print_int a ++ str " " ++ print_int b ++ s) = Some [a; b].
Proof.
  intros Ha Hb Hs. rewrite !print_int_nat by lia. unfold scan_two.
  rewrite scan_int_print by done. cbn [mbind option_bind]. rewrite scan_int_space, scan_int_print by done. done.
Qed.

Lemma cstr_digits l s : Forall digit l -> cstr (l ++ s) = l ++ cstr s.
Proof.
  induction 1 as [|b l Hb _ IH]; [done|]. cbn [app cstr]. unfold digit in Hb.
  destruct (Z.eqb_spec (Z_of_byte b) 0); [lia|]. by rewrite IH.
Qed.

(** The announcement of a replica is understood by the others. *)
Lemma sscanf_trim_value id iid :
  0 <= id < 2 ^ 31 -> 0 <= iid < 2 ^ 31 -> sscanf_trim (trim_value id iid) = Some (Some (id, iid)).
Proof.
  intros Hid Hiid. unfold sscanf_trim. rewrite bool_decide_eq_true_2; cbn [assert_ mbind option_bind].
  - unfold trim_value. rewrite i32_small by lia.
    assert (cstr (str "TRIM " ++ print_int id ++ str " " ++ print_int iid ++ [x00]) =
            str "TRIM" ++ str " " ++ print_int id ++ str " " ++ print_int iid ++ []) as ->.
    { rewrite !print_int_nat by lia. cbn [str list_byte_of_string app cstr]. simpl.
      do 5 f_equal. rewrite cstr_digits by (apply print_nat_digit; lia). f_equal. cbn [cstr]. simpl. f_equal.
      by rewrite cstr_digits by (apply print_nat_digit; lia). }
    assert (forall t, strip (str "TRIM") (str "TRIM" ++ t) = Some t) as -> by done.
    rewrite scan_two_space, scan_two_print by done. done.
  - unfold trim_value. set_solver.
Qed.

Lemma sscanf_count : sscanf_trim count_value = Some None.
Proof. by vm_compute. Qed.

(** ** The calls decide what is sent

    What [on_deliver] does to the peers is what its calls do, one after the
    other. *)

Notation calls := (list effect).

Lemma update_trim_info_replay `{ReplicaApi R} (r : R) c i t :
  update_trim_info r c i t =
    ('(es, c) ← update_trim_info ([] : calls) c i t; r ← foldl replay (Some r) es; Some (r, c)).
Proof.
  unfold update_trim_info. destruct (arr_get _ i) as [cur|]; cbn [mbind option_bind]; [|done].
  destruct (t <=? cur); [done|]. destruct (arr_get _ 0) as [m|]; cbn [mbind option_bind]; [|done].
  destruct (arr_set _ _ _) as [l|]; cbn [mbind option_bind]; [|done].
  destruct (min_loop _ _ _ _) as [mn|]; cbn [mbind option_bind]; [|done].
  destruct (last_trim (trim c) <? mn); [|done]. cbn. by destruct (replica_send_trim r mn).
Qed.

Lemma on_deliver_replay `{ReplicaApi R} writable (r : R) c iid v size :
  on_deliver writable r c iid v size =
    ('(es, c) ← on_deliver writable ([] : calls) c iid v size; r ← foldl replay (Some r) es; Some (r, c)).
Proof.
  unfold on_deliver. destruct v as [v|]; cbn [mbind option_bind]; [|done].
  destruct (sscanf_trim v) as [t|]; cbn [mbind option_bind]; [|done].
  set (k := fun (R : Type) (RA : ReplicaApi R) (x : R * counter_replica) =>
    let '(r, c) := x in
    if iid mod 100 =? 0 then c ← checkpoint_state writable c; r ← submit_trim r c; Some (r, c) else Some (r, c)).
  assert (forall es c, (r ← foldl replay (Some r) es; k R _ (r, c)) =
    ('(es, c) ← k calls _ (es, c); r ← foldl replay (Some r) es; Some (r, c))) as Hk.
  { intros es c1. unfold k. destruct (foldl replay (Some r) es) as [r1|] eqn:E; cbn [mbind option_bind].
    - destruct (iid mod 100 =? 0); cbn [mbind option_bind]; [|by rewrite E].
      destruct (checkpoint_state writable c1) as [c2|]; cbn [mbind option_bind]; [|done].
      unfold submit_trim. cbn [replica_submit effects_replica mbind option_bind].
      rewrite foldl_app, E. cbn. by destruct (replica_submit r1 _ _).
    - destruct (iid mod 100 =? 0); cbn [mbind option_bind]; [|by rewrite E].
      destruct (checkpoint_state writable c1) as [c2|]; cbn [mbind option_bind]; [|done].
      unfold submit_trim. cbn [replica_submit effects_replica mbind option_bind]. by rewrite foldl_app, E. }
  fold (k R _). fold (k calls _). destruct t as [[i t]|].
  - rewrite update_trim_info_replay. destruct (update_trim_info ([] : calls) c i t) as [[es c1]|];
      cbn [mbind option_bind]; [|done]. rewrite <- Hk. by destruct (foldl _ _ _).
  - apply (Hk []).
Qed.

(** ** A system of replicas

    The replicas are delivered the values of one log, instance by instance.  A value
    of the log was submitted by some replica; a replica may stop at any time between two
    callbacks and start again from its file, with the instance behind the one it
    has written. *)

Module System.

Record node := Node { ctr : counter_replica; pos : Z }.

Record system := Sys {
  log : list (list byte);
  sent : list (list byte);
  trims : list Z;
  nodes : list node;
}.

(** What [start_replica] makes of the file, in a system of [n] replicas. *)
Definition restart (n id : Z) (d : option (list byte)) : option node :=
  c ← init_state (CounterReplica id 0 0 (zero_trim 0) d);
  Some (Node (with_trim c (zero_trim n)) (instance_id c)).

Definition fresh (n id : Z) : node := Node (CounterReplica id 0 0 (zero_trim n) None) 0.

Definition init (n : nat) : system := Sys [] [] [] (map (fresh (Z.of_nat n)) (seqZ 0 (Z.of_nat n))).

Definition submitted (es : calls) : list (list byte) :=
  omap (fun e => match e with Submitted v _ => Some v | Trimmed _ => None end) es.
Definition trimmed (es : calls) : list Z :=
  omap (fun e => match e with Trimmed i => Some i | Submitted _ _ => None end) es.

Definition send (s : system) (es : calls) : system :=
  Sys (log s) (sent s ++ submitted es) (trims s ++ trimmed es) (nodes s).
Definition with_node (s : system) (k : nat) (x : node) : system :=
  Sys (log s) (sent s) (trims s) (<[k := x]> (nodes s)).

Inductive step : system -> system -> Prop :=
  | step_client s es : on_client_value ([] : calls) = Some es -> step s (send s es)
  | step_decide s v : v ∈ sent s -> step s (Sys (log s ++ [v]) (sent s) (trims s) (nodes s))
  | step_deliver s k x v es c :
      nodes s !! k = Some x -> log s !! Z.to_nat (pos x) = Some v ->
      on_deliver true ([] : calls) (ctr x) (pos x + 1) (Some v) (Z.of_nat (List.length v)) = Some (es, c) ->
      step s (send (with_node s k (Node c (pos x + 1))) es)
  | step_restart s k x y :
      nodes s !! k = Some x -> restart (Z.of_nat (List.length (nodes s))) (Z.of_nat k) (disk (ctr x)) = Some y ->
      step s (with_node s k y).

Definition reachable (n : nat) : system -> Prop := rtc step (init n).

(** *** The state a prefix of the log leads to *)

Definition counts (v : list byte) : bool := match sscanf_trim v with Some (Some _) => false | _ => true end.

(** The number of counted values and the instance of the last one. *)
Fixpoint replayed (n i iid : Z) (l : list (list byte)) : Z * Z :=
  match l with
  | [] => (n, i)
  | v :: l => if counts v then replayed (n + 1) (iid + 1) (iid + 1) l else replayed n i (iid + 1) l
  end.

Definition state_at (l : list (list byte)) (p : Z) : Z * Z := replayed 0 0 0 (take (Z.to_nat p) l).

(** A schedule, executed. *)
Inductive action := Client | Decide (i : nat) | Deliver (k : nat) | Restart (k : nat).

Definition act (s : system) (a : action) : option system :=
  match a with
  | Client => es ← on_client_value ([] : calls); Some (send s es)
  | Decide i => v ← sent s !! i; Some (Sys (log s ++ [v]) (sent s) (trims s) (nodes s))
  | Deliver k =>
      x ← nodes s !! k;
      v ← log s !! Z.to_nat (pos x);
      '(es, c) ← on_deliver true ([] : calls) (ctr x) (pos x + 1) (Some v) (Z.of_nat (List.length v));
      Some (send (with_node s k (Node c (pos x + 1))) es)
  | Restart k =>
      x ← nodes s !! k;
      y ← restart (Z.of_nat (List.length (nodes s))) (Z.of_nat k) (disk (ctr x));
      Some (with_node s k y)
  end.

Fixpoint exec (l : list action) (s : system) : option system :=
  match l with [] => Some s | a :: l => s ← act s a; exec l s end.

Lemma act_step s a s' : act s a = Some s' -> step s s'.
Proof.
  destruct a as [|i|k|k]; cbn [act]; intros Ha.
  - destruct (on_client_value _) as [es|] eqn:?; cbn [mbind option_bind] in Ha; [|done]. simplify_eq. by constructor.
  - destruct (sent s !! i) as [v|] eqn:?; cbn [mbind option_bind] in Ha; [|done]. simplify_eq. constructor.
    by eapply list_elem_of_lookup_2.
  - destruct (nodes s !! k) as [x|] eqn:?; cbn [mbind option_bind] in Ha; [|done].
    destruct (log s !! _) as [v|] eqn:?; cbn [mbind option_bind] in Ha; [|done].
    destruct (on_deliver _ _ _ _ _ _) as [[es c]|] eqn:?; cbn [mbind option_bind] in Ha; [|done].
    simplify_eq. by econstructor.
  - destruct (nodes s !! k) as [x|] eqn:?; cbn [mbind option_bind] in Ha; [|done].
    destruct (restart _ _ _) as [y|] eqn:?; cbn [mbind option_bind] in Ha; [|done]. simplify_eq. by econstructor.
Qed.

Lemma exec_reachable n l s : exec l (init n) = Some s -> reachable n s.
Proof.
  unfold reachable. generalize (init n). induction l as [|a l IH]; intros s0; cbn [exec].
  - intros [= <-]. done.
  - destruct (act s0 a) as [s1|] eqn:E; cbn [mbind option_bind]; [|done]. intros Hl.
    eapply rtc_l; [by eapply act_step|]. by apply IH.
Qed.

(** *** Prefixes of the log *)

Lemma replayed_snoc n i iid l v :
  replayed n i iid (l ++ [v]) =
    let '(n, i) := replayed n i iid l in
    if counts v then (n + 1, iid + Z.of_nat (List.length l) + 1) else (n, i).
Proof.
  revert n i iid. induction l as [|w l IH]; intros n i iid; cbn [app replayed List.length].
  - destruct (counts v); [|done]. by rewrite Z.add_0_r.
  - destruct (counts w); rewrite IH; destruct (replayed _ _ _ l); (destruct (counts v); [|done]); f_equal; lia.
Qed.

Lemma state_at_0 l : state_at l 0 = (0, 0).
Proof. done. Qed.

Lemma state_at_S l p v : 0 <= p -> l !! Z.to_nat p = Some v ->
  state_at l (p + 1) = let '(n, i) := state_at l p in if counts v then (n + 1, p + 1) else (n, i).
Proof.
  intros Hp Hv. unfold state_at. replace (Z.to_nat (p + 1)) with (S (Z.to_nat p)) by lia.
  rewrite (take_S_r _ _ v) by done. rewrite replayed_snoc. destruct (replayed _ _ _ _).
  pose proof (lookup_lt_Some _ _ _ Hv) as Hlt. rewrite length_take_le by lia. by rewrite Z2Nat.id by lia.
Qed.

Lemma state_at_app l l' p : p <= Z.of_nat (List.length l) -> state_at (l ++ l') p = state_at l p.
Proof. intros. unfold state_at. by rewrite take_app_le by lia. Qed.

(** The instance of the last counted value has the same count. *)
Lemma state_at_last l (p : nat) : (p <= List.length l)%nat ->
  let '(n, i) := state_at l (Z.of_nat p) in 0 <= n <= i /\ i <= Z.of_nat p /\ state_at l i = (n, i).
Proof.
  induction p as [|p IH]; intros Hp; [by rewrite state_at_0|].
  destruct (lookup_lt_is_Some_2 l p) as [v Hv]; [lia|]. replace (Z.of_nat (S p)) with (Z.of_nat p + 1) by lia.
  pose proof (state_at_S l (Z.of_nat p) v ltac:(lia)) as HS. rewrite Nat2Z.id in HS. specialize (HS Hv).
  specialize (IH ltac:(lia)). destruct (state_at l (Z.of_nat p)) as [n i] eqn:E. rewrite HS.
  destruct (counts v); [|destruct IH as (? & ? & ?); repeat split; (lia || done)].
  rewrite HS. repeat split; lia.
Qed.
End System.
