(* ===== verification/CounterInv.v ===== *)
(** * The counter replicas agree, and trim only what all of them have saved

    The invariant of the systems of [Counter.System] with the theorems on the
    application: the count of a replica is the number of commands delivered to it,
    whatever restarts there were; an instance is trimmed only when every replica has
    a checkpoint behind it.  Flaws: [own_trim_ignored], [torn_checkpoint]. *)

From S2P Require Import Prelude EvConfig Counter.
From Stdlib Require Import String.
#[local] Open Scope Z_scope.
Import System.

(** The file of a replica that has saved the state at instance [i]. *)
Definition saved (l : list (list byte)) (d : option (list byte)) (i : Z) : Prop :=
  0 <= i <= Z.of_nat (List.length l) /\ exists n, state_at l i = (n, i) /\
  ((d = None /\ i = 0) \/ d = Some (print_int n ++ str " " ++ print_int i)).

Lemma min_loop_spec k : forall i m (l : list Z), 0 <= i -> i + Z.of_nat k <= Z.of_nat (List.length l) ->
  exists r, min_loop k i m l = Some r /\ r <= m /\
    forall j v, (i <= Z.of_nat j < i + Z.of_nat k) -> l !! j = Some v -> r <= v.
Proof.
  induction k as [|k IH]; intros i m l Hi Hl; cbn [min_loop].
  { exists m. split_and!; [done|lia|]. intros; lia. }
  destruct (arr_get_in l i ltac:(lia)) as [v Hv]. rewrite Hv. cbn [mbind option_bind].
  destruct (IH (i + 1) (if v <? m then v else m) l) as (r & Hr & Hm & Hall); [lia..|].
  exists r. split; [done|]. apply arr_get_Some in Hv as [_ Hv].
  destruct (Z.ltb_spec v m); (split; [lia|]); intros j w Hj Hw;
    (destruct (decide (Z.of_nat j = i)) as [<-|]; [rewrite Nat2Z.id in Hv; simplify_eq; lia|apply (Hall j); [lia|done]]).
Qed.

Section inv.
Context (n : nat) (Hn : (1 <= n <= 16)%nat).
Implicit Types (floor : nat -> Z) (l : list (list byte)) (x : node) (t : trim_info).

(** [floor k] is the instance replica [k] has saved. *)
Definition trim_ok floor t : Prop :=
  trim_count t = Z.of_nat n /\ List.length (trim_instances t) = 16%nat /\ 0 <= last_trim t /\
  forall j v, (j < n)%nat -> trim_instances t !! j = Some v -> 0 <= v <= floor j.

Definition node_ok floor l k x : Prop :=
  ctr_id (ctr x) = Z.of_nat k /\ 0 <= pos x <= Z.of_nat (List.length l) /\
  state_at l (pos x) = (count (ctr x), instance_id (ctr x)) /\
  saved l (disk (ctr x)) (floor k) /\ floor k <= instance_id (ctr x) /\ trim_ok floor (trim (ctr x)).

Definition value_ok floor (v : list byte) : Prop :=
  v = count_value \/ exists k i, (k < n)%nat /\ 0 <= i <= floor k /\ v = trim_value (Z.of_nat k) i.

Definition inv_with floor (s : system) : Prop :=
  List.length (nodes s) = n /\ (forall k x, nodes s !! k = Some x -> node_ok floor (log s) k x) /\
  Forall (value_ok floor) (sent s) /\ Forall (value_ok floor) (log s) /\
  Forall (fun i => forall k, (k < n)%nat -> i <= floor k) (trims s).

(** *** Monotonicity *)

Definition le_floor floor floor' : Prop := forall k, floor k <= floor' k.

Lemma trim_ok_mono floor floor' t : le_floor floor floor' -> trim_ok floor t -> trim_ok floor' t.
Proof.
  intros Hle (? & ? & ? & Hi). split_and!; [done..|]. intros j v Hj Hv. specialize (Hi j v Hj Hv). specialize (Hle j). lia.
Qed.

Lemma value_ok_mono floor floor' v : le_floor floor floor' -> value_ok floor v -> value_ok floor' v.
Proof.
  intros Hle [->|(k & i & Hk & Hi & ->)]; [by left|right]. exists k, i. specialize (Hle k). split_and!; (done || lia).
Qed.

Lemma saved_app l l' d i : saved l d i -> saved (l ++ l') d i.
Proof.
  intros (Hi & m & Hm & Hd). split; [rewrite length_app; lia|]. exists m. by rewrite state_at_app by lia.
Qed.

Lemma node_ok_app floor l l' k x : node_ok floor l k x -> node_ok floor (l ++ l') k x.
Proof.
  intros (? & ? & Hst & Hsv & ? & ?). rewrite <- (state_at_app l l') in Hst by lia.
  split_and!; try done; try (rewrite ?length_app; lia). by apply saved_app.
Qed.

Lemma saved_0 l : saved l None 0.
Proof. split; [lia|]. exists 0. by split; [|left]. Qed.

(** *** The operations *)

(** A replica starts again where it has saved. *)
Lemma restart_saved l id d i : saved l d i -> Z.of_nat (List.length l) < 2 ^ 31 ->
  exists m, restart (Z.of_nat n) id d = Some (Node (CounterReplica id m i (zero_trim (Z.of_nat n)) d) i) /\
    state_at l i = (m, i).
Proof.
  intros (Hi & m & Hm & Hd) Hl. exists m. split; [|done].
  pose proof (state_at_last l (Z.to_nat i) ltac:(lia)) as Hr. rewrite Z2Nat.id, Hm in Hr by lia.
  destruct Hd as [[-> ->]| ->]; unfold restart, init_state; cbn [disk with_count].
  - rewrite state_at_0 in Hm. by simplify_eq.
  - pose proof (scan_two_print m i [] ltac:(lia) ltac:(lia) I) as E. rewrite app_nil_r in E. rewrite E.
    cbn [mbind option_bind]. by rewrite u32_small by lia.
Qed.

(** An announcement: what is trimmed is behind the checkpoint of no replica. *)
Lemma update_trim_ok floor c (k : nat) i :
  trim_ok floor (trim c) -> (k < n)%nat -> 0 <= i <= floor k ->
  exists es t, update_trim_info ([] : calls) c (Z.of_nat k) i = Some (es, with_trim c t) /\ trim_ok floor t /\
    submitted es = [] /\ Forall (fun m => forall j, (j < n)%nat -> m <= floor j) (trimmed es).
Proof.
  intros (Hc & Hlen & Hlt & Hall) Hk Hi. unfold update_trim_info.
  destruct (arr_get_in (trim_instances (trim c)) (Z.of_nat k) ltac:(lia)) as [cur Hcur]. rewrite Hcur. cbn [mbind option_bind].
  destruct (Z.leb_spec i cur) as [Hle|Hgt].
  { exists [], (trim c). by destruct c. }
  destruct (arr_get_in (trim_instances (trim c)) 0 ltac:(lia)) as [m0 Hm0]. rewrite Hm0. cbn [mbind option_bind].
  destruct (arr_set_in (trim_instances (trim c)) (Z.of_nat k) i ltac:(lia)) as [l Hl]. rewrite Hl. cbn [mbind option_bind].
  pose proof (arr_set_length _ _ _ _ Hl) as Hlen'. apply arr_set_Some in Hl as [_ Hl]. rewrite Nat2Z.id in Hl.
  destruct (min_loop_spec (Z.to_nat (trim_count (trim c))) 0 m0 l ltac:(lia) ltac:(lia)) as (m & Hm & _ & Hmin).
  rewrite Hm. cbn [mbind option_bind].
  assert (forall j v, (j < n)%nat -> l !! j = Some v -> 0 <= v <= floor j) as Hnew.
  { intros j v Hj Hv. subst l. destruct (decide (k = j)) as [<-|].
    - rewrite list_lookup_insert_eq in Hv by lia. simplify_eq. lia.
    - rewrite list_lookup_insert_ne in Hv by done. by apply Hall. }
  assert (forall j, (j < n)%nat -> m <= floor j) as Hfl.
  { intros j Hj. destruct (lookup_lt_is_Some_2 l j) as [v Hv]; [lia|].
    specialize (Hmin j v ltac:(lia) Hv). specialize (Hnew j v Hj Hv). lia. }
  destruct (Z.ltb_spec (last_trim (trim c)) m); eexists _, _; (split; [done|]);
    (split; [split_and!; cbn; try done; lia|]); split; try done; cbn; by constructor.
Qed.

(** *** Delivery *)

Definition raise floor (k : nat) (f : Z) : nat -> Z := fun j => if decide (j = k) then f else floor j.

Lemma raise_le floor k f : floor k <= f -> le_floor floor (raise floor k f).
Proof. intros Hf j. unfold raise. case_decide; subst; lia. Qed.

Lemma raise_same floor k : le_floor (raise floor k (floor k)) floor.
Proof. intros j. unfold raise. case_decide; subst; lia. Qed.

(** The first half of [on_deliver]. *)
Lemma value_delivered floor l k x v :
  node_ok floor l k x -> value_ok floor v -> (forall j, (j < n)%nat -> 0 <= floor j < 2 ^ 31) ->
  l !! Z.to_nat (pos x) = Some v -> Z.of_nat (List.length l) < 2 ^ 31 ->
  exists r es c, sscanf_trim v = Some r /\
    match r with
    | Some (replica_id, trim_id) => update_trim_info ([] : calls) (ctr x) replica_id trim_id
    | None => Some ([], update_state (ctr x) (pos x + 1))
    end = Some (es, c) /\
    node_ok floor l k (Node c (pos x + 1)) /\ submitted es = [] /\
    Forall (fun m => forall j, (j < n)%nat -> m <= floor j) (trimmed es).
Proof.
  intros (Hid & Hpos & Hst & Hsv & Hfl & Ht) Hv Hfloor Hlog Hlen.
  pose proof (state_at_S l (pos x) v ltac:(lia) Hlog) as HS. rewrite Hst in HS.
  pose proof (state_at_last l (Z.to_nat (pos x)) ltac:(lia)) as Hr. rewrite Z2Nat.id, Hst in Hr by lia.
  pose proof (lookup_lt_Some _ _ _ Hlog) as Hlt.
  destruct Hv as [->|(j & i & Hj & Hi & ->)].
  - rewrite sscanf_count. eexists _, _, _. split; [done|]. split; [done|]. split; [|done].
    unfold counts in HS. rewrite sscanf_count in HS.
    unfold node_ok, update_state. cbn. rewrite i32_small by lia. split_and!; (done || lia).
  - specialize (Hfloor j Hj). rewrite sscanf_trim_value by lia.
    destruct (update_trim_ok floor (ctr x) j i Ht Hj ltac:(lia)) as (es & t & Hup & Ht' & Hes & Htr).
    eexists _, _, _. split; [done|]. split; [exact Hup|]. split; [|done].
    unfold counts in HS. rewrite sscanf_trim_value in HS by lia.
    unfold node_ok. cbn. split_and!; (done || lia).
Qed.

Lemma deliver_ok floor l k x v size :
  node_ok floor l k x -> (k < n)%nat -> value_ok floor v -> (forall j, (j < n)%nat -> 0 <= floor j < 2 ^ 31) ->
  l !! Z.to_nat (pos x) = Some v -> Z.of_nat (List.length l) < 2 ^ 31 ->
  exists es c f, on_deliver true ([] : calls) (ctr x) (pos x + 1) (Some v) size = Some (es, c) /\ floor k <= f /\
    node_ok (raise floor k f) l k (Node c (pos x + 1)) /\ Forall (value_ok (raise floor k f)) (submitted es) /\
    Forall (fun m => forall j, (j < n)%nat -> m <= floor j) (trimmed es).
Proof.
  intros Hx Hk Hv Hfl Hlog Hlen. destruct (value_delivered _ _ _ _ _ Hx Hv Hfl Hlog Hlen) as (r & es & c & Hr & Hc & Hok & Hes & Htr).
  unfold on_deliver. cbn [mbind option_bind]. rewrite Hr. cbn [mbind option_bind]. rewrite Hc. cbn [mbind option_bind].
  destruct Hok as (Hid & Hpos & Hst & Hsv & Hle & Ht). cbn [ctr pos] in *.
  destruct ((pos x + 1) mod 100 =? 0).
  - cbn. eexists _, _, (instance_id c). split; [done|]. split; [done|].
    pose proof (state_at_last l (Z.to_nat (pos x + 1)) ltac:(lia)) as Hi. rewrite Z2Nat.id, Hst in Hi by lia.
    assert (raise floor k (instance_id c) k = instance_id c) as Hsame by (unfold raise; by rewrite decide_True).
    split; [|split].
    + unfold node_ok. cbn. rewrite Hsame. split_and!; try (done || lia).
      * split; [lia|]. exists (count c). split; [tauto|right]. by rewrite i32_small by lia.
      * eapply trim_ok_mono; [by apply raise_le|done].
    + unfold submitted. rewrite omap_app. fold (submitted es). rewrite Hes. cbn. constructor; [|done].
      right. exists k, (instance_id c). rewrite Hsame, Hid. split_and!; (done || lia).
    + unfold trimmed. rewrite omap_app. fold (trimmed es). by rewrite app_nil_r.
  - eexists _, _, (floor k). split; [done|]. split; [lia|].
    assert (raise floor k (floor k) k = floor k) as Hsame by (unfold raise; by rewrite decide_True).
    split; [|by rewrite Hes].
    unfold node_ok. cbn [ctr pos]. rewrite Hsame. split_and!; try (done || lia).
    eapply trim_ok_mono; [by apply raise_le|done].
Qed.

(** *** Steps *)

Lemma floor_range floor s k : inv_with floor s -> (k < n)%nat -> 0 <= floor k <= Z.of_nat (List.length (log s)).
Proof.
  intros (Hlen & Hnodes & _) Hk. destruct (lookup_lt_is_Some_2 (nodes s) k) as [x Hx]; [lia|].
  by destruct (Hnodes _ _ Hx) as (_ & _ & _ & [Hi _] & _).
Qed.

Lemma counter_init_inv : inv_with (fun _ => 0) (init n).
Proof.
  unfold inv_with, init. cbn. split_and!; try done.
  - rewrite length_map, length_seqZ. lia.
  - intros k x Hx. apply list_lookup_fmap_Some in Hx as (i & -> & [-> Hi]%lookup_seqZ).
    unfold node_ok, fresh. cbn. split_and!; try (done || lia); [apply saved_0|].
    unfold trim_ok. cbn. split_and!; try (done || lia). intros j v _ Hv.
    change (replicate 16 0 !! j = Some v) in Hv. apply lookup_replicate in Hv as [-> _]. lia.
Qed.

(** One node and what it sent change. *)
Lemma with_node_ok floor s k x es f :
  inv_with floor s -> (k < n)%nat -> floor k <= f -> node_ok (raise floor k f) (log s) k x ->
  Forall (value_ok (raise floor k f)) (submitted es) ->
  Forall (fun m => forall j, (j < n)%nat -> m <= floor j) (trimmed es) ->
  inv_with (raise floor k f) (send (with_node s k x) es).
Proof.
  intros (Hlen & Hnodes & Hsent & Hlog & Htrims) Hk Hf Hx Hsub Htr. pose proof (raise_le floor k f Hf) as Hle.
  unfold inv_with. cbn. split_and!.
  - by rewrite length_insert.
  - intros j y Hy. apply list_lookup_insert_Some in Hy as [(-> & <- & _)|[Hjk Hy]]; [done|].
    destruct (Hnodes _ _ Hy) as (? & ? & ? & ? & ? & ?). unfold node_ok, raise. rewrite decide_False by congruence.
    split_and!; try (done || lia). by eapply trim_ok_mono.
  - apply Forall_app. split; [|done]. eapply Forall_impl; [done|]. intros. by eapply value_ok_mono.
  - eapply Forall_impl; [done|]. intros. by eapply value_ok_mono.
  - apply Forall_app. split; (eapply Forall_impl; [done|]); intros m Hm j Hj; specialize (Hm j Hj); specialize (Hle j); lia.
Qed.

Lemma counter_step_inv floor s s' :
  inv_with floor s -> step s s' -> Z.of_nat (List.length (log s)) < 2 ^ 31 -> exists floor', inv_with floor' s'.
Proof.
  intros Hinv Hstep Hmax. pose proof Hinv as (Hlen & Hnodes & Hsent & Hlog & Htrims).
  assert (forall j, (j < n)%nat -> 0 <= floor j < 2 ^ 31) as Hfl.
  { intros j Hj. pose proof (floor_range _ _ _ Hinv Hj). lia. }
  destruct Hstep as [s es Hes|s v Hv|s k x v es c Hx Hv Hdel|s k x y Hx Hy].
  - exists floor. injection Hes as <-. unfold inv_with. cbn. rewrite app_nil_r. split_and!; try done.
    apply Forall_app. split; [done|]. constructor; [by left|done].
  - exists floor. unfold inv_with. cbn. split_and!; try done.
    + intros k x Hx. by apply node_ok_app, Hnodes.
    + apply Forall_app. split; [done|]. constructor; [|done]. by eapply Forall_forall in Hv.
  - pose proof (lookup_lt_Some _ _ _ Hx) as Hk. rewrite Hlen in Hk.
    assert (value_ok floor v) as Hval by (eapply Forall_lookup_1 in Hlog; done).
    destruct (deliver_ok floor (log s) k x v (Z.of_nat (List.length v)) (Hnodes _ _ Hx) Hk Hval Hfl Hv Hmax)
      as (es' & c' & f & Hdel' & Hf & Hok & Hsub & Htr).
    rewrite Hdel in Hdel'. simplify_eq. exists (raise floor k f). by apply with_node_ok.
  - pose proof (lookup_lt_Some _ _ _ Hx) as Hk. rewrite Hlen in Hk, Hy.
    destruct (Hnodes _ _ Hx) as (_ & _ & _ & Hsv & _).
    destruct (restart_saved (log s) (Z.of_nat k) _ _ Hsv Hmax) as (m & Hy' & Hm). rewrite Hy in Hy'. simplify_eq.
    exists (raise floor k (floor k)).
    assert (forall y, with_node s k y = send (with_node s k y) []) as ->.
    { intros y. unfold send, with_node. cbn. by rewrite !app_nil_r. }
    apply with_node_ok; try done. unfold node_ok, raise. rewrite decide_True by done. cbn.
    pose proof Hsv as [? _]. split_and!; try (done || lia). unfold trim_ok. cbn. split_and!; try (done || lia).
    intros j v Hj Hv. change (replicate 16 0 !! j = Some v) in Hv. apply lookup_replicate in Hv as [-> _].
    case_decide; [lia|]. specialize (Hfl j Hj). lia.
Qed.

Lemma step_log s s' : step s s' -> (List.length (log s) <= List.length (log s'))%nat.
Proof. destruct 1; cbn; rewrite ?length_app; lia. Qed.

Lemma counter_reachable_inv s : reachable n s -> Z.of_nat (List.length (log s)) < 2 ^ 31 -> exists floor, inv_with floor s.
Proof.
  unfold reachable. intros Hr. revert s Hr. refine (rtc_ind_r _ _ _ _); [|intros s s' _ Hstep IH]; intros Hmax.
  - exists (fun _ => 0). apply counter_init_inv.
  - pose proof (step_log _ _ Hstep). destruct IH as [floor Hinv]; [lia|]. eapply counter_step_inv; [done..|lia].
Qed.
End inv.

(** ** The theorems *)

(** C12. Any number of replicas up to 16 deliver the commands of one log, are
    stopped between two callbacks and started again from their files: the count of a
    replica is always the number of commands among the instances it was
    delivered, a replica that starts again has the count and the instance of its
    last checkpoint, and the next instance can be delivered (no access is out of
    range, no callback fails).  Replicas at the same instance have the same count. *)
Theorem counter_consistent n s k x :
  (1 <= n <= 16)%nat -> reachable n s -> Z.of_nat (List.length (log s)) < 2 ^ 31 -> nodes s !! k = Some x ->
  state_at (log s) (pos x) = (count (ctr x), instance_id (ctr x)) /\
  (exists y, restart (Z.of_nat n) (Z.of_nat k) (disk (ctr x)) = Some y /\
     state_at (log s) (pos y) = (count (ctr y), pos y)) /\
  (forall v size, log s !! Z.to_nat (pos x) = Some v ->
     is_Some (on_deliver true ([] : calls) (ctr x) (pos x + 1) (Some v) size)).
Proof.
  intros Hn Hr Hmax Hx. destruct (counter_reachable_inv n Hn s Hr Hmax) as [floor Hinv].
  pose proof Hinv as (Hlen & Hnodes & _ & Hlog & _). pose proof (Hnodes _ _ Hx) as Hok.
  pose proof Hok as (_ & _ & Hst & Hsv & _). split; [done|]. split.
  - destruct (restart_saved n Hn _ (Z.of_nat k) _ _ Hsv Hmax) as (m & -> & Hm). by eexists.
  - intros v size Hv. pose proof (lookup_lt_Some _ _ _ Hx) as Hk. rewrite Hlen in Hk.
    destruct (deliver_ok n Hn floor (log s) k x v size Hok Hk) as (es & c & _ & -> & _); try done.
    + eapply Forall_lookup_1 in Hlog; done.
    + intros j Hj. pose proof (floor_range n Hn _ _ _ Hinv Hj). lia.
Qed.

(** C13. The counter replicas trim safely: an instance that some replica asks the
    acceptors to trim is behind none of the replicas, neither at the instance it has
    reached nor after a restart from its file; so the instance a replica needs
    next was never trimmed. *)
Theorem counter_trim_safe n s k x i :
  (1 <= n <= 16)%nat -> reachable n s -> Z.of_nat (List.length (log s)) < 2 ^ 31 -> nodes s !! k = Some x ->
  i ∈ trims s ->
  i < pos x + 1 /\
  exists y, restart (Z.of_nat n) (Z.of_nat k) (disk (ctr x)) = Some y /\ i < pos y + 1.
Proof.
  intros Hn Hr Hmax Hx Hi. destruct (counter_reachable_inv n Hn s Hr Hmax) as [floor Hinv].
  pose proof Hinv as (Hlen & Hnodes & _ & _ & Htrims). pose proof (Hnodes _ _ Hx) as (_ & Hpos & Hst & Hsv & Hle & _).
  pose proof (lookup_lt_Some _ _ _ Hx) as Hk. rewrite Hlen in Hk.
  eapply Forall_forall in Hi; [|exact Htrims]. specialize (Hi k Hk). cbn beta in Hi.
  pose proof (state_at_last (log s) (Z.to_nat (pos x)) ltac:(lia)) as Hlast. rewrite Z2Nat.id, Hst in Hlast by lia.
  split; [lia|]. destruct (restart_saved n Hn _ (Z.of_nat k) _ _ Hsv Hmax) as (m & -> & _). eexists. split; [done|]. cbn. lia.
Qed.

(** Two replicas count 100 commands, announce their checkpoints, and trim; the
    second one is started again. *)
Definition sample_run : list action :=
  Client :: replicate 100 (Decide 0) ++ replicate 100 (Deliver 0) ++ replicate 100 (Deliver 1) ++
  [Decide 1; Decide 2; Deliver 0; Deliver 0; Deliver 1; Restart 1].

Definition sample_end : system := default (init 2) (exec sample_run (init 2)).
Definition sample_node : node := default (fresh 2 0) (nodes sample_end !! 1%nat).

Lemma sample_reachable : reachable 2 sample_end.
Proof. apply (exec_reachable 2 sample_run). vm_compute. reflexivity. Qed.

Lemma counter_consistent_witness :
  state_at (log sample_end) (pos sample_node) = (count (ctr sample_node), instance_id (ctr sample_node)) /\
  pos sample_node = 100 /\ count (ctr sample_node) = 100.
Proof.
  split; [|by vm_compute].
  refine (proj1 (counter_consistent 2 sample_end 1 sample_node _ sample_reachable _ _)); [lia|by vm_compute..].
Defined.

Lemma counter_trim_safe_witness :
  100 ∈ trims sample_end /\ 100 < pos sample_node + 1 /\
  exists y, restart 2 1 (disk (ctr sample_node)) = Some y /\ 100 < pos y + 1.
Proof.
  assert (100 ∈ trims sample_end) as Hi by (apply list_elem_of_In; vm_compute; auto).
  split; [exact Hi|].
  refine (counter_trim_safe 2 sample_end 1 sample_node 100 _ sample_reachable _ _ Hi); [lia|by vm_compute..].
Defined.

(** ** Flaws *)

(** The minimum starts with the instance of replica 0 before it is updated: an
    announcement of replica 0 trims nothing, also when all others are as far. *)
Lemma own_trim_ignored c l0 l i :
  trim_instances (trim c) = l0 :: l -> l0 <= last_trim (trim c) -> 0 <= trim_count (trim c) <= Z.of_nat (S (List.length l)) ->
  exists c', update_trim_info ([] : calls) c 0 i = Some ([], c') /\ last_trim (trim c') = last_trim (trim c).
Proof.
  intros Hl Hle Hc. unfold update_trim_info. rewrite Hl. assert (arr_get (l0 :: l) 0 = Some l0) as -> by done. cbn [mbind option_bind].
  destruct (Z.leb_spec i l0); [by eexists|].
  destruct (arr_set_in (l0 :: l) 0 i ltac:(simpl; lia)) as [l' Hl']. rewrite Hl'. cbn [mbind option_bind].
  pose proof (arr_set_length _ _ _ _ Hl') as Hlen. cbn [List.length] in Hlen.
  destruct (min_loop_spec (Z.to_nat (trim_count (trim c))) 0 l0 l' ltac:(lia) ltac:(lia)) as (m & -> & Hm & _).
  cbn [mbind option_bind]. destruct (Z.ltb_spec (last_trim (trim c)) m); [lia|]. by eexists.
Qed.

(** A checkpoint truncates the file before it writes: a replica stopped in
    between starts at instance 1, which others may have trimmed because of its
    earlier checkpoint. *)
Lemma torn_checkpoint c : exists c', init_state (with_disk c (Some [])) = Some c' /\ count c' = 0 /\ instance_id c' = 0.
Proof. by eexists. Qed.
