(* ===== verification/UnitTests.v ===== *)
(** * The unit tests ([unit/*_unittest.cc])

    The tests of the library run on the definitions of this development: the
    storage tests on both back ends, the tests of the acceptor on both, those of the
    proposer, the learner and the configuration file.  A test is a computation on the
    fixture of its class that can fail an assertion or be undefined.  What a test
    leaves uninitialised is an argument of the definitions. *)

From S2P Require Import Prelude Bytes PaxosTypes EvConfig KhashInterface KhashResize Storage StorageUtils StorageLmdb.
From S2P Require Import Quorum Acceptor Proposer Learner.
From Stdlib Require Import String.
#[local] Open Scope Z_scope.

(** ** Assertions *)

Inductive verdict (A : Type) := Passed (x : A) | AssertionFailed | Undefined.
Arguments Passed {A} x.
Arguments AssertionFailed {A}.
Arguments Undefined {A}.

Definition test (S A : Type) : Type := S -> verdict (S * A).

#[export] Instance test_ret {S} : MRet (test S) := fun A x s => Passed (s, x).
#[export] Instance test_bind {S} : MBind (test S) := fun A B f m s =>
  match m s with
  | Passed (s, x) => f x s
  | AssertionFailed => AssertionFailed
  | Undefined => Undefined
  end.

(** A call of the library. *)
Definition call {S A} (f : S -> option (S * A)) : test S A := fun s =>
  match f s with Some r => Passed r | None => Undefined end.
Definition update {S} (f : S -> option S) : test S unit := call (fun s => s ← f s; Some (s, tt)).
Definition observe {S A} (f : S -> A) : test S A := call (fun s => Some (s, f s)).

Definition ASSERT {S} (b : bool) : test S unit := fun s => if b then Passed (s, tt) else AssertionFailed.
Definition ASSERT_EQ {S} (a b : Z) : test S unit := ASSERT (a =? b).
Definition ASSERT_STREQ {S} (a b : option (list byte)) : test S unit :=
  ASSERT (bool_decide (cstr <$> a = cstr <$> b)).

Fixpoint for_each {S X} (l : list X) (f : X -> test S unit) : test S unit :=
  match l with [] => mret tt | x :: l => f x ≫= fun _ => for_each l f end.

Definition run {S} (setup : option S) (t : test S unit) : verdict unit :=
  match setup with
  | None => Undefined
  | Some s => match t s with Passed _ => Passed tt | AssertionFailed => AssertionFailed | Undefined => Undefined end
  end.

(** The tests that do not pass, by their names. *)
Definition failures {S} (setup : option S) (l : list (string * test S unit)) : list (string * verdict unit) :=
  omap (fun '(n, t) => match run setup t with Passed _ => None | v => Some (n, v) end) l.

Definition text (s : string) : list byte := str s ++ [x00].
Definition no_value : paxos_value := PaxosValue 0 None.
Definition text_value (s : string) : paxos_value := PaxosValue (Z.of_nat (String.length s) + 1) (Some (text s)).

(** ** Storage *)

Section storage.
Context `{SA : StorageApi H} (garbage : paxos_accepted).

Definition storage_setup (s : H) : option H := '(s, _) ← storage_open s; Some s.

(** [storage_tx_begin] and [storage_tx_commit] around a step; their results are
    not looked at. *)
Definition transaction {A} (t : test H A) : test H A :=
  _ ← call storage_tx_begin; x ← t; _ ← call storage_tx_commit; mret x.

Definition put (b : paxos_accepted) : test H unit := _ ← call (fun s => storage_put_record s b); mret tt.
Definition get (i : Z) : test H Z := call (fun s => '(rv, _) ← storage_get_record s i garbage; Some (s, rv)).
Definition trim_to (i : Z) : test H unit := _ ← call (fun s => storage_trim s i); mret tt.
Definition trim_instance : test H Z := call (fun s => i ← storage_get_trim_instance s; Some (s, i)).

Definition TestPutManyInstances (from to : Z) : test H unit :=
  transaction (for_each (seqZ from (to + 1 - from)) (fun i => put (PaxosBody i 0 0 0 no_value))).
Definition TestCheckInstancesDeleted (from to : Z) : test H unit :=
  transaction (for_each (seqZ from (to + 1 - from)) (fun i => rv ← get i; ASSERT_EQ rv 0)).
Definition TestCheckInstancesExist (from to : Z) : test H unit :=
  transaction (for_each (seqZ from (to + 1 - from)) (fun i => rv ← get i; ASSERT_EQ rv 1)).

(** The instances of the source divided by [c]; the tests of the source are
    those for [c] = 1. *)
Definition storage_tests (c : Z) : list (string * test H unit) := let n i := i / c in [
  ("GetInitialTrimInstance"%string,
    iid ← transaction trim_instance;
    ASSERT_EQ iid 0);
  ("TrimInstanceZero"%string,
    _ ← transaction (put (PaxosBody 0 1 0 0 no_value));
    _ ← transaction (trim_to 0);
    iid ← transaction trim_instance;
    ASSERT_EQ iid 0);
  ("TrimAccepted"%string,
    _ ← TestPutManyInstances 1 (n 1000);
    _ ← transaction (trim_to (n 500));
    iid ← transaction trim_instance;
    _ ← ASSERT_EQ iid (n 500);
    _ ← TestCheckInstancesDeleted 1 (n 500);
    _ ← TestCheckInstancesExist (n 500 + 1) (n 1000);
    _ ← TestPutManyInstances (n 1000) (n 2000);
    _ ← transaction (trim_to (n 1500));
    iid ← transaction trim_instance;
    _ ← ASSERT_EQ iid (n 1500);
    _ ← TestCheckInstancesDeleted (n 1000) (n 1500);
    TestCheckInstancesExist (n 1500 + 1) (n 2000));
  ("TrimWithHoles"%string,
    _ ← TestPutManyInstances (n 10) (n 200);
    _ ← TestPutManyInstances (n 200) (n 300);
    _ ← TestPutManyInstances (n 400) (n 600);
    _ ← transaction (trim_to (n 500));
    iid ← transaction trim_instance;
    _ ← ASSERT_EQ iid (n 500);
    _ ← TestCheckInstancesDeleted 1 (n 500);
    TestCheckInstancesExist (n 500 + 1) (n 600))].
End storage.

(** The two back ends; LMDB is the library of [StorageLmdb] without failures. *)
Definition lmdb_config : paxos_config :=
  with_ints (set_backend default_paxos_config PAXOS_LMDB_STORAGE) 1 0 1 1 128 1 0 (10 * 1024 * 1024).
Definition lmdb_api : StorageApi (lmdb_storage * ref_world) := storage_init_lmdb lmdb_config (fun _ => 4096).
Definition mem_new : mem_storage Khash.khash := mem_storage_new.
Definition lmdb_new (id : Z) : lmdb_storage * ref_world := (lmdb_storage_new id, DbIdle ∅).

(** ** Acceptor *)

Section acceptor.
Context `{SA : StorageApi H} (backend : paxos_storage_backend) (garbage : paxos_message).

Definition acceptor_setup (s : H) : option (acceptor H) := a ← acceptor_new 2 s; a.

(** The result of a handler and the message behind it. *)
Definition prepare (b : paxos_prepare) : test (acceptor H) (Z * paxos_message) :=
  call (fun a => '(a, rv, m) ← acceptor_receive_prepare a b garbage; Some (a, (rv, m))).
Definition accept (b : paxos_accept) : test (acceptor H) (Z * paxos_message) :=
  call (fun a => '(a, rv, m) ← acceptor_receive_accept a b garbage; Some (a, (rv, m))).
Definition repeat (i : Z) : test (acceptor H) bool :=
  call (fun a => '(a, rv, _) ← acceptor_receive_repeat a i; Some (a, rv)).

Definition CHECK_VALUE {S} (v : paxos_value) (val : option string) : test S unit :=
  _ ← ASSERT_EQ (paxos_value_len v) (match val with None => 0 | Some s => Z.of_nat (String.length s) + 1 end);
  ASSERT_STREQ (paxos_value_val v) (text <$> val).

Definition CHECK_BODY {S} (b : paxos_body) (i bal vbal : Z) (val : option string) : test S unit :=
  _ ← ASSERT_EQ (iid b) i;
  _ ← ASSERT_EQ (ballot b) bal;
  _ ← ASSERT_EQ (value_ballot b) vbal;
  CHECK_VALUE (value b) val.

Definition CHECK_PROMISE {S} (m : paxos_message) (i bal vbal : Z) (val : option string) : test S unit :=
  match m with PAXOS_PROMISE b => CHECK_BODY b i bal vbal val | _ => ASSERT false end.
Definition CHECK_ACCEPTED {S} (m : paxos_message) (i bal vbal : Z) (val : option string) : test S unit :=
  match m with PAXOS_ACCEPTED b => CHECK_BODY b i bal vbal val | _ => ASSERT false end.
Definition CHECK_PREEMPTED {S} (m : paxos_message) (i bal : Z) : test S unit :=
  match m with PAXOS_PREEMPTED b => _ ← ASSERT_EQ (iid b) i; ASSERT_EQ (ballot b) bal | _ => ASSERT false end.

Definition acceptor_tests : list (string * test (acceptor H) unit) := [
  ("Prepare"%string,
    r ← prepare (PaxosBody 1 101 0 0 no_value);
    CHECK_PROMISE r.2 1 101 0 None);
  ("PrepareDuplicate"%string,
    _ ← prepare (PaxosBody 1 101 101 2 no_value);
    r ← prepare (PaxosBody 1 101 101 2 no_value);
    CHECK_PROMISE r.2 1 101 0 None);
  ("PrepareSmallerBallot"%string,
    for_each [11; 5; 9; 10; 2] (fun b =>
      r ← prepare (PaxosBody 1 b 0 0 no_value);
      CHECK_PROMISE r.2 1 11 0 None));
  ("PrepareHigherBallot"%string,
    for_each [0; 10; 11; 20; 33] (fun b =>
      r ← prepare (PaxosBody 1 b 0 0 no_value);
      CHECK_PROMISE r.2 1 b 0 None));
  ("Accept"%string,
    r ← accept (PaxosBody 1 101 101 0 (text_value "foo"));
    CHECK_ACCEPTED r.2 1 101 101 (Some "foo"%string));
  ("AcceptPrepared"%string,
    r ← prepare (PaxosBody 1 101 0 0 no_value);
    _ ← CHECK_PROMISE r.2 1 101 0 None;
    r ← accept (PaxosBody 1 101 101 0 (text_value "foo bar"));
    CHECK_ACCEPTED r.2 1 101 101 (Some "foo bar"%string));
  ("AcceptHigherBallot"%string,
    r ← prepare (PaxosBody 1 101 0 0 no_value);
    _ ← CHECK_PROMISE r.2 1 101 0 None;
    r ← accept (PaxosBody 1 201 201 0 (text_value "baz"));
    CHECK_ACCEPTED r.2 1 201 201 (Some "baz"%string));
  ("AcceptSmallerBallot"%string,
    r ← prepare (PaxosBody 1 201 201 0 no_value);
    _ ← CHECK_PROMISE r.2 1 201 0 None;
    r ← accept (PaxosBody 1 200 201 0 (text_value "bar"));
    CHECK_PREEMPTED r.2 1 201);
  ("PrepareWithAcceptedValue"%string,
    _ ← prepare (PaxosBody 1 101 101 0 no_value);
    _ ← accept (PaxosBody 1 101 101 0 (text_value "bar"));
    r ← prepare (PaxosBody 1 201 0 0 no_value);
    CHECK_PROMISE r.2 1 201 101 (Some "bar"%string))].

Definition acceptor_repeat_tests : list (string * test (acceptor H) unit) := [
  ("Repeat"%string,
    _ ← accept (PaxosBody 10 101 101 0 (text_value "1234"));
    r ← repeat 10;
    ASSERT r);
  ("RepeatEmpty"%string,
    r ← repeat 1;
    ASSERT (negb r));
  ("RepeatPrepared"%string,
    _ ← prepare (PaxosBody 1 101 0 0 no_value);
    r ← repeat 1;
    ASSERT (negb r));
  ("TrimmedInstances"%string,
    match backend with
    | PAXOS_MEM_STORAGE => mret tt
    | PAXOS_LMDB_STORAGE =>
        _ ← accept (PaxosBody 0 101 101 2 (text_value "1234"));
        _ ← accept (PaxosBody 0 101 101 3 (text_value "1234"));
        _ ← call (fun a => acceptor_receive_trim a (PaxosTrim 5));
        _ ← for_each (seqZ 1 5) (fun i => r ← prepare (PaxosBody i 101 101 2 (text_value "1234")); ASSERT_EQ r.1 0);
        _ ← for_each (seqZ 1 5) (fun i => r ← accept (PaxosBody i 101 101 2 (text_value "test")); ASSERT_EQ r.1 0);
        for_each (seqZ 1 5) (fun i => r ← repeat i; ASSERT (negb r))
    end)].
End acceptor.

(** ** Learner

    The memory [learner_deliver_next] reads after it is freed still has its
    contents. *)

Section learner.
Context (garbage : paxos_accept).
Notation lrn := (learner Khash.khash).

Definition learner_setup : option lrn := Some (learner_new 1 3).

Definition receive (b : paxos_accepted) : test lrn unit := update (fun l => learner_receive_accepted l b).
Definition accepted (i bal a : Z) : paxos_accepted := PaxosBody i bal bal a no_value.
Definition deliver : test lrn (Z * option paxos_accepted) :=
  call (fun l => '(rv, l, out) ← learner_deliver_next l (current_iid l); Some (l, (rv, out))).
Definition learner_prepares (i : Z) : test lrn paxos_prepare := call (fun l => learner_prepare l i).
Definition promise (b : paxos_promise) (out : paxos_accept) : test lrn (Z * paxos_accept) :=
  call (fun l => '(rv, l, out) ← learner_receive_promise l b out; Some (l, (rv, out))).
Definition ASSERT_HOLES (h : option (Z * Z)) : test lrn unit :=
  x ← observe learner_has_holes; ASSERT (bool_decide (x = h)).
Definition ASSERT_DELIVERED (r : Z * option paxos_accepted) (i : Z) : test lrn unit :=
  _ ← ASSERT_EQ r.1 1; match r.2 with Some b => ASSERT_EQ (iid b) i | None => ASSERT false end.
Definition ASSERT_ACCEPT (r : Z * paxos_accept) (i bal : Z) (val : option string) : test lrn unit :=
  _ ← ASSERT_EQ r.1 1;
  _ ← ASSERT_EQ (iid r.2) i;
  _ ← ASSERT_EQ (ballot r.2) bal;
  CHECK_VALUE (value r.2) val.

Definition learner_delivery_tests : list (string * test lrn unit) := [
  ("Learn"%string,
    r ← deliver; _ ← ASSERT_EQ r.1 0;
    _ ← receive (accepted 1 101 0);
    r ← deliver; _ ← ASSERT_EQ r.1 0;
    _ ← receive (accepted 1 101 1);
    r ← deliver;
    _ ← ASSERT_EQ r.1 1;
    match r.2 with
    | Some b => CHECK_BODY b 1 101 101 None
    | None => ASSERT false
    end);
  ("LearnInOrder"%string,
    _ ← receive (accepted 1 101 0);
    _ ← receive (accepted 2 101 0);
    r ← deliver; _ ← ASSERT_EQ r.1 0;
    _ ← receive (accepted 1 101 1);
    _ ← receive (accepted 2 101 1);
    r ← deliver; _ ← ASSERT_DELIVERED r 1;
    r ← deliver; ASSERT_DELIVERED r 2);
  ("IgnoreDuplicates"%string,
    _ ← receive (accepted 1 101 1);
    _ ← receive (accepted 1 101 1);
    _ ← receive (accepted 1 101 1);
    r ← deliver; _ ← ASSERT_EQ r.1 0;
    _ ← receive (accepted 1 101 2);
    r ← deliver; ASSERT_DELIVERED r 1);
  ("LearnMajority"%string,
    _ ← receive (accepted 1 101 1);
    _ ← receive (accepted 2 100 1);
    r ← deliver; _ ← ASSERT_EQ r.1 0;
    _ ← receive (accepted 1 101 0);
    r ← deliver; _ ← ASSERT_DELIVERED r 1;
    ASSERT (bool_decide (ballot <$> r.2 = Some 101)));
  ("IgnoreOlderBallot"%string,
    _ ← receive (accepted 1 101 1);
    _ ← receive (accepted 1 201 1);
    r ← deliver; _ ← ASSERT_EQ r.1 0;
    _ ← receive (accepted 1 201 2);
    r ← deliver; _ ← ASSERT_DELIVERED r 1;
    ASSERT (bool_decide (ballot <$> r.2 = Some 201)));
  ("NoHoles"%string,
    _ ← receive (accepted 1 101 1);
    _ ← receive (accepted 1 101 2);
    _ ← deliver;
    ASSERT_HOLES None);
  ("OneHole"%string,
    _ ← receive (accepted 1 101 1);
    _ ← receive (accepted 1 101 2);
    _ ← deliver;
    _ ← receive (accepted 3 101 1);
    _ ← receive (accepted 3 101 2);
    r ← deliver; _ ← ASSERT_EQ r.1 0;
    ASSERT_HOLES (Some (2, 3)));
  ("ManyHoles"%string,
    _ ← receive (accepted 2 101 1);
    _ ← receive (accepted 2 101 2);
    r ← deliver; _ ← ASSERT_EQ r.1 0;
    _ ← receive (accepted 100 101 1);
    _ ← receive (accepted 100 101 2);
    r ← deliver; _ ← ASSERT_EQ r.1 0;
    ASSERT_HOLES (Some (1, 100)))].

Definition learner_recovery_tests : list (string * test lrn unit) := [
  ("learner_prepare"%string,
    out ← learner_prepares 10;
    _ ← ASSERT_EQ (iid out) 10;
    ASSERT_EQ (ballot out) 3);
  ("learner_prepare_retry"%string,
    _ ← learner_prepares 10;
    out ← learner_prepares 10;
    _ ← ASSERT_EQ (iid out) 10;
    ASSERT_EQ (ballot out) 14);
  ("test_receive_duplicated_promise"%string,
    _ ← learner_prepares 10;
    r ← promise (PaxosBody 10 3 0 1 no_value) garbage;
    _ ← ASSERT_EQ r.1 0;
    r ← promise (PaxosBody 10 3 0 1 no_value) r.2;
    ASSERT_EQ r.1 0);
  ("test_receive_promises_without_value"%string,
    _ ← learner_prepares 10;
    r ← promise (PaxosBody 10 3 0 1 no_value) garbage;
    _ ← ASSERT_EQ r.1 0;
    r ← promise (PaxosBody 10 3 0 2 no_value) r.2;
    ASSERT_ACCEPT r 10 3 None);
  ("test_receive_promises_with_value"%string,
    _ ← learner_prepares 10;
    r ← promise (PaxosBody 10 3 1 1 (text_value "Value")) garbage;
    _ ← ASSERT_EQ r.1 0;
    r ← promise (PaxosBody 10 3 1 2 (text_value "Value")) r.2;
    ASSERT_ACCEPT r 10 3 (Some "Value"%string));
  ("test_learner_recovery"%string,
    _ ← receive (accepted 1 102 1);
    _ ← receive (accepted 1 102 2);
    _ ← deliver;
    _ ← receive (accepted 4 102 1);
    _ ← receive (accepted 4 102 2);
    r ← deliver; _ ← ASSERT_EQ r.1 0;
    _ ← ASSERT_HOLES (Some (2, 4));
    _ ← learner_prepares 2;
    r ← promise (PaxosBody 2 3 1 1 (text_value "Value")) garbage;
    _ ← ASSERT_EQ r.1 0;
    r ← promise (PaxosBody 2 3 1 2 (text_value "Value")) r.2;
    _ ← ASSERT_ACCEPT r 2 3 (Some "Value"%string);
    _ ← receive (PaxosBody 2 3 3 1 (text_value "Value"));
    _ ← receive (PaxosBody 2 3 3 2 (text_value "Value"));
    _ ← deliver;
    ASSERT_HOLES (Some (3, 4)));
  ("test_learner_recovery_null"%string,
    _ ← receive (accepted 2 102 1);
    _ ← receive (accepted 2 102 2);
    _ ← deliver;
    _ ← ASSERT_HOLES (Some (1, 2));
    let accept := PaxosBody (iid garbage) (ballot garbage) (value_ballot garbage) (aid garbage) no_value in
    _ ← learner_prepares 1;
    r ← promise (PaxosBody 1 3 1 1 no_value) accept;
    _ ← ASSERT_EQ r.1 0;
    _ ← CHECK_VALUE (value r.2) None;
    r ← promise (PaxosBody 1 3 1 2 no_value) r.2;
    _ ← ASSERT_ACCEPT r 1 3 None;
    _ ← receive (accepted 1 3 1);
    _ ← receive (accepted 1 3 2);
    _ ← deliver;
    ASSERT_HOLES None)].
End learner.

(** ** Proposer

    The fixture is the proposer and the time in seconds. *)

Section proposer.
Notation prp := (proposer Khash.khash * Z)%type.
Notation opt_prepare := (option paxos_prepare).

Definition proposer_setup : option prp := p ← proposer_new 2 3; Some (p, 0).

Definition clock (t : Z) : timeval := Timeval t 0.
Definition sleep (s : Z) : test prp unit := update (fun '(p, t) => Some (p, t + s)).
Definition proposer_prepares : test prp paxos_prepare :=
  call (fun '(p, t) => '(p, out) ← proposer_prepare p (clock t); Some ((p, t), out)).
Definition propose (v : string) : test prp unit :=
  update (fun '(p, t) => p ← proposer_propose p (text v) (Z.of_nat (String.length v) + 1); Some (p, t)).
Definition proposer_promise (b : paxos_promise) : test prp (Z * opt_prepare) :=
  call (fun '(p, t) => '(rv, p, out) ← proposer_receive_promise p b (clock t); Some ((p, t), (rv, out))).
Definition proposer_accepts : test prp (Z * option paxos_accept) :=
  call (fun '(p, t) => '(rv, p, out) ← proposer_accept p; Some ((p, t), (rv, out))).
Definition proposer_accepted (b : paxos_accepted) : test prp Z :=
  call (fun '(p, t) => '(rv, p) ← proposer_receive_accepted p b; Some ((p, t), rv)).
Definition preempt (b : paxos_preempted) : test prp (Z * opt_prepare) :=
  call (fun '(p, t) => '(rv, p, out) ← proposer_receive_preempted p b (clock t); Some ((p, t), (rv, out))).
Definition prepared_count : test prp Z := observe (fun s : prp => proposer_prepared_count s.1).

(** A member of [*out], which has to be written. *)
Definition written {S A} (o : option A) : test S A := fun s =>
  match o with Some x => Passed (s, x) | None => Undefined end.

Definition CHECK_ACCEPT (b : option paxos_accept) (i bal : Z) (v : string) : test prp unit :=
  b ← written b;
  _ ← ASSERT_EQ (iid b) i;
  _ ← ASSERT_EQ (ballot b) bal;
  CHECK_VALUE (value b) (Some v).

Definition quorum_of_3 : list Z := seqZ 0 (paxos_quorum 3).
Definition TestPrepareAckFromQuorum (i bal : Z) : test prp unit :=
  for_each quorum_of_3 (fun a => r ← proposer_promise (PaxosBody i bal 0 a no_value); ASSERT_EQ 0 r.1).
Definition TestPrepareAckWithValue (i bal : Z) (v : string) (vbal : Z) : test prp unit :=
  for_each quorum_of_3 (fun a => r ← proposer_promise (PaxosBody i bal vbal a (text_value v)); ASSERT_EQ 0 r.1).
Definition TestAcceptAckFromQuorum (i bal outcome : Z) : test prp unit :=
  for_each quorum_of_3 (fun a => rv ← proposer_accepted (PaxosBody i bal bal a no_value); ASSERT (outcome <=? rv)).
Definition TestAcceptAckWithValue (i bal : Z) (v : paxos_value) (vbal : Z) : test prp unit :=
  for_each quorum_of_3 (fun a => rv ← proposer_accepted (PaxosBody i bal vbal a v); ASSERT (1 <=? rv)).

Definition proposer_promise_tests : list (string * test prp unit) := [
  ("Prepare"%string,
    _ ← for_each (seqZ 0 10) (fun i =>
      pr ← proposer_prepares;
      _ ← ASSERT_EQ (iid pr) (i + 1);
      ASSERT_EQ (ballot pr) (2 + MAX_N_OF_PROPOSERS));
    n ← prepared_count;
    ASSERT_EQ 10 n);
  ("IgnoreOldBallots"%string,
    pr ← proposer_prepares;
    r ← proposer_promise (PaxosBody (iid pr) (ballot pr - 1) 0 1 no_value);
    _ ← ASSERT_EQ 0 r.1;
    r ← proposer_promise (PaxosBody (iid pr) (ballot pr + 1) 0 1 no_value);
    _ ← ASSERT_EQ 1 r.1;
    r ← proposer_promise (PaxosBody (iid pr) (ballot pr) 0 1 no_value);
    ASSERT_EQ 0 r.1);
  ("IgnoreDuplicatePrepareAcks"%string,
    pr ← proposer_prepares;
    _ ← propose "value";
    _ ← for_each (seqZ 0 10) (fun _ =>
      r ← proposer_promise (PaxosBody (iid pr) (ballot pr) 0 2 no_value);
      _ ← ASSERT_EQ 0 r.1;
      a ← proposer_accepts;
      ASSERT_EQ a.1 0);
    _ ← proposer_promise (PaxosBody (iid pr) (ballot pr) 0 1 no_value);
    a ← proposer_accepts;
    ar ← written a.2;
    TestAcceptAckFromQuorum (iid ar) (ballot ar) 1);
  ("PrepareAndAccept"%string,
    pr ← proposer_prepares;
    _ ← TestPrepareAckFromQuorum (iid pr) (ballot pr);
    a ← proposer_accepts;
    _ ← ASSERT_EQ a.1 0;
    _ ← propose "a value";
    a ← proposer_accepts;
    _ ← CHECK_ACCEPT a.2 (iid pr) (ballot pr) "a value";
    TestAcceptAckFromQuorum (iid pr) (ballot pr) 1);
  ("PreparePreempted"%string,
    pr ← proposer_prepares;
    _ ← propose "some value";
    r ← proposer_promise (PaxosBody (iid pr) (ballot pr + 1) 0 1 no_value);
    _ ← ASSERT_EQ 1 r.1;
    preempted ← written r.2;
    _ ← ASSERT_EQ (iid preempted) (iid pr);
    _ ← ASSERT (ballot pr <? ballot preempted);
    _ ← TestPrepareAckFromQuorum (iid preempted) (ballot preempted);
    a ← proposer_accepts;
    CHECK_ACCEPT a.2 (iid preempted) (ballot preempted) "some value");
  ("PrepareAlreadyClosed"%string,
    pr ← proposer_prepares;
    _ ← propose "some value";
    r ← proposer_promise (PaxosBody (iid pr) (ballot pr + 1) (ballot pr + 1) 1 (text_value "foo bar baz"));
    _ ← ASSERT_EQ 1 r.1;
    preempted ← written r.2;
    _ ← ASSERT_EQ (iid preempted) (iid pr);
    _ ← ASSERT (ballot pr <? ballot preempted);
    _ ← TestPrepareAckWithValue (iid preempted) (ballot preempted) "foo bar baz" (ballot pr + 1);
    a ← proposer_accepts;
    ar ← written a.2;
    _ ← TestAcceptAckFromQuorum (iid ar) (ballot ar) 1;
    pr ← proposer_prepares;
    _ ← TestPrepareAckFromQuorum (iid pr) (ballot pr);
    a ← proposer_accepts;
    CHECK_ACCEPT a.2 (iid pr) (ballot pr) "some value");
  ("PreparePreemptedWithTwoValues"%string,
    pr ← proposer_prepares;
    _ ← propose "v1";
    let pa1 b := PaxosBody (iid pr) b (ballot pr + 1) 1 (text_value "v2") in
    let pa2 b := PaxosBody (iid pr) b (ballot pr + 11) 2 (text_value "v3") in
    r1 ← proposer_promise (pa1 (ballot pr + 1));
    r2 ← proposer_promise (pa2 (ballot pr + 11));
    preempted ← written (match r2.2 with Some b => Some b | None => r1.2 end);
    _ ← proposer_promise (pa1 (ballot preempted));
    a ← proposer_accepts;
    _ ← ASSERT_EQ a.1 0;
    _ ← proposer_promise (pa2 (ballot preempted));
    a ← proposer_accepts;
    _ ← CHECK_ACCEPT a.2 (iid preempted) (ballot preempted) "v3";
    _ ← TestAcceptAckFromQuorum (iid preempted) (ballot preempted) 1;
    pr ← proposer_prepares;
    _ ← TestPrepareAckFromQuorum (iid pr) (ballot pr);
    a ← proposer_accepts;
    CHECK_ACCEPT a.2 (iid pr) (ballot pr) "v1")].

(** The iterator and the message when there is one. *)
Definition iterator : test prp timeout_iterator := observe (fun s : prp => proposer_timeout_iterator s.1 (clock s.2)).
Definition next_prepare (it : timeout_iterator) : test prp (timeout_iterator * opt_prepare) :=
  call (fun '(p, t) => let '(it, p, out) := timeout_iterator_prepare 1 it p in Some ((p, t), (it, out))).
Definition next_accept (it : timeout_iterator) : test prp (timeout_iterator * option paxos_accept) :=
  call (fun '(p, t) => '(it, p, out) ← timeout_iterator_accept 1 it p; Some ((p, t), (it, out))).
Definition ASSERT_TIMEOUT (o : option paxos_body) (b : paxos_body) : test prp unit :=
  match o with
  | Some x => _ ← ASSERT_EQ (iid b) (iid x); ASSERT_EQ (ballot b) (ballot x)
  | None => ASSERT false
  end.
Definition ASSERT_NONE {S} (o : option paxos_body) : test S unit := ASSERT (match o with None => true | Some _ => false end).

Definition proposer_accept_tests : list (string * test prp unit) := [
  ("AcceptPreempted"%string,
    pr ← proposer_prepares;
    _ ← propose "some value";
    _ ← TestPrepareAckFromQuorum (iid pr) (ballot pr);
    a ← proposer_accepts;
    _ ← ASSERT_EQ a.1 1;
    ar ← written a.2;
    r ← preempt (PaxosBody (iid ar) (ballot ar + 1) (ballot ar + 1) 1 no_value);
    _ ← ASSERT_EQ 1 r.1;
    pr ← written r.2;
    _ ← ASSERT_EQ (iid pr) (iid ar);
    _ ← ASSERT (ballot ar + 1 <? ballot pr);
    n ← prepared_count;
    _ ← ASSERT_EQ n 1;
    _ ← TestPrepareAckWithValue (iid pr) (ballot pr) "preempt" (ballot ar + 1);
    _ ← proposer_accepts;
    _ ← TestAcceptAckFromQuorum (iid pr) (ballot pr) 1;
    pr ← proposer_prepares;
    _ ← TestPrepareAckFromQuorum (iid pr) (ballot pr);
    a ← proposer_accepts;
    CHECK_ACCEPT a.2 (iid pr) (ballot pr) "some value");
  ("PreparedCount"%string,
    _ ← for_each (seqZ 0 100) (fun i =>
      _ ← proposer_prepares;
      _ ← propose "some value";
      n ← prepared_count;
      ASSERT_EQ (i + 1) n);
    _ ← for_each (seqZ 0 100) (fun _ => _ ← proposer_accepts; mret tt);
    n ← prepared_count;
    _ ← ASSERT_EQ 100 n;
    for_each (seqZ 0 100) (fun i =>
      _ ← TestPrepareAckFromQuorum (i + 1) (2 + MAX_N_OF_PROPOSERS);
      _ ← proposer_accepts;
      n ← prepared_count;
      ASSERT_EQ (100 - (i + 1)) n))].

Definition proposer_instance_tests : list (string * test prp unit) := [
  ("AvoidDuplicateProposals"%string,
    pre ← proposer_prepares;
    _ ← propose "foo";
    _ ← TestPrepareAckFromQuorum (iid pre) (ballot pre);
    a ← proposer_accepts;
    acc ← written a.2;
    r ← preempt (PaxosBody (iid acc) (ballot acc + 1) (ballot acc + 1) 1 no_value);
    pre ← written r.2;
    _ ← TestAcceptAckFromQuorum (iid acc) (ballot acc) 0;
    _ ← TestPrepareAckWithValue (iid pre) (ballot pre) "foo" (ballot pre);
    a ← proposer_accepts;
    acc ← written a.2;
    _ ← TestAcceptAckWithValue (iid acc) (ballot acc) (value acc) (ballot acc);
    pre ← proposer_prepares;
    _ ← TestPrepareAckFromQuorum (iid pre) (ballot pre);
    a ← proposer_accepts;
    ASSERT_EQ a.1 0);
  ("SetInstanceId"%string,
    _ ← update (fun '(p, t) => p ← proposer_set_instance_id p 10; Some (p, t));
    pr ← proposer_prepares;
    ASSERT_EQ (iid pr) (10 + 1))].

Definition proposer_timeout_tests : list (string * test prp unit) := [
  ("PendingPrepareShouldTimeout"%string,
    pr ← proposer_prepares;
    _ ← sleep 1;
    it ← iterator;
    r ← next_prepare it; _ ← ASSERT_TIMEOUT r.2 pr;
    r ← next_prepare r.1; ASSERT_NONE r.2);
  ("PreparedShouldNotTimeout"%string,
    pr1 ← proposer_prepares;
    pr2 ← proposer_prepares;
    _ ← TestPrepareAckFromQuorum (iid pr1) (ballot pr1);
    _ ← sleep 1;
    it ← iterator;
    r ← next_prepare it; _ ← ASSERT_TIMEOUT r.2 pr2;
    r ← next_prepare r.1; ASSERT_NONE r.2);
  ("PendingAcceptShouldTimeout"%string,
    pr ← proposer_prepares;
    _ ← propose "a value";
    _ ← TestPrepareAckFromQuorum (iid pr) (ballot pr);
    _ ← proposer_accepts;
    _ ← sleep 1;
    it ← iterator;
    r ← next_accept it; _ ← ASSERT_TIMEOUT r.2 pr;
    r ← next_accept r.1; ASSERT_NONE r.2);
  ("AcceptedShouldNotTimeout"%string,
    pr ← proposer_prepares;
    _ ← propose "value";
    _ ← TestPrepareAckFromQuorum (iid pr) (ballot pr);
    a ← proposer_accepts;
    ar ← written a.2;
    _ ← TestAcceptAckFromQuorum (iid ar) (ballot ar) 1;
    pr ← proposer_prepares;
    _ ← sleep 1;
    it ← iterator;
    r ← next_prepare it; _ ← ASSERT_TIMEOUT r.2 pr;
    r ← next_prepare r.1; _ ← ASSERT_NONE r.2;
    r ← next_accept r.1; ASSERT_NONE r.2);
  ("ShouldNotTimeoutTwice"%string,
    pr ← proposer_prepares;
    _ ← sleep 1;
    it ← iterator;
    r ← next_prepare it; _ ← ASSERT_TIMEOUT r.2 pr;
    it ← iterator;
    r ← next_prepare it; ASSERT_NONE r.2)].
End proposer.

(** ** Configuration file *)

Definition line_of (l : list string) : list byte := List.concat (map (fun s => str s ++ [x0a]) l).

(** [config/replicas.conf] and [config/too-many.conf]: the last line has no end. *)
Definition replicas_conf : list byte :=
  line_of ["verbosity quiet"; ""; "replica 0 127.0.0.1 8800"; "replica 1 127.0.0.1 8801"]%string ++
  str "replica 2 127.0.0.1 8802".
Definition too_many_conf : list byte :=
  line_of ["verbosity quiet"; ""; "replica 0 127.0.0.1 8800"; "replica 1 127.0.0.1 8801"; "replica 2 127.0.0.1 8802";
    "replica 3 127.0.0.1 8802"; "replica 4 127.0.0.1 8802"; "replica 5 127.0.0.1 8802"; "replica 6 127.0.0.1 8802";
    "replica 7 127.0.0.1 8802"; "replica 8 127.0.0.1 8802"; "replica 9 127.0.0.1 8802"]%string ++
  str "replica 10 127.0.0.1 8802".

Definition config_read (file : list byte) (is_reg : bool) : test paxos_config (option evpaxos_config) :=
  call (fun g => '(c, g) ← evpaxos_config_read (Some file) true is_reg g; Some (g, c)).

Definition config_tests : list (string * test paxos_config unit) := [
  ("TooManyProcesses"%string,
    c ← config_read too_many_conf true;
    ASSERT (match c with None => true | Some _ => false end));
  ("Folder"%string,
    c ← config_read [] false;
    ASSERT (match c with None => true | Some _ => false end));
  ("Replicas"%string,
    c ← config_read replicas_conf true;
    c ← written c;
    _ ← ASSERT_EQ 3 (evpaxos_acceptor_count c);
    _ ← for_each (seqZ 0 3) (fun i => p ← written (evpaxos_proposer_listen_port c i); ASSERT_EQ (8800 + i) p);
    for_each (seqZ 0 3) (fun i => p ← written (evpaxos_acceptor_listen_port c i); ASSERT_EQ (8800 + i) p))].

(** ** All tests *)

Definition unit_tests (g : paxos_accepted) (m : paxos_message) (c : Z) : list (string * verdict unit) :=
  failures (storage_setup mem_new) (storage_tests g c) ++
  failures (storage_setup (SA := lmdb_api) (lmdb_new 0)) (storage_tests (SA := lmdb_api) g c) ++
  failures (acceptor_setup mem_new) (acceptor_tests m) ++
  failures (acceptor_setup mem_new) (acceptor_repeat_tests PAXOS_MEM_STORAGE m) ++
  failures (acceptor_setup (SA := lmdb_api) (lmdb_new 2)) (acceptor_tests (SA := lmdb_api) m) ++
  failures (acceptor_setup (SA := lmdb_api) (lmdb_new 2)) (acceptor_repeat_tests (SA := lmdb_api) PAXOS_LMDB_STORAGE m) ++
  failures learner_setup learner_delivery_tests ++ failures learner_setup (learner_recovery_tests g) ++
  failures proposer_setup proposer_promise_tests ++ failures proposer_setup proposer_accept_tests ++
  failures proposer_setup proposer_instance_tests ++ failures proposer_setup proposer_timeout_tests ++ failures (Some default_paxos_config) config_tests.

(** The unit tests of the repository pass on the definitions of this
    development, whatever the variables a test leaves uninitialised contain: those
    of the storage on both back ends (with a tenth of the instances), of the
    acceptor on both, of the learner, the proposer and the configuration file. *)
Theorem unit_tests_pass g m : unit_tests g m 10 = [].
Proof. vm_compute. reflexivity. Qed.
