(* ===== verification/Uthash.v ===== *)
(** * The hash table of the proxy ([sample/include/uthash.h])

    The macros the programs use: [HASH_ADD], [HASH_FIND], [HASH_DELETE] and
    [HASH_ITER] with the default hash function, without a Bloom filter and without
    debugging checks.  The elements live in a memory [mem] from addresses to elements;
    an element carries its hash handle, and a pointer to the handle is represented by
    the address of the element it is part of (the offset [hho] is the same for all).
    The handles of a table share [tbl], a component of the state.  NULL is 0; [None]
    is an access outside the memory or a chain that does not end.

    The elements are doubly linked twice: in the order they were added ([prev],
    [next]) and within their bucket ([hh_prev], [hh_next]). *)

From S2P Require Import Prelude.
#[local] Open Scope Z_scope.

(** ** The hash function *)

Definition HASH_JEN_MIX (x : Z * Z * Z) : Z * Z * Z :=
  let sub x y z := u32 (x - y - z) in
  let shl x n := u32 (Z.shiftl x n) in
  let '(a, b, c) := x in
  let a := Z.lxor (sub a b c) (Z.shiftr c 13) in
  let b := Z.lxor (sub b c a) (shl a 8) in
  let c := Z.lxor (sub c a b) (Z.shiftr b 13) in
  let a := Z.lxor (sub a b c) (Z.shiftr c 12) in
  let b := Z.lxor (sub b c a) (shl a 16) in
  let c := Z.lxor (sub c a b) (Z.shiftr b 5) in
  let a := Z.lxor (sub a b c) (Z.shiftr c 3) in
  let b := Z.lxor (sub b c a) (shl a 10) in
  let c := Z.lxor (sub c a b) (Z.shiftr b 15) in
  (a, b, c).

(** [x] plus the bytes of [l], the first one shifted by [n] bits. *)
Fixpoint add_bytes (x n : Z) (l : list byte) : Z :=
  match l with
  | [] => x
  | b :: l => add_bytes (u32 (x + Z.shiftl (Z_of_byte b) n)) (n + 8) l
  end.

(** The words [_hj_i], [_hj_j] and [hashv]; the loop takes twelve bytes a turn. *)
Fixpoint jen_loop (fuel : nat) (x : Z * Z * Z) (key : list byte) : Z * Z * Z * list byte :=
  match fuel with
  | O => (x, key)
  | S fuel =>
      if (12 <=? length key)%nat then
        let '(i, j, h) := x in
        jen_loop fuel (HASH_JEN_MIX (add_bytes i 0 (take 4 key), add_bytes j 0 (take 4 (drop 4 key)),
                                     add_bytes h 0 (take 4 (drop 8 key)))) (drop 12 key)
      else (x, key)
  end.

(** The last bytes come behind the length, which has the lowest byte of [hashv]. *)
Definition HASH_JEN (key : list byte) : Z :=
  let '(i, j, h, key') := jen_loop (length key) (0x9e3779b9, 0x9e3779b9, 0xfeedbeef) key in
  let h := u32 (h + u32 (Z.of_nat (length key))) in
  let '(_, _, h) := HASH_JEN_MIX (add_bytes i 0 (take 4 key'), add_bytes j 0 (take 4 (drop 4 key')),
                                  add_bytes h 8 (drop 8 key')) in
  h.

(** ** Data *)

Record UT_hash_bucket := UTHashBucket { hh_head : Z; bkt_count : Z; expand_mult : Z }.
Definition zero_bucket : UT_hash_bucket := UTHashBucket 0 0 0.

Record UT_hash_table := UTHashTable {
  buckets : list UT_hash_bucket;
  num_buckets : Z;
  log2_num_buckets : Z;
  num_items : Z;
  tail : Z;
  ideal_chain_maxlen : Z;
  nonideal_items : Z;
  ineff_expands : Z;
  noexpand : Z;
}.

Section uthash.
Context {A : Type}.

(** An element: its key, the other members, and the handle. *)
Record element := Element {
  key : list byte;
  payload : A;
  prev : Z;
  next : Z;
  hh_prev : Z;
  hh_next : Z;
  keylen : Z;
  hashv : Z;
}.

Definition set_prev (p : Z) (e : element) := Element (key e) (payload e) p (next e) (hh_prev e) (hh_next e) (keylen e) (hashv e).
Definition set_next (n : Z) (e : element) := Element (key e) (payload e) (prev e) n (hh_prev e) (hh_next e) (keylen e) (hashv e).
Definition set_hh_prev (p : Z) (e : element) := Element (key e) (payload e) (prev e) (next e) p (hh_next e) (keylen e) (hashv e).
Definition set_hh_next (n : Z) (e : element) := Element (key e) (payload e) (prev e) (next e) (hh_prev e) n (keylen e) (hashv e).
Definition set_hashv (h : Z) (e : element) := Element (key e) (payload e) (prev e) (next e) (hh_prev e) (hh_next e) (keylen e) h.
Definition set_keylen (n : Z) (e : element) := Element (key e) (payload e) (prev e) (next e) (hh_prev e) (hh_next e) n (hashv e).

Notation memory := (gmap Z element).

(** A write through a pointer. *)
Definition store (m : memory) (x : Z) (f : element -> element) : option memory := e ← m !! x; Some (<[x := f e]> m).
Definition store_if (m : memory) (x : Z) (f : element -> element) : option memory :=
  if x =? 0 then Some m else store m x f.

Record hash := Hash { head : Z; tbl : UT_hash_table; mem : memory }.
Implicit Types (m : memory) (h : hash) (t : UT_hash_table) (b : UT_hash_bucket).

Definition set_buckets t (bs : list UT_hash_bucket) : UT_hash_table :=
  UTHashTable bs (num_buckets t) (log2_num_buckets t) (num_items t) (tail t) (ideal_chain_maxlen t)
    (nonideal_items t) (ineff_expands t) (noexpand t).
Definition set_tail t (x : Z) : UT_hash_table :=
  UTHashTable (buckets t) (num_buckets t) (log2_num_buckets t) (num_items t) x (ideal_chain_maxlen t)
    (nonideal_items t) (ineff_expands t) (noexpand t).
Definition set_items t (n : Z) : UT_hash_table :=
  UTHashTable (buckets t) (num_buckets t) (log2_num_buckets t) n (tail t) (ideal_chain_maxlen t)
    (nonideal_items t) (ineff_expands t) (noexpand t).

(** ** Operations *)

Definition HASH_TO_BKT (hashv num_bkts : Z) : Z := Z.land hashv (u32 (num_bkts - 1)).

Fixpoint HASH_FIND_IN_BKT (fuel : nat) m (out : Z) (k : list byte) : option Z :=
  match fuel with
  | O => None
  | S fuel =>
      if out =? 0 then Some 0 else
      e ← m !! out;
      if (keylen e =? u32 (Z.of_nat (length k))) && bool_decide (key e = k) then Some out
      else HASH_FIND_IN_BKT fuel m (hh_next e) k
  end.

Definition HASH_FIND h (k : list byte) : option Z :=
  if head h =? 0 then Some 0 else
  b ← arr_get (buckets (tbl h)) (HASH_TO_BKT (HASH_JEN k) (num_buckets (tbl h)));
  HASH_FIND_IN_BKT (S (size (mem h))) (mem h) (hh_head b) k.

Definition HASH_MAKE_TABLE (x : Z) : UT_hash_table := UTHashTable (replicate 32 zero_bucket) 32 5 0 x 0 0 0 0.

(** The chain of a bucket from [thh] on goes to the new buckets; the number of
    items behind the ideal length is counted. *)
Fixpoint expand_chain (fuel : nat) (n ideal thh : Z) m (new : list UT_hash_bucket) (nonideal : Z) :
    option (memory * list UT_hash_bucket * Z) :=
  match fuel with
  | O => None
  | S fuel =>
      if thh =? 0 then Some (m, new, nonideal) else
      e ← m !! thh;
      let nxt := hh_next e in
      let i := HASH_TO_BKT (hashv e) n in
      b ← arr_get new i;
      let count := u32 (bkt_count b + 1) in
      '(mult, nonideal) ← (if ideal <? count then
                             assert_ (negb (ideal =? 0));; Some (count / ideal, u32 (nonideal + 1))
                           else Some (expand_mult b, nonideal));
      m ← store m thh (set_hh_prev 0);
      m ← store m thh (set_hh_next (hh_head b));
      m ← store_if m (hh_head b) (set_hh_prev thh);
      new ← arr_set new i (UTHashBucket thh count mult);
      expand_chain fuel n ideal nxt m new nonideal
  end.

Fixpoint expand_buckets (bs : list UT_hash_bucket) (n ideal : Z) m (new : list UT_hash_bucket) (nonideal : Z) :
    option (memory * list UT_hash_bucket * Z) :=
  match bs with
  | [] => Some (m, new, nonideal)
  | b :: bs =>
      '(m, new, nonideal) ← expand_chain (S (size m)) n ideal (hh_head b) m new nonideal;
      expand_buckets bs n ideal m new nonideal
  end.

Definition HASH_EXPAND_BUCKETS m t : option (memory * UT_hash_table) :=
  let n := u32 (num_buckets t * 2) in
  let ideal := u32 (Z.shiftr (num_items t) (log2_num_buckets t + 1) +
                    (if Z.land (num_items t) (u32 (n - 1)) =? 0 then 0 else 1)) in
  '(m, new, nonideal) ← expand_buckets (take (Z.to_nat (num_buckets t)) (buckets t)) n ideal m
                          (replicate (Z.to_nat (2 * num_buckets t)) zero_bucket) 0;
  let ineff := if Z.shiftr (num_items t) 1 <? nonideal then u32 (ineff_expands t + 1) else 0 in
  Some (m, UTHashTable new n (log2_num_buckets t + 1) (num_items t) (tail t) ideal nonideal ineff
             (if 1 <? ineff then 1 else noexpand t)).

Definition HASH_ADD_TO_BKT m t (i x : Z) : option (memory * UT_hash_table) :=
  b ← arr_get (buckets t) i;
  let count := u32 (bkt_count b + 1) in
  m ← store m x (set_hh_next (hh_head b));
  m ← store m x (set_hh_prev 0);
  m ← store_if m (hh_head b) (set_hh_prev x);
  bs ← arr_set (buckets t) i (UTHashBucket x count (expand_mult b));
  let t := set_buckets t bs in
  if (u32 ((expand_mult b + 1) * 10) <=? count) && negb (noexpand t =? 1) then HASH_EXPAND_BUCKETS m t
  else Some (m, t).

(** [HASH_ADD]: the element at [x], with the key in one of its members. *)
Definition HASH_ADD h (x : Z) : option hash :=
  m ← store (mem h) x (set_next 0);
  e ← m !! x;
  m ← store m x (set_keylen (u32 (Z.of_nat (length (key e)))));
  '(hd, t, m) ← (if head h =? 0 then
                   m ← store m x (set_prev 0); Some (x, HASH_MAKE_TABLE x, m)
                 else
                   m ← store m (tail (tbl h)) (set_next x);
                   m ← store m x (set_prev (tail (tbl h)));
                   Some (head h, set_tail (tbl h) x, m));
  let t := set_items t (u32 (num_items t + 1)) in
  m ← store m x (set_hashv (HASH_JEN (key e)));
  '(m, t) ← HASH_ADD_TO_BKT m t (HASH_TO_BKT (HASH_JEN (key e)) (num_buckets t)) x;
  Some (Hash hd t m).

Definition HASH_DEL_IN_BKT m t (i x : Z) : option (memory * UT_hash_table) :=
  b ← arr_get (buckets t) i;
  e ← m !! x;
  bs ← arr_set (buckets t) i
         (UTHashBucket (if hh_head b =? x then hh_next e else hh_head b) (u32 (bkt_count b - 1)) (expand_mult b));
  m ← store_if m (hh_prev e) (set_hh_next (hh_next e));
  e ← m !! x;
  m ← store_if m (hh_next e) (set_hh_prev (hh_prev e));
  Some (m, set_buckets t bs).

(** The table is freed with its last element. *)
Definition HASH_DELETE h (x : Z) : option hash :=
  e ← mem h !! x;
  if (prev e =? 0) && (next e =? 0) then Some (Hash 0 (tbl h) (mem h)) else
  let t := if x =? tail (tbl h) then set_tail (tbl h) (prev e) else tbl h in
  '(hd, m) ← (if negb (prev e =? 0) then
                m ← store (mem h) (prev e) (set_next (next e)); Some (head h, m)
              else Some (next e, mem h));
  e ← m !! x;
  m ← store_if m (next e) (set_prev (prev e));
  e ← m !! x;
  '(m, t) ← HASH_DEL_IN_BKT m t (HASH_TO_BKT (hashv e) (num_buckets t)) x;
  Some (Hash hd (set_items t (u32 (num_items t - 1))) m).

(** [HASH_ITER]: the elements in the order they were added, when the body keeps
    the table; a body may delete the element it is given, the next one is read
    before. *)
Fixpoint iter_from (fuel : nat) m (el : Z) : option (list Z) :=
  match fuel with
  | O => None
  | S fuel => if el =? 0 then Some [] else e ← m !! el; l ← iter_from fuel m (next e); Some (el :: l)
  end.

Definition HASH_ITER h : option (list Z) := iter_from (S (size (mem h))) (mem h) (head h).
End uthash.
Arguments element : clear implicits.
Arguments hash : clear implicits.
