(* ===== verification/UthashInv.v ===== *)
(** * The hash table of the proxy is a list of elements with a lookup by key

    [table_rep h l]: [h] represents the elements [l], in the order they were added.
    Adding, finding and deleting refine the operations on [l]. *)

From S2P Require Import Prelude Uthash.
#[local] Open Scope Z_scope.

(** ** Linked segments

    [links] gives the two pointers of an element.  [seg L p l n]: the elements [l]
    are linked in this order, the first one back to [p] and the last one on to [n]. *)

Notation links := (gmap Z (Z * Z)).

Definition first (n : Z) (l : list Z) : Z := default n (list.head l).
Definition final (p : Z) (l : list Z) : Z := default p (last l).

Fixpoint seg (L : links) (p : Z) (l : list Z) (n : Z) : Prop :=
  match l with
  | [] => True
  | x :: l' => x <> 0 /\ L !! x = Some (p, first n l') /\ seg L x l' n
  end.

Definition set_fst (L : links) (x p : Z) : links := alter (fun e => (p, e.2)) x L.
Definition set_snd (L : links) (x n : Z) : links := alter (fun e => (e.1, n)) x L.

(** [x] taken out of its list. *)
Definition unlink (L : links) (p n : Z) : links :=
  let L := if p =? 0 then L else set_snd L p n in
  if n =? 0 then L else set_fst L n p.

(** [x] put before the list that begins with [h]. *)
Definition link_front (L : links) (x h : Z) : links :=
  let L := <[x := (0, h)]> L in
  if h =? 0 then L else set_fst L h x.

Section seg.
Implicit Types (L : links) (l : list Z).

Lemma final_cons p x l : final p (x :: l) = final x l.
Proof. unfold final. rewrite last_cons. by destruct (last l). Qed.

Lemma first_app n l1 l2 : first n (l1 ++ l2) = first (first n l2) l1.
Proof. by destruct l1. Qed.

Lemma final_app p l1 l2 : final p (l1 ++ l2) = final (final p l1) l2.
Proof. unfold final. rewrite last_app. by destruct (last l2). Qed.

Lemma first_in l : l <> [] -> first 0 l ∈ l.
Proof. destruct l; [done|]. intros _. left. Qed.

Lemma final_in l : l <> [] -> final 0 l ∈ l.
Proof. intros Hl. unfold final. destruct (last l) as [x|] eqn:E; [by apply last_Some_elem_of|by apply last_None in E]. Qed.

Lemma seg_ne L p l n x : seg L p l n -> x ∈ l -> x <> 0.
Proof. revert p. induction l as [|y l IH]; intros p; [set_solver|]. intros (Hy & _ & Hl) [->|Hx]%elem_of_cons; eauto. Qed.

Lemma first_0 L p l n : seg L p l n -> first 0 l = 0 <-> l = [].
Proof. destruct l as [|x l]; [done|]. intros (Hx & _). by split. Qed.

Lemma final_0 L p l n : seg L p l n -> final 0 l = 0 <-> l = [].
Proof.
  intros Hl. split; [|by intros ->]. destruct l as [|x l]; [done|]. intros E.
  pose proof (final_in (x :: l) ltac:(done)) as Hin. rewrite E in Hin. by destruct (seg_ne _ _ _ _ _ Hl Hin).
Qed.

Lemma seg_app L p l1 l2 n : seg L p (l1 ++ l2) n <-> seg L p l1 (first n l2) /\ seg L (final p l1) l2 n.
Proof.
  revert p. induction l1 as [|x l1 IH]; intros p; simpl; [tauto|].
  rewrite IH, first_app, final_cons. tauto.
Qed.

Lemma seg_ext L L' p l n : (forall x, x ∈ l -> L' !! x = L !! x) -> seg L p l n -> seg L' p l n.
Proof.
  revert p. induction l as [|x l IH]; intros p He; [done|]. intros (Hx & HL & Hl). split_and!; [done| |].
  - rewrite He; [done|left].
  - apply IH; [|done]. intros y Hy. apply He. by right.
Qed.

Lemma set_fst_ne L x p y : x <> y -> set_fst L x p !! y = L !! y.
Proof. apply lookup_alter_ne. Qed.
Lemma set_snd_ne L x n y : x <> y -> set_snd L x n !! y = L !! y.
Proof. apply lookup_alter_ne. Qed.

(** The first pointer back. *)
Lemma seg_set_first L p p' l n : NoDup l -> l <> [] -> seg L p l n -> seg (set_fst L (first 0 l) p') p' l n.
Proof.
  destruct l as [|x l]; [done|]. intros [Hx _]%NoDup_cons _ (Hx0 & HL & Hl). unfold first at 1. simpl. split_and!; [done| |].
  - unfold set_fst. by rewrite lookup_alter_eq, HL.
  - eapply seg_ext; [|done]. intros y Hy. apply set_fst_ne. by intros ->.
Qed.

(** The last pointer on. *)
Lemma seg_set_final L p l n n' : NoDup l -> l <> [] -> seg L p l n -> seg (set_snd L (final 0 l) n') p l n'.
Proof.
  intros Hnd Hl. destruct l as [|x l _] using rev_ind; [done|]. apply NoDup_app in Hnd as (_ & Hx & _).
  assert (final 0 (l ++ [x]) = x) as -> by (unfold final; by rewrite last_snoc). rewrite !seg_app. simpl. intros (Hseg & Hx0 & HL & _). split_and!; try done.
  - eapply seg_ext; [|done]. intros y Hy. apply set_snd_ne. intros ->. by apply (Hx y Hy); left.
  - unfold set_snd. by rewrite lookup_alter_eq, HL.
Qed.

(** Taking an element out. *)
Lemma seg_unlink L l1 x l2 :
  NoDup (l1 ++ x :: l2) -> seg L 0 (l1 ++ x :: l2) 0 -> seg (unlink L (final 0 l1) (first 0 l2)) 0 (l1 ++ l2) 0.
Proof.
  intros Hnd Hseg. apply seg_app in Hseg as [H1 (Hx & HL & H2)].
  apply NoDup_app in Hnd as (Hnd1 & Hdisj & [Hx2 Hnd2]%NoDup_cons).
  assert (seg (if final 0 l1 =? 0 then L else set_snd L (final 0 l1) (first 0 l2)) 0 l1 (first 0 l2)) as H1'.
  { destruct (decide (l1 = [])) as [->|Hne]; [done|].
    destruct (Z.eqb_spec (final 0 l1) 0) as [E|_]; [by apply (final_0 _ _ _ _ H1) in E|]. by eapply seg_set_final. }
  assert (seg (if final 0 l1 =? 0 then L else set_snd L (final 0 l1) (first 0 l2)) x l2 0) as H2'.
  { destruct (Z.eqb_spec (final 0 l1) 0) as [E|E]; [done|]. eapply seg_ext; [|done]. intros y Hy.
    apply set_snd_ne. intros <-. destruct (decide (l1 = [])) as [->|Hne]; [done|].
    apply (Hdisj _ (final_in l1 Hne)). by right. }
  unfold unlink. set (L' := if _ =? 0 then _ else _) in *. apply seg_app.
  destruct (decide (l2 = [])) as [->|Hne]; [done|].
  destruct (Z.eqb_spec (first 0 l2) 0) as [E|_]; [by apply (first_0 _ _ _ _ H2) in E|]. split.
  - eapply seg_ext; [|done]. intros y Hy. apply set_fst_ne. intros <-. apply (Hdisj _ Hy). right. by apply first_in.
  - by eapply seg_set_first.
Qed.

Lemma seg_link_front L l x :
  x <> 0 -> x ∉ l -> NoDup l -> seg L 0 l 0 -> seg (link_front L x (first 0 l)) 0 (x :: l) 0.
Proof.
  intros Hx Hxl Hnd Hseg. unfold link_front. destruct (decide (l = [])) as [->|Hne].
  { simpl. split_and!; [done| |done]. by rewrite lookup_insert_eq. }
  destruct (Z.eqb_spec (first 0 l) 0) as [E|_]; [by apply (first_0 _ _ _ _ Hseg) in E|].
  pose proof (first_in l Hne) as Hf. simpl. split_and!; [done| |].
  - rewrite set_fst_ne by (intros E; by rewrite E in Hf). by rewrite lookup_insert_eq.
  - apply (seg_set_first _ 0); [done..|]. eapply seg_ext; [|done]. intros y Hy. apply lookup_insert_ne. by intros <-.
Qed.

(** Appending an element. *)
Lemma seg_snoc L l x :
  x <> 0 -> x ∉ l -> NoDup l -> seg L 0 l 0 ->
  seg (<[x := (final 0 l, 0)]> (if final 0 l =? 0 then L else set_snd L (final 0 l) x)) 0 (l ++ [x]) 0.
Proof.
  intros Hx Hxl Hnd Hseg. apply seg_app. split; [|simpl; by rewrite lookup_insert_eq].
  eapply seg_ext; [intros y Hy; apply lookup_insert_ne; by intros <-|]. simpl.
  destruct (decide (l = [])) as [->|Hne]; [done|].
  destruct (Z.eqb_spec (final 0 l) 0) as [E|_]; [by apply (final_0 _ _ _ _ Hseg) in E|]. by eapply seg_set_final.
Qed.
End seg.

(** ** Views of the memory *)

Section views.
Context {A : Type}.
Notation memory := (gmap Z (element A)).
Implicit Types (m : memory) (f : element A -> element A).

Definition app_links m : links := (fun e => (prev e, next e)) <$> m.
Definition bkt_links m : links := (fun e => (hh_prev e, hh_next e)) <$> m.
Definition info (e : element A) : list byte * A * Z * Z := (key e, payload e, keylen e, hashv e).
Definition infos m : gmap Z (list byte * A * Z * Z) := info <$> m.

Lemma view_alter {B} (v : element A -> B) f (g : B -> B) x m :
  (forall e, v (f e) = g (v e)) -> v <$> alter f x m = alter g x (v <$> m).
Proof.
  intros E. apply map_eq. intros y. rewrite lookup_fmap. destruct (decide (x = y)) as [<-|Hne].
  - rewrite !lookup_alter_eq, lookup_fmap. destruct (m !! x); simpl; [|done]. by rewrite E.
  - by rewrite !lookup_alter_ne, lookup_fmap.
Qed.

Lemma view_same {B} (v : element A -> B) f x m : (forall e, v (f e) = v e) -> v <$> alter f x m = v <$> m.
Proof. intros E. rewrite (view_alter v f id) by done. apply map_eq. intros y.
  destruct (decide (x = y)) as [<-|Hne]; [|by rewrite lookup_alter_ne]. rewrite lookup_alter_eq. by destruct (_ !! x). Qed.

Lemma store_alter m x f : is_Some (m !! x) -> Uthash.store m x f = Some (alter f x m).
Proof.
  intros [e He]. unfold Uthash.store. rewrite He. simpl. f_equal. apply map_eq. intros y.
  destruct (decide (x = y)) as [<-|Hne]; [by rewrite lookup_insert_eq, lookup_alter_eq, He|].
  by rewrite lookup_insert_ne, lookup_alter_ne.
Qed.

Lemma store_if_alter m x f : (x <> 0 -> is_Some (m !! x)) ->
  store_if m x f = Some (if x =? 0 then m else alter f x m).
Proof. intros Hx. unfold store_if. destruct (Z.eqb_spec x 0); [done|]. by apply store_alter, Hx. Qed.

Lemma alter_is_Some m x y f : is_Some (alter f x m !! y) <-> is_Some (m !! y).
Proof. rewrite lookup_alter_is_Some. done. Qed.

Lemma app_set_prev m x p : app_links (alter (set_prev p) x m) = set_fst (app_links m) x p.
Proof. by apply view_alter. Qed.
Lemma app_set_next m x n : app_links (alter (set_next n) x m) = set_snd (app_links m) x n.
Proof. by apply view_alter. Qed.
Lemma app_set_hh_prev m x p : app_links (alter (set_hh_prev p) x m) = app_links m.
Proof. by apply view_same. Qed.
Lemma app_set_hh_next m x n : app_links (alter (set_hh_next n) x m) = app_links m.
Proof. by apply view_same. Qed.
Lemma app_set_keylen m x n : app_links (alter (set_keylen n) x m) = app_links m.
Proof. by apply view_same. Qed.
Lemma app_set_hashv m x n : app_links (alter (set_hashv n) x m) = app_links m.
Proof. by apply view_same. Qed.
Lemma bkt_set_prev m x p : bkt_links (alter (set_prev p) x m) = bkt_links m.
Proof. by apply view_same. Qed.
Lemma bkt_set_next m x n : bkt_links (alter (set_next n) x m) = bkt_links m.
Proof. by apply view_same. Qed.
Lemma bkt_set_hh_prev m x p : bkt_links (alter (set_hh_prev p) x m) = set_fst (bkt_links m) x p.
Proof. by apply view_alter. Qed.
Lemma bkt_set_hh_next m x n : bkt_links (alter (set_hh_next n) x m) = set_snd (bkt_links m) x n.
Proof. by apply view_alter. Qed.
Lemma bkt_set_keylen m x n : bkt_links (alter (set_keylen n) x m) = bkt_links m.
Proof. by apply view_same. Qed.
Lemma bkt_set_hashv m x n : bkt_links (alter (set_hashv n) x m) = bkt_links m.
Proof. by apply view_same. Qed.
Lemma info_set_prev m x p : infos (alter (set_prev p) x m) = infos m.
Proof. by apply view_same. Qed.
Lemma info_set_next m x n : infos (alter (set_next n) x m) = infos m.
Proof. by apply view_same. Qed.
Lemma info_set_hh_prev m x p : infos (alter (set_hh_prev p) x m) = infos m.
Proof. by apply view_same. Qed.
Lemma info_set_hh_next m x n : infos (alter (set_hh_next n) x m) = infos m.
Proof. by apply view_same. Qed.

Lemma bkt_lookup m x e : m !! x = Some e -> bkt_links m !! x = Some (hh_prev e, hh_next e).
Proof. intros He. unfold bkt_links. by rewrite lookup_fmap, He. Qed.
Lemma app_lookup m x e : m !! x = Some e -> app_links m !! x = Some (prev e, next e).
Proof. intros He. unfold app_links. by rewrite lookup_fmap, He. Qed.
Lemma info_lookup m x e : m !! x = Some e -> infos m !! x = Some (info e).
Proof. intros He. unfold infos. by rewrite lookup_fmap, He. Qed.

Lemma seg_in_mem m p l n x : seg (bkt_links m) p l n -> x ∈ l -> is_Some (m !! x).
Proof.
  revert p. induction l as [|y l IH]; intros p; [set_solver|]. intros (_ & HL & Hl) [->|Hx]%elem_of_cons; [|eauto].
  unfold bkt_links in HL. rewrite lookup_fmap in HL. destruct (m !! y); [done|discriminate].
Qed.

(** A chain is not longer than the memory. *)
Lemma chain_size m (c : list Z) : NoDup c -> (forall x, x ∈ c -> is_Some (m !! x)) -> (length c <= size m)%nat.
Proof.
  intros Hnd Hin. rewrite <- size_dom, <- (size_list_to_set (C := gset Z) c) by done.
  apply subseteq_size. intros x Hx%elem_of_list_to_set. by apply elem_of_dom, Hin.
Qed.
End views.

#[global] Create Rewrite HintDb views.
#[export] Hint Rewrite @app_set_prev @app_set_next @app_set_hh_prev @app_set_hh_next @app_set_keylen @app_set_hashv
  @bkt_set_prev @bkt_set_next @bkt_set_hh_prev @bkt_set_hh_next @bkt_set_keylen @bkt_set_hashv
  @info_set_prev @info_set_next @info_set_hh_prev @info_set_hh_next : views.

(** ** Buckets *)

Definition bucket_rep (B : links) (b : UT_hash_bucket) (c : list Z) : Prop :=
  hh_head b = first 0 c /\ bkt_count b = Z.of_nat (length c) /\ seg B 0 c 0.

Definition chains_rep (B : links) : list UT_hash_bucket -> list (list Z) -> Prop := Forall2 (bucket_rep B).

(** The bucket of an element with a hash. *)
Definition slots_ok (hv : Z -> Z) (n : Z) (cs : list (list Z)) : Prop :=
  forall i c x, cs !! i = Some c -> x ∈ c -> HASH_TO_BKT (hv x) n = Z.of_nat i.

Lemma insert_middle {X} (l1 l2 : list X) x y : <[length l1 := y]> (l1 ++ x :: l2) = l1 ++ y :: l2.
Proof. by rewrite insert_app_r_alt, Nat.sub_diag by lia. Qed.

Section chains.
Implicit Types (B : links) (bs : list UT_hash_bucket) (cs : list (list Z)) (x : Z) (i : nat).

Lemma bucket_rep_ext B B' b c : (forall x, x ∈ c -> B' !! x = B !! x) -> bucket_rep B b c -> bucket_rep B' b c.
Proof. intros He (? & ? & ?). split_and!; try done. by eapply seg_ext. Qed.

Lemma chains_rep_ext B B' bs cs :
  (forall x, x ∈ List.concat cs -> B' !! x = B !! x) -> chains_rep B bs cs -> chains_rep B' bs cs.
Proof.
  intros He Hr. unfold chains_rep in *. induction Hr as [|b c bs cs Hb _ IH]; [done|]. constructor.
  - eapply bucket_rep_ext; [|done]. intros x Hx. apply He. simpl. apply elem_of_app. by left.
  - apply IH. intros x Hx. apply He. simpl. apply elem_of_app. by right.
Qed.

(** One bucket apart from the others. *)
Lemma chains_split B bs cs i b : chains_rep B bs cs -> bs !! i = Some b ->
  exists bs1 bs2 cs1 c cs2, bs = bs1 ++ b :: bs2 /\ cs = cs1 ++ c :: cs2 /\ i = length bs1 /\ length cs1 = length bs1 /\
    chains_rep B bs1 cs1 /\ bucket_rep B b c /\ chains_rep B bs2 cs2.
Proof.
  intros Hr (bs1 & bs2 & -> & ->)%list_elem_of_split_length. unfold chains_rep in *.
  apply Forall2_app_inv_l in Hr as (cs1 & cs' & H1 & H2 & ->). inversion H2 as [|? c ? cs2 Hb H3]; subst.
  exists bs1, bs2, cs1, c, cs2. split_and!; try done. symmetry. by eapply Forall2_length.
Qed.

Lemma chains_join B bs1 b bs2 cs1 c cs2 B' b' c' :
  chains_rep B bs1 cs1 -> bucket_rep B' b' c' -> chains_rep B bs2 cs2 ->
  (forall x, x ∈ List.concat cs1 \/ x ∈ List.concat cs2 -> B' !! x = B !! x) -> length cs1 = length bs1 ->
  chains_rep B' (<[length bs1 := b']> (bs1 ++ b :: bs2)) (<[length bs1 := c']> (cs1 ++ c :: cs2)).
Proof.
  intros H1 Hb H2 He Hlen. rewrite insert_middle, <- Hlen, insert_middle. unfold chains_rep.
  apply Forall2_app; [|constructor; [done|]]; (eapply chains_rep_ext; [|done]); auto.
Qed.

(** An element goes to the front of a bucket. *)
Lemma push_rep B bs cs i b x mult :
  chains_rep B bs cs -> NoDup (List.concat cs) -> x <> 0 -> x ∉ List.concat cs -> bs !! i = Some b ->
  Z.of_nat (length (List.concat cs)) + 1 < 2 ^ 32 ->
  exists c, cs !! i = Some c /\ (hh_head b <> 0 -> hh_head b ∈ List.concat cs /\ is_Some (B !! hh_head b)) /\
    chains_rep (link_front B x (hh_head b)) (<[i := UTHashBucket x (u32 (bkt_count b + 1)) mult]> bs) (<[i := x :: c]> cs) /\
    List.concat (<[i := x :: c]> cs) ≡ₚ x :: List.concat cs.
Proof.
  intros Hr Hnd Hx0 Hx Hb Hmax. destruct (chains_split _ _ _ _ _ Hr Hb) as (bs1 & bs2 & cs1 & c & cs2 & -> & -> & -> & Hlen & H1 & (Hh & Hc & Hseg) & H2).
  rewrite concat_app in *. cbn [List.concat] in *. rewrite !length_app in Hmax. exists c.
  apply NoDup_app in Hnd as (Hnd1 & Hd1 & (Hndc & Hd2 & Hnd2)%NoDup_app). rewrite !not_elem_of_app in Hx.
  split_and!.
  - rewrite <- Hlen. by rewrite lookup_app_r, Nat.sub_diag by lia.
  - intros Hne. rewrite Hh in *. destruct c as [|y c]; [done|]. destruct Hseg as (_ & HL & _). split; [set_solver|by eexists].
  - apply (chains_join B); try done.
    + split; [done|]. split; [|rewrite Hh; apply seg_link_front; tauto]. cbn. rewrite Hc, u32_small by lia. lia.
    + intros y Hy. unfold link_front. assert (x <> y) by (intros ->; tauto).
      destruct (Z.eqb_spec (hh_head b) 0) as [|Hne]; [by apply lookup_insert_ne|].
      rewrite set_fst_ne; [by apply lookup_insert_ne|]. intros <-. rewrite Hh in Hy.
      assert (first 0 c ∈ c) as Hf by (apply first_in; intros ->; by rewrite Hh in Hne).
      destruct Hy as [Hy|Hy]; [apply (Hd1 _ Hy), elem_of_app; by left|by apply (Hd2 _ Hf)].
  - rewrite <- Hlen, insert_middle, concat_app. cbn [List.concat app]. symmetry. apply Permutation_middle.
Qed.

(** An element is taken out of its bucket. *)
Lemma remove_rep B bs cs i b x mult p n :
  chains_rep B bs cs -> NoDup (List.concat cs) -> bs !! i = Some b -> (exists c, cs !! i = Some c /\ x ∈ c) ->
  B !! x = Some (p, n) -> Z.of_nat (length (List.concat cs)) < 2 ^ 32 ->
  exists c, chains_rep (unlink B p n) (<[i := UTHashBucket (if hh_head b =? x then n else hh_head b) (u32 (bkt_count b - 1)) mult]> bs) (<[i := c]> cs) /\
    x :: List.concat (<[i := c]> cs) ≡ₚ List.concat cs /\ (forall y c0, cs !! i = Some c0 -> y ∈ c -> y ∈ c0) /\
    (p <> 0 -> p ∈ List.concat cs) /\ (n <> 0 -> n ∈ List.concat cs) /\ p <> x /\ n <> x.
Proof.
  intros Hr Hnd Hb (c & Hcs & Hx) HB Hmax.
  destruct (chains_split _ _ _ _ _ Hr Hb) as (bs1 & bs2 & cs1 & c' & cs2 & -> & -> & -> & Hlen & H1 & (Hh & Hc & Hseg) & H2).
  rewrite <- Hlen, lookup_app_r, Nat.sub_diag in Hcs by lia. injection Hcs as ->.
  rewrite concat_app in *. cbn [List.concat] in *. rewrite !length_app in Hmax.
  apply NoDup_app in Hnd as (Hnd1 & Hd1 & (Hndc & Hd2 & Hnd2)%NoDup_app).
  apply list_elem_of_split in Hx as (c1 & c2 & ->).
  assert (p = final 0 c1 /\ n = first 0 c2) as [-> ->].
  { apply seg_app in Hseg as [_ (_ & HL & _)]. rewrite HB in HL. by simplify_eq. }
  pose proof Hndc as Hndc'. apply NoDup_app in Hndc' as (Hndc1 & Hdc & [Hxc2 Hndc2]%NoDup_cons).
  assert (x <> 0) as Hx0 by (eapply seg_ne; [exact Hseg|set_solver]).
  assert (c1 <> [] -> final 0 c1 ∈ c1) as Hp by apply final_in. assert (c2 <> [] -> first 0 c2 ∈ c2) as Hn by apply first_in.
  assert (final 0 c1 <> 0 -> final 0 c1 ∈ c1) as Hp0 by (intros E; apply Hp; intros ->; by apply E).
  assert (first 0 c2 <> 0 -> first 0 c2 ∈ c2) as Hn0 by (intros E; apply Hn; intros ->; by apply E).
  exists (c1 ++ c2). split_and!.
  - apply (chains_join B); try done.
    + split_and!.
      * cbn. rewrite Hh. destruct c1 as [|y c1]; [by rewrite Z.eqb_refl|].
        cbn. destruct (Z.eqb_spec y x) as [->|]; [|done]. destruct (Hdc x); set_solver.
      * cbn. rewrite Hc, !length_app in *. cbn [length] in *. rewrite u32_small; lia.
      * by apply (seg_unlink _ _ x).
    + intros y Hy. assert (y ∉ c1 ++ x :: c2) as Hyc by (intros Hyc; destruct Hy as [Hy|Hy]; [apply (Hd1 _ Hy), elem_of_app; by left|by apply (Hd2 _ Hyc)]).
      unfold unlink. destruct (Z.eqb_spec (first 0 c2) 0) as [|En], (Z.eqb_spec (final 0 c1) 0) as [|Ep]; try done;
        rewrite ?set_fst_ne, ?set_snd_ne; try done; intros <-; set_solver.
  - rewrite <- Hlen, insert_middle, concat_app. cbn [List.concat]. rewrite <- !(assoc_L (++)).
    rewrite Permutation_middle. apply Permutation_app_head. cbn [app]. by rewrite Permutation_middle.
  - intros y c0. rewrite <- Hlen, lookup_app_r, Nat.sub_diag by lia. intros [= <-]. set_solver.
  - intros E. specialize (Hp0 E). set_solver.
  - intros E. specialize (Hn0 E). set_solver.
  - intros E. destruct (decide (c1 = [])) as [->|Hne]; [by apply Hx0|]. specialize (Hp Hne). rewrite E in Hp. destruct (Hdc x); set_solver.
  - intros E. destruct (decide (c2 = [])) as [->|Hne]; [by apply Hx0|]. specialize (Hn Hne). rewrite E in Hn. done.
Qed.
End chains.

(** ** Adding to a bucket *)

Section push.
Context {A : Type}.
Notation memory := (gmap Z (element A)).
Implicit Types (m : memory) (bs : list UT_hash_bucket) (cs : list (list Z)) (t : UT_hash_table).

Definition hash_at (I : gmap Z (list byte * A * Z * Z)) (x : Z) : Z := default 0 (snd <$> I !! x).

Lemma hash_at_lookup m x e : m !! x = Some e -> hash_at (infos m) x = hashv e.
Proof. intros He. unfold hash_at. by rewrite (info_lookup _ _ _ He). Qed.

(** The memory after [x] was linked before [h] in a bucket. *)
Definition pushed m (x h : Z) : memory :=
  let m := alter (set_hh_next h) x (alter (set_hh_prev 0) x m) in
  if h =? 0 then m else alter (set_hh_prev x) h m.

Lemma pushed_bkt m x h : is_Some (m !! x) -> bkt_links (pushed m x h) = link_front (bkt_links m) x h.
Proof.
  intros [e He]. unfold pushed, link_front.
  assert (bkt_links (alter (set_hh_next h) x (alter (set_hh_prev 0) x m)) = <[x := (0, h)]> (bkt_links m)) as E.
  { autorewrite with views. apply map_eq. intros y. unfold set_snd, set_fst. destruct (decide (x = y)) as [<-|Hne].
    - rewrite !lookup_alter_eq, lookup_insert_eq. by rewrite (bkt_lookup _ _ _ He).
    - by rewrite !lookup_alter_ne, lookup_insert_ne. }
  destruct (h =? 0); [done|]. by rewrite bkt_set_hh_prev, E.
Qed.

Lemma pushed_app m x h : app_links (pushed m x h) = app_links m.
Proof. unfold pushed. destruct (h =? 0); by autorewrite with views. Qed.

Lemma pushed_info m x h : infos (pushed m x h) = infos m.
Proof. unfold pushed. destruct (h =? 0); by autorewrite with views. Qed.

Lemma infos_dom m m' x : infos m' = infos m -> is_Some (m !! x) -> is_Some (m' !! x).
Proof.
  intros E [e He]. pose proof (info_lookup _ _ _ He) as Hi. rewrite <- E in Hi. unfold infos in Hi.
  rewrite lookup_fmap in Hi. destruct (m' !! x); [done|discriminate].
Qed.

Lemma infos_size m m' : infos m' = infos m -> size m' = size m.
Proof. intros E. rewrite <- (map_size_fmap info m), <- (map_size_fmap info m'). unfold infos in E. by rewrite E. Qed.

Lemma link_front_ne (B : links) x h y : y <> x -> (h <> 0 -> y <> h) -> link_front B x h !! y = B !! y.
Proof.
  intros Hx Hh. unfold link_front. destruct (Z.eqb_spec h 0); [by rewrite lookup_insert_ne|].
  rewrite set_fst_ne by (intros ->; by apply Hh). by rewrite lookup_insert_ne.
Qed.

Lemma slots_push (hv : Z -> Z) n cs i c x :
  slots_ok hv n cs -> cs !! i = Some c -> HASH_TO_BKT (hv x) n = Z.of_nat i -> slots_ok hv n (<[i := x :: c]> cs).
Proof.
  intros Hs Hc Hx j d y Hd Hy. apply list_lookup_insert_Some in Hd as [(-> & <- & _)|[_ Hd]]; [|by eapply Hs].
  apply elem_of_cons in Hy as [->|Hy]; [done|by eapply Hs].
Qed.

Lemma land_range a n : 0 < n -> 0 <= HASH_TO_BKT a (2 ^ n) < 2 ^ n \/ 2 ^ 32 <= 2 ^ n - 1.
Proof.
  intros Hn. destruct (Z.lt_ge_cases (2 ^ n - 1) (2 ^ 32)) as [Hlt|]; [left|by right]. unfold HASH_TO_BKT.
  rewrite u32_small by lia. replace (2 ^ n - 1) with (Z.ones n) by (rewrite Z.ones_equiv; lia).
  rewrite Z.land_ones by lia. apply Z.mod_pos_bound. lia.
Qed.

Lemma bkt_index a n : 0 < n <= 32 -> 0 <= HASH_TO_BKT a (2 ^ n) < 2 ^ n.
Proof.
  intros Hn. destruct (land_range a n ltac:(lia)); [done|].
  assert (2 ^ n <= 2 ^ 32) by (apply Z.pow_le_mono_r; lia). lia.
Qed.

(** The chain of an old bucket goes to the new ones; the links of the elements
    [o] of the other buckets stay. *)
Lemma expand_chain_spec n ideal (c : list Z) : forall fuel m bs cs p nonideal (o : list Z),
  0 < n <= 32 -> ideal <> 0 -> length bs = Z.to_nat (2 ^ n) -> (length c < fuel)%nat ->
  seg (bkt_links m) p c 0 -> NoDup (List.concat cs ++ c ++ o) -> chains_rep (bkt_links m) bs cs ->
  slots_ok (hash_at (infos m)) (2 ^ n) cs -> Z.of_nat (length (List.concat cs ++ c)) < 2 ^ 32 ->
  exists m' bs' cs' r, expand_chain fuel (2 ^ n) ideal (first 0 c) m bs nonideal = Some (m', bs', r) /\
    length bs' = length bs /\ chains_rep (bkt_links m') bs' cs' /\ List.concat cs' ≡ₚ List.concat cs ++ c /\
    slots_ok (hash_at (infos m')) (2 ^ n) cs' /\ app_links m' = app_links m /\ infos m' = infos m /\
    (forall y, y ∈ o -> bkt_links m' !! y = bkt_links m !! y).
Proof.
  induction c as [|x c IH]; intros fuel m bs cs p nonideal o Hn Hideal Hlen Hfuel Hseg Hnd Hrep Hslots Hmax;
    (destruct fuel as [|fuel]; [simpl in Hfuel; lia|]); cbn [expand_chain].
  { exists m, bs, cs, nonideal. rewrite app_nil_r. by split_and!. }
  destruct Hseg as (Hx0 & HL & Hseg). change (first 0 (x :: c)) with x. rewrite (proj2 (Z.eqb_neq x 0)) by done.
  destruct (seg_in_mem m p (x :: c) 0 x) as [e He]; [by split_and!|left|]. rewrite He. cbn [mbind option_bind].
  rewrite (bkt_lookup _ _ _ He) in HL. injection HL as Hprev Hnext.
  pose proof (bkt_index (hashv e) n Hn) as Hi. set (i := HASH_TO_BKT (hashv e) (2 ^ n)) in *.
  destruct (arr_get_in bs i) as [b Hb]; [lia|]. rewrite Hb. cbn [mbind option_bind]. apply arr_get_Some in Hb as [_ Hb].
  apply NoDup_app in Hnd as (Hndcs & Hdisj & [Hxo Hndo]%NoDup_cons).
  assert (x ∉ List.concat cs) as Hxcs by (intros Hin; apply (Hdisj _ Hin); left).
  rewrite length_app in Hmax. cbn [length] in Hmax.
  set (count := u32 (bkt_count b + 1)) in *.
  set (mn := (if ideal <? count then assert_ (negb (ideal =? 0));; Some (count / ideal, u32 (nonideal + 1))
              else Some (expand_mult b, nonideal)) : option (Z * Z)).
  assert (exists mult r, mn = Some (mult, r)) as (mult & r & Hmn).
  { unfold mn. destruct (ideal <? count); [|by eexists _, _]. rewrite (proj2 (Z.eqb_neq ideal 0)) by done. by eexists _, _. }
  fold mn. rewrite Hmn. cbn [mbind option_bind].
  destruct (push_rep (bkt_links m) bs cs (Z.to_nat i) b x mult Hrep Hndcs Hx0 Hxcs Hb ltac:(lia)) as (c0 & Hc0 & Hh & Hrep' & Hperm).
  assert (hh_head b <> 0 -> is_Some (m !! hh_head b)) as Hhm.
  { intros Hne. destruct (Hh Hne) as [_ HS]. unfold bkt_links in HS. by rewrite lookup_fmap, fmap_is_Some in HS. }
  rewrite store_alter by done. cbn [mbind option_bind]. rewrite store_alter by by apply alter_is_Some. cbn [mbind option_bind].
  rewrite store_if_alter by (intros Hne; rewrite !alter_is_Some; auto). cbn [mbind option_bind]. fold (pushed m x (hh_head b)).
  destruct (arr_set_in bs i (UTHashBucket x count mult)) as [bs1 Hbs1]; [lia|]. rewrite Hbs1. cbn [mbind option_bind].
  apply arr_set_Some in Hbs1 as [_ ->]. rewrite Hnext.
  assert (forall y, y ∈ c ++ o -> bkt_links (pushed m x (hh_head b)) !! y = bkt_links m !! y) as Hrest.
  { intros y Hy. rewrite pushed_bkt by done. apply link_front_ne; [by intros ->|].
    intros Hne ->. destruct (Hh Hne) as [Hin _]. apply (Hdisj _ Hin). by right. }
  destruct (IH fuel (pushed m x (hh_head b)) (<[Z.to_nat i := UTHashBucket x count mult]> bs) (<[Z.to_nat i := x :: c0]> cs) x r o)
    as (m' & bs' & cs' & r' & Hrun & Hl' & Hr' & Hp' & Hs' & Ha' & Hi' & Ho'); try done.
  - by rewrite length_insert.
  - simpl in Hfuel. lia.
  - eapply seg_ext; [|done]. intros y Hy. apply Hrest, elem_of_app. by left.
  - rewrite Hperm. cbn [app]. apply NoDup_cons. split; [by rewrite not_elem_of_app|]. apply NoDup_app. split_and!; try done.
    intros y Hy Hin. apply (Hdisj _ Hy). by right.
  - rewrite pushed_bkt by done. done.
  - rewrite pushed_info. apply slots_push; [done..|]. rewrite (hash_at_lookup _ _ _ He). unfold i in *. lia.
  - rewrite length_app, Hperm. cbn [length]. lia.
  - exists m', bs', cs', r'. rewrite length_insert in Hl'. rewrite pushed_app in Ha'. rewrite pushed_info in Hi'.
    split_and!; try done.
    + rewrite Hp', Hperm. cbn [app]. apply Permutation_middle.
    + intros y Hy. rewrite Ho' by done. apply Hrest, elem_of_app. by right.
Qed.

Lemma expand_buckets_spec n ideal old : forall m olds bs cs nonideal,
  0 < n <= 32 -> ideal <> 0 -> length bs = Z.to_nat (2 ^ n) ->
  chains_rep (bkt_links m) old olds -> NoDup (List.concat cs ++ List.concat olds) -> chains_rep (bkt_links m) bs cs ->
  slots_ok (hash_at (infos m)) (2 ^ n) cs -> Z.of_nat (length (List.concat cs ++ List.concat olds)) < 2 ^ 32 ->
  exists m' bs' cs' r, expand_buckets old (2 ^ n) ideal m bs nonideal = Some (m', bs', r) /\
    length bs' = length bs /\ chains_rep (bkt_links m') bs' cs' /\ List.concat cs' ≡ₚ List.concat cs ++ List.concat olds /\
    slots_ok (hash_at (infos m')) (2 ^ n) cs' /\ app_links m' = app_links m /\ infos m' = infos m.
Proof.
  induction old as [|b old IH]; intros m olds bs cs nonideal Hn Hideal Hlen Hold Hnd Hrep Hslots Hmax; cbn [expand_buckets].
  { inversion Hold; subst. exists m, bs, cs, nonideal. cbn [List.concat]. rewrite app_nil_r. by split_and!. }
  inversion Hold as [|? c ? olds' (Hh & Hc & Hseg) Hold' E1 E2]; subst. cbn [List.concat] in *. rewrite !length_app in Hmax.
  assert (NoDup c) as Hndc by (apply NoDup_app in Hnd as (_ & _ & Hnd); by apply NoDup_app in Hnd as [? _]).
  pose proof (chain_size m c Hndc ltac:(intros; by eapply seg_in_mem)) as Hsize. rewrite Hh.
  destruct (expand_chain_spec n ideal c (S (size m)) m bs cs 0 nonideal (List.concat olds'))
    as (m1 & bs1 & cs1 & r1 & Hrun & Hl1 & Hr1 & Hp1 & Hs1 & Ha1 & Hi1 & Ho1); try done; [lia|rewrite length_app; lia|].
  rewrite Hrun. cbn [mbind option_bind].
  destruct (IH m1 olds' bs1 cs1 r1) as (m2 & bs2 & cs2 & r2 & Hrun2 & Hl2 & Hr2 & Hp2 & Hs2 & Ha2 & Hi2); try done.
  - by rewrite Hl1.
  - by eapply chains_rep_ext.
  - by rewrite Hp1, <- (assoc_L (++)).
  - rewrite length_app, Hp1, !length_app. lia.
  - exists m2, bs2, cs2, r2. split_and!; try done; try congruence. by rewrite Hp2, Hp1, <- (assoc_L (++)).
Qed.

(** A table with [2 ^ lg] buckets. *)
Definition buckets_ok m t (cs : list (list Z)) (lg : Z) : Prop :=
  0 < lg <= 31 /\ log2_num_buckets t = lg /\ num_buckets t = 2 ^ lg /\ length (buckets t) = Z.to_nat (2 ^ lg) /\
  chains_rep (bkt_links m) (buckets t) cs /\ NoDup (List.concat cs) /\ slots_ok (hash_at (infos m)) (2 ^ lg) cs.

Lemma ideal_pos k lg : 0 < k -> 0 <= lg ->
  Z.shiftr k lg + (if Z.land k (2 ^ lg - 1) =? 0 then 0 else 1) <> 0 /\
  0 <= Z.shiftr k lg + (if Z.land k (2 ^ lg - 1) =? 0 then 0 else 1) <= k + 1.
Proof.
  intros Hk Hlg. replace (2 ^ lg - 1) with (Z.ones lg) by (rewrite Z.ones_equiv; lia).
  rewrite Z.land_ones, Z.shiftr_div_pow2 by lia. pose proof (Z.div_mod k (2 ^ lg) ltac:(lia)) as Hdm.
  pose proof (Z.mod_pos_bound k (2 ^ lg) ltac:(lia)). assert (0 <= k / 2 ^ lg <= k) by (split; [apply Z.div_pos; lia|apply Z.div_le_upper_bound; nia]).
  destruct (Z.eqb_spec (k mod 2 ^ lg) 0); nia.
Qed.

Lemma replicate_rep (B : links) k : chains_rep B (replicate k zero_bucket) (replicate k []).
Proof. apply Forall2_replicate. by split_and!. Qed.

Lemma concat_replicate_nil {X} k : List.concat (replicate k (@nil X)) = [].
Proof. induction k; done. Qed.

Lemma slots_replicate (hv : Z -> Z) n k : slots_ok hv n (replicate k []).
Proof. intros i c x Hc Hx. apply lookup_replicate in Hc as [-> _]. by apply elem_of_nil in Hx. Qed.

Lemma HASH_EXPAND_BUCKETS_spec m t cs lg :
  buckets_ok m t cs lg -> lg < 31 -> 0 < num_items t < 2 ^ 32 - 1 -> Z.of_nat (length (List.concat cs)) < 2 ^ 32 ->
  exists m' t' cs', HASH_EXPAND_BUCKETS m t = Some (m', t') /\ buckets_ok m' t' cs' (lg + 1) /\
    List.concat cs' ≡ₚ List.concat cs /\ num_items t' = num_items t /\ tail t' = tail t /\
    app_links m' = app_links m /\ infos m' = infos m.
Proof.
  intros (Hlg & Hl & Hnb & Hlen & Hrep & Hnd & Hslots) Hlt Hitems Hmax. unfold HASH_EXPAND_BUCKETS. rewrite Hnb, Hl.
  assert (2 ^ lg * 2 = 2 ^ (lg + 1)) as E2 by (rewrite Z.pow_add_r by lia; lia).
  assert (2 ^ (lg + 1) <= 2 ^ 31) as Hpow by (apply Z.pow_le_mono_r; lia). assert (0 < 2 ^ (lg + 1)) by lia.
  rewrite E2, (u32_small (2 ^ (lg + 1))) by lia. rewrite (u32_small (2 ^ (lg + 1) - 1)) by lia.
  destruct (ideal_pos (num_items t) (lg + 1)) as [Hideal Hib]; [lia..|].
  rewrite (u32_small (Z.shiftr _ _ + _)) by lia. set (ideal := Z.shiftr _ _ + _) in *.
  rewrite take_ge by lia. replace (2 * 2 ^ lg) with (2 ^ (lg + 1)) by lia.
  destruct (expand_buckets_spec (lg + 1) ideal (buckets t) m cs (replicate (Z.to_nat (2 ^ (lg + 1))) zero_bucket)
    (replicate (Z.to_nat (2 ^ (lg + 1))) []) 0) as (m' & bs' & cs' & r & Hrun & Hl' & Hr' & Hp' & Hs' & Ha' & Hi');
    rewrite ?concat_replicate_nil; try done; try lia; [by rewrite length_replicate|apply replicate_rep|apply slots_replicate|].
  rewrite Hrun. cbn [mbind option_bind]. rewrite concat_replicate_nil in Hp'. cbn [app] in Hp'.
  eexists _, _, cs'. split; [done|]. split_and!; try done. unfold buckets_ok. cbn. rewrite length_replicate in Hl'.
  split_and!; try done; try lia. by rewrite Hp'.
Qed.

Lemma HASH_ADD_TO_BKT_spec m t cs lg x e :
  buckets_ok m t cs lg -> lg < 31 -> 0 < num_items t < 2 ^ 32 - 1 -> Z.of_nat (length (List.concat cs)) + 1 < 2 ^ 32 ->
  m !! x = Some e -> x <> 0 -> x ∉ List.concat cs ->
  exists m' t' cs' lg', HASH_ADD_TO_BKT m t (HASH_TO_BKT (hashv e) (num_buckets t)) x = Some (m', t') /\
    buckets_ok m' t' cs' lg' /\ lg <= lg' <= lg + 1 /\ List.concat cs' ≡ₚ x :: List.concat cs /\
    num_items t' = num_items t /\ tail t' = tail t /\ app_links m' = app_links m /\ infos m' = infos m.
Proof.
  intros Hok Hlt Hitems Hmax He Hx0 Hx. pose proof Hok as (Hlg & Hl & Hnb & Hlen & Hrep & Hnd & Hslots).
  unfold HASH_ADD_TO_BKT. rewrite Hnb. pose proof (bkt_index (hashv e) lg ltac:(lia)) as Hi.
  set (i := HASH_TO_BKT (hashv e) (2 ^ lg)) in *. destruct (arr_get_in (buckets t) i) as [b Hb]; [lia|]. rewrite Hb.
  cbn [mbind option_bind]. apply arr_get_Some in Hb as [_ Hb].
  destruct (push_rep _ _ _ (Z.to_nat i) b x (expand_mult b) Hrep Hnd Hx0 Hx Hb Hmax) as (c & Hc & Hh & Hrep' & Hperm).
  assert (hh_head b <> 0 -> is_Some (m !! hh_head b)) as Hhm.
  { intros Hne. destruct (Hh Hne) as [_ HS]. unfold bkt_links in HS. by rewrite lookup_fmap, fmap_is_Some in HS. }
  rewrite store_alter by done. cbn [mbind option_bind]. rewrite store_alter by (apply alter_is_Some; done). cbn [mbind option_bind].
  rewrite store_if_alter by (intros Hne; rewrite !alter_is_Some; auto). cbn [mbind option_bind].
  assert (alter (set_hh_prev 0) x (alter (set_hh_next (hh_head b)) x m) = alter (set_hh_next (hh_head b)) x (alter (set_hh_prev 0) x m)) as ->.
  { apply map_eq. intros y. destruct (decide (x = y)) as [<-|Hne]; [|by rewrite !lookup_alter_ne].
    rewrite !lookup_alter_eq. by destruct (m !! x). }
  fold (pushed m x (hh_head b)).
  destruct (arr_set_in (buckets t) i (UTHashBucket x (u32 (bkt_count b + 1)) (expand_mult b))) as [bs Hbs]; [lia|].
  rewrite Hbs. cbn [mbind option_bind]. apply arr_set_Some in Hbs as [_ ->].
  set (t1 := set_buckets t _).
  assert (buckets_ok (pushed m x (hh_head b)) t1 (<[Z.to_nat i := x :: c]> cs) lg) as Hok1.
  { unfold buckets_ok, t1. cbn. rewrite length_insert, pushed_bkt, pushed_info by done. split_and!; try (done || lia).
    - rewrite Hperm. by apply NoDup_cons.
    - apply slots_push; [done..|]. rewrite (hash_at_lookup _ _ _ He). unfold i in *. lia. }
  destruct (_ && _).
  - destruct (HASH_EXPAND_BUCKETS_spec _ t1 _ _ Hok1) as (m' & t' & cs' & Hrun & Hok' & Hp' & Hn' & Ht' & Ha' & Hi'); try done.
    { rewrite Hperm. cbn [length]. lia. }
    exists m', t', cs', (lg + 1). rewrite pushed_app in Ha'. rewrite pushed_info in Hi'. split_and!; try (done || lia). by rewrite Hp'.
  - exists (pushed m x (hh_head b)), t1, (<[Z.to_nat i := x :: c]> cs), lg. rewrite pushed_app, pushed_info. split_and!; (done || lia).
Qed.
End push.

(** ** The table *)

Section table.
Context {A : Type}.
Notation memory := (gmap Z (element A)).
Implicit Types (m : memory) (h : hash A) (l : list Z).

(** Keys and payloads, which the operations keep. *)
Definition contents m : gmap Z (list byte * A) := (fun e => (key e, payload e)) <$> m.

Definition hashed m (x : Z) : Prop :=
  exists e, m !! x = Some e /\ keylen e = u32 (Z.of_nat (length (key e))) /\ hashv e = HASH_JEN (key e).

Definition table_rep h l : Prop :=
  NoDup l /\
  match l with
  | [] => head h = 0
  | _ => head h = first 0 l /\ tail (tbl h) = final 0 l /\ seg (app_links (mem h)) 0 l 0 /\
         num_items (tbl h) = Z.of_nat (length l) /\ Z.of_nat (length l) < 2 ^ 32 - 1 /\
         (forall x, x ∈ l -> hashed (mem h) x) /\
         exists cs lg, buckets_ok (mem h) (tbl h) cs lg /\ List.concat cs ≡ₚ l
  end.

Lemma infos_contents m m' : infos m' = infos m -> contents m' = contents m.
Proof.
  intros E. assert (forall m, contents m = (fun i : list byte * A * Z * Z => (i.1.1.1, i.1.1.2)) <$> infos m) as Hc.
  { intros m0. unfold contents, infos. rewrite <- map_fmap_compose. done. }
  by rewrite !Hc, E.
Qed.

Lemma infos_hashed m m' x : infos m' !! x = infos m !! x -> hashed m x -> hashed m' x.
Proof.
  intros E (e & He & Hk & Hh). rewrite (info_lookup _ _ _ He) in E. unfold infos in E. rewrite lookup_fmap in E.
  destruct (m' !! x) as [e'|] eqn:He'; [|discriminate]. injection E as Ek Ep El Eh. exists e'. split; [done|]. split; congruence.
Qed.

Lemma table_rep_app h l : table_rep h l -> l = [] \/ seg (app_links (mem h)) 0 l 0.
Proof. intros [_ Hl]. destruct l; [by left|right]. by destruct Hl as (_ & _ & ? & _). Qed.

(** *** Finding *)

Lemma find_in_chain m k (c : list Z) : forall fuel p,
  seg (bkt_links m) p c 0 -> (length c < fuel)%nat -> (forall x, x ∈ c -> hashed m x) ->
  exists x, HASH_FIND_IN_BKT fuel m (first 0 c) k = Some x /\
    ((x = 0 /\ forall y e, y ∈ c -> m !! y = Some e -> key e <> k) \/
     (x ∈ c /\ exists e, m !! x = Some e /\ key e = k)).
Proof.
  induction c as [|x c IH]; intros fuel p Hseg Hfuel Hh; (destruct fuel as [|fuel]; [simpl in Hfuel; lia|]); cbn [HASH_FIND_IN_BKT].
  { exists 0. split; [done|]. left. split; [done|]. intros y e Hy. by apply elem_of_nil in Hy. }
  destruct Hseg as (Hx0 & HL & Hseg). change (first 0 (x :: c)) with x. rewrite (proj2 (Z.eqb_neq x 0)) by done.
  destruct (Hh x ltac:(left)) as (e & He & Hkl & _). rewrite He. cbn [mbind option_bind].
  rewrite (bkt_lookup _ _ _ He) in HL. injection HL as _ Hnext.
  case_bool_decide as Hk.
  - rewrite Hkl, Hk, Z.eqb_refl. cbn [andb]. exists x. split; [done|]. right. split; [left|by exists e].
  - rewrite andb_false_r, Hnext. destruct (IH fuel x) as (y & Hy & Hspec); [done|simpl in Hfuel; lia|intros; apply Hh; by right|].
    exists y. split; [done|]. destruct Hspec as [[-> Hno]|[Hin Hkey]].
    + left. split; [done|]. intros z e' Hz He'. apply elem_of_cons in Hz as [->|Hz]; [congruence|by eapply Hno].
    + right. split; [by right|done].
Qed.

Lemma HASH_FIND_spec h l k : table_rep h l ->
  exists x, HASH_FIND h k = Some x /\
    ((x = 0 /\ forall y e, y ∈ l -> mem h !! y = Some e -> key e <> k) \/
     (x <> 0 /\ x ∈ l /\ exists e, mem h !! x = Some e /\ key e = k)).
Proof.
  intros [Hnd Hl]. unfold HASH_FIND. destruct l as [|x0 l0].
  { rewrite Hl. exists 0. split; [done|]. left. split; [done|]. intros y e Hy. by apply elem_of_nil in Hy. }
  destruct Hl as (Hhd & _ & Hseg & _ & _ & Hhash & cs & lg & (Hlg & Hlog & Hnb & Hlen & Hrep & Hndc & Hslots) & Hperm).
  pose proof Hseg as (Hx0 & _). rewrite Hhd, (proj2 (Z.eqb_neq _ 0)) by done. rewrite Hnb.
  pose proof (bkt_index (HASH_JEN k) lg ltac:(lia)) as Hi. set (i := HASH_TO_BKT (HASH_JEN k) (2 ^ lg)) in *.
  destruct (arr_get_in (buckets (tbl h)) i) as [b Hb]; [lia|]. rewrite Hb. cbn [mbind option_bind].
  apply arr_get_Some in Hb as [_ Hb]. destruct (Forall2_lookup_l _ _ _ _ _ Hrep Hb) as (c & Hc & Hhead & _ & Hcs).
  assert (forall y, y ∈ c -> y ∈ List.concat cs) as Hsub.
  { intros y Hy. apply list_elem_of_In, in_concat. exists c. split; apply list_elem_of_In; [by eapply list_elem_of_lookup_2|done]. }
  assert (NoDup c) as Hndc'.
  { apply list_elem_of_split_length in Hc as (l1 & l2 & -> & _). rewrite concat_app in Hndc. cbn [List.concat] in Hndc.
    apply NoDup_app in Hndc as (_ & _ & (? & _)%NoDup_app). done. }
  rewrite Hhead. pose proof (chain_size (mem h) c Hndc' ltac:(intros; by eapply seg_in_mem)) as Hsize.
  destruct (find_in_chain (mem h) k c (S (size (mem h))) 0) as (x & Hx & Hspec); [done|lia| |].
  { intros y Hy. apply Hhash. rewrite <- Hperm. by apply Hsub. }
  exists x. split; [done|]. destruct Hspec as [[-> Hno]|[Hin Hkey]].
  - left. split; [done|]. intros y e Hy He Hkey. destruct (Hhash y Hy) as (e' & He' & _ & Hhv). simplify_eq.
    rewrite <- Hperm in Hy. apply list_elem_of_In, in_concat in Hy as (d & Hd & Hy).
    apply list_elem_of_In, list_elem_of_lookup_1 in Hd as [j Hj]. apply list_elem_of_In in Hy.
    pose proof (Hslots j d y Hj Hy) as Hs. rewrite (hash_at_lookup _ _ _ He), Hhv in Hs. fold i in Hs.
    assert (j = Z.to_nat i) as -> by lia. rewrite Hc in Hj. injection Hj as <-. by eapply Hno.
  - right. split; [by eapply seg_ne|]. split; [|done]. rewrite <- Hperm. by apply Hsub.
Qed.

(** *** Adding *)

(** The memory of [HASH_ADD] before the bucket is chosen; [y] is the old tail. *)
Definition appended m (x y : Z) (k : list byte) : memory :=
  let m := alter (set_keylen (u32 (Z.of_nat (length k)))) x (alter (set_next 0) x m) in
  let m := if y =? 0 then m else alter (set_next x) y m in
  alter (set_hashv (HASH_JEN k)) x (alter (set_prev y) x m).

Lemma appended_app m x y k : is_Some (m !! x) -> y <> x ->
  app_links (appended m x y k) = <[x := (y, 0)]> (if y =? 0 then app_links m else set_snd (app_links m) y x).
Proof.
  intros [e He] Hy. unfold appended. rewrite app_set_hashv, app_set_prev. apply map_eq. intros z.
  destruct (decide (x = z)) as [<-|Hne].
  - unfold set_fst. rewrite lookup_alter_eq, lookup_insert_eq.
    destruct (y =? 0); rewrite ?app_set_next, app_set_keylen, app_set_next; unfold set_snd;
      rewrite ?lookup_alter_ne, lookup_alter_eq, (app_lookup _ _ _ He) by done; done.
  - rewrite set_fst_ne, lookup_insert_ne by done.
    destruct (y =? 0); rewrite ?app_set_next, app_set_keylen, app_set_next; [by rewrite set_snd_ne|].
    unfold set_snd. destruct (decide (y = z)) as [<-|Hyz]; [by rewrite !lookup_alter_eq, lookup_alter_ne|by rewrite !lookup_alter_ne].
Qed.

Lemma appended_bkt m x y k : bkt_links (appended m x y k) = bkt_links m.
Proof. unfold appended. destruct (y =? 0); by autorewrite with views. Qed.

Lemma appended_contents m x y k : contents (appended m x y k) = contents m.
Proof. unfold appended, contents. destruct (y =? 0); by repeat (rewrite view_same by done). Qed.

Lemma appended_infos m x y k z : z <> x -> infos (appended m x y k) !! z = infos m !! z.
Proof.
  intros Hz. unfold appended, infos. rewrite !lookup_fmap, !lookup_alter_ne by done.
  destruct (y =? 0); [by rewrite !lookup_alter_ne|]. destruct (decide (y = z)) as [<-|Hyz].
  - rewrite lookup_alter_eq, !lookup_alter_ne by done. by destruct (m !! y).
  - by rewrite !lookup_alter_ne.
Qed.

Lemma appended_new m x y e : m !! x = Some e -> y <> x ->
  exists e', appended m x y (key e) !! x = Some e' /\ key e' = key e /\
    keylen e' = u32 (Z.of_nat (length (key e))) /\ hashv e' = HASH_JEN (key e).
Proof.
  intros He Hy. unfold appended. rewrite !lookup_alter_eq.
  destruct (y =? 0); rewrite ?lookup_alter_ne, !lookup_alter_eq, He by done; by eexists.
Qed.

(** The buckets do not depend on an element that is not in them. *)
Lemma buckets_ok_ext m m' (t t' : UT_hash_table) cs lg :
  buckets_ok m t cs lg -> (forall z, z ∈ List.concat cs -> bkt_links m' !! z = bkt_links m !! z) ->
  (forall z, z ∈ List.concat cs -> infos m' !! z = infos m !! z) ->
  buckets t' = buckets t -> num_buckets t' = num_buckets t -> log2_num_buckets t' = log2_num_buckets t ->
  buckets_ok m' t' cs lg.
Proof.
  intros (? & ? & ? & ? & Hrep & ? & Hslots) Hb Hi E1 E2 E3. unfold buckets_ok. rewrite E1, E2, E3. split_and!; try done; [lia..| |].
  - by eapply chains_rep_ext.
  - intros i c z Hc Hz. rewrite <- (Hslots i c z Hc Hz). unfold hash_at. rewrite Hi; [done|].
    apply list_elem_of_In, in_concat. exists c. split; apply list_elem_of_In; [by eapply list_elem_of_lookup_2|done].
Qed.

Lemma new_buckets_ok m x : buckets_ok m (HASH_MAKE_TABLE x) (replicate 32 []) 5.
Proof.
  unfold buckets_ok. split_and!; try (done || lia); [apply replicate_rep|by rewrite concat_replicate_nil; constructor|apply slots_replicate].
Qed.

(** The table [HASH_ADD] puts the element into, before the bucket. *)
Definition add_table h (x : Z) : UT_hash_table :=
  if head h =? 0 then HASH_MAKE_TABLE x else set_tail (tbl h) x.

Lemma HASH_ADD_unfold h l x e : table_rep h l -> mem h !! x = Some e -> x ∉ l ->
  HASH_ADD h x =
    (let t := set_items (add_table h x) (u32 (num_items (add_table h x) + 1)) in
     '(m, t) ← HASH_ADD_TO_BKT (appended (mem h) x (final 0 l) (key e)) t
                 (HASH_TO_BKT (HASH_JEN (key e)) (num_buckets t)) x;
     Some (Hash (if head h =? 0 then x else head h) t m)).
Proof.
  intros [Hnd Hl] He Hx. unfold HASH_ADD, add_table. rewrite store_alter by done. cbn [mbind option_bind].
  rewrite lookup_alter_eq, He. cbn [fmap option_fmap option_map mbind option_bind]. change (key (set_next 0 e)) with (key e).
  rewrite store_alter by by apply alter_is_Some. cbn [mbind option_bind].
  destruct l as [|x0 l0].
  - rewrite Hl. cbn [Z.eqb]. rewrite store_alter by (rewrite !alter_is_Some; done). cbn [mbind option_bind].
    rewrite store_alter by (rewrite !alter_is_Some; done). cbn [mbind option_bind]. done.
  - destruct Hl as (Hhd & Htl & Hseg & _ & _ & Hhash & _). pose proof Hseg as (Hx0 & _).
    rewrite Hhd, (proj2 (Z.eqb_neq _ 0)) by done. rewrite Htl.
    pose proof (final_in (x0 :: l0) ltac:(done)) as Hfin. destruct (Hhash _ Hfin) as (ey & Hey & _).
    pose proof (seg_ne _ _ _ _ _ Hseg Hfin) as Hy0.
    rewrite store_alter by (rewrite !alter_is_Some; done). cbn [mbind option_bind].
    rewrite store_alter by (rewrite !alter_is_Some; done). cbn [mbind option_bind].
    rewrite store_alter by (rewrite !alter_is_Some; done). cbn [mbind option_bind].
    unfold appended. by rewrite (proj2 (Z.eqb_neq _ 0)) by done.
Qed.

(** The buckets before the element is put into one. *)
Lemma add_table_ok h l x k :
  table_rep h l -> x ∉ l -> Z.of_nat (length l) + 1 < 2 ^ 32 - 1 -> (l <> [] -> log2_num_buckets (tbl h) < 31) ->
  let t := set_items (add_table h x) (u32 (num_items (add_table h x) + 1)) in
  exists cs lg, buckets_ok (appended (mem h) x (final 0 l) k) t cs lg /\ List.concat cs ≡ₚ l /\ lg < 31 /\
    num_items t = Z.of_nat (length l) + 1 /\ tail t = x /\
    (l <> [] -> lg = log2_num_buckets (tbl h)) /\ (l = [] -> lg = 5).
Proof.
  intros [Hnd Hl] Hx Hmax Hlg t. set (M := appended _ _ _ _). destruct l as [|x0 l0].
  - exists (replicate 32 []), 5. unfold t, add_table. rewrite Hl. cbn. rewrite u32_small by lia. split_and!; try (done || lia).
    apply (buckets_ok_ext M M (HASH_MAKE_TABLE x)); try done. apply new_buckets_ok.
  - destruct Hl as (Hhd & _ & Hseg & Hni & _ & _ & cs & lg & Hok & Hperm). pose proof Hseg as (Hx00 & _).
    exists cs, lg. pose proof Hok as (Hlgr & Hlog & _). specialize (Hlg ltac:(done)).
    unfold t, add_table. rewrite Hhd, (proj2 (Z.eqb_neq _ 0)) by done. cbn. rewrite Hni, u32_small by (cbn in *; lia).
    split_and!; try (done || lia).
    eapply buckets_ok_ext; [exact Hok|unfold M; by rewrite appended_bkt|..]; try done.
    intros z Hz. unfold M. apply appended_infos. intros ->. rewrite Hperm in Hz. done.
Qed.

(** Adding an element puts it at the end. *)
Lemma HASH_ADD_spec h l x e :
  table_rep h l -> mem h !! x = Some e -> x <> 0 -> x ∉ l -> Z.of_nat (length l) + 1 < 2 ^ 32 - 1 ->
  (l <> [] -> log2_num_buckets (tbl h) < 31) ->
  exists h', HASH_ADD h x = Some h' /\ table_rep h' (l ++ [x]) /\ contents (mem h') = contents (mem h) /\
    (l <> [] -> log2_num_buckets (tbl h') <= log2_num_buckets (tbl h) + 1) /\ (l = [] -> log2_num_buckets (tbl h') <= 6).
Proof.
  intros Hrep He Hx0 Hx Hmax Hlg. rewrite (HASH_ADD_unfold _ _ _ _ Hrep He Hx). cbv zeta.
  set (y := final 0 l). set (M := appended (mem h) x y (key e)). set (t := set_items _ _).
  assert (y <> x) as Hyx.
  { intros E. destruct (decide (l = [])) as [->|Hne]; [by apply Hx0|]. apply Hx. rewrite <- E. by apply final_in. }
  destruct (appended_new (mem h) x y e He Hyx) as (e' & He' & Hk' & Hkl' & Hhv'). fold M in He'.
  destruct (add_table_ok h l x (key e) Hrep Hx Hmax Hlg) as (cs & lg & Hok & Hperm & Hlg' & Hn & Ht & Hlg1 & Hlg2).
  fold y M t in Hok, Hn, Ht.
  destruct (HASH_ADD_TO_BKT_spec M t cs lg x e') as (m' & t' & cs' & lg' & Hrun & Hok' & Hlgs & Hp' & Hn' & Ht' & Ha' & Hi');
    try done; [lia|rewrite Hperm; lia|by rewrite Hperm|].
  rewrite Hhv' in Hrun. rewrite Hrun. cbn [mbind option_bind]. pose proof Hok' as (_ & Hlog' & _).
  eexists. split; [done|]. split_and!.
  - pose proof Hrep as [Hnd Hl]. split; [apply NoDup_app; split_and!; [done|set_solver|apply NoDup_singleton]|].
    assert (forall z, z ∈ l ++ [x] -> hashed m' z) as Hall.
    { intros z Hz. apply (infos_hashed M); [by rewrite Hi'|]. apply elem_of_app in Hz as [Hz| ->%list_elem_of_singleton].
      - apply (infos_hashed (mem h)); [apply appended_infos; by intros ->|]. destruct l; [by apply elem_of_nil in Hz|].
        destruct Hl as (_ & _ & _ & _ & _ & Hh & _). by apply Hh.
      - exists e'. by rewrite Hk'. }
    assert (seg (app_links m') 0 (l ++ [x]) 0) as Hseg.
    { rewrite Ha'. unfold M. rewrite appended_app by done. apply seg_snoc; try done.
      destruct (table_rep_app _ _ Hrep) as [->|]; done. }
    assert (first 0 (l ++ [x]) = if head h =? 0 then x else head h) as Hfirst.
    { destruct l as [|x0 l0]; [by rewrite Hl|]. destruct Hl as (Hhd & _ & (Hx00 & _) & _).
      by rewrite Hhd, (proj2 (Z.eqb_neq _ 0)) by done. }
    assert (final 0 (l ++ [x]) = x) as Hfinal by (unfold final; by rewrite last_snoc).
    destruct (l ++ [x]) as [|z zs] eqn:El; [by destruct l|]. cbn [head tbl mem].
    split; [done|]. split; [congruence|]. split; [done|]. rewrite <- El, length_app in *. cbn [length] in *.
    split; [lia|]. split; [lia|]. split; [done|]. exists cs', lg'. split; [done|].
    rewrite Hp', Hperm. by rewrite (comm (++)).
  - cbn [mem]. rewrite (infos_contents _ _ Hi'). unfold M. by rewrite appended_contents.
  - intros Hne. cbn. rewrite Hlog', <- Hlg1 by done. lia.
  - intros Hne. cbn. rewrite Hlog'. specialize (Hlg2 Hne). lia.
Qed.

(** *** Deleting *)

Lemma concat_lookup {X} (cs : list (list X)) x : x ∈ List.concat cs -> exists i c, cs !! i = Some c /\ x ∈ c.
Proof.
  intros (c & Hc & Hx)%list_elem_of_In%in_concat. apply list_elem_of_In, list_elem_of_lookup_1 in Hc as [i Hi].
  apply list_elem_of_In in Hx. by exists i, c.
Qed.

Lemma bkt_is_Some m x : is_Some (bkt_links m !! x) -> is_Some (m !! x).
Proof. unfold bkt_links. by rewrite lookup_fmap, fmap_is_Some. Qed.

Lemma HASH_DEL_IN_BKT_spec m t cs lg x e :
  buckets_ok m t cs lg -> Z.of_nat (length (List.concat cs)) < 2 ^ 32 -> m !! x = Some e -> x ∈ List.concat cs ->
  exists m' t' cs', HASH_DEL_IN_BKT m t (HASH_TO_BKT (hashv e) (num_buckets t)) x = Some (m', t') /\
    buckets_ok m' t' cs' lg /\ x :: List.concat cs' ≡ₚ List.concat cs /\ num_items t' = num_items t /\ tail t' = tail t /\
    app_links m' = app_links m /\ infos m' = infos m.
Proof.
  intros (Hlg & Hl & Hnb & Hlen & Hrep & Hnd & Hslots) Hmax He Hx. unfold HASH_DEL_IN_BKT. rewrite Hnb.
  destruct (concat_lookup _ _ Hx) as (j & c & Hj & Hxc). pose proof (Hslots j c x Hj Hxc) as Hi.
  rewrite (hash_at_lookup _ _ _ He) in Hi. rewrite Hi. pose proof (lookup_lt_Some _ _ _ Hj) as Hjlt.
  pose proof (Forall2_length _ _ _ Hrep) as Hl2.
  destruct (arr_get_in (buckets t) (Z.of_nat j)) as [b Hb]; [lia|]. rewrite Hb. cbn [mbind option_bind]. rewrite He. cbn [mbind option_bind].
  apply arr_get_Some in Hb as [_ Hb]. rewrite Nat2Z.id in Hb.
  destruct (remove_rep _ _ _ j b x (expand_mult b) _ _ Hrep Hnd Hb ltac:(eauto) (bkt_lookup _ _ _ He) Hmax)
    as (c' & Hrep' & Hperm & Hsub & Hp & Hn & Hpx & Hnx).
  destruct (arr_set_in (buckets t) (Z.of_nat j) (UTHashBucket (if hh_head b =? x then hh_next e else hh_head b)
    (u32 (bkt_count b - 1)) (expand_mult b))) as [bs Hbs]; [lia|]. rewrite Hbs. cbn [mbind option_bind].
  apply arr_set_Some in Hbs as [_ ->]. rewrite Nat2Z.id.
  assert (forall z, z ∈ List.concat cs -> is_Some (m !! z)) as Hin.
  { intros z (k & d & Hd & Hz)%concat_lookup. destruct (Forall2_lookup_r _ _ _ _ _ Hrep Hd) as (? & _ & _ & _ & Hs). by eapply seg_in_mem. }
  rewrite store_if_alter by auto. cbn [mbind option_bind]. set (m1 := if hh_prev e =? 0 then m else _).
  assert (m1 !! x = Some e) as Hm1 by (unfold m1; destruct (hh_prev e =? 0); [done|by rewrite lookup_alter_ne]).
  rewrite Hm1. cbn [mbind option_bind].
  rewrite store_if_alter by (intros Hne; unfold m1; destruct (hh_prev e =? 0); rewrite ?alter_is_Some; auto). cbn [mbind option_bind].
  set (m2 := if hh_next e =? 0 then m1 else _).
  assert (bkt_links m2 = unlink (bkt_links m) (hh_prev e) (hh_next e)) as Hb2.
  { unfold m2, m1, unlink. destruct (hh_next e =? 0), (hh_prev e =? 0); by autorewrite with views. }
  assert (app_links m2 = app_links m /\ infos m2 = infos m) as [Ha2 Hi2].
  { unfold m2, m1. destruct (hh_next e =? 0), (hh_prev e =? 0); by autorewrite with views. }
  eexists _, _, (<[j := c']> cs). split; [done|]. split_and!; try done. unfold buckets_ok. cbn. rewrite length_insert, Hb2, Hi2.
  split_and!; try (done || lia).
  - rewrite <- Hperm in Hnd. by apply NoDup_cons in Hnd as [_ ?].
  - intros i d z Hd Hz. apply list_lookup_insert_Some in Hd as [(-> & <- & _)|[_ Hd]]; eauto.
Qed.

(** The memory and the first element after [x] left the list of all elements. *)
Lemma app_unlink m p n x e :
  m !! x = Some e -> prev e = p -> next e = n -> (p <> 0 -> is_Some (m !! p)) -> (n <> 0 -> is_Some (m !! n)) -> p <> x -> n <> x ->
  exists m', (forall hd, (if negb (p =? 0) then m ← Uthash.store m p (set_next n); Some (hd, m) else Some (n, m)) =
      Some (if p =? 0 then n else hd, if p =? 0 then m else alter (set_next n) p m)) /\
    (if p =? 0 then m else alter (set_next n) p m) !! x = Some e /\
    store_if (if p =? 0 then m else alter (set_next n) p m) n (set_prev p) = Some m' /\
    m' !! x = Some e /\ app_links m' = unlink (app_links m) p n /\ bkt_links m' = bkt_links m /\ infos m' = infos m.
Proof.
  intros He Hp Hn Hpm Hnm Hpx Hnx. set (m1 := if p =? 0 then m else _).
  assert (m1 !! x = Some e) as Hm1 by (unfold m1; destruct (p =? 0); [done|by rewrite lookup_alter_ne]).
  exists (if n =? 0 then m1 else alter (set_prev p) n m1). split_and!; try done.
  - intros hd. unfold m1. destruct (Z.eqb_spec p 0); cbn [negb]; [done|]. by rewrite store_alter by auto.
  - apply store_if_alter. intros Hne. unfold m1. destruct (p =? 0); rewrite ?alter_is_Some; auto.
  - destruct (n =? 0); [done|by rewrite lookup_alter_ne].
  - unfold m1, unlink. destruct (n =? 0), (p =? 0); by autorewrite with views.
  - unfold m1. destruct (n =? 0), (p =? 0); by autorewrite with views.
  - unfold m1. destruct (n =? 0), (p =? 0); by autorewrite with views.
Qed.

(** The neighbours of an element of the list. *)
Lemma neighbours (L : links) l1 x l2 p n :
  NoDup (l1 ++ x :: l2) -> seg L 0 (l1 ++ x :: l2) 0 -> L !! x = Some (p, n) ->
  p = final 0 l1 /\ n = first 0 l2 /\ (p = 0 <-> l1 = []) /\ (n = 0 <-> l2 = []) /\ x <> 0 /\
  (p <> 0 -> p ∈ l1) /\ (n <> 0 -> n ∈ l2) /\ p <> x /\ n <> x /\
  (final 0 (l1 ++ x :: l2) = x <-> l2 = []).
Proof.
  intros Hnd Hseg HL. pose proof Hseg as [Hs1 (Hx0 & HL' & Hs2)]%seg_app. rewrite HL in HL'. injection HL' as -> ->.
  change (default 0 (list.head l2)) with (first 0 l2).
  apply NoDup_app in Hnd as (_ & Hd & [Hx2 Hnd2]%NoDup_cons).
  assert (final 0 l1 <> 0 -> final 0 l1 ∈ l1) as Hp by (intros E; apply final_in; intros ->; by apply E).
  assert (first 0 l2 <> 0 -> first 0 l2 ∈ l2) as Hn by (intros E; apply first_in; intros ->; by apply E).
  split_and!; try done; try (eapply final_0; done); try (eapply first_0; done).
  - intros E. rewrite E in Hp. apply (Hd x (Hp Hx0)). left.
  - intros E. rewrite E in Hn. by apply Hx2, Hn.
  - rewrite final_app, final_cons. destruct (decide (l2 = [])) as [->|Hne]; [done|]. split; [|done]. intros E.
    assert (final x l2 = final 0 l2) as E2 by (unfold final; destruct (last l2) eqn:El; [done|by apply last_None in El]).
    pose proof (final_in l2 Hne) as Hin. rewrite <- E2, E in Hin. done.
Qed.

(** The new tail. *)
Lemma delete_table (t0 : UT_hash_table) l1 x l2 p :
  tail t0 = final 0 (l1 ++ x :: l2) -> (final 0 (l1 ++ x :: l2) = x <-> l2 = []) -> p = final 0 l1 ->
  let t := if x =? tail t0 then set_tail t0 p else t0 in
  buckets t = buckets t0 /\ num_buckets t = num_buckets t0 /\ log2_num_buckets t = log2_num_buckets t0 /\
  num_items t = num_items t0 /\ tail t = final 0 (l1 ++ l2).
Proof.
  intros Htl Hfin -> t. unfold t. rewrite Htl. destruct (Z.eqb_spec x (final 0 (l1 ++ x :: l2))) as [E|E]; cbn; split_and!; try done.
  - symmetry in E. apply Hfin in E as ->. by rewrite app_nil_r.
  - rewrite Htl, !final_app, final_cons. destruct (decide (l2 = [])) as [->|Hne2]; [by destruct E; rewrite final_app|].
    unfold final. by destruct (last l2) eqn:El2; [|apply last_None in El2].
Qed.

(** Deleting takes the element out. *)
Lemma HASH_DELETE_spec h l1 x l2 :
  table_rep h (l1 ++ x :: l2) ->
  exists h', HASH_DELETE h x = Some h' /\ table_rep h' (l1 ++ l2) /\ contents (mem h') = contents (mem h) /\
    log2_num_buckets (tbl h') = log2_num_buckets (tbl h).
Proof.
  intros [Hnd Hl]. assert (x ∈ l1 ++ x :: l2) as Hx by set_solver.
  assert (exists l, l1 ++ x :: l2 = l /\ l <> []) as (l & El & Hlne) by (eexists; split; [done|]; by destruct l1).
  rewrite El in *. destruct l as [|x0 l0]; [done|]. clear Hlne.
  destruct Hl as (Hhd & Htl & Hseg & Hni & Hmax & Hhash & cs & lg & Hok & Hperm). set (l := x0 :: l0) in *.
  destruct (Hhash _ Hx) as (e & He & Hke & Hve). rewrite <- El in Hnd, Hseg, Htl, Hhd.
  destruct (neighbours _ _ _ _ _ _ Hnd Hseg (app_lookup _ _ _ He)) as (Ep & En & Hp0 & Hn0 & Hx0 & Hpin & Hnin & Hpx & Hnx & Hfin).
  assert (NoDup (l1 ++ l2)) as Hnd'.
  { apply NoDup_app in Hnd as (? & Hd & [? ?]%NoDup_cons). apply NoDup_app. split_and!; try done. intros y Hy Hy2. apply (Hd y Hy). by right. }
  unfold HASH_DELETE. rewrite He. cbn [mbind option_bind].
  destruct (decide (l1 ++ l2 = [])) as [[-> ->]%app_eq_nil|Hne].
  { rewrite (proj2 Hp0 eq_refl), (proj2 Hn0 eq_refl). eexists. split; [done|]. by split_and!. }
  assert ((prev e =? 0) && (next e =? 0) = false) as ->.
  { destruct (Z.eqb_spec (prev e) 0) as [Hp|], (Z.eqb_spec (next e) 0) as [Hn|]; try done.
    apply Hp0 in Hp as ->. apply Hn0 in Hn as ->. done. }
  assert (forall z, z ∈ l -> is_Some (mem h !! z)) as Hin by (intros z Hz; destruct (Hhash z Hz) as (ez & ? & _); by exists ez).
  destruct (app_unlink (mem h) (prev e) (next e) x e He) as (m' & Hstep & Hre & Hst & Hre' & Ha & Hb & Hi); try done;
    try (intros; apply Hin; rewrite <- El; set_solver).
  rewrite Hstep. cbn [mbind option_bind]. rewrite Hre. cbn [mbind option_bind]. rewrite Hst. cbn [mbind option_bind].
  rewrite Hre'. cbn [mbind option_bind]. set (t := if x =? tail (tbl h) then _ else _).
  destruct (delete_table (tbl h) l1 x l2 (prev e) Htl Hfin Ep) as (Et1 & Et2 & Et3 & Et4 & Et5). fold t in Et1, Et2, Et3, Et4, Et5.
  assert (buckets_ok m' t cs lg) as Hok' by (eapply buckets_ok_ext; [exact Hok|by rewrite Hb|by rewrite Hi|done..]).
  destruct (HASH_DEL_IN_BKT_spec m' t cs lg x e Hok') as (m2 & t2 & cs2 & Hrun & Hok2 & Hp2 & Hn2 & Ht2 & Ha2 & Hi2); try done.
  { rewrite Hperm. lia. }
  { rewrite Hperm. done. }
  rewrite Hrun. cbn [mbind option_bind]. pose proof Hok2 as (_ & Hlog2 & _). pose proof Hok as (_ & Hlog & _).
  eexists. split; [done|]. split_and!.
  - split; [done|].
    assert (seg (app_links m2) 0 (l1 ++ l2) 0) as Hseg2 by (rewrite Ha2, Ha, Ep, En; by apply (seg_unlink _ _ x)).
    assert (first 0 (l1 ++ l2) = if prev e =? 0 then next e else head h) as Hfirst.
    { rewrite Hhd. destruct (Z.eqb_spec (prev e) 0) as [E|E]; [apply Hp0 in E as ->; by rewrite En|].
      destruct l1 as [|y l1]; [by destruct E; apply Hp0|done]. }
    assert (Z.of_nat (length l) = Z.of_nat (length (l1 ++ l2)) + 1) as Hlen by (rewrite <- El, !length_app; cbn [length]; lia).
    assert (forall z, z ∈ l1 ++ l2 -> hashed m2 z) as Hall.
    { intros z Hz. apply (infos_hashed (mem h)); [by rewrite Hi2, Hi|]. apply Hhash. rewrite <- El. set_solver. }
    assert (List.concat cs2 ≡ₚ l1 ++ l2) as Hperm2.
    { apply (Permutation_cons_inv (a := x)). rewrite Hp2, Hperm, <- El. symmetry. apply Permutation_middle. }
    destruct (l1 ++ l2) as [|z zs] eqn:El'; [done|]. cbn [head tbl mem set_items num_items tail].
    split; [done|]. split; [congruence|]. split; [done|]. rewrite Hn2, Et4, Hni, u32_small by lia.
    split; [lia|]. split; [lia|]. split; [done|]. by exists cs2, lg.
  - cbn [mem]. by rewrite (infos_contents _ _ Hi2), (infos_contents _ _ Hi).
  - cbn [tbl set_items log2_num_buckets]. congruence.
Qed.

(** *** Elements outside of the table may change. *)
Lemma table_rep_frame hd t m m' l :
  (forall y, y ∈ l -> m' !! y = m !! y) -> table_rep (Hash hd t m) l -> table_rep (Hash hd t m') l.
Proof.
  intros He [Hnd Hl]. split; [done|]. destruct l as [|x l]; [done|].
  destruct Hl as (Hh & Ht & Hseg & Hn & Hmax & Hhash & cs & lg & Hok & Hperm). cbn [head tbl mem] in *. split_and!; try done.
  - eapply seg_ext; [|done]. intros y Hy. unfold app_links. by rewrite !lookup_fmap, He.
  - intros y Hy. destruct (Hhash y Hy) as (e & ? & ?). exists e. by rewrite He.
  - exists cs, lg. split; [|done]. apply (buckets_ok_ext m m' t); try done; intros y Hy; rewrite Hperm in Hy;
      unfold bkt_links, infos; by rewrite !lookup_fmap, He.
Qed.

(** *** Iterating *)

Lemma iter_from_spec m l : forall fuel p,
  seg (app_links m) p l 0 -> (length l < fuel)%nat -> iter_from fuel m (first 0 l) = Some l.
Proof.
  induction l as [|x l IH]; intros fuel p Hseg Hfuel; (destruct fuel as [|fuel]; [simpl in Hfuel; lia|]); cbn [iter_from]; [done|].
  destruct Hseg as (Hx0 & HL & Hseg). change (first 0 (x :: l)) with x. rewrite (proj2 (Z.eqb_neq x 0)) by done.
  unfold app_links in HL. rewrite lookup_fmap in HL. destruct (m !! x) as [e|]; [|discriminate]. injection HL as _ Hn.
  cbn [mbind option_bind]. rewrite Hn. rewrite (IH fuel x) by (done || simpl in Hfuel; lia). done.
Qed.

Lemma HASH_ITER_spec h l : table_rep h l -> HASH_ITER h = Some l.
Proof.
  intros [Hnd Hl]. unfold HASH_ITER. destruct l as [|x l]; [by rewrite Hl|].
  destruct Hl as (-> & _ & Hseg & _ & _ & Hh & _). eapply iter_from_spec; [done|].
  pose proof (chain_size (mem h) (x :: l) Hnd) as Hs. apply le_n_S, Hs. intros y Hy. destruct (Hh y Hy) as (e & ? & _). by exists e.
Qed.

Lemma table_rep_empty t m : table_rep (Hash 0 t m) [].
Proof. split; [constructor|done]. Qed.
End table.

(** C32. The hash table of the proxy with its chains of buckets, its doubling and
    its linked lists is the list of the elements that were added and not deleted:
    a lookup finds an element with the key or there is none, adding appends
    (whether or not the buckets are doubled), deleting any element takes it out, and
    iterating gives the list.  Keys and the other members of all elements stay. *)
Theorem uthash_refines_list {A} (h : hash A) l :
  table_rep h l ->
  (forall k, exists x, HASH_FIND h k = Some x /\
     ((x = 0 /\ forall y e, y ∈ l -> mem h !! y = Some e -> key e <> k) \/
      (x <> 0 /\ x ∈ l /\ exists e, mem h !! x = Some e /\ key e = k))) /\
  (forall x e, mem h !! x = Some e -> x <> 0 -> x ∉ l -> Z.of_nat (length l) + 1 < 2 ^ 32 - 1 ->
     (l <> [] -> log2_num_buckets (tbl h) < 31) ->
     exists h', HASH_ADD h x = Some h' /\ table_rep h' (l ++ [x]) /\ contents (mem h') = contents (mem h)) /\
  (forall l1 x l2, l = l1 ++ x :: l2 ->
     exists h', HASH_DELETE h x = Some h' /\ table_rep h' (l1 ++ l2) /\ contents (mem h') = contents (mem h)) /\
  HASH_ITER h = Some l.
Proof.
  intros Hrep. split_and!.
  - intros k. by apply HASH_FIND_spec.
  - intros x e He Hx0 Hx Hmax Hlg. destruct (HASH_ADD_spec h l x e) as (h' & ? & ? & ? & _); eauto.
  - intros l1 x l2 ->. destruct (HASH_DELETE_spec h l1 x l2 Hrep) as (h' & ? & ? & ? & _). eauto.
  - by apply HASH_ITER_spec.
Qed.

(** Two entries keyed by the requests 7 and 8, at the addresses 1000 and 2000. *)
Definition sample_entry (i : Z) : element Z := Element (map byte_of_Z [i; 0; 0; 0]) i 0 0 0 0 0 0.
Definition sample_table : hash Z := Hash 0 (HASH_MAKE_TABLE 0) {[1000 := sample_entry 7; 2000 := sample_entry 8]}.

Lemma uthash_refines_list_witness :
  exists h, (h ← HASH_ADD sample_table 1000; HASH_ADD h 2000) = Some h /\
    HASH_ITER h = Some [1000; 2000] /\ HASH_FIND h (key (sample_entry 8)) = Some 2000 /\
    exists h', HASH_DELETE h 1000 = Some h' /\ table_rep h' [2000].
Proof.
  destruct (HASH_ADD_spec sample_table [] 1000 (sample_entry 7)) as (h1 & E1 & R1 & C1 & _ & L1);
    [apply table_rep_empty|vm_compute; reflexivity|lia|by apply not_elem_of_nil|simpl; lia|intros []; reflexivity|].
  assert (exists e, mem h1 !! 2000 = Some e) as [e He].
  { assert (contents (mem h1) !! 2000 = contents (mem sample_table) !! 2000) as Hc by (rewrite C1; reflexivity).
    unfold contents in Hc. rewrite !lookup_fmap in Hc. destruct (mem h1 !! 2000) as [e|]; [by exists e|].
    vm_compute in Hc. discriminate. }
  destruct (HASH_ADD_spec h1 ([] ++ [1000]) 2000 e) as (h2 & E2 & R2 & C2 & _ & _);
    [exact R1|exact He|lia|by intros ?%list_elem_of_singleton|simpl; lia|specialize (L1 eq_refl); lia|].
  exists h2. split; [rewrite E1; exact E2|].
  pose proof (uthash_refines_list h2 ([] ++ [1000] ++ [2000]) R2) as (_ & _ & Hdel & Hiter). split; [exact Hiter|].
  split; [|destruct (Hdel [] 1000 [2000] eq_refl) as (h' & ? & ? & _); exists h'; split; assumption].
  assert (Some h2 = (h ← HASH_ADD sample_table 1000; HASH_ADD h 2000)) as Eh by (rewrite E1; symmetry; exact E2).
  transitivity (h ← Some h2; HASH_FIND h (key (sample_entry 8))); [reflexivity|]. rewrite Eh. vm_compute. reflexivity.
Defined.
