(* ===== verification/Proxy.v ===== *)
(** * The proxy of the clients ([sample/proxy.c])

    The proxy submits what its clients send to the proposer and keeps, in the
    hash table of [Uthash.v], which client a request is from; the answers of the
    learners carry the number of the request.

    A [struct bufferevent] is a handle in the map [conns]; the model has the bytes
    that arrived and were not read, the bytes written to it, and its read
    callback.  [None] is the use of NULL or of a freed bufferevent, and a read
    outside of a buffer.  [malloc] is the class [Malloc]; [stack] is what an
    uninitialised local variable contains. *)

From S2P Require Import Prelude Bytes PaxosTypes EvConfig TypesPack Peers Strtok NetPaxos AppConfig Uthash UthashInv.
#[local] Open Scope Z_scope.

(** An address that is not in use, or NULL. *)
Class Malloc := malloc : forall {A}, gmap Z A -> Z.
Class MallocLaws `{ML : Malloc} := malloc_fresh : forall {A} (m : gmap Z A), malloc m = 0 \/ m !! malloc m = None.

(** ** Connections *)

Inductive read_cb := no_cb | handle_request_cb | on_read_cb | on_response_cb.

Record conn := Conn { input : list byte; output : list byte; readcb : read_cb }.
Notation conns_t := (gmap Z conn).

Definition bufferevent_read (cs : conns_t) (b n : Z) : option (list byte * conns_t) :=
  c ← cs !! b;
  Some (take (Z.to_nat n) (input c), <[b := Conn (drop (Z.to_nat n) (input c)) (output c) (readcb c)]> cs).

Definition bufferevent_write (cs : conns_t) (b : Z) (data : list byte) : option conns_t :=
  c ← cs !! b;
  Some (<[b := Conn (input c) (output c ++ data) (readcb c)]> cs).

(** ** Messages ([application.h]) *)

Definition TMP_VALUE_SIZE : Z := 32.
Definition sizeof_client_value : Z := 44.

Definition client_value (proxy_id request_id size : Z) (content : list byte) : list byte :=
  le_split 4 proxy_id ++ le_split 4 request_id ++ le_split 4 size ++ content.

Definition read_int (buf : list byte) (off : Z) : option Z :=
  bs ← read_at buf off 4;
  Some (i32 (le_combine bs)).

(** ** The proxy *)

Definition BUFFER_SIZE : Z := 144.

Record proxy_server := ProxyServer {
  proxy_id : Z;
  current_request_id : Z;
  number_of_learners : Z;
  bev : Z;
  learner_bevs : list Z;
  request_table : hash Z;
  conns : conns_t;
}.

Definition set_conns (p : proxy_server) (cs : conns_t) : proxy_server :=
  ProxyServer (proxy_id p) (current_request_id p) (number_of_learners p) (bev p) (learner_bevs p) (request_table p) cs.
Definition set_table (p : proxy_server) (next : Z) (h : hash Z) : proxy_server :=
  ProxyServer (proxy_id p) next (number_of_learners p) (bev p) (learner_bevs p) h (conns p).
Definition set_bev (p : proxy_server) (b : Z) : proxy_server :=
  ProxyServer (proxy_id p) (current_request_id p) (number_of_learners p) b (learner_bevs p) (request_table p) (conns p).
Definition set_learners (p : proxy_server) (n : Z) (bevs : list Z) : proxy_server :=
  ProxyServer (proxy_id p) (current_request_id p) n (bev p) bevs (request_table p) (conns p).

Section proxy.
Context `{MP : Msgpack} `{MA : Malloc}.
Implicit Types (p : proxy_server) (stack : list byte) (b events : Z).

(** [paxos_submit(proxy->bev, (char* )&value, sizeof(value))] *)
Definition submit_value (cs : conns_t) b (value : list byte) : option conns_t :=
  c ← cs !! b;
  out ← paxos_submit (output c) (Some value) sizeof_client_value;
  Some (<[b := Conn (input c) out (readcb c)]> cs).

(** A request of a client; the links of the entry are written by [HASH_ADD]. *)
Definition handle_request stack p b : option proxy_server :=
  '(d, cs) ← bufferevent_read (conns p) b (TMP_VALUE_SIZE - 1);
  content ← arr_set (d ++ drop (length d) stack) (TMP_VALUE_SIZE - 1) x00;
  let value := client_value (proxy_id p) (current_request_id p) (Z.of_nat (length d)) content in
  cs ← submit_value cs (bev p) value;
  let h := request_table p in
  let s := malloc (mem h) in
  assert_ (negb (s =? 0));;
  let entry := Element (le_split 4 (current_request_id p)) b 0 0 0 0 0 0 in
  h ← HASH_ADD (Hash (head h) (tbl h) (<[s := entry]> (mem h))) s;
  Some (set_table (set_conns p cs) (i32 (current_request_id p + 1)) h).

Definition send_request stack p : option proxy_server :=
  content ← arr_set stack (TMP_VALUE_SIZE - 1) x00;
  let value := client_value (proxy_id p) (current_request_id p) TMP_VALUE_SIZE content in
  cs ← submit_value (conns p) (bev p) value;
  Some (set_conns p cs).

Definition event_cb p b events : proxy_server :=
  if flag events BEV_EVENT_EOF || flag events BEV_EVENT_ERROR then set_conns p (delete b (conns p)) else p.

(** A new client; [bufferevent_socket_new] is not checked. *)
Definition accept_conn_cb p : option proxy_server :=
  let b := malloc (conns p) in
  assert_ (negb (b =? 0));;
  Some (set_conns p (<[b := Conn [] [] handle_request_cb]> (conns p))).

(** The answer to a request, in a buffer. *)
Definition respond_cb (msg : list byte) p : option proxy_server :=
  request_id ← read_int msg 4;
  let h := request_table p in
  s ← HASH_FIND h (le_split 4 request_id);
  if s =? 0 then Some p else
  e ← mem h !! s;
  size ← read_int msg 8;
  data ← read_at msg 12 (size mod 2 ^ 64);
  cs ← bufferevent_write (conns p) (payload e) data;
  h ← HASH_DELETE h s;
  Some (set_table (set_conns p cs) (current_request_id p) (Hash (head h) (tbl h) (delete s (mem h)))).

Definition on_read stack p b : option proxy_server :=
  '(d, cs) ← bufferevent_read (conns p) b BUFFER_SIZE;
  respond_cb (d ++ drop (length d) stack) (set_conns p cs).

Definition on_response stack p b : option proxy_server :=
  '(_, cs) ← bufferevent_read (conns p) b BUFFER_SIZE;
  send_request stack (set_conns p cs).

Definition on_connect_learner stack p b events : option proxy_server :=
  if flag events BEV_EVENT_CONNECTED then
    cs ← bufferevent_write (conns p) b (le_split 4 (proxy_id p));
    send_request stack (set_conns p cs)
  else Some p.

(** The read callback of a connection. *)
Definition on_readable stack p b : option proxy_server :=
  c ← conns p !! b;
  match readcb c with
  | no_cb => Some p
  | handle_request_cb => handle_request stack p b
  | on_read_cb => on_read stack p b
  | on_response_cb => on_response stack p b
  end.

(** *** Start and end *)

(** A connection with its callback. *)
Definition connect p (cb : read_cb) : option (Z * proxy_server) :=
  let b := malloc (conns p) in
  assert_ (negb (b =? 0));;
  Some (b, set_conns p (<[b := Conn [] [] cb]> (conns p))).

Definition connect_to_proposer p (addr : sockaddr_in) : option (Z * proxy_server) := connect p no_cb.

Fixpoint connect_learners (n : nat) (i : Z) p : option proxy_server :=
  match n with
  | O => Some p
  | S n =>
      '(b, p) ← connect p on_response_cb;
      bevs ← arr_set (learner_bevs p) i b;
      connect_learners n (i + 1) (set_learners p (number_of_learners p) bevs)
  end.

(** The configuration is the one [parse_configuration] returned. *)
Definition connect_to_learner p (config : application_config) : option proxy_server :=
  let n := AppConfig.number_of_learners config in
  connect_learners (Z.to_nat n) 0 (set_learners p n (repeat 0 (Z.to_nat n))).

(** [HASH_ITER] reads the successor of an element before the body deletes and
    frees the element. *)
Fixpoint free_requests (fuel : nat) (h : hash Z) (s tmp : Z) : option (hash Z) :=
  match fuel with
  | O => None
  | S fuel =>
      if s =? 0 then Some h else
      h ← HASH_DELETE h s;
      let h := Hash (head h) (tbl h) (delete s (mem h)) in
      tmp' ← (if tmp =? 0 then Some 0 else e ← mem h !! tmp; Some (next e));
      free_requests fuel h tmp tmp'
  end.

Definition clean_requests (h : hash Z) : option (hash Z) :=
  tmp ← (if head h =? 0 then Some 0 else e ← mem h !! head h; Some (next e));
  free_requests (S (size (mem h))) h (head h) tmp.

Fixpoint free_bevs (cs : conns_t) (l : list Z) : option conns_t :=
  match l with
  | [] => Some cs
  | b :: l => _ ← cs !! b; free_bevs (delete b cs) l
  end.

Definition clean_proxy p : option proxy_server :=
  h ← clean_requests (request_table p);
  cs ← free_bevs (conns p) (bev p :: learner_bevs p);
  Some (set_conns (set_table p (current_request_id p) h) cs).

(** [main] until the loop of events. *)
Definition proxy_new (id : Z) : proxy_server :=
  ProxyServer id 0 0 0 [] (Hash 0 (HASH_MAKE_TABLE 0) ∅) ∅.

Definition start (inet_addr : cstring -> Z) (id : Z) (conf : evpaxos_config) (config : application_config) :
    option proxy_server :=
  addr ← evpaxos_proposer_address inet_addr conf 0;
  '(b, p) ← connect_to_proposer (proxy_new id) addr;
  connect_to_learner (set_bev p b) config.
End proxy.
