(* ===== verification/ProxyInv.v ===== *)
(** * Theorems about the proxy

    The table of the proxy is the map from the numbers of the pending requests to
    their clients ([pending_ok]): a request adds the next number, an answer removes
    its number and is written to that client only. *)

From S2P Require Import Prelude Bytes PaxosTypes EvConfig TypesPack Peers Strtok NetPaxos AppConfig Uthash UthashInv Proxy.
#[local] Open Scope Z_scope.

(** ** Numbers in messages *)

Lemma int_roundtrip n : is_i32 n -> i32 (le_combine (le_split 4 n)) = n.
Proof.
  intros Hn. rewrite le_combine_split. change (256 ^ Z.of_nat 4) with (2 ^ 32). unfold i32.
  rewrite Zplus_mod_idemp_l. rewrite Z.mod_small; lia.
Qed.

Lemma le_split_inj a b : is_i32 a -> is_i32 b -> le_split 4 a = le_split 4 b -> a = b.
Proof. intros Ha Hb E. rewrite <- (int_roundtrip a Ha), <- (int_roundtrip b Hb). by rewrite E. Qed.

(** The fields of a message. *)
Section fields.
Context (pid rid size : Z) (content rest : list byte).

Lemma read_proxy_id : is_i32 pid -> read_int (client_value pid rid size content ++ rest) 0 = Some pid.
Proof.
  intros H. unfold read_int, client_value. rewrite <- !app_assoc, read_at_here by (by rewrite length_le_split).
  cbn [mbind option_bind]. by rewrite int_roundtrip.
Qed.

Lemma read_request_id : is_i32 rid -> read_int (client_value pid rid size content ++ rest) 4 = Some rid.
Proof.
  intros H. unfold read_int, client_value. rewrite <- !app_assoc.
  rewrite (read_at_past _ _ 4 0) by (by rewrite length_le_split || lia). rewrite read_at_here by (by rewrite length_le_split).
  cbn [mbind option_bind]. by rewrite int_roundtrip.
Qed.

Lemma read_size : is_i32 size -> read_int (client_value pid rid size content ++ rest) 8 = Some size.
Proof.
  intros H. unfold read_int, client_value. rewrite <- !app_assoc.
  rewrite (read_at_past _ _ 4 4), (read_at_past _ _ 4 0) by (by rewrite length_le_split || lia).
  rewrite read_at_here by (by rewrite length_le_split). cbn [mbind option_bind]. by rewrite int_roundtrip.
Qed.

Lemma read_content d tl : content = d ++ tl ->
  read_at (client_value pid rid size content ++ rest) 12 (Z.of_nat (length d)) = Some d.
Proof.
  intros ->. unfold client_value. rewrite <- !app_assoc.
  rewrite (read_at_past _ _ 4 8), (read_at_past _ _ 4 4), (read_at_past _ _ 4 0) by (by rewrite length_le_split || lia).
  by rewrite read_at_here.
Qed.
End fields.

Lemma length_client_value pid rid size content :
  length (client_value pid rid size content) = (12 + length content)%nat.
Proof. unfold client_value. rewrite !length_app, !length_le_split. lia. Qed.

(** ** The table of pending requests *)

Definition entry_ok (m : gmap Z (element Z)) (pend : gmap Z Z) (x id : Z) : Prop :=
  exists b, contents m !! x = Some (le_split 4 id, b) /\ pend !! id = Some b.

(** [ids] are the numbers of the entries [l] of the table, all below [next]. *)
Definition pending_ok (h : hash Z) (next : Z) (pend : gmap Z Z) : Prop :=
  0 <= next < 2 ^ 31 /\ exists l ids, table_rep h l /\ NoDup ids /\ Forall2 (entry_ok (mem h) pend) l ids /\
    (forall id, is_Some (pend !! id) <-> id ∈ ids) /\ Forall (fun id => 0 <= id < next) ids.

Lemma NoDup_range (ids : list Z) n : 0 <= n -> NoDup ids -> Forall (fun i => 0 <= i < n) ids -> Z.of_nat (length ids) <= n.
Proof.
  intros Hn Hnd Hr. assert (ids ⊆+ seqZ 0 n) as Hs.
  { apply NoDup_submseteq; [done|]. intros i Hi. apply elem_of_seqZ. rewrite Forall_forall in Hr. specialize (Hr i Hi). lia. }
  apply submseteq_length in Hs. rewrite length_seqZ in Hs. lia.
Qed.

Lemma contents_lookup {A} (m : gmap Z (element A)) x k a :
  contents m !! x = Some (k, a) <-> exists e, m !! x = Some e /\ key e = k /\ payload e = a.
Proof.
  unfold contents. rewrite lookup_fmap. destruct (m !! x) as [e|]; split.
  - intros [= <- <-]. by exists e.
  - intros (e' & [= <-] & <- & <-). done.
  - done.
  - by intros (e' & ? & _).
Qed.

Lemma entries_in_memory m pend l ids x : Forall2 (entry_ok m pend) l ids -> x ∈ l -> is_Some (m !! x).
Proof.
  intros HF Hx. apply list_elem_of_lookup in Hx as (i & Hi). destruct (Forall2_lookup_l _ _ _ _ _ HF Hi) as (id & _ & b & Hc & _).
  apply contents_lookup in Hc as (e & He & _). by exists e.
Qed.

Lemma pending_add h next pend s b :
  pending_ok h next pend -> next + 1 < 2 ^ 31 -> s <> 0 -> mem h !! s = None ->
  (head h <> 0 -> log2_num_buckets (tbl h) < 31) ->
  exists h', HASH_ADD (Hash (head h) (tbl h) (<[s := Element (le_split 4 next) b 0 0 0 0 0 0]> (mem h))) s = Some h' /\
    pending_ok h' (next + 1) (<[next := b]> pend).
Proof.
  intros (Hn & l & ids & Hrep & Hnd & HF & Hdom & Hr) Hmax Hs0 Hs Hlog.
  assert (s ∉ l) as Hsl. { intros Hx. destruct (entries_in_memory _ _ _ _ _ HF Hx) as [e He]. congruence. }
  assert (next ∉ ids) as Hnew. { intros Hx. rewrite Forall_forall in Hr. specialize (Hr _ Hx). lia. }
  set (e := Element _ b 0 0 0 0 0 0). set (h1 := Hash _ _ _).
  assert (table_rep h1 l) as Hrep1.
  { destruct h as [hd t m]. apply (table_rep_frame hd t m); [|done]. intros y Hy. apply lookup_insert_ne. by intros ->. }
  pose proof (NoDup_range ids next ltac:(lia) Hnd Hr) as Hlen. rewrite <- (Forall2_length _ _ _ HF) in Hlen.
  destruct (HASH_ADD_spec h1 l s e) as (h' & Hadd & Hrep' & Hc & _); [done|apply lookup_insert_eq|done|done|lia| |].
  { intros Hne. apply Hlog. destruct Hrep as [_ Hl]. destruct l as [|x l]; [done|]. destruct Hl as (-> & _ & (Hx & _) & _). done. }
  exists h'. split; [done|]. split; [lia|]. exists (l ++ [s]), (ids ++ [next]). split; [done|]. split_and!.
  - apply NoDup_app. split_and!; [done|set_solver|apply NoDup_singleton].
  - apply Forall2_app; [|constructor; [|constructor]].
    + apply Forall2_same_length_lookup in HF as [HFl HF]. apply Forall2_same_length_lookup. split; [done|]. intros i x id Hx Hid.
      destruct (HF i x id Hx Hid) as (c & Hcc & Hp). exists c. rewrite Hc. split.
      * unfold h1, contents. cbn [mem]. rewrite fmap_insert, lookup_insert_ne; [done|]. intros ->. by apply list_elem_of_lookup_2 in Hx.
      * rewrite lookup_insert_ne; [done|]. intros ->. by apply list_elem_of_lookup_2 in Hid.
    + exists b. rewrite Hc. split; [unfold h1, contents; cbn [mem]; by rewrite fmap_insert, lookup_insert_eq|apply lookup_insert_eq].
  - intros id. rewrite elem_of_app, list_elem_of_singleton, lookup_insert_is_Some, Hdom. destruct (decide (next = id)); naive_solver.
  - apply Forall_app. split; [|constructor; [lia|done]]. eapply Forall_impl; [exact Hr|]. cbn. lia.
Qed.

Lemma pending_find_none h next pend id :
  pending_ok h next pend -> is_i32 id -> pend !! id = None -> HASH_FIND h (le_split 4 id) = Some 0.
Proof.
  intros (Hn & l & ids & Hrep & _ & HF & _ & Hr) Hid Hp.
  destruct (HASH_FIND_spec h l (le_split 4 id) Hrep) as (x & -> & [[-> _]|(_ & Hx & e & He & Hk)]); [done|].
  apply list_elem_of_lookup in Hx as (i & Hi). destruct (Forall2_lookup_l _ _ _ _ _ HF Hi) as (id' & Hi' & b & Hc & Hp').
  apply contents_lookup in Hc as (e' & He' & Hk' & _). assert (id' = id) as ->; [|congruence].
  pose proof (proj1 (Forall_lookup _ _) Hr _ _ Hi') as Hr'. cbn in Hr'. apply le_split_inj; [lia|done|congruence].
Qed.

(** Taking out the entry of a request. *)
Lemma pending_delete h next pend l ids i x id :
  pending_ok h next pend -> table_rep h l -> NoDup ids -> Forall2 (entry_ok (mem h) pend) l ids ->
  (forall id, is_Some (pend !! id) <-> id ∈ ids) -> Forall (fun id => 0 <= id < next) ids ->
  l !! i = Some x -> ids !! i = Some id ->
  exists h', HASH_DELETE h x = Some h' /\ pending_ok (Hash (head h') (tbl h') (delete x (mem h'))) next (delete id pend).
Proof.
  intros (Hn & _) Hrep Hnd HF Hdom Hr Hx Hi.
  apply list_elem_of_split_length in Hx as (l1 & l2 & -> & Hl1).
  apply list_elem_of_split_length in Hi as (ids1 & ids2 & -> & Hids1).
  apply Forall2_app_inv in HF as [HF1 [_ HF2]%Forall2_cons]; [|congruence].
  destruct (HASH_DELETE_spec h l1 x l2 Hrep) as (h' & Hdel & Hrep' & Hcont & _).
  exists h'. split; [done|]. pose proof Hrep as [HndL _]. apply NoDup_app in HndL as (_ & Hd1 & [Hd2 _]%NoDup_cons).
  assert (NoDup (ids1 ++ ids2) /\ id ∉ ids1 ++ ids2) as [Hnd' Hidn].
  { rewrite <- Permutation_middle in Hnd. apply NoDup_cons in Hnd as [? ?]. done. }
  assert (x ∉ l1 ++ l2) as Hxn by (rewrite elem_of_app; intros [?|?]; [eapply Hd1; [done|left]|done]).
  split; [done|]. exists (l1 ++ l2), (ids1 ++ ids2). split_and!; [| done | | |].
  - destruct h' as [hd t m]. apply (table_rep_frame hd t m); [|done]. intros y Hy. apply lookup_delete_ne. by intros ->.
  - assert (Forall2 (entry_ok (mem h) pend) (l1 ++ l2) (ids1 ++ ids2)) as HF by (by apply Forall2_app).
    apply Forall2_same_length_lookup in HF as [HFl HF]. apply Forall2_same_length_lookup. split; [done|]. intros j y idy Hy Hidy.
    destruct (HF j y idy Hy Hidy) as (c & Hcc & Hpc). exists c. cbn [mem]. rewrite <- Hcont in Hcc. split.
    + unfold contents in *. rewrite fmap_delete, lookup_delete_ne; [done|]. intros ->. by apply list_elem_of_lookup_2 in Hy.
    + rewrite lookup_delete_ne; [done|]. intros ->. by apply list_elem_of_lookup_2 in Hidy.
  - intros id'. rewrite lookup_delete_is_Some, Hdom, !elem_of_app, elem_of_cons. split; [naive_solver|].
    intros Hin. split; [intros <-; apply Hidn; by rewrite elem_of_app|naive_solver].
  - apply Forall_app in Hr as [? [_ ?]%Forall_cons]. by apply Forall_app.
Qed.

(** The entry found, and the table without it. *)
Lemma pending_find h next pend id b :
  pending_ok h next pend -> pend !! id = Some b ->
  exists s e h', HASH_FIND h (le_split 4 id) = Some s /\ s <> 0 /\ mem h !! s = Some e /\ payload e = b /\
    HASH_DELETE h s = Some h' /\ pending_ok (Hash (head h') (tbl h') (delete s (mem h'))) next (delete id pend).
Proof.
  intros (Hn & l & ids & Hrep & Hnd & HF & Hdom & Hr) Hp.
  assert (id ∈ ids) as (i & Hi)%list_elem_of_lookup by (apply Hdom; by exists b).
  destruct (Forall2_lookup_r _ _ _ _ _ HF Hi) as (x & Hx & b' & Hc & Hp').
  assert (b' = b) as -> by congruence. apply contents_lookup in Hc as (e & He & Hk & Hb).
  pose proof (proj1 (Forall_lookup _ _) Hr _ _ Hi) as Hrid. cbn in Hrid.
  assert (HASH_FIND h (le_split 4 id) = Some x /\ x <> 0) as [Hf Hx0].
  { destruct (HASH_FIND_spec h l (le_split 4 id) Hrep) as (y & Hy & [[-> Hno]|(Hy0 & Hyl & e' & He' & Hk')]).
    - by destruct (Hno x e (list_elem_of_lookup_2 _ _ _ Hx) He).
    - apply list_elem_of_lookup in Hyl as (j & Hj). destruct (Forall2_lookup_l _ _ _ _ _ HF Hj) as (id' & Hj' & c & Hc' & _).
      apply contents_lookup in Hc' as (e2 & He2 & Hk2 & _).
      pose proof (proj1 (Forall_lookup _ _) Hr _ _ Hj') as Hr'. cbn in Hr'.
      assert (id' = id) as -> by (apply le_split_inj; [lia|lia|congruence]).
      assert (i = j) as -> by (by eapply NoDup_lookup). split; congruence. }
  destruct (pending_delete h next pend l ids i x id) as (h' & Hdel & Hok); try done; [split; [done|by exists l, ids]|].
  by exists x, e, h'.
Qed.

(** ** Freeing the table *)

Lemma first_next (h : hash Z) x l : table_rep h (x :: l) -> x <> 0 /\ exists e, mem h !! x = Some e /\ next e = first 0 l.
Proof.
  intros [_ (_ & _ & (Hx & HL & _) & _)]. split; [done|]. unfold app_links in HL. rewrite lookup_fmap in HL.
  destruct (mem h !! x) as [e|]; [|done]. injection HL as _ ?. by exists e.
Qed.

Lemma free_requests_spec l : forall fuel h,
  table_rep h l -> (length l < fuel)%nat ->
  exists h', free_requests fuel h (first 0 l) (first 0 (List.tl l)) = Some h' /\ head h' = 0 /\
    dom (mem h') = dom (mem h) ∖ list_to_set l.
Proof.
  induction l as [|x l IH]; intros fuel h Hrep Hfuel; (destruct fuel as [|fuel]; [simpl in Hfuel; lia|]); cbn [free_requests List.tl].
  { exists h. cbn [first default list.head]. rewrite Z.eqb_refl. split; [done|]. split; [apply Hrep|set_solver]. }
  change (first 0 (x :: l)) with x. destruct (first_next h x l Hrep) as [Hx _]. rewrite (proj2 (Z.eqb_neq x 0)) by done.
  destruct (HASH_DELETE_spec h [] x l Hrep) as (h1 & Hdel & Hrep1 & Hc & _). rewrite Hdel. cbn [mbind option_bind app] in *.
  set (h2 := Hash _ _ _). assert (x ∉ l) as Hxl by (destruct Hrep as [[? _]%NoDup_cons _]; done).
  assert (table_rep h2 l) as Hrep2.
  { destruct h1 as [hd t m]. apply (table_rep_frame hd t m); [|done]. intros y Hy. apply lookup_delete_ne. by intros ->. }
  destruct (IH fuel h2 Hrep2) as (h' & Hf & Hh & Hd); [simpl in Hfuel; lia|].
  exists h'. assert (dom (mem h1) = dom (mem h)) as Ed.
  { assert (dom (contents (mem h1)) = dom (contents (mem h))) as E by (by rewrite Hc). unfold contents in E. by rewrite !dom_fmap_L in E. }
  split_and!; [|done|].
  - destruct l as [|y l]; cbn [List.tl] in *; [done|]. change (first 0 (y :: l)) with y in *. destruct (first_next h2 y l Hrep2) as (Hy & e & He & Hne).
    rewrite (proj2 (Z.eqb_neq y 0)) by done. rewrite He. cbn [mbind option_bind]. by rewrite Hne.
  - rewrite Hd. unfold h2. cbn [mem]. rewrite dom_delete_L, Ed. cbn [list_to_set]. set_solver.
Qed.

(** Cleaning up frees every entry of the table of pending requests once, and
    nothing else. *)
Theorem clean_requests_frees_all (h : hash Z) l :
  table_rep h l ->
  exists h', clean_requests h = Some h' /\ head h' = 0 /\ dom (mem h') = dom (mem h) ∖ list_to_set l.
Proof.
  intros Hrep. pose proof Hrep as [Hnd Hl]. unfold clean_requests.
  assert (length l <= size (mem h))%nat as Hsize.
  { destruct l as [|x l]; [simpl; lia|]. destruct Hl as (_ & _ & _ & _ & _ & Hh & _).
    apply (chain_size (mem h) _ Hnd). intros y Hy. destruct (Hh y Hy) as (e & ? & _). by exists e. }
  destruct (free_requests_spec l (S (size (mem h))) h Hrep) as (h' & Hf & Hok); [lia|].
  exists h'. split; [|done]. destruct l as [|x l].
  - rewrite Hl. exact Hf.
  - destruct Hl as (Hh & _). rewrite Hh. change (first 0 (x :: l)) with x in *.
    destruct (first_next h x l Hrep) as (Hx & e & He & Hn). rewrite (proj2 (Z.eqb_neq x 0)) by done. rewrite He.
    cbn [mbind option_bind List.tl] in *. by rewrite Hn.
Qed.

(** ** Requests and answers *)

Section handlers.
Context `{MP : Msgpack} `{MAL : MallocLaws}.
Implicit Types (p : proxy_server) (stack d : list byte).

Definition request_message (v : list byte) : paxos_message :=
  PAXOS_CLIENT_VALUE {| PaxosTypes.client_value := {| paxos_value_len := sizeof_client_value; paxos_value_val := Some v |} |}.

Lemma submit_value_spec cs b c v :
  cs !! b = Some c -> Z.of_nat (length v) = sizeof_client_value ->
  submit_value cs b v = Some (<[b := Conn (input c) (output c ++ wire (request_message v)) (readcb c)]> cs).
Proof.
  intros Hb Hv. unfold submit_value. rewrite Hb. cbn [mbind option_bind]. unfold paxos_submit. fold (request_message v).
  rewrite send_wire; [done|]. unfold request_message, message_ok, value_ok. cbn [PaxosTypes.client_value paxos_value_len paxos_value_val default].
  unfold sizeof_client_value in *. change (Datatypes.id v) with v. lia.
Qed.

(** The bytes of a client become the value with the next number. *)
Lemma handle_request_spec stack p pend b c o :
  pending_ok (request_table p) (current_request_id p) pend -> current_request_id p + 1 < 2 ^ 31 ->
  (head (request_table p) <> 0 -> log2_num_buckets (tbl (request_table p)) < 31) -> malloc (mem (request_table p)) <> 0 ->
  Z.of_nat (length stack) = TMP_VALUE_SIZE -> conns p !! b = Some c -> conns p !! bev p = Some o -> b <> bev p ->
  exists p' tl, let d := take 31 (input c) in
    let v := client_value (proxy_id p) (current_request_id p) (Z.of_nat (length d)) (d ++ tl) in
    handle_request stack p b = Some p' /\ Z.of_nat (length v) = sizeof_client_value /\
    conns p' = <[bev p := Conn (input o) (output o ++ wire (request_message v)) (readcb o)]>
                 (<[b := Conn (drop 31 (input c)) (output c) (readcb c)]> (conns p)) /\
    current_request_id p' = current_request_id p + 1 /\
    pending_ok (request_table p') (current_request_id p') (<[current_request_id p := b]> pend).
Proof.
  intros Hok Hmax Hlog Hm Hstack Hb Ho Hne. pose proof Hok as (Hn & _). unfold TMP_VALUE_SIZE in *.
  set (d := take 31 (input c)). assert (length d <= 31)%nat as Hd by (unfold d; rewrite length_take; lia).
  destruct (arr_set_in (d ++ drop (length d) stack) 31 x00) as [content Hc]; [rewrite length_app, length_drop; lia|].
  pose proof (arr_set_length _ _ _ _ Hc) as Hlc. rewrite length_app, length_drop in Hlc.
  pose proof Hc as [_ Ec]%arr_set_Some. change (Z.to_nat 31) with 31%nat in Ec.
  assert (content = d ++ drop (length d) content) as Etl.
  { rewrite Ec, insert_app_r_alt by lia. by rewrite drop_app_length. }
  destruct (malloc_fresh (mem (request_table p))) as [?|Hfresh]; [done|].
  destruct (pending_add (request_table p) (current_request_id p) pend (malloc (mem (request_table p))) b) as (h' & Hadd & Hok'); try done.
  set (v := client_value (proxy_id p) (current_request_id p) (Z.of_nat (length d)) content).
  assert (Z.of_nat (length v) = sizeof_client_value) as Hv by (unfold v; rewrite length_client_value; unfold sizeof_client_value; lia).
  set (cs := <[b := Conn (drop 31 (input c)) (output c) (readcb c)]> (conns p)).
  assert (cs !! bev p = Some o) as Ho' by (unfold cs; by rewrite lookup_insert_ne).
  exists (set_table (set_conns p (<[bev p := Conn (input o) (output o ++ wire (request_message v)) (readcb o)]> cs))
            (i32 (current_request_id p + 1)) h'), (drop (length d) content). rewrite <- Etl. fold v. split.
  { unfold handle_request, bufferevent_read, TMP_VALUE_SIZE. rewrite Hb. cbn [mbind option_bind]. change (Z.to_nat (32 - 1)) with 31%nat.
    change (32 - 1) with 31. fold d cs. rewrite Hc. cbn [mbind option_bind]. fold v. rewrite (submit_value_spec cs (bev p) o v) by done.
    cbn [mbind option_bind]. rewrite (proj2 (Z.eqb_neq _ 0)) by done. cbn [negb assert_ mbind option_bind]. rewrite Hadd. done. }
  cbn [current_request_id request_table conns set_table set_conns]. rewrite i32_small by lia. done.
Qed.

(** The answer to a pending request goes to its client; any other is ignored. *)
Lemma respond_cb_spec p pend pid id d tl rest :
  pending_ok (request_table p) (current_request_id p) pend -> is_i32 id -> Z.of_nat (length d) < 2 ^ 31 ->
  let msg := client_value pid id (Z.of_nat (length d)) (d ++ tl) ++ rest in
  match pend !! id with
  | None => respond_cb msg p = Some p
  | Some b => forall c, conns p !! b = Some c ->
      exists h, respond_cb msg p = Some (set_table (set_conns p (<[b := Conn (input c) (output c ++ d) (readcb c)]> (conns p)))
                                         (current_request_id p) h) /\
        pending_ok h (current_request_id p) (delete id pend)
  end.
Proof.
  intros Hok Hid Hd msg. unfold msg, respond_cb. destruct (pend !! id) as [b|] eqn:Hp.
  - intros c Hb. destruct (pending_find _ _ _ _ _ Hok Hp) as (s & e & h' & Hf & Hs & He & Hpay & Hdel & Hok').
    rewrite read_request_id by done. cbn [mbind option_bind]. rewrite Hf. cbn [mbind option_bind]. rewrite (proj2 (Z.eqb_neq s 0)), He by done. cbn [mbind option_bind].
    rewrite read_size by lia. cbn [mbind option_bind]. rewrite Z.mod_small, (read_content _ _ _ _ _ d tl) by (done || lia).
    cbn [mbind option_bind]. unfold bufferevent_write. rewrite Hpay, Hb. cbn [mbind option_bind]. rewrite Hdel. cbn [mbind option_bind].
    eexists. by split.
  - rewrite read_request_id by done. cbn [mbind option_bind]. by rewrite (pending_find_none _ _ _ _ Hok Hid Hp).
Qed.
End handlers.
