(* ===== verification/EchoServer.v ===== *)
(** * The learner behind the proxies ([sample/learner.c])

    The application of the sample learner sends every delivered value back to the
    proxy named in it: [deliver] is the callback that [evlearner_init] is given
    (the argument of [EvLearner.v]).  Together with [Proxy.v]: a client gets its
    bytes back.

    [None] is the use of NULL or of a freed bufferevent, and an index outside of
    the array of proxies. *)

From S2P Require Import Prelude Bytes PaxosTypes EvConfig TypesPack Peers Strtok NetPaxos AppConfig Uthash UthashInv Proxy ProxyInv.
#[local] Open Scope Z_scope.

Definition NUM_PROPOSERS : Z := 10.

Record application_ctx := ApplicationCtx {
  finished : bool;
  delivered_count : Z;
  at_second : Z;
  bevs : list Z;
  server_conns : conns_t;
}.

Implicit Types (ctx : application_ctx) (b events : Z) (stack : list byte).

(** The counters are set by [start_learner]. *)
Definition new_application : application_ctx := ApplicationCtx false 0 0 (repeat 0 (Z.to_nat NUM_PROPOSERS)) ∅.

Definition set_server_conns ctx (cs : conns_t) : application_ctx :=
  ApplicationCtx (finished ctx) (delivered_count ctx) (at_second ctx) (bevs ctx) cs.

(** [bufferevent_free] of those that are not NULL. *)
Fixpoint free_proxies (cs : conns_t) (l : list Z) : option conns_t :=
  match l with
  | [] => Some cs
  | b :: l => if b =? 0 then free_proxies cs l else _ ← cs !! b; free_proxies (delete b cs) l
  end.

Definition free_application ctx : option conns_t := free_proxies (server_conns ctx) (bevs ctx).

Definition handle_signal ctx : application_ctx :=
  ApplicationCtx true (delivered_count ctx) (at_second ctx) (bevs ctx) (server_conns ctx).

Definition on_stats ctx : application_ctx :=
  ApplicationCtx (finished ctx) 0 (i32 (at_second ctx + 1)) (bevs ctx) (server_conns ctx).

Definition deliver ctx (iid : Z) (value : option (list byte)) (size : Z) : option application_ctx :=
  val ← value;
  let ctx := ApplicationCtx (finished ctx) (i32 (delivered_count ctx + 1)) (at_second ctx) (bevs ctx) (server_conns ctx) in
  proxy_id ← read_int val 0;
  if finished ctx then Some ctx else
  b ← arr_get (bevs ctx) proxy_id;
  data ← read_at val 0 size;
  cs ← bufferevent_write (server_conns ctx) b data;
  Some (set_server_conns ctx cs).

Definition handle_conn_events ctx b events : application_ctx :=
  if flag events BEV_EVENT_EOF || flag events BEV_EVENT_ERROR then set_server_conns ctx (delete b (server_conns ctx)) else ctx.

(** A proxy says who it is. *)
Definition handle_request stack ctx b : option application_ctx :=
  '(d, cs) ← bufferevent_read (server_conns ctx) b 4;
  proxy_id ← read_int (d ++ drop (length d) stack) 0;
  l ← arr_set (bevs ctx) proxy_id b;
  Some (ApplicationCtx (finished ctx) (delivered_count ctx) (at_second ctx) l cs).

Definition accept_conn_cb `{MA : Malloc} ctx : option application_ctx :=
  let b := malloc (server_conns ctx) in
  assert_ (negb (b =? 0));;
  Some (set_server_conns ctx (<[b := Conn [] [] handle_request_cb]> (server_conns ctx))).

(** ** A request and its answers *)

Lemma deliver_spec ctx iid pid rid size content lb lc :
  finished ctx = false -> is_i32 pid -> arr_get (bevs ctx) pid = Some lb -> server_conns ctx !! lb = Some lc ->
  let v := client_value pid rid size content in
  exists ctx', deliver ctx iid (Some v) (Z.of_nat (length v)) = Some ctx' /\ bevs ctx' = bevs ctx /\
    server_conns ctx' = <[lb := Conn (input lc) (output lc ++ v) (readcb lc)]> (server_conns ctx).
Proof.
  intros Hf Hpid Hb Hc v.
  assert (read_int v 0 = Some pid) as Er by (rewrite <- (app_nil_r v); by apply read_proxy_id).
  assert (read_at v 0 (Z.of_nat (length v)) = Some v) as Ev by (rewrite <- (app_nil_r v) at 1; by apply read_at_here).
  unfold deliver. cbn [mbind option_bind]. rewrite Er. cbn [mbind option_bind finished bevs server_conns].
  rewrite Hf, Hb. cbn [mbind option_bind]. rewrite Ev. unfold bufferevent_write. cbn [mbind option_bind]. rewrite Hc.
  cbn [mbind option_bind]. eexists. by split.
Qed.

(** A proxy that connects to the learner is found under its id. *)
Lemma handle_request_registers stack ctx b c pid :
  server_conns ctx !! b = Some c -> input c = le_split 4 pid -> length (bevs ctx) = Z.to_nat NUM_PROPOSERS -> 0 <= pid < NUM_PROPOSERS ->
  exists ctx', handle_request stack ctx b = Some ctx' /\ arr_get (bevs ctx') pid = Some b /\
    (forall q, q <> pid -> arr_get (bevs ctx') q = arr_get (bevs ctx) q).
Proof.
  unfold NUM_PROPOSERS. intros Hb Hi Hl Hpid. unfold handle_request, bufferevent_read. rewrite Hb. cbn [mbind option_bind].
  rewrite Hi, firstn_all2 by (by rewrite length_le_split). unfold read_int.
  rewrite read_at_here by (by rewrite length_le_split). cbn [mbind option_bind]. rewrite int_roundtrip by lia.
  destruct (arr_set_in (bevs ctx) pid b) as [l Hset]; [lia|]. rewrite Hset. cbn [mbind option_bind]. eexists. split; [done|].
  cbn [bevs]. split; [|intros q Hq]; rewrite (arr_get_set _ _ _ _ _ Hset); by case_decide.
Qed.

(** A value of a proxy that is not connected (or no longer), or of any other
    client of the proposers with an unexpected number in its first bytes, is
    written through NULL, a freed pointer, or one outside of the array. *)
Lemma deliver_unconnected ctx iid v size pid :
  finished ctx = false -> read_int v 0 = Some pid ->
  (forall b, arr_get (bevs ctx) pid = Some b -> server_conns ctx !! b = None) ->
  deliver ctx iid (Some v) size = None.
Proof.
  intros Hf Hr Hb. unfold deliver. cbn [mbind option_bind]. rewrite Hr. cbn [mbind option_bind finished bevs server_conns]. rewrite Hf.
  destruct (arr_get (bevs ctx) pid) as [b|]; [|done]. cbn [mbind option_bind]. destruct (read_at v 0 size); [|done].
  unfold bufferevent_write. cbn [mbind option_bind]. by rewrite (Hb b eq_refl).
Qed.

Section echo.
Context `{MP : Msgpack} `{MAL : MallocLaws}.
Implicit Types (p : proxy_server).

(** What a learner's answer does to the proxy that reads it. *)
Lemma on_read_answer stack p pend r c pid id d tl rest b :
  pending_ok (request_table p) (current_request_id p) pend -> is_i32 id ->
  conns p !! r = Some c -> input c = client_value pid id (Z.of_nat (length d)) (d ++ tl) ++ rest ->
  Z.of_nat (length (input c)) <= BUFFER_SIZE -> pend !! id = Some b -> r <> b ->
  forall cb, conns p !! b = Some cb ->
  exists p', on_read stack p r = Some p' /\ current_request_id p' = current_request_id p /\
    pending_ok (request_table p') (current_request_id p') (delete id pend) /\
    conns p' = <[b := Conn (input cb) (output cb ++ d) (readcb cb)]> (<[r := Conn [] (output c) (readcb c)]> (conns p)).
Proof.
  intros Hok Hid Hr Hin Hlen Hp Hrb cb Hb. unfold BUFFER_SIZE in *. unfold on_read, bufferevent_read. rewrite Hr.
  cbn [mbind option_bind]. unfold BUFFER_SIZE. rewrite firstn_all2, (drop_ge (input c)) by lia.
  assert (forall X, input c ++ X = client_value pid id (Z.of_nat (length d)) (d ++ tl) ++ (rest ++ X)) as E by (intros; by rewrite Hin, <- app_assoc).
  rewrite E.
  set (p1 := set_conns _ _). assert (Z.of_nat (length d) < 2 ^ 31) as Hd.
  { rewrite Hin, length_app, length_client_value, length_app in Hlen. lia. }
  pose proof (respond_cb_spec p1 pend pid id d tl (rest ++ drop (length (input c)) stack) Hok Hid Hd) as H.
  cbn zeta in H. rewrite Hp in H. destruct (H cb) as (h & -> & Hok'); [unfold p1; cbn; by rewrite lookup_insert_ne|].
  eexists. split; [done|]. by split.
Qed.

(** With the callbacks for proxies with clients, which the program as it is built
    does not install (see the next section), a client gets back the bytes it sent.
    The proxy submits a value that names the proxy and the request and contains the
    bytes (at most 31); a learner to which this value is delivered sends it to that
    proxy; when the proxy reads it, alone, whatever else happened to its table since, it
    writes the bytes to this client and forgets the request, so that the answers of
    the other learners change nothing. *)
Theorem echo_round_trip stack p pend b c o ctx iid lb lc :
  pending_ok (request_table p) (current_request_id p) pend -> current_request_id p + 1 < 2 ^ 31 ->
  (head (request_table p) <> 0 -> log2_num_buckets (tbl (request_table p)) < 31) -> malloc (mem (request_table p)) <> 0 ->
  Z.of_nat (length stack) = TMP_VALUE_SIZE -> conns p !! b = Some c -> conns p !! bev p = Some o -> b <> bev p ->
  finished ctx = false -> is_i32 (proxy_id p) -> arr_get (bevs ctx) (proxy_id p) = Some lb -> server_conns ctx !! lb = Some lc ->
  let d := take 31 (input c) in
  exists p1 v ctx1,
    Proxy.handle_request stack p b = Some p1 /\
    output <$> conns p1 !! bev p = Some (output o ++ wire (request_message v)) /\
    conns p1 !! b = Some (Conn (drop 31 (input c)) (output c) (readcb c)) /\
    pending_ok (request_table p1) (current_request_id p1) (<[current_request_id p := b]> pend) /\
    deliver ctx iid (Some v) sizeof_client_value = Some ctx1 /\
    output <$> server_conns ctx1 !! lb = Some (output lc ++ v) /\
    (forall p2 pend2 r out f cb stack2,
       pending_ok (request_table p2) (current_request_id p2) pend2 -> pend2 !! current_request_id p = Some b ->
       conns p2 !! r = Some (Conn v out f) -> r <> b -> conns p2 !! b = Some cb ->
       exists p3, on_read stack2 p2 r = Some p3 /\ output <$> conns p3 !! b = Some (output cb ++ d) /\
         pending_ok (request_table p3) (current_request_id p3) (delete (current_request_id p) pend2) /\
         forall rest, respond_cb (v ++ rest) p3 = Some p3).
Proof.
  intros Hok Hmax Hlog Hm Hstack Hb Ho Hne Hf Hpid Hlb Hlc d. pose proof Hok as (Hn & _).
  destruct (handle_request_spec stack p pend b c o Hok Hmax Hlog Hm Hstack Hb Ho Hne) as (p1 & tl & H1 & Hv & Hc1 & _ & Hok1).
  fold d in H1, Hv, Hc1. set (v := client_value _ _ _ _) in *.
  destruct (deliver_spec ctx iid (proxy_id p) (current_request_id p) (Z.of_nat (length d)) (d ++ tl) lb lc Hf Hpid Hlb Hlc)
    as (ctx1 & Hdel & _ & Hs1). fold v in Hdel, Hs1. rewrite Hv in Hdel.
  exists p1, v, ctx1. split_and!; try done.
  - by rewrite Hc1, lookup_insert_eq.
  - by rewrite Hc1, lookup_insert_ne, lookup_insert_eq by done.
  - by rewrite Hs1, lookup_insert_eq.
  - intros p2 pend2 r out f cb stack2 Hok2 Hp2 Hr Hrb Hcb.
    destruct (on_read_answer stack2 p2 pend2 r (Conn v out f) (proxy_id p) (current_request_id p) d tl [] b Hok2) with (cb := cb)
      as (p3 & H3 & Hcur & Hok3 & Hc3); try done; [lia|by rewrite app_nil_r|cbn [input]; rewrite Hv; done|].
    exists p3. split_and!; try done; [by rewrite Hc3, lookup_insert_eq|].
    intros rest. pose proof (respond_cb_spec p3 _ (proxy_id p) (current_request_id p) d tl rest Hok3) as H.
    cbn zeta in H. rewrite lookup_delete_eq in H. apply H; [lia|]. unfold d. rewrite length_take. lia.
Qed.

(** Two answers that arrive together: the proxy reads both and looks at the first
    only; the second request stays pending and its answer is gone. *)
Lemma coalesced_answers_lost stack p pend r c pid id id' d d' tl tl' b b' cb :
  pending_ok (request_table p) (current_request_id p) pend -> is_i32 id -> id <> id' ->
  conns p !! r = Some c ->
  input c = client_value pid id (Z.of_nat (length d)) (d ++ tl) ++ client_value pid id' (Z.of_nat (length d')) (d' ++ tl') ->
  Z.of_nat (length (input c)) <= BUFFER_SIZE ->
  pend !! id = Some b -> pend !! id' = Some b' -> r <> b -> r <> b' -> b <> b' -> conns p !! b = Some cb ->
  exists p', on_read stack p r = Some p' /\ input <$> conns p' !! r = Some [] /\ conns p' !! b' = conns p !! b' /\
    exists pend', pending_ok (request_table p') (current_request_id p') pend' /\ pend' !! id' = Some b'.
Proof.
  intros Hok Hid Hne Hr Hin Hlen Hp Hp' Hrb Hrb' Hbb Hcb.
  destruct (on_read_answer stack p pend r c pid id d tl _ b Hok Hid Hr Hin Hlen Hp Hrb cb Hcb) as (p' & H & _ & Hok' & Hc).
  exists p'. rewrite Hc. split; [done|]. split; [by rewrite lookup_insert_ne, lookup_insert_eq by done|].
  split; [by rewrite !lookup_insert_ne by done|]. exists (delete id pend). by rewrite lookup_delete_ne.
Qed.

(** A client that closes its connection before the answer: its bufferevent is
    freed, the entry is not, and the answer is written to the freed one. *)
Lemma closed_client_used p pend pid id d tl b :
  pending_ok (request_table p) (current_request_id p) pend -> is_i32 id -> Z.of_nat (length d) < 2 ^ 31 -> pend !! id = Some b ->
  respond_cb (client_value pid id (Z.of_nat (length d)) (d ++ tl)) (event_cb p b BEV_EVENT_EOF) = None.
Proof.
  intros Hok Hid Hd Hp. unfold event_cb. change (flag BEV_EVENT_EOF BEV_EVENT_EOF || _) with true. cbn iota.
  destruct (pending_find _ _ _ _ _ Hok Hp) as (s & e & h' & Hf & Hs & He & Hpay & _).
  rewrite <- (app_nil_r (client_value _ _ _ _)). unfold respond_cb. rewrite read_request_id by done.
  cbn [mbind option_bind request_table set_conns]. rewrite Hf. cbn [mbind option_bind]. rewrite (proj2 (Z.eqb_neq s 0)), He by done.
  cbn [mbind option_bind]. rewrite read_size by lia. cbn [mbind option_bind].
  rewrite Z.mod_small, (read_content _ _ _ _ _ d tl) by (done || lia). cbn [mbind option_bind conns set_conns].
  unfold bufferevent_write. by rewrite Hpay, lookup_delete_eq.
Qed.
End echo.

(** ** The program as it is built

    [main] does not start the listener for clients, and the connections to the
    learners have the callback [on_response]: the proxy makes the requests itself. *)

(** A connection event, and bytes that arrive, on the connection to the learner [i]. *)
Inductive learner_event := LearnerEvent (i events : Z) | Arrived (i : Z) (data : list byte).

Definition event_learner (ev : learner_event) : Z := match ev with LearnerEvent i _ | Arrived i _ => i end.

Section loop.
Context `{MP : Msgpack} `{MAL : MallocLaws}.
Implicit Types (p : proxy_server) (ev : learner_event).

Definition run_event stack p ev : option proxy_server :=
  match ev with
  | LearnerEvent i events => b ← arr_get (learner_bevs p) i; on_connect_learner stack p b events
  | Arrived i data =>
      b ← arr_get (learner_bevs p) i;
      c ← conns p !! b;
      on_readable stack (set_conns p (<[b := Conn (input c ++ data) (output c) (readcb c)]> (conns p))) b
  end.

(** Each event with the contents of the stack. *)
Fixpoint run_events p (l : list (learner_event * list byte)) : option proxy_server :=
  match l with [] => Some p | (ev, stack) :: l => p ← run_event stack p ev; run_events p l end.

(** What an event sends to the proposer, and to the learner [i]. *)
Definition own_request (pid : Z) stack : list byte := client_value pid 0 TMP_VALUE_SIZE (take 31 stack ++ [x00]).
Definition event_requests (pid : Z) (x : learner_event * list byte) : list (list byte) :=
  match x.1 with
  | LearnerEvent _ events => if flag events BEV_EVENT_CONNECTED then [own_request pid x.2] else []
  | Arrived _ _ => [own_request pid x.2]
  end.
Definition event_greetings (pid : Z) (i : Z) (x : learner_event * list byte) : list byte :=
  match x.1 with
  | LearnerEvent j events => if (j =? i) && flag events BEV_EVENT_CONNECTED then le_split 4 pid else []
  | Arrived _ _ => []
  end.

(** The proxy with the bytes [out] written to the proposer and [outs i] to the learner [i]. *)
Record looping p (pid : Z) (n : Z) (out : list byte) (outs : Z -> list byte) : Prop := {
  lp_id : proxy_id p = pid;
  lp_request : current_request_id p = 0;
  lp_table : request_table p = request_table (proxy_new pid);
  lp_bevs : NoDup (bev p :: learner_bevs p);
  lp_count : Z.of_nat (length (learner_bevs p)) = n;
  lp_proposer : conns p !! bev p = Some (Conn [] out no_cb);
  lp_learner i b : arr_get (learner_bevs p) i = Some b -> exists d, conns p !! b = Some (Conn d (outs i) on_response_cb);
}.

Lemma not_proposer p i b : NoDup (bev p :: learner_bevs p) -> arr_get (learner_bevs p) i = Some b -> b <> bev p.
Proof. intros [Hni _]%NoDup_cons [_ Hb]%arr_get_Some ->. by apply Hni, (list_elem_of_lookup_2 _ _ _ Hb). Qed.

Lemma send_request_loops stack p pid n out outs :
  Z.of_nat (length stack) = TMP_VALUE_SIZE -> looping p pid n out outs ->
  exists p', send_request stack p = Some p' /\ looping p' pid n (out ++ wire (request_message (own_request pid stack))) outs.
Proof.
  unfold TMP_VALUE_SIZE. intros Hs [Hid Hr Ht Hnd Hn Hp Hl]. unfold send_request, TMP_VALUE_SIZE. change (32 - 1) with 31.
  assert (arr_set stack 31 x00 = Some (take 31 stack ++ [x00])) as ->.
  { apply arr_set_Some. split; [lia|]. change (Z.to_nat 31) with 31%nat. rewrite <- (take_drop 31 stack) at 2.
    rewrite insert_app_r_alt by (rewrite length_take; lia). rewrite length_take, Nat.min_l, Nat.sub_diag by lia.
    assert (length (drop 31 stack) = 1%nat) as Hd by (rewrite length_drop; lia). by destruct (drop 31 stack) as [|? []]. }
  cbn [mbind option_bind]. rewrite Hr, Hid. fold (own_request pid stack).
  rewrite (submit_value_spec _ _ _ _ Hp); [|unfold own_request; rewrite length_client_value, length_app, length_take; cbn [length]; unfold sizeof_client_value; lia].
  cbn [mbind option_bind]. eexists. split; [done|]. split; cbn; try done; [by rewrite lookup_insert_eq|].
  intros i b Hi. rewrite lookup_insert_ne by (intros E; by apply (not_proposer p i b Hnd Hi)). by apply Hl.
Qed.

(** Something is written to a learner, or arrives from it. *)
Lemma learner_written p pid n out outs i b d w :
  looping p pid n out outs -> arr_get (learner_bevs p) i = Some b ->
  looping (set_conns p (<[b := Conn d (outs i ++ w) on_response_cb]> (conns p))) pid n out
    (fun j => outs j ++ if j =? i then w else []).
Proof.
  intros [Hid Hr Ht Hnd Hn Hp Hl] Hi. split; cbn; try done; [by rewrite lookup_insert_ne by (by eapply not_proposer)|].
  intros j b' Hj. destruct (Z.eqb_spec j i) as [->|Hji].
  - assert (b' = b) as -> by congruence. rewrite lookup_insert_eq. by eexists.
  - rewrite app_nil_r. rewrite lookup_insert_ne; [by apply Hl|]. intros ->. apply Hji.
    apply NoDup_cons in Hnd as [_ Hnd]. apply arr_get_Some in Hi as [? Hi], Hj as [? Hj]. pose proof (NoDup_lookup _ _ _ _ Hnd Hi Hj). lia.
Qed.

Lemma looping_ext p pid n out outs outs' : (forall i, outs i = outs' i) -> looping p pid n out outs -> looping p pid n out outs'.
Proof. intros He []. split; try done. intros i b Hi. rewrite <- He. eauto. Qed.

Lemma run_event_loops stack p ev pid n out outs :
  Z.of_nat (length stack) = TMP_VALUE_SIZE -> 0 <= event_learner ev < n -> looping p pid n out outs ->
  exists p', run_event stack p ev = Some p' /\
    looping p' pid n (out ++ List.concat ((fun v => wire (request_message v)) <$> event_requests pid (ev, stack)))
      (fun i => outs i ++ event_greetings pid i (ev, stack)).
Proof.
  intros Hs Hi Hp. pose proof (lp_count _ _ _ _ _ Hp) as Hn. destruct (arr_get_in (learner_bevs p) (event_learner ev)) as [b Hb]; [lia|].
  destruct (lp_learner _ _ _ _ _ Hp _ _ Hb) as [d Hd]. destruct ev as [i events|i data]; cbn [event_learner] in *;
    unfold run_event, event_requests, event_greetings; cbn [fst snd]; rewrite Hb; cbn [mbind option_bind].
  - unfold on_connect_learner. destruct (flag events BEV_EVENT_CONNECTED).
    + unfold bufferevent_write. rewrite Hd. cbn [mbind option_bind input output readcb]. rewrite (lp_id _ _ _ _ _ Hp).
      destruct (send_request_loops stack _ _ _ _ _ Hs (learner_written p pid n out outs i b d (le_split 4 pid) Hp Hb)) as (p' & Hrun & Hp').
      exists p'. split; [exact Hrun|]. cbn [fmap list_fmap List.concat]. rewrite app_nil_r. revert Hp'. apply looping_ext.
      intros j. by rewrite andb_true_r, (Z.eqb_sym i j).
    + exists p. split; [done|]. cbn. rewrite app_nil_r. revert Hp. apply looping_ext. intros j. by rewrite andb_false_r, app_nil_r.
  - rewrite Hd. cbn [mbind option_bind input output readcb]. unfold on_readable. cbn [conns set_conns]. rewrite lookup_insert_eq.
    cbn [mbind option_bind readcb]. unfold on_response, bufferevent_read. cbn [conns set_conns]. rewrite lookup_insert_eq.
    cbn [mbind option_bind input output readcb]. rewrite insert_insert_eq.
    destruct (send_request_loops stack _ _ _ _ _ Hs (learner_written p pid n out outs i b (drop (Z.to_nat BUFFER_SIZE) (d ++ data)) [] Hp Hb))
      as (p' & Hrun & Hp'). rewrite app_nil_r in Hrun. exists p'. split; [exact Hrun|]. cbn [fmap list_fmap List.concat]. rewrite app_nil_r.
    revert Hp'. apply looping_ext. intros j. by destruct (j =? i).
Qed.

(** *** The start *)

Lemma connect_learners_spec k : forall i p p',
  connect_learners k i p = Some p' -> 0 <= i -> Z.of_nat (length (learner_bevs p)) = i + Z.of_nat k ->
  NoDup (bev p :: take (Z.to_nat i) (learner_bevs p)) -> conns p !! bev p = Some (Conn [] [] no_cb) ->
  (forall b, b ∈ take (Z.to_nat i) (learner_bevs p) -> conns p !! b = Some (Conn [] [] on_response_cb)) ->
  proxy_id p' = proxy_id p /\ current_request_id p' = current_request_id p /\ request_table p' = request_table p /\
  length (learner_bevs p') = length (learner_bevs p) /\ NoDup (bev p' :: learner_bevs p') /\
  conns p' !! bev p' = Some (Conn [] [] no_cb) /\
  forall b, b ∈ learner_bevs p' -> conns p' !! b = Some (Conn [] [] on_response_cb).
Proof.
  induction k as [|k IH]; intros i p p' Hrun Hi Hlen Hnd Hp Hl; cbn [connect_learners] in Hrun.
  { injection Hrun as <-. rewrite firstn_all2 in Hnd, Hl by lia. by split_and!. }
  unfold connect in Hrun. set (b := malloc (conns p)) in *. destruct (Z.eqb_spec b 0) as [|Hb]; [done|].
  cbn [negb assert_ mbind option_bind] in Hrun. assert (conns p !! b = None) as Hfresh by (by destruct (malloc_fresh (conns p))).
  cbn [learner_bevs set_conns] in Hrun. destruct (arr_set (learner_bevs p) i b) as [bevs|] eqn:Hset; [|done]. cbn [mbind option_bind] in Hrun.
  pose proof (arr_set_length _ _ _ _ Hset) as Hlb. apply arr_set_Some in Hset as [_ ->].
  assert (take (Z.to_nat (i + 1)) (<[Z.to_nat i := b]> (learner_bevs p)) = take (Z.to_nat i) (learner_bevs p) ++ [b]) as Htake.
  { replace (Z.to_nat (i + 1)) with (S (Z.to_nat i)) by lia. rewrite (take_S_r _ _ b) by (apply list_lookup_insert_eq; lia).
    by rewrite take_insert_ge by lia. }
  assert (b <> bev p /\ b ∉ take (Z.to_nat i) (learner_bevs p)) as [Hbp Hbl].
  { split; [intros E; congruence|]. intros Hin. apply Hl in Hin. congruence. }
  apply IH in Hrun; [rewrite <- Hlb; exact Hrun|lia|cbn; lia|..]; cbn [bev learner_bevs conns set_learners set_conns]; rewrite ?Htake.
  - apply NoDup_cons in Hnd as [Hn1 Hn2]. apply NoDup_cons. split; [set_solver|]. apply NoDup_app. split_and!; [done|set_solver|apply NoDup_singleton].
  - by rewrite lookup_insert_ne.
  - intros x [Hx|Hx]%elem_of_app; [|apply list_elem_of_singleton in Hx as ->; by rewrite lookup_insert_eq].
    rewrite lookup_insert_ne; [by apply Hl|]. by intros ->.
Qed.

Lemma start_loops inet_addr id conf config p :
  start inet_addr id conf config = Some p -> 0 <= AppConfig.number_of_learners config ->
  looping p id (AppConfig.number_of_learners config) [] (fun _ => []).
Proof.
  intros (addr & _ & Hrun)%bind_Some Hn. unfold connect_to_proposer, connect in Hrun. set (b := malloc (conns (proxy_new id))) in *.
  destruct (Z.eqb_spec b 0) as [|Hb]; [done|]. cbn [negb assert_ mbind option_bind] in Hrun. unfold connect_to_learner in Hrun.
  apply connect_learners_spec in Hrun as (H1 & H2 & H3 & H4 & H5 & H6 & H7); [|lia|..].
  - split; try done; [rewrite H4; cbn; rewrite repeat_length; lia|]. intros i x [_ Hx]%arr_get_Some.
    exists []. apply H7. by eapply list_elem_of_lookup_2.
  - cbn. rewrite repeat_length. lia.
  - change (Z.to_nat 0) with O. apply NoDup_singleton.
  - cbn. by rewrite lookup_insert_eq.
  - intros x. change (Z.to_nat 0) with O. by intros ?%not_elem_of_nil.
Qed.

(** C28. The proxy as it is built makes its own requests, in a loop through the
    proposer and the learners: after the start, whatever events happen on its
    connections to the learners, no callback fails; it sends
    exactly one request to the proposer for each connection that is established, and one for each
    read, however many answers the read takes; the identifier of
    the proxy goes to a learner once per connection.  All requests have the number
    0, and contain 31 bytes of the stack; the table of requests stays empty.  A
    learner that knows the proxy sends back each of these values when it is delivered.  An event comes
    with the 32 bytes the stack holds; the start succeeds (the configuration
    has a proposer, and [malloc] does not fail). *)
Theorem proxy_makes_requests inet_addr id conf config p l :
  start inet_addr id conf config = Some p -> 0 <= AppConfig.number_of_learners config ->
  Forall (fun x => 0 <= event_learner x.1 < AppConfig.number_of_learners config /\ Z.of_nat (length x.2) = TMP_VALUE_SIZE) l ->
  exists p', run_events p l = Some p' /\ current_request_id p' = 0 /\ request_table p' = request_table (proxy_new id) /\
    output <$> conns p' !! bev p' = Some (List.concat ((fun v => wire (request_message v)) <$> (l ≫= event_requests id))) /\
    (forall i b, arr_get (learner_bevs p') i = Some b -> output <$> conns p' !! b = Some (l ≫= event_greetings id i)) /\
    forall v ctx iid lb lc, v ∈ l ≫= event_requests id -> is_i32 id -> finished ctx = false ->
      arr_get (bevs ctx) id = Some lb -> server_conns ctx !! lb = Some lc ->
      exists ctx', deliver ctx iid (Some v) sizeof_client_value = Some ctx' /\ output <$> server_conns ctx' !! lb = Some (output lc ++ v).
Proof.
  intros Hstart Hn Hl. apply start_loops in Hstart as Hp; [|done].
  cut (forall out outs p, looping p id (AppConfig.number_of_learners config) out outs -> exists p', run_events p l = Some p' /\
    looping p' id (AppConfig.number_of_learners config) (out ++ List.concat ((fun v => wire (request_message v)) <$> (l ≫= event_requests id)))
      (fun i => outs i ++ (l ≫= event_greetings id i))).
  { intros Hruns. destruct (Hruns _ _ _ Hp) as (p' & Hrun & [Hid Hr Ht Hnd _ Hprop Hlearn]). exists p'.
    split; [done|]. split; [done|]. split; [done|]. split; [by rewrite Hprop|]. split.
    - intros i b Hi. destruct (Hlearn i b Hi) as [d ->]. done.
    - intros v ctx iid lb lc (x & Hv & Hx)%list_elem_of_bind Hi Hf Hlb Hlc. rewrite Forall_forall in Hl. destruct (Hl x Hx) as [_ Hsx].
      assert (v = own_request id x.2) as ->.
      { unfold event_requests in Hv. destruct x.1; [destruct (flag _ _)|]; set_solver. }
      unfold own_request. set (content := take 31 x.2 ++ [x00]).
      destruct (deliver_spec ctx iid id 0 TMP_VALUE_SIZE content lb lc Hf Hi Hlb Hlc) as (ctx' & Hdel & _ & Hs).
      assert (Z.of_nat (length (client_value id 0 TMP_VALUE_SIZE content)) = sizeof_client_value) as <-.
      { rewrite length_client_value. unfold content. rewrite length_app, length_take. unfold TMP_VALUE_SIZE, sizeof_client_value in *. cbn [length]. lia. }
      exists ctx'. split; [exact Hdel|]. by rewrite Hs, lookup_insert_eq. }
  clear p Hstart Hp. induction Hl as [|[ev stack] l [Hi Hs] _ IH]; intros out outs p Hp.
  { exists p. split; [done|]. cbn. rewrite app_nil_r. revert Hp. apply looping_ext. intros i. by rewrite app_nil_r. }
  cbn [fst snd] in *. cbn [run_events].
  destruct (run_event_loops stack p ev id _ out outs Hs Hi Hp) as (p1 & -> & Hp1). cbn [mbind option_bind].
  destruct (IH _ _ p1 Hp1) as (p' & Hrun & Hp'). exists p'. split; [exact Hrun|].
  cbn [mbind list_bind]. rewrite fmap_app, concat_app, app_assoc. revert Hp'. apply looping_ext. intros i. by rewrite app_assoc.
Qed.
End loop.

(** *** An instance *)

Definition sample_malloc : Malloc := fun A m => fresh ({[0]} ∪ dom m : gset Z).

Lemma sample_malloc_laws : MallocLaws (ML := sample_malloc).
Proof.
  intros A m. right. unfold malloc, sample_malloc. apply not_elem_of_dom. intros H.
  apply (is_fresh ({[0]} ∪ dom m : gset Z)). by apply elem_of_union_r.
Qed.

Lemma sample_malloc_not_null {A} (m : gmap Z A) : malloc (Malloc := sample_malloc) m <> 0.
Proof. intros E. apply (is_fresh ({[0]} ∪ dom m : gset Z)). unfold malloc, sample_malloc in E. rewrite E. set_solver. Qed.

Definition hello : list byte := [x68; x65; x6c; x6c; x6f].

(** A proxy with the id 3, a client at 10 and the proposer at 20; a learner that
    knows this proxy. *)
Definition sample_proxy : proxy_server :=
  set_conns (set_bev (proxy_new 3) 20) {[10 := Conn hello [] handle_request_cb; 20 := Conn [] [] no_cb]}.
Definition sample_learner : application_ctx :=
  ApplicationCtx false 0 0 [0; 0; 0; 50; 0; 0; 0; 0; 0; 0] {[50 := Conn [] [] handle_request_cb]}.

Lemma pending_empty id : pending_ok (request_table (proxy_new id)) 0 ∅.
Proof.
  split; [lia|]. exists [], []. split_and!; [apply table_rep_empty|constructor|constructor| |constructor].
  intros i. split; [by intros [? ?]|by intros ?%not_elem_of_nil].
Qed.

(** The client at 10 reads what it sent. *)
Lemma echo_round_trip_witness :
  let MA := sample_malloc in
  exists p1 v, Proxy.handle_request (MP := TypesPack.MsgpackFormat.format) (replicate 32 xff) sample_proxy 10 = Some p1 /\
    exists ctx1, deliver sample_learner 1 (Some v) 44 = Some ctx1 /\ output <$> server_conns ctx1 !! 50 = Some v /\
    exists p3, on_read (replicate 144 xff) (set_conns p1 (<[30 := Conn v [] on_read_cb]> (conns p1))) 30 = Some p3 /\
      output <$> conns p3 !! 10 = Some hello.
Proof.
  intros MA. pose proof sample_malloc_laws as ML.
  destruct (echo_round_trip (MP := TypesPack.MsgpackFormat.format) (MAL := ML) (replicate 32 xff) sample_proxy ∅ 10
    (Conn hello [] handle_request_cb) (Conn [] [] no_cb) sample_learner 1 50 (Conn [] [] handle_request_cb))
    as (p1 & v & ctx1 & H1 & Hout & Hc & Hok & Hdel & Hw & Hback).
  - apply pending_empty.
  - vm_compute. reflexivity.
  - intros []. reflexivity.
  - apply sample_malloc_not_null.
  - reflexivity.
  - reflexivity.
  - reflexivity.
  - discriminate.
  - reflexivity.
  - vm_compute. by split.
  - reflexivity.
  - reflexivity.
  - exists p1, v. split; [exact H1|]. exists ctx1. split; [exact Hdel|]. split; [exact Hw|].
    destruct (Hback (set_conns p1 (<[30 := Conn v [] on_read_cb]> (conns p1))) (<[0 := 10]> ∅) 30 [] on_read_cb
      (Conn [] [] handle_request_cb) (replicate 144 xff)) as (p3 & H3 & Hw3 & _).
    + exact Hok.
    + apply lookup_insert_eq.
    + apply lookup_insert_eq.
    + discriminate.
    + cbn [conns set_conns]. rewrite lookup_insert_ne by discriminate. exact Hc.
    + exists p3. split; [exact H3|exact Hw3].
Defined.

(** One learner: its connection, then two answers in one read.  The proxy has sent
    two requests, with what was on the stack. *)
Definition sample_conf : evpaxos_config := EvpaxosConfig 1 0 [address_init [x31] 5550] [].
Definition sample_learners : application_config := ApplicationConfig 1 [address_init [x31] 8800].
Definition sample_events : list (learner_event * list byte) :=
  let v := own_request 3 (replicate 32 x61) in
  [(LearnerEvent 0 BEV_EVENT_CONNECTED, replicate 32 x61); (Arrived 0 (v ++ v), replicate 32 x62)].

Lemma proxy_makes_requests_witness :
  let MA := sample_malloc in let MP := TypesPack.MsgpackFormat.format in
  exists p p', start (fun _ => 1) 3 sample_conf sample_learners = Some p /\ run_events p sample_events = Some p' /\
    output <$> conns p' !! bev p' = Some (wire (request_message (own_request 3 (replicate 32 x61))) ++
      wire (request_message (own_request 3 (replicate 32 x62)))) /\
    exists ctx', deliver sample_learner 1 (Some (own_request 3 (replicate 32 x62))) 44 = Some ctx' /\
      output <$> server_conns ctx' !! 50 = Some (own_request 3 (replicate 32 x62)).
Proof.
  intros MA MP. pose proof sample_malloc_laws as ML.
  destruct (start (fun _ => 1) 3 sample_conf sample_learners) as [p|] eqn:Hs; [|exfalso; revert Hs; vm_compute; discriminate].
  destruct (proxy_makes_requests (MP := MP) (MAL := ML) (fun _ => 1) 3 sample_conf sample_learners p sample_events)
    as (p' & Hrun & _ & _ & Ho & _ & Hdel).
  - exact Hs.
  - discriminate.
  - repeat (apply Forall_cons; split; [split; [split; [discriminate|reflexivity]|reflexivity]|]). constructor.
  - exists p, p'. split; [reflexivity|]. split; [exact Hrun|]. split; [rewrite Ho; cbn; by rewrite app_nil_r|].
    destruct (Hdel (own_request 3 (replicate 32 x62)) sample_learner 1 50 (Conn [] [] handle_request_cb)) as (ctx' & Hd & Hw).
    + apply list_elem_of_bind. exists (Arrived 0 (own_request 3 (replicate 32 x61) ++ own_request 3 (replicate 32 x61)), replicate 32 x62).
      split; [by apply list_elem_of_here|]. apply list_elem_of_further, list_elem_of_here.
    + vm_compute. by split.
    + reflexivity.
    + reflexivity.
    + reflexivity.
    + exists ctx'. split; [exact Hd|exact Hw].
Defined.
