(* ===== verification/Caans.v ===== *)
(** * The applications over UDP ([caans])

    A client sends commands of 56 bytes to a proxy; the proxy puts a header with
    the client's address in front and submits the request; the learner applies a
    delivered command to its database and sends the command back to the address in
    the header.  The UDP processes are those of [NetSequencer.v] and [NetLearner.v]:
    [deliver] is a callback of theirs.

    The database (LevelDB or RocksDB) is the class [KvDb], with [KvDbLaws].
    [None] is an access outside of a buffer or the exit of the process. *)

From S2P Require Import Prelude Bytes PaxosTypes EvConfig MessagePack KhashInterface Storage Acceptor Proposer Learner NetPaxos NetSequencer.
#[local] Open Scope Z_scope.

(** ** Addresses in memory *)

Definition AF_INET : Z := 2.

(** A [struct sockaddr_in]: the family, the port in network order, the address and
    eight bytes of padding. *)
Definition sockaddr_bytes (a : sockaddr_in) : list byte :=
  le_split 2 AF_INET ++ be_split 2 (sin_port a) ++ le_split 4 (sin_addr a) ++ replicate 8 x00.

(** What [sendto] makes of such bytes; [None] is another family, which it refuses. *)
Definition sockaddr_of (bs : list byte) : option sockaddr_in :=
  if le_combine (take 2 bs) =? AF_INET
  then Some {| sin_port := be_combine (take 2 (drop 2 bs)); sin_addr := le_combine (take 4 (drop 4 bs)) |}
  else None.

Definition sockaddr_ok (a : sockaddr_in) : Prop := is_u16 (sin_port a) /\ is_u32 (sin_addr a).

(** ** Requests ([message.c]) *)

(** The offset of the content behind the length and the address. *)
Definition request_header : Z := 2 + sizeof_sockaddr_in.

Definition message_length (request : list byte) : option Z :=
  bs ← read_at request 0 2;
  Some (le_combine bs).

Definition content_length (request : list byte) : option Z :=
  n ← message_length request;
  Some (u16 (n - request_header)).

(** [fresh] is the memory [malloc] returned; the address is left as it is. *)
Definition create_client_request (fresh : list byte) (data : list byte) (data_size : Z) : option (list byte) :=
  let message_size := u16 (request_header + 1 + data_size - 1) in
  let request := take (Z.to_nat message_size) fresh in
  request ← write_at request 0 (le_split 2 message_size);
  bs ← read_at data 0 data_size;
  write_at request request_header bs.

(** ** Commands *)

(** [struct command]: a timestamp of 16 bytes, the id, two bytes of padding, the
    operation and 32 bytes of content. *)
Inductive Operation := GET | SET.
Definition operation_code (o : Operation) : Z := match o with GET => 0 | SET => 1 end.

Definition sizeof_command : Z := 56.
Definition op_offset : Z := 20.
Definition content_offset : Z := 24.

Record timespec := Timespec { ts_sec : Z; ts_nsec : Z }.

(** ** The client ([client.c], [c_bench.c]) *)

Definition NS_PER_S : Z := 1000000000.

(** The difference, and the result of the function. *)
Definition timespec_diff (end_ start : timespec) : timespec * Z :=
  (if ts_nsec end_ <? ts_nsec start
   then Timespec (ts_sec end_ - ts_sec start - 1) (NS_PER_S + ts_nsec end_ - ts_nsec start)
   else Timespec (ts_sec end_ - ts_sec start) (ts_nsec end_ - ts_nsec start),
   if ts_sec end_ <? ts_sec start then 1 else 0).

(** [latency] is a [double]: [F], to which a number of nanoseconds is added. *)
Record client_context (F : Type) := ClientContext {
  server_addr : sockaddr_in;
  op : Operation;
  command_id : Z;
  latency : F;
  nb_messages : Z;
  sent : list dgram;
}.
Arguments ClientContext {F}. Arguments server_addr {F}. Arguments op {F}. Arguments command_id {F}.
Arguments latency {F}. Arguments nb_messages {F}. Arguments sent {F}.

Definition timespec_bytes (t : timespec) : list byte := le_split 8 (ts_sec t) ++ le_split 8 (ts_nsec t).

(** The fields of the command over the uninitialised variable. *)
Definition command_bytes (junk : list byte) (ts : timespec) (id : Z) (o : Operation) : option (list byte) :=
  write_fields junk [(16, le_split 2 id); (op_offset, le_split 4 (operation_code o)); (0, timespec_bytes ts);
                     (content_offset, replicate 15 x6b); (content_offset + 15, [x00]);
                     (content_offset + 16, replicate 15 x76); (content_offset + 31, [x00])].

Section client.
Context {F : Type} (zero : F) (add : F -> Z -> F) {OS : Os}.
Implicit Types (ctx : client_context F).

(** [now] is the time [clock_gettime] gives. *)
Definition send_to_addr ctx (junk : list byte) (now : timespec) : option (client_context F) :=
  cmd ← command_bytes junk now (command_id ctx) (op ctx);
  let d := {| dst := server_addr ctx; payload := cmd |} in
  Some (ClientContext (server_addr ctx) (op ctx) (u16 (command_id ctx + 1)) (latency ctx) (nb_messages ctx)
          (if send_ok (sent ctx) d then sent ctx ++ [d] else sent ctx)).

(** The statistics of an interval, and that they start again. *)
Definition on_perf ctx : client_context F :=
  ClientContext (server_addr ctx) (op ctx) (command_id ctx) zero 0 (sent ctx).

(** [received] is the datagram when the event is [EV_READ] (the other event is the
    timeout), [junk] the two uninitialised commands; a failed [recvfrom] leaves the
    response as it is. *)
Definition on_read ctx (received : option (option (list byte))) (junk junk' : list byte) (end_ now : timespec) :
    option (client_context F) :=
  ctx ← match received with
        | None => Some ctx
        | Some r =>
            let d := take (Z.to_nat sizeof_command) (default [] r) in
            let response := d ++ drop (length d) junk in
            s ← read_at response 0 8; n ← read_at response 8 8;
            let signed z := (z + 2 ^ 63) mod 2 ^ 64 - 2 ^ 63 in
            let '(result, negative) := timespec_diff end_ (Timespec (signed (le_combine s)) (signed (le_combine n))) in
            Some (if negative <? 1
                  then ClientContext (server_addr ctx) (op ctx) (command_id ctx)
                         (add (latency ctx) (ts_sec result * NS_PER_S + ts_nsec result)) (i32 (nb_messages ctx + 1)) (sent ctx)
                  else ctx)
        end;
  send_to_addr ctx junk' now.
End client.

(** *** The packet generator ([pktgen4learner.c])

    It sends what an acceptor would send, to a learner; the macro [GET_LATENCY]
    is not defined, so the timestamp and the content are what [junk] has. *)
Definition bench_command (junk : list byte) (id : Z) (o : Operation) : option (list byte) :=
  write_fields junk [(16, le_split 2 id); (op_offset, le_split 4 (operation_code o))].

Definition bench_datagram (junk fresh buffer : list byte) (id : Z) (o : Operation) (inst : Z) (client_addr : sockaddr_in) :
    option (list byte) :=
  cmd ← bench_command junk id o;
  req ← create_client_request fresh cmd sizeof_command;
  req ← write_at req 2 (sockaddr_bytes client_addr);
  n ← message_length req;
  let msg := PAXOS_ACCEPTED {| iid := inst; ballot := 0; value_ballot := 0; aid := 0;
                               value := {| paxos_value_len := n; paxos_value_val := Some req |} |} in
  '(buffer, _) ← pack_paxos_message buffer msg;
  read_at buffer 0 (sizeof_paxos_message + sizeof_command).

(** ** The proxy ([application_proxy.c]) *)

Definition VLEN : Z := 1024.
Definition REQ_SIZE : Z := 56.

(** The static variables: [bufs] and [remotes]. *)
Record proxy_statics := ProxyStatics { bufs : list (list byte); remotes : list sockaddr_in }.

(** They are zero; the vectors give each datagram [REQ_SIZE] bytes of room. *)
Definition start_proxy : proxy_statics :=
  ProxyStatics (replicate (Z.to_nat VLEN) (replicate (Z.to_nat (REQ_SIZE + 1)) x00))
    (replicate (Z.to_nat VLEN) zero_sin).

(** [recvmmsg]: the datagrams with their senders, cut to the room. *)
Definition recvmmsg (st : proxy_statics) (ds : list (list byte * sockaddr_in)) : proxy_statics * Z :=
  let ds := take (Z.to_nat VLEN) ds in
  let cut := take (Z.to_nat REQ_SIZE) <$> ds.*1 in
  let filled := zip_with (fun d buf => d ++ drop (length d) buf) cut (bufs st) in
  (ProxyStatics (filled ++ drop (length filled) (bufs st)) (ds.*2 ++ drop (length ds) (remotes st)), Z.of_nat (length ds)).

Section proxy.
Context {T : Type -> Type} {H : Type} {OS : Os}.
Implicit Types (paxos : paxos_ctx T H).

(** The request of buffer [i]: [recv_bytes] is the room [iov_len], not the length
    of the datagram. *)
Definition build_request (st : proxy_statics) (fresh : list byte) (i : Z) : option (list byte) :=
  let recv_bytes := REQ_SIZE in
  buf ← arr_get (bufs st) i;
  req ← create_client_request fresh buf recv_bytes;
  remote ← arr_get (remotes st) i;
  write_at req 2 (sockaddr_bytes remote).

(** The loop; [fresh] and [junk] are the memory of [malloc] and the buffer of
    [submit]. *)
Fixpoint submit_requests (n : nat) (i : Z) (st : proxy_statics) (fresh junk : Z -> list byte) paxos (current_request_id : Z) :
    option (paxos_ctx T H * Z) :=
  match n with
  | O => Some (paxos, current_request_id)
  | S n =>
      req ← build_request st (fresh i) i;
      len ← message_length req;
      paxos ← submit paxos (junk i) (Some req) len;
      submit_requests n (i + 1) st fresh junk paxos (i32 (current_request_id + 1))
  end.

(** [None] for [received] is the exit after an error. *)
Definition handle_request (st : proxy_statics) (fresh junk : Z -> list byte) paxos (current_request_id : Z)
    (received : option (list (list byte * sockaddr_in))) : option (proxy_statics * paxos_ctx T H * Z) :=
  ds ← received;
  let '(st, retval) := recvmmsg st ds in
  '(paxos, id) ← submit_requests (Z.to_nat retval) 0 st fresh junk paxos current_request_id;
  Some (st, paxos, id).
End proxy.

(** ** The database ([leveldb_context.c], [rocksdb_context.c]) *)

Class KvDb (D : Type) := {
  db_open : bool -> cstring -> option D;
  (** whether there was an error *)
  db_put : Z -> D -> list byte -> list byte -> bool * D;
  db_get : D -> list byte -> bool * option (list byte);
  db_delete : D -> list byte -> bool * D;
}.

Section wrappers.
Context `{KV : KvDb D}.

(** LevelDB: errors are returned; the argument [sync] is passed on. *)
Definition leveldb_open_db (path : cstring) : option D := db_open true path.
Definition leveldb_add_entry (db : D) (sync : Z) (key val : list byte) : option (Z * D) :=
  let '(err, db) := db_put sync db key val in Some (if err : bool then 1 else 0, db).
Definition leveldb_get_value (db : D) (key : list byte) : Z * option (list byte) :=
  let '(err, v) := db_get db key in (if err : bool then 1 else 0, v).
Definition leveldb_delete_entry (db : D) (key : list byte) : Z * D :=
  let '(err, db) := db_delete db key in (if err : bool then 1 else 0, db).

(** RocksDB: a failed write ends the process; the option is set once, to 0. *)
Definition rocksdb_add_entry (db : D) (sync : Z) (key val : list byte) : option (Z * D) :=
  let '(err, db) := db_put 0 db key val in if err : bool then None else Some (0, db).
End wrappers.

(** ** The learner ([learner.c], [rock_learner.c]) *)

Section deliver.
Context {T : Type -> Type} {H D : Type} {OS : Os}.
Context (add_entry : D -> Z -> list byte -> list byte -> option (Z * D)) (get_value : D -> list byte -> Z * option (list byte)).

Record application_ctx := ApplicationCtx {
  node_id : Z;
  at_second : Z;
  message_per_second : Z;
  enable_db : bool;
  db : D;
  paxos : paxos_ctx T H;
}.
Implicit Types (app : application_ctx).

Definition set_db app (d : D) : application_ctx :=
  ApplicationCtx (node_id app) (at_second app) (message_per_second app) (enable_db app) d (paxos app).

Definition on_perf_learner app : application_ctx :=
  ApplicationCtx (node_id app) (i32 (at_second app + 1)) 0 (enable_db app) (db app) (paxos app).

(** The command on the database; what [GET] finds is logged and freed. *)
Definition execute app (val : list byte) : option application_ctx :=
  let cmd := request_header in
  o ← read_at val (cmd + op_offset) 4;
  let o := le_combine o in
  if o =? operation_code SET then
    key ← read_at val (cmd + content_offset) 16;
    value ← read_at val (cmd + content_offset + 16) 16;
    '(_, d) ← add_entry (db app) 0 key value;
    Some (set_db app d)
  else if o =? operation_code GET then
    key ← read_at val (cmd + content_offset) 16;
    let '(_, _) := get_value (db app) key in Some app
  else Some app.

(** The first learner answers. *)
Definition answer app (val : list byte) : option application_ctx :=
  if node_id app =? 0 then
    n ← content_length val;
    bs ← read_at val request_header n;
    a ← read_at val 2 sizeof_sockaddr_in;
    paxos ← match sockaddr_of a with
            | Some a => '(paxos, _) ← sendto (paxos app) bs n a; Some paxos
            | None => Some (paxos app)
            end;
    Some (ApplicationCtx (node_id app) (at_second app) (message_per_second app) (enable_db app) (db app) paxos)
  else Some app.

Definition deliver app (inst : Z) (val : option (list byte)) (size : Z) : option application_ctx :=
  let app := ApplicationCtx (node_id app) (at_second app) (i32 (message_per_second app + 1)) (enable_db app) (db app) (paxos app) in
  if size =? 0 then Some app else
  val ← val;
  app ← (if enable_db app then execute app val else Some app);
  answer app val.
End deliver.
