(* ===== verification/CaansInv.v ===== *)
(** * Theorems about the applications over UDP *)

From S2P Require Import Prelude Bytes PaxosTypes EvConfig MessagePack KhashInterface Storage Acceptor Proposer Learner NetPaxos NetSequencer Caans.
#[local] Open Scope Z_scope.

(** ** Time *)

Definition nanoseconds (t : timespec) : Z := ts_sec t * NS_PER_S + ts_nsec t.
Definition normal (t : timespec) : Prop := 0 <= ts_nsec t < NS_PER_S.

(** The difference is exact and normalised. *)
Lemma timespec_diff_exact e s :
  normal e -> normal s ->
  let '(r, neg) := timespec_diff e s in
  nanoseconds r = nanoseconds e - nanoseconds s /\ normal r /\ (neg = 1 <-> ts_sec e < ts_sec s).
Proof.
  unfold normal, nanoseconds, timespec_diff, NS_PER_S. intros He Hs.
  destruct (Z.ltb_spec (ts_nsec e) (ts_nsec s)), (Z.ltb_spec (ts_sec e) (ts_sec s)); cbn [ts_sec ts_nsec]; lia.
Qed.

(** The result is not 1 for a negative difference of less than a second. *)
Lemma timespec_diff_negative : timespec_diff (Timespec 5 0) (Timespec 5 1) = (Timespec (-1) 999999999, 0).
Proof. reflexivity. Qed.

(** ** Requests *)

Lemma length_sockaddr_bytes a : length (sockaddr_bytes a) = 16%nat.
Proof. unfold sockaddr_bytes. by rewrite !length_app, !length_le_split, length_be_split, length_replicate. Qed.

Lemma sockaddr_roundtrip a : sockaddr_ok a -> sockaddr_of (sockaddr_bytes a) = Some a.
Proof.
  intros [Hp Ha]. unfold sockaddr_of, sockaddr_bytes.
  rewrite (take_app_length' (le_split 2 AF_INET)), (drop_app_length' (le_split 2 AF_INET)) by (by rewrite length_le_split).
  rewrite (take_app_length' (be_split 2 _)) by (by rewrite length_be_split).
  rewrite (app_assoc (le_split 2 AF_INET)), (drop_app_length' (le_split 2 AF_INET ++ be_split 2 _)) by (by rewrite length_app, length_le_split, length_be_split).
  rewrite (take_app_length' (le_split 4 _)) by (by rewrite length_le_split). rewrite !le_combine_split, be_combine_split.
  change (256 ^ Z.of_nat 2) with (2 ^ 16). change (256 ^ Z.of_nat 4) with (2 ^ 32). rewrite !Z.mod_small by (unfold AF_INET; lia).
  by destruct a.
Qed.

(** The request of a client at [a]. *)
Definition request_of (a : sockaddr_in) (content : list byte) : list byte :=
  le_split 2 (18 + Z.of_nat (length content)) ++ sockaddr_bytes a ++ content.

Lemma length_request_of a content : length (request_of a content) = (18 + length content)%nat.
Proof. unfold request_of. by rewrite !length_app, length_le_split, length_sockaddr_bytes. Qed.

Lemma write_at_front p bs rest : p = bs ++ rest -> forall bs', length bs' = length bs -> write_at p 0 bs' = Some (bs' ++ rest).
Proof.
  intros -> bs' Hl. unfold write_at. rewrite length_app, (proj2 (Z.leb_le _ (Z.of_nat (length bs + length rest)))) by lia. cbn [Z.leb andb].
  change (Z.to_nat 0) with O. cbn [take app Nat.add]. by rewrite Hl, drop_app_length.
Qed.

Lemma write_at_middle l m r bs off : Z.of_nat (length l) = off -> length bs = length m -> write_at (l ++ m ++ r) off bs = Some (l ++ bs ++ r).
Proof.
  intros <- Hl. unfold write_at. rewrite !length_app.
  rewrite (proj2 (Z.leb_le 0 _)), (proj2 (Z.leb_le _ (Z.of_nat (length l + (length m + length r))))) by lia. cbn [andb].
  rewrite Nat2Z.id, take_app_length, Hl. by rewrite <- drop_drop, drop_app_length, drop_app_length.
Qed.

Lemma read_at_middle l m r off n : Z.of_nat (length l) = off -> Z.of_nat (length m) = n -> read_at (l ++ m ++ r) off n = Some m.
Proof.
  intros <- <-. apply read_at_Some. rewrite !length_app, !Nat2Z.id. split; [lia|]. split; [lia|]. split; [lia|].
  by rewrite drop_app_length, take_app_length.
Qed.

(** The header is written over the first bytes of fresh memory; the two writes of
    the length and the content, and the copy of the address. *)
Lemma create_request_spec fresh data n a :
  0 <= n -> n + 18 < 2 ^ 16 -> n <= Z.of_nat (length data) -> n + 18 <= Z.of_nat (length fresh) ->
  exists req, create_client_request fresh data n = Some req /\
    write_at req 2 (sockaddr_bytes a) = Some (request_of a (take (Z.to_nat n) data)).
Proof.
  intros Hn Hmax Hdata Hfresh. unfold create_client_request. change request_header with 18.
  replace (18 + 1 + n - 1) with (18 + n) by lia. unfold u16. rewrite Z.mod_small by lia.
  assert (exists f1 f2 f3, take (Z.to_nat (18 + n)) fresh = f1 ++ f2 ++ f3 /\ length f1 = 2%nat /\ length f2 = 16%nat /\ length f3 = Z.to_nat n)
    as (f1 & f2 & f3 & Ef & H1 & H2 & H3).
  { exists (take 2 fresh), (take 16 (drop 2 fresh)), (take (Z.to_nat n) (drop 18 fresh)). rewrite !length_take, !length_drop.
    split_and!; [|lia..]. replace (Z.to_nat (18 + n)) with (2 + (16 + Z.to_nat n))%nat by lia.
    by rewrite <- (take_take_drop fresh 2), <- (take_take_drop (drop 2 fresh) 16), drop_drop. }
  rewrite Ef. rewrite (write_at_front _ f1 (f2 ++ f3)) by (done || by rewrite length_le_split). cbn [mbind option_bind].
  destruct (read_at data 0 n) as [bs|] eqn:Er; [|destruct (read_at_in data 0 n) as (? & ? & _); [lia..|congruence]].
  pose proof (read_at_length _ _ _ _ Er) as Hbs. apply read_at_Some in Er as (_ & _ & _ & Er). cbn [mbind option_bind].
  rewrite <- (app_nil_r f3), (app_assoc _ f2), (write_at_middle _ f3 [] bs 18) by (rewrite ?length_app, ?length_le_split; lia).
  eexists. split; [done|]. rewrite <- app_assoc, (write_at_middle _ f2) by (rewrite ?length_le_split, ?length_sockaddr_bytes; lia).
  rewrite app_nil_r. unfold request_of. change (Z.to_nat 0) with O in Er. rewrite drop_0 in Er. rewrite <- Er. do 3 f_equal. lia.
Qed.

Lemma message_length_request a content : Z.of_nat (length content) + 18 < 2 ^ 16 ->
  message_length (request_of a content) = Some (18 + Z.of_nat (length content)).
Proof.
  intros Hl. unfold message_length, request_of. rewrite read_at_here by (by rewrite length_le_split).
  cbn [mbind option_bind]. rewrite le_combine_split. change (256 ^ Z.of_nat 2) with (2 ^ 16). by rewrite Z.mod_small by lia.
Qed.

Lemma request_fields a content :
  read_at (request_of a content) 2 sizeof_sockaddr_in = Some (sockaddr_bytes a) /\
  forall off n, 0 <= off -> read_at (request_of a content) (request_header + off) n = read_at content off n.
Proof.
  unfold request_of. split; [by rewrite (read_at_middle _ (sockaddr_bytes a)) by (by rewrite ?length_le_split, ?length_sockaddr_bytes)|].
  intros off n Hoff. rewrite app_assoc. apply read_at_past; [|done]. by rewrite length_app, length_le_split, length_sockaddr_bytes.
Qed.

(** ** The proxy *)

Definition statics_ok (st : proxy_statics) : Prop :=
  length (bufs st) = Z.to_nat VLEN /\ Forall (fun b => length b = Z.to_nat (REQ_SIZE + 1)) (bufs st) /\
  length (remotes st) = Z.to_nat VLEN.

Lemma start_proxy_ok : statics_ok start_proxy.
Proof. split; [apply length_replicate|]. split; [apply Forall_replicate, length_replicate|apply length_replicate]. Qed.

(** The buffer and the sender of the [i]-th datagram of a batch. *)
Lemma recvmmsg_spec st ds st' n :
  statics_ok st -> (length ds <= Z.to_nat VLEN)%nat -> recvmmsg st ds = (st', n) ->
  n = Z.of_nat (length ds) /\ statics_ok st' /\
  forall i d a, ds !! i = Some (d, a) -> remotes st' !! i = Some a /\
    exists buf, bufs st !! i = Some buf /\ length buf = Z.to_nat (REQ_SIZE + 1) /\
      bufs st' !! i = Some (take (Z.to_nat REQ_SIZE) d ++ drop (length (take (Z.to_nat REQ_SIZE) d)) buf).
Proof.
  intros (Hl & Hb & Hr) Hds. unfold recvmmsg. rewrite (firstn_all2 ds) by lia. intros [= <- <-]. split; [done|].
  set (cut := take (Z.to_nat REQ_SIZE) <$> ds.*1). assert (length cut = length ds) as Hcut by (unfold cut; by rewrite !length_fmap).
  set (filled := zip_with _ cut (bufs st)). assert (length filled = length ds) as Hfil by (unfold filled; rewrite length_zip_with; lia).
  split; [split_and!|]; cbn [bufs remotes].
  - rewrite length_app, length_drop. lia.
  - apply Forall_app. split; [|by apply Forall_drop]. apply Forall_lookup. intros i b Hi. unfold filled in Hi.
    apply lookup_zip_with_Some in Hi as (d & buf & -> & Hd & Hbuf). rewrite Forall_lookup in Hb. specialize (Hb _ _ Hbuf).
    unfold cut in Hd. apply list_lookup_fmap_Some in Hd as (d' & -> & _). rewrite length_app, length_drop, length_take. unfold REQ_SIZE in *. lia.
  - rewrite length_app, length_drop, length_fmap. lia.
  - intros i d a Hi. assert (i < length ds)%nat as Hlt by (by eapply lookup_lt_Some). split.
    + rewrite lookup_app_l by (by rewrite length_fmap). by rewrite list_lookup_fmap, Hi.
    + destruct (lookup_lt_is_Some_2 (bufs st) i) as [buf Hbuf]; [lia|]. exists buf. split; [done|]. rewrite Forall_lookup in Hb.
      split; [by eapply Hb|]. rewrite lookup_app_l by lia. unfold filled, cut.
      by rewrite lookup_zip_with, list_lookup_fmap, list_lookup_fmap, Hi, Hbuf.
Qed.

Lemma build_request_spec st fresh i buf a :
  arr_get (bufs st) i = Some buf -> length buf = Z.to_nat (REQ_SIZE + 1) -> arr_get (remotes st) i = Some a ->
  74 <= Z.of_nat (length fresh) -> build_request st fresh i = Some (request_of a (take (Z.to_nat REQ_SIZE) buf)).
Proof.
  unfold REQ_SIZE. intros Hb Hl Ha Hf. unfold build_request, REQ_SIZE. rewrite Hb. cbn [mbind option_bind].
  destruct (create_request_spec fresh buf 56 a) as (req & -> & Hw); [lia..|]. cbn [mbind option_bind]. rewrite Ha. exact Hw.
Qed.

Section proxy.
Context {T : Type -> Type} {H : Type} {OS : Os} (all_sent : forall out d, send_ok out d = true).
Implicit Types (paxos : paxos_ctx T H).

(** A datagram to the coordinator with this request. *)
Definition submits (to : sockaddr_in) (req : list byte) (g : dgram) : Prop :=
  dst g = to /\ exists c, accept_dgram (payload g) c /\ value_bytes (value c) = req.

Lemma submit_requests_spec st fresh junk (reqs : list (list byte)) : forall i paxos id,
  (forall k req, reqs !! k = Some req -> build_request st (fresh (i + Z.of_nat k)) (i + Z.of_nat k) = Some req /\
     Z.of_nat (length req) = 74 /\ message_length req = Some 74 /\ Z.of_nat (length (junk (i + Z.of_nat k))) = BUFSIZE) ->
  exists paxos' id' out, submit_requests (length reqs) i st fresh junk paxos id = Some (paxos', id') /\
    coordinator_sin paxos' = coordinator_sin paxos /\ outbox paxos' = outbox paxos ++ out /\
    Forall2 (submits (coordinator_sin paxos)) reqs out.
Proof.
  induction reqs as [|req reqs IH]; intros i paxos id Hreqs; cbn [length submit_requests].
  { exists paxos, id, []. rewrite app_nil_r. by split_and!. }
  destruct (Hreqs O req eq_refl) as (Hb & Hl & Hm & Hj). rewrite Nat2Z.inj_0, Z.add_0_r in Hb, Hj. rewrite Hb. cbn [mbind option_bind].
  rewrite Hm. cbn [mbind option_bind].
  destruct (submit_dgram paxos (junk i) req 74) as (d & c & Hsub & Hd & _ & _ & _ & Hv); [lia|lia|unfold sizeof_paxos_message, BUFSIZE; lia|done|].
  rewrite Hsub. cbn [mbind option_bind]. unfold flush_buffer. cbn [sendmmsg]. rewrite all_sent.
  set (paxos1 := set_out _ _ _). destruct (IH (i + 1) paxos1 (i32 (id + 1))) as (paxos' & id' & out & -> & Hc & Ho & HF).
  { intros k r Hk. specialize (Hreqs (S k) r Hk). by replace (i + 1 + Z.of_nat k) with (i + Z.of_nat (S k)) by lia. }
  eexists paxos', id', (_ :: out). split; [done|]. split; [done|]. split; [rewrite Ho; unfold paxos1; cbn [outbox set_out]; by rewrite <- app_assoc|].
  constructor; [|done]. split; [done|]. exists c. split; [done|]. rewrite Hv. apply firstn_all2. lia.
Qed.
End proxy.

(** ** The learner *)

Section learner.
Context {T : Type -> Type} {H D : Type} {OS : Os}.
Context (add_entry : D -> Z -> list byte -> list byte -> option (Z * D)) (get_value : D -> list byte -> Z * option (list byte)).
Implicit Types (app : application_ctx (T := T) (H := H) (D := D)).

Lemma execute_spec app a cmd :
  Z.of_nat (length cmd) = sizeof_command -> (forall db s k v, is_Some (add_entry db s k v)) ->
  exists d, execute add_entry get_value app (request_of a cmd) = Some (set_db app d) /\
    if le_combine (take 4 (drop 20 cmd)) =? 1
    then exists r, add_entry (db app) 0 (take 16 (drop 24 cmd)) (take 16 (drop 40 cmd)) = Some (r, d)
    else d = db app.
Proof.
  unfold sizeof_command. intros Hl Hadd. destruct (request_fields a cmd) as [_ Hf]. unfold execute, op_offset, content_offset.
  assert (forall off n, 0 <= off -> 0 <= n -> off + n <= 56 -> read_at (request_of a cmd) (request_header + off) n = Some (take (Z.to_nat n) (drop (Z.to_nat off) cmd))) as Hr.
  { intros off n ? ? ?. rewrite Hf by lia. apply read_at_Some. split_and!; lia || done. }
  rewrite (Hr 20 4) by lia. cbn [mbind option_bind]. change (Z.to_nat 4) with 4%nat. change (Z.to_nat 20) with 20%nat.
  cbn [operation_code]. destruct (Z.eqb_spec (le_combine (take 4 (drop 20 cmd))) 1) as [E|E].
  - rewrite (Hr 24 16), <- (Z.add_assoc _ 24 16) by lia. change (24 + 16) with 40. rewrite (Hr 40 16) by lia. cbn [mbind option_bind].
    destruct (Hadd (db app) 0 (take 16 (drop 24 cmd)) (take 16 (drop 40 cmd))) as [[r d] Ed].
    change (Z.to_nat 16) with 16%nat. change (Z.to_nat 24) with 24%nat. change (Z.to_nat 40) with 40%nat. rewrite Ed.
    exists d. split; [done|]. by exists r.
  - exists (db app). split; [|done]. assert (set_db app (db app) = app) as -> by (by destruct app).
    destruct (_ =? 0); [|done]. rewrite (Hr 24 16) by lia. cbn [mbind option_bind]. by destruct (get_value _ _).
Qed.

Lemma answer_spec app a cmd :
  sockaddr_ok a -> Z.of_nat (length cmd) = sizeof_command -> (forall out d, send_ok out d = true) ->
  exists app', answer app (request_of a cmd) = Some app' /\ db app' = db app /\ node_id app' = node_id app /\ enable_db app' = enable_db app /\
    outbox (paxos app') = outbox (paxos app) ++ (if node_id app =? 0 then [{| dst := a; payload := cmd |}] else []).
Proof.
  unfold sizeof_command. intros Ha Hl Hsend. unfold answer. destruct (node_id app =? 0) eqn:En; [|exists app; by rewrite app_nil_r].
  destruct (request_fields a cmd) as [Haddr Hf]. unfold content_length. rewrite message_length_request by lia. cbn [mbind option_bind].
  rewrite Hl. change (u16 (18 + 56 - request_header)) with 56. replace request_header with (request_header + 0) by reflexivity. rewrite Hf by lia.
  assert (read_at cmd 0 56 = Some cmd) as Er by (rewrite <- (app_nil_r cmd) at 1; by apply read_at_here). rewrite Er. cbn [mbind option_bind].
  rewrite Haddr. cbn [mbind option_bind]. rewrite sockaddr_roundtrip by done. unfold sendto. rewrite Er. cbn [mbind option_bind].
  rewrite Hsend. cbn [mbind option_bind]. eexists. split; [reflexivity|]. by split_and!.
Qed.

(** What the delivery of a client's request does. *)
Lemma deliver_request app inst a cmd :
  sockaddr_ok a -> Z.of_nat (length cmd) = sizeof_command -> (forall out d, send_ok out d = true) ->
  (forall db s k v, is_Some (add_entry db s k v)) ->
  exists app', deliver add_entry get_value app inst (Some (request_of a cmd)) 74 = Some app' /\
    node_id app' = node_id app /\ enable_db app' = enable_db app /\
    outbox (paxos app') = outbox (paxos app) ++ (if node_id app =? 0 then [{| dst := a; payload := cmd |}] else []) /\
    if enable_db app && (le_combine (take 4 (drop 20 cmd)) =? 1)
    then exists r, add_entry (db app) 0 (take 16 (drop 24 cmd)) (take 16 (drop 40 cmd)) = Some (r, db app')
    else db app' = db app.
Proof.
  intros Ha Hl Hsend Hadd. unfold deliver. cbn [Z.eqb mbind option_bind]. set (app1 := ApplicationCtx _ _ _ _ _ _).
  destruct (enable_db app) eqn:En; cbn [enable_db app1].
  - destruct (execute_spec app1 a cmd Hl Hadd) as (d & -> & Hd). cbn [mbind option_bind].
    destruct (answer_spec (set_db app1 d) a cmd Ha Hl Hsend) as (app' & -> & Hdb & Hid & He & Ho). exists app'. rewrite Hdb.
    split_and!; [done|done|by rewrite He; cbn|exact Ho|]. cbn [andb]. by destruct (_ =? 1).
  - cbn [mbind option_bind]. destruct (answer_spec app1 a cmd Ha Hl Hsend) as (app' & -> & Hdb & Hid & He & Ho). exists app'.
    split_and!; [done|done|by rewrite He; cbn|exact Ho|]. by rewrite Hdb.
Qed.
End learner.

(** ** Clients, proxy and learner *)

(** The part of a datagram that is in the request, with what the buffer had behind it. *)
Definition padded (d buf : list byte) : list byte := take (Z.to_nat REQ_SIZE) (take (Z.to_nat REQ_SIZE) d ++ drop (length d) buf).

Section batch.
Context {T : Type -> Type} {H : Type} {OS : Os} (all_sent : forall out d, send_ok out d = true).

(** A batch is submitted in order, each datagram in a request with its sender. *)
Lemma handle_request_batch st fresh junk (ctx : paxos_ctx T H) id ds :
  statics_ok st -> (length ds <= Z.to_nat VLEN)%nat ->
  (forall i, 74 <= Z.of_nat (length (fresh i))) -> (forall i, Z.of_nat (length (junk i)) = BUFSIZE) ->
  exists st' ctx' id' out, handle_request st fresh junk ctx id (Some ds) = Some (st', ctx', id') /\ statics_ok st' /\
    outbox ctx' = outbox ctx ++ out /\
    Forall2 (fun x g => submits (coordinator_sin ctx) (request_of x.1.2 (padded x.1.1 x.2)) g) (zip ds (bufs st)) out.
Proof.
  intros Hst Hds Hfresh Hjunk. unfold handle_request. cbn [mbind option_bind].
  destruct (recvmmsg st ds) as [st' n] eqn:Er. destruct (recvmmsg_spec st ds st' n Hst Hds Er) as (-> & Hst' & Hi). rewrite Nat2Z.id.
  set (reqs := (fun x => request_of x.1.2 (padded x.1.1 x.2)) <$> zip ds (bufs st)).
  assert (length reqs = length ds) as Hlen. { unfold reqs. rewrite length_fmap, length_zip_with. destruct Hst as (-> & _). lia. }
  destruct (submit_requests_spec all_sent st' fresh junk reqs 0 ctx id) as (ctx' & id' & out & Hs & _ & Ho & HF).
  - intros k req Hk. unfold reqs in Hk. apply list_lookup_fmap_Some in Hk as ([[d a] buf] & -> & Hk).
    apply lookup_zip_with_Some in Hk as (x & buf' & [= <- <-] & Hd & Hbuf). destruct (Hi k d a Hd) as (Ha & b & Hb & Hbl & Hb'). simplify_eq.
    assert (padded d buf = take (Z.to_nat REQ_SIZE) (take (Z.to_nat REQ_SIZE) d ++ drop (length (take (Z.to_nat REQ_SIZE) d)) buf)) as Ep.
    { unfold padded. destruct (decide (length d <= Z.to_nat REQ_SIZE)%nat) as [?|?]; [by rewrite (firstn_all2 d) by lia|].
      rewrite !(take_app_le (take _ d)) by (rewrite length_take; lia). done. }
    assert (length (padded d buf) = Z.to_nat REQ_SIZE) as Hpl.
    { rewrite Ep, length_take, length_app, length_drop, length_take. unfold REQ_SIZE in *. lia. }
    cbn [fst snd]. split_and!.
    + rewrite Ep. apply build_request_spec; [by apply arr_get_Some; rewrite Z.add_0_l, Nat2Z.id; split; [lia|]|
        |by apply arr_get_Some; rewrite Z.add_0_l, Nat2Z.id; split; [lia|]|apply Hfresh].
      rewrite length_app, length_drop, length_take. unfold REQ_SIZE in *. lia.
    + rewrite length_request_of, Hpl. done.
    + rewrite message_length_request; rewrite Hpl; done.
    + apply Hjunk.
  - exists st', ctx', id', out. rewrite <- Hlen, Hs. split_and!; [done|done|done|]. unfold reqs in HF. by rewrite Forall2_fmap_l in HF.
Qed.

(** C26. A batch of commands of clients reaches the coordinator and comes back: the
    proxy submits, in order and each in one datagram, requests with the command and
    the address it came from; and when the value of such a request is delivered to
    a learner, only the first learner answers, with exactly this command to exactly
    this address. *)
Theorem caans_round_trip {D} add_entry (get_value : D -> list byte -> Z * option (list byte)) st fresh junk (ctx : paxos_ctx T H) id ds :
  statics_ok st -> (length ds <= Z.to_nat VLEN)%nat ->
  (forall i, 74 <= Z.of_nat (length (fresh i))) -> (forall i, Z.of_nat (length (junk i)) = BUFSIZE) ->
  Forall (fun x => Z.of_nat (length x.1) = sizeof_command /\ sockaddr_ok x.2) ds ->
  (forall db s k v, is_Some (add_entry db s k v)) ->
  exists st' ctx' id' out, handle_request st fresh junk ctx id (Some ds) = Some (st', ctx', id') /\
    outbox ctx' = outbox ctx ++ out /\
    Forall2 (fun x g => exists c, dst g = coordinator_sin ctx /\ accept_dgram (payload g) c /\
      forall (app : application_ctx (T := T) (H := H) (D := D)) inst, exists app',
        deliver add_entry get_value app inst (Some (value_bytes (value c))) 74 = Some app' /\
        outbox (paxos app') = outbox (paxos app) ++ (if node_id app =? 0 then [{| dst := x.2; payload := x.1 |}] else [])) ds out.
Proof.
  intros Hst Hds Hfresh Hjunk Hall Hadd.
  destruct (handle_request_batch st fresh junk ctx id ds Hst Hds Hfresh Hjunk) as (st' & ctx' & id' & out & Hh & _ & Ho & HF).
  exists st', ctx', id', out. split; [done|]. split; [done|].
  apply Forall2_same_length_lookup in HF as [HFl HF]. destruct Hst as (Hbl & Hbb & _). rewrite length_zip_with in HFl.
  apply Forall2_same_length_lookup. split; [lia|]. intros i [d a] g Hd Hg.
  destruct (lookup_lt_is_Some_2 (bufs st) i) as [buf Hbuf]; [apply lookup_lt_Some in Hd; lia|].
  destruct (HF i ((d, a), buf) g) as (Hdst & c & Hc & Hv); [by rewrite lookup_zip_with, Hd, Hbuf|done|]. cbn [fst snd] in *.
  exists c. split_and!; [done|done|]. intros app inst. destruct (proj1 (Forall_lookup _ _) Hall _ _ Hd) as [Hl Ha]. cbn [fst snd] in *.
  rewrite Hv. assert (padded d buf = d) as ->.
  { unfold padded, REQ_SIZE, sizeof_command in *. rewrite (firstn_all2 d) by lia. apply take_app_length'. lia. }
  destruct (deliver_request add_entry get_value app inst a d Ha Hl all_sent Hadd) as (app' & ? & _ & _ & ? & _). by exists app'.
Qed.
End batch.

(** A datagram of fewer than 56 bytes is filled up with what an earlier client left
    in the buffer; the learner sends these bytes to the sender of this one. *)
Lemma short_request_padded d buf :
  length buf = Z.to_nat (REQ_SIZE + 1) -> (length d < Z.to_nat REQ_SIZE)%nat ->
  padded d buf = d ++ take (Z.to_nat REQ_SIZE - length d) (drop (length d) buf).
Proof. intros Hb Hd. unfold padded. rewrite (firstn_all2 d) by lia. by rewrite take_app_ge by lia. Qed.

(** The learner believes the length in the header: with one behind the end of the
    value it reads, and would send, memory behind the value. *)
Lemma forged_length_read {T : Type -> Type} {H D : Type} {OS : Os} (app : application_ctx (T := T) (H := H) (D := D)) val n :
  node_id app = 0 -> content_length val = Some n -> Z.of_nat (length val) < request_header + n -> answer app val = None.
Proof.
  intros Hid Hn Hl. unfold answer. rewrite Hid, Hn. cbn [Z.eqb mbind option_bind].
  destruct (read_at val request_header n) as [bs|] eqn:E; [|done]. apply read_at_Some in E as (_ & _ & ? & _). lia.
Qed.

(** The packet generator sends 82 bytes of a message of 90: the last 8 bytes of the
    command are missing, and the learner's buffer decides what is delivered. *)
Lemma bench_datagram_short :
  exists d, bench_datagram (replicate 56 x61) (replicate 74 x00) (replicate 128 x00) 7 SET 1 zero_sin = Some d /\
    length d = 82%nat /\
    exists c, unpack_paxos_message (d ++ replicate 46 x00) = Some (Some (PAXOS_ACCEPTED c)) /\ paxos_value_len (value c) = 74 /\
      drop 66 (value_bytes (value c)) = replicate 8 x00.
Proof. eexists. split; [vm_compute; reflexivity|]. split; [reflexivity|]. eexists. split; [vm_compute; reflexivity|]. by split. Qed.

(** ** The database *)

(** A failed write may have been done or not. *)
Class KvDbLaws `{KV : KvDb D} := {
  table : D -> gmap (list byte) (list byte);
  law_put sync d k v d' : db_put sync d k v = (false, d') -> table d' = <[k := v]> (table d);
  law_put_error sync d k v d' : db_put sync d k v = (true, d') -> table d' = table d \/ table d' = <[k := v]> (table d);
  law_get d k v : db_get d k = (false, v) -> v = table d !! k;
}.

(** The effect of a command on a table. *)
Definition is_set (cmd : list byte) : bool := le_combine (take 4 (drop 20 cmd)) =? operation_code SET.
Definition run_command (m : gmap (list byte) (list byte)) (cmd : list byte) : gmap (list byte) (list byte) :=
  if is_set cmd then <[take 16 (drop 24 cmd) := take 16 (drop 40 cmd)]> m else m.

(** The commands that are marked. *)
Definition marked {A : Type} (marks : list bool) (l : list A) : list A :=
  omap (fun x : bool * A => if x.1 then Some x.2 else None) (zip marks l).

Section store.
Context {T : Type -> Type} {H : Type} {OS : Os} (all_sent : forall out d, send_ok out d = true).
Context `{KL : KvDbLaws D}.

(** The delivered requests in turn. *)
Fixpoint deliver_all (app : application_ctx (T := T) (H := H) (D := D)) (inst : Z) (vals : list (list byte)) :
    option (application_ctx (T := T) (H := H) (D := D)) :=
  match vals with
  | [] => Some app
  | v :: vals => app ← deliver leveldb_add_entry leveldb_get_value app inst (Some v) 74; deliver_all app (inst + 1) vals
  end.

(** Which of the writes for the commands fail, when they are done in turn. *)
Fixpoint write_errors (d : D) (cmds : list (list byte)) : list bool :=
  match cmds with
  | [] => []
  | cmd :: cmds =>
      if is_set cmd then
        let '(err, d) := db_put 0 d (take 16 (drop 24 cmd)) (take 16 (drop 40 cmd)) in err :: write_errors d cmds
      else false :: write_errors d cmds
  end.

(** The delivery of one request. *)
Lemma deliver_command (app : application_ctx (T := T) (H := H) (D := D)) inst a cmd cmds :
  enable_db app = true -> Z.of_nat (length cmd) = sizeof_command -> sockaddr_ok a ->
  exists app' err (ok : bool), deliver leveldb_add_entry leveldb_get_value app inst (Some (request_of a cmd)) 74 = Some app' /\
    node_id app' = node_id app /\ enable_db app' = true /\
    outbox (paxos app') = outbox (paxos app) ++ (if node_id app =? 0 then [{| dst := a; payload := cmd |}] else []) /\
    write_errors (db app) (cmd :: cmds) = err :: write_errors (db app') cmds /\ (ok = true \/ err = true) /\
    table (db app') = if ok then run_command (table (db app)) cmd else table (db app).
Proof using all_sent KL.
  intros Hen Hl Ha.
  destruct (deliver_request leveldb_add_entry leveldb_get_value app inst a cmd Ha Hl all_sent) as (app1 & Happ & Hid & Hen1 & Hout & Hdb).
  { intros d s k v. unfold leveldb_add_entry. destruct (db_put s d k v). by eexists. }
  rewrite Hen in Hdb, Hen1. cbn [andb write_errors] in *. unfold run_command, is_set. cbn [operation_code].
  destruct (_ =? 1); [|exists app1, false, true; rewrite Hdb; split_and!; auto].
  destruct Hdb as (r & Hput). unfold leveldb_add_entry in Hput. destruct (db_put 0 (db app) _ _) as [err d] eqn:E. injection Hput as _ ->.
  destruct err; [destruct (law_put_error _ _ _ _ _ E) as [Ht|Ht]|pose proof (law_put _ _ _ _ _ E) as Ht].
  - exists app1, true, false. split_and!; auto.
  - exists app1, true, true. split_and!; auto.
  - exists app1, false, true. split_and!; auto.
Qed.

(** Without an error, all commands have an effect. *)
Lemma marked_all (oks errs : list bool) {A} (l : list A) :
  Forall2 (fun ok err => ok = true \/ err = true) oks errs -> length oks = length l -> Forall (fun err => err = false) errs ->
  marked oks l = l.
Proof.
  intros HF. revert l. induction HF as [|ok err oks errs Hok _ IH]; intros [|x l] Hl Hn; try done.
  apply Forall_cons in Hn as [-> Hn]. destruct Hok as [-> |]; [|done]. unfold marked in *. cbn. f_equal. apply IH; [by injection Hl|done].
Qed.

(** C27. The table of a learner's database (with LevelDB) is the one that the
    delivered commands describe: each [SET] in the order of delivery, and nothing
    else, but for commands whose write fails, which may have no effect; the
    learner goes on after a failed write, and the first one answers the client in any case.  So, as long
    as no write fails, learners that deliver the same sequence have the same table.
    The database is enabled, the commands have the size of [struct command], and
    datagrams are accepted by the socket. *)
Theorem caans_store_refines_table (app : application_ctx (T := T) (H := H) (D := D)) inst (reqs : list (list byte * sockaddr_in)) :
  enable_db app = true -> Forall (fun x => Z.of_nat (length x.1) = sizeof_command /\ sockaddr_ok x.2) reqs ->
  exists app' applied, deliver_all app inst ((fun x => request_of x.2 x.1) <$> reqs) = Some app' /\
    Forall2 (fun ok err => ok = true \/ err = true) applied (write_errors (db app) reqs.*1) /\
    table (db app') = foldl run_command (table (db app)) (marked applied reqs.*1) /\
    (Forall (fun err => err = false) (write_errors (db app) reqs.*1) ->
       table (db app') = foldl run_command (table (db app)) reqs.*1) /\
    outbox (paxos app') = outbox (paxos app) ++
      (if node_id app =? 0 then (fun x => {| dst := x.2; payload := x.1 |}) <$> reqs else []).
Proof.
  intros Hen Hall.
  cut (exists app' applied, deliver_all app inst ((fun x => request_of x.2 x.1) <$> reqs) = Some app' /\
    length applied = length reqs.*1 /\
    Forall2 (fun ok err => ok = true \/ err = true) applied (write_errors (db app) reqs.*1) /\
    table (db app') = foldl run_command (table (db app)) (marked applied reqs.*1) /\
    outbox (paxos app') = outbox (paxos app) ++
      (if node_id app =? 0 then (fun x => {| dst := x.2; payload := x.1 |}) <$> reqs else [])).
  { intros (app' & applied & Happ & Hlen & HF & Ht & Ho). exists app', applied. split_and!; [done..| |done].
    intros Hno. by rewrite Ht, (marked_all _ _ _ HF Hlen Hno). }
  revert app inst Hen. induction Hall as [|[cmd a] reqs [Hl Ha] _ IH]; intros app inst Hen.
  { exists app, []. split_and!; try done. cbn. by destruct (_ =? 0); rewrite app_nil_r. }
  cbn [fmap list_fmap fst snd] in *. cbn [deliver_all].
  destruct (deliver_command app inst a cmd reqs.*1 Hen Hl Ha) as (app1 & err & ok & -> & Hid & Hen1 & Hout & Herr & Hok & Ht1).
  cbn [mbind option_bind]. destruct (IH app1 (inst + 1) Hen1) as (app' & applied & Happ & Hlen & HF & Ht & Ho).
  exists app', (ok :: applied). rewrite Herr. split_and!; [done|cbn; by rewrite Hlen|by constructor| |].
  - rewrite Ht, Ht1. unfold marked. by destruct ok.
  - rewrite Ho, Hout, Hid, <- app_assoc. by destruct (_ =? 0).
Qed.
End store.

(** ** Witnesses *)

Definition sample_client : sockaddr_in := {| sin_port := 5000; sin_addr := 16777343 |}.

(** The command of [send_to_addr]. *)
Definition sample_command (o : Operation) : list byte := default [] (command_bytes (replicate 56 xff) (Timespec 1 2) 7 o).

Definition sample_ctx : paxos_ctx (gmap Z) unit := init_paxos_ctx [].

(** Two clients in one batch: a first command and a second one. *)
Lemma caans_round_trip_witness :
  let OS := sample_os in
  exists st' ctx' id' g g', handle_request start_proxy (fun _ => replicate 74 xff) (fun _ => replicate 128 xff) sample_ctx 0
      (Some [(sample_command SET, sample_client); (sample_command GET, zero_sin)]) = Some (st', ctx', id') /\
    outbox ctx' = [g; g'] /\ exists c, accept_dgram (payload g) c /\
    exists app', deliver (D := unit) (fun d _ _ _ => Some (0, d)) (fun _ _ => (0, None)) (ApplicationCtx 0 0 0 false tt sample_ctx) 1
                   (Some (value_bytes (value c))) 74 = Some app' /\
      outbox (paxos app') = [{| dst := sample_client; payload := sample_command SET |}].
Proof.
  intros OS.
  destruct (caans_round_trip sample_send_ok (fun (d : unit) _ _ _ => Some (0, d)) (fun _ _ => (0, None)) start_proxy
    (fun _ => replicate 74 xff) (fun _ => replicate 128 xff) sample_ctx 0
    [(sample_command SET, sample_client); (sample_command GET, zero_sin)]) as (st' & ctx' & id' & out & Hh & Ho & HF).
  - apply start_proxy_ok.
  - vm_compute. lia.
  - intros i. vm_compute. discriminate.
  - reflexivity.
  - repeat (apply Forall_cons; split; [split; [reflexivity|vm_compute; by split_and!]|]). constructor.
  - by eexists.
  - apply Forall2_cons_inv_l in HF as (g & out' & (c & _ & Hc & Hdel) & HF & ->).
    apply Forall2_cons_inv_l in HF as (g' & out'' & _ & HF & ->). apply Forall2_nil_inv_l in HF as ->.
    exists st', ctx', id', g, g'. split; [exact Hh|]. split; [exact Ho|]. exists c. split; [exact Hc|].
    destruct (Hdel (ApplicationCtx 0 0 0 false tt sample_ctx) 1) as (app' & Hd & Hout). exists app'. split; [exact Hd|exact Hout].
Defined.

(** A database in memory with [n] bytes of room on its disk: a write that does not
    fit fails.  An entry takes 32 bytes. *)
Definition map_db : KvDb (gmap (list byte) (list byte) * Z) :=
  {| db_open _ _ := Some (∅, 64);
     db_put _ d k v := if d.2 <? 32 then (true, d) else (false, (<[k := v]> d.1, d.2 - 32));
     db_get d k := (false, d.1 !! k); db_delete d k := (false, (delete k d.1, d.2)) |}.

Lemma map_db_laws : KvDbLaws (KV := map_db).
Proof.
  apply (Build_KvDbLaws _ map_db fst); [|intros sync d k v d'; left; revert H|]; cbn; intros; by repeat case_match; simplify_eq.
Defined.

Lemma sample_set m : run_command m (sample_command SET) = <[replicate 15 x6b ++ [x00] := replicate 15 x76 ++ [x00]]> m.
Proof. reflexivity. Qed.
Lemma sample_get m : run_command m (sample_command GET) = m.
Proof. reflexivity. Qed.

Lemma caans_store_refines_table_witness :
  let OS := sample_os in let KV := map_db in
  exists app', deliver_all (ApplicationCtx 0 0 0 true (∅, 64) sample_ctx) 1
      [request_of sample_client (sample_command SET); request_of zero_sin (sample_command GET)] = Some app' /\
    (db app').1 = {[replicate 15 x6b ++ [x00] := replicate 15 x76 ++ [x00]]}.
Proof.
  intros OS KV.
  destruct (caans_store_refines_table (KL := map_db_laws) sample_send_ok (ApplicationCtx 0 0 0 true (∅, 64) sample_ctx) 1
    [(sample_command SET, sample_client); (sample_command GET, zero_sin)]) as (app' & applied & Ha & _ & _ & Ht & _).
  - reflexivity.
  - repeat (apply Forall_cons; split; [split; [reflexivity|vm_compute; by split_and!]|]). constructor.
  - exists app'. split; [exact Ha|]. etransitivity; [apply Ht; vm_compute; by repeat constructor|].
    cbn [fmap list_fmap fst foldl]. by rewrite sample_get, sample_set.
Defined.

(** With a full disk the command has no effect, and the client gets its answer. *)
Lemma failed_write_answered :
  let OS := sample_os in let KV := map_db in
  exists app', deliver_all (ApplicationCtx 0 0 0 true (∅, 0) sample_ctx) 1 [request_of sample_client (sample_command SET)] = Some app' /\
    (db app').1 = ∅ /\ outbox (paxos app') = [{| dst := sample_client; payload := sample_command SET |}].
Proof. eexists. split; [vm_compute; reflexivity|]. by split. Qed.
