(* ===== verification/Consensus.v ===== *)
(** * Consensus: the protocol as a whole

    Acceptors, proposers and learners that run the handlers of [Acceptor.v],
    [Proposer.v] and [Learner.v] and exchange messages over a network that may
    lose, duplicate, delay and reorder them: a message that was sent once may
    be received any number of times, by anyone, or never.  Acceptors may crash
    and restart from their durable storage.

    These are the processes of [evpaxos], with two restrictions: the answers to
    repeat requests are not sent, since agreement fails with them ([Repeat.v]),
    and clients submit values of at least one byte.  The recovery of gaps by the
    learner of [net/learner.c] ([learner_prepare], [learner_receive_promise],
    [learner_receive_preempted]), which [evpaxos] does not use, is not in the network
    either.  The storages are those of [StorageLaws]: a call may fail, but a read
    never takes a record that is there for one that is missing; see
    [AcceptorLmdb.failed_read_forgets_promise] for what such a read does.

    This file has the network ([net], [step]) and the invariant of the messages,
    and shows that the invariant implies that at most one value is chosen per
    instance ([chosen_unique]).  [ConsensusInv.v] shows that every step
    preserves the invariant. *)

From S2P Require Import Prelude PaxosTypes KhashInterface Quorum Storage Acceptor Carray Proposer.
From S2P Require Import Learner.

(** ** The network *)

Section network.
Context `{SL : StorageLaws H} `{KH : KHash T}.

Record net := Net {
  accs : gmap Z (acceptor H);
  props : gmap Z (proposer T);
  lrns : gmap Z (learner T);
  sent : list paxos_message;              (* every message sent so far *)
  proposed : list (list byte);            (* values submitted by clients *)
  delivered : list (Z * Z * list byte);   (* learner, instance, value *)
}.

(** A step of a proposer that knows the messages [M]: the new state and the
    message it sends. *)
Inductive prop_step (M : list paxos_message) (p : proposer T) :
    proposer T -> option paxos_message -> Prop :=
  | prop_prepare now p' out :
      next_prepare_iid p < UINT32_MAX ->
      proposer_prepare p now = Some (p', out) ->
      prop_step M p p' (Some (PAXOS_PREPARE out))
  | prop_promise ack now ret p' out :
      PAXOS_PROMISE ack ∈ M ->
      proposer_receive_promise p ack now = Some (ret, p', out) ->
      prop_step M p p' (PAXOS_PREPARE <$> out)
  | prop_accept ret p' out :
      proposer_accept p = Some (ret, p', out) ->
      prop_step M p p' (PAXOS_ACCEPT <$> out)
  | prop_accepted ack ret p' :
      PAXOS_ACCEPTED ack ∈ M ->
      proposer_receive_accepted p ack = Some (ret, p') ->
      prop_step M p p' None
  | prop_preempted ack now ret p' out :
      PAXOS_PREEMPTED ack ∈ M ->
      proposer_receive_preempted p ack now = Some (ret, p', out) ->
      prop_step M p p' (PAXOS_PREPARE <$> out)
  | prop_acceptor_state st p' :
      is_u32 (state_trim_iid st) ->
      proposer_receive_acceptor_state p st = Some p' ->
      prop_step M p p' None
  | prop_timeout_prepare to iter iter' p' out :
      timeout_iterator_prepare to iter p = (iter', p', out) ->
      prop_step M p p' (PAXOS_PREPARE <$> out)
  | prop_timeout_accept to iter iter' p' out :
      timeout_iterator_accept to iter p = Some (iter', p', out) ->
      prop_step M p p' (PAXOS_ACCEPT <$> out).

(** A step of an acceptor; a reply is sent when the handler returns 1. *)
Inductive acc_step (M : list paxos_message) (a : acceptor H) :
    acceptor H -> option paxos_message -> Prop :=
  | acc_prepare req out a' ret out' :
      PAXOS_PREPARE req ∈ M ->
      acceptor_receive_prepare a req out = Some (a', ret, out') ->
      acc_step M a a' (if ret =? 1 then Some out' else None)
  | acc_accept req out a' ret out' :
      PAXOS_ACCEPT req ∈ M ->
      acceptor_receive_accept a req out = Some (a', ret, out') ->
      acc_step M a a' (if ret =? 1 then Some out' else None)
  | acc_trim tr a' ret :
      is_u32 (trim_iid tr) ->
      acceptor_receive_trim a tr = Some (a', ret) ->
      acc_step M a a' None
  | acc_restart r t s s' a' :
      rep (store a) (Idle r t) ->                          (* the durable state *)
      api_open s = Some (s', 0) -> rep s' (Idle r t) ->    (* is found again *)
      acceptor_new (acc_id a) s = Some (Some a') ->
      acc_step M a a' None.

(** A step of a learner, with the value it delivers. *)
Inductive lrn_step (M : list paxos_message) (l : learner T) :
    learner T -> option paxos_accepted -> Prop :=
  | lrn_accepted ack l' :
      PAXOS_ACCEPTED ack ∈ M ->
      learner_receive_accepted l ack = Some l' ->
      lrn_step M l l' None
  | lrn_deliver freed ret l' out :
      is_u32 freed ->
      learner_deliver_next l freed = Some (ret, l', out) ->
      lrn_step M l l' out.

Definition send (o : option paxos_message) (M : list paxos_message) : list paxos_message :=
  match o with Some m => m :: M | None => M end.

Definition deliver (j : Z) (o : option paxos_accepted) (D : list (Z * Z * list byte)) :=
  match o with Some m => (j, iid m, value_bytes (value m)) :: D | None => D end.

Inductive step (s : net) : net -> Prop :=
  | step_propose i p v size p' :
      props s !! i = Some p ->
      0 < size < 2 ^ 31 -> size <= Z.of_nat (length v) ->
      proposer_propose p v size = Some p' ->
      step s {| accs := accs s; props := <[i := p']> (props s); lrns := lrns s; sent := sent s;
                proposed := take (Z.to_nat size) v :: proposed s; delivered := delivered s |}
  | step_prop i p p' o :
      props s !! i = Some p -> prop_step (sent s) p p' o ->
      step s {| accs := accs s; props := <[i := p']> (props s); lrns := lrns s;
                sent := send o (sent s); proposed := proposed s; delivered := delivered s |}
  | step_acc a acc acc' o :
      accs s !! a = Some acc -> acc_step (sent s) acc acc' o ->
      step s {| accs := <[a := acc']> (accs s); props := props s; lrns := lrns s;
                sent := send o (sent s); proposed := proposed s; delivered := delivered s |}
  | step_lrn j l l' o :
      lrns s !! j = Some l -> lrn_step (sent s) l l' o ->
      step s {| accs := accs s; props := props s; lrns := <[j := l']> (lrns s); sent := sent s;
                proposed := proposed s; delivered := deliver j o (delivered s) |}.

(** [n] acceptors with empty storage, proposers with distinct ids below
    [MAX_N_OF_PROPOSERS], and learners. *)
Record init (n : Z) (s : net) : Prop := {
  init_n : 0 <= n < 2 ^ 16;
  init_accs a acc : accs s !! a = Some acc -> 0 <= a < n /\ acc_id acc = a /\ acceptor_ok acc ∅ 0;
  init_props i p : props s !! i = Some p -> 0 <= i < MAX_N_OF_PROPOSERS /\ proposer_new i n = Some p;
  init_lrns j l : lrns s !! j = Some l -> exists c, l = learner_new c n;
  init_sent : sent s = [];
  init_proposed : proposed s = [];
  init_delivered : delivered s = [];
}.

Inductive reachable (n : Z) : net -> Prop :=
  | reach_init s : init n s -> reachable n s
  | reach_step s s' : reachable n s -> step s s' -> reachable n s'.
End network.
Arguments net : clear implicits.

(** ** Votes and proposals *)

Definition bytes (m : paxos_body) : list byte := value_bytes (value m).

(** Acceptor [a] accepted [v] in ballot [b] of instance [k]. *)
Definition vote (M : list paxos_message) (a k b : Z) (v : list byte) : Prop :=
  exists m, PAXOS_ACCEPTED m ∈ M /\ aid m = a /\ iid m = k /\ ballot m = b /\ bytes m = v.

(** [v] was proposed in ballot [b] of instance [k]. *)
Definition proposal (M : list paxos_message) (k b : Z) (v : list byte) : Prop :=
  exists m, PAXOS_ACCEPT m ∈ M /\ iid m = k /\ ballot m = b /\ bytes m = v.

(** A majority accepted [v] in one ballot. *)
Definition chosen (n : Z) (M : list paxos_message) (k : Z) (v : list byte) : Prop :=
  exists b Q, majority n Q /\ forall a, a ∈ Q -> vote M a k b v.

(** A majority promised ballot [b], and [v] is the value of the highest ballot
    among their votes below [b], if they voted. *)
Definition safe_at (n : Z) (M : list paxos_message) (k b : Z) (v : list byte) : Prop :=
  exists Q (f : Z -> paxos_promise), majority n Q /\
    (forall a, a ∈ Q -> PAXOS_PROMISE (f a) ∈ M /\ aid (f a) = a /\ iid (f a) = k /\
       ballot (f a) = b /\ value_ballot (f a) < b) /\
    ((forall a, a ∈ Q -> value_ballot (f a) <= 0) \/
     exists a0, a0 ∈ Q /\ 0 < value_ballot (f a0) /\ bytes (f a0) = v /\
       forall a, a ∈ Q -> value_ballot (f a) <= value_ballot (f a0)).

(** ** The invariant of the messages *)

Section messages.
Context (n : Z).
Implicit Types (M : list paxos_message) (PV : list (list byte)) (m : paxos_body).

(** A promise reports the acceptor's vote with the highest ballot below the
    promised one. *)
Definition promise_ok M m : Prop :=
  body_ok m /\ 0 <= aid m < n /\ value_ballot m <= ballot m /\
  (0 < value_ballot m -> 0 < paxos_value_len (value m) /\
     vote M (aid m) (iid m) (value_ballot m) (bytes m)) /\
  forall b v, vote M (aid m) (iid m) b v -> b <= value_ballot m \/ ballot m <= b.

Definition accepted_ok M m : Prop :=
  record_ok m /\ 0 <= aid m < n /\ 0 < iid m /\ proposal M (iid m) (ballot m) (bytes m).

Definition accept_msg_ok M PV m : Prop :=
  body_ok m /\ 0 < paxos_value_len (value m) /\ 0 < ballot m /\ bytes m ∈ PV /\
  safe_at n M (iid m) (ballot m) (bytes m).

Record msgs_ok M PV : Prop := {
  mk_prepare m : PAXOS_PREPARE m ∈ M -> body_ok m;
  mk_promise m : PAXOS_PROMISE m ∈ M -> promise_ok M m;
  mk_accept m : PAXOS_ACCEPT m ∈ M -> accept_msg_ok M PV m;
  mk_accepted m : PAXOS_ACCEPTED m ∈ M -> accepted_ok M m;
  mk_preempted m : PAXOS_PREEMPTED m ∈ M -> body_ok m;
  mk_unique k b v v' : proposal M k b v -> proposal M k b v' -> v = v';
}.

(** What a new message must satisfy to keep the invariant. *)
Definition new_ok M PV (msg : paxos_message) : Prop :=
  match msg with
  | PAXOS_PREPARE m | PAXOS_PREEMPTED m => body_ok m
  | PAXOS_PROMISE m => promise_ok M m
  | PAXOS_ACCEPT m => accept_msg_ok M PV m /\
      forall v, proposal M (iid m) (ballot m) v -> v = bytes m
  | PAXOS_ACCEPTED m => accepted_ok M m /\
      forall p, PAXOS_PROMISE p ∈ M -> aid p = aid m -> iid p = iid m -> ballot p <= ballot m
  | _ => True
  end.

(** *** Monotonicity *)

Lemma vote_mono M M' a k b v : M ⊆ M' -> vote M a k b v -> vote M' a k b v.
Proof. intros Hsub (m & Hm & ?). exists m. auto. Qed.

Lemma proposal_mono M M' k b v : M ⊆ M' -> proposal M k b v -> proposal M' k b v.
Proof. intros Hsub (m & Hm & ?). exists m. auto. Qed.

Lemma chosen_mono M M' k v : M ⊆ M' -> chosen n M k v -> chosen n M' k v.
Proof. intros Hsub (b & Q & HQ & Hv). exists b, Q. eauto using vote_mono. Qed.

Lemma safe_at_mono M M' k b v : M ⊆ M' -> safe_at n M k b v -> safe_at n M' k b v.
Proof. intros Hsub (Q & f & HQ & Hf & Hv). exists Q, f. naive_solver. Qed.

Lemma vote_cons M msg a k b v :
  vote (msg :: M) a k b v -> vote M a k b v \/
  exists m, msg = PAXOS_ACCEPTED m /\ aid m = a /\ iid m = k /\ ballot m = b /\ bytes m = v.
Proof. intros (m & [<-|Hm]%elem_of_cons & ?); [right|left]; exists m; done. Qed.

Lemma proposal_cons M msg k b v :
  proposal (msg :: M) k b v -> proposal M k b v \/
  exists m, msg = PAXOS_ACCEPT m /\ iid m = k /\ ballot m = b /\ bytes m = v.
Proof. intros (m & [<-|Hm]%elem_of_cons & ?); [right|left]; exists m; done. Qed.

(** *** Adding a message *)

Lemma sub_cons M msg : M ⊆ msg :: M.
Proof. set_solver. Qed.

Lemma promise_ok_add M PV msg m :
  promise_ok M m -> PAXOS_PROMISE m ∈ M -> new_ok M PV msg -> promise_ok (msg :: M) m.
Proof.
  intros (Hb & Ha & Hle & Hv & Hn) Hin Hnew. do 3 (split; [done|]). split.
  - intros H0. destruct (Hv H0). eauto using vote_mono, sub_cons.
  - intros b v [Hvote|(m' & -> & Ham & Him & Hbm & _)]%vote_cons; [by eapply Hn|].
    right. destruct Hnew as [_ Hnew]. rewrite <- Hbm. by apply Hnew.
Qed.

Lemma accepted_ok_add M msg m : accepted_ok M m -> accepted_ok (msg :: M) m.
Proof. intros (? & ? & ? & ?). do 3 (split; [done|]). eauto using proposal_mono, sub_cons. Qed.

Lemma accept_msg_ok_add M PV msg m : accept_msg_ok M PV m -> accept_msg_ok (msg :: M) PV m.
Proof. intros (? & ? & ? & ? & ?). do 4 (split; [done|]). eauto using safe_at_mono, sub_cons. Qed.

Lemma promise_ok_self M m : promise_ok M m -> promise_ok (PAXOS_PROMISE m :: M) m.
Proof.
  intros (Hb & Ha & Hle & Hv & Hn). do 3 (split; [done|]). split.
  - intros H0. destruct (Hv H0). eauto using vote_mono, sub_cons.
  - intros b v [Hvote|(m' & ? & _)]%vote_cons; [by eapply Hn|done].
Qed.

Lemma msgs_ok_add M PV msg : msgs_ok M PV -> new_ok M PV msg -> msgs_ok (msg :: M) PV.
Proof.
  intros [H1 H2 H3 H4 H5 H6] Hnew. split.
  - intros m [<-|Hm]%elem_of_cons; [done|auto].
  - intros m [<-|Hm]%elem_of_cons; [by apply promise_ok_self|eauto using promise_ok_add].
  - intros m [<-|Hm]%elem_of_cons; [by apply accept_msg_ok_add; destruct Hnew|].
    eauto using accept_msg_ok_add.
  - intros m [<-|Hm]%elem_of_cons; [by apply accepted_ok_add; destruct Hnew|].
    eauto using accepted_ok_add.
  - intros m [<-|Hm]%elem_of_cons; [done|auto].
  - intros k b v v' [Hv|(m & -> & <- & <- & <-)]%proposal_cons
      [Hv'|(m' & Heq & Hk & Hb & Hy)]%proposal_cons; try done.
    + by eapply H6.
    + subst. destruct Hnew as [_ Hu]. by apply Hu.
    + symmetry. destruct Hnew as [_ Hu]. by apply Hu.
    + simplify_eq. done.
Qed.

(** ** At most one value is chosen *)

Lemma majority_nonempty Q : 0 <= n -> majority n Q -> exists a, a ∈ Q.
Proof.
  intros Hn [_ Hsize]. pose proof (paxos_quorum_majority n Hn). apply set_choose_L.
  intros ->. rewrite size_empty in Hsize. lia.
Qed.

(** Once [v] is chosen in ballot [b], no other value is proposed in a ballot
    from [b] on. *)
Lemma chosen_proposal M PV k b Q v b' v' :
  0 <= n -> msgs_ok M PV -> majority n Q -> (forall a, a ∈ Q -> vote M a k b v) ->
  b <= b' -> proposal M k b' v' -> v' = v.
Proof.
  intros Hn Hok HQ Hvotes. assert (forall a, a ∈ Q -> proposal M k b v) as Hprop.
  { intros a (m & Hm & _ & <- & <- & <-)%Hvotes. by apply (mk_accepted _ _ Hok) in Hm as (_ & _ & _ & ?). }
  destruct (majority_nonempty Q Hn HQ) as [q0 Hq0]. specialize (Hprop q0 Hq0).
  assert (0 < b) as Hb0.
  { destruct Hprop as (m & Hm & _ & <- & _). by apply (mk_accept _ _ Hok) in Hm as (_ & _ & ? & _). }
  revert v'. induction (Z.lt_wf b b') as [b' _ IH]; intros v' Hle Hp.
  destruct (decide (b = b')) as [<-|Hne]; [by eapply (mk_unique _ _ Hok)|].
  pose proof Hp as (m & Hm & <- & <- & <-). apply (mk_accept _ _ Hok) in Hm as (_ & _ & _ & _ & Hsafe).
  destruct Hsafe as (Q' & f & HQ' & Hf & Hcase).
  destruct (majority_intersect n Q Q' Hn HQ HQ') as (a & Ha & Ha').
  destruct (Hf a Ha') as (Hpa & Haa & Hia & Hba & _).
  pose proof (mk_promise _ _ Hok _ Hpa) as (_ & _ & _ & _ & Hhigh).
  specialize (Hvotes a Ha). rewrite <- Haa, <- Hia in Hvotes. apply Hhigh in Hvotes.
  destruct Hcase as [Hnone|(a0 & Ha0 & Hpos & Hval & Hmax)].
  { specialize (Hnone a Ha'). lia. }
  specialize (Hmax a Ha'). destruct (Hf a0 Ha0) as (Hp0 & _ & Hi0 & _ & Hlt0).
  pose proof (mk_promise _ _ Hok _ Hp0) as (_ & _ & _ & Hvote0 & _).
  destruct (Hvote0 Hpos) as [_ (m0 & Hm0 & _ & Hk0 & Hb0' & Hv0)].
  apply (mk_accepted _ _ Hok) in Hm0 as (_ & _ & _ & Hprop0). rewrite Hk0, Hb0', Hv0, Hval, Hi0 in Hprop0.
  eapply (IH (value_ballot (f a0))); [lia|lia|done].
Qed.

Lemma chosen_unique M PV k v v' :
  0 <= n -> msgs_ok M PV -> chosen n M k v -> chosen n M k v' -> v = v'.
Proof.
  intros Hn Hok (b & Q & HQ & Hv) (b' & Q' & HQ' & Hv').
  assert (forall b Q v, majority n Q -> (forall a, a ∈ Q -> vote M a k b v) -> proposal M k b v) as Hp.
  { intros b0 Q0 v0 HQ0 Hv0. destruct (majority_nonempty Q0 Hn HQ0) as [a Ha].
    destruct (Hv0 a Ha) as (m & Hm & _ & <- & <- & <-).
    by apply (mk_accepted _ _ Hok) in Hm as (_ & _ & _ & ?). }
  destruct (Z.le_ge_cases b b').
  - symmetry. eapply (chosen_proposal M PV k b Q); eauto.
  - eapply (chosen_proposal M PV k b' Q'); eauto.
Qed.
End messages.
