(* ===== verification/AcceptorInv.v ===== *)
(** * Consensus: the invariant of the acceptors

    The records of an acceptor bound what it promised and voted so far; every
    step of an acceptor keeps this and sends a message that keeps the invariant
    of the messages ([acc_step_inv]). *)

From S2P Require Import Prelude PaxosTypes KhashInterface Quorum Storage Acceptor Consensus.

Section acceptor_inv.
Context `{SL : StorageLaws H} (n : Z).
Implicit Types (M : list paxos_message) (PV : list (list byte)).

(** The records of acceptor [a] (for the instances it has not trimmed) bound
    what it promised and voted, and its last vote was sent. *)
Record records_inv M (a : Z) (r : gmap Z paxos_accepted) (t : Z) : Prop := {
  ri_promise m : PAXOS_PROMISE m ∈ M -> aid m = a -> t < iid m ->
    exists b, r !! iid m = Some b /\ ballot m <= ballot b;
  ri_vote m : PAXOS_ACCEPTED m ∈ M -> aid m = a -> t < iid m ->
    exists b, r !! iid m = Some b /\ ballot m <= value_ballot b;
  ri_record k b : r !! k = Some b -> aid b = a /\ value_ballot b <= ballot b /\
    (0 < value_ballot b -> 0 < paxos_value_len (value b) /\
       vote M a k (value_ballot b) (bytes b));
}.

Definition acceptor_inv M (a : Z) (acc : acceptor H) : Prop :=
  0 <= a < n /\ acc_id acc = a /\ exists r t, acceptor_ok acc r t /\ records_inv M a r t.

(** Messages an acceptor sends. *)
Definition from_acceptor (a : Z) (msg : paxos_message) : Prop :=
  match msg with
  | PAXOS_PROMISE m | PAXOS_ACCEPTED m => aid m = a
  | PAXOS_PREEMPTED _ => True
  | _ => False
  end.

Lemma records_inv_other M a r t msg :
  records_inv M a r t ->
  match msg with PAXOS_PROMISE m | PAXOS_ACCEPTED m => aid m <> a | _ => True end ->
  records_inv (msg :: M) a r t.
Proof.
  intros [H1 H2 H3] Hmsg. split.
  - intros m [<-|Hm]%elem_of_cons; [done|auto].
  - intros m [<-|Hm]%elem_of_cons; [done|auto].
  - intros k b Hb. destruct (H3 k b Hb) as (? & ? & Hv). do 2 (split; [done|]).
    intros Hpos. destruct (Hv Hpos). eauto using vote_mono, sub_cons.
Qed.

Lemma acceptor_inv_other M a acc msg :
  acceptor_inv M a acc ->
  match msg with PAXOS_PROMISE m | PAXOS_ACCEPTED m => aid m <> a | _ => True end ->
  acceptor_inv (msg :: M) a acc.
Proof.
  intros (? & ? & r & t & ? & ?) Hmsg. do 2 (split; [done|]). exists r, t.
  eauto using records_inv_other.
Qed.

(** A promise: the record keeps the vote, and the promise reports it. *)
Lemma promise_records M PV a r t req :
  msgs_ok n M PV -> records_inv M a r t -> records_ok r -> 0 <= a < n -> is_u16 a ->
  body_ok req -> t < iid req ->
  let p := promised a r req in
  promise_ok n M p /\ aid p = a /\
  records_inv (PAXOS_PROMISE p :: M) a (<[iid req := p]> r) t.
Proof.
  intros Hok [H1 H2 H3] Hr Ha Ha16 Hreq Ht p.
  destruct (promised_ok a r req Hr Hreq Ha16) as [(Hp1 & Hp2 & Hp3 & Hp4 & Hp5) Hpi]. fold p in Hp1, Hp2, Hp3, Hp4, Hp5, Hpi.
  assert (aid p = a /\ value_ballot p <= ballot p /\
    (0 < value_ballot p -> 0 < paxos_value_len (value p) /\ vote M a (iid req) (value_ballot p) (bytes p)) /\
    (forall b v, vote M a (iid req) b v -> b <= value_ballot p) /\
    (forall b, r !! iid req = Some b -> ballot b <= ballot p /\ value_ballot b <= value_ballot p))
    as (Hpa & Hpv & Hpw & Hph & Hpb).
  { unfold p, promised. destruct (r !! iid req) as [b|] eqn:Hb.
    - destruct (H3 _ _ Hb) as (Hba & Hbb & Hbv).
      assert (forall b' v, vote M a (iid req) b' v -> b' <= value_ballot b) as Hvote.
      { intros b' v (m & Hm & Hma & Hmi & <- & _). destruct (H2 m Hm Hma) as (b1 & Hb1 & ?); [lia|].
        rewrite Hmi in Hb1. simplify_eq. done. }
      destruct (Z.leb_spec (ballot b) (ballot req)); simpl; split_and!; try done; try lia;
        intros; simplify_eq; lia.
    - simpl. destruct Hreq as (? & ? & _). split_and!; try done; [lia..|].
      intros b' v (m & Hm & Hma & Hmi & _). destruct (H2 m Hm Hma) as (b1 & Hb1 & ?); [lia|congruence]. }
  split; [|split; [done|]].
  - split; [by do 4 (split; [done|]); apply value_exact_ok|]. rewrite Hpa, Hpi. do 3 (split; [done|]). intros b v Hv. left. by eapply Hph.
  - split.
    + intros m [[= ->]|Hm]%elem_of_cons Hma Hmt.
      * exists p. rewrite Hpi, lookup_insert_eq. split; [done|lia].
      * destruct (H1 m Hm Hma Hmt) as (b & Hb & Hle). destruct (decide (iid req = iid m)) as [He|Hne].
        -- rewrite He, lookup_insert_eq. exists p. split; [done|]. rewrite <- He in Hb.
           destruct (Hpb b Hb). lia.
        -- rewrite lookup_insert_ne by done. eauto.
    + intros m [?|Hm]%elem_of_cons Hma Hmt; [done|].
      destruct (H2 m Hm Hma Hmt) as (b & Hb & Hle). destruct (decide (iid req = iid m)) as [He|Hne].
      * rewrite He, lookup_insert_eq. exists p. split; [done|]. rewrite <- He in Hb.
        destruct (Hpb b Hb). lia.
      * rewrite lookup_insert_ne by done. eauto.
    + intros k b. destruct (decide (iid req = k)) as [<-|Hne].
      * rewrite lookup_insert_eq. intros [= <-]. do 2 (split; [done|]). intros Hpos.
        destruct (Hpw Hpos). eauto using vote_mono, sub_cons.
      * rewrite lookup_insert_ne by done. intros Hb. destruct (H3 k b Hb) as (? & ? & Hv).
        do 2 (split; [done|]). intros Hpos. destruct (Hv Hpos). eauto using vote_mono, sub_cons.
Qed.

Lemma accept_bytes id req :
  body_ok req -> bytes (paxos_accept_to_accepted id req) = bytes req.
Proof.
  intros (_ & _ & _ & _ & Hv). unfold bytes. unfold value_bytes at 1. simpl.
  destruct (Z.ltb_spec 0 (paxos_value_len (value req))); simpl.
  - apply take_ge. pose proof (length_value_bytes _ Hv). lia.
  - unfold value_bytes. by rewrite !Z2Nat.nonpos by lia.
Qed.

(** A vote: the request is no older than what was promised and voted. *)
Lemma accept_records_inv M PV a r t req :
  msgs_ok n M PV -> records_inv M a r t -> 0 <= a < n -> is_u16 a ->
  PAXOS_ACCEPT req ∈ M -> t < iid req -> 0 < iid req -> accept_ok r req = true ->
  let m := paxos_accept_to_accepted a req in
  new_ok n M PV (PAXOS_ACCEPTED m) /\ aid m = a /\
  records_inv (PAXOS_ACCEPTED m :: M) a (<[iid req := m]> r) t.
Proof.
  intros Hok [H1 H2 H3] Ha Ha16 Hin Ht Hiid Hacc m.
  destruct (mk_accept _ _ _ Hok _ Hin) as (Hreq & Hlen & _).
  assert (aid m = a) as Hma by (simpl; by rewrite u16_small).
  assert (forall b, r !! iid req = Some b -> ballot b <= ballot req) as Hle.
  { intros b Hb. unfold accept_ok in Hacc. rewrite Hb in Hacc. by apply Z.leb_le. }
  split; [split|split; [done|]].
  - split; [by apply accept_to_accepted_ok|]. rewrite Hma. do 2 (split; [done|]).
    exists req. unfold m. by rewrite accept_bytes.
  - intros p Hp Hpa Hpi. rewrite Hma in Hpa. simpl in Hpi.
    destruct (H1 p Hp Hpa) as (b & Hb & ?); [lia|]. rewrite Hpi in Hb. specialize (Hle b Hb). simpl. lia.
  - split.
    + intros p [?|Hp]%elem_of_cons Hpa Hpt; [done|]. destruct (H1 p Hp Hpa Hpt) as (b & Hb & ?).
      destruct (decide (iid req = iid p)) as [He|Hne]; [|rewrite lookup_insert_ne by done; eauto].
      rewrite He, lookup_insert_eq. exists m. split; [done|]. rewrite <- He in Hb. specialize (Hle b Hb).
      simpl. lia.
    + intros p [[= ->]|Hp]%elem_of_cons Hpa Hpt.
      { exists m. simpl. rewrite lookup_insert_eq. split; [done|lia]. }
      destruct (H2 p Hp Hpa Hpt) as (b & Hb & ?).
      destruct (decide (iid req = iid p)) as [He|Hne]; [|rewrite lookup_insert_ne by done; eauto].
      rewrite He, lookup_insert_eq. exists m. split; [done|]. rewrite <- He in Hb. specialize (Hle b Hb).
      destruct (H3 _ _ Hb) as (_ & ? & _). simpl. lia.
    + intros k b. destruct (decide (iid req = k)) as [<-|Hne].
      * rewrite lookup_insert_eq. intros [= <-]. split; [done|]. split; [simpl; lia|]. intros _.
        split; [done|]. exists m. split; [by left|done].
      * rewrite lookup_insert_ne by done. intros Hb. destruct (H3 k b Hb) as (? & ? & Hv).
        do 2 (split; [done|]). intros Hpos. destruct (Hv Hpos). eauto using vote_mono, sub_cons.
Qed.

Lemma records_inv_trim M a r t r' t' :
  records_inv M a r t -> t <= t' -> r' ⊆ r -> (forall k, t' < k -> r' !! k = r !! k) ->
  records_inv M a r' t'.
Proof.
  intros [H1 H2 H3] Ht Hsub Hlater. split.
  - intros m Hm Hma Hmt. rewrite Hlater by done. apply H1; [done|done|lia].
  - intros m Hm Hma Hmt. rewrite Hlater by done. apply H2; [done|done|lia].
  - intros k b Hb. by apply H3, (lookup_weaken _ _ _ _ Hb).
Qed.

Lemma acc_step_prepare M PV a acc req out acc' ret out' :
  msgs_ok n M PV -> acceptor_inv M a acc -> PAXOS_PREPARE req ∈ M ->
  acceptor_receive_prepare acc req out = Some (acc', ret, out') ->
  let o := if ret =? 1 then Some out' else None in
  acceptor_inv (send o M) a acc' /\ forall m, o = Some m -> new_ok n M PV m /\ from_acceptor a m.
Proof.
  intros Hok (Ha & Hid & r & t & Hacc & Hinv) Hreq Hrun.
  pose proof (mk_prepare _ _ _ Hok _ Hreq) as Hbody.
  pose proof Hacc as (Hid16 & _ & Htrim & Hrep). destruct (rep_idle_ok _ _ _ Hrep) as [Hr _].
  rewrite Hid in Hid16.
  destruct (receive_prepare_spec _ _ _ _ _ _ _ _ Hacc Hbody Hrun)
    as (Hid' & _ & [(-> & _ & Hacc')|(-> & Hlt & -> & Hacc')]); simpl.
  - split; [|done]. split; [done|]. split; [congruence|]. by exists r, t.
  - rewrite Hid in *. destruct (promise_records M PV a r t req Hok Hinv Hr Ha Hid16 Hbody ltac:(lia))
      as (Hp & Hpa & Hinv').
    split; [|by intros m [= <-]]. split; [done|]. split; [congruence|]. eauto.
Qed.

Lemma acc_step_accept M PV a acc req out acc' ret out' :
  msgs_ok n M PV -> acceptor_inv M a acc -> PAXOS_ACCEPT req ∈ M ->
  acceptor_receive_accept acc req out = Some (acc', ret, out') ->
  let o := if ret =? 1 then Some out' else None in
  acceptor_inv (send o M) a acc' /\ forall m, o = Some m -> new_ok n M PV m /\ from_acceptor a m.
Proof.
  intros Hok (Ha & Hid & r & t & Hacc & Hinv) Hreq Hrun.
  destruct (mk_accept _ _ _ Hok _ Hreq) as (Hbody & _).
  pose proof Hacc as (Hid16 & Htr32 & Htrim & Hrep). destruct (rep_idle_ok _ _ _ Hrep) as [Hr _].
  rewrite Hid in Hid16.
  destruct (receive_accept_spec _ _ _ _ _ _ _ _ Hacc Hbody Hrun)
    as (Hid' & _ & [(-> & Hacc')|(-> & Hlt & -> & Hacc')]); simpl.
  { split; [|done]. split; [done|]. split; [congruence|]. by exists r, t. }
  rewrite Hid in *. unfold accept_records in Hacc'. destruct (accept_ok r req) eqn:Hok'.
  - destruct (accept_records_inv M PV a r t req Hok Hinv Ha Hid16 Hreq ltac:(lia) ltac:(lia) Hok')
      as (Hnew & Hma & Hinv').
    assert (accept_reply a r req = PAXOS_ACCEPTED (paxos_accept_to_accepted a req)) as ->.
    { unfold accept_reply, accept_ok in *. destruct (r !! iid req); [by rewrite Hok'|done]. }
    split; [|by intros m [= <-]]. split; [done|]. split; [congruence|]. eauto.
  - unfold accept_ok, accept_reply in *. destruct (r !! iid req) as [b|] eqn:Hb; [|done]. rewrite Hok'.
    destruct (Hr _ _ Hb) as [_ (Hb1 & Hb2 & _)]. split.
    + apply acceptor_inv_other; [|done]. split; [done|]. split; [congruence|]. by exists r, t.
    + intros m [= <-]. split; [|done]. unfold new_ok, body_ok, value_ok. simpl.
      rewrite u16_small by done. lia.
Qed.

(** Every step of an acceptor keeps its invariant and sends a good message. *)
Lemma acc_step_inv M PV a acc acc' o :
  msgs_ok n M PV -> acceptor_inv M a acc -> acc_step M acc acc' o ->
  acceptor_inv (send o M) a acc' /\ forall m, o = Some m -> new_ok n M PV m /\ from_acceptor a m.
Proof.
  intros Hok Hinv Hstep.
  destruct Hstep as [req out acc' ret out' Hreq Hrun|req out acc' ret out' Hreq Hrun|
    tr acc' ret Htr Hrun|r t s s' acc' Hdur Hopen Hdur' Hrun].
  - by eapply acc_step_prepare.
  - by eapply acc_step_accept.
  - split; [|done]. destruct Hinv as (Ha & Hid & r & t & Hacc & Hinv).
    destruct (receive_trim_spec _ _ _ _ _ _ Hacc Htr Hrun) as (Hid' & _ & r' & t' & Hacc' & ? & ? & ?).
    split; [done|]. split; [congruence|]. exists r', t'. eauto using records_inv_trim.
  - split; [|done]. destruct Hinv as (Ha & Hid & r0 & t0 & Hacc & Hinv).
    pose proof Hacc as (Hid16 & _ & _ & Hrep). destruct (rep_idle_inj _ _ _ _ _ Hdur Hrep) as [-> ->].
    edestruct (acceptor_new_spec (acc_id acc)) as (Hid' & _ & Hacc'); [by eauto|done|done|].
    split; [done|]. split; [congruence|]. eauto.
Qed.
End acceptor_inv.
