(* ===== verification/ProposerInv.v ===== *)
(** * Consensus: the invariant of the proposers

    The tables of a proposer record promises that were sent and proposals that
    it made; every step of a proposer keeps this and sends a message that keeps
    the invariant of the messages ([prop_step_inv]). *)

From S2P Require Import Prelude PaxosTypes KhashInterface Quorum Carray Proposer Storage Acceptor.
From S2P Require Import Consensus.

Section proposer_inv.
Context `{KH : KHash T} (n : Z).
Implicit Types (M : list paxos_message) (PV : list (list byte)) (p : proposer T) (inst : instance)
  (v : paxos_value).

(** A value a client submitted. *)
Definition client_ok PV v : Prop :=
  value_ok v /\ 0 < paxos_value_len v /\ value_bytes v ∈ PV.

(** The ballots of the proposals of proposer [i] in instance [k] are below
    [B]; its ballots are the ones congruent to [i]. *)
Definition own_below M (i k B : Z) : Prop :=
  forall b w, proposal M k b w -> b mod MAX_N_OF_PROPOSERS = i -> b < B.

(** What holds of an instance in either table. *)
Record inst_inv PV (i k : Z) (inst : instance) : Prop := {
  ii_iid : inst_iid inst = k;
  ii_u32 : is_u32 k;
  ii_mod : inst_ballot inst mod MAX_N_OF_PROPOSERS = i;
  ii_quorum : quorum_ok (inst_quorum inst);
  ii_n : Quorum.acceptors (inst_quorum inst) = n;
  ii_value v : inst_value inst = Some v -> client_ok PV v;
}.

(** The promises that were counted, with the value to propose. *)
Definition promises_inv M (k : Z) (inst : instance) : Prop :=
  exists f : Z -> paxos_promise,
    (forall a, a ∈ members (inst_quorum inst) ->
       PAXOS_PROMISE (f a) ∈ M /\ aid (f a) = a /\ iid (f a) = k /\
       ballot (f a) = inst_ballot inst /\ value_ballot (f a) < inst_ballot inst /\
       value_ballot (f a) <= inst_value_ballot inst) /\
    (inst_promised_value inst = None /\ inst_value_ballot inst = 0 \/
     exists a v, inst_promised_value inst = Some v /\ a ∈ members (inst_quorum inst) /\
       0 < inst_value_ballot inst /\ value_ballot (f a) = inst_value_ballot inst /\
       value_ok v /\ 0 < paxos_value_len v /\ value_bytes v = bytes (f a)).

Definition prep_inv M PV (i k : Z) (inst : instance) : Prop :=
  inst_inv PV i k inst /\ 0 < inst_ballot inst < 2 ^ 16 + 10 /\
  own_below M i k (inst_ballot inst) /\ promises_inv M k inst.

Definition acc_inv M PV (i k : Z) (inst : instance) : Prop :=
  inst_inv PV i k inst /\ 0 < inst_ballot inst < 2 ^ 16 /\
  own_below M i k (inst_ballot inst + 1) /\
  exists m, instance_to_accept inst = Some m /\ PAXOS_ACCEPT m ∈ M.

Record prop_inv M PV (i : Z) p : Prop := {
  pi_id : prop_id p = i;
  pi_range : 0 <= i < MAX_N_OF_PROPOSERS;
  pi_n : prop_acceptors p = n;
  pi_wf : tables_wf p;
  pi_next : is_u32 (next_prepare_iid p);
  pi_prep k inst : preparing p !! k = Some inst -> prep_inv M PV i k inst /\ k <= next_prepare_iid p;
  pi_acc k inst : accepting p !! k = Some inst -> acc_inv M PV i k inst /\ k <= next_prepare_iid p;
  pi_fresh k b w : proposal M k b w -> next_prepare_iid p < k -> b mod MAX_N_OF_PROPOSERS <> i;
  pi_queue : exists q, contents (values p) q /\ Forall (client_ok PV) q;
}.

(** Messages proposer [i] sends. *)
Definition from_proposer (i : Z) (msg : paxos_message) : Prop :=
  match msg with
  | PAXOS_PREPARE _ => True
  | PAXOS_ACCEPT m => ballot m mod MAX_N_OF_PROPOSERS = i
  | _ => False
  end.

(** *** Messages of others *)

Definition not_from (i : Z) (msg : paxos_message) : Prop :=
  match msg with PAXOS_ACCEPT m => ballot m mod MAX_N_OF_PROPOSERS <> i | _ => True end.

Lemma own_below_add M i k B msg :
  own_below M i k B ->
  (forall m, msg = PAXOS_ACCEPT m -> iid m = k -> ballot m mod MAX_N_OF_PROPOSERS = i -> ballot m < B) ->
  own_below (msg :: M) i k B.
Proof.
  intros Hown Hmsg b v [Hp|(m & Heq & Hk & <- & _)]%proposal_cons Hb; [by eapply Hown|]. by apply Hmsg.
Qed.

Lemma promises_inv_mono M M' k inst : M ⊆ M' -> promises_inv M k inst -> promises_inv M' k inst.
Proof. intros Hsub (f & Hf & Hv). exists f. split; [naive_solver|done]. Qed.

Lemma client_ok_mono PV PV' v : PV ⊆ PV' -> client_ok PV v -> client_ok PV' v.
Proof. intros Hsub (? & ? & ?). split_and!; try done; [naive_solver..|set_solver]. Qed.

Lemma inst_inv_mono PV PV' i k inst :
  PV ⊆ PV' -> inst_inv PV i k inst -> inst_inv PV' i k inst.
Proof. intros Hsub []. split; eauto using client_ok_mono. Qed.

Lemma prep_inv_add M PV i k inst msg :
  prep_inv M PV i k inst ->
  (forall m, msg = PAXOS_ACCEPT m -> iid m = k -> ballot m mod MAX_N_OF_PROPOSERS = i ->
     ballot m < inst_ballot inst) ->
  prep_inv (msg :: M) PV i k inst.
Proof.
  intros (H1 & H2 & H3 & H4) Hmsg. split; [by eapply inst_inv_mono|]. split; [done|].
  eauto using own_below_add, promises_inv_mono, sub_cons.
Qed.

Lemma acc_inv_add M PV i k inst msg :
  acc_inv M PV i k inst ->
  (forall m, msg = PAXOS_ACCEPT m -> iid m = k -> ballot m mod MAX_N_OF_PROPOSERS = i ->
     ballot m <= inst_ballot inst) ->
  acc_inv (msg :: M) PV i k inst.
Proof.
  intros (H1 & H2 & H3 & m & Hm & Hin) Hmsg. split; [by eapply inst_inv_mono|]. split; [done|].
  split; [|exists m; split; [done|by right]]. apply own_below_add; [done|].
  intros m' -> Hk Hb. specialize (Hmsg _ eq_refl Hk Hb). lia.
Qed.

Lemma prop_inv_other M PV i p msg :
  prop_inv M PV i p -> not_from i msg -> prop_inv (msg :: M) PV i p.
Proof.
  intros [H1 H2 H3 H4 H5 H6 H7 H8 H9] Hmsg. split; try done.
  - intros k inst Hk. destruct (H6 k inst Hk). split; [|done]. apply prep_inv_add; [done|].
    intros m -> _ ?. done.
  - intros k inst Hk. destruct (H7 k inst Hk). split; [|done]. apply acc_inv_add; [done|].
    intros m -> _ ?. done.
  - intros k b w [Hp|(m & -> & Hk & <- & _)]%proposal_cons Hlt; [by eapply H8|done].
Qed.

Lemma prop_inv_mono M PV PV' i p : PV ⊆ PV' -> prop_inv M PV i p -> prop_inv M PV' i p.
Proof.
  intros Hsub [H1 H2 H3 H4 H5 H6 H7 H8 (q & Hq & HV)]. split; try done.
  - intros k inst Hk. destruct (H6 k inst Hk) as [(? & ?) ?]. split; [|done].
    split; [by eapply inst_inv_mono|done].
  - intros k inst Hk. destruct (H7 k inst Hk) as [(? & ?) ?]. split; [|done].
    split; [by eapply inst_inv_mono|done].
  - exists q. split; [done|]. eapply Forall_impl; [done|]. eauto using client_ok_mono.
Qed.

(** Resending an accept request adds no proposal. *)
Lemma prop_inv_resend M PV i p m :
  prop_inv M PV i p -> PAXOS_ACCEPT m ∈ M -> prop_inv (PAXOS_ACCEPT m :: M) PV i p.
Proof.
  intros [H1 H2 H3 H4 H5 H6 H7 H8 H9] Hin.
  assert (forall k b w, proposal (PAXOS_ACCEPT m :: M) k b w -> proposal M k b w) as Hback.
  { intros k b v [?|(m' & [= <-] & ?)]%proposal_cons; [done|]. by exists m. }
  split; try done.
  - intros k inst Hk. destruct (H6 k inst Hk) as [Hp ?]. split; [|done]. apply prep_inv_add; [done|].
    intros m' [= <-] Hk' Hb. destruct Hp as (_ & _ & Hown & _). eapply Hown; [by exists m|done].
  - intros k inst Hk. destruct (H7 k inst Hk) as [Hp ?]. split; [|done]. apply acc_inv_add; [done|].
    intros m' [= <-] Hk' Hb. destruct Hp as (_ & _ & Hown & _).
    apply Z.lt_succ_r. eapply Hown; [by exists m|done].
  - intros k b v Hp%Hback. by eapply H8.
Qed.

(** The proposer with new tables. *)
Lemma prop_inv_tables M PV i p p' m1 m2 :
  prop_inv M PV i p -> tables_to p p' m1 m2 ->
  (exists q, contents (values p') q /\ Forall (client_ok PV) q) ->
  (forall k inst, m1 !! k = Some inst -> prep_inv M PV i k inst /\ k <= next_prepare_iid p) ->
  (forall k inst, m2 !! k = Some inst -> acc_inv M PV i k inst /\ k <= next_prepare_iid p) ->
  prop_inv M PV i p'.
Proof.
  intros [H1 H2 H3 H4 H5 H6 H7 H8 H9] (E1 & E2 & _ & E4 & E5 & E6 & E7) Hq Hp Ha.
  split; try congruence; rewrite ?E4, ?E6, ?E7; done.
Qed.

Lemma forall_insert (P : Z -> instance -> Prop) (m : gmap Z instance) k inst :
  (forall k inst, m !! k = Some inst -> P k inst) -> P k inst ->
  forall k' inst', <[k := inst]> m !! k' = Some inst' -> P k' inst'.
Proof.
  intros Hm Hk k' inst'. destruct (decide (k = k')) as [<-|Hne].
  - rewrite lookup_insert_eq. by intros [= <-].
  - rewrite lookup_insert_ne by done. apply Hm.
Qed.

Lemma forall_delete (P : Z -> instance -> Prop) (m : gmap Z instance) k :
  (forall k inst, m !! k = Some inst -> P k inst) ->
  forall k' inst', delete k m !! k' = Some inst' -> P k' inst'.
Proof. intros Hm k' inst' [_ ?]%lookup_delete_Some. auto. Qed.

Lemma prop_inv_keys M PV i p : prop_inv M PV i p -> keys_ok (preparing p) /\ keys_ok (accepting p).
Proof.
  intros [_ _ _ _ _ H6 H7 _ _]. split.
  - intros k inst Hk. by destruct (H6 k inst Hk) as [([] & _) _].
  - intros k inst Hk. by destruct (H7 k inst Hk) as [([] & _) _].
Qed.

Lemma prepare_of_ok PV i k inst : inst_inv PV i k inst -> body_ok (prepare_of inst).
Proof.
  intros []. unfold body_ok, value_ok. simpl. pose proof (u16_range (inst_ballot inst)).
  subst. split_and!; lia.
Qed.

Lemma mod_range i : 0 <= i < MAX_N_OF_PROPOSERS -> (MAX_N_OF_PROPOSERS + i) mod MAX_N_OF_PROPOSERS = i.
Proof.
  intros. unfold MAX_N_OF_PROPOSERS in *. replace (10 + i) with (i + 1 * 10) by lia.
  rewrite Z.mod_add, Z.mod_small; lia.
Qed.

Lemma inst_inv_update PV i k inst inst' :
  inst_inv PV i k inst -> inst_iid inst' = inst_iid inst -> inst_ballot inst' = inst_ballot inst ->
  (forall v, inst_value inst' = Some v -> inst_value inst = Some v \/ client_ok PV v) ->
  quorum_ok (inst_quorum inst') -> Quorum.acceptors (inst_quorum inst') = n ->
  inst_inv PV i k inst'.
Proof. intros [] Hi Hb Hv Hq Hn. split; try congruence; try done. naive_solver. Qed.

(** No promise counted yet. *)
Lemma promises_inv_empty M k inst :
  members (inst_quorum inst) = ∅ -> inst_promised_value inst = None -> inst_value_ballot inst = 0 ->
  promises_inv M k inst.
Proof. intros Hm Hp Hv. exists (fun _ => zero_body). rewrite Hm. split; [set_solver|by left]. Qed.

Lemma cleared_quorum PV i k inst :
  inst_inv PV i k inst ->
  quorum_ok (quorum_clear (inst_quorum inst)) /\
  Quorum.acceptors (quorum_clear (inst_quorum inst)) = n /\
  members (quorum_clear (inst_quorum inst)) = ∅.
Proof.
  intros [? ? ? Hq ? ?]. destruct Hq as (? & ? & ? & ?). split; [by apply quorum_clear_ok|].
  split; [done|apply members_cleared].
Qed.

(** *** Steps *)

Lemma prepare_inv M PV i p now p' out :
  prop_inv M PV i p -> next_prepare_iid p < UINT32_MAX -> 0 <= n ->
  proposer_prepare p now = Some (p', out) ->
  prop_inv M PV i p' /\ body_ok out.
Proof.
  intros [H1 H2 H3 H4 H5 H6 H7 H8 H9] Hnext Hn Hrun. unfold UINT32_MAX in Hnext.
  apply prepare_effect in Hrun as (inst & Hinst & -> & Hno & E1 & E2 & E3 & E4 & E5 & E6 & E7); [|done].
  unfold MAX_N_OF_PROPOSERS in H2.
  assert (proposer_next_ballot p 0 = MAX_N_OF_PROPOSERS + i) as Hb.
  { unfold proposer_next_ballot, MAX_N_OF_PROPOSERS. simpl. rewrite H1. apply u32_small. lia. }
  rewrite (u32_small (next_prepare_iid p + 1)) in * by lia. rewrite Hb in Hinst. unfold instance_new in Hinst.
  destruct (0 <? next_prepare_iid p + 1); simpl in Hinst; [|done]. simplify_eq.
  set (inst := {| inst_iid := next_prepare_iid p + 1 |}) in *.
  assert (inst_inv PV (prop_id p) (next_prepare_iid p + 1) inst) as Hi.
  { split; simpl; try done; try lia; [by apply mod_range|apply quorum_init_ok; lia]. }
  split; [|by eapply prepare_of_ok]. split; try done; [congruence|lia|..].
  - rewrite E6, E4. apply forall_insert.
    + intros k inst' Hk. destruct (H6 k inst' Hk). split; [done|lia].
    + split; [|lia]. split; [done|]. unfold MAX_N_OF_PROPOSERS in *. split; [simpl; lia|]. split.
      * intros b w Hp Hmod. exfalso. eapply H8; [done|lia|done].
      * apply promises_inv_empty; [apply members_init|done|done].
  - rewrite E7, E4. intros k inst' Hk. destruct (H7 k inst' Hk). split; [done|lia].
  - rewrite E4. intros k b w Hp Hlt. eapply H8; [done|lia].
  - by rewrite E3.
Qed.

(** An instance that starts again with the next ballot. *)
Lemma preempt_inv M PV i p k inst now :
  prop_inv M PV i p -> inst_inv PV i k inst -> 0 < inst_ballot inst < 2 ^ 16 ->
  own_below M i k (inst_ballot inst + 1) ->
  prep_inv M PV i k (proposer_preempt p inst now).1 /\ body_ok (proposer_preempt p inst now).2.
Proof.
  intros Hp Hi Hb Hown. destruct (cleared_quorum _ _ _ _ Hi) as (Hq & Hn & Hm).
  assert (proposer_next_ballot p (inst_ballot inst) = inst_ballot inst + MAX_N_OF_PROPOSERS) as Hnext.
  { unfold proposer_next_ballot, MAX_N_OF_PROPOSERS. destruct (Z.ltb_spec 0 (inst_ballot inst)); [|lia].
    rewrite u32_small; lia. }
  assert (inst_inv PV i k (proposer_preempt p inst now).1) as Hi'.
  { destruct Hi. split; simpl; try done. rewrite Hnext. unfold MAX_N_OF_PROPOSERS in *.
    rewrite <- (Z.mul_1_l 10) at 1. by rewrite Z.mod_add. }
  split; [|by eapply prepare_of_ok]. split; [done|]. simpl. rewrite Hnext. unfold MAX_N_OF_PROPOSERS.
  split; [lia|]. split.
  - intros b w Hpr Hmod. specialize (Hown b w Hpr Hmod). lia.
  - by apply promises_inv_empty.
Qed.

Lemma own_below_weaken M i k B B' : own_below M i k B -> B <= B' -> own_below M i k B'.
Proof. intros Hown HB b w Hp Hm. specialize (Hown b w Hp Hm). lia. Qed.

(** The vote a counted promise reports is older than the ballot. *)
Lemma promise_value_ballot M PV i k inst ack :
  msgs_ok n M PV -> prep_inv M PV i k inst -> PAXOS_PROMISE ack ∈ M -> iid ack = k ->
  ballot ack = inst_ballot inst -> value_ballot ack < inst_ballot inst.
Proof.
  intros Hok (Hi & Hb & Hown & _) Hack Hk Hbal.
  destruct (mk_promise _ _ _ Hok _ Hack) as (_ & _ & Hle & Hvote & _).
  destruct (Z.le_gt_cases (value_ballot ack) 0); [lia|].
  destruct (decide (value_ballot ack = inst_ballot inst)) as [He|]; [|lia].
  destruct Hvote as [_ (m & Hm & _ & Hmk & Hmb & Hmv)]; [lia|].
  destruct (mk_accepted _ _ _ Hok _ Hm) as (_ & _ & _ & Hprop).
  rewrite Hmk, Hmb, Hk, He in Hprop. 
  pose proof (Hown _ _ Hprop (ii_mod _ _ _ _ Hi)). lia.
Qed.

(** Recording the value of a new promise keeps the highest ballot. *)
Lemma promises_inv_save M k inst q ack :
  promises_inv M k inst -> PAXOS_PROMISE ack ∈ M -> iid ack = k ->
  ballot ack = inst_ballot inst -> value_ballot ack < inst_ballot inst ->
  0 <= value_ballot ack -> value_ok (value ack) ->
  (0 < value_ballot ack -> 0 < paxos_value_len (value ack)) ->
  aid ack ∉ members (inst_quorum inst) -> members q = members (inst_quorum inst) ∪ {[aid ack]} ->
  promises_inv M k (save_promised_value (set_inst_quorum inst q) ack).
Proof.
  intros (f & Hf & Hv) Hack Hk Hbal Hvb Hvb0 Hval Hlen Hnew Hm.
  exists (fun a => if decide (a = aid ack) then ack else f a).
  assert (forall a, a ∈ members (inst_quorum inst) -> a <> aid ack) as Hne by set_solver.
  unfold save_promised_value. simpl.
  destruct (Z.ltb_spec 0 (paxos_value_len (value ack)));
    [destruct (Z.ltb_spec (inst_value_ballot inst) (value_ballot ack))|]; simpl; rewrite Hm.
  - split.
    + intros a [Ha|Ha]%elem_of_union.
      * rewrite decide_False by auto. destruct (Hf a Ha) as (? & ? & ? & ? & ? & ?). split_and!; try done. lia.
      * apply elem_of_singleton in Ha as ->. rewrite decide_True by done. by split_and!.
    + right. eexists (aid ack), _. split; [done|]. rewrite decide_True by done.
      destruct (paxos_value_new_copy (value ack) Hval) as (Hw & Hwl & Hwb). rewrite Hwl.
      split; [set_solver|]. split; [|done].
      destruct Hv as [[_ ?]|(? & ? & _ & _ & ? & _)]; lia.
  - assert (0 <= inst_value_ballot inst) as Hpos
      by (destruct Hv as [[_ ?]|(? & ? & _ & _ & ? & _)]; lia).
    split.
    + intros a [Ha|Ha]%elem_of_union.
      * rewrite decide_False by auto. by apply Hf.
      * apply elem_of_singleton in Ha as ->. rewrite decide_True by done. by split_and!.
    + destruct Hv as [?|(a & v & ? & Ha & ?)]; [by left|right]. exists a, v.
      rewrite decide_False by auto. split; [done|]. split; [set_solver|done].
  - assert (0 <= inst_value_ballot inst) as Hpos
      by (destruct Hv as [[_ ?]|(? & ? & _ & _ & ? & _)]; lia).
    split.
    + intros a [Ha|Ha]%elem_of_union.
      * rewrite decide_False by auto. by apply Hf.
      * apply elem_of_singleton in Ha as ->. rewrite decide_True by done. split_and!; try done. lia.
    + destruct Hv as [?|(a & v & ? & Ha & ?)]; [by left|right]. exists a, v.
      rewrite decide_False by auto. split; [done|]. split; [set_solver|done].
Qed.

Lemma save_promised_value_fields inst ack :
  let inst' := save_promised_value inst ack in
  inst_iid inst' = inst_iid inst /\ inst_ballot inst' = inst_ballot inst /\
  inst_value inst' = inst_value inst /\ inst_quorum inst' = inst_quorum inst.
Proof.
  unfold save_promised_value. destruct (0 <? _); [|done]. by destruct (inst_value_ballot _ <? _).
Qed.

Lemma promise_counted_inv M PV i k inst ack added q :
  msgs_ok n M PV -> prep_inv M PV i k inst -> PAXOS_PROMISE ack ∈ M -> iid ack = k ->
  ballot ack = inst_ballot inst ->
  quorum_add (inst_quorum inst) (aid ack) = Some (added, q) ->
  prep_inv M PV i k (if added : bool then save_promised_value (set_inst_quorum inst q) ack
                     else set_inst_quorum inst q).
Proof.
  intros Hok Hp Hack Hk Hbal Hadd.
  pose proof (promise_value_ballot _ _ _ _ _ _ Hok Hp Hack Hk Hbal) as Hvb.
  destruct (mk_promise _ _ _ Hok _ Hack) as ((_ & _ & Hvb16 & _ & Hval) & Ha & _ & Hvote & _).
  destruct Hp as (Hi & Hb & Hown & Hpr). pose proof Hi as [_ _ _ Hq Hn _].
  destruct (quorum_add_spec _ (aid ack) Hq) as (added' & q' & Hadd' & Hq' & Hm & Hn' & Hnew); [lia|].
  rewrite Hadd in Hadd'. simplify_eq.
  destruct (bool_decide (aid ack ∈ members (inst_quorum inst))) eqn:Hin; simpl.
  - apply bool_decide_eq_true in Hin.
    split; [apply (inst_inv_update _ _ _ inst); simpl; auto; congruence|].
    split; [done|]. split; [done|]. destruct Hpr as (f & Hf & Hv).
    exists f. simpl. replace (members q') with (members (inst_quorum inst)) by set_solver. done.
  - apply bool_decide_eq_false in Hin.
    destruct (save_promised_value_fields (set_inst_quorum inst q') ack) as (E1 & E2 & E3 & E4).
    simpl in *. split; [|rewrite E2; split; [done|]; split; [done|]].
    + apply (inst_inv_update _ _ _ inst); rewrite ?E3, ?E4; auto; congruence.
    + apply promises_inv_save; try done; [lia|naive_solver].
Qed.

Lemma receive_promise_inv M PV i p ack now ret p' out :
  msgs_ok n M PV -> prop_inv M PV i p -> PAXOS_PROMISE ack ∈ M ->
  proposer_receive_promise p ack now = Some (ret, p', out) ->
  prop_inv M PV i p' /\ forall m, out = Some m -> body_ok m.
Proof.
  intros Hok Hp Hack Hrun. destruct (mk_promise _ _ _ Hok _ Hack) as ((Hi & Hb16 & _) & _).
  pose proof (receive_promise_values _ _ _ _ _ _ Hrun) as Hvs.
  apply receive_promise_effect in Hrun as [(_ & -> & ->)|(inst & Hk & Hcase)];
    [done| |by destruct Hp|done].
  destruct (pi_prep _ _ _ _ Hp _ _ Hk) as [Hpi Hle].
  assert (forall inst', prep_inv M PV i (iid ack) inst' ->
    tables_to p p' (<[iid ack := inst']> (preparing p)) (accepting p) -> prop_inv M PV i p') as Hset.
  { intros inst' Hi' Htab. eapply prop_inv_tables; [done|done|by rewrite Hvs; destruct Hp| |by destruct Hp].
    apply forall_insert; [by destruct Hp|done]. }
  destruct Hcase as [(Hlt & _ & -> & Htab)|(Heq & _ & -> & added & q & Hadd & Htab)].
  - pose proof Hpi as (Hii & Hb & Hown & _).
    destruct (preempt_inv M PV i p (iid ack) inst now Hp Hii) as [Hprep Hbody];
      [lia|eapply own_below_weaken; [done|lia]|].
    split; [by eapply Hset|]. by intros m [= <-].
  - split; [|done]. eapply Hset; [|done]. by eapply promise_counted_inv.
Qed.

(** A quorum of promises makes its value safe to propose. *)
Lemma promises_safe M PV i k inst m :
  0 <= n -> msgs_ok n M PV -> prep_inv M PV i k inst -> quorum_reached (inst_quorum inst) = true ->
  instance_to_accept inst = Some m ->
  inst_ballot inst < 2 ^ 16 /\ iid m = k /\ ballot m = inst_ballot inst /\
  accept_msg_ok n M PV m.
Proof.
  intros Hn Hok (Hi & Hb & _ & f & Hf & Hv) Hreach Hm. pose proof Hi as [Hk Hk32 _ Hq Hqn Hval].
  apply quorum_reached_iff in Hreach; [|done]. rewrite Hqn in Hreach.
  destruct (majority_nonempty n _ Hn Hreach) as [a0 Ha0].
  assert (inst_ballot inst < 2 ^ 16) as Hb16.
  { destruct (Hf a0 Ha0) as (Hp & _ & _ & <- & _).
    destruct (mk_promise _ _ _ Hok _ Hp) as ((_ & ? & _) & _). lia. }
  assert (exists v, m = {| iid := k; ballot := inst_ballot inst; value_ballot := inst_ballot inst;
      aid := 0; value := v |} /\ value_ok v /\ 0 < paxos_value_len v /\ value_bytes v ∈ PV /\
    safe_at n M k (inst_ballot inst) (value_bytes v)) as (v & -> & Hvok & Hlen & HPV & Hsafe).
  { unfold instance_to_accept, instance_has_promised_value in Hm.
    destruct Hv as [[Hnone Hvb0]|(a & v & Hsome & Ha & Hpos & Hvb & Hvok & Hlen & Hbytes)].
    - rewrite Hnone in Hm. destruct (inst_value inst) as [v|]; simpl in Hm; [|done]. simplify_eq.
      destruct (Hval v eq_refl) as (? & ? & ?). exists v. rewrite u16_small by lia.
      split; [by destruct v|]. do 3 (split; [done|]). exists (members (inst_quorum inst)), f.
      split; [done|]. split; [naive_solver|]. left. intros a Ha. destruct (Hf a Ha) as (_ & _ & _ & _ & _ & ?). lia.
    - rewrite Hsome in Hm. simpl in Hm. simplify_eq. exists v. rewrite u16_small by lia.
      split; [by destruct v|]. do 2 (split; [done|]). destruct (Hf a Ha) as (Hp & _ & Hpk & _).
      destruct (mk_promise _ _ _ Hok _ Hp) as (_ & _ & _ & Hvote & _).
      destruct Hvote as [_ (m & Hm & _ & Hmk & Hmb & Hmv)]; [lia|].
      destruct (mk_accepted _ _ _ Hok _ Hm) as (_ & _ & _ & (m' & Hm' & _ & _ & Hmv')).
      destruct (mk_accept _ _ _ Hok _ Hm') as (_ & _ & _ & HPV & _).
      split; [congruence|]. exists (members (inst_quorum inst)), f.
      split; [done|]. split; [naive_solver|]. right. exists a. split; [done|].
      split; [lia|]. split; [done|]. intros a' Ha'. destruct (Hf a' Ha') as (_ & _ & _ & _ & _ & ?). lia. }
  do 3 (split; [done|]). split; [|by split_and!; try done; simpl; lia].
  split_and!; simpl; try done; try lia; apply Hvok.
Qed.

(** The instance with the value it takes from the queue. *)
Lemma take_value_inv M PV i k inst q inst' q' :
  prep_inv M PV i k inst -> Forall (client_ok PV) q -> take_value inst q = (inst', q') ->
  prep_inv M PV i k inst' /\ inst_iid inst' = inst_iid inst /\ inst_ballot inst' = inst_ballot inst /\
  inst_quorum inst' = inst_quorum inst /\ Forall (client_ok PV) q'.
Proof.
  intros (Hi & Hb & Hown & Hpr) Hq Htake. unfold take_value in Htake.
  destruct (instance_has_value inst); simplify_eq; [done|]. split; [|split_and!; try done].
  - split; [|done]. destruct Hi. split; simpl; try done. intros v Hv. destruct q; simpl in Hv; simplify_eq.
    by apply Forall_cons in Hq as [? _].
  - destruct q; [done|]. by apply Forall_cons in Hq as [_ ?].
Qed.

Lemma accept_inv M PV i p ret p' out :
  0 <= n -> msgs_ok n M PV -> prop_inv M PV i p -> proposer_accept p = Some (ret, p', out) ->
  prop_inv (send (PAXOS_ACCEPT <$> out) M) PV i p' /\
  forall m, out = Some m -> new_ok n M PV (PAXOS_ACCEPT m) /\ ballot m mod MAX_N_OF_PROPOSERS = i.
Proof.
  intros Hn Hok Hp Hrun. pose proof (prop_inv_keys _ _ _ _ Hp) as [Hkp _].
  destruct (pi_queue _ _ _ _ Hp) as (q & Hq & HV).
  apply (accept_effect p q) in Hrun as [(_ & -> & Htab & Hq')|Hrun]; [| |by destruct Hp|done|done].
  { split; [|done]. eapply prop_inv_tables; [done|done|by eauto|by destruct Hp|by destruct Hp]. }
  destruct Hrun as (inst & inst' & q' & m & _ & Hk & _ & Hreach & Htake & Hm & -> & Hq' & Hno & Htab).
  destruct (pi_prep _ _ _ _ Hp _ _ Hk) as [Hpi Hle].
  destruct (take_value_inv _ _ _ _ _ _ _ _ Hpi HV Htake) as (Hpi' & Hi' & Hb' & Hq2 & HV').
  rewrite <- Hq2 in Hreach.
  destruct (promises_safe M PV i _ inst' m Hn Hok Hpi' Hreach Hm) as (Hb16 & Hmk & Hmb & Hmok).
  pose proof Hpi' as (Hii' & Hbr & Hown & _). pose proof (ii_mod _ _ _ _ Hii') as Hmod.
  rewrite <- Hmb in Hmod. simpl. split.
  - destruct Hp as [H1 H2 H3 H4 H5 H6 H7 H8 H9], Htab as (E1 & E2 & _ & E4 & E5 & E6 & E7).
    split; try congruence; rewrite ?E4, ?E6, ?E7; try done.
    + intros k inst0 [Hne Hk0]%lookup_delete_Some. destruct (H6 k inst0 Hk0). split; [|done].
      apply prep_inv_add; [done|]. intros m' [= <-] ?. congruence.
    + apply (forall_insert (fun k inst => acc_inv (PAXOS_ACCEPT m :: M) PV i k inst /\ k <= next_prepare_iid p)).
      * intros k inst0 Hk0. destruct (H7 k inst0 Hk0). split; [|done].
        apply acc_inv_add; [done|]. intros m' [= <-] ?. congruence.
      * split; [|done]. destruct (cleared_quorum _ _ _ _ Hii') as (Hcq & Hcn & _). rewrite Hq2 in Hcq, Hcn.
        split; [apply (inst_inv_update _ _ _ inst'); simpl; auto|]. simpl. split; [lia|]. split.
        -- apply own_below_add; [eapply own_below_weaken; [done|lia]|]. intros m' [= <-] _ _. lia.
        -- exists m. split; [done|by left].
    + intros k b w [Hpr|(m' & [= <-] & Hk' & <- & _)]%proposal_cons Hlt; [by eapply H8|]. exfalso. lia.
    + eauto.
  - intros m' [= <-]. split; [|done]. split; [done|]. intros w Hw. exfalso. rewrite Hmk in Hw.
    specialize (Hown _ _ Hw Hmod). lia.
Qed.

(** Changes of the quorum and of the time stamp keep the invariant of phase 2. *)
Lemma acc_inv_update M PV i k inst inst' :
  acc_inv M PV i k inst -> inst_iid inst' = inst_iid inst -> inst_ballot inst' = inst_ballot inst ->
  inst_value inst' = inst_value inst -> inst_promised_value inst' = inst_promised_value inst ->
  quorum_ok (inst_quorum inst') -> Quorum.acceptors (inst_quorum inst') = n ->
  acc_inv M PV i k inst'.
Proof.
  intros (Hi & Hb & Hown & m & Hm & Hin) E1 E2 E3 E4 Hq Hqn. rewrite <- E2 in Hb, Hown.
  split; [|split; [done|split; [done|]]].
  - apply (inst_inv_update _ _ _ inst); try done. rewrite E3. auto.
  - exists m. split; [|done]. rewrite <- Hm. unfold instance_to_accept, instance_has_promised_value.
    by rewrite E1, E2, E3, E4.
Qed.

Lemma receive_accepted_inv M PV i p ack ret p' :
  msgs_ok n M PV -> prop_inv M PV i p -> PAXOS_ACCEPTED ack ∈ M ->
  proposer_receive_accepted p ack = Some (ret, p') -> prop_inv M PV i p'.
Proof.
  intros Hok Hp Hack Hrun. destruct (mk_accepted _ _ _ Hok _ Hack) as ((Hi & _) & Ha & _).
  destruct (pi_queue _ _ _ _ Hp) as (q & Hq & HV).
  apply (receive_accepted_effect p q) in Hrun as [(_ & ->)|Hrun]; [done| |by destruct Hp|done|done].
  destruct Hrun as (inst & added & qr & Hk & Hb & Hadd & Hcase).
  destruct (pi_acc _ _ _ _ Hp _ _ Hk) as [Hai Hle]. pose proof Hai as ([_ _ _ Hqo Hqn Hval] & _).
  destruct Hcase as [(_ & _ & Hvs & Htab)|(_ & _ & Htab & Hq')].
  - destruct (quorum_add_spec _ (aid ack) Hqo) as (added' & q2 & Hadd' & Hq2 & _ & Hn2 & _); [lia|].
    rewrite Hadd in Hadd'. injection Hadd' as <- <-.
    eapply prop_inv_tables; [done|done|by rewrite Hvs; eauto|by destruct Hp|].
    apply (forall_insert (fun k inst => acc_inv M PV i k inst /\ k <= next_prepare_iid p)); [by destruct Hp|].
    split; [|done]. apply (acc_inv_update _ _ _ _ inst); simpl; try done. congruence.
  - eapply prop_inv_tables; [done|done| |by destruct Hp|].
    + destruct Hq' as [?|(v & Hv & ?)]; [by eauto|]. eexists. split; [done|].
      apply Forall_app. split; [done|]. apply Forall_singleton. auto.
    + apply (forall_delete (fun k inst => acc_inv M PV i k inst /\ k <= next_prepare_iid p)). by destruct Hp.
Qed.

Lemma receive_preempted_inv M PV i p ack now ret p' out :
  msgs_ok n M PV -> prop_inv M PV i p -> PAXOS_PREEMPTED ack ∈ M ->
  proposer_receive_preempted p ack now = Some (ret, p', out) ->
  prop_inv M PV i p' /\ forall m, out = Some m -> body_ok m.
Proof.
  intros Hok Hp Hack Hrun. destruct (mk_preempted _ _ _ Hok _ Hack) as (Hi & _).
  pose proof (prop_inv_keys _ _ _ _ Hp) as [_ Hka].
  apply receive_preempted_effect in Hrun as [(_ & -> & ->)|Hrun]; [done| |by destruct Hp|done|done].
  destruct Hrun as (inst & _ & Hk & Hb & _ & -> & Hvs & Htab).
  destruct (pi_acc _ _ _ _ Hp _ _ Hk) as [Hai Hle]. pose proof Hai as (Hii & Hbr & Hown & _).
  destruct (cleared_quorum _ _ _ _ Hii) as (Hcq & Hcn & _).
  set (inst1 := set_inst_quorum inst _) in *.
  assert (inst_inv PV i (iid ack) inst1) as Hi1
    by (apply (inst_inv_update _ _ _ inst); simpl; auto).
  destruct (preempt_inv M PV i p (iid ack) inst1 now Hp Hi1 Hbr Hown) as [Hprep Hbody].
  split; [|by intros m [= <-]].
  eapply prop_inv_tables; [done|done|by rewrite Hvs; destruct Hp| |].
  - apply (forall_insert (fun k inst => prep_inv M PV i k inst /\ k <= next_prepare_iid p)); [by destruct Hp|done].
  - apply (forall_delete (fun k inst => acc_inv M PV i k inst /\ k <= next_prepare_iid p)). by destruct Hp.
Qed.

Lemma set_instance_id_inv M PV i p id p' :
  prop_inv M PV i p -> is_u32 id -> proposer_set_instance_id p id = Some p' -> prop_inv M PV i p'.
Proof.
  intros Hp Hid Hrun. pose proof (prop_inv_keys _ _ _ _ Hp) as [Hkp Hka].
  destruct (pi_queue _ _ _ _ Hp) as (q & Hq & HV). pose proof Hp as [H1 H2 H3 H4 H5 H6 H7 H8 _].
  apply (set_instance_id_effect p id q (client_ok PV)) in Hrun as [->|Hrun]; try done.
  - destruct Hrun as (Hlt & E1 & E2 & E3 & E4 & E5 & E6 & Hq').
    split; try congruence; rewrite ?E3, ?E5, ?E6; try done.
    + intros k inst [Hk Hk']%map_lookup_filter_Some. destruct (H6 k inst Hk). simpl in Hk'. lia.
    + intros k inst [Hk Hk']%map_lookup_filter_Some. destruct (H7 k inst Hk). simpl in Hk'. lia.
    + intros k b w Hpr Hk. eapply H8; [done|lia].
  - intros k inst v Hk. destruct (H6 k inst Hk) as [([_ _ _ _ _ Hval] & _) _]. apply Hval.
  - intros k inst v Hk. destruct (H7 k inst Hk) as [([_ _ _ _ _ Hval] & _) _]. apply Hval.
Qed.

Lemma acceptor_state_inv M PV i p st p' :
  prop_inv M PV i p -> is_u32 (state_trim_iid st) ->
  proposer_receive_acceptor_state p st = Some p' -> prop_inv M PV i p'.
Proof.
  intros Hp Hst. unfold proposer_receive_acceptor_state.
  destruct (_ <? _); [|by intros [= <-]]. apply set_instance_id_inv; [|done].
  destruct Hp. by split.
Qed.

Lemma timeout_prepare_inv M PV i p to iter iter' p' out :
  prop_inv M PV i p -> timeout_iterator_prepare to iter p = (iter', p', out) ->
  prop_inv M PV i p' /\ forall m, out = Some m -> body_ok m.
Proof.
  intros Hp Hrun. apply timeout_prepare_effect in Hrun as [(-> & ->)|Hrun]; [done| |by destruct Hp].
  destruct Hrun as (k & inst & Hk & -> & Hvs & Htab). destruct (pi_prep _ _ _ _ Hp _ _ Hk) as [Hpi Hle].
  pose proof Hpi as (Hi & Hb & Hown & Hpr).
  split; [|intros m [= <-]; by eapply prepare_of_ok].
  eapply prop_inv_tables; [done|done|by rewrite Hvs; destruct Hp| |by destruct Hp].
  apply (forall_insert (fun k inst => prep_inv M PV i k inst /\ k <= next_prepare_iid p)); [by destruct Hp|].
  split; [|done]. split; [|done]. destruct Hi. by split.
Qed.

Lemma timeout_accept_inv M PV i p to iter iter' p' out :
  msgs_ok n M PV -> prop_inv M PV i p -> timeout_iterator_accept to iter p = Some (iter', p', out) ->
  prop_inv (send (PAXOS_ACCEPT <$> out) M) PV i p' /\
  forall m, out = Some m -> new_ok n M PV (PAXOS_ACCEPT m) /\ ballot m mod MAX_N_OF_PROPOSERS = i.
Proof.
  intros Hok Hp Hrun. apply timeout_accept_effect in Hrun as [(-> & ->)|Hrun]; [done| |by destruct Hp].
  destruct Hrun as (k & inst & Hk & -> & _ & Hvs & Htab). destruct (pi_acc _ _ _ _ Hp _ _ Hk) as [Hai Hle].
  pose proof Hai as (Hi & Hb & Hown & m & Hm & Hin). rewrite Hm. simpl. split.
  - apply prop_inv_resend; [|done].
    eapply prop_inv_tables; [done|done|by rewrite Hvs; destruct Hp|by destruct Hp|].
    apply (forall_insert (fun k inst => acc_inv M PV i k inst /\ k <= next_prepare_iid p)); [by destruct Hp|].
    split; [|done]. destruct Hi. by apply (acc_inv_update _ _ _ _ inst).
  - intros m' [= <-]. split; [split|].
    + by apply (mk_accept _ _ _ Hok).
    + intros w Hw. eapply (mk_unique _ _ _ Hok); [done|]. by exists m.
    + unfold instance_to_accept in Hm. destruct (if _ : bool then _ else _); simpl in Hm; [|done].
      simplify_eq. simpl. rewrite u16_small by lia. by destruct Hi.
Qed.

Lemma propose_inv M PV i p (v : list byte) size p' :
  prop_inv M PV i p -> 0 < size < 2 ^ 31 -> size <= Z.of_nat (length v) ->
  proposer_propose p v size = Some p' -> prop_inv M (take (Z.to_nat size) v :: PV) i p'.
Proof.
  intros Hp Hsz Hlen Hrun. unfold proposer_propose in Hrun.
  destruct (carray_push_back _ _) as [vs|] eqn:Hpush; simpl in Hrun; [|done]. simplify_eq.
  apply (prop_inv_mono _ _ (take (Z.to_nat size) v :: PV)) in Hp; [|set_solver].
  destruct Hp as [H1 H2 H3 H4 H5 H6 H7 H8 (q & Hq & HV)]. split; try done.
  eexists. split; [by eapply push_back_inv|]. apply Forall_app. split; [done|]. apply Forall_singleton.
  split; [|split].
  - unfold value_ok. simpl. rewrite i32_small, length_take by lia. lia.
  - simpl. rewrite i32_small; lia.
  - rewrite value_bytes_new by lia. set_solver.
Qed.

(** Every step of a proposer keeps its invariant and sends a good message. *)
Lemma prop_step_inv M PV i p p' o :
  0 <= n -> msgs_ok n M PV -> prop_inv M PV i p -> prop_step M p p' o ->
  prop_inv (send o M) PV i p' /\ forall m, o = Some m -> new_ok n M PV m /\ from_proposer i m.
Proof.
  intros Hn Hok Hp Hstep.
  assert (forall p1 out, prop_inv M PV i p1 -> (forall m, out = Some m -> body_ok m) ->
    prop_inv (send (PAXOS_PREPARE <$> out) M) PV i p1 /\
    forall m, PAXOS_PREPARE <$> out = Some m -> new_ok n M PV m /\ from_proposer i m) as Hprep.
  { intros p1 [m|] Hp1 Hb; simpl; [|done]. split; [by apply prop_inv_other|]. intros m' [= <-]. split; [by apply Hb|done]. }
  assert (forall out, (forall m, out = Some m -> new_ok n M PV (PAXOS_ACCEPT m) /\
      ballot m mod MAX_N_OF_PROPOSERS = i) ->
    forall m, PAXOS_ACCEPT <$> out = Some m -> new_ok n M PV m /\ from_proposer i m) as Hacc.
  { intros [m|] Hm m' Heq; simplify_eq/=. by apply Hm. }
  destruct Hstep as [now p' out Hnext Hrun|ack now ret p' out Hack Hrun|ret p' out Hrun|
    ack ret p' Hack Hrun|ack now ret p' out Hack Hrun|st p' Hst Hrun|to iter iter' p' out Hrun|
    to iter iter' p' out Hrun].
  - destruct (prepare_inv _ _ _ _ _ _ _ Hp Hnext Hn Hrun) as [Hp' Hb].
    apply (Hprep p' (Some out) Hp'). by intros m [= <-].
  - destruct (receive_promise_inv _ _ _ _ _ _ _ _ _ Hok Hp Hack Hrun). by apply Hprep.
  - destruct (accept_inv _ _ _ _ _ _ _ Hn Hok Hp Hrun). split; [done|]. by apply Hacc.
  - split; [by eapply receive_accepted_inv|done].
  - destruct (receive_preempted_inv _ _ _ _ _ _ _ _ _ Hok Hp Hack Hrun). by apply Hprep.
  - split; [by eapply acceptor_state_inv|done].
  - destruct (timeout_prepare_inv _ _ _ _ _ _ _ _ _ Hp Hrun). by apply Hprep.
  - destruct (timeout_accept_inv _ _ _ _ _ _ _ _ _ Hok Hp Hrun). split; [done|]. by apply Hacc.
Qed.
End proposer_inv.
