(* ===== verification/ConsensusInv.v ===== *)
(** * Consensus: agreement and validity

    The invariant of the whole network, its preservation by every step of
    [Consensus.v], and the theorems on reachable states. *)

From S2P Require Import Prelude PaxosTypes KhashInterface KhashResize Quorum Storage Acceptor.
From S2P Require Import Carray Proposer Learner Consensus AcceptorInv ProposerInv.

Section invariant.
Context `{SL : StorageLaws H} `{KH : KHash T} (n : Z).
Implicit Types (M : list paxos_message) (s : net H T).

(** Instances learner [j] delivered, newest first. *)
Definition deliveries (j : Z) (D : list (Z * Z * list byte)) : list Z :=
  omap (fun d => if decide (d.1.1 = j) then Some d.1.2 else None) D.

(** Newest first, every instance is the successor of the one before. *)
Fixpoint consecutive (l : list Z) : Prop :=
  match l with
  | [] => True
  | x :: l' => match l' with [] => True | y :: _ => x = y + 1 end /\ consecutive l'
  end.

(** A learner knows accepted messages that were sent, and delivers in order. *)
Record lrn_inv M (D : list (Z * Z * list byte)) (j : Z) (l : learner T) : Prop := {
  li_ok : learner_ok (fun ack => PAXOS_ACCEPTED ack ∈ M) l;
  li_n : lrn_acceptors l = n;
  li_late : late_start l = true -> kh_map (instances l) = ∅ /\ deliveries j D = [];
  li_order : consecutive (deliveries j D);
  li_next k ks : deliveries j D = k :: ks -> current_iid l = u32 (k + 1) /\ 0 < k < 2 ^ 32;
}.

Record inv s : Prop := {
  i_n : 0 <= n < 2 ^ 16;
  i_msgs : msgs_ok n (sent s) (proposed s);
  i_accs a acc : accs s !! a = Some acc -> acceptor_inv n (sent s) a acc;
  i_props i p : props s !! i = Some p -> prop_inv n (sent s) (proposed s) i p;
  i_lrns j l : lrns s !! j = Some l -> lrn_inv (sent s) (delivered s) j l;
  i_delivered j k v : (j, k, v) ∈ delivered s -> chosen n (sent s) k v;
}.

(** *** Learners *)

Lemma record_dup m : record_ok m -> paxos_accepted_dup m = m.
Proof.
  destruct m as [i b vb a [len [l|]]]; intros (_ & _ & _ & _ & Hv); [|done].
  unfold paxos_accepted_dup, set_value, paxos_value_copy. simpl in *. destruct Hv as [_ [Hlen _]].
  simpl in Hlen. by rewrite take_ge by lia.
Qed.

Lemma lrn_inv_mono M M' D j l : M ⊆ M' -> lrn_inv M D j l -> lrn_inv M' D j l.
Proof.
  intros Hsub [H1 H2 H3 H4 H5]. split; try done.
  eapply learner_ok_mono; [|done]. intros ack Hack. by apply Hsub.
Qed.

Lemma accepted_inv M PV D j l ack l' :
  msgs_ok n M PV -> lrn_inv M D j l -> PAXOS_ACCEPTED ack ∈ M ->
  learner_receive_accepted l ack = Some l' -> lrn_inv M D j l'.
Proof.
  intros Hok [H1 H2 H3 H4 H5] Hack Hrun.
  destruct (mk_accepted _ _ _ Hok _ Hack) as (Hrec & _).
  assert (body_ok ack) as Hbody.
  { destruct Hrec as (? & ? & ? & ? & ?). do 4 (split; [done|]). by apply value_exact_ok. }
  pose proof (receive_accepted_late _ _ _ Hrun) as Hlate.
  eapply receive_accepted_ok in Hrun as (Hok' & Hn' & Hc'); [|done|done|by rewrite record_dup].
  split; try done; [congruence|congruence|].
  intros k ks Hd. rewrite Hc'. destruct (late_start l) eqn:Hl; [|by eapply H5].
  destruct (H3 eq_refl) as [_ Hnil]. congruence.
Qed.

(** A closed instance is chosen. *)
Lemma closed_chosen M PV k f Q :
  0 <= n -> msgs_ok n M PV -> PAXOS_ACCEPTED f ∈ M -> iid f = k -> majority n Q ->
  (forall a, a ∈ Q -> exists ack, PAXOS_ACCEPTED ack ∈ M /\ aid ack = a /\ iid ack = k /\
     ballot ack = ballot f) ->
  chosen n M k (bytes f).
Proof.
  intros Hn Hok Hf Hk HQ Hacks. exists (ballot f), Q. split; [done|]. intros a Ha.
  destruct (Hacks a Ha) as (ack & Hack & Haa & Hka & Hb). exists ack. do 4 (split; [done|]).
  destruct (mk_accepted _ _ _ Hok _ Hack) as (_ & _ & _ & Hp).
  destruct (mk_accepted _ _ _ Hok _ Hf) as (_ & _ & _ & Hp').
  rewrite Hka, Hb in Hp. rewrite Hk in Hp'. by eapply (mk_unique _ _ _ Hok).
Qed.

Lemma deliveries_other j j' o D : j <> j' -> deliveries j (deliver j' o D) = deliveries j D.
Proof. intros Hne. destruct o as [m|]; [|done]. simpl. by rewrite decide_False by (simpl; congruence). Qed.

Lemma deliver_inv M PV D j l freed ret l' out :
  0 <= n -> msgs_ok n M PV -> lrn_inv M D j l -> is_u32 freed ->
  learner_deliver_next l freed = Some (ret, l', out) ->
  lrn_inv M (deliver j out D) j l' /\
  forall m, out = Some m -> chosen n M (iid m) (bytes m).
Proof.
  intros Hn Hok [H1 H2 H3 H4 H5] Hfr Hrun.
  pose proof (deliver_next_late _ _ _ _ _ Hrun) as [Hlate Hempty].
  pose proof H1 as (_ & Hc & _ & Hwf & _).
  pose proof (deliver_next_spec _ _ _ _ _ _ H1 Hfr Hrun) as (Hok' & Hn' & Hcase).
  assert (late_start l' = true -> kh_map (instances l') = ∅ /\ deliveries j (deliver j out D) = []) as Hl'.
  { rewrite Hlate. intros Hl. destruct (H3 Hl) as [Hm Hd]. by destruct (Hempty Hwf Hc Hm) as [-> ->]. }
  destruct Hcase as [(_ & -> & Hc')|(_ & Hc' & f & Q & -> & Hk & Hf & HQ & HQ')].
  - split; [|done]. split; try done; [congruence|]. intros k ks Hd. rewrite Hc'. by eapply H5.
  - destruct (mk_accepted _ _ _ Hok _ Hf) as (Hrec & _ & Hpos & _). rewrite record_dup by done.
    rewrite record_dup in Hl' by done. rewrite H2 in HQ. split.
    + split; try done; [congruence| |]; simpl; rewrite decide_True by done; rewrite Hk.
      * split; [|done]. destruct (deliveries j D) as [|y ys] eqn:Hd; [done|].
        destruct (H5 y ys eq_refl) as [Hcy Hy]. destruct (decide (y + 1 = 2 ^ 32)) as [He|Hne].
        -- rewrite He in Hcy. change (u32 (2 ^ 32)) with 0 in Hcy. lia.
        -- rewrite u32_small in Hcy by lia. done.
      * intros k ks [= <- _]. split; [done|lia].
    + intros m [= <-]. rewrite Hk. eapply closed_chosen; [done|done|done|done|done|].
      intros a Ha. destruct (HQ' a Ha) as (ack & ? & ? & ? & ?). eauto.
Qed.

(** *** Preservation *)

Lemma init_inv s : init n s -> inv s.
Proof.
  intros [Hn Ha Hp Hl Hsent Hprop Hdel]. split; rewrite ?Hsent, ?Hprop, ?Hdel.
  - done.
  - split; try (intros m Hm; by apply elem_of_nil in Hm).
    intros k b v v' (m & Hm & _). by apply elem_of_nil in Hm.
  - intros a acc Hacc. destruct (Ha a acc Hacc) as (Har & Hid & Hok). split; [done|]. split; [done|].
    exists ∅, 0. split; [done|]. split; [intros m Hm; by apply elem_of_nil in Hm..|done].
  - intros i p Hi. destruct (Hp i p Hi) as [Hir Hnew]. unfold proposer_new in Hnew.
    destruct (carray_new_contents (A:=paxos_value) 128) as (vs & Hvs & Hc & _); [done|].
    rewrite Hvs in Hnew. simpl in Hnew. simplify_eq.
    split; simpl; try done.
    + split; apply kh_init_wf.
    + intros k inst. unfold preparing. simpl. by rewrite kh_map_init.
    + intros k inst. unfold accepting. simpl. by rewrite kh_map_init.
    + intros k b w (m & Hm & _). by apply elem_of_nil in Hm.
    + exists []. done.
  - intros j l Hj. destruct (Hl j l Hj) as [c ->]. split; try done; [apply learner_new_ok; lia|].
    intros _. split; [apply kh_map_init|done].
  - intros j k v Hd. by apply elem_of_nil in Hd.
Qed.

Lemma send_sub o M : M ⊆ send o M.
Proof. destruct o; [apply sub_cons|done]. Qed.

Lemma chosen_send o M k v : chosen n M k v -> chosen n (send o M) k v.
Proof. apply chosen_mono, send_sub. Qed.

Lemma msgs_ok_send M PV o :
  msgs_ok n M PV -> (forall m, o = Some m -> new_ok n M PV m) -> msgs_ok n (send o M) PV.
Proof. intros Hok Hnew. destruct o as [m|]; [|done]. apply msgs_ok_add; auto. Qed.

Lemma msgs_ok_proposed M PV v : msgs_ok n M PV -> msgs_ok n M (v :: PV).
Proof.
  intros [H1 H2 H3 H4 H5 H6]. split; try done. intros m Hm. destruct (H3 m Hm) as (? & ? & ? & ? & ?).
  do 3 (split; [done|]). split; [by right|done].
Qed.

Lemma step_prop_inv s i p p' o :
  inv s -> props s !! i = Some p -> prop_step (sent s) p p' o ->
  inv {| accs := accs s; props := <[i := p']> (props s); lrns := lrns s;
         sent := send o (sent s); proposed := proposed s; delivered := delivered s |}.
Proof.
  intros [H1 H2 H3 H4 H5 H6] Hp Hstep.
  destruct (prop_step_inv n _ _ _ _ _ _ ltac:(lia) H2 (H4 i p Hp) Hstep) as [Hp' Hnew].
  split; simpl; try done.
  - apply msgs_ok_send; [done|]. naive_solver.
  - intros a acc Ha. specialize (H3 a acc Ha). destruct o as [m|]; [|done]. simpl.
    apply acceptor_inv_other; [done|]. destruct (Hnew m eq_refl) as [_ Hfrom]. by destruct m.
  - intros i' q. destruct (decide (i = i')) as [<-|Hne].
    + rewrite lookup_insert_eq. by intros [= <-].
    + rewrite lookup_insert_ne by done. intros Hq. specialize (H4 i' q Hq). destruct o as [m|]; [|done].
      apply prop_inv_other; [done|]. destruct (Hnew m eq_refl) as [_ Hfrom]. destruct m; try done.
      simpl in *. congruence.
  - intros j l Hj. eapply lrn_inv_mono; [apply send_sub|]. auto.
  - intros j k v Hd. apply chosen_send. eauto.
Qed.

Lemma step_acc_inv s a acc acc' o :
  inv s -> accs s !! a = Some acc -> acc_step (sent s) acc acc' o ->
  inv {| accs := <[a := acc']> (accs s); props := props s; lrns := lrns s;
         sent := send o (sent s); proposed := proposed s; delivered := delivered s |}.
Proof.
  intros [H1 H2 H3 H4 H5 H6] Ha Hstep.
  destruct (acc_step_inv n _ _ _ _ _ _ H2 (H3 a acc Ha) Hstep) as [Ha' Hnew].
  split; simpl; try done.
  - apply msgs_ok_send; [done|]. naive_solver.
  - intros a' acc1. destruct (decide (a = a')) as [<-|Hne].
    + rewrite lookup_insert_eq. by intros [= <-].
    + rewrite lookup_insert_ne by done. intros Hq. specialize (H3 a' acc1 Hq). destruct o as [m|]; [|done].
      apply acceptor_inv_other; [done|]. destruct (Hnew m eq_refl) as [_ Hfrom].
      destruct m; simpl in *; try done; congruence.
  - intros i p Hp. specialize (H4 i p Hp). destruct o as [m|]; [|done]. simpl.
    apply prop_inv_other; [done|]. destruct (Hnew m eq_refl) as [_ Hfrom]. by destruct m.
  - intros j l Hj. eapply lrn_inv_mono; [apply send_sub|]. auto.
  - intros j k v Hd. apply chosen_send. eauto.
Qed.

Lemma step_lrn_inv s j l l' o :
  inv s -> lrns s !! j = Some l -> lrn_step (sent s) l l' o ->
  inv {| accs := accs s; props := props s; lrns := <[j := l']> (lrns s); sent := sent s;
         proposed := proposed s; delivered := deliver j o (delivered s) |}.
Proof.
  intros [H1 H2 H3 H4 H5 H6] Hl Hstep.
  assert (lrn_inv (sent s) (deliver j o (delivered s)) j l' /\
    forall m, o = Some m -> chosen n (sent s) (iid m) (bytes m)) as [Hl' Hch].
  { destruct Hstep as [ack l' Hack Hrun|freed ret l' out Hfr Hrun].
    - split; [|done]. by eapply accepted_inv; [done|apply H5| |].
    - eapply deliver_inv; [lia|done|by apply H5|done|done]. }
  split; simpl; try done.
  - intros j' l1. destruct (decide (j = j')) as [<-|Hne].
    + rewrite lookup_insert_eq. by intros [= <-].
    + rewrite lookup_insert_ne by done. intros Hj. destruct (H5 j' l1 Hj).
      split; rewrite ?deliveries_other by done; try done.
  - intros j' k v. destruct o as [m|]; simpl; [|by apply H6].
    intros [[= -> -> ->]|Hd]%elem_of_cons; [by apply (Hch m)|by eapply H6].
Qed.

Lemma step_inv s s' : inv s -> step s s' -> inv s'.
Proof.
  intros Hinv Hstep. destruct Hstep as [i p v size p' Hp Hsz Hlen Hrun|i p p' o Hp Hs|a acc acc' o Ha Hs|
    j l l' o Hl Hs].
  - destruct Hinv as [H1 H2 H3 H4 H5 H6]. split; simpl; try done; [by apply msgs_ok_proposed|].
    intros i' q. destruct (decide (i = i')) as [<-|Hne].
    + rewrite lookup_insert_eq. intros [= <-]. by eapply propose_inv; [apply H4| | |].
    + rewrite lookup_insert_ne by done. intros Hq. eapply prop_inv_mono; [|by apply H4]. set_solver.
  - by eapply step_prop_inv.
  - by eapply step_acc_inv.
  - by eapply step_lrn_inv.
Qed.

Lemma reachable_inv s : reachable n s -> inv s.
Proof. induction 1; eauto using init_inv, step_inv. Qed.

Lemma consecutive_lt x l : consecutive (x :: l) -> Forall (fun y => y < x) l.
Proof.
  revert x. induction l as [|y l IH]; intros x; [constructor|]. intros [-> Hl].
  constructor; [lia|]. eapply Forall_impl; [by apply IH|]. simpl. intros. lia.
Qed.

Lemma consecutive_NoDup l : consecutive l -> NoDup l.
Proof.
  induction l as [|x l IH]; [constructor|]. intros Hl. constructor; [|by apply IH; destruct Hl].
  apply consecutive_lt in Hl. rewrite Forall_forall in Hl. intros Hx. specialize (Hl x Hx). lia.
Qed.
End invariant.
