(* ===== verification/Agreement.v ===== *)
(** * Consensus: the theorems

    Agreement, validity and ordered delivery in every reachable state of the
    network of [Consensus.v], over any storage backend and hash table that keep
    their contracts.  [run] executes a schedule of steps, and [demo] is a run of
    two competing proposers over three acceptors with the in-memory storage and
    the hash table of [khash.h]; it is the witness of the theorems. *)

From S2P Require Import Prelude PaxosTypes KhashInterface Khash KhashResize Quorum Storage.
From S2P Require Import Acceptor Carray Proposer Learner Consensus AcceptorInv ProposerInv.
From S2P Require Import ConsensusInv.

(** ** Executing a schedule *)

(** Messages are named by the order in which they were sent. *)
Inductive action :=
  | Propose (i : Z) (v : list byte)
  | PropPrepare (i : Z)
  | PropReceive (i : Z) (k : nat)
  | PropAccept (i : Z)
  | AccReceive (a : Z) (k : nat)
  | LrnReceive (j : Z) (k : nat)
  | LrnDeliver (j : Z).

Section run.
Context `{SL : StorageLaws H} `{KH : KHash T}.
Implicit Types (s : net H T).

Definition time0 : timeval := {| tv_sec := 0; tv_usec := 0 |}.

Definition message s (k : nat) : option paxos_message := rev (sent s) !! k.

Definition after_prop s (i : Z) (p : proposer T) (o : option paxos_message) : net H T :=
  {| accs := accs s; props := <[i := p]> (props s); lrns := lrns s; sent := send o (sent s);
     proposed := proposed s; delivered := delivered s |}.

Definition after_acc s (a : Z) (acc : acceptor H) (o : option paxos_message) : net H T :=
  {| accs := <[a := acc]> (accs s); props := props s; lrns := lrns s; sent := send o (sent s);
     proposed := proposed s; delivered := delivered s |}.

Definition after_lrn s (j : Z) (l : learner T) (o : option paxos_accepted) : net H T :=
  {| accs := accs s; props := props s; lrns := <[j := l]> (lrns s); sent := sent s;
     proposed := proposed s; delivered := deliver j o (delivered s) |}.

Definition exec s (act : action) : option (net H T) :=
  match act with
  | Propose i v =>
      p ← props s !! i;
      let size := Z.of_nat (length v) in
      assert_ ((0 <? size) && (size <? 2 ^ 31)) ;;
      p ← proposer_propose p v size;
      Some {| accs := accs s; props := <[i := p]> (props s); lrns := lrns s; sent := sent s;
              proposed := take (Z.to_nat size) v :: proposed s; delivered := delivered s |}
  | PropPrepare i =>
      p ← props s !! i;
      assert_ (next_prepare_iid p <? UINT32_MAX) ;;
      '(p, out) ← proposer_prepare p time0;
      Some (after_prop s i p (Some (PAXOS_PREPARE out)))
  | PropReceive i k =>
      p ← props s !! i;
      match message s k with
      | Some (PAXOS_PROMISE ack) =>
          '(_, p, out) ← proposer_receive_promise p ack time0;
          Some (after_prop s i p (PAXOS_PREPARE <$> out))
      | Some (PAXOS_ACCEPTED ack) =>
          '(_, p) ← proposer_receive_accepted p ack;
          Some (after_prop s i p None)
      | Some (PAXOS_PREEMPTED ack) =>
          '(_, p, out) ← proposer_receive_preempted p ack time0;
          Some (after_prop s i p (PAXOS_PREPARE <$> out))
      | _ => None
      end
  | PropAccept i =>
      p ← props s !! i;
      '(_, p, out) ← proposer_accept p;
      Some (after_prop s i p (PAXOS_ACCEPT <$> out))
  | AccReceive a k =>
      acc ← accs s !! a;
      match message s k with
      | Some (PAXOS_PREPARE req) =>
          '(acc, ret, out) ← acceptor_receive_prepare acc req (PAXOS_PREPARE req);
          Some (after_acc s a acc (if ret =? 1 then Some out else None))
      | Some (PAXOS_ACCEPT req) =>
          '(acc, ret, out) ← acceptor_receive_accept acc req (PAXOS_ACCEPT req);
          Some (after_acc s a acc (if ret =? 1 then Some out else None))
      | _ => None
      end
  | LrnReceive j k =>
      l ← lrns s !! j;
      match message s k with
      | Some (PAXOS_ACCEPTED ack) =>
          l ← learner_receive_accepted l ack;
          Some (after_lrn s j l None)
      | _ => None
      end
  | LrnDeliver j =>
      l ← lrns s !! j;
      assert_ ((0 <=? current_iid l) && (current_iid l <? 2 ^ 32)) ;;
      '(_, l, out) ← learner_deliver_next l (current_iid l);
      Some (after_lrn s j l out)
  end.

Fixpoint run (acts : list action) s : option (net H T) :=
  match acts with
  | [] => Some s
  | act :: acts => s ← exec s act; run acts s
  end.

Lemma message_sent s k m : message s k = Some m -> m ∈ sent s.
Proof. intros Hm%list_elem_of_lookup_2. by apply list_elem_of_In, in_rev, list_elem_of_In. Qed.

(** An executed action is a step. *)
Lemma exec_step s act s' : exec s act = Some s' -> step s s'.
Proof.
  destruct act as [i v|i|i k|i|a k|j k|j]; simpl; intros Hrun;
    (destruct (_ !! _) as [x|] eqn:Hx in Hrun; simpl in Hrun; [|done]).
  - destruct (Z.ltb_spec 0 (Z.of_nat (length v))), (Z.ltb_spec (Z.of_nat (length v)) (2 ^ 31));
      simpl in Hrun; try done.
    destruct (proposer_propose x v _) as [p'|] eqn:Hp; simpl in Hrun; [|done]. simplify_eq.
    eapply step_propose; [done|done|done|done].
  - destruct (Z.ltb_spec (next_prepare_iid x) UINT32_MAX); simpl in Hrun; [|done].
    destruct (proposer_prepare x time0) as [[p' out]|] eqn:Hp; simpl in Hrun; [|done]. simplify_eq.
    eapply step_prop; [done|]. by eapply prop_prepare.
  - destruct (message s k) as [[]|] eqn:Hm; try done; apply message_sent in Hm.
    + destruct (proposer_receive_promise _ _ _) as [[[? p'] out]|] eqn:Hp; simpl in Hrun; [|done].
      simplify_eq. eapply step_prop; [done|]. by eapply prop_promise.
    + destruct (proposer_receive_accepted _ _) as [[? p']|] eqn:Hp; simpl in Hrun; [|done].
      simplify_eq. eapply step_prop; [done|]. by eapply prop_accepted.
    + destruct (proposer_receive_preempted _ _ _) as [[[? p'] out]|] eqn:Hp; simpl in Hrun; [|done].
      simplify_eq. eapply step_prop; [done|]. by eapply prop_preempted.
  - destruct (proposer_accept _) as [[[? p'] out]|] eqn:Hp; simpl in Hrun; [|done].
    simplify_eq. eapply step_prop; [done|]. by eapply prop_accept.
  - destruct (message s k) as [[]|] eqn:Hm; try done; apply message_sent in Hm.
    + destruct (acceptor_receive_prepare _ _ _) as [[[acc' ret] out]|] eqn:Hp; simpl in Hrun; [|done].
      simplify_eq. eapply step_acc; [done|]. by eapply acc_prepare.
    + destruct (acceptor_receive_accept _ _ _) as [[[acc' ret] out]|] eqn:Hp; simpl in Hrun; [|done].
      simplify_eq. eapply step_acc; [done|]. by eapply acc_accept.
  - destruct (message s k) as [[]|] eqn:Hm; try done; apply message_sent in Hm.
    destruct (learner_receive_accepted _ _) as [l'|] eqn:Hp; simpl in Hrun; [|done].
    simplify_eq. eapply step_lrn; [done|]. by eapply lrn_accepted.
  - destruct (Z.leb_spec 0 (current_iid x)), (Z.ltb_spec (current_iid x) (2 ^ 32)); simpl in Hrun; try done.
    destruct (learner_deliver_next _ _) as [[[? l'] out]|] eqn:Hp; simpl in Hrun; [|done].
    simplify_eq. eapply step_lrn; [done|]. by eapply lrn_deliver.
Qed.

Lemma run_reachable n acts s s' : reachable n s -> run acts s = Some s' -> reachable n s'.
Proof.
  revert s. induction acts as [|act acts IH]; intros s Hs; simpl; [by intros [= <-]|].
  destruct (exec s act) as [s1|] eqn:He; simpl; [|done]. apply IH.
  eapply reach_step; [done|]. by eapply exec_step.
Qed.
End run.

(** ** A run with two proposers *)

Definition demo_acceptor (a : Z) : acceptor (mem_storage khash) :=
  {| acc_id := a; acc_trim_iid := 0; store := mem_storage_new |}.

Definition demo_proposer (i : Z) : proposer khash :=
  {| prop_id := i; prop_acceptors := 3; values := Carray 0 0 128 0 (replicate 128 None);
     max_trim_iid := 0; next_prepare_iid := 0; prepare_instances := kh_init;
     accept_instances := kh_init |}.

Definition demo_init : net (mem_storage khash) khash :=
  {| accs := list_to_map ((fun a => (a, demo_acceptor a)) <$> [0; 1; 2]);
     props := list_to_map ((fun i => (i, demo_proposer i)) <$> [0; 1]);
     lrns := list_to_map ((fun j => (j, learner_new 1 3)) <$> [0; 1]);
     sent := []; proposed := []; delivered := [] |}.

(** Proposer 0 gets its value accepted by acceptor 0 only; proposer 1 then has
    to propose the same value, and both learners deliver it. *)
Definition demo_schedule : list action :=
  [Propose 0 [x61]; Propose 1 [x62];
   PropPrepare 0;                          (* 0: prepare *)
   AccReceive 0 0; AccReceive 1 0;         (* 1, 2: promises *)
   PropReceive 0 1; PropReceive 0 2;
   PropAccept 0;                           (* 3: accept request *)
   AccReceive 0 3;                         (* 4: accepted by acceptor 0 *)
   PropPrepare 1;                          (* 5: prepare *)
   AccReceive 0 5; AccReceive 1 5;         (* 6, 7: promises *)
   PropReceive 1 6; PropReceive 1 7;
   PropAccept 1;                           (* 8: accept request *)
   AccReceive 1 3;                         (* 9: acceptor 1 preempts proposer 0 *)
   AccReceive 1 8; AccReceive 2 8;         (* 10, 11: accepted *)
   LrnReceive 0 10; LrnReceive 0 11; LrnDeliver 0;
   LrnReceive 1 4; LrnReceive 1 11; LrnReceive 1 10; LrnDeliver 1].

Definition demo : net (mem_storage khash) khash :=
  default demo_init (run demo_schedule demo_init).

Lemma demo_init_ok : init 3 demo_init.
Proof.
  split; try done.
  - intros a acc Ha. apply elem_of_list_to_map_2 in Ha.
    apply list_elem_of_fmap in Ha as (a' & [= -> ->] & Hin).
    assert (0 <= a' < 3) as Hr by (set_solver by lia).
    split; [done|]. split; [done|]. apply mem_acceptor_new. lia.
  - intros i p Hi. apply elem_of_list_to_map_2 in Hi.
    apply list_elem_of_fmap in Hi as (i' & [= -> ->] & Hin).
    assert (0 <= i' < 2) as Hr by (set_solver by lia). unfold MAX_N_OF_PROPOSERS. split; [lia|done].
  - intros j l Hj. apply elem_of_list_to_map_2 in Hj.
    apply list_elem_of_fmap in Hj as (j' & [= -> ->] & Hin). by exists 1.
Qed.

Lemma demo_run : run demo_schedule demo_init = Some demo.
Proof.
  unfold demo. assert (is_Some (run demo_schedule demo_init)) as [s ->]; [|done].
  apply not_eq_None_Some. by vm_compute.
Qed.

Lemma demo_reachable : reachable 3 demo.
Proof. eapply run_reachable; [apply reach_init, demo_init_ok|apply demo_run]. Qed.

Lemma demo_delivered : delivered demo = [(1, 1, [x61]); (0, 1, [x61])].
Proof. by vm_compute. Qed.

Lemma demo_delivered_0 : (0, 1, [x61]) ∈ delivered demo.
Proof. rewrite demo_delivered. right. left. Qed.

Lemma demo_delivered_1 : (1, 1, [x61]) ∈ delivered demo.
Proof. rewrite demo_delivered. left. Qed.

#[local] Opaque demo.

(** ** Consensus, abstractly

    A consensus object decides at most one value per instance, among those
    proposed, and never takes a decision back. *)

Record cons_state := ConsState {
  c_proposed : list byte -> Prop;
  c_decided : Z -> list byte -> Prop;
}.

Definition cons_ok (c : cons_state) : Prop :=
  (forall k v v', c_decided c k v -> c_decided c k v' -> v = v') /\
  (forall k v, c_decided c k v -> c_proposed c v).

Definition cons_step (c c' : cons_state) : Prop :=
  (forall v, c_proposed c v -> c_proposed c' v) /\
  (forall k v, c_decided c k v -> c_decided c' k v) /\ cons_ok c'.

(** The consensus object a network implements: an instance is decided when a
    majority of the acceptors accepted a value in the same ballot. *)
Definition abstract `{SL : StorageLaws H} `{KH : KHash T} (n : Z) (s : net H T) : cons_state :=
  {| c_proposed v := v ∈ proposed s; c_decided k v := chosen n (sent s) k v |}.

Section theorems.
Context `{SL : StorageLaws H} `{KH : KHash T} (n : Z).
Implicit Types (s : net H T).

Lemma chosen_proposed s k v : inv n s -> chosen n (sent s) k v -> v ∈ proposed s.
Proof.
  intros [Hn Hok _ _ _ _] (b & Q & HQ & Hv). destruct (majority_nonempty n Q ltac:(lia) HQ) as [a Ha].
  destruct (Hv a Ha) as (m & Hm & _ & _ & _ & <-).
  destruct (mk_accepted _ _ _ Hok _ Hm) as (_ & _ & _ & (m' & Hm' & _ & _ & <-)).
  by destruct (mk_accept _ _ _ Hok _ Hm') as (_ & _ & _ & ? & _).
Qed.

Lemma inv_cons_ok s : inv n s -> cons_ok (abstract n s).
Proof.
  intros Hinv. pose proof Hinv as [Hn Hok _ _ _ _]. split; simpl.
  - intros k v v'. eapply chosen_unique; [lia|done].
  - intros k v. by apply chosen_proposed.
Qed.

Lemma step_grows s s' : step s s' -> sent s ⊆ sent s' /\ proposed s ⊆ proposed s'.
Proof. destruct 1; simpl; split; try done; try apply send_sub. set_solver. Qed.
End theorems.

(** C1. Agreement.  In every reachable state of the network, with any number of
    acceptors, concurrent proposers, lost, duplicated and reordered messages,
    failing storage transactions, trimming and restarts of acceptors, two
    learners never deliver different values for the same instance.  The network is
    that of [Consensus.v], which has no answers to repeat requests, no gap recovery
    and no empty values; reads of the storage do not fail. *)
Theorem agreement `{SL : StorageLaws H} `{KH : KHash T} (n : Z) (s : net H T) j j' k v v' :
  reachable n s -> (j, k, v) ∈ delivered s -> (j', k, v') ∈ delivered s -> v = v'.
Proof.
  intros Hs Hd Hd'. apply reachable_inv in Hs. destruct (inv_cons_ok n s Hs) as [Huniq _].
  destruct Hs as [_ _ _ _ _ Hch]. eapply Huniq; simpl; eauto.
Qed.

Lemma agreement_witness :
  exists v v', reachable 3 demo /\ (0, 1, v) ∈ delivered demo /\ (1, 1, v') ∈ delivered demo /\ v = v'.
Proof.
  exists [x61], [x61]. split; [apply demo_reachable|]. split; [apply demo_delivered_0|].
  split; [apply demo_delivered_1|].
  exact (agreement 3 demo 0 1 1 [x61] [x61] demo_reachable demo_delivered_0 demo_delivered_1).
Defined.

(** C2. Validity.  A delivered value was submitted by a client to some
    proposer, and a majority of the acceptors accepted it in one ballot, in the
    network of [Consensus.v]. *)
Theorem validity `{SL : StorageLaws H} `{KH : KHash T} (n : Z) (s : net H T) j k v :
  reachable n s -> (j, k, v) ∈ delivered s -> v ∈ proposed s /\ chosen n (sent s) k v.
Proof.
  intros Hs Hd. apply reachable_inv in Hs. pose proof Hs as [_ _ _ _ _ Hch].
  specialize (Hch _ _ _ Hd). split; [by eapply chosen_proposed|done].
Qed.

Lemma validity_witness :
  (0, 1, [x61]) ∈ delivered demo /\ [x61] ∈ proposed demo /\ chosen 3 (sent demo) 1 [x61].
Proof.
  split; [apply demo_delivered_0|]. exact (validity 3 demo 0 1 [x61] demo_reachable demo_delivered_0).
Defined.

(** C4. Ordered delivery.  In the network of [Consensus.v] each learner delivers consecutive instances, in
    order and each at most once. *)
Theorem ordered_delivery `{SL : StorageLaws H} `{KH : KHash T} (n : Z) (s : net H T) j l :
  reachable n s -> lrns s !! j = Some l ->
  consecutive (deliveries j (delivered s)) /\ NoDup (deliveries j (delivered s)).
Proof.
  intros [_ _ _ _ Hl _]%reachable_inv Hj. destruct (Hl j l Hj).
  split; [done|by apply consecutive_NoDup].
Qed.

Lemma ordered_delivery_witness :
  deliveries 0 (delivered demo) = [1] /\
  consecutive (deliveries 0 (delivered demo)) /\ NoDup (deliveries 0 (delivered demo)).
Proof.
  split; [by rewrite demo_delivered|].
  assert (is_Some (lrns demo !! 0)) as [l Hl] by (apply not_eq_None_Some; by vm_compute).
  exact (ordered_delivery 3 demo 0 l demo_reachable Hl).
Defined.

(** C3. Refinement.  Every step of the network of [Consensus.v] is a step of the abstract
    consensus object: what is proposed and decided only grows, at most one value
    is decided per instance, and only proposed values are. *)
Theorem network_refines_consensus `{SL : StorageLaws H} `{KH : KHash T} (n : Z) (s s' : net H T) :
  reachable n s -> step s s' -> cons_ok (abstract n s) /\ cons_step (abstract n s) (abstract n s').
Proof.
  intros Hs Hstep. destruct (step_grows s s' Hstep) as [Hm Hp]. split.
  - by apply inv_cons_ok, reachable_inv.
  - split; [|split]; simpl.
    + intros v. apply Hp.
    + intros k v. by apply chosen_mono.
    + apply inv_cons_ok, reachable_inv. by eapply reach_step.
Qed.

Lemma network_refines_consensus_witness :
  exists s', step demo s' /\ cons_ok (abstract 3 demo) /\ cons_step (abstract 3 demo) (abstract 3 s').
Proof.
  destruct (exec demo (Propose 0 [x63])) as [s'|] eqn:He; [|by vm_compute in He].
  apply exec_step in He. exists s'. split; [done|].
  exact (network_refines_consensus 3 demo s' demo_reachable He).
Defined.
