(* ===== verification/Repeat.v ===== *)
(** * Repeated votes

    The network of [Consensus.v] has every message but the answers to a repeat
    request ([acceptor_receive_repeat] in [paxos/acceptor.c], which the learner
    uses to fill its holes).  This file shows why: such an answer carries the
    ballot the acceptor promised last, not the one it voted in, and the learner
    counts votes by that ballot. *)

From S2P Require Import Prelude PaxosTypes KhashInterface Khash KhashResize Quorum Storage.
From S2P Require Import Acceptor Carray Proposer Learner Consensus AcceptorInv ProposerInv.
From S2P Require Import ConsensusInv Agreement.

(** Acceptor 2 votes for the value of proposer 0 and then promises the ballot of
    proposer 1, which does not wait for its promise; the other two acceptors
    vote for the value of proposer 1, and learner 0 delivers it. *)
Definition repeat_schedule : list action :=
  [Propose 0 [x61]; Propose 1 [x62];
   PropPrepare 0;                                       (* 0: prepare *)
   AccReceive 1 0; AccReceive 2 0;                      (* 1, 2: promises *)
   PropReceive 0 1; PropReceive 0 2;
   PropAccept 0;                                        (* 3: accept request *)
   AccReceive 2 3;                                      (* 4: accepted by acceptor 2 *)
   PropPrepare 1;                                       (* 5: prepare *)
   AccReceive 0 5; AccReceive 1 5; AccReceive 2 5;      (* 6, 7, 8: promises *)
   PropReceive 1 6; PropReceive 1 7;
   PropAccept 1;                                        (* 9: accept request *)
   AccReceive 0 9; AccReceive 1 9;                      (* 10, 11: accepted *)
   LrnReceive 0 10; LrnReceive 0 11; LrnDeliver 0;
   LrnReceive 1 10].

Definition repeat_net : net (mem_storage khash) khash :=
  default demo_init (run repeat_schedule demo_init).

(** Learner 1, which has a vote for the value of proposer 1, receives what
    acceptor 2 repeats of instance 1: the result and the value delivered. *)
Definition repeat_delivers : option (bool * Z * list byte) :=
  acc ← accs repeat_net !! 2;
  l ← lrns repeat_net !! 1;
  '(_, found, ack) ← acceptor_receive_repeat acc 1;
  l ← learner_receive_accepted l ack;
  '(_, _, out) ← learner_deliver_next l (current_iid l);
  out ← out;
  Some (found, iid out, value_bytes (value out)).

Lemma repeat_run : run repeat_schedule demo_init = Some repeat_net.
Proof.
  unfold repeat_net. assert (is_Some (run repeat_schedule demo_init)) as [s ->]; [|done].
  apply not_eq_None_Some. by vm_compute.
Qed.

(** C39. Learners that use repeat requests may deliver different values: in a
    reachable state where learner 0 delivered value [b] for instance 1, the
    answer of an acceptor to a repeat request makes learner 1 deliver [a]. *)
Theorem repeat_breaks_agreement :
  reachable 3 repeat_net /\ delivered repeat_net = [(0, 1, [x62])] /\ repeat_delivers = Some (true, 1, [x61]).
Proof.
  split; [|split; by vm_compute].
  eapply run_reachable; [apply reach_init, demo_init_ok|apply repeat_run].
Qed.
