(* ===== verification/P4Packet.v ===== *)
(** * Packets of the DPDK data plane ([p4xos/src/net_util.c], [dpp_paxos.h])

    A packet is a [struct rte_mbuf]: the bytes of its buffer, with the Ethernet,
    IPv4, UDP and Paxos headers at fixed offsets, and the lengths the driver
    reads.  [struct ether_hdr], [ipv4_hdr], [udp_hdr], [arp_hdr] and [icmp_hdr]
    are the wire formats of these protocols.  What DPDK computes, the address of
    a port and the checksum of the pseudo header, is the class [Eth].

    An address ([s_addr]) is kept in memory in network order: its bytes are
    those of the little-endian integer.

    [None] is an access outside the buffer or outside a member of a struct. *)

From S2P Require Import Prelude Bytes PaxosTypes EvConfig.

Class Eth := {
  (** [rte_eth_macaddr_get] *)
  macaddr : Z -> list byte;
  (** [rte_ipv4_phdr_cksum] of an IPv4 header *)
  phdr_cksum : list byte -> Z -> Z;
  (** [PKT_TX_IPV4 | PKT_TX_IP_CKSUM | PKT_TX_UDP_CKSUM] *)
  PKT_TX_FLAGS : Z;
}.

Class EthLaws `{Eth} := {
  macaddr_length port : length (macaddr port) = 6%nat;
}.

(** [l2_len], [l3_len] and [l4_len] are bit fields of 7, 9 and 8 bits. *)
Record rte_mbuf := RteMbuf {
  data : list byte;
  data_len : Z;
  pkt_len : Z;
  l2_len : Z;
  l3_len : Z;
  l4_len : Z;
  ol_flags : Z;
  mbuf_port : Z;
}.

Definition set_data (m : rte_mbuf) (p : list byte) : rte_mbuf :=
  {| data := p; data_len := data_len m; pkt_len := pkt_len m; l2_len := l2_len m; l3_len := l3_len m;
     l4_len := l4_len m; ol_flags := ol_flags m; mbuf_port := mbuf_port m |}.

Definition set_lengths (m : rte_mbuf) (size l2 l3 l4 flags : Z) : rte_mbuf :=
  {| data := data m; data_len := u16 size; pkt_len := u32 size; l2_len := l2 mod 2 ^ 7;
     l3_len := l3 mod 2 ^ 9; l4_len := u8 l4; ol_flags := flags; mbuf_port := mbuf_port m |}.

(** ** Return codes and constants *)

Definition PAXOS_PACKET : Z := 1.
Definition SUCCESS : Z := 0.
Definition TO_DROP : Z := -1.
Definition DROP_ORIGINAL_PACKET : Z := -3.
Definition NO_HANDLER : Z := -4.
Definition NON_ETHERNET_PACKET : Z := -5.
Definition NON_UDP_PACKET : Z := -6.
Definition NON_PAXOS_PACKET : Z := -7.
Definition NO_ACCEPT_INSTANCE : Z := -8.

Definition P4XOS_PORT : Z := 9081.
Definition PAXOS_VALUE_SIZE : Z := 8.

Definition sizeof_ether_hdr : Z := 14.
Definition sizeof_ipv4_hdr : Z := 20.
Definition sizeof_udp_hdr : Z := 8.
Definition sizeof_paxos_hdr : Z := 36.

Definition ETHER_TYPE_IPv4 : Z := 2048.
Definition ETHER_TYPE_ARP : Z := 2054.
Definition IPPROTO_ICMP : Z := 1.
Definition IPPROTO_UDP : Z := 17.
Definition IPV4_HDR_DF_FLAG : Z := 16384.
Definition ARP_OP_REQUEST : Z := 1.
Definition ARP_OP_REPLY : Z := 2.
Definition IP_ICMP_ECHO_REQUEST : Z := 8.
Definition IP_ICMP_ECHO_REPLY : Z := 0.

Definition get_paxos_offset : Z := sizeof_ether_hdr + sizeof_ipv4_hdr + sizeof_udp_hdr.

Definition mac2_addr : list byte := [x08; x22; x22; x22; x22; x08].

(** A big-endian field ([rte_be_to_cpu_16] and the like) and an address. *)
Definition get_be (p : list byte) (off n : Z) : option Z := be_combine <$> read_at p off n.
Definition get_addr (p : list byte) (off : Z) : option Z := le_combine <$> read_at p off 4.

(** ** The Paxos header *)

Record paxos_hdr := PaxosHdr {
  px_msgtype : Z;
  px_worker_id : Z;
  px_rnd : Z;
  px_inst : Z;
  px_log_index : Z;
  px_vrnd : Z;
  px_acptid : Z;
  px_reserved : Z;
  px_value : list byte;
  px_request_id : Z;
  px_igress_ts : Z;
}.

(** The header at [o], its fields in the order of the host. *)
Definition get_paxos_hdr (p : list byte) (o : Z) : option paxos_hdr :=
  msgtype ← get_be p o 1;
  worker_id ← get_be p (o + 1) 1;
  rnd ← get_be p (o + 2) 2;
  inst ← get_be p (o + 4) 4;
  log_index ← get_be p (o + 8) 2;
  vrnd ← get_be p (o + 10) 2;
  acptid ← get_be p (o + 12) 2;
  reserved ← get_be p (o + 14) 2;
  value ← read_at p (o + 16) 8;
  request_id ← get_be p (o + 24) 4;
  igress_ts ← get_be p (o + 28) 8;
  Some {| px_msgtype := msgtype; px_worker_id := worker_id; px_rnd := rnd; px_inst := inst;
          px_log_index := log_index; px_vrnd := vrnd; px_acptid := acptid; px_reserved := reserved;
          px_value := value; px_request_id := request_id; px_igress_ts := igress_ts |}.

Definition paxos_fields (o : Z) (h : paxos_hdr) : list (Z * list byte) :=
  [(o, be_split 1 (px_msgtype h)); (o + 1, be_split 1 (px_worker_id h)); (o + 2, be_split 2 (px_rnd h));
   (o + 4, be_split 4 (px_inst h)); (o + 8, be_split 2 (px_log_index h)); (o + 10, be_split 2 (px_vrnd h));
   (o + 12, be_split 2 (px_acptid h)); (o + 14, be_split 2 (px_reserved h)); (o + 16, px_value h);
   (o + 24, be_split 4 (px_request_id h)); (o + 28, be_split 8 (px_igress_ts h))].

Definition put_paxos_hdr (p : list byte) (o : Z) (h : paxos_hdr) : option (list byte) :=
  write_fields p (paxos_fields o h).

(** [rte_memcpy(&px->value, value, size)]: the member has 8 bytes. *)
Definition copy_value (old value : list byte) (size : Z) : option (list byte) :=
  bs ← read_at value 0 size;
  write_at old 0 bs.

(** A NULL value, or a size that is not positive, leaves the old bytes. *)
Definition set_paxos_hdr (px : paxos_hdr) (msgtype inst rnd worker_id acptid request_id igress_ts : Z)
    (value : option (list byte)) (size : Z) : option paxos_hdr :=
  pval ← match value with
         | Some v => if 0 <? size then copy_value (px_value px) v size else Some (px_value px)
         | None => Some (px_value px)
         end;
  Some {| px_msgtype := u8 msgtype; px_worker_id := u8 worker_id; px_rnd := u16 rnd; px_inst := u32 inst;
          px_log_index := u16 (Z.land inst 255); px_vrnd := 0; px_acptid := u16 acptid; px_reserved := 0;
          px_value := pval; px_request_id := u32 request_id; px_igress_ts := igress_ts mod 2 ^ 64 |}.

(** ** The other headers, at offset [o] *)

Definition set_ether_hdr (p : list byte) (o ethtype : Z) (src dst : list byte) : option (list byte) :=
  write_fields p [(o + 12, be_split 2 ethtype); (o + 6, src); (o, dst)].

(** The type of service is not set. *)
Definition set_ipv4_hdr (p : list byte) (o proto src dst total_length : Z) : option (list byte) :=
  write_fields p
    [(o, be_split 1 69); (o + 2, be_split 2 total_length); (o + 4, be_split 2 0);
     (o + 6, be_split 2 IPV4_HDR_DF_FLAG); (o + 8, be_split 1 64); (o + 9, be_split 1 proto);
     (o + 10, be_split 2 0); (o + 12, le_split 4 src); (o + 16, le_split 4 dst)].

Definition set_udp_hdr (p : list byte) (o src_port dst_port dgram_len : Z) : option (list byte) :=
  write_fields p [(o, be_split 2 src_port); (o + 2, be_split 2 dst_port); (o + 4, be_split 2 dgram_len);
                  (o + 6, be_split 2 0)].

Definition set_udp_hdr_sockaddr_in (p : list byte) (o : Z) (src dst : sockaddr_in) (dgram_len : Z) :
    option (list byte) :=
  write_fields p [(o, be_split 2 (sin_port src)); (o + 2, be_split 2 (sin_port dst));
                  (o + 4, be_split 2 dgram_len); (o + 6, be_split 2 0)].

Definition set_ip_addr (p : list byte) (o src dst : Z) : option (list byte) :=
  write_fields p [(o + 16, le_split 4 dst); (o + 12, le_split 4 src)].

Section eth.
Context {E : Eth}.

(** The UDP checksum of the IPv4 header at [ip]; [udp] is the UDP header. *)
Definition set_cksum (p : list byte) (ip udp : Z) : option (list byte) :=
  hdr ← read_at p ip sizeof_ipv4_hdr;
  write_at p (udp + 6) (le_split 2 (phdr_cksum hdr PKT_TX_FLAGS)).

(** The result is a negative code or the port as it is in the packet. *)
Definition filter_packets (pkt : rte_mbuf) : option Z :=
  ether_type ← get_be (data pkt) 12 2;
  let ip := sizeof_ether_hdr in
  if negb (ether_type =? ETHER_TYPE_IPv4) then Some NON_ETHERNET_PACKET else
  proto ← get_be (data pkt) (ip + 9) 1;
  if negb (proto =? IPPROTO_UDP) then Some NON_UDP_PACKET else
  let udp := ip + sizeof_ipv4_hdr in
  le_combine <$> read_at (data pkt) (udp + 2) 2.

Definition prepare_hw_checksum (pkt : rte_mbuf) (data_size : Z) : option rte_mbuf :=
  let ip := sizeof_ether_hdr in
  let udp := ip + sizeof_ipv4_hdr in
  p ← write_at (data pkt) (udp + 4) (be_split 2 (sizeof_udp_hdr + data_size));
  let l2 := sizeof_ether_hdr mod 2 ^ 7 in
  let l3 := sizeof_ipv4_hdr mod 2 ^ 9 in
  let l4 := u8 (sizeof_udp_hdr + data_size) in
  let pkt := set_lengths pkt (l2 + l3 + l4) l2 l3 l4 PKT_TX_FLAGS in
  p ← set_cksum p ip udp;
  Some (set_data pkt p).

Definition prepare_paxos_message (pkt : rte_mbuf) (port : Z) (src dst : sockaddr_in)
    (msgtype inst rnd worker_id node_id request_id igress_ts : Z) (value : option (list byte)) (size : Z) :
    option rte_mbuf :=
  let ip := sizeof_ether_hdr in
  let udp := ip + sizeof_ipv4_hdr in
  let dgram_len := sizeof_udp_hdr + sizeof_paxos_hdr in
  let px := udp + sizeof_udp_hdr in
  p ← set_ether_hdr (data pkt) 0 ETHER_TYPE_IPv4 (macaddr port) mac2_addr;
  h ← get_paxos_hdr p px;
  h ← set_paxos_hdr h msgtype inst rnd worker_id node_id request_id igress_ts value size;
  p ← put_paxos_hdr p px h;
  let l4 := sizeof_udp_hdr + sizeof_paxos_hdr in
  let pkt_size := px + sizeof_paxos_hdr in
  p ← set_udp_hdr_sockaddr_in p udp src dst dgram_len;
  p ← write_at p (udp + 4) (be_split 2 l4);
  p ← set_ipv4_hdr p ip IPPROTO_UDP (sin_addr src) (sin_addr dst) pkt_size;
  p ← set_cksum p ip udp;
  Some (set_lengths (set_data pkt p) pkt_size sizeof_ether_hdr sizeof_ipv4_hdr l4 PKT_TX_FLAGS).

(** ** Packets that are not Paxos messages

    [mine] is the address of the node ([app.p4xos_conf.mine]). *)

Definition handle_arp_packet (mine : Z) (pkt : rte_mbuf) (offset : Z) : option (Z * rte_mbuf) :=
  let p := data pkt in
  tip ← get_addr p (offset + 24);
  if negb (tip =? mine) then Some (TO_DROP, pkt) else
  op ← get_be p (offset + 6) 2;
  if negb (op =? ARP_OP_REQUEST) then Some (TO_DROP, pkt) else
  p ← write_at p (offset + 6) (be_split 2 ARP_OP_REPLY);
  s_addr ← read_at p 6 6;
  p ← write_at p 0 s_addr;
  p ← write_at p 6 (macaddr (mbuf_port pkt));
  sha ← read_at p (offset + 8) 6;
  p ← write_at p (offset + 18) sha;
  sip ← read_at p (offset + 14) 4;
  p ← write_at p (offset + 24) sip;
  s_addr ← read_at p 6 6;
  p ← write_at p (offset + 8) s_addr;
  p ← write_at p (offset + 14) (le_split 4 mine);
  Some (SUCCESS, set_data pkt p).

Definition handle_icmp_packet (mine : Z) (pkt : rte_mbuf) (ip offset : Z) : option (Z * rte_mbuf) :=
  let p := data pkt in
  icmp_type ← get_be p offset 1;
  if negb (icmp_type =? IP_ICMP_ECHO_REQUEST) then Some (TO_DROP, pkt) else
  dst_addr ← get_addr p (ip + 16);
  if negb (dst_addr =? mine) then Some (TO_DROP, pkt) else
  p ← write_at p offset (be_split 1 IP_ICMP_ECHO_REPLY);
  s_addr ← read_at p 6 6;
  p ← write_at p 0 s_addr;
  p ← write_at p 6 (macaddr (mbuf_port pkt));
  src_addr ← read_at p (ip + 12) 4;
  p ← write_at p (ip + 16) src_addr;
  p ← write_at p (ip + 12) (le_split 4 mine);
  Some (SUCCESS, set_data pkt p).

Definition handle_udp_packet (pkt : rte_mbuf) (offset : Z) : option Z :=
  dst_port ← get_be (data pkt) (offset + 2) 2;
  Some (if dst_port =? P4XOS_PORT then PAXOS_PACKET else NON_PAXOS_PACKET).

Definition handle_ip_packet (mine : Z) (pkt : rte_mbuf) (offset : Z) : option (Z * rte_mbuf) :=
  let l4_offset := offset + sizeof_ipv4_hdr in
  proto ← get_be (data pkt) (offset + 9) 1;
  if proto =? IPPROTO_UDP then ret ← handle_udp_packet pkt l4_offset; Some (ret, pkt)
  else if proto =? IPPROTO_ICMP then handle_icmp_packet mine pkt offset l4_offset
  else Some (NO_HANDLER, pkt).

Definition pre_process (mine : Z) (pkt : rte_mbuf) : option (Z * rte_mbuf) :=
  let l3_offset := sizeof_ether_hdr in
  ether_type ← get_be (data pkt) 12 2;
  if ether_type =? ETHER_TYPE_ARP then handle_arp_packet mine pkt l3_offset
  else if ether_type =? ETHER_TYPE_IPv4 then handle_ip_packet mine pkt l3_offset
  else Some (NO_HANDLER, pkt).
End eth.

(** ** One specification per header *)

(** Shows that the listed fields are apart and in the buffer. *)
Ltac fields_tac :=
  unfold paxos_fields in *;
  repeat first [ done | split | apply Forall_nil_2 | apply Forall_cons_2 ];
  unfold apart in *; simpl; rewrite ?length_be_split, ?length_le_split in *; lia.

Ltac field_in := unfold paxos_fields; repeat first [by apply list_elem_of_here | apply list_elem_of_further].

Lemma get_be_field p o n k x :
  Z.of_nat n = k -> read_at p o (Z.of_nat (length (be_split n x))) = Some (be_split n x) ->
  get_be p o k = Some (x mod 256 ^ k).
Proof. intros <-. unfold get_be. rewrite length_be_split. intros ->. simpl. by rewrite be_combine_split. Qed.

Lemma get_addr_field p o x :
  read_at p o (Z.of_nat (length (le_split 4 x))) = Some (le_split 4 x) -> get_addr p o = Some (u32 x).
Proof. unfold get_addr. rewrite length_le_split. intros Hr. change (Z.of_nat 4) with 4 in Hr. rewrite Hr. cbn [fmap option_fmap option_map]. by rewrite le_combine_split. Qed.

Definition hdr_ok (h : paxos_hdr) : Prop :=
  0 <= px_msgtype h < 2 ^ 8 /\ 0 <= px_worker_id h < 2 ^ 8 /\ is_u16 (px_rnd h) /\ is_u32 (px_inst h) /\
  is_u16 (px_log_index h) /\ is_u16 (px_vrnd h) /\ is_u16 (px_acptid h) /\ is_u16 (px_reserved h) /\
  length (px_value h) = 8%nat /\ is_u32 (px_request_id h) /\ 0 <= px_igress_ts h < 2 ^ 64.

(** A header reads as written, and nothing else changes. *)
Lemma put_get_paxos_hdr p o h :
  0 <= o -> o + sizeof_paxos_hdr <= Z.of_nat (length p) -> hdr_ok h ->
  exists p', put_paxos_hdr p o h = Some p' /\ length p' = length p /\ get_paxos_hdr p' o = Some h /\
    forall off n, off + n <= o \/ o + sizeof_paxos_hdr <= off -> read_at p' off n = read_at p off n.
Proof.
  unfold sizeof_paxos_hdr. intros Ho Hlen (H1 & H2 & H3 & H4 & H5 & H6 & H7 & H8 & H9 & H10 & H11).
  destruct (write_fields_spec p (paxos_fields o h)) as (p' & Hp & Hl & Hin & Hout); [fields_tac|].
  exists p'. split; [done|]. split; [done|]. split; [|intros; apply Hout; fields_tac].
  assert (forall n k x off, Z.of_nat n = k -> (off, be_split n x) ∈ paxos_fields o h -> 0 <= x < 256 ^ k ->
    get_be p' off k = Some x) as Hf.
  { intros n k x off <- Hi Hx. rewrite (get_be_field _ _ _ _ _ eq_refl (Hin _ _ Hi)). by rewrite Z.mod_small. }
  unfold get_paxos_hdr.
  rewrite (Hf 1%nat 1 (px_msgtype h) o eq_refl) by (done || field_in).
  rewrite (Hf 1%nat 1 (px_worker_id h) (o + 1) eq_refl) by (done || field_in).
  rewrite (Hf 2%nat 2 (px_rnd h) (o + 2) eq_refl) by (done || field_in).
  rewrite (Hf 4%nat 4 (px_inst h) (o + 4) eq_refl) by (done || field_in).
  rewrite (Hf 2%nat 2 (px_log_index h) (o + 8) eq_refl) by (done || field_in).
  rewrite (Hf 2%nat 2 (px_vrnd h) (o + 10) eq_refl) by (done || field_in).
  rewrite (Hf 2%nat 2 (px_acptid h) (o + 12) eq_refl) by (done || field_in).
  rewrite (Hf 2%nat 2 (px_reserved h) (o + 14) eq_refl) by (done || field_in).
  assert (read_at p' (o + 16) 8 = Some (px_value h)) as ->.
  { replace 8 with (Z.of_nat (length (px_value h))) by lia. apply Hin. field_in. }
  rewrite (Hf 4%nat 4 (px_request_id h) (o + 24) eq_refl) by (done || field_in).
  rewrite (Hf 8%nat 8 (px_igress_ts h) (o + 28) eq_refl) by (done || field_in). by destruct h.
Qed.

(** Every 36 bytes are a header. *)
Lemma get_paxos_hdr_total p o :
  0 <= o -> o + sizeof_paxos_hdr <= Z.of_nat (length p) ->
  exists h, get_paxos_hdr p o = Some h /\ hdr_ok h /\ read_at p (o + 16) 8 = Some (px_value h).
Proof.
  unfold sizeof_paxos_hdr. intros Ho Hlen.
  assert (forall off n, 0 <= off -> 0 <= n -> off + n <= Z.of_nat (length p) ->
    exists x, get_be p off n = Some x /\ 0 <= x < 256 ^ n) as Hf.
  { intros off n ? ? ?. destruct (read_at_in p off n) as (bs & Hr & Hl); [done..|].
    exists (be_combine bs). unfold get_be. rewrite Hr. split; [done|]. rewrite <- Hl. apply be_combine_range. }
  unfold get_paxos_hdr.
  destruct (Hf o 1) as (x1 & -> & ?); [lia..|]. destruct (Hf (o + 1) 1) as (x2 & -> & ?); [lia..|].
  destruct (Hf (o + 2) 2) as (x3 & -> & ?); [lia..|]. destruct (Hf (o + 4) 4) as (x4 & -> & ?); [lia..|].
  destruct (Hf (o + 8) 2) as (x5 & -> & ?); [lia..|]. destruct (Hf (o + 10) 2) as (x6 & -> & ?); [lia..|].
  destruct (Hf (o + 12) 2) as (x7 & -> & ?); [lia..|]. destruct (Hf (o + 14) 2) as (x8 & -> & ?); [lia..|].
  destruct (read_at_in p (o + 16) 8) as (v & -> & Hv); [lia..|].
  destruct (Hf (o + 24) 4) as (x9 & -> & ?); [lia..|]. destruct (Hf (o + 28) 8) as (x10 & -> & ?); [lia..|].
  cbn [mbind option_bind]. eexists. split; [done|]. split; [|done]. unfold hdr_ok. cbn -[Z.pow].
  split_and!; lia.
Qed.

Section messages.
Context `{EL : EthLaws}.

(** The bytes of the value member after [set_paxos_hdr]. *)
Definition new_value (old : list byte) (value : option (list byte)) (size : Z) : list byte :=
  match value with
  | Some v => take (Z.to_nat size) v ++ drop (Z.to_nat size) old
  | None => old
  end.

Definition value_fits (value : option (list byte)) (size : Z) : Prop :=
  match value with Some v => size <= PAXOS_VALUE_SIZE /\ size <= Z.of_nat (length v) | None => True end.

Lemma set_paxos_hdr_runs px msgtype inst rnd worker_id acptid request_id ts value size :
  hdr_ok px -> value_fits value size ->
  exists h, set_paxos_hdr px msgtype inst rnd worker_id acptid request_id ts value size = Some h /\ hdr_ok h /\
    h = {| px_msgtype := u8 msgtype; px_worker_id := u8 worker_id; px_rnd := u16 rnd; px_inst := u32 inst;
           px_log_index := u16 (Z.land inst 255); px_vrnd := 0; px_acptid := u16 acptid; px_reserved := 0;
           px_value := new_value (px_value px) value size; px_request_id := u32 request_id;
           px_igress_ts := ts mod 2 ^ 64 |}.
Proof.
  intros (_ & _ & _ & _ & _ & _ & _ & _ & Hold & _) Hfits. unfold set_paxos_hdr.
  assert (match value with
          | Some v => if 0 <? size then copy_value (px_value px) v size else Some (px_value px)
          | None => Some (px_value px)
          end = Some (new_value (px_value px) value size) /\ length (new_value (px_value px) value size) = 8%nat)
    as [-> Hlen].
  { unfold value_fits, PAXOS_VALUE_SIZE in Hfits. destruct value as [v|]; [|done]. simpl.
    rewrite length_app, length_take, length_drop. split; [|lia].
    destruct (Z.ltb_spec 0 size); [|by rewrite !Z2Nat.nonpos by lia].
    unfold copy_value. rewrite (proj2 (read_at_Some v 0 size (take (Z.to_nat size) v))) by (split_and!; done || lia).
    simpl. unfold write_at. rewrite length_take. simpl.
    rewrite Nat.min_l, (proj2 (Z.leb_le _ _)) by lia. done. }
  simpl. eexists. split; [done|]. split; [|done]. unfold hdr_ok. cbn -[Z.pow].
  unfold u8, u16, u32. pose proof Z.mod_pos_bound. split_and!; try lia; by apply Z.mod_pos_bound.
Qed.

Lemma set_cksum_runs p :
  42 <= Z.of_nat (length p) ->
  exists p', set_cksum p 14 34 = Some p' /\ length p' = length p /\
    forall off n, off + n <= 40 \/ 42 <= off -> read_at p' off n = read_at p off n.
Proof.
  intros Hp. unfold set_cksum, sizeof_ipv4_hdr. destruct (read_at_in p 14 20) as (hdr & -> & _); [lia..|]. simpl.
  destruct (write_at_in p 40 (le_split 2 (phdr_cksum hdr PKT_TX_FLAGS))) as [p' Hp'];
    [lia|rewrite length_le_split; lia|].
  exists p'. split; [done|]. split; [by apply write_at_Some in Hp' as (_ & _ & ? & _)|].
  intros off n Ho. eapply read_write_other; [done|]. rewrite length_le_split. lia.
Qed.

(** The frame of a message: what the fields of its headers are. *)
Definition message_frame (src dst : sockaddr_in) (p : list byte) : Prop :=
  get_be p 12 2 = Some ETHER_TYPE_IPv4 /\ get_be p 16 2 = Some 78 /\ get_be p 23 1 = Some IPPROTO_UDP /\
  get_addr p 26 = Some (u32 (sin_addr src)) /\ get_addr p 30 = Some (u32 (sin_addr dst)) /\
  get_be p 34 2 = Some (u16 (sin_port src)) /\ get_be p 36 2 = Some (u16 (sin_port dst)) /\
  get_be p 38 2 = Some 44.

Lemma get_be_same p p' o n : read_at p' o n = read_at p o n -> get_be p' o n = get_be p o n.
Proof. unfold get_be. by intros ->. Qed.

Lemma get_addr_same p p' o : read_at p' o 4 = read_at p o 4 -> get_addr p' o = get_addr p o.
Proof. unfold get_addr. by intros ->. Qed.

Lemma get_paxos_hdr_same p p' o :
  (forall off n, o <= off -> off + n <= o + sizeof_paxos_hdr -> read_at p' off n = read_at p off n) ->
  get_paxos_hdr p' o = get_paxos_hdr p o.
Proof.
  unfold sizeof_paxos_hdr, get_paxos_hdr, get_be. intros Hs.
  rewrite !Hs by lia. done.
Qed.

(** The UDP and IPv4 headers of a message. *)
Lemma headers_run p src dst :
  78 <= Z.of_nat (length p) -> get_be p 12 2 = Some ETHER_TYPE_IPv4 ->
  exists p',
    (p ← set_udp_hdr_sockaddr_in p 34 src dst 44;
     p ← write_at p 38 (be_split 2 44);
     p ← set_ipv4_hdr p 14 IPPROTO_UDP (sin_addr src) (sin_addr dst) 78;
     set_cksum p 14 34) = Some p' /\ length p' = length p /\ message_frame src dst p' /\
    forall off n, 42 <= off -> read_at p' off n = read_at p off n.
Proof.
  intros Hp Hty. unfold set_udp_hdr_sockaddr_in.
  edestruct (write_fields_spec p) as (p1 & -> & Hl1 & Hin1 & Hout1); [fields_tac|]. cbn [mbind option_bind].
  destruct (write_at_in p1 38 (be_split 2 44)) as [p2 Hp2]; [lia|rewrite length_be_split; lia|].
  rewrite Hp2. cbn [mbind option_bind]. pose proof (write_at_Some _ _ _ _ Hp2) as (_ & _ & Hl2 & _).
  unfold set_ipv4_hdr.
  edestruct (write_fields_spec p2) as (p3 & -> & Hl3 & Hin3 & Hout3); [fields_tac|]. cbn [mbind option_bind].
  destruct (set_cksum_runs p3) as (p4 & -> & Hl4 & Hout4); [lia|].
  exists p4. split; [done|]. split; [congruence|].
  assert (forall off n, off + n <= 38 \/ 40 <= off -> read_at p2 off n = read_at p1 off n) as Hout2.
  { intros off n Ho. eapply read_write_other; [done|]. rewrite length_be_split. lia. }
  split.
  - unfold message_frame.
    rewrite !(get_be_same p3 p4), !(get_addr_same p3 p4) by (apply Hout4; lia).
    rewrite (get_be_field _ _ 2 2 _ eq_refl (Hin3 16 _ ltac:(field_in))), (get_be_field _ _ 1 1 _ eq_refl (Hin3 23 _ ltac:(field_in))).
    rewrite (get_addr_field _ _ _ (Hin3 26 _ ltac:(field_in))), (get_addr_field _ _ _ (Hin3 30 _ ltac:(field_in))).
    rewrite !(get_be_same p2 p3) by (apply Hout3; fields_tac).
    rewrite (get_be_field p2 38 2 2 44 eq_refl) by (eapply read_write_same; done).
    rewrite !(get_be_same p1 p2) by (apply Hout2; lia).
    rewrite (get_be_field _ _ 2 2 _ eq_refl (Hin1 34 _ ltac:(field_in))), (get_be_field _ _ 2 2 _ eq_refl (Hin1 36 _ ltac:(field_in))).
    rewrite (get_be_same p p1) by (apply Hout1; fields_tac). done.
  - intros off n Ho. rewrite Hout4, Hout3, Hout2, Hout1 by (fields_tac || lia). done.
Qed.

Lemma pre_process_frame src dst mine pkt :
  message_frame src dst (data pkt) ->
  pre_process mine pkt = Some (if u16 (sin_port dst) =? P4XOS_PORT then PAXOS_PACKET else NON_PAXOS_PACKET, pkt).
Proof.
  intros (Ht & _ & Hproto & _ & _ & _ & Hport & _).
  unfold pre_process. rewrite Ht. cbn [mbind option_bind].
  change (ETHER_TYPE_IPv4 =? ETHER_TYPE_ARP) with false. change (ETHER_TYPE_IPv4 =? ETHER_TYPE_IPv4) with true.
  cbv iota. unfold handle_ip_packet. change (sizeof_ether_hdr + 9) with 23. rewrite Hproto. cbn [mbind option_bind].
  change (IPPROTO_UDP =? IPPROTO_UDP) with true. cbv iota. unfold handle_udp_packet.
  change (sizeof_ether_hdr + sizeof_ipv4_hdr + 2) with 36. by rewrite Hport.
Qed.

Lemma prepare_message_runs pkt port src dst msgtype inst rnd worker_id node_id request_id ts value size mine :
  78 <= Z.of_nat (length (data pkt)) -> value_fits value size ->
  exists m old,
    prepare_paxos_message pkt port src dst msgtype inst rnd worker_id node_id request_id ts value size = Some m /\
    length (data m) = length (data pkt) /\ data_len m = 78 /\ pkt_len m = 78 /\ message_frame src dst (data m) /\
    read_at (data pkt) 58 8 = Some old /\
    get_paxos_hdr (data m) get_paxos_offset =
      Some {| px_msgtype := u8 msgtype; px_worker_id := u8 worker_id; px_rnd := u16 rnd; px_inst := u32 inst;
              px_log_index := u16 (Z.land inst 255); px_vrnd := 0; px_acptid := u16 node_id; px_reserved := 0;
              px_value := new_value old value size; px_request_id := u32 request_id;
              px_igress_ts := ts mod 2 ^ 64 |} /\
    pre_process mine m =
      Some (if u16 (sin_port dst) =? P4XOS_PORT then PAXOS_PACKET else NON_PAXOS_PACKET, m).
Proof.
  intros Hp Hv. unfold prepare_paxos_message, set_ether_hdr.
  pose proof (macaddr_length port) as Hmac.
  edestruct (write_fields_spec (data pkt)) as (p1 & -> & Hl1 & Hin1 & Hout1); [fields_tac|].
  cbn [mbind option_bind]. cbv zeta.
  change (sizeof_ether_hdr + sizeof_ipv4_hdr) with 34. change (34 + sizeof_udp_hdr) with 42.
  destruct (get_paxos_hdr_total p1 42) as (old & -> & Hok & Hold); [lia|unfold sizeof_paxos_hdr; lia|].
  cbn [mbind option_bind].
  destruct (set_paxos_hdr_runs old msgtype inst rnd worker_id node_id request_id ts value size Hok Hv)
    as (h & -> & Hh & Hdef). cbn [mbind option_bind].
  destruct (put_get_paxos_hdr p1 42 h) as (p2 & -> & Hl2 & Hget & Hout2); [lia|unfold sizeof_paxos_hdr; lia|done|].
  cbn [mbind option_bind].
  assert (get_be p2 12 2 = Some ETHER_TYPE_IPv4) as Hty.
  { rewrite (get_be_same p1 p2) by (apply Hout2; lia).
    by rewrite (get_be_field _ _ 2 2 _ eq_refl (Hin1 12 _ ltac:(field_in))). }
  destruct (headers_run p2 src dst) as (p3 & Hrun & Hl3 & Hframe & Hout3); [lia|done|].
  change (sizeof_udp_hdr + sizeof_paxos_hdr) with 44. change (42 + sizeof_paxos_hdr) with 78.
  change sizeof_ether_hdr with 14. change (34 + 4) with 38.
  apply bind_Some in Hrun as (q1 & -> & Hrun). cbn [mbind option_bind] in *.
  apply bind_Some in Hrun as (q2 & -> & Hrun). cbn [mbind option_bind] in *.
  apply bind_Some in Hrun as (q3 & -> & Hrun). cbn [mbind option_bind] in *.
  rewrite Hrun. cbn [mbind option_bind].
  eexists _, (px_value old). split; [done|]. cbn [data data_len pkt_len set_data set_lengths].
  split; [congruence|]. split; [done|]. split; [done|]. split; [done|].
  rewrite <- Hout1 by fields_tac. split; [done|]. change get_paxos_offset with 42. split.
  { rewrite (get_paxos_hdr_same p2 p3) by (intros; apply Hout3; lia). by rewrite <- Hdef. }
  by apply (pre_process_frame src).
Qed.

(** C22. A message prepared in a buffer of at least 78 bytes is a frame of 78 bytes
    whose headers name the two addresses and ports.  Its Paxos header has the
    arguments in its fields; the value's bytes after [size], or all of them without a
    value, are those the buffer had.  The receiver hands it to the Paxos
    handler exactly when it is sent to port 9081, unchanged.  The IPv4 total
    length is 78: that of the frame, 14 more than that of the IPv4 packet. *)
Theorem prepared_message_parses pkt port src dst msgtype inst rnd worker_id node_id request_id ts value size mine :
  78 <= Z.of_nat (length (data pkt)) -> value_fits value size ->
  exists m old,
    prepare_paxos_message pkt port src dst msgtype inst rnd worker_id node_id request_id ts value size = Some m /\
    length (data m) = length (data pkt) /\ data_len m = 78 /\ pkt_len m = 78 /\ message_frame src dst (data m) /\
    read_at (data pkt) 58 8 = Some old /\
    get_paxos_hdr (data m) get_paxos_offset =
      Some {| px_msgtype := u8 msgtype; px_worker_id := u8 worker_id; px_rnd := u16 rnd; px_inst := u32 inst;
              px_log_index := u16 (Z.land inst 255); px_vrnd := 0; px_acptid := u16 node_id; px_reserved := 0;
              px_value := new_value old value size; px_request_id := u32 request_id;
              px_igress_ts := ts mod 2 ^ 64 |} /\
    pre_process mine m =
      Some (if u16 (sin_port dst) =? P4XOS_PORT then PAXOS_PACKET else NON_PAXOS_PACKET, m).
Proof. apply prepare_message_runs. Qed.

(** One write, with what is read afterwards. *)
Lemma write_step p off bs :
  0 <= off -> off + Z.of_nat (length bs) <= Z.of_nat (length p) ->
  exists p', write_at p off bs = Some p' /\ length p' = length p /\
    read_at p' off (Z.of_nat (length bs)) = Some bs /\
    forall off' n, off' + n <= off \/ off + Z.of_nat (length bs) <= off' -> read_at p' off' n = read_at p off' n.
Proof.
  intros Ho Hl. destruct (write_at_in p off bs Ho Hl) as [p' Hw]. exists p'. split; [done|].
  split; [by apply write_at_Some in Hw as (_ & _ & ? & _)|].
  split; [by eapply read_write_same|]. intros. by eapply read_write_other.
Qed.

(** An ARP request for the address of the node is answered: the reply goes to
    the sender of the frame, names the address of the port as the hardware
    address of the node, and carries the sender's own addresses as target;
    every other byte of the frame is that of the request. *)
Theorem arp_request_answered mine pkt :
  42 <= Z.of_nat (length (data pkt)) -> get_be (data pkt) 12 2 = Some ETHER_TYPE_ARP ->
  get_addr (data pkt) 38 = Some mine -> get_be (data pkt) 20 2 = Some ARP_OP_REQUEST ->
  exists eth_src sha sip p',
    read_at (data pkt) 6 6 = Some eth_src /\ read_at (data pkt) 22 6 = Some sha /\
    read_at (data pkt) 28 4 = Some sip /\
    pre_process mine pkt = Some (SUCCESS, set_data pkt p') /\ length p' = length (data pkt) /\
    read_at p' 0 6 = Some eth_src /\ read_at p' 6 6 = Some (macaddr (mbuf_port pkt)) /\
    get_be p' 20 2 = Some ARP_OP_REPLY /\ read_at p' 22 6 = Some (macaddr (mbuf_port pkt)) /\
    get_addr p' 28 = Some mine /\ read_at p' 32 6 = Some sha /\ read_at p' 38 4 = Some sip /\
    forall off n, 12 <= off /\ off + n <= 20 \/ 42 <= off -> read_at p' off n = read_at (data pkt) off n.
Proof.
  intros Hp Ht Htip Hop. pose proof (macaddr_length (mbuf_port pkt)) as Hmac.
  assert (is_u32 mine) as Hmine.
  { unfold get_addr in Htip. apply fmap_Some in Htip as (bs & Hr%read_at_length & ->).
    pose proof (le_combine_range bs). rewrite Hr in *. lia. }
  destruct (read_at_in (data pkt) 6 6) as (eth_src & He & Hle); [lia..|].
  destruct (read_at_in (data pkt) 22 6) as (sha & Hs & Hls); [lia..|].
  destruct (read_at_in (data pkt) 28 4) as (sip & Hi & Hli); [lia..|].
  unfold pre_process. rewrite Ht. cbn [mbind option_bind].
  change (ETHER_TYPE_ARP =? ETHER_TYPE_ARP) with true. cbv iota. change sizeof_ether_hdr with 14.
  unfold handle_arp_packet. change (14 + 24) with 38. change (14 + 6) with 20. change (14 + 8) with 22.
  change (14 + 18) with 32. change (14 + 14) with 28.
  rewrite Htip, Hop. cbn [mbind option_bind]. rewrite (Z.eqb_refl mine).
  change (ARP_OP_REQUEST =? ARP_OP_REQUEST) with true. cbn [negb].
  destruct (write_step (data pkt) 20 (be_split 2 ARP_OP_REPLY)) as (p1 & -> & L1 & R1 & O1);
    [lia|rewrite length_be_split; lia|]. rewrite length_be_split in *. cbn [mbind option_bind].
  rewrite (O1 6 6), He by lia. cbn [mbind option_bind].
  destruct (write_step p1 0 eth_src) as (p2 & -> & L2 & R2 & O2); [lia..|]. cbn [mbind option_bind].
  destruct (write_step p2 6 (macaddr (mbuf_port pkt))) as (p3 & -> & L3 & R3 & O3); [lia..|]. cbn [mbind option_bind].
  rewrite (O3 22), (O2 22), (O1 22), Hs by lia. cbn [mbind option_bind].
  destruct (write_step p3 32 sha) as (p4 & -> & L4 & R4 & O4); [lia..|]. cbn [mbind option_bind].
  rewrite (O4 28), (O3 28), (O2 28), (O1 28), Hi by lia. cbn [mbind option_bind].
  destruct (write_step p4 38 sip) as (p5 & -> & L5 & R5 & O5); [lia..|]. cbn [mbind option_bind].
  rewrite (O5 6), (O4 6) by lia. rewrite Hmac in R3. change (Z.of_nat 6) with 6 in R3. rewrite R3. cbn [mbind option_bind].
  destruct (write_step p5 22 (macaddr (mbuf_port pkt))) as (p6 & -> & L6 & R6 & O6); [lia..|]. cbn [mbind option_bind].
  destruct (write_step p6 28 (le_split 4 mine)) as (p7 & -> & L7 & R7 & O7); [lia|rewrite length_le_split; lia|].
  cbn [mbind option_bind]. eexists eth_src, sha, sip, p7.
  rewrite Hle, Hls, Hli, Hmac, ?length_le_split in *.
  do 4 (split; [done|]). split; [congruence|].
  split; [by rewrite O7, O6, O5, O4, O3 by lia|]. split; [by rewrite O7, O6, O5, O4 by lia|].
  split; [rewrite (get_be_same p1 p7) by (rewrite O7, O6, O5, O4, O3, O2 by lia; done); 
    by rewrite (get_be_field p1 20 2 2 ARP_OP_REPLY eq_refl) by (by rewrite length_be_split)|].
  split; [by rewrite O7 by lia|].
  split; [rewrite (get_addr_field p7 28 mine) by (by rewrite length_le_split); f_equal; unfold u32; apply Z.mod_small; lia|].
  split; [by rewrite O7, O6, O5 by lia|]. split; [by rewrite O7, O6 by lia|].
  intros off n Ho. by rewrite O7, O6, O5, O4, O3, O2, O1 by lia.
Qed.

(** The sum of the 16-bit words of a message: its Internet checksum is right
    when the sum is zero in the arithmetic of one's complement. *)
Fixpoint word_sum (bs : list byte) : Z :=
  match bs with
  | a :: b :: bs => be_combine [a; b] + word_sum bs
  | [a] => be_combine [a; x00]
  | [] => 0
  end.

Definition cksum_right (bs : list byte) : Prop := word_sum bs mod 65535 = 0.

Lemma word_sum_type a b bs : Z_of_byte a = 8 -> Z_of_byte b = 0 -> word_sum (a :: bs) = word_sum (b :: bs) + 2048.
Proof. intros Ha Hb. destruct bs as [|c bs]; unfold word_sum, be_combine; simpl; rewrite Ha, Hb; lia. Qed.

Lemma read_at_drop p o :
  0 <= o <= Z.of_nat (length p) -> read_at p o (Z.of_nat (length p) - o) = Some (drop (Z.to_nat o) p).
Proof.
  intros Ho. apply read_at_Some. split_and!; [lia..|]. symmetry. apply take_ge. rewrite length_drop. lia.
Qed.

Lemma read_at_byte p o bs :
  0 <= o -> read_at p o 1 = Some bs -> exists b, bs = [b] /\ drop (Z.to_nat o) p = b :: drop (Z.to_nat (o + 1)) p.
Proof.
  intros Ho (_ & _ & Hl & ->)%read_at_Some. change (Z.to_nat 1) with 1%nat.
  destruct (drop (Z.to_nat o) p) as [|b r] eqn:E.
  { apply (f_equal length) in E. rewrite length_drop in E. simpl in E. lia. }
  exists b. split; [done|]. f_equal. replace (Z.to_nat (o + 1)) with (Z.to_nat o + 1)%nat by lia.
  by rewrite <- drop_drop, E.
Qed.

Lemma cksum_type_wrong p p' n :
  get_be p 34 1 = Some IP_ICMP_ECHO_REQUEST -> read_at p' 34 1 = Some (be_split 1 IP_ICMP_ECHO_REPLY) ->
  drop 35 p' = drop 35 p -> (0 < n)%nat -> cksum_right (take n (drop 34 p)) -> ~ cksum_right (take n (drop 34 p')).
Proof.
  intros (bs & Hr & Hbs)%fmap_Some Hr' Hd Hn. change 34%nat with (Z.to_nat 34).
  apply read_at_byte in Hr as (a & -> & ->); [|lia]. apply read_at_byte in Hr' as (b & Hb & ->); [|lia].
  change (Z.to_nat (34 + 1)) with 35%nat. rewrite Hd. destruct n as [|n]; [lia|]. rewrite !firstn_cons.
  injection Hb as <-. change (8 = Z_of_byte a + 256 * 0) in Hbs. unfold cksum_right.
  rewrite (word_sum_type a (byte_of_Z IP_ICMP_ECHO_REPLY)) by (done || lia).
  intros H1 H2. apply Z.mod_divide in H1 as [x Hx]; [|lia]. apply Z.mod_divide in H2 as [y Hy]; [|lia]. lia.
Qed.

(** An echo request to the node is sent back with the addresses exchanged and
    the type of a reply; the rest of the ICMP message is as it was, its checksum
    too.  So the checksum of the reply is wrong whenever that of the request
    was right, over any length of the message. *)
Theorem echo_reply_cksum_wrong mine pkt n :
  42 <= Z.of_nat (length (data pkt)) -> get_be (data pkt) 12 2 = Some ETHER_TYPE_IPv4 ->
  get_be (data pkt) 23 1 = Some IPPROTO_ICMP -> get_be (data pkt) 34 1 = Some IP_ICMP_ECHO_REQUEST ->
  get_addr (data pkt) 30 = Some mine -> (0 < n)%nat -> cksum_right (take n (drop 34 (data pkt))) ->
  exists p',
    pre_process mine pkt = Some (SUCCESS, set_data pkt p') /\ length p' = length (data pkt) /\
    read_at p' 0 6 = read_at (data pkt) 6 6 /\ read_at p' 30 4 = read_at (data pkt) 26 4 /\
    get_be p' 34 1 = Some IP_ICMP_ECHO_REPLY /\ drop 35 p' = drop 35 (data pkt) /\
    ~ cksum_right (take n (drop 34 p')).
Proof.
  intros Hp Ht Hproto Hty Hdst Hn Hck. pose proof (macaddr_length (mbuf_port pkt)) as Hmac.
  destruct (read_at_in (data pkt) 6 6) as (eth_src & He & Hle); [lia..|].
  destruct (read_at_in (data pkt) 26 4) as (sip & Hi & Hli); [lia..|].
  unfold pre_process, handle_ip_packet. rewrite Ht. cbn [mbind option_bind].
  change (ETHER_TYPE_IPv4 =? ETHER_TYPE_ARP) with false. change (ETHER_TYPE_IPv4 =? ETHER_TYPE_IPv4) with true.
  cbv iota. change (sizeof_ether_hdr + 9) with 23. change (sizeof_ether_hdr + sizeof_ipv4_hdr) with 34.
  change sizeof_ether_hdr with 14. rewrite Hproto. cbn [mbind option_bind].
  change (IPPROTO_ICMP =? IPPROTO_UDP) with false. change (IPPROTO_ICMP =? IPPROTO_ICMP) with true. cbv iota.
  unfold handle_icmp_packet. change (14 + 16) with 30. change (14 + 12) with 26.
  rewrite Hty, Hdst. cbn [mbind option_bind]. rewrite (Z.eqb_refl mine).
  change (IP_ICMP_ECHO_REQUEST =? IP_ICMP_ECHO_REQUEST) with true. cbn [negb].
  destruct (write_step (data pkt) 34 (be_split 1 IP_ICMP_ECHO_REPLY)) as (p1 & -> & L1 & R1 & O1);
    [lia|rewrite length_be_split; lia|]. rewrite length_be_split in *. cbn [mbind option_bind].
  rewrite (O1 6 6), He by lia. cbn [mbind option_bind].
  destruct (write_step p1 0 eth_src) as (p2 & -> & L2 & R2 & O2); [lia..|]. cbn [mbind option_bind].
  destruct (write_step p2 6 (macaddr (mbuf_port pkt))) as (p3 & -> & L3 & R3 & O3); [lia..|]. cbn [mbind option_bind].
  rewrite (O3 26), (O2 26), (O1 26), Hi by lia. cbn [mbind option_bind].
  destruct (write_step p3 30 sip) as (p4 & -> & L4 & R4 & O4); [lia..|]. cbn [mbind option_bind].
  destruct (write_step p4 26 (le_split 4 mine)) as (p5 & -> & L5 & R5 & O5); [lia|rewrite length_le_split; lia|].
  cbn [mbind option_bind]. rewrite Hle, Hli, Hmac, ?length_le_split in *.
  assert (read_at p5 34 1 = Some (be_split 1 IP_ICMP_ECHO_REPLY)) as Hr by (by rewrite O5, O4, O3, O2 by lia).
  assert (drop 35 p5 = drop 35 (data pkt)) as Hd.
  { apply (inj Some). change 35%nat with (Z.to_nat 35). rewrite <- !read_at_drop by lia.
    rewrite O5, O4, O3, O2, O1 by lia. by rewrite L5, L4, L3, L2, L1. }
  exists p5. split; [done|]. split; [congruence|]. split; [rewrite O5, O4, O3 by lia; congruence|].
  split; [rewrite O5 by lia; congruence|]. split; [unfold get_be; by rewrite Hr|]. split; [done|].
  by eapply cksum_type_wrong.
Qed.
End messages.

(** ** An instance: one card *)

Definition sim_eth : Eth :=
  {| macaddr _ := [x02; x00; x00; x00; x00; x01]; phdr_cksum _ _ := 0; PKT_TX_FLAGS := 0 |}.

Lemma sim_eth_laws : @EthLaws sim_eth.
Proof. by constructor. Qed.


Lemma prepared_message_parses_witness :
  exists m, @prepare_paxos_message sim_eth (RteMbuf (repeat x00 80) 0 0 0 0 0 0 0) 0 (SockaddrIn 48153 1) (SockaddrIn P4XOS_PORT 2)
    2 7 1 0 3 5 9 (Some [x61; x62]) 2 = Some m /\ @pre_process sim_eth 2 m = Some (PAXOS_PACKET, m) /\
    px_value <$> get_paxos_hdr (data m) get_paxos_offset = Some [x61; x62; x00; x00; x00; x00; x00; x00].
Proof.
  destruct (@prepared_message_parses sim_eth sim_eth_laws (RteMbuf (repeat x00 80) 0 0 0 0 0 0 0) 0 (SockaddrIn 48153 1)
    (SockaddrIn P4XOS_PORT 2) 2 7 1 0 3 5 9 (Some [x61; x62]) 2 2) as (m & old & Hm & _ & _ & _ & _ & Hold & Hh & Hp).
  - simpl. lia.
  - split; vm_compute; congruence.
  - exists m. split; [exact Hm|]. split; [exact Hp|]. rewrite Hh. simpl in Hold. injection Hold as <-. reflexivity.
Defined.

(** A request for the address 1.0.0.0. *)
Definition arp_request : list byte :=
  repeat xff 6 ++ [x0a; x0b; x0c; x0d; x0e; x0f; x08; x06; x00; x01; x08; x00; x06; x04; x00; x01] ++
  [x0a; x0b; x0c; x0d; x0e; x0f; x05; x00; x00; x00] ++ repeat x00 6 ++ [x01; x00; x00; x00].

Lemma arp_request_answered_witness :
  exists p', @pre_process sim_eth 1 (RteMbuf arp_request 42 42 0 0 0 0 0) =
               Some (SUCCESS, RteMbuf p' 42 42 0 0 0 0 0) /\ read_at p' 38 4 = Some [x05; x00; x00; x00].
Proof.
  destruct (@arp_request_answered sim_eth sim_eth_laws 1 (RteMbuf arp_request 42 42 0 0 0 0 0))
    as (eth_src & sha & sip & p' & _ & _ & Hsip & Hrun & _ & _ & _ & _ & _ & _ & _ & Htip & _);
    [vm_compute; congruence|reflexivity..|].
  exists p'. split; [exact Hrun|]. rewrite Htip. rewrite <- Hsip. reflexivity.
Defined.

(** An echo request to 1.0.0.0 whose ICMP message of 8 bytes has the right
    checksum. *)
Definition echo_request : list byte :=
  repeat x01 12 ++ [x08; x00; x45; x00; x00; x1c; x00; x00; x00; x00; x40; x01; x00; x00; x05; x00; x00; x00] ++
  [x01; x00; x00; x00; x08; x00; xf7; xff; x00; x00; x00; x00].

Lemma echo_reply_cksum_wrong_witness :
  exists p', @pre_process sim_eth 1 (RteMbuf echo_request 42 42 0 0 0 0 0) =
               Some (SUCCESS, RteMbuf p' 42 42 0 0 0 0 0) /\ ~ cksum_right (take 8 (drop 34 p')).
Proof.
  destruct (@echo_reply_cksum_wrong sim_eth sim_eth_laws 1 (RteMbuf echo_request 42 42 0 0 0 0 0) 8)
    as (p' & Hrun & _ & _ & _ & _ & _ & Hck); [vm_compute; congruence|reflexivity..|lia|reflexivity|].
  exists p'. split; [exact Hrun|exact Hck].
Defined.
