(* ===== verification/P4Dpdk.v ===== *)
(** * DPDK, as the data plane uses it

    A packet, a ring, a memory pool and a routing table are pointers, [NULL]
    being 0.  [Dpdk] has the functions the sources call and [DpdkLaws] what they
    promise, through a view: the packets that were obtained (read from the network or
    allocated), sent and freed, and the content of every ring. *)

From S2P Require Import Prelude Bytes PaxosTypes EvConfig P4Packet.

Notation mbuf := Z (only parsing).
Notation ring := Z (only parsing).
Definition NULL : Z := 0.

(** ** DPDK *)

Class Dpdk := {
  RTE_MAX_LCORE : Z;
  RTE_MAX_ETHPORTS : Z;
  rte_lcore_to_socket_id : Z -> Z;
  rte_lcore_is_enabled : Z -> bool;
  (** the devices, the pools, the rings and the packets *)
  dev : Type;
  (** port, queue and number *)
  rte_eth_rx_burst : dev -> Z -> Z -> Z -> list mbuf * dev;
  (** port, queue and packets; how many were taken, the first ones *)
  rte_eth_tx_burst : dev -> Z -> Z -> list mbuf -> Z * dev;
  (** all of the packets or none *)
  rte_ring_sp_enqueue_bulk : dev -> ring -> list mbuf -> Z * dev;
  rte_ring_sc_dequeue_bulk : dev -> ring -> Z -> list mbuf * dev;
  (** size and socket *)
  rte_ring_create : dev -> Z -> Z -> ring * dev;
  rte_pktmbuf_pool_create : dev -> Z -> Z * dev;
  rte_lpm_create : dev -> Z -> Z * dev;
  (** table, address, depth and port *)
  rte_lpm_add : dev -> Z -> Z -> Z -> Z -> Z * dev;
  rte_lpm_lookup : dev -> Z -> Z -> option Z;
  rte_pktmbuf_free : dev -> mbuf -> dev;
  rte_pktmbuf_alloc : dev -> Z -> mbuf * dev;
  rte_pktmbuf_alloc_bulk : dev -> Z -> Z -> option (list mbuf) * dev;
  (** the packet behind a pointer *)
  mbuf_get : dev -> mbuf -> option rte_mbuf;
  mbuf_set : dev -> mbuf -> rte_mbuf -> dev;
  rte_get_timer_cycles : dev -> Z * dev;
}.

Record view := View {
  obtained : list mbuf;
  sent : list (Z * mbuf);
  freed : list mbuf;
  contents : Z -> list mbuf;
}.

Definition set_contents (f : Z -> list mbuf) (r : ring) (l : list mbuf) : Z -> list mbuf :=
  fun r' => if decide (r' = r) then l else f r'.

Class DpdkLaws `{Dpdk} := {
  view_of : dev -> view;
  ring_size : ring -> Z;
  max_lcore : 0 < RTE_MAX_LCORE < 2 ^ 31;
  max_ethports : 0 < RTE_MAX_ETHPORTS < 2 ^ 16;
  rx_burst_law d port queue n l d' :
    rte_eth_rx_burst d port queue n = (l, d') ->
    Z.of_nat (length l) <= Z.max 0 n /\ (forall m, m ∈ l -> is_Some (mbuf_get d' m)) /\
    view_of d' = View (obtained (view_of d) ++ l) (sent (view_of d)) (freed (view_of d)) (contents (view_of d));
  tx_burst_law d port queue l k d' :
    rte_eth_tx_burst d port queue l = (k, d') ->
    0 <= k <= Z.of_nat (length l) /\
    view_of d' = View (obtained (view_of d)) (sent (view_of d) ++ map (pair port) (take (Z.to_nat k) l))
                   (freed (view_of d)) (contents (view_of d));
  enqueue_law d r l k d' :
    rte_ring_sp_enqueue_bulk d r l = (k, d') ->
    if Z.of_nat (length (contents (view_of d) r) + length l) <=? ring_size r
    then k = Z.of_nat (length l) /\
      view_of d' = View (obtained (view_of d)) (sent (view_of d)) (freed (view_of d))
                     (set_contents (contents (view_of d)) r (contents (view_of d) r ++ l))
    else k = 0 /\ view_of d' = view_of d;
  dequeue_law d r n l d' :
    rte_ring_sc_dequeue_bulk d r n = (l, d') ->
    if n <=? Z.of_nat (length (contents (view_of d) r))
    then l = take (Z.to_nat n) (contents (view_of d) r) /\
      view_of d' = View (obtained (view_of d)) (sent (view_of d)) (freed (view_of d))
                     (set_contents (contents (view_of d)) r (drop (Z.to_nat n) (contents (view_of d) r)))
    else l = [] /\ view_of d' = view_of d;
  free_law d m :
    view_of (rte_pktmbuf_free d m) =
      View (obtained (view_of d)) (sent (view_of d)) (freed (view_of d) ++ [m]) (contents (view_of d));
  free_get_law d m m' : m' <> m -> mbuf_get (rte_pktmbuf_free d m) m' = mbuf_get d m';
  enqueue_get_law d r l m : mbuf_get (rte_ring_sp_enqueue_bulk d r l).2 m = mbuf_get d m;
  dequeue_get_law d r n m : mbuf_get (rte_ring_sc_dequeue_bulk d r n).2 m = mbuf_get d m;
  (** the rings that exist; a new one is empty *)
  created : dev -> gset Z;
  ring_create_law d size socket r d' :
    rte_ring_create d size socket = (r, d') -> r <> NULL ->
    r ∉ created d /\ created d' = {[r]} ∪ created d /\
    view_of d' = View (obtained (view_of d)) (sent (view_of d)) (freed (view_of d))
                   (set_contents (contents (view_of d)) r []);
  set_law d m p : view_of (mbuf_set d m p) = view_of d;
  get_set_law d m p m' :
    mbuf_get (mbuf_set d m p) m' = if decide (m' = m) then Some p else mbuf_get d m';
}.
