(* ===== verification/P4Sim.v ===== *)
(** * A simple DPDK

    An instance of [Dpdk] and its laws to run the data plane on: four
    cores, two ports, rings of 63 packets, one queue of packets to be read, and a
    card that sends what it is given, or with [part] one packet at a time.  It
    shows that the laws can hold; nothing is proved from it. *)

From S2P Require Import Prelude Bytes PaxosTypes EvConfig P4Packet P4Dpdk.

Record sim_dev := SimDev {
  sim_view : view;
  sim_heap : gmap Z rte_mbuf;
  sim_rx : list mbuf;
  sim_next : Z;
  sim_cycles : Z;
}.

Definition sim_set (d : sim_dev) (v : view) : sim_dev :=
  {| sim_view := v; sim_heap := sim_heap d; sim_rx := sim_rx d; sim_next := sim_next d; sim_cycles := sim_cycles d |}.

(** The packet is not in the hands of the program. *)
Definition sim_free (d : sim_dev) (m : mbuf) : Prop :=
  m <> NULL /\ is_Some (sim_heap d !! m) /\
  length (filter (fun x => x = m) (obtained (sim_view d))) =
  (length (filter (fun x => x = m) (sent (sim_view d)).*2) + length (filter (fun x => x = m) (freed (sim_view d))))%nat.

Definition sim_burst (d : sim_dev) (n : Z) : list mbuf :=
  let l := take (Z.to_nat n) (sim_rx d) in
  if decide (NoDup l /\ Forall (sim_free d) l) then l else [].

Definition sim_new_ring (d : sim_dev) : Z := Z.max 1 (sim_next d).

Definition sim_blank : rte_mbuf := RteMbuf (repeat x00 128) 0 0 0 0 0 0 0.

Definition sim_ring_size : Z := 63.

Definition sim (part : bool) : Dpdk := {|
  RTE_MAX_LCORE := 4;
  RTE_MAX_ETHPORTS := 2;
  rte_lcore_to_socket_id _ := 0;
  rte_lcore_is_enabled _ := true;
  dev := sim_dev;
  rte_eth_rx_burst d _ _ n :=
    let l := sim_burst d n in
    let v := sim_view d in
    (l, {| sim_view := View (obtained v ++ l) (sent v) (freed v) (contents v); sim_heap := sim_heap d;
           sim_rx := drop (length l) (sim_rx d); sim_next := sim_next d; sim_cycles := sim_cycles d |});
  rte_eth_tx_burst d port _ l :=
    let k := if part then Nat.min 1 (length l) else length l in
    let v := sim_view d in
    (Z.of_nat k, sim_set d (View (obtained v) (sent v ++ map (pair port) (take k l)) (freed v) (contents v)));
  rte_ring_sp_enqueue_bulk d r l :=
    let v := sim_view d in
    if Z.of_nat (length (contents v r) + length l) <=? sim_ring_size
    then (Z.of_nat (length l), sim_set d (View (obtained v) (sent v) (freed v) (set_contents (contents v) r (contents v r ++ l))))
    else (0, d);
  rte_ring_sc_dequeue_bulk d r n :=
    let v := sim_view d in
    if n <=? Z.of_nat (length (contents v r))
    then (take (Z.to_nat n) (contents v r),
          sim_set d (View (obtained v) (sent v) (freed v) (set_contents (contents v) r (drop (Z.to_nat n) (contents v r)))))
    else ([], d);
  rte_ring_create d _ _ :=
    let r := sim_new_ring d in
    let v := sim_view d in
    (r, {| sim_view := View (obtained v) (sent v) (freed v) (set_contents (contents v) r []); sim_heap := sim_heap d;
           sim_rx := sim_rx d; sim_next := r + 1; sim_cycles := sim_cycles d |});
  rte_pktmbuf_pool_create d _ := (1, d);
  rte_lpm_create d _ := (1, d);
  rte_lpm_add d _ _ _ _ := (0, d);
  rte_lpm_lookup _ _ _ := Some 0;
  rte_pktmbuf_free d m :=
    let v := sim_view d in sim_set d (View (obtained v) (sent v) (freed v ++ [m]) (contents v));
  rte_pktmbuf_alloc d _ :=
    let m := 1000 + Z.max 0 (sim_next d) in
    let v := sim_view d in
    (m, {| sim_view := View (obtained v ++ [m]) (sent v) (freed v) (contents v); sim_heap := <[m := sim_blank]> (sim_heap d);
           sim_rx := sim_rx d; sim_next := sim_next d + 1; sim_cycles := sim_cycles d |});
  rte_pktmbuf_alloc_bulk d _ n :=
    let l := seqZ (1000 + Z.max 0 (sim_next d)) n in
    let v := sim_view d in
    (Some l, {| sim_view := View (obtained v ++ l) (sent v) (freed v) (contents v); sim_heap := foldr (fun m h => <[m := sim_blank]> h) (sim_heap d) l;
                sim_rx := sim_rx d; sim_next := sim_next d + Z.max 0 n; sim_cycles := sim_cycles d |});
  mbuf_get d m := sim_heap d !! m;
  mbuf_set d m p := {| sim_view := sim_view d; sim_heap := <[m := p]> (sim_heap d); sim_rx := sim_rx d;
                       sim_next := sim_next d; sim_cycles := sim_cycles d |};
  rte_get_timer_cycles d := (sim_cycles d, {| sim_view := sim_view d; sim_heap := sim_heap d; sim_rx := sim_rx d;
                                              sim_next := sim_next d; sim_cycles := sim_cycles d + 1 |});
|}.

Lemma sim_burst_ok d n : NoDup (sim_burst d n) /\ Forall (sim_free d) (sim_burst d n) /\ Z.of_nat (length (sim_burst d n)) <= Z.max 0 n.
Proof.
  unfold sim_burst. destruct (decide _) as [[Hnd Hf]|]; [|split_and!; [by apply NoDup_nil|by apply Forall_nil|simpl; lia]].
  split_and!; [done..|]. rewrite length_take. lia.
Qed.

Definition sim_laws (part : bool) : @DpdkLaws (sim part).
Proof.
  refine (@Build_DpdkLaws (sim part) sim_view (fun _ => sim_ring_size) _ _ _ _ _ _ _ _ _ _
            (fun d => list_to_set (seqZ 1 (sim_new_ring d - 1))) _ _ _); simpl.
  - lia.
  - lia.
  - intros d _ _ n l d' [= <- <-]. destruct (sim_burst_ok d n) as (_ & Hf & Hl). split_and!; [done| |done].
    intros m Hm. simpl. rewrite Forall_forall in Hf. by apply (Hf m).
  - intros d port _ l k d' [= <- <-]. rewrite Nat2Z.id. split; [destruct part, l; simpl; lia|done].
  - intros d r l k d'. destruct (_ <=? sim_ring_size); by intros [= <- <-].
  - intros d r n l d'. destruct (n <=? _); by intros [= <- <-].
  - done.
  - done.
  - intros d r l m. by destruct (_ <=? sim_ring_size).
  - intros d r n m. by destruct (n <=? _).
  - intros d _ _ r d' [= <- <-] _. simpl. unfold sim_new_ring. simpl. split_and!; [|apply set_eq; intros x|done].
    + rewrite elem_of_list_to_set, elem_of_seqZ. lia.
    + rewrite elem_of_union, elem_of_singleton, !elem_of_list_to_set, !elem_of_seqZ. lia.
  - done.
  - intros d m p m'. simpl. destruct (decide (m' = m)) as [->|Hne]; [by rewrite lookup_insert_eq|by rewrite lookup_insert_ne].
Defined.
