(* ===== verification/P4App.v ===== *)
(** * The cores of the data plane ([p4xos/include/main.h], [init.c], [config.c])

    The global [app]: one record per logical core, its type and the arrays the
    cores exchange packets through; the lookups of [config.c] over it, and the
    part of [init.c] that numbers the workers and connects the cores with
    rings.  The union of an I/O core and of a worker is a sum: a core takes its
    type once, from the zeroed state.

    [None] is an access outside an array, or the end of the process by
    [rte_panic]. *)

From S2P Require Import Prelude Bytes PaxosTypes EvConfig P4Packet P4Dpdk P4Sim.

(** ** The records of [main.h] *)

Definition APP_MAX_SOCKETS : Z := 2.
Definition APP_MAX_RX_QUEUES_PER_NIC_PORT : Z := 128.
Definition APP_MAX_NIC_RX_QUEUES_PER_IO_LCORE : Z := 16.
Definition APP_MAX_NIC_TX_PORTS_PER_IO_LCORE : Z := 16.
Definition APP_MAX_LPM_RULES : Z := 1024.
Definition APP_MBUF_ARRAY_SIZE : Z := 512.

Record app_mbuf_array := AppMbufArray { array : list mbuf; n_mbufs : Z }.

(** The outputs of a core: a ring, a buffer, a flush flag and statistics for
    each.  They are members of [app_lcore_params_io.rx] (one for each worker) and
    of [app_lcore_params_worker] (one for each port). *)
Record outputs := Outputs {
  rings : list ring;
  mbuf_out : list app_mbuf_array;
  mbuf_out_flush : list Z;
  rings_count : list Z;
  rings_drop : list Z;
  rings_iters : list Z;
}.

Record io_rx := IoRx {
  nic_queues : list (Z * Z);
  n_nic_queues : Z;
  rx_out : outputs;
  n_rings : Z;
  rx_mbuf_in : app_mbuf_array;
  nic_queues_count : list Z;
  nic_queues_iters : list Z;
}.

Record io_tx := IoTx {
  tx_rings : list (list ring);
  nic_ports : list Z;
  n_nic_ports : Z;
  tx_mbuf_out : list app_mbuf_array;
  tx_mbuf_out_flush : list Z;
  nic_ports_count : list Z;
  nic_ports_iters : list Z;
}.

Record app_lcore_params_io := AppLcoreParamsIo { rx : io_rx; tx : io_tx }.

(** [P] is the Paxos state of a worker. *)
Record app_lcore_params_worker (P : Type) := AppLcoreParamsWorker {
  rings_in : list ring;
  n_rings_in : Z;
  worker_out : outputs;
  lpm_table : Z;
  worker_id : Z;
  worker_lcore_id : Z;
  worker_mbuf_in : app_mbuf_array;
  worker_paxos : P;
}.
Arguments AppLcoreParamsWorker {P}.
Arguments rings_in {P}. Arguments n_rings_in {P}. Arguments worker_out {P}. Arguments lpm_table {P}.
Arguments worker_id {P}. Arguments worker_lcore_id {P}. Arguments worker_mbuf_in {P}. Arguments worker_paxos {P}.

Inductive lcore_union (P : Type) :=
  | e_APP_LCORE_DISABLED
  | e_APP_LCORE_IO (io : app_lcore_params_io)
  | e_APP_LCORE_WORKER (w : app_lcore_params_worker P).
Arguments e_APP_LCORE_DISABLED {P}. Arguments e_APP_LCORE_IO {P}. Arguments e_APP_LCORE_WORKER {P}.

Record app_lcore_params (P : Type) := AppLcoreParams { lcore_is : lcore_union P; pool : Z }.
Arguments AppLcoreParams {P}. Arguments lcore_is {P}. Arguments pool {P}.

Record app_lpm_rule := AppLpmRule { lpm_ip : Z; lpm_depth : Z; lpm_if_out : Z }.

Record p4xos_configuration := P4xosConfiguration {
  num_acceptors : Z;
  multi_dbs : Z;
  msgtype : Z;
  tx_port : Z;
  node_id : Z;
  client : sockaddr_in;
  mine : sockaddr_in;
  paxos_leader : sockaddr_in;
  acceptor_addr : sockaddr_in;
  learner_addr : sockaddr_in;
  osd : Z;
  max_inst : Z;
  inc_inst : Z;
  reset_inst : Z;
  baseline : Z;
  drop_ : Z;
  leader : Z;
  measure_latency : Z;
  run_prepare : Z;
  respond_to_client : Z;
  checkpoint_interval : Z;
  ts_interval : Z;
  rate : Z;
  preexec_window : Z;
  app_config : option (list byte);
}.

Record app_params (P : Type) := AppParams {
  lcore_params : list (app_lcore_params P);
  nic_rx_queue_mask : list (list Z);
  nic_tx_port_mask : list Z;
  pools : list Z;
  lpm_tables : list Z;
  lpm_rules : list app_lpm_rule;
  n_lpm_rules : Z;
  nic_rx_ring_size : Z;
  nic_tx_ring_size : Z;
  ring_rx_size : Z;
  ring_tx_size : Z;
  burst_size_io_rx_read : Z;
  burst_size_io_rx_write : Z;
  burst_size_io_tx_read : Z;
  burst_size_io_tx_write : Z;
  burst_size_worker_read : Z;
  burst_size_worker_write : Z;
  pos_lb : Z;
  p4xos_conf : p4xos_configuration;
  hz : Z;
  force_quit : bool;
  map_worker_lcore : list Z;
  map_lcore_worker : list Z;
}.
Arguments AppParams {P}.
Arguments lcore_params {P}. Arguments nic_rx_queue_mask {P}. Arguments nic_tx_port_mask {P}. Arguments pools {P}.
Arguments lpm_tables {P}. Arguments lpm_rules {P}. Arguments n_lpm_rules {P}. Arguments nic_rx_ring_size {P}.
Arguments nic_tx_ring_size {P}. Arguments ring_rx_size {P}. Arguments ring_tx_size {P}. Arguments burst_size_io_rx_read {P}.
Arguments burst_size_io_rx_write {P}. Arguments burst_size_io_tx_read {P}. Arguments burst_size_io_tx_write {P}. Arguments burst_size_worker_read {P}.
Arguments burst_size_worker_write {P}. Arguments pos_lb {P}. Arguments p4xos_conf {P}. Arguments hz {P}.
Arguments force_quit {P}. Arguments map_worker_lcore {P}. Arguments map_lcore_worker {P}.

(** ** Loops

    [for_ n i f s]: [for (; n times; i++) s = f(i, s)].  [find_ n i f]: the loop
    that returns at the first [i] where [f] has a result. *)

Fixpoint for_ {S : Type} (n : nat) (i : Z) (f : Z -> S -> option S) (s : S) : option S :=
  match n with
  | O => Some s
  | S n => s ← f i s; for_ n (i + 1) f s
  end.

Fixpoint find_ {A : Type} (n : nat) (i : Z) (f : Z -> option (option A)) : option (option A) :=
  match n with
  | O => Some None
  | S n => r ← f i; match r with Some x => Some (Some x) | None => find_ n (i + 1) f end
  end.

Section app.
Context {D : Dpdk} {P : Type}.
Implicit Types (a : app_params P) (w : app_lcore_params_worker P) (io : app_lcore_params_io).

Definition APP_MAX_LCORES : Z := RTE_MAX_LCORE.
Definition APP_MAX_NIC_PORTS : Z := RTE_MAX_ETHPORTS.
Definition APP_MAX_IO_LCORES : Z := if 16 <? APP_MAX_LCORES then 16 else APP_MAX_LCORES.
Definition APP_MAX_WORKER_LCORES : Z := if 16 <? APP_MAX_LCORES then 16 else APP_MAX_LCORES.

(** *** The zeroed state of a static variable *)

Definition zeros (n : Z) : list Z := repeat 0 (Z.to_nat n).
Definition zero_mbuf_array : app_mbuf_array := AppMbufArray (zeros APP_MBUF_ARRAY_SIZE) 0.
Definition zero_outputs (n : Z) : outputs :=
  Outputs (zeros n) (repeat zero_mbuf_array (Z.to_nat n)) (zeros n) (zeros n) (zeros n) (zeros n).

Definition zero_io : app_lcore_params_io :=
  AppLcoreParamsIo
    (IoRx (repeat (0, 0) (Z.to_nat APP_MAX_NIC_RX_QUEUES_PER_IO_LCORE)) 0 (zero_outputs APP_MAX_WORKER_LCORES) 0
       zero_mbuf_array (zeros APP_MAX_NIC_RX_QUEUES_PER_IO_LCORE) (zeros APP_MAX_NIC_RX_QUEUES_PER_IO_LCORE))
    (IoTx (repeat (zeros APP_MAX_WORKER_LCORES) (Z.to_nat APP_MAX_NIC_PORTS)) (zeros APP_MAX_NIC_TX_PORTS_PER_IO_LCORE) 0
       (repeat zero_mbuf_array (Z.to_nat APP_MAX_NIC_TX_PORTS_PER_IO_LCORE)) (zeros APP_MAX_NIC_TX_PORTS_PER_IO_LCORE)
       (zeros APP_MAX_NIC_TX_PORTS_PER_IO_LCORE) (zeros APP_MAX_NIC_TX_PORTS_PER_IO_LCORE)).

(** [p0] is the zeroed Paxos state. *)
Definition zero_worker (p0 : P) : app_lcore_params_worker P :=
  AppLcoreParamsWorker (zeros APP_MAX_IO_LCORES) 0 (zero_outputs APP_MAX_NIC_PORTS) 0 0 0 zero_mbuf_array p0.

Definition zero_sockaddr : sockaddr_in := SockaddrIn 0 0.

Definition zero_conf : p4xos_configuration :=
  P4xosConfiguration 0 0 0 0 0 zero_sockaddr zero_sockaddr zero_sockaddr zero_sockaddr zero_sockaddr
    0 0 0 0 0 0 0 0 0 0 0 0 0 0 None.

Definition zero_app : app_params P :=
  AppParams (repeat (AppLcoreParams e_APP_LCORE_DISABLED 0) (Z.to_nat APP_MAX_LCORES))
    (repeat (zeros APP_MAX_RX_QUEUES_PER_NIC_PORT) (Z.to_nat APP_MAX_NIC_PORTS)) (zeros APP_MAX_NIC_PORTS)
    (zeros APP_MAX_SOCKETS) (zeros APP_MAX_SOCKETS) (repeat (AppLpmRule 0 0 0) (Z.to_nat APP_MAX_LPM_RULES)) 0
    0 0 0 0 0 0 0 0 0 0 0 zero_conf 0 false (zeros APP_MAX_LCORES) (zeros APP_MAX_LCORES).

(** *** Writing a member *)

Definition set_lcore_params a (ps : list (app_lcore_params P)) : app_params P :=
  AppParams
    ps (nic_rx_queue_mask a) (nic_tx_port_mask a) (pools a) (lpm_tables a) (lpm_rules a) (n_lpm_rules a)
    (nic_rx_ring_size a) (nic_tx_ring_size a) (ring_rx_size a) (ring_tx_size a) (burst_size_io_rx_read a)
    (burst_size_io_rx_write a) (burst_size_io_tx_read a) (burst_size_io_tx_write a) (burst_size_worker_read a)
    (burst_size_worker_write a) (pos_lb a) (p4xos_conf a) (hz a) (force_quit a) (map_worker_lcore a)
    (map_lcore_worker a).

Definition set_maps a (mwl mlw : list Z) : app_params P :=
  AppParams
    (lcore_params a) (nic_rx_queue_mask a) (nic_tx_port_mask a) (pools a) (lpm_tables a) (lpm_rules a)
    (n_lpm_rules a) (nic_rx_ring_size a) (nic_tx_ring_size a) (ring_rx_size a) (ring_tx_size a)
    (burst_size_io_rx_read a) (burst_size_io_rx_write a) (burst_size_io_tx_read a) (burst_size_io_tx_write a)
    (burst_size_worker_read a) (burst_size_worker_write a) (pos_lb a) (p4xos_conf a) (hz a) (force_quit a) mwl
    mlw.

Definition set_pools a (ps : list Z) : app_params P :=
  AppParams
    (lcore_params a) (nic_rx_queue_mask a) (nic_tx_port_mask a) ps (lpm_tables a) (lpm_rules a) (n_lpm_rules
    a) (nic_rx_ring_size a) (nic_tx_ring_size a) (ring_rx_size a) (ring_tx_size a) (burst_size_io_rx_read a)
    (burst_size_io_rx_write a) (burst_size_io_tx_read a) (burst_size_io_tx_write a) (burst_size_worker_read a)
    (burst_size_worker_write a) (pos_lb a) (p4xos_conf a) (hz a) (force_quit a) (map_worker_lcore a)
    (map_lcore_worker a).

Definition set_lpm_tables a (ts : list Z) : app_params P :=
  AppParams
    (lcore_params a) (nic_rx_queue_mask a) (nic_tx_port_mask a) (pools a) ts (lpm_rules a) (n_lpm_rules a)
    (nic_rx_ring_size a) (nic_tx_ring_size a) (ring_rx_size a) (ring_tx_size a) (burst_size_io_rx_read a)
    (burst_size_io_rx_write a) (burst_size_io_tx_read a) (burst_size_io_tx_write a) (burst_size_worker_read a)
    (burst_size_worker_write a) (pos_lb a) (p4xos_conf a) (hz a) (force_quit a) (map_worker_lcore a)
    (map_lcore_worker a).

(** [app.lcore_params[lcore].io = io], and the same for a worker. *)
Definition set_lcore a (lcore : Z) (u : lcore_union P) : option (app_params P) :=
  lp ← arr_get (lcore_params a) lcore;
  ps ← arr_set (lcore_params a) lcore (AppLcoreParams u (pool lp));
  Some (set_lcore_params a ps).

Definition set_rx_ring io (r : ring) : option app_lcore_params_io :=
  let o := rx_out (rx io) in
  rs ← arr_set (rings o) (n_rings (rx io)) r;
  let o := Outputs rs (mbuf_out o) (mbuf_out_flush o) (rings_count o) (rings_drop o) (rings_iters o) in
  Some (AppLcoreParamsIo
          (IoRx (nic_queues (rx io)) (n_nic_queues (rx io)) o (u32 (n_rings (rx io) + 1)) (rx_mbuf_in (rx io))
             (nic_queues_count (rx io)) (nic_queues_iters (rx io))) (tx io)).

Definition set_ring_in w (r : ring) : option (app_lcore_params_worker P) :=
  rs ← arr_set (rings_in w) (n_rings_in w) r;
  Some (AppLcoreParamsWorker rs (u32 (n_rings_in w + 1)) (worker_out w) (lpm_table w) (worker_id w)
          (worker_lcore_id w) (worker_mbuf_in w) (worker_paxos w)).

Definition set_worker_id w (i : Z) : app_lcore_params_worker P :=
  AppLcoreParamsWorker (rings_in w) (n_rings_in w) (worker_out w) (lpm_table w) i (worker_lcore_id w)
    (worker_mbuf_in w) (worker_paxos w).

Definition set_lpm_table w (t : Z) : app_lcore_params_worker P :=
  AppLcoreParamsWorker (rings_in w) (n_rings_in w) (worker_out w) t (worker_id w) (worker_lcore_id w)
    (worker_mbuf_in w) (worker_paxos w).

Definition set_ring_out w (port : Z) (r : ring) : option (app_lcore_params_worker P) :=
  let o := worker_out w in
  rs ← arr_set (rings o) port r;
  let o := Outputs rs (mbuf_out o) (mbuf_out_flush o) (rings_count o) (rings_drop o) (rings_iters o) in
  Some (AppLcoreParamsWorker (rings_in w) (n_rings_in w) o (lpm_table w) (worker_id w) (worker_lcore_id w)
          (worker_mbuf_in w) (worker_paxos w)).

Definition set_tx_ring io (port i : Z) (r : ring) : option app_lcore_params_io :=
  row ← arr_get (tx_rings (tx io)) port;
  row ← arr_set row i r;
  rs ← arr_set (tx_rings (tx io)) port row;
  Some (AppLcoreParamsIo (rx io)
          (IoTx rs (nic_ports (tx io)) (n_nic_ports (tx io)) (tx_mbuf_out (tx io)) (tx_mbuf_out_flush (tx io))
             (nic_ports_count (tx io)) (nic_ports_iters (tx io)))).

(** ** Lookups *)

Definition n_lcores : nat := Z.to_nat APP_MAX_LCORES.

Definition app_get_nic_rx_queues_per_port a (port : Z) : option Z :=
  if APP_MAX_NIC_PORTS <=? port then Some (-1) else
  mask ← arr_get (nic_rx_queue_mask a) port;
  for_ (Z.to_nat APP_MAX_RX_QUEUES_PER_NIC_PORT) 0
    (fun i count => x ← arr_get mask i; Some (if x =? 1 then u32 (count + 1) else count)) 0.

(** [Some None] is the return of -1. *)
Definition app_get_lcore_for_nic_rx a (port queue : Z) : option (option Z) :=
  find_ n_lcores 0 (fun lcore =>
    lp ← arr_get (lcore_params a) lcore;
    match lcore_is lp with
    | e_APP_LCORE_IO io =>
        let n_queues := Z.min (n_nic_queues (rx io)) APP_MAX_NIC_RX_QUEUES_PER_IO_LCORE in
        find_ (Z.to_nat n_queues) 0 (fun i =>
          q ← arr_get (nic_queues (rx io)) i;
          Some (if (q.1 =? port) && (q.2 =? queue) then Some lcore else None))
    | _ => Some None
    end).

Definition app_get_lcore_for_nic_tx a (port : Z) : option (option Z) :=
  find_ n_lcores 0 (fun lcore =>
    lp ← arr_get (lcore_params a) lcore;
    match lcore_is lp with
    | e_APP_LCORE_IO io =>
        let n_ports := Z.min (n_nic_ports (tx io)) APP_MAX_NIC_TX_PORTS_PER_IO_LCORE in
        find_ (Z.to_nat n_ports) 0 (fun i =>
          p ← arr_get (nic_ports (tx io)) i;
          Some (if p =? port then Some lcore else None))
    | _ => Some None
    end).

Definition app_is_socket_used a (socket : Z) : option bool :=
  r ← find_ n_lcores 0 (fun lcore =>
        lp ← arr_get (lcore_params a) lcore;
        Some (match lcore_is lp with
              | e_APP_LCORE_DISABLED => None
              | _ => if socket =? rte_lcore_to_socket_id lcore then Some tt else None
              end));
  Some (match r with Some _ => true | None => false end).

(** An I/O core that reads from the network. *)
Definition is_io_rx (u : lcore_union P) : bool :=
  match u with e_APP_LCORE_IO io => negb (n_nic_queues (rx io) =? 0) | _ => false end.

Definition is_worker (u : lcore_union P) : bool :=
  match u with e_APP_LCORE_WORKER _ => true | _ => false end.

Definition app_get_lcores_io_rx a : option Z :=
  for_ n_lcores 0 (fun lcore count =>
    lp ← arr_get (lcore_params a) lcore;
    Some (if is_io_rx (lcore_is lp) then u32 (count + 1) else count)) 0.

Definition app_get_lcores_worker a : option Z :=
  count ← for_ n_lcores 0 (fun lcore count =>
            lp ← arr_get (lcore_params a) lcore;
            Some (if is_worker (lcore_is lp) then u32 (count + 1) else count)) 0;
  if APP_MAX_WORKER_LCORES <? count then None else Some count.

(** The worker is returned by its core: the pointer into [app]. *)
Definition app_get_lcore_worker a (id : Z) : option (option Z) :=
  find_ n_lcores 0 (fun lcore =>
    lp ← arr_get (lcore_params a) lcore;
    Some (match lcore_is lp with
          | e_APP_LCORE_WORKER w => if worker_id w =? id then Some lcore else None
          | _ => None
          end)).

Definition app_get_worker a (id : Z) : option (option (app_lcore_params_worker P)) :=
  find_ n_lcores 0 (fun lcore =>
    lp ← arr_get (lcore_params a) lcore;
    Some (match lcore_is lp with
          | e_APP_LCORE_WORKER w => if worker_id w =? id then Some w else None
          | _ => None
          end)).

(** ** Initialisation *)

Definition app_assign_worker_ids a : option (app_params P) :=
  s ← for_ n_lcores 0 (fun lcore '(a, i) =>
        lp ← arr_get (lcore_params a) lcore;
        match lcore_is lp with
        | e_APP_LCORE_WORKER w =>
            a ← set_lcore a lcore (e_APP_LCORE_WORKER (set_worker_id w i));
            mwl ← arr_set (map_worker_lcore a) i lcore;
            mlw ← arr_set (map_lcore_worker a) lcore i;
            Some (set_maps a mwl mlw, u32 (i + 1))
        | _ => Some (a, i)
        end) (a, 0);
  Some s.1.

Definition app_init_mbuf_pools (d : dev) a : option (dev * app_params P) :=
  '(d, a) ← for_ (Z.to_nat APP_MAX_SOCKETS) 0 (fun socket '(d, a) =>
              used ← app_is_socket_used a socket;
              if negb used then Some (d, a) else
              let '(p, d) := rte_pktmbuf_pool_create d socket in
              if p =? NULL then None else
              ps ← arr_set (pools a) socket p;
              Some (d, set_pools a ps)) (d, a);
  a ← for_ n_lcores 0 (fun lcore a =>
        lp ← arr_get (lcore_params a) lcore;
        match lcore_is lp with
        | e_APP_LCORE_DISABLED => Some a
        | u => p ← arr_get (pools a) (rte_lcore_to_socket_id lcore);
               ps ← arr_set (lcore_params a) lcore (AppLcoreParams u p);
               Some (set_lcore_params a ps)
        end) a;
  Some (d, a).

Definition app_init_lpm_tables (d : dev) a : option (dev * app_params P) :=
  '(d, a) ← for_ (Z.to_nat APP_MAX_SOCKETS) 0 (fun socket '(d, a) =>
              used ← app_is_socket_used a socket;
              if negb used then Some (d, a) else
              let '(t, d) := rte_lpm_create d socket in
              if t =? NULL then None else
              ts ← arr_set (lpm_tables a) socket t;
              d ← for_ (Z.to_nat (n_lpm_rules a)) 0 (fun rule d =>
                    r ← arr_get (lpm_rules a) rule;
                    let '(ret, d) := rte_lpm_add d t (lpm_ip r) (lpm_depth r) (lpm_if_out r) in
                    if ret <? 0 then None else Some d) d;
              Some (d, set_lpm_tables a ts)) (d, a);
  a ← for_ n_lcores 0 (fun lcore a =>
        lp ← arr_get (lcore_params a) lcore;
        match lcore_is lp with
        | e_APP_LCORE_WORKER w =>
            t ← arr_get (lpm_tables a) (rte_lcore_to_socket_id lcore);
            set_lcore a lcore (e_APP_LCORE_WORKER (set_lpm_table w t))
        | _ => Some a
        end) a;
  Some (d, a).

(** One ring from the I/O core [lcore] to the worker on [lcore_worker]. *)
Definition connect_rx (lcore lcore_worker : Z) (s : dev * app_params P) : option (dev * app_params P) :=
  let '(d, a) := s in
  lpw ← arr_get (lcore_params a) lcore_worker;
  match lcore_is lpw with
  | e_APP_LCORE_WORKER w =>
      let '(r, d) := rte_ring_create d (ring_rx_size a) (rte_lcore_to_socket_id lcore) in
      if r =? NULL then None else
      lp ← arr_get (lcore_params a) lcore;
      match lcore_is lp with
      | e_APP_LCORE_IO io =>
          io ← set_rx_ring io r;
          a ← set_lcore a lcore (e_APP_LCORE_IO io);
          w ← set_ring_in w r;
          a ← set_lcore a lcore_worker (e_APP_LCORE_WORKER w);
          Some (d, a)
      | _ => None
      end
  | _ => Some (d, a)
  end.

Definition app_init_rings_rx (d : dev) a : option (dev * app_params P) :=
  '(d, a) ← for_ n_lcores 0 (fun lcore '(d, a) =>
              lp ← arr_get (lcore_params a) lcore;
              if is_io_rx (lcore_is lp) then for_ n_lcores 0 (connect_rx lcore) (d, a) else Some (d, a)) (d, a);
  _ ← for_ n_lcores 0 (fun lcore _ =>
        lp ← arr_get (lcore_params a) lcore;
        match lcore_is lp with
        | e_APP_LCORE_IO io =>
            if n_nic_queues (rx io) =? 0 then Some tt else
            n ← app_get_lcores_worker a; assert_ (n_rings (rx io) =? n)
        | _ => Some tt
        end) tt;
  _ ← for_ n_lcores 0 (fun lcore _ =>
        lp ← arr_get (lcore_params a) lcore;
        match lcore_is lp with
        | e_APP_LCORE_WORKER w => n ← app_get_lcores_io_rx a; assert_ (n_rings_in w =? n)
        | _ => Some tt
        end) tt;
  Some (d, a).

(** One ring from the worker on [lcore] to the I/O core of [port]. *)
Definition connect_tx (lcore port : Z) (s : dev * app_params P) : option (dev * app_params P) :=
  let '(d, a) := s in
  mask ← arr_get (nic_tx_port_mask a) port;
  if mask =? 0 then Some (d, a) else
  io_lcore ← app_get_lcore_for_nic_tx a port;
  lcore_io ← io_lcore;
  let '(r, d) := rte_ring_create d (ring_tx_size a) (rte_lcore_to_socket_id lcore_io) in
  if r =? NULL then None else
  lp ← arr_get (lcore_params a) lcore;
  lpio ← arr_get (lcore_params a) lcore_io;
  match lcore_is lp, lcore_is lpio with
  | e_APP_LCORE_WORKER w, e_APP_LCORE_IO io =>
      w ← set_ring_out w port r;
      a ← set_lcore a lcore (e_APP_LCORE_WORKER w);
      io ← set_tx_ring io port (worker_id w) r;
      a ← set_lcore a lcore_io (e_APP_LCORE_IO io);
      Some (d, a)
  | _, _ => None
  end.

Definition app_init_rings_tx (d : dev) a : option (dev * app_params P) :=
  '(d, a) ← for_ n_lcores 0 (fun lcore '(d, a) =>
              lp ← arr_get (lcore_params a) lcore;
              if is_worker (lcore_is lp)
              then for_ (Z.to_nat APP_MAX_NIC_PORTS) 0 (connect_tx lcore) (d, a) else Some (d, a)) (d, a);
  _ ← for_ n_lcores 0 (fun lcore _ =>
        lp ← arr_get (lcore_params a) lcore;
        match lcore_is lp with
        | e_APP_LCORE_IO io =>
            for_ (Z.to_nat (n_nic_ports (tx io))) 0 (fun i _ =>
              port ← arr_get (nic_ports (tx io)) i;
              row ← arr_get (tx_rings (tx io)) port;
              n ← app_get_lcores_worker a;
              for_ (Z.to_nat n) 0 (fun j _ => r ← arr_get row j; assert_ (negb (r =? NULL))) tt) tt
        | _ => Some tt
        end) tt;
  Some (d, a).
End app.

(** ** Loops, by invariant *)

Lemma for_inv {S} (I : Z -> S -> Prop) n i (f : Z -> S -> option S) s :
  I i s -> (forall j s, i <= j < i + Z.of_nat n -> I j s -> exists s', f j s = Some s' /\ I (j + 1) s') ->
  exists s', for_ n i f s = Some s' /\ I (i + Z.of_nat n) s'.
Proof.
  revert i s. induction n as [|n IH]; intros i s Hi Hf.
  { exists s. split; [done|]. by replace (i + Z.of_nat 0) with i by lia. }
  cbn [for_].
  destruct (Hf i s) as (s' & -> & Hs'); [lia|done|]. simpl.
  destruct (IH (i + 1) s' Hs') as (s'' & Hfor & Hs''); [intros; apply Hf; [lia|done]|].
  exists s''. split; [done|]. by replace (i + Z.of_nat (Datatypes.S n)) with (i + 1 + Z.of_nat n) by lia.
Qed.

Lemma find_first {A} n i (f : Z -> option (option A)) j x :
  i <= j < i + Z.of_nat n -> (forall k, i <= k < j -> f k = Some None) -> f j = Some (Some x) ->
  find_ n i f = Some (Some x).
Proof.
  revert i. induction n as [|n IH]; intros i Hj Hk Hf; [lia|]. simpl. destruct (decide (j = i)) as [->|Hne].
  { by rewrite Hf. }
  rewrite Hk by lia. simpl. apply IH; [lia|intros; apply Hk; lia|done].
Qed.

(** The number of the cores before [x] that satisfy [f]. *)
Definition rank (f : Z -> bool) (x : Z) : Z := Z.of_nat (length (filter f (seqZ 0 x))).

Lemma rank_0 f : rank f 0 = 0.
Proof. done. Qed.

Lemma rank_next f x : 0 <= x -> rank f (x + 1) = rank f x + if f x then 1 else 0.
Proof.
  intros Hx. unfold rank. rewrite seqZ_app, filter_app, length_app by lia. simpl.
  rewrite Z.add_0_l. change (seqZ x 1) with [x]. rewrite filter_cons, filter_nil.
  destruct (f x); simpl; lia.
Qed.

Lemma rank_mono f x y : 0 <= x <= y -> rank f x <= rank f y.
Proof.
  intros Hxy. unfold rank. replace y with (x + (y - x)) by lia.
  rewrite seqZ_app, filter_app, length_app by lia. lia.
Qed.

Lemma rank_le f x : 0 <= x -> 0 <= rank f x <= x.
Proof.
  intros Hx. unfold rank. pose proof (length_filter f (seqZ 0 x)). rewrite length_seqZ in *. lia.
Qed.

Lemma rank_inj f x y : 0 <= x -> 0 <= y -> f x = true -> f y = true -> rank f x = rank f y -> x = y.
Proof.
  intros Hx Hy Hfx Hfy He. destruct (Z.lt_trichotomy x y) as [Hlt|[->|Hlt]]; [|done|].
  - pose proof (rank_mono f (x + 1) y). rewrite rank_next, Hfx in *; lia.
  - pose proof (rank_mono f (y + 1) x). rewrite rank_next, Hfy in *; lia.
Qed.

Lemma rank_lt f x y : 0 <= x < y -> f x = true -> 0 <= rank f x < rank f y.
Proof.
  intros Hx Hf. pose proof (rank_mono f (x + 1) y). pose proof (rank_le f x). rewrite rank_next, Hf in *; lia.
Qed.

Section ids.
Context `{DL : DpdkLaws} {P : Type}.
Implicit Types (a : app_params P) (lp : app_lcore_params P).

Definition worker_at a (x : Z) : bool :=
  match arr_get (lcore_params a) x with Some lp => is_worker (lcore_is lp) | None => false end.

Definition numbered lp (i : Z) : app_lcore_params P :=
  match lcore_is lp with
  | e_APP_LCORE_WORKER w => AppLcoreParams (e_APP_LCORE_WORKER (set_worker_id w i)) (pool lp)
  | _ => lp
  end.

Definition lcores_wf a : Prop :=
  Z.of_nat (length (lcore_params a)) = RTE_MAX_LCORE /\ Z.of_nat (length (map_worker_lcore a)) = RTE_MAX_LCORE /\
  Z.of_nat (length (map_lcore_worker a)) = RTE_MAX_LCORE.

(** The cores before [j] are numbered. *)
Definition ids_inv a (j : Z) (s : app_params P * Z) : Prop :=
  s.2 = rank (worker_at a) j /\ lcores_wf s.1 /\
  (forall x lp, arr_get (lcore_params a) x = Some lp ->
     arr_get (lcore_params s.1) x = Some (if x <? j then numbered lp (rank (worker_at a) x) else lp)) /\
  (forall x, 0 <= x < j -> worker_at a x = true ->
     arr_get (map_worker_lcore s.1) (rank (worker_at a) x) = Some x /\
     arr_get (map_lcore_worker s.1) x = Some (rank (worker_at a) x)).

Lemma arr_get_lcore a x : lcores_wf a -> 0 <= x < RTE_MAX_LCORE -> exists lp, arr_get (lcore_params a) x = Some lp.
Proof. intros (Hl & _) Hx. apply arr_get_in. lia. Qed.

Lemma set_lcore_runs a x lp u :
  arr_get (lcore_params a) x = Some lp ->
  exists a', set_lcore a x u = Some a' /\ a' = set_lcore_params a (lcore_params a') /\
    length (lcore_params a') = length (lcore_params a) /\
    forall y, arr_get (lcore_params a') y = if decide (x = y) then Some (AppLcoreParams u (pool lp)) else arr_get (lcore_params a) y.
Proof.
  intros Hx. unfold set_lcore. rewrite Hx. simpl. pose proof (arr_get_lt _ _ _ Hx) as Hlt.
  destruct (arr_set_in (lcore_params a) x (AppLcoreParams u (pool lp)) Hlt) as [ps Hps]. rewrite Hps. simpl.
  eexists. split; [done|]. split; [done|]. split; [by eapply arr_set_length|]. intros y. by apply arr_get_set.
Qed.

Lemma ids_step a j s :
  lcores_wf a -> 0 <= j < RTE_MAX_LCORE -> ids_inv a j s ->
  exists s', (let '(a, i) := s in
    lp ← arr_get (lcore_params a) j;
    match lcore_is lp with
    | e_APP_LCORE_WORKER w =>
        a ← set_lcore a j (e_APP_LCORE_WORKER (set_worker_id w i));
        mwl ← arr_set (map_worker_lcore a) i j;
        mlw ← arr_set (map_lcore_worker a) j i;
        Some (set_maps a mwl mlw, u32 (i + 1))
    | _ => Some (a, i)
    end) = Some s' /\ ids_inv a (j + 1) s'.
Proof.
  destruct s as [b i]. unfold ids_inv. simpl. intros Hwf Hj (-> & Hwfb & Hps & Hmaps).
  destruct (arr_get_lcore a j Hwf Hj) as [lp Hlp]. rewrite (Hps _ _ Hlp), Z.ltb_irrefl. simpl.
  assert (forall b', (forall x lp, arr_get (lcore_params a) x = Some lp -> arr_get (lcore_params b') x =
     if decide (j = x) then Some (numbered lp (rank (worker_at a) x)) else arr_get (lcore_params b) x) ->
     forall x lp, arr_get (lcore_params a) x = Some lp ->
       arr_get (lcore_params b') x = Some (if x <? j + 1 then numbered lp (rank (worker_at a) x) else lp)) as Hnext.
  { intros b' Hb' x lpx Hx. rewrite (Hb' _ _ Hx). case_decide as Hxj; [|rewrite (Hps _ _ Hx)].
    - by rewrite (proj2 (Z.ltb_lt _ _)) by lia.
    - destruct (Z.ltb_spec x j), (Z.ltb_spec x (j + 1)); done || lia. }
  pose proof (rank_le (worker_at a) j ltac:(lia)) as Hr. pose proof max_lcore as Hmax.
  assert (worker_at a j = is_worker (lcore_is lp)) as Hw by (unfold worker_at; by rewrite Hlp).
  destruct (lcore_is lp) as [|io|w] eqn:Eu.
  1,2: eexists; split; [done|]; simpl; rewrite rank_next, Hw by lia; simpl; split; [lia|]; split; [done|]; split;
    [apply Hnext; intros x lpx Hx; case_decide; [subst x|done]; rewrite (Hps _ _ Hx), Z.ltb_irrefl;
     replace lpx with lp by congruence; unfold numbered; by rewrite Eu
    |intros x Hx Hwx; apply Hmaps; [|done]; destruct (decide (x = j)) as [->|]; [by rewrite Hw in Hwx|lia]].
  destruct (set_lcore_runs b j lp (e_APP_LCORE_WORKER (set_worker_id w (rank (worker_at a) j))))
    as (b' & -> & Hb' & Hlen & Hget); [by rewrite (Hps _ _ Hlp), Z.ltb_irrefl|]. simpl.
  destruct Hwfb as (Hl1 & Hl2 & Hl3).
  destruct (arr_set_in (map_worker_lcore b) (rank (worker_at a) j) j) as [mwl Hmwl]; [lia|].
  destruct (arr_set_in (map_lcore_worker b) j (rank (worker_at a) j)) as [mlw Hmlw]; [lia|].
  rewrite Hb'. simpl. rewrite Hmwl. simpl. rewrite Hmlw. simpl. eexists. split; [done|]. simpl.
  rewrite rank_next, Hw by lia. simpl. split; [apply u32_small; lia|].
  pose proof (arr_set_length _ _ _ _ Hmwl). pose proof (arr_set_length _ _ _ _ Hmlw).
  split; [unfold lcores_wf; simpl; lia|]. split.
  { apply Hnext. intros x lpx Hx. rewrite Hget. case_decide; [subst x|done].
    replace lpx with lp by congruence. unfold numbered. by rewrite Eu. }
  intros x Hx Hwx. rewrite (arr_get_set _ _ _ _ _ Hmwl), (arr_get_set _ _ _ _ _ Hmlw).
  case_decide as Hd.
  - apply rank_inj in Hd as <-; [by rewrite decide_True|lia..|by rewrite Hw|done].
  - rewrite decide_False by (intros ->; congruence). apply Hmaps; [|done].
    destruct (decide (x = j)) as [->|]; [done|lia].
Qed.

(** C21. [app_assign_worker_ids] numbers the workers in the order of their cores,
    and both maps and both lookups agree with the numbers: the worker with the
    number [i] is found on the core that got it, as it was but for its number.
    The other cores do not change. *)
Theorem worker_ids_assigned a :
  lcores_wf a ->
  exists a', app_assign_worker_ids a = Some a' /\
    forall x lp, arr_get (lcore_params a) x = Some lp ->
      let i := rank (worker_at a) x in
      match lcore_is lp with
      | e_APP_LCORE_WORKER w =>
          arr_get (map_worker_lcore a') i = Some x /\ arr_get (map_lcore_worker a') x = Some i /\
          app_get_lcore_worker a' i = Some (Some x) /\ app_get_worker a' i = Some (Some (set_worker_id w i))
      | _ => arr_get (lcore_params a') x = Some lp
      end.
Proof.
  intros Hwf. unfold app_assign_worker_ids. pose proof max_lcore as Hmax.
  edestruct (for_inv (ids_inv a)) as ([a' n] & -> & Hinv); [|intros j s Hj; apply ids_step; [done|]|].
  { unfold ids_inv. simpl. split; [done|]. split; [done|]. split; [|lia].
    intros x lp Hx. rewrite Hx. apply arr_get_lt in Hx. by rewrite (proj2 (Z.ltb_ge _ _)) by lia. }
  { unfold n_lcores, APP_MAX_LCORES in Hj. lia. }
  simpl. exists a'. split; [done|]. destruct Hinv as (_ & Hwf' & Hps & Hmaps). simpl in *.
  replace (0 + Z.of_nat n_lcores) with RTE_MAX_LCORE in * by (unfold n_lcores, APP_MAX_LCORES; lia).
  assert (forall x lp, arr_get (lcore_params a) x = Some lp ->
    arr_get (lcore_params a') x = Some (numbered lp (rank (worker_at a) x))) as Hps'.
  { intros x lp Hx. rewrite (Hps _ _ Hx). destruct Hwf as (Hl & _). apply arr_get_lt in Hx.
    by rewrite (proj2 (Z.ltb_lt _ _)) by lia. }
  intros x lp Hx. set (i := rank (worker_at a) x). pose proof (arr_get_lt _ _ _ Hx) as Hlt. destruct Hwf as (Hl & _).
  destruct (lcore_is lp) as [|io|w] eqn:Eu; [rewrite (Hps' _ _ Hx); unfold numbered; by rewrite Eu..|].
  assert (worker_at a x = true) as Hwx by (unfold worker_at; by rewrite Hx, Eu).
  destruct (Hmaps x) as [Hm1 Hm2]; [lia|done|]. split; [done|]. split; [done|].
  assert (forall y, 0 <= y < x -> exists lp', arr_get (lcore_params a') y = Some lp' /\
    match lcore_is lp' with e_APP_LCORE_WORKER w => worker_id w =? i | _ => false end = false) as Hbefore.
  { intros y Hy. destruct (arr_get_in (lcore_params a) y) as [lpy Hy']; [lia|].
    eexists. split; [by apply Hps'|]. unfold numbered.
    destruct (lcore_is lpy) as [|?|wy] eqn:Ey; rewrite ?Ey; [done..|]. simpl. apply Z.eqb_neq. intros Heq.
    apply rank_inj in Heq as ->; [lia..| |done]. unfold worker_at. by rewrite Hy', Ey. }
  pose proof (Hps' _ _ Hx) as Hx'. unfold numbered in Hx'. rewrite Eu in Hx'.
  split; (apply (find_first _ _ _ x); [unfold n_lcores, APP_MAX_LCORES; lia| |by rewrite Hx'; simpl; rewrite Z.eqb_refl]);
    intros y Hy; destruct (Hbefore y Hy) as (lp' & -> & Hne); simpl; destruct (lcore_is lp'); by rewrite ?Hne.
Qed.
End ids.

Section wiring.
Context `{DL : DpdkLaws} {P : Type}.
Implicit Types (a : app_params P) (lp : app_lcore_params P) (M : gmap (Z * Z) ring).

Definition io_at a (x : Z) : bool :=
  match arr_get (lcore_params a) x with Some lp => is_io_rx (lcore_is lp) | None => false end.

(** The rings of one core: [M] has the ring of every connected pair of an I/O
    core and a worker; the pairs before [(L, W)] are connected. *)
Definition lcore_wired a M (L W x : Z) (u0 u : lcore_union P) : Prop :=
  match u0, u with
  | e_APP_LCORE_DISABLED, e_APP_LCORE_DISABLED => True
  | e_APP_LCORE_IO io0, e_APP_LCORE_IO io =>
      n_nic_queues (rx io) = n_nic_queues (rx io0) /\
      length (rings (rx_out (rx io))) = length (rings (rx_out (rx io0))) /\
      (io_at a x = true -> n_rings (rx io) =
         if x <? L then rank (worker_at a) RTE_MAX_LCORE else if x =? L then rank (worker_at a) W else 0) /\
      forall y r, M !! (x, y) = Some r -> arr_get (rings (rx_out (rx io))) (rank (worker_at a) y) = Some r
  | e_APP_LCORE_WORKER w0, e_APP_LCORE_WORKER w =>
      worker_id w = worker_id w0 /\ length (rings_in w) = length (rings_in w0) /\
      n_rings_in w = rank (io_at a) L + (if io_at a L && (x <? W) then 1 else 0) /\
      forall y r, M !! (y, x) = Some r -> arr_get (rings_in w) (rank (io_at a) y) = Some r
  | _, _ => False
  end.

Definition wired a M (L W : Z) (s : dev * app_params P) : Prop :=
  (forall x y, is_Some (M !! (x, y)) <->
     io_at a x = true /\ worker_at a y = true /\ (x < L \/ x = L /\ y < W)) /\
  (forall p q r, M !! p = Some r -> M !! q = Some r -> p = q) /\
  (forall p r, M !! p = Some r -> r <> NULL /\ r ∈ created s.1) /\
  (forall x lp0, arr_get (lcore_params a) x = Some lp0 ->
     exists lp, arr_get (lcore_params s.2) x = Some lp /\ lcore_wired a M L W x (lcore_is lp0) (lcore_is lp)).

(** Before the rings: the counters are zero and the arrays have room. *)
Definition rings_wf a : Prop :=
  Z.of_nat (length (lcore_params a)) = RTE_MAX_LCORE /\
  rank (worker_at a) RTE_MAX_LCORE <= @APP_MAX_WORKER_LCORES H /\
  rank (io_at a) RTE_MAX_LCORE <= @APP_MAX_IO_LCORES H /\
  forall x lp, arr_get (lcore_params a) x = Some lp ->
    match lcore_is lp with
    | e_APP_LCORE_DISABLED => True
    | e_APP_LCORE_IO io => n_rings (rx io) = 0 /\
        Z.of_nat (length (rings (rx_out (rx io)))) = @APP_MAX_WORKER_LCORES H
    | e_APP_LCORE_WORKER w => n_rings_in w = 0 /\ Z.of_nat (length (rings_in w)) = @APP_MAX_IO_LCORES H
    end.

Lemma at_range (f : lcore_union P -> bool) a x :
  rings_wf a -> match arr_get (lcore_params a) x with Some lp => f (lcore_is lp) | None => false end = true ->
  0 <= x < RTE_MAX_LCORE.
Proof.
  intros (Hl & _) Hx. destruct (arr_get (lcore_params a) x) as [lp|] eqn:E; [|done].
  apply arr_get_lt in E. lia.
Qed.

Lemma wired_start d a : rings_wf a -> wired a ∅ 0 0 (d, a).
Proof.
  intros Hwf. split; [|split; [|split]].
  - intros x y. rewrite lookup_empty. split; [by intros []|]. intros (Hx & Hy & Hlt).
    apply (at_range is_io_rx a x Hwf) in Hx. apply (at_range is_worker a y Hwf) in Hy. lia.
  - intros p q r. by rewrite lookup_empty.
  - intros p r. by rewrite lookup_empty.
  - intros x lp0 Hx. exists lp0. split; [done|]. destruct Hwf as (Hl & _ & _ & Hinit).
    pose proof (arr_get_lt _ _ _ Hx) as Hlt. specialize (Hinit _ _ Hx).
    destruct (lcore_is lp0) as [|io|w]; simpl; [done|..].
    + destruct Hinit as [Hn Hlen]. do 2 (split; [done|]). split; [|intros y r; by rewrite lookup_empty].
      intros _. rewrite (proj2 (Z.ltb_ge _ _)) by lia. rewrite Hn. by case (x =? 0).
    + destruct Hinit as [Hn Hlen]. do 2 (split; [done|]). split; [|intros y r; by rewrite lookup_empty].
      rewrite (proj2 (Z.ltb_ge _ _)) by lia. rewrite andb_false_r, rank_0. lia.
Qed.

Lemma wired_skip a M L W s :
  0 <= W -> worker_at a W = false -> wired a M L W s -> wired a M L (W + 1) s.
Proof.
  intros HW Hno (Hdom & Hinj & Hval & Hlc). split; [|split; [done|split; [done|]]].
  - intros x y. rewrite Hdom. assert (worker_at a y = true -> y <> W) by congruence. intuition lia.
  - intros x lp0 Hx. destruct (Hlc _ _ Hx) as (lp & Hlp & Hw). exists lp. split; [done|].
    assert (x <> W \/ is_worker (lcore_is lp0) = false) as Hxw.
    { destruct (decide (x = W)) as [->|]; [right|by left]. unfold worker_at in Hno. by rewrite Hx in Hno. }
    destruct (lcore_is lp0), (lcore_is lp); simpl in *; try done.
    + by rewrite rank_next, Hno, Z.add_0_r by done.
    + destruct Hw as (? & ? & Hn & ?). split_and!; [done..| |done]. rewrite Hn.
      destruct (Z.ltb_spec x W), (Z.ltb_spec x (W + 1)); done || lia || naive_solver lia.
Qed.

Lemma arr_set_at {A} (l : list A) i x :
  0 <= i < Z.of_nat (length l) -> exists l', arr_set l i x = Some l' /\ length l' = length l /\
    forall j, arr_get l' j = if decide (i = j) then Some x else arr_get l j.
Proof.
  intros Hi. destruct (arr_set_in l i x Hi) as [l' Hl']. exists l'. split; [done|].
  split; [by eapply arr_set_length|]. intros j. by apply arr_get_set.
Qed.

Lemma lcore_wired_other a M L W x r u0 u :
  x <> L -> x <> W -> lcore_wired a M L W x u0 u -> lcore_wired a (<[(L, W) := r]> M) L (W + 1) x u0 u.
Proof.
  intros HxL HxW. destruct u0, u; simpl; try done.
  - rewrite (proj2 (Z.eqb_neq x L)) by done. intros (? & ? & ? & Hr). split_and!; [done..|].
    intros y r'. rewrite lookup_insert_ne by congruence. apply Hr.
  - intros (? & ? & Hn & Hr). split_and!; [done..| |].
    + rewrite Hn. destruct (Z.ltb_spec x W), (Z.ltb_spec x (W + 1)); done || lia.
    + intros y r'. rewrite lookup_insert_ne by congruence. apply Hr.
Qed.

Lemma wired_insert a M L W d b d' b' r il0 il w0 w lpl0 lpw0 lpl lpw :
  wired a M L W (d, b) -> io_at a L = true -> worker_at a W = true -> r <> NULL ->
  r ∉ created d -> created d' = {[r]} ∪ created d ->
  arr_get (lcore_params a) L = Some lpl0 -> lcore_is lpl0 = e_APP_LCORE_IO il0 ->
  arr_get (lcore_params a) W = Some lpw0 -> lcore_is lpw0 = e_APP_LCORE_WORKER w0 ->
  lcore_is lpl = e_APP_LCORE_IO il -> lcore_is lpw = e_APP_LCORE_WORKER w -> L <> W ->
  (forall y, arr_get (lcore_params b') y =
     if decide (W = y) then Some lpw else if decide (L = y) then Some lpl else arr_get (lcore_params b) y) ->
  lcore_wired a (<[(L, W) := r]> M) L (W + 1) L (e_APP_LCORE_IO il0) (e_APP_LCORE_IO il) ->
  lcore_wired a (<[(L, W) := r]> M) L (W + 1) W (e_APP_LCORE_WORKER w0) (e_APP_LCORE_WORKER w) ->
  wired a (<[(L, W) := r]> M) L (W + 1) (d', b').
Proof.
  intros (Hdom & Hinj & Hval & Hlc) HL HW Hr Hfresh Hcr HL0 El0 HW0 Ew0 El Ew HLW Hget HwL HwW. simpl in *.
  assert (forall p, M !! p <> Some r) as Hnew by (intros p [_ Hin]%Hval; done).
  split; [|split; [|split]].
  - intros x y. rewrite lookup_insert_is_Some', Hdom. split.
    + intros [[= <- <-]|]; [split_and!; [done..|lia]|intuition lia].
    + intros (Hx & Hy & Hlt). destruct (decide ((L, W) = (x, y))) as [|Hne]; [by left|right].
      split_and!; [done..|]. assert (x <> L \/ y <> W) by (destruct (decide (x = L)); [right; congruence|by left]). lia.
  - intros p q r'. rewrite !lookup_insert_Some. naive_solver.
  - intros p r'. simpl. rewrite lookup_insert_Some, Hcr. intros [[_ <-]|[_ Hp%Hval]]; set_solver.
  - intros x lp0 Hx. rewrite Hget. simpl. case_decide as HxW; [|case_decide as HxL].
    + subst x. exists lpw. split; [done|]. replace lp0 with lpw0 by congruence. by rewrite Ew0, Ew.
    + subst x. exists lpl. split; [done|]. replace lp0 with lpl0 by congruence. by rewrite El0, El.
    + destruct (Hlc _ _ Hx) as (lp & Hlp & Hw). exists lp. split; [done|]. by apply lcore_wired_other.
Qed.

(** The pair [(L, W)] is connected, or [W] is not a worker. *)
Lemma wired_connect a M L W s :
  rings_wf a -> (forall d size socket, (rte_ring_create d size socket).1 <> NULL) ->
  io_at a L = true -> 0 <= W < RTE_MAX_LCORE -> wired a M L W s ->
  exists s' M', connect_rx L W s = Some s' /\ wired a M' L (W + 1) s'.
Proof.
  intros Hwf Hnew HL HW Hwired. destruct s as [d b]. pose proof Hwf as (Hl & Hnw & Hni & Hinit).
  pose proof Hwired as (Hdom & Hinj & Hval & Hlc). simpl in *.
  pose proof (at_range is_io_rx a L Hwf HL) as HLr. pose proof max_lcore as Hmax.
  destruct (arr_get_in (lcore_params a) W) as [lpw0 HW0]; [lia|].
  destruct (arr_get_in (lcore_params a) L) as [lpl0 HL0]; [lia|].
  destruct (Hlc _ _ HW0) as (lpw & HWb & Hww). destruct (Hlc _ _ HL0) as (lpl & HLb & Hwl).
  rewrite HWb. simpl.
  assert (worker_at a W = is_worker (lcore_is lpw0)) as HwW by (unfold worker_at; by rewrite HW0).
  pose proof (Hinit _ _ HW0) as HiW. pose proof (Hinit _ _ HL0) as HiL.
  pose proof HL as HL'. unfold io_at in HL'. rewrite HL0 in HL'.
  destruct (lcore_is lpw0) as [|io0|w0] eqn:Ew0, (lcore_is lpw) as [|iow|w] eqn:Ew; simpl in Hww; try done.
  1,2: exists (d, b), M; split; [done|]; apply wired_skip; [lia|done..].
  destruct (rte_ring_create d (ring_rx_size b) (rte_lcore_to_socket_id L)) as [r d'] eqn:Er.
  pose proof (Hnew d (ring_rx_size b) (rte_lcore_to_socket_id L)) as Hr. rewrite Er in Hr. simpl in Hr.
  rewrite (proj2 (Z.eqb_neq _ _) Hr), HLb. simpl.
  destruct (lcore_is lpl0) as [|il0|?] eqn:El0, (lcore_is lpl) as [|il|?] eqn:El; simpl in Hwl; try done.
  destruct Hwl as (Hq & Hlen & Hn & Hrings). specialize (Hn HL). rewrite Z.ltb_irrefl, Z.eqb_refl in Hn.
  destruct Hww as (Hid & Hleni & Hnin & Hringsi). rewrite HL, Z.ltb_irrefl, Z.add_0_r in Hnin. simpl in Hnin.
  pose proof (rank_lt (worker_at a) W RTE_MAX_LCORE HW HwW). pose proof (rank_lt (io_at a) L RTE_MAX_LCORE HLr HL).
  pose proof (rank_le (worker_at a) RTE_MAX_LCORE). pose proof (rank_le (io_at a) RTE_MAX_LCORE).
  destruct (arr_set_at (rings (rx_out (rx il))) (n_rings (rx il)) r) as (rs & Hrs & Hrsl & Hrsg); [lia|].
  unfold set_rx_ring. rewrite Hrs. simpl.
  edestruct (set_lcore_runs b L lpl) as (b1 & -> & _ & _ & Hg1); [done|]. simpl.
  destruct (arr_set_at (rings_in w) (n_rings_in w) r) as (ri & Hri & Hril & Hrig); [lia|].
  unfold set_ring_in. rewrite Hri. simpl.
  assert (L <> W) as HLW by congruence.
  edestruct (set_lcore_runs b1 W lpw) as (b2 & -> & _ & _ & Hg2); [by rewrite Hg1, decide_False|]. simpl.
  destruct (ring_create_law _ _ _ _ _ Er Hr) as (Hfresh & Hcr & _).
  exists (d', b2), (<[(L, W) := r]> M). split; [done|].
  eapply (wired_insert a M L W d b d' b2 r il0 _ w0 _ lpl0 lpw0 (AppLcoreParams (e_APP_LCORE_IO _) (pool lpl))
            (AppLcoreParams (e_APP_LCORE_WORKER _) (pool lpw))); [done..| | |].
  { intros y. rewrite Hg2. case_decide; [reflexivity|]. rewrite Hg1. case_decide; reflexivity. }
  - simpl. rewrite Z.ltb_irrefl, Z.eqb_refl, rank_next, HwW by lia. simpl. rewrite Hn in *.
    split_and!; [done|congruence|intros _; apply u32_small; lia|].
    intros y r' [[[= <-] <-]|[Hne Hr']]%lookup_insert_Some; [by rewrite Hrsg, decide_True|].
    rewrite Hrsg. rewrite decide_False; [by apply Hrings|]. intros Heq. apply Hne. f_equal.
    assert (is_Some (M !! (L, y))) as (_ & Hwy & Hlt)%Hdom by eauto.
    apply (rank_inj (worker_at a)); [lia|apply (at_range is_worker a y Hwf) in Hwy; lia|done..].
  - simpl. rewrite HL, (proj2 (Z.ltb_lt _ _)) by lia. simpl. rewrite Hnin in *.
    split_and!; [done|congruence|apply u32_small; lia|].
    intros y r' [[[= <-] <-]|[Hne Hr']]%lookup_insert_Some; [by rewrite Hrig, decide_True|].
    rewrite Hrig. rewrite decide_False; [by apply Hringsi|]. intros Heq. apply Hne. f_equal.
    assert (is_Some (M !! (y, W))) as (Hiy & _)%Hdom by eauto.
    apply (rank_inj (io_at a)); [lia|apply (at_range is_io_rx a y Hwf) in Hiy; lia|done..].
Qed.

(** The row of the I/O core [L] is complete, or [L] is not one. *)
Lemma wired_row a M L W s :
  rings_wf a -> 0 <= L -> (if io_at a L then W = RTE_MAX_LCORE else W = 0) ->
  wired a M L W s -> wired a M (L + 1) 0 s.
Proof.
  intros Hwf HL HW (Hdom & Hinj & Hval & Hlc). split; [|split; [done|split; [done|]]].
  - intros x y. rewrite Hdom. pose proof (at_range is_io_rx a x Hwf). pose proof (at_range is_worker a y Hwf).
    destruct (io_at a L) eqn:EL; subst W; [intuition lia|].
    assert (io_at a x = true -> x <> L) by congruence. intuition lia.
  - intros x lp0 Hx. destruct (Hlc _ _ Hx) as (lp & Hlp & Hw). exists lp. split; [done|].
    destruct Hwf as (Hl & _). pose proof (arr_get_lt _ _ _ Hx) as Hlt.
    destruct (lcore_is lp0), (lcore_is lp); simpl in *; try done.
    + destruct Hw as (? & ? & Hn & ?). split_and!; [done..| |done]. intros Hx'. rewrite (Hn Hx').
      destruct (Z.ltb_spec x L), (Z.ltb_spec x (L + 1)), (Z.eqb_spec x L), (Z.eqb_spec x (L + 1)); try done || lia.
      subst x. by rewrite Hx' in HW; subst W.
    + destruct Hw as (? & ? & Hn & ?). split_and!; [done..| |done]. rewrite Hn, rank_next by done.
      rewrite (proj2 (Z.ltb_ge x 0)) by lia. rewrite andb_false_r.
      destruct (io_at a L); subst W; simpl; [rewrite (proj2 (Z.ltb_lt x _)) by lia|]; lia.
Qed.

Lemma wired_types a M L W d b x :
  rings_wf a -> wired a M L W (d, b) -> 0 <= x < RTE_MAX_LCORE ->
  exists lp0 lp, arr_get (lcore_params a) x = Some lp0 /\ arr_get (lcore_params b) x = Some lp /\
    lcore_wired a M L W x (lcore_is lp0) (lcore_is lp) /\
    is_io_rx (lcore_is lp) = io_at a x /\ is_worker (lcore_is lp) = worker_at a x.
Proof.
  intros (Hl & _) (_ & _ & _ & Hlc) Hx. destruct (arr_get_in (lcore_params a) x) as [lp0 E]; [lia|].
  destruct (Hlc _ _ E) as (lp & Hlp & Hw). exists lp0, lp. split_and!; [done..| |]; unfold io_at, worker_at; rewrite E;
    destruct (lcore_is lp0), (lcore_is lp); simpl in *; try done. by destruct Hw as [-> _].
Qed.

Lemma count_lcores (g : lcore_union P -> bool) (f : Z -> bool) b :
  (forall x, 0 <= x < RTE_MAX_LCORE -> exists lp, arr_get (lcore_params b) x = Some lp /\ g (lcore_is lp) = f x) ->
  for_ n_lcores 0 (fun lcore count =>
    lp ← arr_get (lcore_params b) lcore; Some (if g (lcore_is lp) then u32 (count + 1) else count)) 0 =
  Some (rank f RTE_MAX_LCORE).
Proof.
  intros Hg. pose proof max_lcore as Hmax.
  assert (Z.of_nat n_lcores = RTE_MAX_LCORE) as Hn by (unfold n_lcores, APP_MAX_LCORES; lia).
  edestruct (for_inv (fun x c => c = rank f x)) as (c & -> & ->); [done| |by rewrite Z.add_0_l, Hn].
  intros x c Hx ->. destruct (Hg x) as (lp & -> & Hf); [lia|]. simpl. eexists. split; [done|].
  rewrite Hf, rank_next by lia. pose proof (rank_le f x). destruct (f x); [apply u32_small; lia|lia].
Qed.

Lemma for_check n i (f : Z -> unit -> option unit) :
  (forall x, i <= x < i + Z.of_nat n -> f x tt = Some tt) -> for_ n i f tt = Some tt.
Proof.
  intros Hf. edestruct (for_inv (fun _ _ => True) n i f tt) as ([] & -> & _); [done| |done].
  intros x [] Hx _. exists tt. split; [by apply Hf|done].
Qed.

Lemma rings_rx_loop d a :
  rings_wf a -> (forall d size socket, (rte_ring_create d size socket).1 <> NULL) ->
  exists d' a' M,
    for_ n_lcores 0 (fun lcore '(d, a) =>
      lp ← arr_get (lcore_params a) lcore;
      if is_io_rx (lcore_is lp) then for_ n_lcores 0 (connect_rx lcore) (d, a) else Some (d, a)) (d, a) =
    Some (d', a') /\ wired a M RTE_MAX_LCORE 0 (d', a').
Proof.
  intros Hwf Hnew. pose proof max_lcore as Hmax.
  assert (Z.of_nat n_lcores = RTE_MAX_LCORE) as Hn by (unfold n_lcores, APP_MAX_LCORES; lia).
  edestruct (for_inv (fun L s => exists M, wired a M L 0 s)) as ([d' a'] & -> & M & Hw).
  { exists ∅. by apply wired_start. }
  { intros L [d1 a1] HL [M HM]. destruct (wired_types a M L 0 d1 a1 L Hwf HM) as (lp0 & lp & _ & -> & _ & Hio & _); [lia|].
    simpl. rewrite Hio. destruct (io_at a L) eqn:EL; [|eexists; split; [done|]; exists M; apply (wired_row a M L 0); [done|lia|by rewrite EL|done]].
    destruct (for_inv (fun W s => exists M, wired a M L W s) n_lcores 0 (connect_rx L) (d1, a1)) as (s' & Hs' & M' & HM').
    - by exists M.
    - intros W s HW [M1 HM1]. edestruct (wired_connect a M1 L W s) as (s' & M2 & ? & ?); [done..|lia|done|]. eauto.
    - exists s'. split; [done|]. exists M'. apply (wired_row a M' L RTE_MAX_LCORE); [done|lia|by rewrite EL|].
      by rewrite Z.add_0_l, Hn in HM'. }
  rewrite Z.add_0_l, Hn in Hw. eauto.
Qed.

Lemma wired_counts a M L W d b :
  rings_wf a -> wired a M L W (d, b) ->
  app_get_lcores_worker b = Some (rank (worker_at a) RTE_MAX_LCORE) /\
  app_get_lcores_io_rx b = Some (rank (io_at a) RTE_MAX_LCORE).
Proof.
  intros Hwf Hw. split.
  - unfold app_get_lcores_worker. rewrite (count_lcores is_worker (worker_at a)).
    + simpl. destruct Hwf as (_ & Hle & _). by rewrite (proj2 (Z.ltb_ge _ _)).
    + intros x Hx. destruct (wired_types _ _ _ _ _ _ x Hwf Hw Hx) as (? & lp & _ & ? & _ & _ & ?). eauto.
  - apply count_lcores. intros x Hx.
    destruct (wired_types _ _ _ _ _ _ x Hwf Hw Hx) as (? & lp & _ & ? & _ & ? & _). eauto.
Qed.

(** [app_init_rings_rx] does not panic and connects every I/O core that reads
    from the network with every worker by a ring of its own: the ring at the
    worker's number among the rings of the I/O core is the ring at the I/O core's
    number among the inputs of the worker, and no two pairs share one. *)
Theorem rings_rx_wired d a :
  rings_wf a -> (forall d size socket, (rte_ring_create d size socket).1 <> NULL) ->
  exists d' a' M, app_init_rings_rx d a = Some (d', a') /\
    (forall x y, io_at a x = true -> worker_at a y = true ->
       exists lpx lpy io w r, arr_get (lcore_params a') x = Some lpx /\ arr_get (lcore_params a') y = Some lpy /\
         lcore_is lpx = e_APP_LCORE_IO io /\ lcore_is lpy = e_APP_LCORE_WORKER w /\ r <> NULL /\ M !! (x, y) = Some r /\
         arr_get (rings (rx_out (rx io))) (rank (worker_at a) y) = Some r /\
         arr_get (rings_in w) (rank (io_at a) x) = Some r /\
         n_rings (rx io) = rank (worker_at a) RTE_MAX_LCORE /\ n_rings_in w = rank (io_at a) RTE_MAX_LCORE) /\
    (forall p q r, M !! p = Some r -> M !! q = Some r -> p = q).
Proof.
  intros Hwf Hnew. pose proof max_lcore as Hmax.
  assert (Z.of_nat n_lcores = RTE_MAX_LCORE) as Hn by (unfold n_lcores, APP_MAX_LCORES; lia).
  destruct (rings_rx_loop d a Hwf Hnew) as (d' & a' & M & Hloop & Hw).
  destruct (wired_counts _ _ _ _ _ _ Hwf Hw) as [Hcw Hci].
  assert (io_at a RTE_MAX_LCORE = false) as Hend.
  { destruct (io_at a RTE_MAX_LCORE) eqn:E; [|done]. apply (at_range is_io_rx a _ Hwf) in E. lia. }
  exists d', a', M. split.
  - unfold app_init_rings_rx. rewrite Hloop. cbn [mbind option_bind].
    rewrite for_check; cbn [mbind option_bind]; [rewrite for_check; [done|]|]; intros x Hx;
      destruct (wired_types _ _ _ _ _ _ x Hwf Hw) as (lp0 & lp & _ & -> & Hlw & Hio & _); [lia| |lia|];
      cbn [mbind option_bind]; destruct (lcore_is lp0) as [|io0|w0], (lcore_is lp) as [|io|w];
      cbn [lcore_wired is_io_rx] in Hlw, Hio; try done.
    + destruct (n_nic_queues (rx io) =? 0) eqn:Eq; [done|]. rewrite Hcw. cbn [mbind option_bind].
      destruct Hlw as (_ & _ & -> & _); [|by rewrite <- Hio]. rewrite (proj2 (Z.ltb_lt _ _)) by lia. by rewrite Z.eqb_refl.
    + rewrite Hci. destruct Hlw as (_ & _ & -> & _). rewrite Hend, Z.add_0_r. simpl. by rewrite Z.eqb_refl.
  - pose proof Hw as (Hdom & Hinj & Hval & _). split; [|done]. intros x y Hx Hy.
    pose proof (at_range is_io_rx a x Hwf Hx) as Hxr. pose proof (at_range is_worker a y Hwf Hy) as Hyr.
    destruct (wired_types _ _ _ _ _ _ x Hwf Hw Hxr) as (lx0 & lx & _ & Hlx & Hwx & Hiox & _).
    destruct (wired_types _ _ _ _ _ _ y Hwf Hw Hyr) as (ly0 & ly & _ & Hly & Hwy & _ & Hwry).
    destruct (proj2 (Hdom x y)) as [r Hr]; [split_and!; [done..|lia]|].
    rewrite Hx in Hiox. rewrite Hy in Hwry.
    destruct (lcore_is lx0) as [|iox|wx], (lcore_is lx) as [|io|] eqn:Ex; simpl in Hwx, Hiox; try done.
    destruct (lcore_is ly0) as [|ioy|wy], (lcore_is ly) as [| |w] eqn:Ey; simpl in Hwy, Hwry; try done.
    destruct Hwx as (_ & _ & Hn1 & Hr1), Hwy as (_ & _ & Hn2 & Hr2).
    exists lx, ly, io, w, r. split_and!; [done..|by apply (Hval _ _ Hr)|done|by apply Hr1|by apply Hr2| |].
    + rewrite (Hn1 Hx), (proj2 (Z.ltb_lt _ _)) by lia. done.
    + by rewrite Hn2, Hend, Z.add_0_r.
Qed.
End wiring.

(** ** Witnesses: cores 0 and 3 are workers, core 1 reads from the network *)

Definition sim_io : app_lcore_params_io :=
  let io := @zero_io (sim false) in
  let r := rx io in
  AppLcoreParamsIo (IoRx (nic_queues r) 1 (rx_out r) (n_rings r) (rx_mbuf_in r) (nic_queues_count r) (nic_queues_iters r))
    (tx io).

Definition sim_app : app_params unit :=
  set_lcore_params (@zero_app (sim false) unit)
    [AppLcoreParams (e_APP_LCORE_WORKER (@zero_worker (sim false) unit tt)) 0; AppLcoreParams (e_APP_LCORE_IO sim_io) 0;
     AppLcoreParams e_APP_LCORE_DISABLED 0; AppLcoreParams (e_APP_LCORE_WORKER (@zero_worker (sim false) unit tt)) 0].

Definition sim_start : sim_dev := SimDev (View [] [] [] (fun _ => [])) ∅ [] 1 0.

Lemma worker_ids_assigned_witness :
  exists a', @app_assign_worker_ids (sim false) unit sim_app = Some a' /\
    @app_get_lcore_worker (sim false) unit a' 1 = Some (Some 3).
Proof.
  destruct (@worker_ids_assigned (sim false) (sim_laws false) unit sim_app) as (a' & Hrun & Hids).
  - split_and!; reflexivity.
  - exists a'. split; [exact Hrun|]. exact (proj1 (proj2 (proj2 (Hids 3 _ eq_refl)))).
Defined.

Lemma rings_rx_wired_witness :
  exists d' a' M, @app_init_rings_rx (sim false) unit sim_start sim_app = Some (d', a') /\ is_Some (M !! (1, 3)) /\
    forall p q r, (M : gmap (Z * Z) ring) !! p = Some r -> M !! q = Some r -> p = q.
Proof.
  destruct (@rings_rx_wired (sim false) (sim_laws false) unit sim_start sim_app) as (d' & a' & M & Hrun & Hall & Hinj).
  - split_and!; [reflexivity|vm_compute; congruence|vm_compute; congruence|].
    intros x lp Hx. destruct (arr_get_Some (lcore_params sim_app) x lp) as [Hg _]. destruct (Hg Hx) as [_ Hl].
    destruct (Z.to_nat x) as [|[|[|[|?]]]]; simpl in Hl; try discriminate Hl; injection Hl as <-; split || exact I; reflexivity.
  - intros d size socket. simpl. unfold sim_new_ring, NULL. lia.
  - exists d', a', M. split; [exact Hrun|]. split; [|exact Hinj].
    destruct (Hall 1 3 eq_refl eq_refl) as (? & ? & ? & ? & r & _ & _ & _ & _ & _ & HM & _). by exists r.
Defined.
