(* ===== verification/P4Runtime.v ===== *)
(** * The loops of the cores ([p4xos/src/runtime.c])

    An I/O core reads bursts of packets from its network queues and hands each
    to a worker, chosen by one byte of the packet, through a ring; a worker
    reads bursts from its rings, processes each packet and hands it to the I/O
    core of a port; that core sends them.  Packets wait in buffers and move in
    bursts.  The features that are off by default ([RATE_LIMITER]) and the
    prefetches, which have no effect on the state, are not modelled.

    [None] is an access outside an array or through a null pointer, or a loop
    that ran out of fuel. *)

From S2P Require Import Prelude Bytes PaxosTypes EvConfig P4Packet P4Dpdk P4Sim P4App.

Definition APP_STATS : Z := 2000000.
Definition APP_LCORE_IO_FLUSH : Z := 2000000.
Definition APP_LCORE_WORKER_FLUSH : Z := 2000000.
Definition TIMER_RESOLUTION_CYCLES : Z := 16000000.

(** The first [n] pointers of an array, and [l] written at [off]. *)
Definition arr_take (a : list mbuf) (n : Z) : option (list mbuf) :=
  if (0 <=? n) && (n <=? Z.of_nat (length a)) then Some (take (Z.to_nat n) a) else None.

Definition arr_write (a : list mbuf) (off : Z) (l : list mbuf) : option (list mbuf) :=
  if (0 <=? off) && (off + Z.of_nat (length l) <=? Z.of_nat (length a))
  then Some (take (Z.to_nat off) a ++ l ++ drop (Z.to_nat off + length l) a) else None.

Section runtime.
Context {D : Dpdk}.
Implicit Types (d : dev) (o : outputs) (io : app_lcore_params_io).

Definition free_all d (l : list mbuf) : dev := foldl rte_pktmbuf_free d l.

(** ** Outputs *)

(** [n] packets of a buffer to its ring; they are freed when the ring is full. *)
Definition enqueue_or_free d (r : ring) (l : list mbuf) : option (Z * dev) :=
  if r =? NULL then None else
  let '(ret, d) := rte_ring_sp_enqueue_bulk d r l in
  Some (ret, if ret =? 0 then free_all d l else d).

(** A packet to the output [i]; a burst of [bsz] goes to the ring.  [counts] says
    for which result of the enqueue the statistics count the burst. *)
Definition buffer_to_send (counts : Z -> bool) d o (i : Z) (m : mbuf) (bsz : Z) : option (dev * outputs) :=
  buf ← arr_get (mbuf_out o) i;
  arr ← arr_set (array buf) (n_mbufs buf) m;
  let pos := u32 (n_mbufs buf + 1) in
  if pos <? bsz then
    bufs ← arr_set (mbuf_out o) i (AppMbufArray arr pos);
    Some (d, Outputs (rings o) bufs (mbuf_out_flush o) (rings_count o) (rings_drop o) (rings_iters o))
  else
    r ← arr_get (rings o) i;
    pkts ← arr_take arr bsz;
    '(ret, d) ← enqueue_or_free d r pkts;
    ndrop ← arr_get (rings_drop o) i;
    let ndrop := if ret =? 0 then u32 (ndrop + bsz) else ndrop in
    bufs ← arr_set (mbuf_out o) i (AppMbufArray arr 0);
    flush ← arr_set (mbuf_out_flush o) i 0;
    iters ← arr_get (rings_iters o) i;
    count ← arr_get (rings_count o) i;
    let iters := u32 (iters + 1) in
    let count := if counts ret then u32 (count + bsz) else count in
    let reset := iters =? APP_STATS in
    cs ← arr_set (rings_count o) i (if reset then 0 else count);
    ds ← arr_set (rings_drop o) i (if reset then 0 else ndrop);
    ns ← arr_set (rings_iters o) i (if reset then 0 else iters);
    Some (d, Outputs (rings o) bufs flush cs ds ns).

(** The output [i] is flushed when it was marked by the flush before. *)
Definition flush_output d o (i : Z) : option (dev * outputs) :=
  flag ← arr_get (mbuf_out_flush o) i;
  buf ← arr_get (mbuf_out o) i;
  flush ← arr_set (mbuf_out_flush o) i 1;
  if (flag =? 0) || (n_mbufs buf =? 0) then
    Some (d, Outputs (rings o) (mbuf_out o) flush (rings_count o) (rings_drop o) (rings_iters o))
  else
    r ← arr_get (rings o) i;
    pkts ← arr_take (array buf) (n_mbufs buf);
    '(ret, d) ← enqueue_or_free d r pkts;
    ndrop ← arr_get (rings_drop o) i;
    ds ← arr_set (rings_drop o) i (if ret =? 0 then u32 (ndrop + n_mbufs buf) else ndrop);
    bufs ← arr_set (mbuf_out o) i (AppMbufArray (array buf) 0);
    Some (d, Outputs (rings o) bufs flush (rings_count o) ds (rings_iters o)).

(** ** I/O cores: reading *)

(** A burst that was dropped is counted as a success ([ret == 0]). *)
Definition app_lcore_io_rx_buffer_to_send d o (worker : Z) (m : mbuf) (bsz : Z) : option (dev * outputs) :=
  buffer_to_send (fun ret => ret =? 0) d o worker m bsz.

(** [data[pos_lb] % n_workers], [data] being the start of the packet [m]. *)
Definition worker_of d (m : mbuf) (pos_lb n_workers : Z) : option Z :=
  p ← mbuf_get d m;
  b ← arr_get (data p) pos_lb;
  if n_workers =? 0 then None else Some (Z_of_byte b mod n_workers).

(** The variables [mbuf_1_0], [mbuf_1_1], [mbuf_2_0], [mbuf_2_1], and [data_1_0],
    [data_1_1] as the packets they point into. *)
Record rx_regs := RxRegs {
  mbuf_1_0 : mbuf; mbuf_1_1 : mbuf; mbuf_2_0 : mbuf; mbuf_2_1 : mbuf; data_1_0 : mbuf; data_1_1 : mbuf
}.

Fixpoint rx_pairs (fuel : nat) d o (arr : list mbuf) (n j : Z) (s : rx_regs) (n_workers bsz_wr pos_lb : Z) :
    option (dev * outputs * Z * rx_regs) :=
  match fuel with
  | O => None
  | S fuel =>
      if negb (j + 3 <? n) then Some (d, o, j, s) else
      let '(mbuf_0_0, mbuf_0_1) := (mbuf_1_0 s, mbuf_1_1 s) in
      let '(data_0_0, data_0_1) := (data_1_0 s, data_1_1 s) in
      _ ← mbuf_get d (mbuf_2_0 s);
      _ ← mbuf_get d (mbuf_2_1 s);
      m20 ← arr_get arr (j + 4);
      m21 ← arr_get arr (j + 5);
      let s := RxRegs (mbuf_2_0 s) (mbuf_2_1 s) m20 m21 (mbuf_2_0 s) (mbuf_2_1 s) in
      worker_0 ← worker_of d data_0_0 pos_lb n_workers;
      worker_1 ← worker_of d data_0_1 pos_lb n_workers;
      '(d, o) ← app_lcore_io_rx_buffer_to_send d o worker_0 mbuf_0_0 bsz_wr;
      '(d, o) ← app_lcore_io_rx_buffer_to_send d o worker_1 mbuf_0_1 bsz_wr;
      rx_pairs fuel d o arr n (j + 2) s n_workers bsz_wr pos_lb
  end.

Fixpoint rx_rest (fuel : nat) d o (n j : Z) (s : rx_regs) (n_workers bsz_wr pos_lb : Z) : option (dev * outputs) :=
  match fuel with
  | O => None
  | S fuel =>
      if negb (j <? n) then Some (d, o) else
      let m := mbuf_1_0 s in
      let s := RxRegs (mbuf_1_1 s) (mbuf_2_0 s) (mbuf_2_1 s) (mbuf_2_1 s) (data_1_0 s) (data_1_1 s) in
      worker ← worker_of d m pos_lb n_workers;
      '(d, o) ← app_lcore_io_rx_buffer_to_send d o worker m bsz_wr;
      rx_rest fuel d o n (j + 1) s n_workers bsz_wr pos_lb
  end.

(** The packets [arr[0 .. n)] to the workers; [n] is positive. *)
Definition rx_dispatch d o (arr : list mbuf) (n n_workers bsz_wr pos_lb : Z) : option (dev * outputs) :=
  m10 ← arr_get arr 0;
  m11 ← arr_get arr 1;
  _ ← mbuf_get d m10;
  d11 ← (if 1 <? n then _ ← mbuf_get d m11; Some m11 else Some NULL);
  m20 ← arr_get arr 2;
  m21 ← arr_get arr 3;
  let fuel := S (Z.to_nat n) in
  '(d, o, j, s) ← rx_pairs fuel d o arr n 0 (RxRegs m10 m11 m20 m21 m10 d11) n_workers bsz_wr pos_lb;
  rx_rest fuel d o n j s n_workers bsz_wr pos_lb.

(** One queue of [app_lcore_io_rx]. *)
Definition rx_queue d io (i n_workers bsz_rd bsz_wr pos_lb : Z) : option (dev * app_lcore_params_io) :=
  let r := rx io in
  '(port, queue) ← arr_get (nic_queues r) i;
  let '(l, d) := rte_eth_rx_burst d port queue (u16 bsz_rd) in
  arr ← arr_write (array (rx_mbuf_in r)) 0 l;
  let n := Z.of_nat (length l) in
  let mbuf_in := AppMbufArray arr (n_mbufs (rx_mbuf_in r)) in
  if n =? 0 then
    Some (d, AppLcoreParamsIo (IoRx (nic_queues r) (n_nic_queues r) (rx_out r) (n_rings r) mbuf_in
                                 (nic_queues_count r) (nic_queues_iters r)) (tx io))
  else
    iters ← arr_get (nic_queues_iters r) i;
    count ← arr_get (nic_queues_count r) i;
    let reset := u32 (iters + 1) =? APP_STATS in
    is_ ← arr_set (nic_queues_iters r) i (if reset then 0 else u32 (iters + 1));
    cs ← arr_set (nic_queues_count r) i (if reset then 0 else u32 (count + n));
    '(d, o) ← rx_dispatch d (rx_out r) arr n n_workers bsz_wr pos_lb;
    Some (d, AppLcoreParamsIo (IoRx (nic_queues r) (n_nic_queues r) o (n_rings r) mbuf_in cs is_) (tx io)).

Definition app_lcore_io_rx d io (n_workers bsz_rd bsz_wr pos_lb : Z) : option (dev * app_lcore_params_io) :=
  for_ (Z.to_nat (n_nic_queues (rx io))) 0
    (fun i '(d, io) => rx_queue d io i n_workers bsz_rd bsz_wr pos_lb) (d, io).

Definition set_rx_out io o : app_lcore_params_io :=
  let r := rx io in
  AppLcoreParamsIo (IoRx (nic_queues r) (n_nic_queues r) o (n_rings r) (rx_mbuf_in r) (nic_queues_count r)
                      (nic_queues_iters r)) (tx io).

Definition app_lcore_io_rx_flush d io (n_workers : Z) : option (dev * app_lcore_params_io) :=
  '(d, o) ← for_ (Z.to_nat n_workers) 0 (fun worker '(d, o) => flush_output d o worker) (d, rx_out (rx io));
  Some (d, set_rx_out io o).

(** ** I/O cores: sending *)

(** Every round of the loop sends from the first packet again. *)
Fixpoint app_send_burst (fuel : nat) d (port : Z) (pkts : list mbuf) (n_pkts sent : Z) : option (Z * dev) :=
  match fuel with
  | O => None
  | S fuel =>
      burst ← arr_take pkts (u16 n_pkts);
      let '(k, d) := rte_eth_tx_burst d port 0 burst in
      let sent := u32 (sent + k) in
      if sent <? n_pkts then app_send_burst fuel d port pkts n_pkts sent else Some (sent, d)
  end.

(** The buffer of [port] is sent, counted and emptied; [flag] is the new flush
    flag. *)
Definition send_buffer (fuel : nat) d (t : io_tx) (port : Z) (arr : list mbuf) (n flag : Z) : option (dev * io_tx) :=
  '(n_pkts, d) ← app_send_burst fuel d port arr n 0;
  iters ← arr_get (nic_ports_iters t) port;
  count ← arr_get (nic_ports_count t) port;
  let reset := u32 (iters + 1) =? APP_STATS in
  is_ ← arr_set (nic_ports_iters t) port (if reset then 0 else u32 (iters + 1));
  cs ← arr_set (nic_ports_count t) port (if reset then 0 else u32 (count + n_pkts));
  bufs ← arr_set (tx_mbuf_out t) port (AppMbufArray arr 0);
  flush ← arr_set (tx_mbuf_out_flush t) port flag;
  Some (d, IoTx (tx_rings t) (nic_ports t) (n_nic_ports t) bufs flush cs is_).

(** One ring of [app_lcore_io_tx]: that of [worker] to the port [nic_ports[i]]. *)
Definition tx_ring (fuel : nat) d (t : io_tx) (worker i bsz_rd bsz_wr : Z) : option (dev * io_tx) :=
  port ← arr_get (nic_ports t) i;
  row ← arr_get (tx_rings t) port;
  r ← arr_get row worker;
  buf ← arr_get (tx_mbuf_out t) port;
  if r =? NULL then None else
  let '(l, d) := rte_ring_sc_dequeue_bulk d r bsz_rd in
  if Z.of_nat (length l) =? 0 then Some (d, t) else
  arr ← arr_write (array buf) (n_mbufs buf) l;
  let n := u32 (n_mbufs buf + bsz_rd) in
  if n <? bsz_wr then
    bufs ← arr_set (tx_mbuf_out t) port (AppMbufArray arr n);
    Some (d, IoTx (tx_rings t) (nic_ports t) (n_nic_ports t) bufs (tx_mbuf_out_flush t) (nic_ports_count t)
               (nic_ports_iters t))
  else send_buffer fuel d t port arr n 0.

Definition app_lcore_io_tx (fuel : nat) d io (n_workers bsz_rd bsz_wr : Z) : option (dev * app_lcore_params_io) :=
  '(d, t) ← for_ (Z.to_nat n_workers) 0 (fun worker '(d, t) =>
              for_ (Z.to_nat (n_nic_ports t)) 0 (fun i '(d, t) => tx_ring fuel d t worker i bsz_rd bsz_wr) (d, t))
              (d, tx io);
  Some (d, AppLcoreParamsIo (rx io) t).

(** One port of [app_lcore_io_tx_flush]. *)
Definition tx_flush_port (fuel : nat) d (t : io_tx) (i : Z) : option (dev * io_tx) :=
  port ← arr_get (nic_ports t) i;
  flag ← arr_get (tx_mbuf_out_flush t) port;
  buf ← arr_get (tx_mbuf_out t) port;
  if (flag =? 0) || (n_mbufs buf =? 0) then
    flush ← arr_set (tx_mbuf_out_flush t) port 1;
    Some (d, IoTx (tx_rings t) (nic_ports t) (n_nic_ports t) (tx_mbuf_out t) flush (nic_ports_count t)
               (nic_ports_iters t))
  else send_buffer fuel d t port (array buf) (n_mbufs buf) 1.

Definition app_lcore_io_tx_flush (fuel : nat) d io : option (dev * app_lcore_params_io) :=
  '(d, t) ← for_ (Z.to_nat (n_nic_ports (tx io))) 0 (fun i '(d, t) => tx_flush_port fuel d t i) (d, tx io);
  Some (d, AppLcoreParamsIo (rx io) t).

(** ** Workers

    [process_pkt] is the callback; [G] is the state the workers share. *)
Section worker.
Context {P G : Type}.
Context (process_pkt : G -> dev -> mbuf -> app_lcore_params_worker P ->
  option (Z * G * dev * app_lcore_params_worker P)).
Implicit Types (w : app_lcore_params_worker P).

Definition set_worker_out w o : app_lcore_params_worker P :=
  AppLcoreParamsWorker (rings_in w) (n_rings_in w) o (lpm_table w) (worker_id w) (worker_lcore_id w)
    (worker_mbuf_in w) (worker_paxos w).

Definition set_mbuf_in w (arr : list mbuf) : app_lcore_params_worker P :=
  AppLcoreParamsWorker (rings_in w) (n_rings_in w) (worker_out w) (lpm_table w) (worker_id w) (worker_lcore_id w)
    (AppMbufArray arr (n_mbufs (worker_mbuf_in w))) (worker_paxos w).

(** The packet [m] of a burst: dropped, or sent to the port of its route. *)
Definition worker_packet (g : G) d w (m : mbuf) (bsz_wr : Z) : option (G * dev * app_lcore_params_worker P) :=
  '(ret, g, d, w) ← process_pkt g d m w;
  if ret <? 0 then Some (g, rte_pktmbuf_free d m, w) else
  p ← mbuf_get d m;
  ipv4_dst ← get_be (data p) (sizeof_ether_hdr + 16) 4;
  match rte_lpm_lookup d (lpm_table w) ipv4_dst with
  | None => Some (g, rte_pktmbuf_free d m, w)
  | Some port =>
      '(d, o) ← buffer_to_send (fun ret => 0 <? ret) d (worker_out w) port m bsz_wr;
      Some (g, d, set_worker_out w o)
  end.

(** One input of [app_lcore_worker]. *)
Definition worker_ring (g : G) d w (i bsz_rd bsz_wr : Z) : option (G * dev * app_lcore_params_worker P) :=
  r ← arr_get (rings_in w) i;
  if r =? NULL then None else
  let '(l, d) := rte_ring_sc_dequeue_bulk d r bsz_rd in
  if Z.of_nat (length l) =? 0 then Some (g, d, w) else
  arr ← arr_write (array (worker_mbuf_in w)) 0 l;
  for_ (Z.to_nat bsz_rd) 0 (fun j '(g, d, w) =>
    m ← arr_get (array (worker_mbuf_in w)) j;
    worker_packet g d w m bsz_wr) (g, d, set_mbuf_in w arr).

Definition app_lcore_worker (g : G) d w (bsz_rd bsz_wr : Z) : option (G * dev * app_lcore_params_worker P) :=
  for_ (Z.to_nat (n_rings_in w)) 0 (fun i '(g, d, w) => worker_ring g d w i bsz_rd bsz_wr) (g, d, w).

Definition app_lcore_worker_flush d w : option (dev * app_lcore_params_worker P) :=
  '(d, o) ← for_ (Z.to_nat APP_MAX_NIC_PORTS) 0 (fun port '(d, o) =>
              r ← arr_get (rings o) port;
              if r =? NULL then Some (d, o) else flush_output d o port) (d, worker_out w);
  Some (d, set_worker_out w o).
End worker.
End runtime.

(** ** Main loops

    [quit] reads [app.force_quit], which a signal sets; [timers_io] and [timers]
    are [rte_timer_manage], which runs the timers that are due on the core. *)
Section loops.
Context {D : Dpdk} {P G : Type}.
Context (quit : dev -> bool).
Context (timers_io : dev -> app_lcore_params_io -> option (dev * app_lcore_params_io)).
Context (timers : G -> dev -> app_lcore_params_worker P -> option (G * dev * app_lcore_params_worker P)).
Context (process_pkt : G -> dev -> mbuf -> app_lcore_params_worker P ->
  option (Z * G * dev * app_lcore_params_worker P)).

(** One iteration of [app_lcore_main_loop_io]; [send] bounds the rounds of
    [app_send_burst]. *)
Definition io_iteration (send : nat) (a : app_params P) (n_workers : Z) (d : dev) (io : app_lcore_params_io)
    (prev_tsc i : Z) : option (dev * app_lcore_params_io * Z * Z) :=
  let '(cur_tsc, d) := rte_get_timer_cycles d in
  '(d, io, prev_tsc) ← (if TIMER_RESOLUTION_CYCLES <? (cur_tsc - prev_tsc) mod 2 ^ 64
                        then '(d, io) ← timers_io d io; Some (d, io, cur_tsc) else Some (d, io, prev_tsc));
  '(d, io, i) ← (if i =? APP_LCORE_IO_FLUSH then
                   '(d, io) ← (if 0 <? n_nic_queues (rx io) then app_lcore_io_rx_flush d io n_workers
                               else Some (d, io));
                   '(d, io) ← (if 0 <? n_nic_ports (tx io) then app_lcore_io_tx_flush send d io else Some (d, io));
                   Some (d, io, 0)
                 else Some (d, io, i));
  '(d, io) ← (if 0 <? n_nic_queues (rx io)
              then app_lcore_io_rx d io n_workers (burst_size_io_rx_read a) (burst_size_io_rx_write a) (pos_lb a)
              else Some (d, io));
  '(d, io) ← (if 0 <? n_nic_ports (tx io)
              then app_lcore_io_tx send d io n_workers (burst_size_io_tx_read a) (burst_size_io_tx_write a)
              else Some (d, io));
  Some (d, io, prev_tsc, (i + 1) mod 2 ^ 64).

Fixpoint app_lcore_main_loop_io (fuel send : nat) (a : app_params P) (n_workers : Z) (d : dev)
    (io : app_lcore_params_io) (prev_tsc i : Z) : option (dev * app_lcore_params_io) :=
  match fuel with
  | O => None
  | S fuel =>
      if quit d then Some (d, io) else
      '(d, io, prev_tsc, i) ← io_iteration send a n_workers d io prev_tsc i;
      app_lcore_main_loop_io fuel send a n_workers d io prev_tsc i
  end.

Definition worker_iteration (a : app_params P) (g : G) (d : dev) (w : app_lcore_params_worker P) (prev_tsc i : Z) :
    option (G * dev * app_lcore_params_worker P * Z * Z) :=
  let '(cur_tsc, d) := rte_get_timer_cycles d in
  '(g, d, w, prev_tsc) ← (if TIMER_RESOLUTION_CYCLES <? (cur_tsc - prev_tsc) mod 2 ^ 64
                          then '(g, d, w) ← timers g d w; Some (g, d, w, cur_tsc) else Some (g, d, w, prev_tsc));
  '(d, w, i) ← (if i =? APP_LCORE_WORKER_FLUSH then '(d, w) ← app_lcore_worker_flush d w; Some (d, w, 0)
                else Some (d, w, i));
  '(g, d, w) ← app_lcore_worker process_pkt g d w (burst_size_worker_read a) (burst_size_worker_write a);
  Some (g, d, w, prev_tsc, (i + 1) mod 2 ^ 64).

Fixpoint app_lcore_main_loop_worker (fuel : nat) (a : app_params P) (g : G) (d : dev)
    (w : app_lcore_params_worker P) (prev_tsc i : Z) : option (G * dev * app_lcore_params_worker P) :=
  match fuel with
  | O => None
  | S fuel =>
      if quit d then Some (g, d, w) else
      '(g, d, w, prev_tsc, i) ← worker_iteration a g d w prev_tsc i;
      app_lcore_main_loop_worker fuel a g d w prev_tsc i
  end.
End loops.

Lemma arr_write_in (a : list mbuf) off l :
  0 <= off -> off + Z.of_nat (length l) <= Z.of_nat (length a) ->
  exists a', arr_write a off l = Some a' /\ length a' = length a /\
    take (Z.to_nat off) a' = take (Z.to_nat off) a /\ take (Z.to_nat off + length l) a' = take (Z.to_nat off) a ++ l.
Proof.
  intros Ho Hl. unfold arr_write. rewrite (proj2 (Z.leb_le 0 off)), (proj2 (Z.leb_le _ (Z.of_nat (length a)))) by lia.
  simpl. eexists. split; [done|]. split_and!.
  - rewrite !length_app, length_take, length_drop. lia.
  - rewrite take_app_le by (rewrite length_take; lia). by rewrite take_take, Nat.min_id.
  - rewrite app_assoc, take_app_length'; [done|]. rewrite length_app, length_take. lia.
Qed.

Lemma arr_write_Some (a : list mbuf) off l a' :
  arr_write a off l = Some a' ->
  0 <= off /\ off + Z.of_nat (length l) <= Z.of_nat (length a) /\ length a' = length a /\
  take (Z.to_nat off + length l) a' = take (Z.to_nat off) a ++ l.
Proof.
  intros Hw. assert (0 <= off /\ off + Z.of_nat (length l) <= Z.of_nat (length a)) as [Ho Hl].
  { unfold arr_write in Hw. destruct (Z.leb_spec 0 off), (Z.leb_spec (off + Z.of_nat (length l)) (Z.of_nat (length a))); done. }
  destruct (arr_write_in a off l Ho Hl) as (a1 & Ha & ? & _ & ?). rewrite Hw in Ha. by injection Ha as <-.
Qed.

(** ** The pipelined loop is the loop over the packets in order *)

Section pipeline.
Context `{DL : DpdkLaws}.
Implicit Types (d : dev) (o : outputs).

(** The packets an output holds. *)
Definition held_buf (b : app_mbuf_array) : list mbuf := take (Z.to_nat (n_mbufs b)) (array b).

Definition held o (i : Z) : list mbuf :=
  match arr_get (mbuf_out o) i with Some b => held_buf b | None => [] end.

Definition arrays_wf o : Prop :=
  forall i b, arr_get (mbuf_out o) i = Some b -> Z.of_nat (length (array b)) = APP_MBUF_ARRAY_SIZE.

(** One packet after the other. *)
Fixpoint rx_in_order d o (l : list mbuf) (n_workers bsz_wr pos_lb : Z) : option (dev * outputs) :=
  match l with
  | [] => Some (d, o)
  | m :: l =>
      worker ← worker_of d m pos_lb n_workers;
      '(d, o) ← app_lcore_io_rx_buffer_to_send d o worker m bsz_wr;
      rx_in_order d o l n_workers bsz_wr pos_lb
  end.

Lemma free_all_get d l x : x ∉ l -> mbuf_get (free_all d l) x = mbuf_get d x.
Proof.
  revert d. induction l as [|m l IH]; intros d Hx; [done|]. simpl. rewrite IH by set_solver.
  apply free_get_law. set_solver.
Qed.

Lemma enqueue_or_free_get d r l ret d' x :
  enqueue_or_free d r l = Some (ret, d') -> x ∉ l -> mbuf_get d' x = mbuf_get d x.
Proof.
  unfold enqueue_or_free. destruct (r =? NULL); [done|].
  pose proof (enqueue_get_law d r l x) as Hget.
  destruct (rte_ring_sp_enqueue_bulk d r l) as [k d1]. simpl in Hget. intros [= <- <-] Hx.
  destruct (k =? 0); [rewrite free_all_get by done|]; done.
Qed.

Lemma arr_take_Some a n l : arr_take a n = Some l <-> 0 <= n <= Z.of_nat (length a) /\ l = take (Z.to_nat n) a.
Proof.
  unfold arr_take. destruct (Z.leb_spec 0 n), (Z.leb_spec n (Z.of_nat (length a))); simpl; naive_solver lia.
Qed.

Lemma held_set o bufs i b j :
  arr_set (mbuf_out o) i b = Some bufs -> forall r f c ds t,
  held (Outputs r bufs f c ds t) j = if decide (i = j) then held_buf b else held o j.
Proof.
  intros Hs r f c ds t. unfold held. simpl. rewrite (arr_get_set _ _ _ _ _ Hs). by case_decide.
Qed.

Lemma take_snoc_set (arr arr' : list mbuf) n m :
  arr_set arr n m = Some arr' -> take (Z.to_nat (n + 1)) arr' = take (Z.to_nat n) arr ++ [m].
Proof.
  intros [Hn ->]%arr_set_Some. replace (Z.to_nat (n + 1)) with (S (Z.to_nat n)) by lia.
  erewrite take_S_r by (apply list_lookup_insert_eq; lia). by rewrite take_insert_ge by lia.
Qed.

(** What a buffered packet does to the others. *)
Lemma buffer_to_send_frame counts d o i m bsz d' o' :
  arrays_wf o -> buffer_to_send counts d o i m bsz = Some (d', o') ->
  arrays_wf o' /\ (forall j x, x ∈ held o' j -> x ∈ held o j \/ x = m) /\
  forall x, x ∉ held o i -> x <> m -> mbuf_get d' x = mbuf_get d x.
Proof.
  intros Hwf. unfold buffer_to_send. intros Hrun.
  apply bind_Some in Hrun as (buf & Hbuf & Hrun). apply bind_Some in Hrun as (arr & Harr & Hrun).
  pose proof (Hwf _ _ Hbuf) as Hlen. unfold APP_MBUF_ARRAY_SIZE in Hlen.
  pose proof Harr as [Hn _]%arr_set_Some. pose proof (arr_set_length _ _ _ _ Harr) as Hlen'.
  pose proof (take_snoc_set _ _ _ _ Harr) as Hsnoc.
  rewrite u32_small in Hrun by lia.
  assert (forall bufs k r f c ds t, arr_set (mbuf_out o) i (AppMbufArray arr k) = Some bufs ->
    arrays_wf (Outputs r bufs f c ds t)) as Hwf'.
  { intros bufs k r f c ds t Hb j b. simpl. rewrite (arr_get_set _ _ _ _ _ Hb).
    case_decide; [intros [= <-]; simpl; unfold APP_MBUF_ARRAY_SIZE; lia|apply Hwf]. }
  assert (held o i = take (Z.to_nat (n_mbufs buf)) (array buf)) as Hheld by (unfold held; by rewrite Hbuf).
  destruct (n_mbufs buf + 1 <? bsz) eqn:Ebsz.
  - apply bind_Some in Hrun as (bufs & Hb & [= <- <-]). split; [by eapply Hwf'|]. split; [|done].
    intros j x. rewrite (held_set _ _ _ _ _ Hb). case_decide; [subst j|by left].
    unfold held_buf. simpl. rewrite Hsnoc, Hheld. set_solver.
  - apply Z.ltb_ge in Ebsz. simplify_bind. destruct p as [ret d1]. simpl in Hrun. simplify_bind.
    injection Hrun as <- <-. split; [by eapply Hwf'|]. split.
    + intros j x. erewrite held_set by done. case_decide; [subst j; set_solver|by left].
    + intros x Hx Hm. eapply enqueue_or_free_get; [done|].
      apply arr_take_Some in E0 as [Hb ->]. intros Hin. apply Hx. rewrite Hheld.
      assert (x ∈ take (Z.to_nat (n_mbufs buf + 1)) arr) as Hin'.
      { apply elem_of_take in Hin as (k & Hk & Hlt). apply elem_of_take. exists k. split; [done|lia]. }
      rewrite Hsnoc in Hin'. set_solver.
Qed.

Lemma worker_of_get d d' m pos_lb n_workers :
  mbuf_get d' m = mbuf_get d m -> worker_of d' m pos_lb n_workers = worker_of d m pos_lb n_workers.
Proof. unfold worker_of. by intros ->. Qed.

(** The registers at [j] hold the next packets. *)
Definition regs_at (arr : list mbuf) (n j : Z) (s : rx_regs) : Prop :=
  arr_get arr j = Some (mbuf_1_0 s) /\ arr_get arr (j + 1) = Some (mbuf_1_1 s) /\
  arr_get arr (j + 2) = Some (mbuf_2_0 s) /\ arr_get arr (j + 3) = Some (mbuf_2_1 s) /\
  data_1_0 s = mbuf_1_0 s /\ (j + 1 < n -> data_1_1 s = mbuf_1_1 s).

Lemma take_drop_next (arr : list mbuf) n j m :
  0 <= j < n -> arr_get arr j = Some m ->
  drop (Z.to_nat j) (take (Z.to_nat n) arr) = m :: drop (Z.to_nat (j + 1)) (take (Z.to_nat n) arr).
Proof.
  intros Hj [_ Hm]%arr_get_Some. replace (Z.to_nat (j + 1)) with (S (Z.to_nat j)) by lia.
  apply drop_S. rewrite lookup_take_lt by lia. done.
Qed.

Lemma rx_rest_in_order fuel d o n j s rest n_workers bsz_wr pos_lb :
  rest = take (length rest) [mbuf_1_0 s; mbuf_1_1 s; mbuf_2_0 s] -> n - j = Z.of_nat (length rest) ->
  (length rest < fuel)%nat ->
  rx_rest fuel d o n j s n_workers bsz_wr pos_lb = rx_in_order d o rest n_workers bsz_wr pos_lb.
Proof.
  revert d o j s rest. induction fuel as [|fuel IH]; intros d o j s rest Hrest Hn Hfuel; [lia|].
  destruct rest as [|m rest]; simpl in Hn |- *.
  { by rewrite (proj2 (Z.ltb_ge j n)) by lia. }
  rewrite (proj2 (Z.ltb_lt j n)) by lia. simpl in Hrest. injection Hrest as -> Hrest. cbn [negb].
  destruct (worker_of d (mbuf_1_0 s) pos_lb n_workers) as [worker|]; [|done]. cbn [mbind option_bind].
  destruct (app_lcore_io_rx_buffer_to_send d o worker (mbuf_1_0 s) bsz_wr) as [[d1 o1]|]; [|done].
  cbn [mbind option_bind]. apply IH; simpl; [|lia|simpl in Hfuel; lia].
  rewrite Hrest at 1. destruct rest as [|? [|? [|? ?]]]; simpl; [done..|]. simpl in Hrest. discriminate Hrest.
Qed.

(** The packets left at [j]: all can be read, none twice, none already held. *)
Definition packets_ok d o (l : list mbuf) : Prop :=
  NoDup l /\ (forall m, m ∈ l -> is_Some (mbuf_get d m)) /\ forall m i, m ∈ l -> m ∉ held o i.

Lemma packets_ok_next counts d o i m bsz d' o' l :
  arrays_wf o -> packets_ok d o (m :: l) -> buffer_to_send counts d o i m bsz = Some (d', o') ->
  arrays_wf o' /\ packets_ok d' o' l /\ forall x, x ∈ l -> mbuf_get d' x = mbuf_get d x.
Proof.
  intros Hwf (Hnd & Hval & Hout) Hrun. apply NoDup_cons in Hnd as [Hm Hnd].
  destruct (buffer_to_send_frame _ _ _ _ _ _ _ _ Hwf Hrun) as (Hwf' & Hheld & Hget).
  assert (forall x, x ∈ l -> mbuf_get d' x = mbuf_get d x) as Hsame.
  { intros x Hx. apply Hget; [apply Hout; by right|]. intros ->. done. }
  split; [done|]. split; [|done]. split; [done|]. split.
  - intros x Hx. rewrite Hsame by done. apply Hval. by right.
  - intros x k Hx [Hin| ->]%Hheld; [|done]. by apply (Hout x k); [right|].
Qed.

Lemma regs_take arr n j s :
  regs_at arr n j s -> 0 <= j <= n -> n <= j + 3 -> n <= Z.of_nat (length arr) ->
  let rest := drop (Z.to_nat j) (take (Z.to_nat n) arr) in
  rest = take (length rest) [mbuf_1_0 s; mbuf_1_1 s; mbuf_2_0 s].
Proof.
  intros (H0 & H1 & H2 & _) Hj Hn Hlen rest. unfold rest.
  assert (drop (Z.to_nat n) (take (Z.to_nat n) arr) = []) as Hend by (apply drop_ge; rewrite length_take; lia).
  assert (j = n \/ j + 1 = n \/ j + 2 = n \/ j + 3 = n) as [->|[E|[E|E]]] by lia; [by rewrite Hend|..];
    rewrite (take_drop_next arr n j (mbuf_1_0 s) ltac:(lia) H0), ?E, ?Hend; [done|..];
    rewrite (take_drop_next arr n (j + 1) (mbuf_1_1 s) ltac:(lia) H1); replace (j + 1 + 1) with (j + 2) by lia; rewrite ?E, ?Hend; [done|].
  rewrite (take_drop_next arr n (j + 2) (mbuf_2_0 s) ltac:(lia) H2). replace (j + 2 + 1) with (j + 3) by lia. by rewrite E, Hend.
Qed.

Lemma rx_loops_in_order fuel fuel' d o arr n j s n_workers bsz_wr pos_lb :
  let rest := drop (Z.to_nat j) (take (Z.to_nat n) arr) in
  regs_at arr n j s -> 0 <= j <= n -> n < APP_MBUF_ARRAY_SIZE -> Z.of_nat (length arr) = APP_MBUF_ARRAY_SIZE ->
  Z.even j = true -> arrays_wf o -> packets_ok d o rest -> n - j < Z.of_nat fuel -> n - j < Z.of_nat fuel' ->
  ('(d, o, j, s) ← rx_pairs fuel d o arr n j s n_workers bsz_wr pos_lb;
   rx_rest fuel' d o n j s n_workers bsz_wr pos_lb) = rx_in_order d o rest n_workers bsz_wr pos_lb.
Proof.
  revert d o j s. induction fuel as [|fuel IH]; intros d o j s rest Hregs Hj Hn Hlen Hev Hwf Hok Hf Hf'; [lia|].
  unfold APP_MBUF_ARRAY_SIZE in *. destruct Hregs as (H0 & H1 & H2 & H3 & Hd0 & Hd1).
  cbn [rx_pairs]. destruct (Z.ltb_spec (j + 3) n) as [Hlt|Hge]; cbn [negb].
  2:{ cbn [mbind option_bind]. assert (Z.of_nat (length rest) = n - j) as Hl.
      { unfold rest. rewrite length_drop, length_take. lia. }
      apply rx_rest_in_order; [|lia..]. by apply regs_take; [|lia..]. }
  assert (rest = mbuf_1_0 s :: mbuf_1_1 s :: drop (Z.to_nat (j + 2)) (take (Z.to_nat n) arr)) as Hrest.
  { unfold rest. rewrite (take_drop_next arr n j (mbuf_1_0 s) ltac:(lia) H0), (take_drop_next arr n (j + 1) (mbuf_1_1 s) ltac:(lia) H1).
    by replace (j + 1 + 1) with (j + 2) by lia. }
  rewrite (take_drop_next arr n (j + 2) (mbuf_2_0 s) ltac:(lia) H2) in Hrest. replace (j + 2 + 1) with (j + 3) in Hrest by lia.
  rewrite (take_drop_next arr n (j + 3) (mbuf_2_1 s) ltac:(lia) H3) in Hrest.
  set (rest2 := mbuf_2_0 s :: mbuf_2_1 s :: drop (Z.to_nat (j + 3 + 1)) (take (Z.to_nat n) arr)) in Hrest.
  assert (drop (Z.to_nat (j + 2)) (take (Z.to_nat n) arr) = rest2) as Hrest2.
  { rewrite (take_drop_next arr n (j + 2) (mbuf_2_0 s) ltac:(lia) H2). replace (j + 2 + 1) with (j + 3) by lia.
    by rewrite (take_drop_next arr n (j + 3) (mbuf_2_1 s) ltac:(lia) H3). }
  rewrite Hrest in *. pose proof Hok as (_ & Hval & _).
  destruct (Hval (mbuf_2_0 s)) as [p20 ->]; [subst rest2; set_solver|].
  destruct (Hval (mbuf_2_1 s)) as [p21 ->]; [subst rest2; set_solver|]. cbn [mbind option_bind].
  assert (j + 5 < 512) by (apply Z.even_spec in Hev as [h ->]; lia).
  destruct (arr_get_in arr (j + 4)) as [m20 Hm20]; [lia|]. destruct (arr_get_in arr (j + 5)) as [m21 Hm21]; [lia|].
  rewrite Hm20, Hm21. cbn [mbind option_bind rx_in_order]. rewrite Hd0, (Hd1 ltac:(lia)).
  destruct (worker_of d (mbuf_1_0 s) pos_lb n_workers) as [w0|]; [|done]. cbn [mbind option_bind].
  destruct (app_lcore_io_rx_buffer_to_send d o w0 (mbuf_1_0 s) bsz_wr) as [[d1 o1]|] eqn:E0; cbn [mbind option_bind];
    [|by destruct (worker_of d (mbuf_1_1 s) pos_lb n_workers)].
  destruct (packets_ok_next _ _ _ _ _ _ _ _ _ Hwf Hok E0) as (Hwf1 & Hok1 & Hsame).
  rewrite (worker_of_get d d1) by (apply Hsame; by left).
  destruct (worker_of d (mbuf_1_1 s) pos_lb n_workers) as [w1|]; [|done]. cbn [mbind option_bind].
  destruct (app_lcore_io_rx_buffer_to_send d1 o1 w1 (mbuf_1_1 s) bsz_wr) as [[d2 o2]|] eqn:E1; [|done].
  cbn [mbind option_bind]. destruct (packets_ok_next _ _ _ _ _ _ _ _ _ Hwf1 Hok1 E1) as (Hwf2 & Hok2 & _).
  rewrite <- Hrest2 in *. apply IH; [|lia|done|done| |done|done|lia|lia].
  - unfold regs_at. simpl. replace (j + 2 + 1) with (j + 3) by lia. replace (j + 2 + 2) with (j + 4) by lia.
    replace (j + 2 + 3) with (j + 5) by lia. done.
  - by rewrite Z.even_add, Hev.
Qed.

Lemma rx_pairs_overrun fuel d o arr j s n_workers bsz_wr pos_lb :
  Z.of_nat (length arr) = APP_MBUF_ARRAY_SIZE -> 0 <= j <= 508 -> Z.even j = true ->
  rx_pairs fuel d o arr APP_MBUF_ARRAY_SIZE j s n_workers bsz_wr pos_lb = None.
Proof.
  unfold APP_MBUF_ARRAY_SIZE. revert d o j s. induction fuel as [|fuel IH]; intros d o j s Hlen Hj Hev; [done|].
  cbn [rx_pairs]. rewrite (proj2 (Z.ltb_lt _ _)) by lia. cbn [negb].
  destruct (mbuf_get d (mbuf_2_0 s)); [|done]. destruct (mbuf_get d (mbuf_2_1 s)); [|done]. cbn [mbind option_bind].
  destruct (decide (j = 508)) as [->|Hne].
  { destruct (arr_get arr (508 + 4)) eqn:E; [apply arr_get_lt in E; lia|done]. }
  destruct (arr_get arr (j + 4)); [|done]. destruct (arr_get arr (j + 5)); [|done]. cbn [mbind option_bind].
  destruct (worker_of d (data_1_0 s) pos_lb n_workers) as [w0|]; [|done].
  destruct (worker_of d (data_1_1 s) pos_lb n_workers) as [w1|]; [|done]. cbn [mbind option_bind].
  destruct (app_lcore_io_rx_buffer_to_send _ _ w0 _ _) as [[d1 o1]|]; [|done]. cbn [mbind option_bind].
  destruct (app_lcore_io_rx_buffer_to_send _ _ w1 _ _) as [[d2 o2]|]; [|done]. cbn [mbind option_bind].
  apply IH; [done| |by rewrite Z.even_add, Hev]. apply Z.even_spec in Hev as [h ->]. lia.
Qed.

Lemma rx_dispatch_eq d o arr n n_workers bsz_wr pos_lb :
  Z.of_nat (length arr) = APP_MBUF_ARRAY_SIZE -> 0 < n <= APP_MBUF_ARRAY_SIZE -> arrays_wf o ->
  packets_ok d o (take (Z.to_nat n) arr) ->
  rx_dispatch d o arr n n_workers bsz_wr pos_lb =
    if n <? APP_MBUF_ARRAY_SIZE then rx_in_order d o (take (Z.to_nat n) arr) n_workers bsz_wr pos_lb else None.
Proof.
  intros Hlen Hn Hwf Hok. unfold rx_dispatch. unfold APP_MBUF_ARRAY_SIZE in *.
  destruct (arr_get_in arr 0) as [m10 H0]; [lia|]. destruct (arr_get_in arr 1) as [m11 H1]; [lia|].
  destruct (arr_get_in arr 2) as [m20 H2]; [lia|]. destruct (arr_get_in arr 3) as [m21 H3]; [lia|].
  pose proof Hok as (_ & Hval & _).
  pose proof (take_drop_next arr n 0 m10 ltac:(lia) H0) as Hl0. change (Z.to_nat 0) with 0%nat in Hl0. rewrite drop_0 in Hl0.
  rewrite H0, H1, H2, H3. cbn [mbind option_bind].
  destruct (Hval m10) as [p10 ->]; [rewrite Hl0; by left|]. cbn [mbind option_bind].
  assert (exists x11, (if 1 <? n then _ ← mbuf_get d m11; Some m11 else Some NULL) = Some x11 /\ (1 < n -> x11 = m11))
    as (x11 & -> & Hx11).
  { destruct (Z.ltb_spec 1 n) as [Hlt|]; [|exists NULL; split; [done|lia]].
    destruct (Hval m11) as [p11 ->]; [|by exists m11]. rewrite Hl0.
    pose proof (take_drop_next arr n 1 m11 ltac:(lia) H1) as Hl1. change (0 + 1) with 1. rewrite Hl1. right. by left. }
  cbn [mbind option_bind]. destruct (Z.ltb_spec n 512) as [Hlt|Hge].
  - rewrite <- (drop_0 (take _ arr)) in Hok |- *. change 0%nat with (Z.to_nat 0) in Hok |- * at 1.
    apply rx_loops_in_order; done || lia.
  - replace n with 512 by lia. by rewrite rx_pairs_overrun.
Qed.

(** C18. The pipelined loop of [app_lcore_io_rx], two packets at a time and two
    ahead, does exactly what a loop over the packets in order does: the same
    rings, buffers and statistics, for every burst of up to 511 packets that are
    distinct and not already buffered.  A burst of 512, which the
    configuration allows, makes it read past the end of the array. *)
Theorem rx_dispatch_in_order d o arr n n_workers bsz_wr pos_lb :
  Z.of_nat (length arr) = APP_MBUF_ARRAY_SIZE -> 0 < n <= APP_MBUF_ARRAY_SIZE -> arrays_wf o ->
  packets_ok d o (take (Z.to_nat n) arr) ->
  rx_dispatch d o arr n n_workers bsz_wr pos_lb =
    if n <? APP_MBUF_ARRAY_SIZE then rx_in_order d o (take (Z.to_nat n) arr) n_workers bsz_wr pos_lb else None.
Proof. apply rx_dispatch_eq. Qed.
End pipeline.

(** ** Outputs, as queues

    The abstract state of a core: the view of DPDK, and for every output the
    packets it holds.  A burst moves from an output to its ring, or is freed
    when the ring has no room for it. *)

Section queues.
Context `{DL : DpdkLaws}.
Implicit Types (d : dev) (o : outputs) (v : view).

Definition v_move v (r : ring) (l : list mbuf) : view :=
  if Z.of_nat (length (contents v r) + length l) <=? ring_size r
  then View (obtained v) (sent v) (freed v) (set_contents (contents v) r (contents v r ++ l))
  else View (obtained v) (sent v) (freed v ++ l) (contents v).

Definition push (bsz : Z) v (r : ring) (q : list mbuf) (m : mbuf) : view * list mbuf :=
  if Z.of_nat (length q) + 1 <? bsz then (v, q ++ [m]) else (v_move v r (q ++ [m]), []).

Lemma free_all_view d l :
  view_of (free_all d l) =
  View (obtained (view_of d)) (sent (view_of d)) (freed (view_of d) ++ l) (contents (view_of d)).
Proof.
  revert d. induction l as [|m l IH]; intros d; simpl.
  - rewrite app_nil_r. by destruct (view_of d).
  - rewrite IH, free_law. simpl. by rewrite <- app_assoc.
Qed.

Lemma enqueue_or_free_view d r l :
  r <> NULL -> l <> [] ->
  exists ret d', enqueue_or_free d r l = Some (ret, d') /\ view_of d' = v_move (view_of d) r l /\
    (ret = 0 <-> ring_size r < Z.of_nat (length (contents (view_of d) r) + length l)).
Proof.
  intros Hr Hl. unfold enqueue_or_free. rewrite (proj2 (Z.eqb_neq _ _) Hr).
  destruct (rte_ring_sp_enqueue_bulk d r l) as [k d1] eqn:E. apply enqueue_law in E.
  assert (0 < Z.of_nat (length l)) by (destruct l; [done|simpl; lia]).
  eexists _, _. split; [done|]. unfold v_move. destruct (Z.leb_spec (Z.of_nat (length (contents (view_of d) r) + length l)) (ring_size r)).
  - destruct E as [-> Hv]. rewrite (proj2 (Z.eqb_neq _ 0)) by lia. split; [done|]. lia.
  - destruct E as [-> Hv]. simpl. rewrite free_all_view, Hv. split; [done|]. lia.
Qed.

Definition outputs_wf (bsz : Z) o : Prop :=
  length (mbuf_out o) = length (rings o) /\ length (mbuf_out_flush o) = length (rings o) /\
  length (rings_count o) = length (rings o) /\ length (rings_drop o) = length (rings o) /\
  length (rings_iters o) = length (rings o) /\
  forall i b, arr_get (mbuf_out o) i = Some b ->
    Z.of_nat (length (array b)) = APP_MBUF_ARRAY_SIZE /\ 0 <= n_mbufs b < bsz.

Lemma outputs_wf_arrays bsz o : outputs_wf bsz o -> arrays_wf o.
Proof. intros (_ & _ & _ & _ & _ & Hb) i b Hi. by apply (Hb i b). Qed.

(** The buffer of output [i] is written. *)
Lemma outputs_put bsz o i arr k f c ds t :
  outputs_wf bsz o -> 0 <= i < Z.of_nat (length (rings o)) -> Z.of_nat (length arr) = APP_MBUF_ARRAY_SIZE ->
  0 <= k < bsz -> length f = length (rings o) -> length c = length (rings o) ->
  length ds = length (rings o) -> length t = length (rings o) ->
  exists bufs, arr_set (mbuf_out o) i (AppMbufArray arr k) = Some bufs /\
    outputs_wf bsz (Outputs (rings o) bufs f c ds t) /\
    forall j, held (Outputs (rings o) bufs f c ds t) j = if decide (i = j) then take (Z.to_nat k) arr else held o j.
Proof.
  intros (L1 & L2 & L3 & L4 & L5 & Hbufs) Hi Harr Hk Hf Hc Hds Ht.
  destruct (arr_set_at (mbuf_out o) i (AppMbufArray arr k)) as (bufs & Hb & Hbl & Hbg); [lia|].
  exists bufs. split; [done|]. split; [|intros j; by rewrite (held_set _ _ _ _ _ Hb)].
  split_and!; simpl; try congruence. intros j b. rewrite Hbg.
  case_decide; [intros [= <-]; done|apply Hbufs].
Qed.

Lemma held_get bsz o i :
  outputs_wf bsz o -> 0 <= i < Z.of_nat (length (rings o)) -> bsz <= APP_MBUF_ARRAY_SIZE ->
  exists buf, arr_get (mbuf_out o) i = Some buf /\ held o i = take (Z.to_nat (n_mbufs buf)) (array buf) /\
    Z.of_nat (length (held o i)) = n_mbufs buf /\ Z.of_nat (length (array buf)) = APP_MBUF_ARRAY_SIZE /\
    0 <= n_mbufs buf < bsz.
Proof.
  intros (L1 & _ & _ & _ & _ & Hbufs) Hi Hbsz. destruct (arr_get_in (mbuf_out o) i) as [buf Hbuf]; [lia|].
  destruct (Hbufs _ _ Hbuf) as [Hlen Hn]. exists buf.
  assert (held o i = take (Z.to_nat (n_mbufs buf)) (array buf)) as Hheld by (unfold held; by rewrite Hbuf).
  split_and!; try done; try lia. rewrite Hheld, length_take. lia.
Qed.

(** [buffer_to_send] is [push]. *)
Lemma buffer_to_send_push counts d o i m bsz r :
  outputs_wf bsz o -> 0 < bsz <= APP_MBUF_ARRAY_SIZE -> arr_get (rings o) i = Some r ->
  (r = NULL -> Z.of_nat (length (held o i)) + 1 < bsz) ->
  exists d' o', buffer_to_send counts d o i m bsz = Some (d', o') /\ outputs_wf bsz o' /\ rings o' = rings o /\
    (view_of d', held o' i) = push bsz (view_of d) r (held o i) m /\ forall j, j <> i -> held o' j = held o j.
Proof.
  intros Hwf Hbsz Hr Hnull. pose proof (arr_get_lt _ _ _ Hr) as Hi.
  destruct (held_get bsz o i Hwf Hi ltac:(lia)) as (buf & Hbuf & Hheld & Hlh & Hlen & Hn).
  pose proof Hwf as (L1 & L2 & L3 & L4 & L5 & _).
  unfold buffer_to_send. rewrite Hbuf. cbn [mbind option_bind].
  destruct (arr_set_in (array buf) (n_mbufs buf) m) as [arr Harr]; [lia|]. rewrite Harr. cbn [mbind option_bind].
  pose proof (take_snoc_set _ _ _ _ Harr) as Hsnoc. pose proof (arr_set_length _ _ _ _ Harr) as Hlen'.
  unfold APP_MBUF_ARRAY_SIZE in *. rewrite u32_small by lia.
  unfold push. rewrite Hlh. destruct (Z.ltb_spec (n_mbufs buf + 1) bsz) as [Hlt|Hge].
  { edestruct (outputs_put bsz o i arr (n_mbufs buf + 1)) as (bufs & -> & Hwf' & Hh); [done|lia|unfold APP_MBUF_ARRAY_SIZE; lia|lia|exact L2|exact L3|exact L4|exact L5|].
    cbn [mbind option_bind]. eexists _, _. split; [done|]. split; [done|]. split; [done|].
    split; [by rewrite Hh, decide_True, Hsnoc, Hheld|]. intros j Hj. by rewrite Hh, decide_False by done. }
  assert (bsz = n_mbufs buf + 1) as Hb by lia. rewrite Hr. cbn [mbind option_bind].
  rewrite (proj2 (arr_take_Some arr bsz (held o i ++ [m]))) by (split; [lia|rewrite Hb, Hsnoc, Hheld; done]).
  cbn [mbind option_bind]. destruct (enqueue_or_free_view d r (held o i ++ [m])) as (ret & d' & -> & Hv & _);
    [intros Hz; specialize (Hnull Hz); lia|by destruct (held o i)|]. cbn [mbind option_bind].
  destruct (arr_get_in (rings_drop o) i) as [nd ->]; [lia|]. cbn [mbind option_bind].
  destruct (arr_get_in (rings_iters o) i) as [it Hit]; [lia|]. destruct (arr_get_in (rings_count o) i) as [ct Hct]; [lia|].
  destruct (arr_set_at (mbuf_out_flush o) i 0) as (fl & Hfl & Lfl & _); [lia|].
  edestruct (arr_set_at (rings_count o) i) as (cs & Hcs & Lcs & _); [lia|].
  edestruct (arr_set_at (rings_drop o) i) as (ds & Hds & Lds & _); [lia|].
  edestruct (arr_set_at (rings_iters o) i) as (ns & Hns & Lns & _); [lia|].
  edestruct (outputs_put bsz o i arr 0 fl cs ds ns) as (bufs & -> & Hwf' & Hh);
    [done|lia|unfold APP_MBUF_ARRAY_SIZE; lia|lia|congruence..|]. cbn [mbind option_bind].
  rewrite Hfl. cbn [mbind option_bind]. rewrite Hit, Hct. cbn [mbind option_bind].
  rewrite Hcs. cbn [mbind option_bind]. rewrite Hds. cbn [mbind option_bind]. rewrite Hns. cbn [mbind option_bind].
  eexists _, _. split; [done|]. split; [done|]. split; [done|].
  split; [by rewrite Hh, decide_True, Hv|]. intros j Hj. by rewrite Hh, decide_False by done.
Qed.

Lemma buffer_to_send_null counts d o i m bsz :
  outputs_wf bsz o -> bsz <= APP_MBUF_ARRAY_SIZE -> arr_get (rings o) i = Some NULL ->
  bsz <= Z.of_nat (length (held o i)) + 1 -> buffer_to_send counts d o i m bsz = None.
Proof.
  intros Hwf Hbsz Hr Hlen. pose proof (arr_get_lt _ _ _ Hr) as Hi.
  destruct (held_get bsz o i Hwf Hi Hbsz) as (buf & Hbuf & _ & Hlh & _ & Hn).
  unfold buffer_to_send. rewrite Hbuf. cbn [mbind option_bind]. destruct (arr_set _ _ m) as [arr|]; [|done].
  cbn [mbind option_bind]. unfold APP_MBUF_ARRAY_SIZE in *. rewrite u32_small by lia.
  rewrite (proj2 (Z.ltb_ge _ bsz)) by lia. rewrite Hr. cbn [mbind option_bind].
  by destruct (arr_take arr bsz).
Qed.

(** A flush empties an output into its ring, or only marks it. *)
Lemma flush_output_spec d o i bsz r :
  outputs_wf bsz o -> bsz <= APP_MBUF_ARRAY_SIZE -> arr_get (rings o) i = Some r -> r <> NULL ->
  exists d' o', flush_output d o i = Some (d', o') /\ outputs_wf bsz o' /\ rings o' = rings o /\
    (view_of d' = view_of d /\ held o' i = held o i \/ view_of d' = v_move (view_of d) r (held o i) /\ held o' i = []) /\
    forall j, j <> i -> held o' j = held o j.
Proof.
  intros Hwf Hbsz Hr Hnull. pose proof (arr_get_lt _ _ _ Hr) as Hi.
  destruct (held_get bsz o i Hwf Hi ltac:(lia)) as (buf & Hbuf & Hheld & Hlh & Hlen & Hn).
  pose proof Hwf as (L1 & L2 & L3 & L4 & L5 & Hbufs).
  unfold flush_output. destruct (arr_get_in (mbuf_out_flush o) i) as [flag ->]; [lia|]. cbn [mbind option_bind].
  rewrite Hbuf. cbn [mbind option_bind].
  destruct (arr_set_at (mbuf_out_flush o) i 1) as (fl & -> & Lfl & _); [lia|]. cbn [mbind option_bind].
  destruct ((flag =? 0) || (n_mbufs buf =? 0)) eqn:Eb.
  { eexists _, _. split; [done|]. split; [split_and!; simpl; congruence || exact Hbufs|]. split; [done|].
    split; [by left|]. done. }
  apply orb_false_iff in Eb as [_ Hne%Z.eqb_neq]. rewrite Hr. cbn [mbind option_bind].
  rewrite (proj2 (arr_take_Some (array buf) (n_mbufs buf) (held o i))) by (split; [lia|done]).
  cbn [mbind option_bind]. destruct (enqueue_or_free_view d r (held o i) Hnull) as (ret & d' & -> & Hv & _).
  { intros Hnil. rewrite Hnil in Hlh. simpl in Hlh. lia. }
  cbn [mbind option_bind]. destruct (arr_get_in (rings_drop o) i) as [nd ->]; [lia|]. cbn [mbind option_bind].
  edestruct (arr_set_at (rings_drop o) i) as (ds & -> & Lds & _); [lia|]. cbn [mbind option_bind].
  edestruct (outputs_put bsz o i (array buf) 0 fl (rings_count o) ds (rings_iters o)) as (bufs & -> & Hwf' & Hh);
    [done|lia|done|lia|congruence..|]. cbn [mbind option_bind].
  eexists _, _. split; [done|]. split; [done|]. split; [done|].
  split; [right; by rewrite Hh, decide_True|]. intros j Hj. by rewrite Hh, decide_False by done.
Qed.

(** ** Every worker gets its packets, in order *)

(** One queue of its own: the content of a ring of [size] and the packets held
    before it. *)
Definition push1 (bsz size : Z) (cq : list mbuf * list mbuf) (m : mbuf) : list mbuf * list mbuf :=
  let '(c, q) := cq in
  if Z.of_nat (length q) + 1 <? bsz then (c, q ++ [m])
  else if Z.of_nat (length c + length (q ++ [m])) <=? size then (c ++ (q ++ [m]), []) else (c, []).

Lemma push_push1 bsz v r q m v' q' :
  push bsz v r q m = (v', q') ->
  (contents v' r, q') = push1 bsz (ring_size r) (contents v r, q) m /\
  (forall r', r' <> r -> contents v' r' = contents v r') /\ obtained v' = obtained v /\ sent v' = sent v.
Proof.
  unfold push, push1, v_move. destruct (_ <? bsz); [intros [= <- <-]; done|].
  destruct (_ <=? ring_size r); intros [= <- <-]; simpl; [|done].
  split; [unfold set_contents; by rewrite decide_True|]. split; [|done].
  intros r' Hr. unfold set_contents. by rewrite decide_False.
Qed.

(** The outputs to the workers are connected to rings, each to its own. *)
Definition connected o (n : Z) : Prop :=
  (forall i, 0 <= i < n -> exists r, arr_get (rings o) i = Some r /\ r <> NULL) /\
  forall i j r, 0 <= i < n -> 0 <= j < n -> arr_get (rings o) i = Some r -> arr_get (rings o) j = Some r -> i = j.

(** The packets of [l] that go to worker [w]. *)
Definition to_worker d (l : list mbuf) (pos_lb n_workers w : Z) : list mbuf :=
  filter (fun m => worker_of d m pos_lb n_workers = Some w) l.

Lemma to_worker_same d d' l pos_lb n_workers w :
  (forall x, x ∈ l -> mbuf_get d' x = mbuf_get d x) ->
  to_worker d' l pos_lb n_workers w = to_worker d l pos_lb n_workers w.
Proof.
  unfold to_worker. induction l as [|m l IH]; intros Hs; [done|]. rewrite !filter_cons.
  rewrite (worker_of_get d d') by (apply Hs; by left). rewrite IH by (intros; apply Hs; by right). done.
Qed.

Lemma worker_of_range d m pos_lb n_workers w :
  0 < n_workers -> worker_of d m pos_lb n_workers = Some w -> 0 <= w < n_workers.
Proof.
  unfold worker_of. intros Hn Hw. simplify_bind. rewrite (proj2 (Z.eqb_neq _ 0)) in Hw by lia.
  injection Hw as <-. by apply Z.mod_pos_bound.
Qed.

Lemma rx_in_order_spec d o l n_workers bsz pos_lb :
  outputs_wf bsz o -> 0 < bsz <= APP_MBUF_ARRAY_SIZE -> 0 < n_workers -> connected o n_workers ->
  packets_ok d o l -> (forall m, m ∈ l -> is_Some (worker_of d m pos_lb n_workers)) ->
  exists d' o', rx_in_order d o l n_workers bsz pos_lb = Some (d', o') /\ outputs_wf bsz o' /\ rings o' = rings o /\
    obtained (view_of d') = obtained (view_of d) /\ sent (view_of d') = sent (view_of d) /\
    forall w r, 0 <= w < n_workers -> arr_get (rings o) w = Some r ->
      (contents (view_of d') r, held o' w) =
      foldl (push1 bsz (ring_size r)) (contents (view_of d) r, held o w) (to_worker d l pos_lb n_workers w).
Proof.
  revert d o. induction l as [|m l IH]; intros d o Hwf Hbsz Hn Hcon Hok Hdata.
  { exists d, o. split_and!; done. }
  cbn [rx_in_order]. destruct (Hdata m) as [w0 Hw0]; [by left|]. rewrite Hw0. cbn [mbind option_bind].
  pose proof (worker_of_range _ _ _ _ _ Hn Hw0) as Hr0. pose proof Hcon as [Hrings Hinj].
  destruct (Hrings _ Hr0) as (r0 & Hr & Hnull). unfold app_lcore_io_rx_buffer_to_send.
  edestruct (buffer_to_send_push (fun ret => ret =? 0) d o w0 m bsz r0 Hwf Hbsz Hr)
    as (d1 & o1 & Hrun & Hwf1 & Hrs & Hpush & Hother); [done|]. rewrite Hrun. cbn [mbind option_bind].
  destruct (packets_ok_next _ _ _ _ _ _ _ _ _ (outputs_wf_arrays _ _ Hwf) Hok Hrun) as (_ & Hok1 & Hsame).
  symmetry in Hpush. apply push_push1 in Hpush as (Hpush & Hcont & Hrec & Hsent).
  destruct (IH d1 o1) as (d' & o' & -> & Hwf' & Hrs' & Hrec' & Hsent' & Hq); [done..| |done| |].
  { unfold connected. by rewrite Hrs. }
  { intros x Hx. rewrite (worker_of_get d d1) by (by apply Hsame). apply Hdata. by right. }
  exists d', o'. split; [done|]. split; [done|]. split; [congruence|]. split; [congruence|]. split; [congruence|].
  intros w r Hw Hwr. rewrite (Hq w r Hw) by (by rewrite Hrs). rewrite (to_worker_same d d1) by done.
  unfold to_worker at 2. rewrite filter_cons. destruct (decide (w = w0)) as [->|Hne].
  - rewrite decide_True by done. cbn [foldl]. replace r with r0 by congruence. by rewrite <- Hpush.
  - rewrite decide_False by congruence. rewrite (Hother w Hne), Hcont; [done|].
    intros ->. apply Hne. by apply (Hinj _ _ r0).
Qed.

Lemma push1_room bsz size c q l :
  Z.of_nat (length c + length q + length l) <= size ->
  let '(c', q') := foldl (push1 bsz size) (c, q) l in c' ++ q' = c ++ q ++ l.
Proof.
  revert c q. induction l as [|m l IH]; intros c q Hs; cbn [foldl]; [by rewrite app_nil_r|].
  simpl length in Hs. unfold push1 at 2. destruct (_ <? bsz).
  - specialize (IH c (q ++ [m])). rewrite length_app in IH. simpl length in IH.
    destruct (foldl _ _ l) as [c' q']. rewrite IH by lia. by rewrite <- !app_assoc.
  - rewrite (proj2 (Z.leb_le _ size)) by (rewrite length_app; simpl length; lia).
    specialize (IH (c ++ q ++ [m]) []). rewrite !length_app in IH. simpl length in IH.
    destruct (foldl _ _ l) as [c' q']. rewrite IH by lia. by rewrite <- !app_assoc.
Qed.

Definition io_rx_wf (bsz : Z) (io : app_lcore_params_io) : Prop :=
  outputs_wf bsz (rx_out (rx io)) /\ Z.of_nat (length (array (rx_mbuf_in (rx io)))) = APP_MBUF_ARRAY_SIZE /\
  length (nic_queues_count (rx io)) = length (nic_queues (rx io)) /\
  length (nic_queues_iters (rx io)) = length (nic_queues (rx io)).

(** C19. One queue of [app_lcore_io_rx]: a burst of up to 511 packets is read and every
    worker is handed exactly the packets that its byte selects, in the order
    they arrived, behind those it had: they go to its buffer, and in whole bursts
    to its ring, and a burst is dropped when the ring is full.  With room for
    all of them nothing is lost. *)
Theorem rx_queue_delivers d io i n_workers bsz_rd bsz_wr pos_lb port queue l d1 :
  io_rx_wf bsz_wr io -> 0 < bsz_wr <= APP_MBUF_ARRAY_SIZE -> 0 < bsz_rd < APP_MBUF_ARRAY_SIZE -> 0 < n_workers ->
  connected (rx_out (rx io)) n_workers -> arr_get (nic_queues (rx io)) i = Some (port, queue) ->
  rte_eth_rx_burst d port queue bsz_rd = (l, d1) -> packets_ok d1 (rx_out (rx io)) l ->
  (forall m, m ∈ l -> is_Some (worker_of d1 m pos_lb n_workers)) ->
  exists d' io', rx_queue d io i n_workers bsz_rd bsz_wr pos_lb = Some (d', io') /\ io_rx_wf bsz_wr io' /\
    rings (rx_out (rx io')) = rings (rx_out (rx io)) /\
    obtained (view_of d') = obtained (view_of d) ++ l /\ sent (view_of d') = sent (view_of d) /\
    forall w r, 0 <= w < n_workers -> arr_get (rings (rx_out (rx io))) w = Some r ->
      let mine := to_worker d1 l pos_lb n_workers w in
      let c := contents (view_of d) r in let q := held (rx_out (rx io)) w in
      let c' := contents (view_of d') r in let q' := held (rx_out (rx io')) w in
      (c', q') = foldl (push1 bsz_wr (ring_size r)) (c, q) mine /\
      (Z.of_nat (length c + length q + length mine) <= ring_size r -> c' ++ q' = c ++ q ++ mine).
Proof.
  intros (Hwf & Hin & L1 & L2) Hbw Hbr Hn Hcon Hq Hrx Hok Hdata.
  unfold rx_queue. rewrite Hq. cbn [mbind option_bind]. unfold APP_MBUF_ARRAY_SIZE in *.
  rewrite u16_small by lia. rewrite Hrx. apply rx_burst_law in Hrx as (Hlen & _ & Hv).
  destruct (arr_write_in (array (rx_mbuf_in (rx io))) 0 l) as (arr & -> & Harr & _ & Htake); [lia..|]. cbn [mbind option_bind].
  simpl in Htake. destruct (Z.eqb_spec (Z.of_nat (length l)) 0) as [H0|H0].
  { eexists _, _. split; [done|]. rewrite Hv. destruct l; [|simpl in H0; lia].
    split; [split; [done|unfold APP_MBUF_ARRAY_SIZE; simpl; lia]|]. split_and!; [done..|]. intros w r Hw Hr. simpl. split; [done|].
    intros _. by rewrite !app_nil_r. }
  pose proof (arr_get_lt _ _ _ Hq) as Hi.
  destruct (arr_get_in (nic_queues_iters (rx io)) i) as [it ->]; [lia|]. cbn [mbind option_bind].
  destruct (arr_get_in (nic_queues_count (rx io)) i) as [ct ->]; [lia|]. cbn [mbind option_bind].
  edestruct (arr_set_at (nic_queues_iters (rx io)) i) as (ns & -> & Lns & _); [lia|]. cbn [mbind option_bind].
  edestruct (arr_set_at (nic_queues_count (rx io)) i) as (cs & -> & Lcs & _); [lia|]. cbn [mbind option_bind].
  rewrite rx_dispatch_eq; unfold APP_MBUF_ARRAY_SIZE; rewrite ?Nat2Z.id, ?Htake; [|lia..|by eapply outputs_wf_arrays|done].
  rewrite (proj2 (Z.ltb_lt _ 512)) by lia.
  destruct (rx_in_order_spec d1 (rx_out (rx io)) l n_workers bsz_wr pos_lb) as (d' & o' & -> & Hwf' & Hrs & Hrec & Hsent & Hqs);
    [done..|]. cbn [mbind option_bind]. eexists _, _. split; [done|]. rewrite Hv in *. simpl in *.
  split; [split; [done|unfold APP_MBUF_ARRAY_SIZE; simpl; lia]|]. split_and!; [done..|].
  intros w r Hw Hr. split; [by apply Hqs|]. intros Hroom. specialize (Hqs w r Hw Hr).
  pose proof (push1_room bsz_wr (ring_size r) _ _ _ Hroom) as Hall. rewrite <- Hqs in Hall. exact Hall.
Qed.

(** ** Sending a burst *)

(** The packets of [n] that rounds of [ks] packets send: each from the first. *)
Definition rounds (pkts : list mbuf) (ks : list Z) : list mbuf := concat (map (fun k => take (Z.to_nat k) pkts) ks).

Definition sum (ks : list Z) : Z := foldr Z.add 0 ks.

Lemma sum_nonneg ks n : Forall (fun k => 0 <= k <= n) ks -> 0 <= sum ks.
Proof. induction 1; simpl; lia. Qed.

Lemma send_burst_rounds fuel d port pkts n sent0 total d' :
  0 < n < 2 ^ 16 -> n <= Z.of_nat (length pkts) -> 0 <= sent0 < n ->
  app_send_burst fuel d port pkts n sent0 = Some (total, d') ->
  exists k ks, Forall (fun k => 0 <= k <= n) (ks ++ [k]) /\ sent0 + sum ks < n <= total /\
    total = sent0 + sum (ks ++ [k]) /\
    view_of d' = View (obtained (view_of d)) (sent (view_of d) ++ map (pair port) (rounds pkts (ks ++ [k])))
                   (freed (view_of d)) (contents (view_of d)).
Proof.
  intros Hn Hlen. revert d sent0. induction fuel as [|fuel IH]; intros d sent0 Hs; cbn [app_send_burst]; [done|].
  rewrite u16_small by lia. rewrite (proj2 (arr_take_Some pkts n (take (Z.to_nat n) pkts))) by (split; [lia|done]).
  cbn [mbind option_bind]. destruct (rte_eth_tx_burst d port 0 (take (Z.to_nat n) pkts)) as [k d1] eqn:E.
  apply tx_burst_law in E as (Hk & Hv). rewrite length_take in Hk. rewrite take_take in Hv.
  rewrite Nat.min_l in Hv by lia. rewrite u32_small by lia.
  destruct (Z.ltb_spec (sent0 + k) n) as [Hlt|Hge].
  - intros (k' & ks & Hks & Hlt' & Htot & Hv')%IH; [|lia]. exists k', (k :: ks). rewrite <- app_comm_cons.
    split; [constructor; [lia|done]|]. simpl. split; [lia|]. split; [lia|]. rewrite Hv', Hv. simpl.
    unfold rounds. simpl. by rewrite <- app_assoc, <- map_app.
  - intros [= <- <-]. exists k, []. simpl. split; [repeat constructor; lia|]. split; [lia|]. split; [lia|].
    rewrite Hv. unfold rounds. simpl. by rewrite app_nil_r.
Qed.

Lemma send_burst_returns fuel d port pkts n sent0 :
  (forall d l, l <> [] -> 0 < (rte_eth_tx_burst d port 0 l).1) ->
  0 < n < 2 ^ 16 -> n <= Z.of_nat (length pkts) -> 0 <= sent0 < n -> n - sent0 <= Z.of_nat fuel ->
  is_Some (app_send_burst fuel d port pkts n sent0).
Proof.
  intros Hpos Hn Hlen. revert d sent0. induction fuel as [|fuel IH]; intros d sent0 Hs Hf; [lia|].
  cbn [app_send_burst]. rewrite u16_small by lia.
  rewrite (proj2 (arr_take_Some pkts n (take (Z.to_nat n) pkts))) by (split; [lia|done]). cbn [mbind option_bind].
  specialize (Hpos d (take (Z.to_nat n) pkts)). destruct (rte_eth_tx_burst d port 0 (take (Z.to_nat n) pkts)) as [k d1] eqn:E.
  apply tx_burst_law in E as (Hk & _). rewrite length_take in Hk. simpl in Hpos.
  assert (0 < k). { apply Hpos. intros Hnil%(f_equal length). rewrite length_take in Hnil. simpl in Hnil. lia. }
  rewrite u32_small by lia. destruct (Z.ltb_spec (sent0 + k) n); [|by eexists]. apply IH; lia.
Qed.

(** Rounds that take nothing or everything, until the sum reaches [n]. *)
Lemma rounds_whole pkts n k ks :
  0 < n -> sum ks < n <= sum (ks ++ [k]) -> Forall (fun k => k = 0 \/ k = n) (ks ++ [k]) ->
  sum (ks ++ [k]) = n /\ rounds pkts (ks ++ [k]) = take (Z.to_nat n) pkts.
Proof.
  intros Hn. induction ks as [|k0 ks IH]; simpl; intros Hs Hall; apply Forall_cons in Hall as [H0 Hall].
  - assert (k = n) as -> by lia. unfold rounds. simpl. rewrite app_nil_r. split; [lia|done].
  - assert (0 <= sum ks) by (eapply (sum_nonneg _ n), Forall_impl; [apply Forall_app in Hall; apply Hall|simpl; lia]).
    assert (k0 = 0) as -> by lia. destruct IH as [Hsum Hr]; [lia|done|]. split; [lia|]. exact Hr.
Qed.

(** The first packet is in every round that is not empty. *)
Lemma rounds_first p pkts k ks :
  Forall (fun k => 0 <= k) ks -> 0 < k -> k < sum (k :: ks) ->
  exists b c, rounds (p :: pkts) (k :: ks) = p :: b ++ p :: c.
Proof.
  intros Hks Hk Hs. unfold rounds. cbn [map concat].
  assert (exists a c, concat (map (fun k => take (Z.to_nat k) (p :: pkts)) ks) = a ++ p :: c) as (a & c & ->).
  { simpl in Hs. assert (0 < sum ks) as H0 by lia. clear Hs. induction Hks as [|k0 ks Hk0 Hks IH]; simpl in H0; [lia|].
    cbn [map concat]. destruct (decide (0 < k0)).
    - replace (Z.to_nat k0) with (S (Z.to_nat (k0 - 1))) by lia. by eexists [], _.
    - destruct IH as (a & c & ->); [lia|]. by eexists (_ ++ a), c; rewrite <- app_assoc. }
  replace (Z.to_nat k) with (S (Z.to_nat (k - 1))) by lia. simpl. eexists _, c. by rewrite app_assoc.
Qed.

(** [app_send_burst] returns when the network card takes some packets in every
    round.  When the first round takes all of them, each is sent once, in
    order.  When it takes a part, the first packet is sent again, since every
    round starts from the first one. *)
Theorem send_burst_resends fuel d port p pkts n :
  0 < n < 2 ^ 16 -> n <= Z.of_nat (length (p :: pkts)) -> n <= Z.of_nat fuel ->
  (forall d l, l <> [] -> 0 < (rte_eth_tx_burst d port 0 l).1) ->
  exists total d' ks, app_send_burst fuel d port (p :: pkts) n 0 = Some (total, d') /\ total = sum ks /\
    view_of d' = View (obtained (view_of d)) (sent (view_of d) ++ map (pair port) (rounds (p :: pkts) ks))
                   (freed (view_of d)) (contents (view_of d)) /\
    let '(k, _) := rte_eth_tx_burst d port 0 (take (Z.to_nat n) (p :: pkts)) in
    if k =? n then total = n /\ rounds (p :: pkts) ks = take (Z.to_nat n) (p :: pkts)
    else exists b c, rounds (p :: pkts) ks = p :: b ++ p :: c.
Proof.
  intros Hn Hlen Hfuel Hpos. destruct fuel as [|fuel]; [lia|]. cbn [app_send_burst]. rewrite u16_small by lia.
  rewrite (proj2 (arr_take_Some (p :: pkts) n (take (Z.to_nat n) (p :: pkts)))) by (split; [lia|done]).
  cbn [mbind option_bind]. pose proof (Hpos d (take (Z.to_nat n) (p :: pkts))) as Hk0.
  destruct (rte_eth_tx_burst d port 0 (take (Z.to_nat n) (p :: pkts))) as [k d1] eqn:E. simpl in Hk0.
  apply tx_burst_law in E as (Hk & Hv). rewrite length_take in Hk. rewrite take_take, Nat.min_l in Hv by lia.
  assert (0 < k). { apply Hk0. replace (Z.to_nat n) with (S (Z.to_nat (n - 1))) by lia. done. }
  rewrite u32_small by lia. rewrite Z.add_0_l. destruct (Z.eqb_spec k n) as [->|Hne].
  - rewrite Z.ltb_irrefl. exists n, d1, [n]. unfold rounds. simpl. rewrite app_nil_r. split_and!; [done|lia|done|done..].
  - rewrite (proj2 (Z.ltb_lt k n)) by lia.
    destruct (send_burst_returns fuel d1 port (p :: pkts) n k) as [[total d'] Hrun]; [done..|lia|lia|].
    rewrite Hrun. apply send_burst_rounds in Hrun as (k' & ks & Hall & Hlt & Htot & Hv'); [|done..|lia].
    exists total, d', (k :: ks ++ [k']). split; [done|]. split; [done|]. split.
    { rewrite Hv', Hv. simpl. unfold rounds. cbn [map concat]. by rewrite <- app_assoc, <- map_app. }
    apply rounds_first; [|done|simpl; lia]. eapply Forall_impl; [exact Hall|simpl; lia].
Qed.
End queues.

(** ** Witnesses: two workers, bursts of two *)

Definition sim_out : outputs :=
  let o := zero_outputs 2 in
  Outputs [1; 2] (mbuf_out o) (mbuf_out_flush o) (rings_count o) (rings_drop o) (rings_iters o).

Lemma sim_out_bufs i b : arr_get (mbuf_out sim_out) i = Some b -> b = zero_mbuf_array.
Proof.
  intros [_ E]%arr_get_Some. change (mbuf_out sim_out) with [zero_mbuf_array; zero_mbuf_array] in E.
  destruct (Z.to_nat i) as [|[|k]]; [by injection E as <-..|].
  apply lookup_lt_Some in E. simpl in E. lia.
Qed.

Lemma sim_out_held i : held sim_out i = [].
Proof.
  unfold held. destruct (arr_get (mbuf_out sim_out) i) as [b|] eqn:E; [|done].
  by rewrite (sim_out_bufs _ _ E).
Qed.

Lemma sim_out_wf bsz : 0 < bsz -> outputs_wf bsz sim_out.
Proof.
  intros Hb. split_and!; [done..|]. intros i b ->%sim_out_bufs. simpl. split; [done|lia].
Qed.

(** A packet whose byte 29 is [b]. *)
Definition sim_packet (b : byte) : rte_mbuf := RteMbuf (repeat x00 29 ++ [b] ++ repeat x00 98) 128 128 0 0 0 0 0.

Definition sim_pkts : sim_dev :=
  SimDev (View [] [] [] (fun _ => [])) (<[10 := sim_packet x00]> (<[11 := sim_packet x01]> (<[12 := sim_packet x00]> ∅)))
    [10; 11; 12] 3 0.

Lemma sim_packets_ok (d : sim_dev) :
  sim_heap d = sim_heap sim_pkts -> @packets_ok (sim false) d sim_out [10; 11; 12].
Proof.
  intros Hh. split; [by apply (bool_decide_unpack _); vm_compute|]. split.
  - intros m Hm. simpl. rewrite Hh. apply elem_of_cons in Hm as [->|Hm]; [by eexists; vm_compute|].
    apply elem_of_cons in Hm as [->|Hm]; [by eexists; vm_compute|].
    apply list_elem_of_singleton in Hm as ->. by eexists; vm_compute.
  - intros m i _. rewrite sim_out_held. apply not_elem_of_nil.
Qed.

Lemma rx_dispatch_in_order_witness :
  @rx_dispatch (sim false) sim_pkts sim_out ([10; 11; 12] ++ zeros 509) 3 2 2 29 =
  @rx_in_order (sim false) sim_pkts sim_out [10; 11; 12] 2 2 29.
Proof.
  apply (@rx_dispatch_in_order (sim false) (sim_laws false) sim_pkts sim_out ([10; 11; 12] ++ zeros 509) 3 2 2 29).
  - reflexivity.
  - unfold APP_MBUF_ARRAY_SIZE. lia.
  - apply (outputs_wf_arrays 2 sim_out). apply sim_out_wf. lia.
  - apply sim_packets_ok. reflexivity.
Defined.

Definition sim_rx_core : app_lcore_params_io :=
  let io := @zero_io (sim false) in
  let r := rx io in
  AppLcoreParamsIo (IoRx (nic_queues r) 1 sim_out 2 (rx_mbuf_in r) (nic_queues_count r) (nic_queues_iters r)) (tx io).

Lemma sim_rx_core_wf : io_rx_wf 2 sim_rx_core /\ connected (rx_out (rx sim_rx_core)) 2.
Proof.
  split; [split_and!; [apply sim_out_wf; lia|done..]|]. split.
  - intros i Hi. assert (i = 0 \/ i = 1) as [->| ->] by lia; by eexists.
  - intros i j r Hi Hj. assert (i = 0 \/ i = 1) as [->| ->] by lia; assert (j = 0 \/ j = 1) as [->| ->] by lia; vm_compute; congruence.
Qed.

(** Packets 10 and 12 are a burst for worker 0; packet 11 waits for worker 1. *)
Lemma rx_queue_delivers_witness :
  exists d' io', @rx_queue (sim false) sim_pkts sim_rx_core 0 2 32 2 29 = Some (d', io') /\
    contents (sim_view d') 1 = [10; 12] /\ held (rx_out (rx io')) 1 = [11].
Proof.
  destruct (@rx_queue_delivers (sim false) (sim_laws false) sim_pkts sim_rx_core 0 2 32 2 29 0 0 [10; 11; 12]
    (@rte_eth_rx_burst (sim false) sim_pkts 0 0 32).2) as (d' & io' & Hrun & _ & _ & _ & _ & Hall).
  - apply sim_rx_core_wf.
  - unfold APP_MBUF_ARRAY_SIZE. lia.
  - unfold APP_MBUF_ARRAY_SIZE. lia.
  - lia.
  - apply sim_rx_core_wf.
  - reflexivity.
  - vm_compute. reflexivity.
  - apply sim_packets_ok. reflexivity.
  - intros m Hm. apply elem_of_cons in Hm as [->|Hm]; [by eexists; vm_compute|].
    apply elem_of_cons in Hm as [->|Hm]; [by eexists; vm_compute|].
    apply list_elem_of_singleton in Hm as ->. by eexists; vm_compute.
  - exists d', io'. split; [exact Hrun|].
    destruct (Hall 0 1 ltac:(lia) eq_refl) as [H0 _]. destruct (Hall 1 2 ltac:(lia) eq_refl) as [H1 _].
    vm_compute in H0, H1. injection H0 as H0 _. injection H1 as _ H1. split; [exact H0|exact H1].
Defined.

(** A card that takes one packet at a time: three packets are sent as three
    copies of the first. *)
Lemma send_burst_resends_witness :
  exists total d' ks, @app_send_burst (sim true) 4 sim_pkts 0 [10; 11; 12] 3 0 = Some (total, d') /\
    sent (sim_view d') = map (pair 0) (rounds [10; 11; 12] ks) /\
    exists b c, rounds [10; 11; 12] ks = 10 :: b ++ 10 :: c.
Proof.
  destruct (@send_burst_resends (sim true) (sim_laws true) 4 sim_pkts 0 10 [11; 12] 3)
    as (total & d' & ks & Hrun & _ & Hv & Hk).
  - lia.
  - simpl. lia.
  - lia.
  - intros d l Hl. destruct l; [done|]. reflexivity.
  - exists total, d', ks. split; [exact Hrun|]. split; [exact (f_equal sent Hv)|exact Hk].
Defined.
