(* ===== verification/P4Conserve.v ===== *)
(** * No packet is lost or duplicated ([p4xos/src/runtime.c])

    The cores of the data plane as one system: a step is one call of a function
    of [runtime.c] on one core.  Every packet that was obtained, read from the
    network or allocated, is in exactly one place: sent, freed, in a ring or in a
    buffer of a core.  The other calls of the main loops, those of timers by
    [rte_timer_manage], are in [P4Plane.v].

    A network card that takes a part of a burst breaks this, see
    [app_send_burst]; the class [DpdkPool] has the cards that take all of a burst
    or nothing, and says that a card does not hand out a packet the program
    still has. *)

From stdpp Require Import gmultiset.
From S2P Require Import Prelude Bytes PaxosTypes EvConfig P4Packet P4Dpdk P4Sim P4App P4Runtime.

(** NULL, which a failed allocation leaves in a buffer, is not a packet. *)
Definition bag (l : list mbuf) : gmultiset Z := list_to_set_disj (filter (fun m => m <> NULL) l).

Lemma bag_app l l' : bag (l ++ l') = bag l ⊎ bag l'.
Proof. unfold bag. rewrite filter_app. apply list_to_set_disj_app. Qed.

Lemma bag_cons m l : bag (m :: l) = bag [m] ⊎ bag l.
Proof. apply (bag_app [m]). Qed.

Lemma elem_of_bag m l : m ∈ bag l <-> m <> NULL /\ m ∈ l.
Proof. unfold bag. by rewrite elem_of_list_to_set_disj, list_elem_of_filter. Qed.

Definition sum_bag (f : Z -> list mbuf) (idx : list Z) : gmultiset Z := foldr (fun i acc => bag (f i) ⊎ acc) ∅ idx.

Lemma sum_bag_ext f f' idx : (forall i, i ∈ idx -> f' i = f i) -> sum_bag f' idx = sum_bag f idx.
Proof.
  induction idx as [|i idx IH]; intros Hf; [done|]. simpl. rewrite Hf by (by left). f_equal.
  apply IH. intros j Hj. apply Hf. by right.
Qed.

Lemma sum_bag_upd f f' idx i :
  NoDup idx -> i ∈ idx -> (forall j, j <> i -> f' j = f j) -> sum_bag f' idx ⊎ bag (f i) = sum_bag f idx ⊎ bag (f' i).
Proof.
  induction idx as [|k idx IH]; intros Hnd Hi Hf; [by apply not_elem_of_nil in Hi|].
  apply NoDup_cons in Hnd as [Hk Hnd]. simpl. apply elem_of_cons in Hi as [->|Hi].
  - rewrite (sum_bag_ext f f') by (intros j Hj; apply Hf; intros ->; done). multiset_solver.
  - specialize (IH Hnd Hi Hf). rewrite (Hf k) by (intros ->; done). multiset_solver.
Qed.

Lemma not_in_sum_bag f idx i m : m <> NULL -> i ∈ idx -> m ∉ sum_bag f idx -> m ∉ f i.
Proof.
  intros Hnull Hi Hm Hin. apply Hm. clear Hm. induction idx as [|k idx IH]; [by apply not_elem_of_nil in Hi|]. simpl.
  apply gmultiset_elem_of_disj_union. apply elem_of_cons in Hi as [->|Hi]; [left; by apply elem_of_bag|right; by apply IH].
Qed.

(** The sum over the cores of a list. *)
Definition cores_bag {A} (f : A -> gmultiset Z) (l : list A) : gmultiset Z := foldr (fun x acc => f x ⊎ acc) ∅ l.

Lemma cores_bag_split {A} (f : A -> gmultiset Z) (l : list A) i x :
  l !! i = Some x -> exists rest, cores_bag f l = f x ⊎ rest /\ forall y, cores_bag f (<[i := y]> l) = f y ⊎ rest.
Proof.
  revert i. induction l as [|z l IH]; intros [|i] Hi; simpl in *; [done|done|..].
  - injection Hi as ->. by exists (cores_bag f l).
  - destruct (IH _ Hi) as (rest & H1 & H2). exists (f z ⊎ rest). split; [rewrite H1; multiset_solver|].
    intros y. rewrite H2. multiset_solver.
Qed.

(** Loops that return keep their invariants. *)
Lemma for_some {S} (I : Z -> S -> Prop) n i (f : Z -> S -> option S) s s' :
  for_ n i f s = Some s' -> I i s ->
  (forall j s s', i <= j < i + Z.of_nat n -> I j s -> f j s = Some s' -> I (j + 1) s') -> I (i + Z.of_nat n) s'.
Proof.
  revert i s. induction n as [|n IH]; intros i s Hrun Hi Hf.
  { injection Hrun as <-. by replace (i + Z.of_nat 0) with i by lia. }
  cbn [for_] in Hrun. apply bind_Some in Hrun as (s1 & Hs1 & Hrun).
  replace (i + Z.of_nat (Datatypes.S n)) with (i + 1 + Z.of_nat n) by lia.
  apply (IH _ _ Hrun); [apply (Hf i s); [lia|done..]|]. intros j x x' Hj. apply Hf. lia.
Qed.

(** A packet that is read is one the program does not have in its hands.  The card
    takes a burst as a whole or nothing of it: when it takes a part,
    [app_send_burst] sends packets twice. *)
Class DpdkPool `{DpdkLaws} := {
  rx_fresh d port queue n l d' :
    rte_eth_rx_burst d port queue n = (l, d') ->
    NoDup l /\ forall m, m ∈ l -> m <> NULL /\
      multiplicity m (bag (obtained (view_of d))) = multiplicity m (bag (sent (view_of d)).*2 ⊎ bag (freed (view_of d)));
  tx_whole d port l k d' : rte_eth_tx_burst d port 0 l = (k, d') -> k = 0 \/ k = Z.of_nat (length l);
  alloc_law d pl m d' :
    rte_pktmbuf_alloc d pl = (m, d') ->
    view_of d' = if m =? NULL then view_of d
                 else View (obtained (view_of d) ++ [m]) (sent (view_of d)) (freed (view_of d)) (contents (view_of d));
  alloc_bulk_view d pl n r d' :
    rte_pktmbuf_alloc_bulk d pl n = (r, d') ->
    match r with
    | None => view_of d' = view_of d
    | Some l => Z.of_nat (length l) = Z.max 0 n /\
        view_of d' = View (obtained (view_of d) ++ l) (sent (view_of d)) (freed (view_of d)) (contents (view_of d))
    end;
}.

Section conserve.
Context `{DP : DpdkPool}.
Implicit Types (d : dev) (o : outputs) (v : view) (io : app_lcore_params_io) (t : io_tx).

Context (rs : list ring) (Hrs : NoDup rs).

(** The packets that left the cores' hands: sent, freed or in a ring. *)
Definition placed v : gmultiset Z := bag (sent v).*2 ⊎ bag (freed v) ⊎ sum_bag (contents v) rs.

Definition outs_bag o : gmultiset Z := sum_bag (held o) (seqZ 0 (Z.of_nat (length (rings o)))).

Lemma contents_set c r l : r ∈ rs -> sum_bag (set_contents c r l) rs ⊎ bag (c r) = sum_bag c rs ⊎ bag l.
Proof.
  intros Hr. pose proof (sum_bag_upd c (set_contents c r l) rs r Hrs Hr) as Hu.
  unfold set_contents in Hu at 3. rewrite decide_True in Hu by done. apply Hu.
  intros j Hj. unfold set_contents. by rewrite decide_False.
Qed.

Lemma v_move_placed v r l : r ∈ rs -> placed (v_move v r l) = placed v ⊎ bag l.
Proof.
  intros Hr. unfold v_move, placed. destruct (_ <=? _); simpl.
  - pose proof (contents_set (contents v) r (contents v r ++ l) Hr) as Hu. rewrite bag_app in Hu. multiset_solver.
  - rewrite bag_app. multiset_solver.
Qed.

Lemma push_placed bsz v r q m v' q' :
  (Z.of_nat (length q) + 1 < bsz \/ r ∈ rs) -> push bsz v r q m = (v', q') ->
  placed v' ⊎ bag q' = placed v ⊎ bag q ⊎ bag [m] /\ obtained v' = obtained v.
Proof.
  intros Hr. unfold push. destruct (Z.ltb_spec (Z.of_nat (length q) + 1) bsz) as [Hlt|Hge]; intros [= <- <-].
  - split; [|done]. rewrite bag_app. multiset_solver.
  - split; [|unfold v_move; by destruct (_ <=? _)]. rewrite v_move_placed by (destruct Hr; [lia|done]).
    rewrite bag_app. change (bag []) with (∅ : gmultiset Z). multiset_solver.
Qed.

(** The packets of [o] and of the rest of the system, [other], and those that left. *)
Definition conserved (other : gmultiset Z) v (b : gmultiset Z) : Prop := bag (obtained v) = placed v ⊎ b ⊎ other.

Lemma conserved_shift other v b x : conserved other v (b ⊎ x) <-> conserved (other ⊎ x) v b.
Proof. clear Hrs. unfold conserved. multiset_solver. Qed.

Lemma conserved_side other v b x : conserved other v (b ⊎ x) <-> conserved (other ⊎ b) v x.
Proof. rewrite (comm_L (⊎) b). apply conserved_shift. Qed.

Lemma outs_bag_upd o o' i :
  rings o' = rings o -> 0 <= i < Z.of_nat (length (rings o)) -> (forall j, j <> i -> held o' j = held o j) ->
  outs_bag o' ⊎ bag (held o i) = outs_bag o ⊎ bag (held o' i).
Proof.
  intros Hr Hi Hf. unfold outs_bag. rewrite Hr. apply sum_bag_upd; [apply NoDup_seqZ|by apply elem_of_seqZ; lia|done].
Qed.

(** The rings of the outputs, those that exist, are in the list. *)
Definition outs_in o : Prop := forall i r, arr_get (rings o) i = Some r -> r <> NULL -> r ∈ rs.

Lemma buffer_to_send_conserves counts d o i m bsz d' o' other :
  outputs_wf bsz o -> 0 < bsz <= APP_MBUF_ARRAY_SIZE -> outs_in o ->
  buffer_to_send counts d o i m bsz = Some (d', o') ->
  conserved other (view_of d) (outs_bag o ⊎ bag [m]) ->
  outputs_wf bsz o' /\ rings o' = rings o /\ conserved other (view_of d') (outs_bag o').
Proof.
  intros Hwf Hbsz Hin Hrun Hc.
  destruct (arr_get (rings o) i) as [r|] eqn:Hr.
  2:{ unfold buffer_to_send in Hrun. apply bind_Some in Hrun as (buf & Hbuf%arr_get_lt & _).
      destruct Hwf as (L1 & _). rewrite L1 in Hbuf. apply arr_get_in in Hbuf as [? ?]. congruence. }
  assert (r = NULL -> Z.of_nat (length (held o i)) + 1 < bsz) as Hnull.
  { intros ->. destruct (decide (Z.of_nat (length (held o i)) + 1 < bsz)) as [|Hge]; [done|].
    rewrite buffer_to_send_null in Hrun; done || lia. }
  destruct (buffer_to_send_push counts d o i m bsz r Hwf Hbsz Hr Hnull) as (d1 & o1 & Hrun' & Hwf' & Hrs' & Hp & Ho).
  rewrite Hrun in Hrun'. injection Hrun' as <- <-. split; [done|]. split; [done|].
  symmetry in Hp. apply push_placed in Hp as [Hp Hrec].
  2:{ destruct (decide (r = NULL)) as [Hz|Hz]; [left; auto|right; eauto]. }
  pose proof (outs_bag_upd o o' i Hrs' ltac:(eapply arr_get_lt; done) Ho) as Hu.
  unfold conserved in *. rewrite Hrec. multiset_solver.
Qed.

Lemma flush_output_conserves d o i bsz d' o' other :
  outputs_wf bsz o -> bsz <= APP_MBUF_ARRAY_SIZE -> outs_in o ->
  (exists r, arr_get (rings o) i = Some r /\ r <> NULL) -> flush_output d o i = Some (d', o') ->
  conserved other (view_of d) (outs_bag o) ->
  outputs_wf bsz o' /\ rings o' = rings o /\ conserved other (view_of d') (outs_bag o').
Proof.
  intros Hwf Hbsz Hin (r & Hr & Hnull) Hrun Hc.
  destruct (flush_output_spec d o i bsz r Hwf Hbsz Hr Hnull) as (d1 & o1 & Hrun' & Hwf' & Hrs' & Hp & Ho).
  rewrite Hrun in Hrun'. injection Hrun' as <- <-. split; [done|]. split; [done|].
  pose proof (outs_bag_upd o o' i Hrs' ltac:(eapply arr_get_lt; done) Ho) as Hu. unfold conserved in *.
  destruct Hp as [[-> Hh]|[-> Hh]]; rewrite Hh in Hu.
  - multiset_solver.
  - rewrite v_move_placed by eauto. replace (obtained (v_move (view_of d) r (held o i))) with (obtained (view_of d))
      by (unfold v_move; by destruct (_ <=? _)).
    change (bag []) with (∅ : gmultiset Z) in Hu. multiset_solver.
Qed.

(** *** Reading *)

Lemma rx_in_order_conserves d o l n_workers bsz pos_lb d' o' other :
  outputs_wf bsz o -> 0 < bsz <= APP_MBUF_ARRAY_SIZE -> outs_in o ->
  rx_in_order d o l n_workers bsz pos_lb = Some (d', o') -> conserved other (view_of d) (outs_bag o ⊎ bag l) ->
  outputs_wf bsz o' /\ rings o' = rings o /\ conserved other (view_of d') (outs_bag o').
Proof.
  revert d o. induction l as [|m l IH]; intros d o Hwf Hbsz Hin Hrun Hc; cbn [rx_in_order] in Hrun.
  { injection Hrun as <- <-. split_and!; [done..|]. change (bag []) with (∅ : gmultiset Z) in Hc.
    by rewrite (right_id_L ∅ (⊎)) in Hc. }
  apply bind_Some in Hrun as (w & _ & Hrun). apply bind_Some in Hrun as ([d1 o1] & Hb & Hrun).
  destruct (buffer_to_send_conserves _ d o w m bsz d1 o1 (other ⊎ bag l) Hwf Hbsz Hin Hb) as (Hwf1 & Hrs1 & Hc1).
  { apply (proj1 (conserved_shift _ _ _ _)). by rewrite <- (assoc_L (⊎)), <- bag_cons. }
  destruct (IH d1 o1) as (Hwf' & Hrs' & Hc'); [done..| |done| |split_and!; [done|congruence|done]].
  { unfold outs_in. by rewrite Hrs1. }
  by apply (proj2 (conserved_shift _ _ _ _)).
Qed.

Lemma fresh_packets_ok d o port queue n l d1 other :
  rte_eth_rx_burst d port queue n = (l, d1) -> length (mbuf_out o) = length (rings o) ->
  conserved other (view_of d) (outs_bag o) -> packets_ok d1 o l.
Proof.
  intros Hrx Hl Hc. destruct (rx_fresh _ _ _ _ _ _ Hrx) as [Hnd Hfresh]. apply rx_burst_law in Hrx as (_ & Hval & _).
  split; [done|]. split; [done|]. intros m i Hm. specialize (Hfresh _ Hm).
  destruct (decide (0 <= i < Z.of_nat (length (rings o)))) as [Hi|Hi].
  - destruct Hfresh as [Hnull Hfresh]. apply (not_in_sum_bag _ (seqZ 0 (Z.of_nat (length (rings o))))); [done|by apply elem_of_seqZ; lia|].
    fold (outs_bag o). intros Hin. pose proof (proj1 (elem_of_multiplicity m (outs_bag o)) Hin). unfold conserved, placed in Hc.
    apply (f_equal (multiplicity m)) in Hc. rewrite !multiplicity_disj_union in *. lia.
  - unfold held. destruct (arr_get (mbuf_out o) i) eqn:E; [apply arr_get_lt in E; lia|]. apply not_elem_of_nil.
Qed.

Definition rx_inv (n_workers bsz : Z) (other : gmultiset Z) (t : io_tx) (s : dev * app_lcore_params_io) : Prop :=
  let '(d, io) := s in
  io_rx_wf bsz io /\ connected (rx_out (rx io)) n_workers /\ outs_in (rx_out (rx io)) /\ tx io = t /\
  conserved other (view_of d) (outs_bag (rx_out (rx io))).

Lemma rx_queue_conserves d io i n_workers bsz_rd bsz pos_lb s other t :
  0 < bsz <= APP_MBUF_ARRAY_SIZE -> rx_inv n_workers bsz other t (d, io) ->
  rx_queue d io i n_workers bsz_rd bsz pos_lb = Some s -> rx_inv n_workers bsz other t s.
Proof.
  intros Hbsz ((Hwf & Hin & L1 & L2) & Hcon & Houts & Ht & Hc) Hrun. unfold rx_queue in Hrun.
  apply bind_Some in Hrun as ([port queue] & Hq & Hrun).
  destruct (rte_eth_rx_burst d port queue (u16 bsz_rd)) as [l d1] eqn:Erx.
  pose proof (fresh_packets_ok _ _ _ _ _ _ _ _ Erx ltac:(apply Hwf) Hc) as Hok. apply rx_burst_law in Erx as (_ & _ & Hv).
  assert (conserved other (view_of d1) (outs_bag (rx_out (rx io)) ⊎ bag l)) as Hc1.
  { unfold conserved, placed in *. rewrite Hv. simpl. rewrite bag_app, Hc. multiset_solver. }
  apply bind_Some in Hrun as (arr & Harr & Hrun).
  apply arr_write_Some in Harr as (_ & Hle & Hlen & Htake). simpl in Htake.
  destruct (Z.eqb_spec (Z.of_nat (length l)) 0) as [Hz|Hz].
  - injection Hrun as <-. destruct l; [|simpl in Hz; lia]. change (bag []) with (∅ : gmultiset Z) in Hc1.
    split; [split; [done|]; simpl; split_and!; [lia|done..]|]. split_and!; [done..|]. unfold conserved in *. simpl. multiset_solver.
  - simplify_bind. destruct p as [d2 o2]. injection Hrun as <-.
    rewrite rx_dispatch_eq in E3; [| |unfold APP_MBUF_ARRAY_SIZE in *; lia|by eapply outputs_wf_arrays|by rewrite Nat2Z.id, Htake]; [|lia].
    destruct (_ <? APP_MBUF_ARRAY_SIZE); [|done]. rewrite Nat2Z.id, Htake in E3.
    destruct (rx_in_order_conserves _ _ _ _ _ _ _ _ _ Hwf Hbsz Houts E3 Hc1) as (Hwf2 & Hrs2 & Hc2).
    apply arr_set_length in E1, E2. split; [split; [done|]; simpl; split_and!; lia|].
    unfold connected, outs_in. simpl. rewrite Hrs2. done.
Qed.

Lemma app_lcore_io_rx_conserves d io n_workers bsz_rd bsz pos_lb s other t :
  0 < bsz <= APP_MBUF_ARRAY_SIZE -> rx_inv n_workers bsz other t (d, io) ->
  app_lcore_io_rx d io n_workers bsz_rd bsz pos_lb = Some s -> rx_inv n_workers bsz other t s.
Proof.
  intros Hbsz Hinv Hrun. apply (for_some (fun _ => rx_inv n_workers bsz other t)) in Hrun; [done..|].
  intros j [d1 io1] s' _ Hi. by apply rx_queue_conserves.
Qed.

Lemma rx_flush_conserves d io n_workers bsz s other t :
  bsz <= APP_MBUF_ARRAY_SIZE -> rx_inv n_workers bsz other t (d, io) ->
  app_lcore_io_rx_flush d io n_workers = Some s -> rx_inv n_workers bsz other t s.
Proof.
  intros Hbsz ((Hwf & Hin & L1 & L2) & Hcon & Houts & Ht & Hc) Hrun. unfold app_lcore_io_rx_flush in Hrun.
  apply bind_Some in Hrun as ([d1 o1] & Hrun & [= <-]).
  apply (for_some (fun _ '(d, o) => outputs_wf bsz o /\ rings o = rings (rx_out (rx io)) /\
    conserved other (view_of d) (outs_bag o))) in Hrun as (Hwf' & Hrs' & Hc'); [|done|].
  - split; [split; done|]. unfold connected, outs_in. simpl. rewrite Hrs'. done.
  - intros j [d2 o2] [d3 o3] Hj (Hwf2 & Hrs2 & Hc2) Hf.
    destruct (flush_output_conserves d2 o2 j bsz d3 o3 other) as (? & ? & ?); [done..| | |done|done|split_and!; [done|congruence|done]].
    + unfold outs_in. by rewrite Hrs2.
    + rewrite Hrs2. destruct Hcon as [Hr _]. apply Hr. lia.
Qed.

(** *** Sending *)

Definition tx_held t (port : Z) : list mbuf :=
  match arr_get (tx_mbuf_out t) port with Some b => held_buf b | None => [] end.

Definition tx_bag t : gmultiset Z := sum_bag (tx_held t) (seqZ 0 (Z.of_nat (length (tx_mbuf_out t)))).

(** The buffers of the ports may hold more than a burst: all that is in them is sent. *)
Definition tx_wf t : Prop :=
  forall port b, arr_get (tx_mbuf_out t) port = Some b ->
    Z.of_nat (length (array b)) = APP_MBUF_ARRAY_SIZE /\ 0 <= n_mbufs b <= APP_MBUF_ARRAY_SIZE.

Definition tx_in t : Prop := forall port row i r,
  arr_get (tx_rings t) port = Some row -> arr_get row i = Some r -> r <> NULL -> r ∈ rs.

Lemma send_burst_whole fuel d port pkts n total d' :
  0 < n < 2 ^ 16 -> n <= Z.of_nat (length pkts) -> app_send_burst fuel d port pkts n 0 = Some (total, d') ->
  view_of d' = View (obtained (view_of d)) (sent (view_of d) ++ map (pair port) (take (Z.to_nat n) pkts))
                 (freed (view_of d)) (contents (view_of d)).
Proof.
  intros Hn Hlen. revert d. induction fuel as [|fuel IH]; intros d; cbn [app_send_burst]; [done|].
  rewrite u16_small by lia. rewrite (proj2 (arr_take_Some pkts n (take (Z.to_nat n) pkts))) by (split; [lia|done]).
  cbn [mbind option_bind]. destruct (rte_eth_tx_burst d port 0 (take (Z.to_nat n) pkts)) as [k d1] eqn:E.
  pose proof (tx_whole _ _ _ _ _ E) as Hk. rewrite length_take in Hk. apply tx_burst_law in E as (_ & Hv).
  destruct Hk as [->| ->].
  - simpl in Hv. rewrite app_nil_r in Hv. rewrite (proj2 (Z.ltb_lt _ n)) by (rewrite u32_small; lia).
    intros Hrun. apply IH in Hrun. rewrite Hrun, Hv. done.
  - rewrite (proj2 (Z.ltb_ge _ n)) by (rewrite u32_small; lia). intros [= <- <-]. rewrite Hv, take_take.
    by rewrite (Nat.min_r _ (Z.to_nat n)) by lia.
Qed.

Lemma tx_put t port arr k bufs ts ps n fl cs ns :
  arr_set (tx_mbuf_out t) port (AppMbufArray arr k) = Some bufs ->
  tx_bag (IoTx ts ps n bufs fl cs ns) ⊎ bag (tx_held t port) = tx_bag t ⊎ bag (take (Z.to_nat k) arr).
Proof.
  intros Hs. pose proof Hs as [Hp _]%arr_set_Some. unfold tx_bag. simpl. rewrite (arr_set_length _ _ _ _ Hs).
  pose proof (sum_bag_upd (tx_held t) (tx_held (IoTx ts ps n bufs fl cs ns)) (seqZ 0 (Z.of_nat (length (tx_mbuf_out t)))) port) as Hu.
  assert (tx_held (IoTx ts ps n bufs fl cs ns) port = take (Z.to_nat k) arr) as Hk.
  { unfold tx_held. simpl. by rewrite (arr_get_set _ _ _ _ _ Hs), decide_True. }
  rewrite <- Hk. apply Hu.
  - apply NoDup_seqZ.
  - apply elem_of_seqZ. lia.
  - intros j Hj. unfold tx_held. simpl. by rewrite (arr_get_set _ _ _ _ _ Hs), decide_False.
Qed.

Definition tx_inv (other : gmultiset Z) (n : Z) (ts : list (list ring)) (ps : list Z) (s : dev * io_tx) : Prop :=
  let '(d, t) := s in
  tx_wf t /\ n_nic_ports t = n /\ tx_rings t = ts /\ nic_ports t = ps /\ conserved other (view_of d) (tx_bag t).

Lemma send_buffer_conserves fuel d t port arr n flag other l s ps :
  tx_wf t -> Z.of_nat (length arr) = APP_MBUF_ARRAY_SIZE -> 0 < n <= APP_MBUF_ARRAY_SIZE ->
  take (Z.to_nat n) arr = tx_held t port ++ l -> nic_ports t = ps ->
  conserved other (view_of d) (tx_bag t ⊎ bag l) -> send_buffer fuel d t port arr n flag = Some s ->
  tx_inv other (n_nic_ports t) (tx_rings t) ps s.
Proof.
  intros Hwf Hlen Hn Htake Hps Hc Hrun. unfold send_buffer in Hrun. unfold APP_MBUF_ARRAY_SIZE in *.
  apply bind_Some in Hrun as ([total d1] & Hsend & Hrun). apply send_burst_whole in Hsend; [|lia..].
  simplify_bind. injection Hrun as <-. split_and!; [|done..|].
  - intros p b. simpl. rewrite (arr_get_set _ _ _ _ _ E3). case_decide; [intros [= <-]; simpl; split; [exact Hlen|unfold APP_MBUF_ARRAY_SIZE; lia]|apply Hwf].
  - pose proof (tx_put _ _ _ _ _ (tx_rings t) (nic_ports t) (n_nic_ports t) l3 l1 l0 E3) as Hu. clear -Hu Hc Hsend Htake.
    rewrite Htake in Hsend. change (bag (take (Z.to_nat 0) arr)) with (∅ : gmultiset Z) in Hu.
    unfold conserved, placed in *. rewrite Hsend. simpl. rewrite fmap_app, bag_app.
    replace (map (pair port) (tx_held t port ++ l)).*2 with (tx_held t port ++ l)
      by (rewrite <- list_fmap_compose; symmetry; apply list_fmap_id).
    rewrite bag_app. multiset_solver.
Qed.

(** A burst that was taken from a ring is to be accounted for. *)
Lemma dequeue_conserves d r n l d1 other b :
  r ∈ rs -> rte_ring_sc_dequeue_bulk d r n = (l, d1) -> conserved other (view_of d) b ->
  conserved other (view_of d1) (b ⊎ bag l) /\ (l = [] \/ Z.of_nat (length l) = Z.max 0 n).
Proof.
  intros Hr E Hc. apply dequeue_law in E. destruct (Z.leb_spec n (Z.of_nat (length (contents (view_of d) r)))).
  - destruct E as [-> Hv]. split; [|right; rewrite length_take; lia].
    pose proof (contents_set (contents (view_of d)) r (drop (Z.to_nat n) (contents (view_of d) r)) Hr) as Hu.
    rewrite <- (take_drop (Z.to_nat n) (contents (view_of d) r)) in Hu at 2. rewrite bag_app in Hu.
    unfold conserved, placed in *. rewrite Hv. simpl. multiset_solver.
  - destruct E as [-> ->]. split; [|by left]. change (bag []) with (∅ : gmultiset Z). by rewrite (right_id_L ∅ (⊎)).
Qed.

Lemma tx_ring_conserves fuel d t worker i bsz_rd bsz other n ts ps s :
  0 < bsz <= APP_MBUF_ARRAY_SIZE -> 0 < bsz_rd -> tx_in t -> tx_inv other n ts ps (d, t) ->
  tx_ring fuel d t worker i bsz_rd bsz = Some s -> tx_inv other n ts ps s.
Proof.
  intros Hbsz Hrd Hin (Hwf & Hn & Hts & Hps & Hc) Hrun. unfold tx_ring in Hrun.
  apply bind_Some in Hrun as (port & Hport & Hrun). apply bind_Some in Hrun as (row & Hrow & Hrun).
  apply bind_Some in Hrun as (r & Hr & Hrun). apply bind_Some in Hrun as (buf & Hbuf & Hrun).
  destruct (Z.eqb_spec r NULL) as [|Hnull]; [done|].
  destruct (rte_ring_sc_dequeue_bulk d r bsz_rd) as [l d1] eqn:E.
  destruct (dequeue_conserves _ _ _ _ _ _ _ ltac:(by eapply Hin) E Hc) as [Hc1 Hl].
  destruct (Z.eqb_spec (Z.of_nat (length l)) 0) as [Hz|Hz].
  { injection Hrun as <-. destruct l; [|simpl in Hz; lia]. change (bag []) with (∅ : gmultiset Z) in Hc1.
    rewrite (right_id_L ∅ (⊎)) in Hc1. done. }
  destruct Hl as [->|Hl]; [simpl in Hz; lia|].
  apply bind_Some in Hrun as (arr & Harr & Hrun). apply arr_write_Some in Harr as (Ho & Hle & Hlen & Htake).
  destruct (Hwf _ _ Hbuf) as [Hab Hnb]. unfold APP_MBUF_ARRAY_SIZE in *. rewrite u32_small in Hrun by lia.
  assert (take (Z.to_nat (n_mbufs buf + bsz_rd)) arr = tx_held t port ++ l) as Htk.
  { unfold tx_held. rewrite Hbuf. unfold held_buf. rewrite <- Htake. f_equal. lia. }
  destruct (Z.ltb_spec (n_mbufs buf + bsz_rd) bsz) as [Hlt|Hge].
  - apply bind_Some in Hrun as (bufs & Hb & [= <-]). split_and!; [|done..|].
    + intros p b. simpl. rewrite (arr_get_set _ _ _ _ _ Hb). case_decide; [intros [= <-]; simpl; unfold APP_MBUF_ARRAY_SIZE; lia|apply Hwf].
    + pose proof (tx_put _ _ _ _ _ (tx_rings t) (nic_ports t) (n_nic_ports t) (tx_mbuf_out_flush t) (nic_ports_count t)
        (nic_ports_iters t) Hb) as Hu. rewrite Htk, bag_app in Hu. unfold conserved in *. rewrite Hc1. clear -Hu. multiset_solver.
  - rewrite <- Hn, <- Hts. eapply send_buffer_conserves; [done|..|exact Hrun]; unfold APP_MBUF_ARRAY_SIZE; done || lia.
Qed.

Lemma app_lcore_io_tx_conserves fuel d io n_workers bsz_rd bsz other d' io' :
  0 < bsz <= APP_MBUF_ARRAY_SIZE -> 0 < bsz_rd -> tx_wf (tx io) -> tx_in (tx io) ->
  conserved other (view_of d) (tx_bag (tx io)) -> app_lcore_io_tx fuel d io n_workers bsz_rd bsz = Some (d', io') ->
  rx io' = rx io /\ tx_inv other (n_nic_ports (tx io)) (tx_rings (tx io)) (nic_ports (tx io)) (d', tx io').
Proof.
  intros Hbsz Hrd Hwf Hin Hc Hrun. unfold app_lcore_io_tx in Hrun. apply bind_Some in Hrun as ([d1 t1] & Hrun & [= <- <-]).
  split; [done|]. simpl.
  apply (for_some (fun _ => tx_inv other (n_nic_ports (tx io)) (tx_rings (tx io)) (nic_ports (tx io)))) in Hrun; [done|done|].
  intros w [d2 t2] s2 _ H2 Hrun2.
  apply (for_some (fun _ => tx_inv other (n_nic_ports (tx io)) (tx_rings (tx io)) (nic_ports (tx io)))) in Hrun2; [done|done|].
  intros i [d3 t3] s3 _ H3. apply tx_ring_conserves; [done..| |done].
  unfold tx_in. destruct H3 as (_ & _ & -> & _). exact Hin.
Qed.

Lemma tx_flush_conserves fuel d io bsz other d' io' :
  0 < bsz <= APP_MBUF_ARRAY_SIZE -> tx_wf (tx io) -> conserved other (view_of d) (tx_bag (tx io)) ->
  app_lcore_io_tx_flush fuel d io = Some (d', io') ->
  rx io' = rx io /\ tx_inv other (n_nic_ports (tx io)) (tx_rings (tx io)) (nic_ports (tx io)) (d', tx io').
Proof.
  intros Hbsz Hwf Hc Hrun. unfold app_lcore_io_tx_flush in Hrun. apply bind_Some in Hrun as ([d1 t1] & Hrun & [= <- <-]).
  split; [done|]. simpl.
  apply (for_some (fun _ => tx_inv other (n_nic_ports (tx io)) (tx_rings (tx io)) (nic_ports (tx io)))) in Hrun; [done|done|].
  intros i [d2 t2] s2 _ (Hwf2 & Hn & Hts & Hps & Hc2) Hrun2. unfold tx_flush_port in Hrun2.
  apply bind_Some in Hrun2 as (port & Hport & Hrun2). apply bind_Some in Hrun2 as (flag & Hflag & Hrun2).
  apply bind_Some in Hrun2 as (buf & Hbuf & Hrun2). destruct (Hwf2 _ _ Hbuf) as [Hab Hnb].
  destruct ((flag =? 0) || (n_mbufs buf =? 0)) eqn:Eb.
  - apply bind_Some in Hrun2 as (fl & _ & [= <-]). by split_and!.
  - apply orb_false_iff in Eb as [_ Hne%Z.eqb_neq]. rewrite <- Hn, <- Hts.
    eapply (send_buffer_conserves fuel d2 t2 port (array buf) (n_mbufs buf) 1 other []);
      [done|done|lia| |done| |exact Hrun2].
    + unfold tx_held. rewrite Hbuf, app_nil_r. done.
    + change (bag []) with (∅ : gmultiset Z). by rewrite (right_id_L ∅ (⊎)).
Qed.

(** *** Workers *)

Section worker.
Context {P G : Type}.
Context (process_pkt : G -> dev -> mbuf -> app_lcore_params_worker P ->
  option (Z * G * dev * app_lcore_params_worker P)).
Implicit Types (w : app_lcore_params_worker P).

(** The shared state may hold packets, too. *)
Context (side : G -> gmultiset Z) (side_ok : G -> Prop).

(** The callback may write the packet, the Paxos state and the shared state; it leaves the
    buffers of the worker, and the packets it allocates are in the shared state. *)
Definition tidy : Prop := forall g d m w ret g' d' w',
  process_pkt g d m w = Some (ret, g', d', w') ->
  worker_out w' = worker_out w /\ rings_in w' = rings_in w /\
  n_rings_in w' = n_rings_in w /\ worker_mbuf_in w' = worker_mbuf_in w /\
  (side_ok g -> side_ok g' /\ forall other, conserved other (view_of d) (side g) -> conserved other (view_of d') (side g')).

Context (Htidy : tidy).

Definition worker_inv (bsz : Z) (other : gmultiset Z) (ins : list ring) (n : Z) (s : G * dev * app_lcore_params_worker P) : Prop :=
  let '(g, d, w) := s in
  outputs_wf bsz (worker_out w) /\ outs_in (worker_out w) /\ rings_in w = ins /\ n_rings_in w = n /\
  Z.of_nat (length (array (worker_mbuf_in w))) = APP_MBUF_ARRAY_SIZE /\ side_ok g /\
  conserved other (view_of d) (outs_bag (worker_out w) ⊎ side g).

Lemma free_conserves d m other b :
  conserved (other ⊎ bag [m]) (view_of d) b -> conserved other (view_of (rte_pktmbuf_free d m)) b.
Proof.
  unfold conserved, placed. rewrite free_law. simpl. rewrite bag_app. multiset_solver.
Qed.

Lemma worker_packet_conserves g d w m bsz other ins n s :
  0 < bsz <= APP_MBUF_ARRAY_SIZE -> worker_inv bsz (other ⊎ bag [m]) ins n (g, d, w) ->
  worker_packet process_pkt g d w m bsz = Some s -> worker_inv bsz other ins n s /\ worker_mbuf_in s.2 = worker_mbuf_in w.
Proof.
  intros Hbsz (Hwf & Hin & Hins & Hn & Hb & Hside & Hc) Hrun. unfold worker_packet in Hrun.
  apply bind_Some in Hrun as ([[[ret g1] d1] w1] & Hp & Hrun).
  destruct (Htidy _ _ _ _ _ _ _ _ Hp) as (Ho & Hri & Hni & Hmi & Hmove). destruct (Hmove Hside) as [Hside1 Hv].
  assert (conserved (other ⊎ bag [m]) (view_of d1) (outs_bag (worker_out w1) ⊎ side g1)) as Hc1.
  { rewrite Ho. apply conserved_side, Hv. by apply conserved_side. }
  rewrite <- Ho in Hwf, Hin.
  assert (worker_inv bsz other ins n (g1, rte_pktmbuf_free d1 m, w1)) as Hfree.
  { split_and!; [done|done|congruence|congruence|congruence|done|by apply free_conserves]. }
  destruct (ret <? 0); [by injection Hrun as <-|].
  apply bind_Some in Hrun as (p & _ & Hrun). apply bind_Some in Hrun as (dst & _ & Hrun).
  destruct (rte_lpm_lookup d1 (lpm_table w1) dst) as [port|]; [|by injection Hrun as <-].
  apply bind_Some in Hrun as ([d2 o2] & Hb2 & [= <-]).
  destruct (buffer_to_send_conserves _ d1 (worker_out w1) port m bsz d2 o2 (other ⊎ side g1) Hwf Hbsz Hin Hb2) as (Hwf2 & Hrs2 & Hc2).
  { clear -Hc1. unfold conserved in *. multiset_solver. }
  split; [|done]. split_and!; simpl; [done| |congruence|congruence|congruence|done|by apply (proj2 (conserved_shift _ _ _ _))].
  unfold outs_in. by rewrite Hrs2.
Qed.

Lemma worker_ring_conserves g d w i bsz_rd bsz other ins n s :
  0 < bsz <= APP_MBUF_ARRAY_SIZE -> 0 < bsz_rd -> (forall i r, arr_get ins i = Some r -> r <> NULL -> r ∈ rs) ->
  worker_inv bsz other ins n (g, d, w) -> worker_ring process_pkt g d w i bsz_rd bsz = Some s -> worker_inv bsz other ins n s.
Proof.
  intros Hbsz Hrd Hrin (Hwf & Hin & Hins & Hn & Hb & Hside & Hc) Hrun. unfold worker_ring in Hrun.
  apply bind_Some in Hrun as (r & Hr & Hrun). destruct (Z.eqb_spec r NULL) as [|Hnull]; [done|].
  destruct (rte_ring_sc_dequeue_bulk d r bsz_rd) as [l d1] eqn:E. rewrite Hins in Hr.
  destruct (dequeue_conserves _ _ _ _ _ _ _ ltac:(by eapply Hrin) E Hc) as [Hc1 Hl].
  destruct (Z.eqb_spec (Z.of_nat (length l)) 0) as [Hz|Hz].
  { injection Hrun as <-. destruct l; [|simpl in Hz; lia]. change (bag []) with (∅ : gmultiset Z) in Hc1.
    rewrite (right_id_L ∅ (⊎)) in Hc1. done. }
  destruct Hl as [->|Hl]; [simpl in Hz; lia|]. apply bind_Some in Hrun as (arr & Harr & Hrun).
  apply arr_write_Some in Harr as (_ & Hle & Hlen & Htake). simpl in Htake.
  apply (for_some (fun j s => worker_inv bsz (other ⊎ bag (drop (Z.to_nat j) l)) ins n s /\
    array (worker_mbuf_in s.2) = arr)) in Hrun as [Hinv _].
  - rewrite drop_ge in Hinv by lia. change (bag []) with (∅ : gmultiset Z) in Hinv. by rewrite (right_id_L ∅ (⊎)) in Hinv.
  - split; [|done]. split_and!; simpl; [done..|lia|done|]. by apply (proj1 (conserved_shift _ _ _ _)).
  - intros j [[g2 d2] w2] s2 Hj [Hinv Harr2] Hstep. apply bind_Some in Hstep as (m & Hm & Hstep). simpl in Harr2.
    rewrite Harr2 in Hm. apply arr_get_Some in Hm as [_ Hm].
    assert (l !! Z.to_nat j = Some m) as Hlm by (rewrite <- Htake, lookup_take_lt by lia; done).
    rewrite (drop_S _ _ _ Hlm), bag_cons in Hinv.
    rewrite (assoc_L (⊎)), (comm_L (⊎) other), <- (assoc_L (⊎)), (comm_L (⊎)) in Hinv.
    eapply worker_packet_conserves in Hstep as [Hinv' Hin']; [|done|exact Hinv].
    replace (Z.to_nat (j + 1)) with (S (Z.to_nat j)) by lia. split; [done|]. by rewrite Hin'.
Qed.

Lemma app_lcore_worker_conserves g d w bsz_rd bsz other s :
  0 < bsz <= APP_MBUF_ARRAY_SIZE -> 0 < bsz_rd -> (forall i r, arr_get (rings_in w) i = Some r -> r <> NULL -> r ∈ rs) ->
  worker_inv bsz other (rings_in w) (n_rings_in w) (g, d, w) -> app_lcore_worker process_pkt g d w bsz_rd bsz = Some s ->
  worker_inv bsz other (rings_in w) (n_rings_in w) s.
Proof.
  intros Hbsz Hrd Hrin Hinv Hrun.
  apply (for_some (fun _ => worker_inv bsz other (rings_in w) (n_rings_in w))) in Hrun; [done..|].
  intros j [[g1 d1] w1] s1 _ H1. by apply worker_ring_conserves.
Qed.

Lemma worker_flush_conserves g d w bsz other ins n d' w' :
  bsz <= APP_MBUF_ARRAY_SIZE -> worker_inv bsz other ins n (g, d, w) ->
  app_lcore_worker_flush d w = Some (d', w') -> worker_inv bsz other ins n (g, d', w').
Proof.
  intros Hbsz (Hwf & Hin & Hins & Hn & Hb & Hside & Hc) Hrun. apply conserved_shift in Hc. unfold app_lcore_worker_flush in Hrun.
  apply bind_Some in Hrun as ([d1 o1] & Hrun & [= <- <-]).
  apply (for_some (fun _ '(d, o) => outputs_wf bsz o /\ rings o = rings (worker_out w) /\
    conserved (other ⊎ side g) (view_of d) (outs_bag o))) in Hrun as (Hwf' & Hrs' & Hc'); [|done|].
  - split_and!; simpl; [done| |done..|by apply (proj2 (conserved_shift _ _ _ _))]. unfold outs_in. by rewrite Hrs'.
  - intros j [d2 o2] [d3 o3] Hj (Hwf2 & Hrs2 & Hc2) Hf. apply bind_Some in Hf as (r & Hr & Hf).
    destruct (Z.eqb_spec r NULL) as [|Hnull]; [by injection Hf as <- <-|].
    destruct (flush_output_conserves d2 o2 j bsz d3 o3 (other ⊎ side g)) as (? & ? & ?); [done..| |by eauto|done|done|split_and!; [done|congruence|done]].
    unfold outs_in. by rewrite Hrs2.
Qed.
End worker.
End conserve.

(** ** The system *)

Section system.
Context `{DP : DpdkPool} {P G : Type}.
(** The callback of a worker may write in the buffers of the I/O cores. *)
Notation shared := (G * list app_lcore_params_io)%type.
Context (process_pkt : shared -> dev -> mbuf -> app_lcore_params_worker P ->
  option (Z * shared * dev * app_lcore_params_worker P)).
Context (a : app_params P) (n_workers : Z) (rs : list ring).

Record plane := Plane {
  pl_shared : G;
  pl_dev : dev;
  pl_ios : list app_lcore_params_io;
  pl_workers : list (app_lcore_params_worker P);
}.

(** One call of the functions of [runtime.c] that the main loops make, on one core. *)
Inductive plane_step : plane -> plane -> Prop :=
  | step_rx g d ios ws i io d' io' :
      ios !! i = Some io ->
      app_lcore_io_rx d io n_workers (burst_size_io_rx_read a) (burst_size_io_rx_write a) (pos_lb a) = Some (d', io') ->
      plane_step (Plane g d ios ws) (Plane g d' (<[i := io']> ios) ws)
  | step_rx_flush g d ios ws i io d' io' :
      ios !! i = Some io -> app_lcore_io_rx_flush d io n_workers = Some (d', io') ->
      plane_step (Plane g d ios ws) (Plane g d' (<[i := io']> ios) ws)
  | step_tx g d ios ws i io send d' io' :
      ios !! i = Some io ->
      app_lcore_io_tx send d io n_workers (burst_size_io_tx_read a) (burst_size_io_tx_write a) = Some (d', io') ->
      plane_step (Plane g d ios ws) (Plane g d' (<[i := io']> ios) ws)
  | step_tx_flush g d ios ws i io send d' io' :
      ios !! i = Some io -> app_lcore_io_tx_flush send d io = Some (d', io') ->
      plane_step (Plane g d ios ws) (Plane g d' (<[i := io']> ios) ws)
  | step_worker g d ios ws i w g' ios' d' w' :
      ws !! i = Some w ->
      app_lcore_worker process_pkt (g, ios) d w (burst_size_worker_read a) (burst_size_worker_write a) =
        Some ((g', ios'), d', w') ->
      plane_step (Plane g d ios ws) (Plane g' d' ios' (<[i := w']> ws))
  | step_worker_flush g d ios ws i w d' w' :
      ws !! i = Some w -> app_lcore_worker_flush d w = Some (d', w') ->
      plane_step (Plane g d ios ws) (Plane g d' ios (<[i := w']> ws)).

(** What of the sizes of the bursts matters: see [P4ArgsInv.checked_bursts_ok]. *)
Definition bursts_ok : Prop :=
  0 < burst_size_io_rx_write a <= APP_MBUF_ARRAY_SIZE /\ 0 < burst_size_io_tx_read a /\
  0 < burst_size_io_tx_write a <= APP_MBUF_ARRAY_SIZE /\ 0 < burst_size_worker_read a /\
  0 < burst_size_worker_write a <= APP_MBUF_ARRAY_SIZE.

Definition io_ok (io : app_lcore_params_io) : Prop :=
  io_rx_wf (burst_size_io_rx_write a) io /\ connected (rx_out (rx io)) n_workers /\ outs_in rs (rx_out (rx io)) /\
  tx_wf (tx io) /\ tx_in rs (tx io).

Definition worker_ok (w : app_lcore_params_worker P) : Prop :=
  outputs_wf (burst_size_worker_write a) (worker_out w) /\ outs_in rs (worker_out w) /\
  (forall i r, arr_get (rings_in w) i = Some r -> r <> NULL -> r ∈ rs) /\
  Z.of_nat (length (array (worker_mbuf_in w))) = APP_MBUF_ARRAY_SIZE.

Definition ios_ok (ios : list app_lcore_params_io) : Prop := forall i io, ios !! i = Some io -> io_ok io.

Definition plane_ok (s : plane) : Prop :=
  ios_ok (pl_ios s) /\ (forall i w, pl_workers s !! i = Some w -> worker_ok w).

(** The packets in the buffers of the cores. *)
Definition io_bag (io : app_lcore_params_io) : gmultiset Z := outs_bag (rx_out (rx io)) ⊎ tx_bag (tx io).
Definition buffered (s : plane) : gmultiset Z :=
  cores_bag io_bag (pl_ios s) ⊎ cores_bag (fun w => outs_bag (worker_out w)) (pl_workers s).

(** Every packet that was obtained is sent, freed, in a ring or in a buffer, once. *)
Definition one_place (s : plane) : Prop :=
  bag (obtained (view_of (pl_dev s))) =
  bag (sent (view_of (pl_dev s))).*2 ⊎ bag (freed (view_of (pl_dev s))) ⊎
  sum_bag (contents (view_of (pl_dev s))) rs ⊎ buffered s.

Lemma plane_io g d ios ws i io :
  ios !! i = Some io -> one_place (Plane g d ios ws) ->
  exists rest, conserved rs rest (view_of d) (io_bag io) /\
    forall d' io', conserved rs rest (view_of d') (io_bag io') -> one_place (Plane g d' (<[i := io']> ios) ws).
Proof.
  intros Hi Hp. destruct (cores_bag_split io_bag ios i io Hi) as (rest & H1 & H2).
  exists (rest ⊎ cores_bag (fun w => outs_bag (worker_out w)) ws). unfold one_place, conserved, placed, buffered in *. simpl in *.
  split; [rewrite Hp, H1; multiset_solver|]. intros d' io' ->. rewrite H2. multiset_solver.
Qed.

Lemma plane_worker g d ios ws i w :
  ws !! i = Some w -> one_place (Plane g d ios ws) ->
  exists rest, conserved rs rest (view_of d) (outs_bag (worker_out w) ⊎ cores_bag io_bag ios) /\
    forall g' d' ios' w', conserved rs rest (view_of d') (outs_bag (worker_out w') ⊎ cores_bag io_bag ios') ->
      one_place (Plane g' d' ios' (<[i := w']> ws)).
Proof.
  intros Hi Hp. destruct (cores_bag_split (fun w => outs_bag (worker_out w)) ws i w Hi) as (rest & H1 & H2).
  exists rest. unfold one_place, conserved, placed, buffered in *. simpl in *.
  split; [rewrite Hp, H1; multiset_solver|]. intros g' d' ios' w' ->. rewrite H2. multiset_solver.
Qed.

Lemma plane_ok_io g d ios ws i g' d' io' :
  plane_ok (Plane g d ios ws) -> io_ok io' -> plane_ok (Plane g' d' (<[i := io']> ios) ws).
Proof.
  intros [Hio Hw] H'. split; simpl; [|done]. intros j x [(_ & <- & _)|[_ Hj]]%list_lookup_insert_Some; [done|by apply (Hio j)].
Qed.

Lemma plane_ok_worker g d ios ws i g' d' ios' w' :
  plane_ok (Plane g d ios ws) -> ios_ok ios' -> worker_ok w' -> plane_ok (Plane g' d' ios' (<[i := w']> ws)).
Proof.
  intros [_ Hw] Hio H'. split; simpl; [done|]. intros j x [(_ & <- & _)|[_ Hj]]%list_lookup_insert_Some; [done|by apply (Hw j)].
Qed.

(** A step on the reading side of an I/O core, and on its sending side. *)
Lemma rx_side g d ios ws i io d' io' :
  plane_ok (Plane g d ios ws) -> one_place (Plane g d ios ws) -> ios !! i = Some io ->
  (forall other, rx_inv rs n_workers (burst_size_io_rx_write a) other (tx io) (d, io) ->
     rx_inv rs n_workers (burst_size_io_rx_write a) other (tx io) (d', io')) ->
  plane_ok (Plane g d' (<[i := io']> ios) ws) /\ one_place (Plane g d' (<[i := io']> ios) ws).
Proof.
  intros Hok Hp Hi Hstep. destruct (proj1 Hok _ _ Hi) as (Hwf & Hcon & Hin & Htx & Htin).
  destruct (plane_io _ _ _ _ _ _ Hi Hp) as (rest & Hc & Hback). unfold io_bag in Hc. apply conserved_shift in Hc.
  destruct (Hstep _ (conj Hwf (conj Hcon (conj Hin (conj eq_refl Hc))))) as (Hwf' & Hcon' & Hin' & Htx' & Hc').
  split; [eapply plane_ok_io; [done|]; unfold io_ok; by rewrite Htx'|]. apply Hback. unfold io_bag.
  apply (proj2 (conserved_shift _ _ _ _ _)). by rewrite Htx'.
Qed.

Lemma tx_side g d ios ws i io d' io' :
  plane_ok (Plane g d ios ws) -> one_place (Plane g d ios ws) -> ios !! i = Some io ->
  (forall other, conserved rs other (view_of d) (tx_bag (tx io)) ->
     rx io' = rx io /\ tx_inv rs other (n_nic_ports (tx io)) (tx_rings (tx io))
                         (nic_ports (tx io)) (d', tx io')) ->
  plane_ok (Plane g d' (<[i := io']> ios) ws) /\ one_place (Plane g d' (<[i := io']> ios) ws).
Proof.
  intros Hok Hp Hi Hstep. destruct (proj1 Hok _ _ Hi) as (Hwf & Hcon & Hin & Htx & Htin).
  destruct (plane_io _ _ _ _ _ _ Hi Hp) as (rest & Hc & Hback). unfold io_bag in Hc. rewrite (comm_L (⊎)) in Hc.
  apply conserved_shift in Hc. destruct (Hstep _ Hc) as (Hrx & Hwf' & _ & Hts & _ & Hc').
  split; [eapply plane_ok_io; [done|]; unfold io_ok, io_rx_wf, tx_in in *; by rewrite Hrx, Hts|].
  apply Hback. unfold io_bag. rewrite (comm_L (⊎)), Hrx. by apply (proj2 (conserved_shift _ _ _ _ _)).
Qed.

Notation side := (fun x : shared => cores_bag io_bag x.2).
Notation side_ok := (fun x : shared => ios_ok x.2).

Lemma worker_side g d ios ws i w g' d' ios' w' :
  plane_ok (Plane g d ios ws) -> one_place (Plane g d ios ws) -> ws !! i = Some w ->
  (forall other, worker_inv rs side side_ok (burst_size_worker_write a) other (rings_in w) (n_rings_in w) (g, ios, d, w) ->
     worker_inv rs side side_ok (burst_size_worker_write a) other (rings_in w) (n_rings_in w) (g', ios', d', w')) ->
  plane_ok (Plane g' d' ios' (<[i := w']> ws)) /\ one_place (Plane g' d' ios' (<[i := w']> ws)).
Proof.
  intros Hok Hp Hi Hstep. destruct (proj2 Hok _ _ Hi) as (Hwf & Hin & Hri & Hb).
  destruct (plane_worker _ _ _ _ _ _ Hi Hp) as (rest & Hc & Hback).
  destruct (Hstep rest) as (Hwf' & Hin' & Hri' & _ & Hb' & Hio' & Hc'); [by split_and!; [..|apply Hok|]|].
  split; [eapply plane_ok_worker; [done|done|]; unfold worker_ok; by rewrite Hri'|by apply Hback].
Qed.

Lemma plane_step_conserves s s' :
  NoDup rs -> tidy rs process_pkt side side_ok -> bursts_ok -> plane_step s s' -> plane_ok s -> one_place s ->
  plane_ok s' /\ one_place s'.
Proof.
  intros Hrs Hq (B1 & B2 & B3 & B4 & B5) Hstep Hok Hp.
  destruct Hstep as [g d ios ws i io d' io' Hi Hr|g d ios ws i io d' io' Hi Hr|g d ios ws i io send d' io' Hi Hr
                    |g d ios ws i io send d' io' Hi Hr|g d ios ws i w g' ios' d' w' Hi Hr|g d ios ws i w d' w' Hi Hr].
  - eapply rx_side; [done..|]. intros other H'. by eapply app_lcore_io_rx_conserves.
  - eapply rx_side; [done..|]. intros other H'. eapply rx_flush_conserves; [done|lia|done..].
  - eapply tx_side; [done..|]. intros other H'. destruct (proj1 Hok _ _ Hi) as (_ & _ & _ & Htx & Htin).
    eapply (app_lcore_io_tx_conserves rs Hrs); [exact B3|exact B2|done..].
  - eapply tx_side; [done..|]. intros other H'. destruct (proj1 Hok _ _ Hi) as (_ & _ & _ & Htx & _).
    eapply (tx_flush_conserves rs); [exact B3|done..].
  - eapply worker_side; [done..|]. intros other H'. destruct (proj2 Hok _ _ Hi) as (_ & _ & Hri & _).
    eapply (app_lcore_worker_conserves rs Hrs process_pkt side side_ok Hq (g, ios) d w); [exact B5|exact B4|done..].
  - eapply worker_side; [done..|]. intros other H'. eapply worker_flush_conserves; [done|lia|done..].
Qed.

Lemma plane_steps_conserve s s' :
  NoDup rs -> tidy rs process_pkt side side_ok -> bursts_ok -> plane_ok s -> one_place s -> rtc plane_step s s' ->
  plane_ok s' /\ one_place s'.
Proof.
  intros Hrs Hq Hb Hok Hp Hsteps. induction Hsteps as [s|s s1 s2 Hstep _ IH]; [done|].
  destruct (plane_step_conserves s s1) as [Hok1 Hp1]; [done..|]. by apply IH.
Qed.

(** However these calls are interleaved, every packet that was obtained is in exactly one place: sent, freed, in a ring or in the buffer of a
    core.  None is lost and none is there twice. *)
Theorem packets_conserved s s' :
  NoDup rs -> tidy rs process_pkt side side_ok -> bursts_ok -> plane_ok s -> one_place s -> rtc plane_step s s' ->
  plane_ok s' /\ one_place s'.
Proof. apply plane_steps_conserve. Qed.
End system.

(** ** Witness: one I/O core reads three packets *)

Lemma bag_multiplicity m l : m <> NULL -> multiplicity m (bag l) = length (filter (fun x => x = m) l).
Proof.
  intros Hm. induction l as [|x l IH]; [apply multiplicity_empty|]. unfold bag in *. rewrite !filter_cons.
  destruct (decide (x = m)) as [->|Hne].
  - rewrite decide_True by done. cbn [list_to_set_disj]. rewrite multiplicity_disj_union, IH, multiplicity_singleton_eq. done.
  - destruct (decide (x <> NULL)); [|done]. cbn [list_to_set_disj]. by rewrite multiplicity_disj_union, IH, multiplicity_singleton_ne by congruence.
Qed.

Lemma sim_pool : @DpdkPool (sim false) (sim_laws false).
Proof.
  constructor.
  - intros d port queue n l d' [= <- <-]. destruct (sim_burst_ok d n) as (Hnd & Hf & _). split; [done|].
    intros m Hm. rewrite Forall_forall in Hf. destruct (Hf m Hm) as (Hnull & _ & Heq). split; [done|].
    rewrite multiplicity_disj_union, !bag_multiplicity by done. exact Heq.
  - intros d port l k d' [= <- _]. by right.
  - intros d pl m d' [= <- <-]. by rewrite (proj2 (Z.eqb_neq _ NULL)) by (unfold NULL; lia).
  - intros d pl n r d' [= <- <-]. split; [rewrite length_seqZ; lia|done].
Qed.

(** The callback drops every packet. *)
Definition drop_all (g : unit * list app_lcore_params_io) (d : sim_dev) (m : mbuf) (w : app_lcore_params_worker unit) :
    option (Z * (unit * list app_lcore_params_io) * sim_dev * app_lcore_params_worker unit) := Some (-1, g, d, w).

Definition sim_bursts : app_params unit :=
  let a := @zero_app (sim false) unit in
  AppParams (lcore_params a) (nic_rx_queue_mask a) (nic_tx_port_mask a) (pools a) (lpm_tables a) (lpm_rules a)
    (n_lpm_rules a) 0 0 0 0 32 2 2 2 2 2 29 (p4xos_conf a) 0 false (map_worker_lcore a) (map_lcore_worker a).

Definition sim_plane : @plane (sim false) unit unit := Plane tt (sim_pkts : @dev (sim false)) [sim_rx_core] [].

Lemma sim_plane_ok : @plane_ok (sim false) unit unit sim_bursts 2 [1; 2] sim_plane.
Proof.
  split; [|done]. intros [|i] io Hi; [|done]. injection Hi as <-. split_and!; [apply sim_rx_core_wf|apply sim_rx_core_wf|..].
  - intros i r Hr _. apply arr_get_Some in Hr as [_ Hr]. by apply list_elem_of_lookup_2 in Hr.
  - intros port b [_ Hb]%arr_get_Some. change (tx_mbuf_out (tx sim_rx_core)) with (replicate 16 zero_mbuf_array) in Hb.
    apply lookup_replicate in Hb as [-> _]. by split.
  - intros port row i r [_ Hrow]%arr_get_Some [_ Hr]%arr_get_Some Hnull.
    change (tx_rings (tx sim_rx_core)) with (replicate 2 (replicate 4 0)) in Hrow.
    apply lookup_replicate in Hrow as [-> _]. by apply lookup_replicate in Hr as [-> _].
Qed.

Lemma sim_plane_place : @one_place (sim false) (sim_laws false) unit unit [1; 2] sim_plane.
Proof. vm_compute. reflexivity. Qed.

Lemma sim_plane_step :
  exists s', @plane_step (sim false) unit unit drop_all sim_bursts 2 sim_plane s' /\
    obtained (sim_view (pl_dev s')) = [10; 11; 12].
Proof.
  destruct (@app_lcore_io_rx (sim false) sim_pkts sim_rx_core 2 32 2 29) as [[d' io']|] eqn:E; [|by vm_compute in E].
  exists (@Plane (sim false) unit unit tt d' [io'] []). split.
  - apply (@step_rx (sim false) unit unit drop_all sim_bursts 2 tt sim_pkts [sim_rx_core] [] 0 sim_rx_core d' io' eq_refl E).
  - vm_compute in E. injection E as <- _. reflexivity.
Qed.

Lemma packets_conserved_witness :
  exists s', @one_place (sim false) (sim_laws false) unit unit [1; 2] s' /\ obtained (sim_view (pl_dev s')) = [10; 11; 12].
Proof.
  destruct sim_plane_step as (s' & Hstep & Hrec). exists s'. split; [|exact Hrec].
  apply (@packets_conserved (sim false) (sim_laws false) sim_pool unit unit drop_all sim_bursts 2 [1; 2] sim_plane s').
  - by apply (bool_decide_unpack _); vm_compute.
  - intros g d m w ret g' d' w' [= _ <- <- <-]. done.
  - unfold bursts_ok, APP_MBUF_ARRAY_SIZE. simpl. lia.
  - exact sim_plane_ok.
  - exact sim_plane_place.
  - apply rtc_once. exact Hstep.
Defined.
