(* ===== verification/P4Worker.v ===== *)
(** * The Paxos roles on the data plane
    ([p4xos_acceptor.c], [p4xos_leader.c], [p4xos_learner.c], [p4xos_proposer.c], [dpdk_paxos.c])

    A worker holds a learner, an acceptor and a proposer, each a pointer that is
    [NULL] until the program initialises the role.  [replica_handler] reads the
    Paxos header of a packet, runs the handler of its type and turns the packet
    into the answer; the timers put new packets in the output buffers.

    The globals a handler writes are the configuration (the address of the
    client) and the state of the application the values are delivered to.  The
    build without [RESUBMIT], the default, is modelled.

    [None] is the use of a NULL pointer, an access outside a buffer, a failed
    assertion, a division by zero or the end of the process by [rte_panic]. *)

From S2P Require Import Prelude Bytes PaxosTypes KhashInterface EvConfig Storage Acceptor Proposer Learner P4Packet P4Dpdk P4Sim P4App P4Runtime.

(** ** Message types ([dpp_paxos.h]) *)

Definition PREPARE : Z := paxos_message_type (PAXOS_PREPARE zero_body).
Definition PROMISE : Z := paxos_message_type (PAXOS_PROMISE zero_body).
Definition ACCEPT : Z := paxos_message_type (PAXOS_ACCEPT zero_body).
Definition ACCEPTED : Z := paxos_message_type (PAXOS_ACCEPTED zero_body).
Definition PAXOS_CHOSEN : Z := 4.
Definition PAXOS_RESET : Z := 7.
Definition NEW_COMMAND : Z := 8.
Definition LEARNER_PREPARE : Z := 32.
Definition LEARNER_CHECKPOINT : Z := 34.
Definition SET_INSTANCE : Z := 48.

Definition PREAMBLE_CRC_IPG : Z := 24.
Definition MAX_PREPARE_SIZE : Z := 8.
Definition CHUNK_SIZE : Z := 4096.
Definition LEADER_CHECK_TIMEOUT : Z := 2.
Definition CHECK_HOLE_PERIOD : Z := 2.
Definition CHECKPOINT_TIMEOUT : Z := 2.
Definition STAT_PERIOD : Z := 1.

(** ** The Paxos state of a worker *)

(** [process_pkt]: the two handlers a program can install. *)
Inductive worker_cb := replica_cb | proposer_cb.

Record worker_stats := WorkerStats {
  nb_delivery : Z;
  nb_latency : Z;
  latency : Z;
  total_pkts : Z;
  total_bytes : Z;
  accepted_count : Z;
  start_ts : Z;
  buffer_count : Z;
}.

(** [CB] is the type of the delivery callbacks. *)
Record worker_state (T : Type -> Type) (H CB : Type) := WorkerState {
  stats : worker_stats;
  wk_learner : option (learner T);
  wk_acceptor : option (acceptor H);
  wk_proposer : option (proposer T);
  deliver : option CB;
  process_pkt : option worker_cb;
  cur_inst : Z;
  has_holes : Z;
  artificial_drop : Z;
  default_value : option (list byte);
  default_value_len : Z;
  request_id : Z;
}.
Arguments WorkerState {T H CB}.
Arguments stats {T H CB}. Arguments wk_learner {T H CB}. Arguments wk_acceptor {T H CB}. Arguments wk_proposer {T H CB}.
Arguments deliver {T H CB}. Arguments process_pkt {T H CB}. Arguments cur_inst {T H CB}. Arguments has_holes {T H CB}.
Arguments artificial_drop {T H CB}. Arguments default_value {T H CB}. Arguments default_value_len {T H CB}.
Arguments request_id {T H CB}.

Definition zero_stats : worker_stats := WorkerStats 0 0 0 0 0 0 0 0.

Definition zero_worker_state {T H CB} : worker_state T H CB :=
  WorkerState zero_stats None None None None None 0 0 0 None 0 0.

(** The timers of a worker. *)
Inductive timer :=
  | stat_timer | check_hole_timer | checkpoint_timer | preexecute_timer | prepare_timer | accept_timer.

(** What the environment decides: DPDK's timers (core, timer, ticks), the clock,
    what is read from a freed instance of the learner, the line of the latency
    file [sprintf] makes, and the application: the callback gets the worker, the
    instance and the value, which it may overwrite. *)
Class P4Env {D : Dpdk} (CB X : Type) := {
  rte_timer_init : dev -> Z -> timer -> dev;
  rte_timer_reset : dev -> Z -> timer -> Z -> Z * dev;
  rte_timer_subsystem_init : dev -> dev;
  rte_get_timer_hz : Z;
  gettimeofday : dev -> timeval;
  freed_iid : dev -> Z;
  latency_line : Z -> Z -> Z -> Z;
  call : CB -> X -> dev -> Z -> Z -> option (list byte) -> Z -> option (X * dev * option (list byte));
}.

(** The globals a handler writes. *)
Record globals (X : Type) := Globals { conf : p4xos_configuration; application : X }.
Arguments Globals {X}. Arguments conf {X}. Arguments application {X}.

Definition set_client (c : p4xos_configuration) (addr : Z) : p4xos_configuration :=
  P4xosConfiguration (num_acceptors c) (multi_dbs c) (msgtype c) (tx_port c) (node_id c)
    (SockaddrIn (sin_port (client c)) addr) (mine c) (paxos_leader c) (acceptor_addr c) (learner_addr c) (osd c)
    (max_inst c) (inc_inst c) (reset_inst c) (baseline c) (drop_ c) (leader c) (measure_latency c) (run_prepare c)
    (respond_to_client c) (checkpoint_interval c) (ts_interval c) (rate c) (preexec_window c) (app_config c).

(** ** Writing a field of the header *)

Definition set_msgtype (h : paxos_hdr) (x : Z) : paxos_hdr :=
  PaxosHdr (u8 x) (px_worker_id h) (px_rnd h) (px_inst h) (px_log_index h) (px_vrnd h) (px_acptid h) (px_reserved h)
    (px_value h) (px_request_id h) (px_igress_ts h).
Definition set_rnd (h : paxos_hdr) (x : Z) : paxos_hdr :=
  PaxosHdr (px_msgtype h) (px_worker_id h) (u16 x) (px_inst h) (px_log_index h) (px_vrnd h) (px_acptid h)
    (px_reserved h) (px_value h) (px_request_id h) (px_igress_ts h).
Definition set_inst (h : paxos_hdr) (x : Z) : paxos_hdr :=
  PaxosHdr (px_msgtype h) (px_worker_id h) (px_rnd h) (u32 x) (px_log_index h) (px_vrnd h) (px_acptid h)
    (px_reserved h) (px_value h) (px_request_id h) (px_igress_ts h).
Definition set_vrnd (h : paxos_hdr) (x : Z) : paxos_hdr :=
  PaxosHdr (px_msgtype h) (px_worker_id h) (px_rnd h) (px_inst h) (px_log_index h) (u16 x) (px_acptid h)
    (px_reserved h) (px_value h) (px_request_id h) (px_igress_ts h).
Definition set_acptid (h : paxos_hdr) (x : Z) : paxos_hdr :=
  PaxosHdr (px_msgtype h) (px_worker_id h) (px_rnd h) (px_inst h) (px_log_index h) (px_vrnd h) (u16 x)
    (px_reserved h) (px_value h) (px_request_id h) (px_igress_ts h).
Definition set_pxvalue (h : paxos_hdr) (v : list byte) : paxos_hdr :=
  PaxosHdr (px_msgtype h) (px_worker_id h) (px_rnd h) (px_inst h) (px_log_index h) (px_vrnd h) (px_acptid h)
    (px_reserved h) v (px_request_id h) (px_igress_ts h).
Definition set_igress_ts (h : paxos_hdr) (x : Z) : paxos_hdr :=
  PaxosHdr (px_msgtype h) (px_worker_id h) (px_rnd h) (px_inst h) (px_log_index h) (px_vrnd h) (px_acptid h)
    (px_reserved h) (px_value h) (px_request_id h) (x mod 2 ^ 64).

(** [if (len) rte_memcpy(&paxos_hdr->value, val, size)]; a NULL [val] is
    not read. *)
Definition copy_if (h : paxos_hdr) (len : Z) (val : option (list byte)) (size : Z) : option paxos_hdr :=
  if len =? 0 then Some h else
  v ← val;
  bs ← copy_value (px_value h) v size;
  Some (set_pxvalue h bs).

(** The message of a header, with the value of 8 bytes in place. *)
Definition body_of (h : paxos_hdr) : paxos_body :=
  {| iid := px_inst h; ballot := px_rnd h; value_ballot := px_vrnd h; aid := px_acptid h;
     value := {| paxos_value_len := PAXOS_VALUE_SIZE; paxos_value_val := Some (px_value h) |} |}.

Section state.
Context {T : Type -> Type} {H CB : Type}.
Implicit Types (st : worker_state T H CB).

Definition set_stats st (x : worker_stats) : worker_state T H CB :=
  WorkerState x (wk_learner st) (wk_acceptor st) (wk_proposer st) (deliver st) (process_pkt st) (cur_inst st)
    (has_holes st) (artificial_drop st) (default_value st) (default_value_len st) (request_id st).
Definition set_roles st (l : option (learner T)) (a : option (acceptor H)) (p : option (proposer T)) :
    worker_state T H CB :=
  WorkerState (stats st) l a p (deliver st) (process_pkt st) (cur_inst st) (has_holes st) (artificial_drop st)
    (default_value st) (default_value_len st) (request_id st).
Definition set_learner st (l : learner T) := set_roles st (Some l) (wk_acceptor st) (wk_proposer st).
Definition set_acceptor st (a : acceptor H) := set_roles st (wk_learner st) (Some a) (wk_proposer st).
Definition set_proposer st (p : proposer T) := set_roles st (wk_learner st) (wk_acceptor st) (Some p).
Definition set_callbacks st (dl : option CB) (cb : option worker_cb) : worker_state T H CB :=
  WorkerState (stats st) (wk_learner st) (wk_acceptor st) (wk_proposer st) dl cb (cur_inst st) (has_holes st)
    (artificial_drop st) (default_value st) (default_value_len st) (request_id st).
Definition set_counters st (inst holes drop_rate req : Z) : worker_state T H CB :=
  WorkerState (stats st) (wk_learner st) (wk_acceptor st) (wk_proposer st) (deliver st) (process_pkt st) inst holes
    drop_rate (default_value st) (default_value_len st) req.
Definition set_default st (v : option (list byte)) (len : Z) : worker_state T H CB :=
  WorkerState (stats st) (wk_learner st) (wk_acceptor st) (wk_proposer st) (deliver st) (process_pkt st) (cur_inst st)
    (has_holes st) (artificial_drop st) v len (request_id st).
End state.

(** ** Handlers

    A handler returns its code, the header and the state. *)

Section handlers.
Context {D : Dpdk} {E : Eth} `{KH : KHash T} `{SA : StorageApi H} {CB X : Type} {EN : P4Env CB X}.
Implicit Types (d : dev) (h : paxos_hdr) (c : p4xos_configuration) (st : worker_state T H CB).

(** *** Acceptor ([p4xos_acceptor.c])

    [out] is written whenever the acceptor returns a value that is not 0. *)

Definition prepare_handler c h st : option (Z * paxos_hdr * worker_state T H CB) :=
  a ← wk_acceptor st;
  let prepare := {| iid := px_inst h; ballot := px_rnd h; value_ballot := 0; aid := 0; value := null_value |} in
  '(a, ret, out) ← acceptor_receive_prepare a prepare (PAXOS_PREPARE zero_body);
  let st := set_acceptor st a in
  if negb (ret =? 0) then
    match out with
    | PAXOS_PROMISE promise =>
        let h := set_acptid (set_vrnd (set_msgtype h (paxos_message_type out)) (value_ballot promise)) (node_id c) in
        h ← copy_if h (paxos_value_len (value promise)) (paxos_value_val (value promise)) (paxos_value_len (value promise));
        Some (SUCCESS, h, st)
    | _ => None
    end
  else
    l ← wk_learner st;
    Some (SUCCESS, set_inst (set_msgtype h SET_INSTANCE) (learner_get_highest_instance l), st).

Definition accept_handler c h st : option (Z * paxos_hdr * worker_state T H CB) :=
  a ← wk_acceptor st;
  let accept := {| iid := px_inst h; ballot := px_rnd h; value_ballot := 0; aid := 0; value := value (body_of h) |} in
  '(a, ret, out) ← acceptor_receive_accept a accept (PAXOS_PREPARE zero_body);
  let st := set_acceptor st a in
  if negb (ret =? 0) then
    let s := stats st in
    let s := WorkerStats (nb_delivery s) (nb_latency s) (latency s) (total_pkts s) (total_bytes s)
               ((accepted_count s + 1) mod 2 ^ 64) (start_ts s) (buffer_count s) in
    Some (SUCCESS, set_acptid (set_msgtype h (paxos_message_type out)) (node_id c), set_stats st s)
  else Some (DROP_ORIGINAL_PACKET, h, st).

(** *** Leader ([p4xos_leader.c]) *)

Definition try_accept h st : option (Z * paxos_hdr * worker_state T H CB) :=
  p ← wk_proposer st;
  '(ret, p, out) ← proposer_accept p;
  let st := set_proposer st p in
  if negb (ret =? 0) then
    accept ← out;
    let h := set_rnd (set_inst (set_msgtype h ACCEPT) (iid accept)) (ballot accept) in
    h ← copy_if h (paxos_value_len (value accept)) (paxos_value_val (value accept)) PAXOS_VALUE_SIZE;
    Some (SUCCESS, h, st)
  else Some (NO_ACCEPT_INSTANCE, h, st).

(** The header of a prepare request. *)
Definition put_prepare h (pr : paxos_prepare) : paxos_hdr := set_rnd (set_inst (set_msgtype h PREPARE) (iid pr)) (ballot pr).

Definition promise_handler c d h st : option (Z * paxos_hdr * worker_state T H CB) :=
  if leader c =? 0 then Some (DROP_ORIGINAL_PACKET, h, st) else
  p ← wk_proposer st;
  '(preempted, p, out) ← proposer_receive_promise p (body_of h) (gettimeofday d);
  let st := set_proposer st p in
  if negb (preempted =? 0) then
    pr ← out;
    Some (SUCCESS, put_prepare h pr, st)
  else try_accept h st.

Definition accepted_handler c h st : option (Z * paxos_hdr * worker_state T H CB) :=
  if leader c =? 0 then Some (TO_DROP, h, st) else
  p ← wk_proposer st;
  '(ret, p) ← proposer_receive_accepted p (body_of h);
  let st := set_proposer st p in
  Some (if ret =? 2 then (SUCCESS, set_msgtype h PAXOS_CHOSEN, st) else (TO_DROP, h, st)).

Definition proposer_prepare_allocated d h st : option (Z * paxos_hdr * worker_state T H CB) :=
  p ← wk_proposer st;
  '(p, pr) ← proposer_prepare p (gettimeofday d);
  Some (SUCCESS, put_prepare h pr, set_proposer st p).

Definition proposer_prepare_inst_allocated d h st : option (Z * paxos_hdr * worker_state T H CB) :=
  p ← wk_proposer st;
  '(p, pr) ← proposer_prepare_instance p (px_inst h) (gettimeofday d);
  Some (SUCCESS, put_prepare h pr, set_proposer st p).

Definition new_command_handler d h st : option (Z * paxos_hdr * worker_state T H CB) :=
  if negb (has_holes st =? 0) then Some (DROP_ORIGINAL_PACKET, h, st) else
  p ← wk_proposer st;
  p ← proposer_propose p (px_value h) PAXOS_VALUE_SIZE;
  '(ret, h, st) ← try_accept h (set_proposer st p);
  if ret =? SUCCESS then Some (SUCCESS, h, st) else proposer_prepare_allocated d h st.

Definition learner_prepare_handler d h st : option (Z * paxos_hdr * worker_state T H CB) :=
  proposer_prepare_inst_allocated d h st.

Definition proposer_set_instance_handler d h st : option (Z * paxos_hdr * worker_state T H CB) :=
  p ← wk_proposer st;
  p ← proposer_set_instance_id p (px_inst h);
  proposer_prepare_allocated d h (set_proposer st p).

(** [lp->deliver(lp->worker_id, iid, val, len, lp->deliver_arg)] *)
Definition call_deliver (x : X) d st (worker_id iid : Z) (val : option (list byte)) (len : Z) :
    option (X * dev * option (list byte)) :=
  cb ← deliver st;
  call cb x d worker_id iid val len.

Definition learner_chosen_handler c (x : X) d (worker_id : Z) h st :
    option (Z * paxos_hdr * X * dev * worker_state T H CB) :=
  l ← wk_learner st;
  l ← learner_receive_chosen l (body_of h);
  '(ret, l, out) ← learner_deliver_next l (freed_iid d);
  let st := set_learner st l in
  if ret =? 0 then Some (DROP_ORIGINAL_PACKET, h, x, d, st) else
  dl ← out;
  '(x, d, val) ← call_deliver x d st worker_id (iid dl) (paxos_value_val (value dl)) (paxos_value_len (value dl));
  let h := set_rnd (set_inst (set_msgtype h PAXOS_CHOSEN) (iid dl)) (ballot dl) in
  h ← copy_if h (paxos_value_len (value dl)) val PAXOS_VALUE_SIZE;
  if negb (leader c =? 0) && negb (preexec_window c =? 0) then
    '(ret, h, st) ← proposer_prepare_allocated d h st;
    Some (ret, h, x, d, st)
  else Some (SUCCESS, h, x, d, st).

(** *** Learner ([p4xos_learner.c]) *)

Definition learner_checkpoint_handler h st : option (Z * worker_state T H CB) :=
  let inst := px_inst h in
  st ← match wk_proposer st with
       | Some p =>
           p ← proposer_receive_acceptor_state p {| state_aid := 0; state_trim_iid := inst |};
           Some (set_proposer st p)
       | None => Some st
       end;
  st ← match wk_acceptor st with
       | Some a => '(a, _) ← acceptor_receive_trim a {| trim_iid := inst |}; Some (set_acceptor st a)
       | None => Some st
       end;
  Some (DROP_ORIGINAL_PACKET, st).

(** *** The switch of [replica_handler]

    What happens to the packet after the handler: the function returns, or
    the packet gets the addresses [mine] and [dst], or it keeps its addresses. *)
Inductive action := Return | Reply (dst : Z) | Keep.

Definition reply_if (ret dst : Z) : action := if ret =? SUCCESS then Reply dst else Keep.

Record result := Result {
  res_ret : Z;
  res_action : action;
  res_hdr : paxos_hdr;
  res_conf : p4xos_configuration;
  res_x : X;
  res_dev : dev;
  res_state : worker_state T H CB;
}.

(** [src_addr] is the source address of the packet. *)
Definition replica_switch c (x : X) d (worker_id src_addr : Z) h st : option result :=
  let acceptors := sin_addr (acceptor_addr c) in
  let t := px_msgtype h in
  if t =? PAXOS_RESET then Some (Result TO_DROP Return h c x d st)
  else if t =? NEW_COMMAND then
    let c := set_client c src_addr in
    '(ret, h, st) ← new_command_handler d h st;
    Some (Result ret (reply_if ret acceptors) h c x d st)
  else if t =? PREPARE then
    '(ret, h, st) ← prepare_handler c h st;
    Some (Result ret (reply_if ret src_addr) h c x d st)
  else if t =? ACCEPT then
    '(ret, h, st) ← accept_handler c h st;
    Some (Result ret (reply_if ret src_addr) h c x d st)
  else if t =? PROMISE then
    '(ret, h, st) ← promise_handler c d h st;
    Some (Result ret (reply_if ret acceptors) h c x d st)
  else if t =? ACCEPTED then
    '(ret, h, st) ← accepted_handler c h st;
    Some (Result ret (if ret =? SUCCESS then Reply (sin_addr (learner_addr c)) else Return) h c x d st)
  else if t =? PAXOS_CHOSEN then
    '(ret, h, x, d, st) ← learner_chosen_handler c x d worker_id h st;
    if negb (Z.land (leader c) (preexec_window c) =? 0) then Some (Result ret (Reply acceptors) h c x d st)
    else if respond_to_client c =? 0 then Some (Result DROP_ORIGINAL_PACKET Return h c x d st)
    else Some (Result ret (Reply (sin_addr (client c))) h c x d st)
  else if t =? LEARNER_CHECKPOINT then
    '(ret, st) ← learner_checkpoint_handler h st;
    Some (Result ret Return h c x d st)
  else if t =? LEARNER_PREPARE then
    '(ret, h, st) ← learner_prepare_handler d h st;
    Some (Result ret (reply_if ret acceptors) h c x d st)
  else if t =? SET_INSTANCE then
    '(ret, h, st) ← proposer_set_instance_handler d h st;
    Some (Result ret (reply_if ret acceptors) h c x d st)
  else Some (Result NO_HANDLER Return h c x d st).

(** *** The whole packet *)

Definition set_worker_paxos (w : app_lcore_params_worker (worker_state T H CB)) st :
    app_lcore_params_worker (worker_state T H CB) :=
  AppLcoreParamsWorker (rings_in w) (n_rings_in w) (worker_out w) (lpm_table w) (worker_id w) (worker_lcore_id w)
    (worker_mbuf_in w) st.

Definition paxos_stats (pkt : rte_mbuf) st : worker_state T H CB :=
  let s := stats st in
  set_stats st (WorkerStats (nb_delivery s) (nb_latency s) (latency s) ((total_pkts s + 1) mod 2 ^ 64)
    ((total_bytes s + u32 (pkt_len pkt + PREAMBLE_CRC_IPG)) mod 2 ^ 64) (accepted_count s) (start_ts s)
    (buffer_count s)).

(** The header is changed in the packet; then the addresses and the checksums. *)
Definition finish c (pkt : rte_mbuf) (act : action) h : option rte_mbuf :=
  p ← put_paxos_hdr (data pkt) get_paxos_offset h;
  let pkt := set_data pkt p in
  match act with
  | Return => Some pkt
  | Keep => prepare_hw_checksum pkt sizeof_paxos_hdr
  | Reply dst =>
      p ← set_ip_addr p sizeof_ether_hdr (sin_addr (mine c)) dst;
      prepare_hw_checksum (set_data pkt p) sizeof_paxos_hdr
  end.

Definition replica_handler (g : globals X) d (m : mbuf) (w : app_lcore_params_worker (worker_state T H CB)) :
    option (Z * globals X * dev * app_lcore_params_worker (worker_state T H CB)) :=
  pkt ← mbuf_get d m;
  '(ret, pkt) ← pre_process (sin_addr (mine (conf g))) pkt;
  if negb (ret =? PAXOS_PACKET) then Some (ret, g, mbuf_set d m pkt, w) else
  let st := paxos_stats pkt (worker_paxos w) in
  src_addr ← get_addr (data pkt) (sizeof_ether_hdr + 12);
  h ← get_paxos_hdr (data pkt) get_paxos_offset;
  r ← replica_switch (conf g) (application g) d (worker_id w) src_addr h st;
  pkt ← finish (res_conf r) pkt (res_action r) (res_hdr r);
  Some (res_ret r, Globals (res_conf r) (res_x r), mbuf_set (res_dev r) m pkt, set_worker_paxos w (res_state r)).

(** *** The client ([p4xos_proposer.c]) *)

(** The latency of the request: the time read, and the statistics. *)
Definition measure c (hz : Z) d h st : Z * dev * worker_state T H CB :=
  let s := stats st in
  let previous := px_igress_ts h in
  if negb (start_ts s <? previous) then (0, d, st) else
  let '(now, d) := rte_get_timer_cycles d in
  let diff := (now - previous) mod 2 ^ 64 in
  let count := u32 (buffer_count s + latency_line (osd c) diff hz) in
  let count := if CHUNK_SIZE <=? count then 0 else count in
  (now, d, set_stats st (WorkerStats (nb_delivery s) ((nb_latency s + 1) mod 2 ^ 64) ((latency s + diff) mod 2 ^ 64)
     (total_pkts s) (total_bytes s) (accepted_count s) (start_ts s) count)).

Definition proposer_chosen_handler c (hz : Z) (x : X) d (worker_id : Z) h st :
    option (Z * paxos_hdr * X * dev * worker_state T H CB) :=
  let inst := px_inst h in
  if px_request_id h <=? 0 then Some (DROP_ORIGINAL_PACKET, h, x, d, st) else
  let '(now, d, st) := if negb (measure_latency c =? 0) then measure c hz d h st else (0, d, st) in
  '(x, d, val) ← call_deliver x d st worker_id inst (Some (px_value h)) PAXOS_VALUE_SIZE;
  v ← val;
  let s := stats st in
  let st := set_stats st (WorkerStats ((nb_delivery s + 1) mod 2 ^ 64) (nb_latency s) (latency s) (total_pkts s)
              (total_bytes s) (accepted_count s) (start_ts s) (buffer_count s)) in
  let h := set_msgtype (set_pxvalue h v) (msgtype c) in
  '(h, d) ← (if measure_latency c =? 0 then Some (h, d)
             else if ts_interval c =? 0 then None
             else if inst mod ts_interval c =? 0 then
               let '(now, d) := if now =? 0 then rte_get_timer_cycles d else (now, d) in
               Some (set_igress_ts h now, d)
             else Some (set_igress_ts h 0, d));
  Some (SUCCESS, h, x, d, st).

(** It does not call [pre_process]: every packet is read as a Paxos message. *)
Definition proposer_handler (hz : Z) (g : globals X) d (m : mbuf)
    (w : app_lcore_params_worker (worker_state T H CB)) :
    option (Z * globals X * dev * app_lcore_params_worker (worker_state T H CB)) :=
  pkt ← mbuf_get d m;
  let st := paxos_stats pkt (worker_paxos w) in
  h ← get_paxos_hdr (data pkt) get_paxos_offset;
  if negb (px_msgtype h =? PAXOS_CHOSEN) then Some (NO_HANDLER, g, d, set_worker_paxos w st) else
  '(ret, h, x, d, st) ← proposer_chosen_handler (conf g) hz (application g) d (worker_id w) h st;
  let act := if ret =? SUCCESS then Reply (sin_addr (paxos_leader (conf g))) else Return in
  pkt ← finish (conf g) pkt act h;
  Some (ret, Globals (conf g) x, mbuf_set d m pkt, set_worker_paxos w st).

(** The callback of the worker. *)
Definition run_worker_cb (hz : Z) (g : globals X) d (m : mbuf) (w : app_lcore_params_worker (worker_state T H CB)) :
    option (Z * globals X * dev * app_lcore_params_worker (worker_state T H CB)) :=
  cb ← process_pkt (worker_paxos w);
  match cb with
  | replica_cb => replica_handler g d m w
  | proposer_cb => proposer_handler hz g d m w
  end.
End handlers.
