(* ===== verification/P4Timers.v ===== *)
(** * New messages and timers
    ([dpdk_paxos.c], [p4xos_learner.c], [p4xos_leader.c], [p4xos_proposer.c], [init.c])

    The functions that put new packets in the output buffers of a worker: the
    requests of a client, the prepare requests of a leader, and the requests of a
    learner for the instances it misses; the timers that call them; and the
    initialisation of the roles.

    The pools and the numbers of the workers do not change after [app_init]; they
    are read from [a].  A function that finds its worker with
    [app_get_worker(worker_id)] takes that worker as its argument. *)

From S2P Require Import Prelude Bytes PaxosTypes KhashInterface EvConfig Storage Acceptor Proposer Learner P4Packet P4Dpdk P4Sim P4App P4Runtime P4Worker.

Section timers.
Context {D : Dpdk} {E : Eth} `{KH : KHash T} `{SA : StorageApi H} {CB X : Type} {EN : P4Env CB X}.
Notation state := (worker_state T H CB).
Notation worker := (app_lcore_params_worker state).
Implicit Types (a : app_params state) (c : p4xos_configuration) (d : dev) (w : worker).

(** The core of a worker and its pool; [rte_panic] when there is none. *)
Definition worker_pool a (id : Z) : option (Z * Z) :=
  lcore ← app_get_lcore_worker a id;
  lcore ← lcore;
  lp ← arr_get (lcore_params a) lcore;
  Some (lcore, pool lp).

(** [lp->mbuf_out[port].array[n_mbufs++] = pkt] *)
Definition push_out w (port : Z) (m : mbuf) : option worker :=
  let o := worker_out w in
  b ← arr_get (mbuf_out o) port;
  arr ← arr_set (array b) (n_mbufs b) m;
  bs ← arr_set (mbuf_out o) port (AppMbufArray arr (u32 (n_mbufs b + 1)));
  Some (set_worker_out w (Outputs (rings o) bs (mbuf_out_flush o) (rings_count o) (rings_drop o) (rings_iters o))).

(** [lp->mbuf_out_flush[port] = 1] *)
Definition set_flush w (port : Z) : option worker :=
  let o := worker_out w in
  fl ← arr_set (mbuf_out_flush o) port 1;
  Some (set_worker_out w (Outputs (rings o) (mbuf_out o) fl (rings_count o) (rings_drop o) (rings_iters o))).

(** [prepare_paxos_message] from this node to [dst], in the packet [m]. *)
Definition message c d (m : mbuf) (dst : sockaddr_in) (mtype inst rnd worker_id request_id igress_ts : Z)
    (value : option (list byte)) (size : Z) : option dev :=
  pkt ← mbuf_get d m;
  pkt ← prepare_paxos_message pkt (tx_port c) (mine c) dst mtype inst rnd worker_id (node_id c) request_id igress_ts
          value size;
  Some (mbuf_set d m pkt).

(** ** Requests of a client *)

(** A failed allocation puts NULL in the buffer. *)
Definition submit a c d w (value : option (list byte)) (size : Z) : option (dev * worker) :=
  let port := tx_port c in
  '(_, pl) ← worker_pool a (worker_id w);
  let '(pkt, d) := rte_pktmbuf_alloc d pl in
  let st := worker_paxos w in
  '(d, st) ← (if pkt =? NULL then Some (d, st) else
              d ← message c d pkt (paxos_leader c) (msgtype c) (cur_inst st) 0 (u8 (worker_id w)) (request_id st) 0
                    value size;
              Some (d, set_counters st (u32 (cur_inst st + 1)) (has_holes st) (artificial_drop st) (request_id st)));
  w ← push_out (set_worker_paxos w st) port pkt;
  Some (d, w).

(** The loop over [n] allocated packets: [f i] makes the message of [pkts[i]]. *)
Definition send_all (port n : Z) (pkts : list mbuf) (f : Z -> dev -> mbuf -> worker -> option (dev * worker))
    (s : dev * worker) : option (dev * worker) :=
  for_ (Z.to_nat n) 0 (fun i '(d, w) =>
    m ← arr_get pkts i;
    '(d, w) ← f i d m w;
    w ← push_out w port m;
    Some (d, w)) s.

Definition submit_bulk a c d w (id nb_pkts : Z) (value : option (list byte)) (size : Z) : option (dev * worker) :=
  '(_, pl) ← worker_pool a id;
  let '(pkts, d) := rte_pktmbuf_alloc_bulk d pl nb_pkts in
  match pkts with
  | None => Some (d, w)
  | Some pkts =>
      '(d, w) ← send_all (tx_port c) nb_pkts pkts (fun i d m w =>
                  let req := u32 (request_id (worker_paxos w) + i) in
                  let '(ts, d) := rte_get_timer_cycles d in
                  d ← message c d m (paxos_leader c) (msgtype c) 0 0 (u8 id) req ts value size;
                  Some (d, w)) (d, w);
      w ← set_flush w (tx_port c);
      Some (d, w)
  end.

(** [copy_buffer_to_pkt]: the application's message of type 5, in a packet
    of its own.  Only the low byte of the swapped size is stored, at [req + 2];
    [l4_len] is a field of 8 bits. *)
Definition copy_buffer_to_pkt (pkt : rte_mbuf) (port pid : Z) (buffer : list byte) (buffer_size : Z)
    (from to : sockaddr_in) : option rte_mbuf :=
  let ip := sizeof_ether_hdr in
  let udp := ip + sizeof_ipv4_hdr in
  let req := udp + sizeof_udp_hdr in
  let dgram_len := sizeof_udp_hdr + 6 + buffer_size in
  p ← write_fields (data pkt)
        [(12, be_split 2 ETHER_TYPE_IPv4); (6, macaddr port); (0, mac2_addr);
         (ip, be_split 1 69); (ip + 4, be_split 2 0); (ip + 6, be_split 2 IPV4_HDR_DF_FLAG); (ip + 8, be_split 1 64);
         (ip + 9, be_split 1 IPPROTO_UDP); (ip + 10, be_split 2 0); (ip + 12, le_split 4 (sin_addr from));
         (ip + 16, le_split 4 (sin_addr to)); (udp, be_split 2 (sin_port from)); (udp + 2, be_split 2 (sin_port to));
         (req, be_split 1 5); (req + 1, be_split 1 pid); (req + 2, take 1 (be_split 4 buffer_size))];
  bs ← read_at buffer 0 buffer_size;
  p ← write_at p (req + 6) bs;
  p ← set_udp_hdr p udp 12345 39012 (u16 dgram_len);
  p ← write_fields p [(ip + 2, be_split 2 (sizeof_ipv4_hdr + dgram_len)); (udp + 4, be_split 2 dgram_len);
                      (udp + 6, be_split 2 0)];
  let pkt := set_lengths pkt (udp + dgram_len) sizeof_ether_hdr sizeof_ipv4_hdr dgram_len PKT_TX_FLAGS in
  p ← set_cksum p ip udp;
  Some (set_data pkt p).

Definition net_sendto a c d w (buf : list byte) (len : Z) (to : sockaddr_in) : option (Z * dev * worker) :=
  let port := tx_port c in
  '(_, pl) ← worker_pool a (worker_id w);
  let '(m, d) := rte_pktmbuf_alloc d pl in
  if m =? NULL then Some (-1, d, w) else
  pkt ← mbuf_get d m;
  pkt ← copy_buffer_to_pkt pkt port (u8 (worker_id w)) buf (u32 len) (mine c) to;
  w ← push_out w port m;
  w ← set_flush w port;
  Some (0, mbuf_set d m pkt, w).

(** ** Requests of a learner *)

Definition reset_leader_instance a c d w : option (dev * worker) :=
  '(_, pl) ← worker_pool a (worker_id w);
  let '(pkt, d) := rte_pktmbuf_alloc d pl in
  d ← (if pkt =? NULL then Some d else message c d pkt (paxos_leader c) PAXOS_RESET 0 0 (u8 (worker_id w)) 0 0 None 0);
  w ← push_out w (tx_port c) pkt;
  Some (d, w).

Definition send_prepare a c d w (inst prepare_size : Z) (value : option (list byte)) (size : Z) : option (dev * worker) :=
  '(_, pl) ← worker_pool a (worker_id w);
  let '(pkts, d) := rte_pktmbuf_alloc_bulk d pl prepare_size in
  match pkts with
  | None => Some (d, w)
  | Some pkts =>
      send_all (tx_port c) prepare_size pkts (fun i d m w =>
        let iid := u32 (inst + i) in
        d ← message c d m (paxos_leader c) LEARNER_PREPARE iid 0 (u8 (worker_id w)) 0 iid value size;
        Some (d, w)) (d, w)
  end.

(** A failed allocation ends the process. *)
Definition fill_holes a c d w (inst prepare_size : Z) (value : option (list byte)) (size : Z) : option (dev * worker) :=
  '(_, pl) ← worker_pool a (worker_id w);
  let '(pkts, d) := rte_pktmbuf_alloc_bulk d pl prepare_size in
  pkts ← pkts;
  send_all (tx_port c) prepare_size pkts (fun i d m w =>
    let iid := u32 (inst + i) in
    d ← message c d m (acceptor_addr c) ACCEPT iid 0 (u8 (worker_id w)) 0 iid value size;
    Some (d, w)) (d, w).

Definition send_accept a c d w (accept : paxos_accept) : option (dev * worker) :=
  '(_, pl) ← worker_pool a (worker_id w);
  let '(pkt, d) := rte_pktmbuf_alloc d pl in
  if pkt =? NULL then None else
  let '(val, size) := match paxos_value_val (value accept) with
                      | Some v => (Some v, paxos_value_len (value accept))
                      | None => (default_value (worker_paxos w), i32 (default_value_len (worker_paxos w)))
                      end in
  d ← message c d pkt (acceptor_addr c) ACCEPT (iid accept) (ballot accept) (u8 (worker_id w)) 0 0 val size;
  w ← push_out w (tx_port c) pkt;
  Some (d, w).

(** The worker writes in the output buffer of [io], the I/O core of the port. *)
Definition send_checkpoint_message a c d (io : app_lcore_params_io) w (highest_delivered : Z) :
    option (dev * app_lcore_params_io) :=
  let port := tx_port c in
  lcore ← app_get_lcore_for_nic_tx a port;
  lcore ← lcore;
  let t := tx io in
  b ← arr_get (tx_mbuf_out t) port;
  lp ← arr_get (lcore_params a) lcore;
  let '(pkt, d) := rte_pktmbuf_alloc d (pool lp) in
  d ← (if pkt =? NULL then Some d else
       message c d pkt (paxos_leader c) LEARNER_CHECKPOINT highest_delivered 0 (u8 (worker_id w)) 0 highest_delivered None 0);
  arr ← arr_set (array b) (n_mbufs b) pkt;
  bs ← arr_set (tx_mbuf_out t) port (AppMbufArray arr (u32 (n_mbufs b + 1)));
  let '(_, d) := rte_timer_reset d (worker_lcore_id w) checkpoint_timer (hz a / CHECKPOINT_TIMEOUT) in
  Some (d, AppLcoreParamsIo (rx io)
             (IoTx (tx_rings t) (nic_ports t) (n_nic_ports t) bs (tx_mbuf_out_flush t) (nic_ports_count t)
                (nic_ports_iters t))).

Definition learner_check_holes a c d w : option (dev * worker) :=
  let st := worker_paxos w in
  l ← wk_learner st;
  match learner_has_holes l with
  | Some (from, to) =>
      let w := set_worker_paxos w (set_counters st (cur_inst st) 1 (artificial_drop st) (request_id st)) in
      let prepare_size := u32 (to - from) in
      let prepare_size := if MAX_PREPARE_SIZE <? prepare_size then MAX_PREPARE_SIZE else prepare_size in
      if negb (run_prepare c =? 0)
      then send_prepare a c d w from prepare_size (default_value st) (i32 (default_value_len st))
      else fill_holes a c d w from prepare_size (default_value st) (i32 (default_value_len st))
  | None => Some (d, set_worker_paxos w (set_counters st (cur_inst st) 0 (artificial_drop st) (request_id st)))
  end.

(** ** Timers of a leader *)

(** [int nb_pkts = preexec_window - count], in unsigned arithmetic. *)
Definition proposer_preexecute a c d w : option (dev * worker) :=
  p ← wk_proposer (worker_paxos w);
  let nb_pkts := i32 (u32 (preexec_window c - proposer_prepared_count p)) in
  if nb_pkts <=? 0 then Some (d, w) else
  '(lcore, pl) ← worker_pool a (worker_id w);
  let '(pkts, d) := rte_pktmbuf_alloc_bulk d pl nb_pkts in
  match pkts with
  | None => Some (d, w)
  | Some pkts =>
      '(d, w) ← send_all (tx_port c) nb_pkts pkts (fun i d m w =>
                  p ← wk_proposer (worker_paxos w);
                  '(p, pr) ← proposer_prepare p (gettimeofday d);
                  d ← message c d m (acceptor_addr c) PREPARE (iid pr) (ballot pr) (u8 (worker_id w)) 0 0 None 0;
                  Some (d, set_worker_paxos w (set_proposer (worker_paxos w) p))) (d, w);
      w ← set_flush w (tx_port c);
      let '(_, d) := rte_timer_reset d lcore prepare_timer (hz a / LEADER_CHECK_TIMEOUT) in
      Some (d, w)
  end.

Definition pre_execute_prepare a c d w : option (dev * worker) := proposer_preexecute a c d w.

Definition timer_send_checkpoint a c d (io : app_lcore_params_io) w : option (dev * app_lcore_params_io * worker) :=
  l ← wk_learner (worker_paxos w);
  let highest_delivered := u32 (learner_get_instance_id l - 1) in
  '(d, io) ← send_checkpoint_message a c d io w highest_delivered;
  if negb (leader c =? 0) then '(d, w) ← proposer_preexecute a c d w; Some (d, io, w)
  else Some (d, io, w).

(** Nothing is sent when the allocation fails. *)
Definition send_to_acceptor a c d w (mtype : Z) (b : paxos_body) : option (dev * worker) :=
  '(_, pl) ← worker_pool a (worker_id w);
  let '(pkt, d) := rte_pktmbuf_alloc d pl in
  if pkt =? NULL then Some (d, w) else
  d ← message c d pkt (acceptor_addr c) mtype (iid b) (ballot b) (u8 (worker_id w)) 0 0 (paxos_value_val (value b))
        (paxos_value_len (value b));
  w ← push_out w (tx_port c) pkt;
  Some (d, w).

(** The loops over the iterator; [to] is [paxos_config.proposer_timeout]. *)
Fixpoint prepare_timeouts_loop (fuel : nat) (to : Z) a c (iter : timeout_iterator) d w : option (dev * worker) :=
  match fuel with
  | O => None
  | S fuel =>
      p ← wk_proposer (worker_paxos w);
      let '(iter, p, out) := timeout_iterator_prepare to iter p in
      let w := set_worker_paxos w (set_proposer (worker_paxos w) p) in
      match out with
      | None => Some (d, w)
      | Some pr => '(d, w) ← send_to_acceptor a c d w PREPARE pr; prepare_timeouts_loop fuel to a c iter d w
      end
  end.

Fixpoint accept_timeouts_loop (fuel : nat) (to : Z) a c (iter : timeout_iterator) d w : option (dev * worker) :=
  match fuel with
  | O => None
  | S fuel =>
      p ← wk_proposer (worker_paxos w);
      '(iter, p, out) ← timeout_iterator_accept to iter p;
      let w := set_worker_paxos w (set_proposer (worker_paxos w) p) in
      match out with
      | None => Some (d, w)
      | Some ar => '(d, w) ← send_to_acceptor a c d w ACCEPT ar; accept_timeouts_loop fuel to a c iter d w
      end
  end.

(** The iterator returns an instance of each slot at most once. *)
Definition check_prepare_timeouts (to : Z) a c d w : option (dev * worker) :=
  p ← wk_proposer (worker_paxos w);
  let iter := proposer_timeout_iterator p (gettimeofday d) in
  '(d, w) ← prepare_timeouts_loop (S (Z.to_nat (kh_end (prepare_instances p)))) to a c iter d w;
  lcore ← app_get_lcore_worker a (worker_id w);
  let '(_, d) := rte_timer_reset d (default (-1) lcore) prepare_timer (hz a / LEADER_CHECK_TIMEOUT) in
  Some (d, w).

Definition check_accept_timeouts (to : Z) a c d w : option (dev * worker) :=
  p ← wk_proposer (worker_paxos w);
  let iter := proposer_timeout_iterator p (gettimeofday d) in
  '(d, w) ← accept_timeouts_loop (S (Z.to_nat (kh_end (accept_instances p)))) to a c iter d w;
  lcore ← app_get_lcore_worker a (worker_id w);
  let '(_, d) := rte_timer_reset d (default (-1) lcore) accept_timer (hz a / LEADER_CHECK_TIMEOUT) in
  Some (d, w).

(** ** Delivery from a timer

    Its registration is commented out in [app_init_learner]. *)
Fixpoint learner_call_deliver (fuel : nat) a (g : globals X) d w : option (globals X * dev * worker) :=
  match fuel with
  | O => None
  | S fuel =>
      let st := worker_paxos w in
      l ← wk_learner st;
      '(ret, l, out) ← learner_deliver_next l (freed_iid d);
      let st := set_learner st l in
      if ret =? 0 then Some (g, d, set_worker_paxos w st) else
      dl ← out;
      '(x, d, val) ← call_deliver (application g) d st (worker_id w) (iid dl) (paxos_value_val (value dl))
                       (paxos_value_len (value dl));
      '(d, w) ← submit a (conf g) d (set_worker_paxos w st) val (paxos_value_len (value dl));
      learner_call_deliver fuel a (Globals (conf g) x) d w
  end.

(** ** Initialisation of the roles ([init.c]) *)

(** [f] on every worker. *)
Definition for_workers {S : Type} (f : Z -> S -> worker -> option (S * worker)) (s : S) a :
    option (S * app_params state) :=
  for_ n_lcores 0 (fun lcore '(s, a) =>
    lp ← arr_get (lcore_params a) lcore;
    match lcore_is lp with
    | e_APP_LCORE_WORKER w =>
        '(s, w) ← f lcore s w;
        a ← set_lcore a lcore (e_APP_LCORE_WORKER w);
        Some (s, a)
    | _ => Some (s, a)
    end) (s, a).

Definition app_init_leader d a : option (dev * app_params state) :=
  let freq := rte_get_timer_hz in
  for_workers (fun lcore d w =>
    let st := worker_paxos w in
    let st := set_counters st 1 (has_holes st) (artificial_drop st) (request_id st) in
    p ← proposer_new lcore (num_acceptors (p4xos_conf a));
    let d := rte_timer_init d lcore preexecute_timer in
    let '(_, d) := rte_timer_reset d lcore preexecute_timer freq in
    let d := rte_timer_init d lcore prepare_timer in
    let '(_, d) := rte_timer_reset d lcore prepare_timer (hz a / LEADER_CHECK_TIMEOUT) in
    let d := rte_timer_init d lcore accept_timer in
    let '(_, d) := rte_timer_reset d lcore accept_timer (hz a / LEADER_CHECK_TIMEOUT) in
    Some (d, set_worker_paxos w (set_proposer st p))) d a.

(** [storage_init] makes the handle of a store. *)
Definition app_init_acceptor (storage_init : Z -> H) a : option (app_params state) :=
  '(_, a) ← for_workers (fun lcore (u : unit) w =>
              let st := worker_paxos w in
              acc ← acceptor_new (node_id (p4xos_conf a)) (storage_init (node_id (p4xos_conf a)));
              let s := stats st in
              let st := set_stats st (WorkerStats (nb_delivery s) (nb_latency s) (latency s) (total_pkts s)
                          (total_bytes s) 0 (start_ts s) (buffer_count s)) in
              Some (u, set_worker_paxos w (set_roles st (wk_learner st) acc (wk_proposer st)))) tt a;
  Some a.

Definition set_hz a (x : Z) : app_params state :=
  AppParams
    (lcore_params a) (nic_rx_queue_mask a) (nic_tx_port_mask a) (pools a) (lpm_tables a) (lpm_rules a)
    (n_lpm_rules a) (nic_rx_ring_size a) (nic_tx_ring_size a) (ring_rx_size a) (ring_tx_size a)
    (burst_size_io_rx_read a) (burst_size_io_rx_write a) (burst_size_io_tx_read a) (burst_size_io_tx_write a)
    (burst_size_worker_read a) (burst_size_worker_write a) (pos_lb a) (p4xos_conf a) x (force_quit a)
    (map_worker_lcore a) (map_lcore_worker a).

Definition set_lcore_id w (lcore : Z) : worker :=
  AppLcoreParamsWorker (rings_in w) (n_rings_in w) (worker_out w) (lpm_table w) (worker_id w) lcore
    (worker_mbuf_in w) (worker_paxos w).

(** [catch_up] is [paxos_config.learner_catch_up]. *)
Definition app_init_learner (catch_up : Z) d a : option (dev * app_params state) :=
  let d := rte_timer_subsystem_init d in
  let a := set_hz a rte_get_timer_hz in
  for_workers (fun lcore d w =>
    let st := worker_paxos w in
    let l := learner_set_instance_id (learner_new catch_up (num_acceptors (p4xos_conf a))) 0 in
    let st := set_counters (set_learner st l) (cur_inst st) (has_holes st) (drop_ (p4xos_conf a)) (request_id st) in
    let d := rte_timer_init d lcore check_hole_timer in
    let '(_, d) := rte_timer_reset d lcore check_hole_timer (hz a / CHECK_HOLE_PERIOD) in
    let d := rte_timer_init d lcore checkpoint_timer in
    Some (d, set_lcore_id (set_worker_paxos w st) lcore)) d a.

(** The latency file is opened. *)
Definition app_init_proposer d a : option (dev * app_params state) :=
  let d := rte_timer_subsystem_init d in
  let a := set_hz a rte_get_timer_hz in
  for_workers (fun lcore d w =>
    let st := worker_paxos w in
    let '(now, d) := rte_get_timer_cycles d in
    let s := stats st in
    let st := set_stats st (WorkerStats (nb_delivery s) (nb_latency s) (latency s) (total_pkts s) (total_bytes s)
                (accepted_count s) now 0) in
    let st := set_counters st (cur_inst st) (has_holes st) (artificial_drop st) 1 in
    Some (d, set_lcore_id (set_worker_paxos w st) lcore)) d a.

Definition app_set_deliver_callback (cb : CB) a : option (app_params state) :=
  '(_, a) ← for_workers (fun _ (u : unit) w =>
              let st := worker_paxos w in
              Some (u, set_worker_paxos w (set_callbacks st (Some cb) (process_pkt st)))) tt a;
  Some a.

Definition app_set_worker_callback (cb : worker_cb) a : option (app_params state) :=
  '(_, a) ← for_workers (fun _ (u : unit) w =>
              let st := worker_paxos w in
              Some (u, set_worker_paxos w (set_callbacks st (deliver st) (Some cb)))) tt a;
  Some a.

(** The timer is armed for the first worker. *)
Definition app_set_stat_callback d a : option (dev * app_params state) :=
  let d := rte_timer_subsystem_init d in
  let a := set_hz a rte_get_timer_hz in
  lcore ← find_ n_lcores 0 (fun lcore =>
            lp ← arr_get (lcore_params a) lcore;
            Some (if is_worker (lcore_is lp) then Some lcore else None));
  match lcore with
  | None => Some (d, a)
  | Some lcore =>
      let d := rte_timer_init d lcore stat_timer in
      let '(_, d) := rte_timer_reset d lcore stat_timer (hz a / STAT_PERIOD) in
      Some (d, a)
  end.

Definition app_set_default_value (arg : option (list byte)) (vlen : Z) a : option (app_params state) :=
  '(_, a) ← for_workers (fun _ (u : unit) w =>
              Some (u, set_worker_paxos w (set_default (worker_paxos w) arg vlen))) tt a;
  Some a.

(** ** The programs ([dppaxos/src])

    What the acceptor, the leader and the replica do after [app_init]. *)

Definition dpdk_acceptor (storage_init : Z -> H) d a : option (dev * app_params state) :=
  a ← app_init_acceptor storage_init a;
  a ← app_set_worker_callback replica_cb a;
  app_set_stat_callback d a.

Definition dpdk_leader d a : option (dev * app_params state) :=
  '(d, a) ← app_init_leader d a;
  a ← app_set_worker_callback replica_cb a;
  app_set_stat_callback d a.

Definition dpdk_learner (catch_up : Z) (cb : CB) d a : option (dev * app_params state) :=
  '(d, a) ← app_init_learner catch_up d a;
  a ← app_set_deliver_callback cb a;
  a ← app_set_worker_callback replica_cb a;
  app_set_stat_callback d a.

(** [baseline_cb] counts the values, [rocksdb_cb] applies them. *)
Definition dpdk_replica (catch_up : Z) (storage_init : Z -> H) (baseline_cb rocksdb_cb : CB) d a :
    option (dev * app_params state) :=
  '(d, a) ← app_init_learner catch_up d a;
  a ← app_init_acceptor storage_init a;
  '(d, a) ← (if negb (leader (p4xos_conf a) =? 0) then app_init_leader d a else Some (d, a));
  a ← app_set_deliver_callback (if negb (baseline (p4xos_conf a) =? 0) then baseline_cb else rocksdb_cb) a;
  a ← app_set_worker_callback replica_cb a;
  app_set_stat_callback d a.
End timers.
