(* ===== verification/P4Replica.v ===== *)
(** * The replica, packet by packet

    What [replica_handler] makes of a Paxos message: the answer of the acceptor
    as a packet for the node that asked, and the effect of two mistakes in these
    answers on the node that reads them. *)

From S2P Require Import Prelude Bytes PaxosTypes KhashInterface KhashResize Quorum EvConfig Storage Acceptor Proposer Learner P4Packet P4Dpdk P4Sim P4App P4Runtime P4Conserve P4Worker.

(** ** Paxos packets *)

(** A packet for the port of Paxos, from [src], with the header [h]. *)
Record paxos_packet (pkt : rte_mbuf) (src : Z) (h : paxos_hdr) : Prop := {
  pp_len : 78 <= Z.of_nat (length (data pkt));
  pp_type : get_be (data pkt) 12 2 = Some ETHER_TYPE_IPv4;
  pp_proto : get_be (data pkt) 23 1 = Some IPPROTO_UDP;
  pp_port : get_be (data pkt) 36 2 = Some P4XOS_PORT;
  pp_src : get_addr (data pkt) 26 = Some src;
  pp_hdr : get_paxos_hdr (data pkt) 42 = Some h;
}.

Lemma paxos_packet_ok pkt src h : paxos_packet pkt src h -> hdr_ok h.
Proof.
  intros [Hlen _ _ _ _ Hh]. destruct (get_paxos_hdr_total (data pkt) 42) as (h' & Hh' & Hok & _);
    [lia|unfold sizeof_paxos_hdr; lia|]. congruence.
Qed.

Section packets.
Context {E : Eth}.

Lemma pre_process_paxos mine pkt src h : paxos_packet pkt src h -> pre_process mine pkt = Some (PAXOS_PACKET, pkt).
Proof.
  intros [_ Ht Hproto Hport _ _]. unfold pre_process. rewrite Ht. cbn [mbind option_bind].
  change (ETHER_TYPE_IPv4 =? ETHER_TYPE_ARP) with false. change (ETHER_TYPE_IPv4 =? ETHER_TYPE_IPv4) with true.
  cbv iota. unfold handle_ip_packet. change (sizeof_ether_hdr + 9) with 23. rewrite Hproto. cbn [mbind option_bind].
  change (IPPROTO_UDP =? IPPROTO_UDP) with true. cbv iota. unfold handle_udp_packet.
  change (sizeof_ether_hdr + sizeof_ipv4_hdr + 2) with 36. by rewrite Hport.
Qed.

Lemma hw_checksum_runs pkt :
  78 <= Z.of_nat (length (data pkt)) ->
  exists pkt', prepare_hw_checksum pkt sizeof_paxos_hdr = Some pkt' /\ length (data pkt') = length (data pkt) /\
    forall off n, off + n <= 38 \/ 42 <= off -> read_at (data pkt') off n = read_at (data pkt) off n.
Proof.
  intros Hp. unfold prepare_hw_checksum. change (sizeof_ether_hdr + sizeof_ipv4_hdr) with 34. change (34 + 4) with 38.
  destruct (write_step (data pkt) 38 (be_split 2 (sizeof_udp_hdr + sizeof_paxos_hdr))) as (p1 & -> & L1 & _ & O1);
    [lia|rewrite length_be_split; lia|]. rewrite length_be_split in O1. cbn [mbind option_bind].
  change sizeof_ether_hdr with 14. destruct (set_cksum_runs p1) as (p2 & -> & L2 & O2); [lia|].
  cbn [mbind option_bind]. eexists. split; [done|]. cbn [data set_data]. split; [congruence|].
  intros off n Ho. rewrite O2, O1 by lia. done.
Qed.

Lemma same_packet pkt pkt' src h :
  paxos_packet pkt src h -> length (data pkt') = length (data pkt) ->
  (forall off n, off + n <= 38 \/ 42 <= off -> read_at (data pkt') off n = read_at (data pkt) off n) ->
  paxos_packet pkt' src h.
Proof.
  intros [? ? ? ? ? Hh] Hl Ho. constructor.
  - by rewrite Hl.
  - by rewrite (get_be_same (data pkt)) by (apply Ho; lia).
  - by rewrite (get_be_same (data pkt)) by (apply Ho; lia).
  - by rewrite (get_be_same (data pkt)) by (apply Ho; lia).
  - by rewrite (get_addr_same (data pkt)) by (apply Ho; lia).
  - rewrite (get_paxos_hdr_same (data pkt)); [done|]. intros. apply Ho. lia.
Qed.

(** The source address of a packet after the handler. *)
Definition source_after (c : p4xos_configuration) (src : Z) (act : action) : Z :=
  match act with Reply _ => u32 (sin_addr (mine c)) | _ => src end.

Lemma put_hdr_packet pkt src h h' :
  paxos_packet pkt src h -> hdr_ok h' ->
  exists p, put_paxos_hdr (data pkt) 42 h' = Some p /\ paxos_packet (set_data pkt p) src h' /\
    get_addr p 30 = get_addr (data pkt) 30.
Proof.
  intros [Hlen Ht Hproto Hport Hsrc Hh] Hok.
  destruct (put_get_paxos_hdr (data pkt) 42 h') as (p & -> & Hl & Hget & Ho); [lia|unfold sizeof_paxos_hdr; lia|done|].
  exists p. split; [done|]. split; [|by rewrite (get_addr_same (data pkt)) by (apply Ho; lia)].
  constructor; cbn [data set_data]; [by rewrite Hl|..|done].
  - by rewrite (get_be_same (data pkt)) by (apply Ho; lia).
  - by rewrite (get_be_same (data pkt)) by (apply Ho; lia).
  - by rewrite (get_be_same (data pkt)) by (apply Ho; lia).
  - by rewrite (get_addr_same (data pkt)) by (apply Ho; lia).
Qed.

Lemma set_ip_packet pkt src h s dst :
  paxos_packet pkt src h ->
  exists p, set_ip_addr (data pkt) sizeof_ether_hdr s dst = Some p /\ paxos_packet (set_data pkt p) (u32 s) h /\
    get_addr p 30 = Some (u32 dst).
Proof.
  intros [Hlen Ht Hproto Hport Hsrc Hh]. unfold set_ip_addr. change (sizeof_ether_hdr + 16) with 30.
  change (sizeof_ether_hdr + 12) with 26.
  destruct (write_fields_spec (data pkt) [(30, le_split 4 dst); (26, le_split 4 s)]) as (p & -> & Hl & Hin & Ho); [fields_tac|].
  exists p. split; [done|]. split; [|exact (get_addr_field _ _ _ (Hin 30 _ ltac:(field_in)))].
  constructor; cbn [data set_data]; [by rewrite Hl|..].
  - by rewrite (get_be_same (data pkt)) by (apply Ho; fields_tac).
  - by rewrite (get_be_same (data pkt)) by (apply Ho; fields_tac).
  - by rewrite (get_be_same (data pkt)) by (apply Ho; fields_tac).
  - exact (get_addr_field _ _ _ (Hin 26 _ ltac:(field_in))).
  - rewrite (get_paxos_hdr_same (data pkt)); [done|]. unfold sizeof_paxos_hdr. intros. apply Ho. fields_tac.
Qed.

(** The packet is a Paxos packet again: with the new header, and from this node
    to [dst] when it is an answer. *)
Lemma finish_packet c pkt src h act h' :
  paxos_packet pkt src h -> hdr_ok h' ->
  exists pkt', finish c pkt act h' = Some pkt' /\ paxos_packet pkt' (source_after c src act) h' /\
    forall dst, act = Reply dst -> get_addr (data pkt') 30 = Some (u32 dst).
Proof.
  intros Hpkt Hok. unfold finish. change get_paxos_offset with 42.
  destruct (put_hdr_packet pkt src h h' Hpkt Hok) as (p & -> & Hp & _). cbn [mbind option_bind].
  destruct act as [|dst|]; [by exists (set_data pkt p)|..].
  - destruct (set_ip_packet (set_data pkt p) src h' (sin_addr (mine c)) dst Hp) as (q & Hq & Hqp & Hdst).
    cbn [data set_data] in Hq. rewrite Hq. cbn [mbind option_bind].
    destruct (hw_checksum_runs (set_data (set_data pkt p) q)) as (pkt' & Hrun & Hl & Ho); [apply Hqp|].
    exists pkt'. split; [exact Hrun|]. split; [by apply (same_packet _ _ _ _ Hqp)|].
    intros ? [= <-]. rewrite (get_addr_same q); [done|]. apply Ho. lia.
  - destruct (hw_checksum_runs (set_data pkt p)) as (pkt' & -> & Hl & Ho); [apply Hp|].
    exists pkt'. split; [done|]. split; [by apply (same_packet _ _ _ _ Hp)|done].
Qed.
End packets.

(** ** The learner *)

Lemma two_votes (ack : paxos_accepted) :
  0 < iid ack -> (forall a, paxos_accepted_dup (set_aid ack a) = set_aid ack a) ->
  exists inst1 inst2, instance_update (instance_new 3) (set_aid ack 1) 3 = Some inst1 /\
    instance_update inst1 (set_aid ack 2) 3 = Some inst2 /\
    instance_has_quorum inst2 3 =
      Some (true, Learner.Instance (iid ack) (ballot ack) [None; Some (set_aid ack 1); Some (set_aid ack 2)]
                    (Some (set_aid ack 2))).
Proof.
  intros Hpos Hdup. exists (Learner.Instance (iid ack) (ballot ack) [None; Some (set_aid ack 1); None] None),
    (Learner.Instance (iid ack) (ballot ack) [None; Some (set_aid ack 1); Some (set_aid ack 2)] None).
  split_and!.
  - unfold instance_update, instance_add_accept. by rewrite (Hdup 1).
  - unfold instance_update, instance_add_accept, instance_has_quorum. rewrite (Hdup 2). simpl.
    destruct (Z.eqb_spec (iid ack) 0); [lia|]. simpl. by rewrite Z.eqb_refl.
  - unfold instance_has_quorum. simpl. by rewrite !Z.eqb_refl.
Qed.

(** With three acceptors, one message is enough for the learner to deliver the
    next instance. *)
Lemma chosen_delivers `{KH : KHash T} (l : learner T) (ack : paxos_accepted) freed v :
  kh_wf (instances l) -> kh_size (instances l) < KH_LIMIT -> lrn_acceptors l = 3 -> is_u32 (iid ack) ->
  0 < iid ack -> current_iid l = iid ack -> value ack = PaxosValue PAXOS_VALUE_SIZE (Some v) -> length v = 8%nat ->
  exists l1 l2, learner_receive_chosen l ack = Some l1 /\
    learner_deliver_next l1 freed = Some (1, l2, Some (set_aid ack 2)) /\ current_iid l2 = u32 (iid ack + 1).
Proof.
  intros Hwf Hroom Hn Hi Hpos Hcur Hv Hlen.
  assert (forall a, paxos_accepted_dup (set_aid ack a) = set_aid ack a) as Hdup.
  { intros a. unfold paxos_accepted_dup, paxos_value_copy. destruct ack as [i b vb aid' v0]. simpl in *. subst v0.
    unfold set_value, set_aid. simpl. by rewrite take_ge by (unfold PAXOS_VALUE_SIZE; lia). }
  destruct (kh_put_total (instances l) (iid ack) (instance_new 3) Hwf Hi Hroom) as [[[h k] rv] Hput].
  destruct (kh_map_put _ _ _ _ _ _ Hwf Hi Hput) as (Hwf' & _ & Hslot & Hrv & _).
  set (done_ := Learner.Instance (iid ack) (ballot ack) [None; Some (set_aid ack 1); Some (set_aid ack 2)]
                  (Some (set_aid ack 2))).
  unfold learner_receive_chosen. rewrite Hcur, Z.ltb_irrefl. unfold learner_create_instance. rewrite Hn, Hput.
  cbn [mbind option_bind]. destruct (Z.eqb_spec rv (-1)); [lia|]. cbn [negb assert_ mbind option_bind with_instances lrn_acceptors].
  destruct (two_votes ack Hpos Hdup) as (i1 & i2 & Hu1 & Hu2 & Hq). rewrite Hn, Hu1. cbn [mbind option_bind]. rewrite Hu2.
  cbn [mbind option_bind]. unfold learner_close. cbn [lrn_acceptors with_instances]. rewrite Hn, Hq. cbn [mbind option_bind].
  fold done_.
  destruct (kh_set_spec h k (iid ack) (instance_new 3) done_ Hwf' Hslot) as (Hwf2 & Hend & Hsl).
  match goal with |- exists l1 l2, Some ?x = Some l1 /\ _ => set (l1 := x); exists l1 end.
  eexists. split; [done|].
  assert (instances l1 = kh_set h k done_ /\ current_iid l1 = iid ack /\ lrn_acceptors l1 = 3) as (Hinst & Hc1 & Hn1).
  { unfold l1. by destruct (_ <? _). }
  assert (kh_slot (kh_set h k done_) k = Some (iid ack, done_)) as Hs by (by rewrite Hsl, decide_True).
  unfold learner_deliver_next, learner_get_current_instance, learner_get_instance. rewrite Hinst, Hc1, Hn1.
  rewrite (proj2 (kh_lookup_slot _ (iid ack) k done_ Hwf2 Hi) Hs). cbn [instance_has_quorum final_value done_ mbind option_bind].
  cbn [negb final_value]. split.
  { f_equal. f_equal. f_equal. unfold set_value, paxos_value_copy. destruct ack as [i b vb aid' v0]. simpl in *. subst v0.
    simpl. by rewrite take_ge by (unfold PAXOS_VALUE_SIZE; lia). }
  cbn [current_iid learner_delete_instance with_instances]. f_equal. f_equal.
  destruct (learner_get_gap _ _) as [[? g]|]; [|exact Hc1]. unfold learner_delete_gap. by destruct (negb _).
Qed.

(** ** One message *)

Section replica.
Context {D : Dpdk} {E : Eth} `{KH : KHash T} `{SA : StorageApi H} {CB X : Type} {EN : P4Env CB X}.
Implicit Types (c : p4xos_configuration) (d : dev) (h : paxos_hdr) (w : app_lcore_params_worker (worker_state T H CB)) (g : globals X).
Implicit Types (st : worker_state T H CB).

Lemma switch_prepare c (x : X) d i src h st :
  px_msgtype h = PREPARE -> replica_switch c x d i src h st =
    ('(ret, h, st) ← prepare_handler c h st; Some (Result ret (reply_if ret src) h c x d st)).
Proof. intros Hty. unfold replica_switch. by rewrite Hty. Qed.

Lemma switch_accept c (x : X) d i src h st :
  px_msgtype h = ACCEPT -> replica_switch c x d i src h st =
    ('(ret, h, st) ← accept_handler c h st; Some (Result ret (reply_if ret src) h c x d st)).
Proof. intros Hty. unfold replica_switch. by rewrite Hty. Qed.

Lemma switch_chosen c (x : X) d i src h st :
  px_msgtype h = PAXOS_CHOSEN -> replica_switch c x d i src h st =
    ('(ret, h, x, d, st) ← learner_chosen_handler c x d i h st;
     if negb (Z.land (leader c) (preexec_window c) =? 0) then Some (Result ret (Reply (sin_addr (acceptor_addr c))) h c x d st)
     else if respond_to_client c =? 0 then Some (Result DROP_ORIGINAL_PACKET Return h c x d st)
     else Some (Result ret (Reply (sin_addr (client c))) h c x d st)).
Proof. intros Hty. unfold replica_switch. by rewrite Hty. Qed.

(** The handler runs when its switch runs, and leaves a Paxos packet. *)
Lemma replica_runs g d m w pkt src h r :
  mbuf_get d m = Some pkt -> paxos_packet pkt src h ->
  replica_switch (conf g) (application g) d (worker_id w) src h (paxos_stats pkt (worker_paxos w)) = Some r ->
  hdr_ok (res_hdr r) ->
  exists pkt', finish (res_conf r) pkt (res_action r) (res_hdr r) = Some pkt' /\
    replica_handler g d m w = Some (res_ret r, Globals (res_conf r) (res_x r), mbuf_set (res_dev r) m pkt',
                                               set_worker_paxos w (res_state r)) /\
    paxos_packet pkt' (source_after (res_conf r) src (res_action r)) (res_hdr r) /\
    forall dst, res_action r = Reply dst -> get_addr (data pkt') 30 = Some (u32 dst).
Proof.
  intros Hget Hpkt Hsw Hok. unfold replica_handler. rewrite Hget. cbn [mbind option_bind].
  rewrite (pre_process_paxos _ _ _ _ Hpkt). cbn [mbind option_bind]. change (PAXOS_PACKET =? PAXOS_PACKET) with true.
  cbn [negb]. change (sizeof_ether_hdr + 12) with 26. change get_paxos_offset with 42.
  rewrite (pp_src _ _ _ Hpkt), (pp_hdr _ _ _ Hpkt). cbn [mbind option_bind]. rewrite Hsw. cbn [mbind option_bind].
  destruct (finish_packet (res_conf r) pkt src h (res_action r) (res_hdr r) Hpkt Hok) as (pkt' & Hf & Hp & Hd).
  exists pkt'. rewrite Hf. done.
Qed.

Lemma replica_crashes g d m w pkt src h :
  mbuf_get d m = Some pkt -> paxos_packet pkt src h ->
  replica_switch (conf g) (application g) d (worker_id w) src h (paxos_stats pkt (worker_paxos w)) = None ->
  replica_handler g d m w = None.
Proof.
  intros Hget Hpkt Hsw. unfold replica_handler. rewrite Hget. cbn [mbind option_bind].
  rewrite (pre_process_paxos _ _ _ _ Hpkt). cbn [mbind option_bind]. change (PAXOS_PACKET =? PAXOS_PACKET) with true.
  cbn [negb]. change (sizeof_ether_hdr + 12) with 26. change get_paxos_offset with 42.
  rewrite (pp_src _ _ _ Hpkt), (pp_hdr _ _ _ Hpkt). cbn [mbind option_bind]. by rewrite Hsw.
Qed.
End replica.

Lemma copy_value_full old v : length old = 8%nat -> length v = 8%nat -> copy_value old v PAXOS_VALUE_SIZE = Some v.
Proof.
  intros Ho Hv. unfold copy_value. assert (read_at v 0 PAXOS_VALUE_SIZE = Some v) as ->.
  { apply read_at_Some. unfold PAXOS_VALUE_SIZE. rewrite Hv. split_and!; [lia..|]. change (Z.to_nat 0) with 0%nat.
    change (Z.to_nat 8) with 8%nat. by rewrite drop_0, take_ge by lia. }
  cbn [mbind option_bind]. unfold write_at. rewrite Ho, Hv. change ((0 <=? 0) && (0 + Z.of_nat 8 <=? Z.of_nat 8)) with true.
  cbv iota. change (Z.to_nat 0) with 0%nat. by rewrite take_0, drop_ge, app_nil_r by lia.
Qed.

(** The headers the handlers make fit their fields. *)
Lemma hdr_ok_accepted h t id : hdr_ok h -> hdr_ok (set_acptid (set_msgtype h t) id).
Proof.
  unfold hdr_ok. cbn -[Z.pow]. pose proof (Z.mod_pos_bound t (2 ^ 8) eq_refl). pose proof (Z.mod_pos_bound id (2 ^ 16) eq_refl).
  unfold u8, u16. intuition lia.
Qed.

Lemma paxos_src_u32 pkt src h : paxos_packet pkt src h -> u32 src = src.
Proof.
  intros [_ _ _ _ Hs _]. unfold get_addr in Hs. apply fmap_Some in Hs as (bs & Hr%read_at_length & ->).
  pose proof (le_combine_range bs). apply Z.mod_small. rewrite Hr in *. lia.
Qed.

Lemma body_of_ok h : hdr_ok h -> body_ok (body_of h).
Proof.
  intros (_ & _ & Hr & Hi & _ & Hv & Ha & _ & Hl & _). unfold body_ok, value_ok, PAXOS_VALUE_SIZE. simpl.
  rewrite Hl. split_and!; try done; lia.
Qed.

Section acceptor.
Context {D : Dpdk} {E : Eth} `{KH : KHash T} {CB X : Type} {EN : P4Env CB X}.
Notation state := (worker_state T (mem_storage T) CB).
Implicit Types (d : dev) (h : paxos_hdr) (w : app_lcore_params_worker state) (g : globals X) (a : acceptor (mem_storage T)).

(** The accept request in a packet. *)
Definition accept_of h : paxos_accept :=
  {| iid := px_inst h; ballot := px_rnd h; value_ballot := 0; aid := 0; value := value (body_of h) |}.

Lemma accept_of_ok h : hdr_ok h -> body_ok (accept_of h).
Proof. intros Hok. destruct (body_of_ok h Hok) as (Hi & Hb & _ & _ & Hv). split; [exact Hi|]. split; [exact Hb|]. do 2 (split; [done|]). exact Hv. Qed.

Lemma accept_packet_runs g d m w pkt src h a r t :
  mbuf_get d m = Some pkt -> paxos_packet pkt src h -> px_msgtype h = ACCEPT ->
  wk_acceptor (worker_paxos w) = Some a -> acceptor_ok a r t -> mem_room a -> acc_trim_iid a < px_inst h ->
  exists pkt' a' st',
    replica_handler g d m w = Some (SUCCESS, g, mbuf_set d m pkt', set_worker_paxos w st') /\
    wk_acceptor st' = Some a' /\ acceptor_ok a' (accept_records (acc_id a) r (accept_of h)) t /\
    wk_learner st' = wk_learner (worker_paxos w) /\ wk_proposer st' = wk_proposer (worker_paxos w) /\
    paxos_packet pkt' (u32 (sin_addr (mine (conf g))))
      (set_acptid (set_msgtype h (paxos_message_type (accept_reply (acc_id a) r (accept_of h)))) (node_id (conf g))) /\
    get_addr (data pkt') 30 = Some src.
Proof.
  intros Hget Hpkt Hty Ha Hok Hroom Htrim. pose proof (paxos_packet_ok _ _ _ Hpkt) as Hh.
  pose proof (accept_of_ok h Hh) as Hreq.
  destruct (mem_accept_runs a r t (accept_of h) (PAXOS_PREPARE zero_body) Hok Hreq Hroom) as (a' & out & Hrun).
  rewrite (proj2 (Z.leb_gt (iid (accept_of h)) (acc_trim_iid a)) Htrim) in Hrun.
  destruct (receive_accept_spec _ _ _ _ _ _ _ _ Hok Hreq Hrun) as (_ & _ & [[? _]|(_ & _ & Hout & Hok')]); [done|].
  set (st := paxos_stats pkt (worker_paxos w)).
  assert (exists st', accept_handler (conf g) h st =
            Some (SUCCESS, set_acptid (set_msgtype h (paxos_message_type out)) (node_id (conf g)), st') /\
          wk_acceptor st' = Some a' /\ wk_learner st' = wk_learner st /\ wk_proposer st' = wk_proposer st)
    as (st' & Hhandler & Ha' & Hl' & Hp').
  { unfold accept_handler. change (wk_acceptor st) with (wk_acceptor (worker_paxos w)). rewrite Ha. cbn [mbind option_bind].
    fold (accept_of h). rewrite Hrun. cbn. eexists. split_and!; done. }
  edestruct (replica_runs g d m w pkt src h) as (pkt' & Hf & Hrep & Hp & Hd); [exact Hget|exact Hpkt|..].
  { rewrite (switch_accept _ _ _ _ _ _ _ Hty). fold st. rewrite Hhandler. reflexivity. }
  { simpl. by apply hdr_ok_accepted. }
  exists pkt', a', st'. rewrite <- Hout. split; [rewrite Hrep; by destruct g|]. do 4 (split; [done|]). split; [exact Hp|].
  rewrite (Hd src eq_refl). by rewrite (paxos_src_u32 _ _ _ Hpkt).
Qed.

(** C15. An accept request in a packet is answered by the acceptor of the worker: its
    records become those of the abstract acceptor, and the packet goes back to the
    node that sent it, with the type of the acceptor's answer, the
    identifier of the node and every other field as in the request. *)
Theorem accept_packet_answered g d m w pkt src h a r t :
  mbuf_get d m = Some pkt -> paxos_packet pkt src h -> px_msgtype h = ACCEPT ->
  wk_acceptor (worker_paxos w) = Some a -> acceptor_ok a r t -> mem_room a -> acc_trim_iid a < px_inst h ->
  exists pkt' a' st',
    replica_handler g d m w = Some (SUCCESS, g, mbuf_set d m pkt', set_worker_paxos w st') /\
    wk_acceptor st' = Some a' /\ acceptor_ok a' (accept_records (acc_id a) r (accept_of h)) t /\
    wk_learner st' = wk_learner (worker_paxos w) /\ wk_proposer st' = wk_proposer (worker_paxos w) /\
    paxos_packet pkt' (u32 (sin_addr (mine (conf g))))
      (set_acptid (set_msgtype h (paxos_message_type (accept_reply (acc_id a) r (accept_of h)))) (node_id (conf g))) /\
    get_addr (data pkt') 30 = Some src.
Proof. apply accept_packet_runs. Qed.

(** A message of the type [PAXOS_CHOSEN] for the next instance is delivered, and
    the answer of the application is sent to the client when the configuration says
    so. *)
Lemma chosen_packet_runs g d m w pkt src h l cb x' d' val :
  mbuf_get d m = Some pkt -> paxos_packet pkt src h -> px_msgtype h = PAXOS_CHOSEN ->
  wk_learner (worker_paxos w) = Some l -> kh_wf (instances l) -> kh_size (instances l) < KH_LIMIT ->
  lrn_acceptors l = 3 -> current_iid l = px_inst h -> 0 < px_inst h -> deliver (worker_paxos w) = Some cb ->
  call cb (application g) d (worker_id w) (px_inst h) (Some (px_value h)) PAXOS_VALUE_SIZE = Some (x', d', Some val) ->
  length val = 8%nat -> leader (conf g) = 0 \/ preexec_window (conf g) = 0 ->
  exists ret pkt' w' l', replica_handler g d m w = Some (ret, Globals (conf g) x', mbuf_set d' m pkt', w') /\
    wk_learner (worker_paxos w') = Some l' /\ current_iid l' = u32 (px_inst h + 1) /\
    (respond_to_client (conf g) <> 0 -> ret = SUCCESS /\
       paxos_packet pkt' (u32 (sin_addr (mine (conf g)))) (set_pxvalue h val) /\
       get_addr (data pkt') 30 = Some (u32 (sin_addr (client (conf g))))).
Proof.
  intros Hget Hpkt Hty Hl Hwf Hroom Hn Hcur Hpos Hcb Hcall Hval Hlead.
  pose proof (paxos_packet_ok _ _ _ Hpkt) as Hok. pose proof Hok as (Hm & Hwk & Hr & Hi & Hli & Hv & Ha & Hre & Hlen & Hrq & Hts).
  destruct (chosen_delivers l (body_of h) (freed_iid d) (px_value h) Hwf Hroom Hn Hi Hpos Hcur eq_refl Hlen)
    as (l1 & l2 & Hrecv & Hdel & Hcur2).
  set (st := paxos_stats pkt (worker_paxos w)).
  set (h' := set_pxvalue (set_rnd (set_inst (set_msgtype h PAXOS_CHOSEN) (px_inst h)) (px_rnd h)) val).
  assert (learner_chosen_handler (conf g) (application g) d (worker_id w) h st =
    Some (SUCCESS, h', x', d', set_learner st l2)) as Hhandler.
  { unfold learner_chosen_handler. change (wk_learner st) with (wk_learner (worker_paxos w)). rewrite Hl.
    cbn [mbind option_bind]. rewrite Hrecv. cbn [mbind option_bind]. rewrite Hdel. cbn [mbind option_bind].
    change (1 =? 0) with false. cbv iota. unfold call_deliver. change (deliver (set_learner st l2)) with (deliver (worker_paxos w)).
    rewrite Hcb. cbn [mbind option_bind]. cbn [iid ballot value set_aid body_of paxos_value_len paxos_value_val].
    rewrite Hcall. cbn [mbind option_bind]. unfold copy_if. change (PAXOS_VALUE_SIZE =? 0) with false. cbv iota.
    cbn [mbind option_bind px_value set_rnd set_inst set_msgtype]. rewrite copy_value_full by done. cbn [mbind option_bind].
    replace (negb (leader (conf g) =? 0) && negb (preexec_window (conf g) =? 0)) with false; [done|].
    symmetry. apply andb_false_iff. rewrite !negb_false_iff, !Z.eqb_eq. done. }
  assert (Z.land (leader (conf g)) (preexec_window (conf g)) = 0) as Hland.
  { destruct Hlead as [-> | ->]; [apply Z.land_0_l|apply Z.land_0_r]. }
  assert (hdr_ok h') as Hok'.
  { unfold hdr_ok, h'. cbn -[Z.pow]. pose proof (Z.mod_pos_bound PAXOS_CHOSEN (2 ^ 8) eq_refl).
    pose proof (Z.mod_pos_bound (px_rnd h) (2 ^ 16) eq_refl). pose proof (Z.mod_pos_bound (px_inst h) (2 ^ 32) eq_refl).
    unfold u8, u16, u32. split_and!; try done; lia. }
  edestruct (replica_runs g d m w pkt src h) as (pkt' & _ & Hrep & Hp' & Hd'); [exact Hget|exact Hpkt|..].
  { rewrite (switch_chosen _ _ _ _ _ _ _ Hty). fold st. rewrite Hhandler. cbn [mbind option_bind]. rewrite Hland.
    change (negb (0 =? 0)) with false. cbv iota. 
    instantiate (1 := Result (if respond_to_client (conf g) =? 0 then DROP_ORIGINAL_PACKET else SUCCESS)
      (if respond_to_client (conf g) =? 0 then Return else Reply (sin_addr (client (conf g)))) h' (conf g) x' d' (set_learner st l2)).
    by destruct (respond_to_client (conf g) =? 0). }
  { exact Hok'. }
  eexists _, pkt', _, l2. split; [exact Hrep|]. split; [done|]. split; [done|]. intros Hresp.
  cbn [res_conf res_action res_hdr res_ret] in *. rewrite (proj2 (Z.eqb_neq _ _) Hresp) in *. split; [done|]. split; [|by apply Hd'].
  replace (set_pxvalue h val) with h'; [exact Hp'|]. unfold h'. destruct h. cbn in *. subst. unfold set_pxvalue, set_rnd, set_inst, set_msgtype. cbn.
  rewrite u32_small, u16_small by lia. done.
Qed.

Lemma chosen_packet_delivers g d m w pkt src h l cb x' d' val :
  mbuf_get d m = Some pkt -> paxos_packet pkt src h -> px_msgtype h = PAXOS_CHOSEN ->
  wk_learner (worker_paxos w) = Some l -> kh_wf (instances l) -> kh_size (instances l) < KH_LIMIT ->
  lrn_acceptors l = 3 -> current_iid l = px_inst h -> 0 < px_inst h -> deliver (worker_paxos w) = Some cb ->
  call cb (application g) d (worker_id w) (px_inst h) (Some (px_value h)) PAXOS_VALUE_SIZE = Some (x', d', Some val) ->
  length val = 8%nat -> leader (conf g) = 0 \/ preexec_window (conf g) = 0 ->
  exists ret g' d'' w' l', replica_handler g d m w = Some (ret, g', d'', w') /\ application g' = x' /\
    wk_learner (worker_paxos w') = Some l' /\ current_iid l' = u32 (px_inst h + 1).
Proof.
  intros. edestruct (chosen_packet_runs g d m w) as (ret & pkt' & w' & l' & Hrun & Hl' & Hc & _); [eassumption..|].
  by eexists _, _, _, _, l'.
Qed.

(** C40. An acceptor that promised a higher ballot refuses an accept request, and its
    records stay.  The answer has the type of the library's message
    [PAXOS_PREEMPTED], 4, which on the data plane is [PAXOS_CHOSEN], with the
    value of the request.  The learner of three acceptors that reads the
    answer, for its next instance, delivers the refused value. *)
Theorem refused_accept_delivered g d m w pkt src h a r t b :
  mbuf_get d m = Some pkt -> paxos_packet pkt src h -> px_msgtype h = ACCEPT ->
  wk_acceptor (worker_paxos w) = Some a -> acceptor_ok a r t -> mem_room a -> acc_trim_iid a < px_inst h ->
  r !! px_inst h = Some b -> px_rnd h < ballot b ->
  exists pkt' a' st',
    replica_handler g d m w = Some (SUCCESS, g, mbuf_set d m pkt', set_worker_paxos w st') /\
    wk_acceptor st' = Some a' /\ acceptor_ok a' r t /\ get_addr (data pkt') 30 = Some src /\
    forall g2 d2 m2 (w2 : app_lcore_params_worker state) l cb x' d' val,
      mbuf_get d2 m2 = Some pkt' -> wk_learner (worker_paxos w2) = Some l -> kh_wf (instances l) ->
      kh_size (instances l) < KH_LIMIT -> lrn_acceptors l = 3 -> current_iid l = px_inst h ->
      deliver (worker_paxos w2) = Some cb ->
      call cb (application g2) d2 (worker_id w2) (px_inst h) (Some (px_value h)) PAXOS_VALUE_SIZE = Some (x', d', Some val) ->
      length val = 8%nat -> leader (conf g2) = 0 \/ preexec_window (conf g2) = 0 ->
      exists ret g' d'' w' l', replica_handler g2 d2 m2 w2 = Some (ret, g', d'', w') /\ application g' = x' /\
        wk_learner (worker_paxos w') = Some l' /\ current_iid l' = u32 (px_inst h + 1).
Proof.
  intros Hget Hpkt Hty Ha Hok Hroom Htrim Hb Hlt.
  destruct (accept_packet_runs g d m w pkt src h a r t Hget Hpkt Hty Ha Hok Hroom Htrim)
    as (pkt' & a' & st' & Hrun & Ha' & Hok' & _ & _ & Hp & Hd).
  assert (accept_records (acc_id a) r (accept_of h) = r /\
    accept_reply (acc_id a) r (accept_of h) = paxos_accepted_to_preempted (acc_id a) b) as [Hrec Hreply].
  { unfold accept_records, accept_ok, accept_reply. cbn [iid ballot accept_of]. rewrite Hb.
    by rewrite (proj2 (Z.leb_gt (ballot b) (px_rnd h)) Hlt). }
  rewrite Hrec in Hok'. rewrite Hreply in Hp. exists pkt', a', st'. do 4 (split; [done|]).
  intros g2 d2 m2 w2 l cb x' d' val Hget2 Hl Hwf Hr2 Hn Hcur Hcb Hcall Hval Hlead.
  destruct Hok as (_ & Ht & _).
  by apply (chosen_packet_delivers g2 d2 m2 w2 pkt' _ _ l cb x' d' val Hget2 Hp); cbn; try done; lia.
Qed.

(** *** Prepare requests *)

Definition prepare_request h : paxos_prepare :=
  {| iid := px_inst h; ballot := px_rnd h; value_ballot := 0; aid := 0; value := null_value |}.

(** The header of a promise: the ballot of the request stays. *)
Definition promise_hdr (c : p4xos_configuration) h (b : paxos_accepted) : paxos_hdr :=
  let h' := set_acptid (set_vrnd (set_msgtype h PROMISE) (value_ballot b)) (node_id c) in
  match paxos_value_val (value b) with Some v => set_pxvalue h' v | None => h' end.

(** A vote as the data plane stores it: no value, or one of 8 bytes. *)
Definition vote8 (b : paxos_accepted) : Prop :=
  value b = null_value \/ exists v, value b = PaxosValue PAXOS_VALUE_SIZE (Some v) /\ length v = 8%nat.

Lemma prepare_request_ok h : hdr_ok h -> body_ok (prepare_request h).
Proof. intros Hok. destruct (body_of_ok h Hok) as (Hi & Hb & _). split; [exact Hi|]. by split; [exact Hb|]. Qed.

Lemma promise_hdr_runs c h b :
  hdr_ok h -> vote8 b ->
  copy_if (set_acptid (set_vrnd (set_msgtype h PROMISE) (value_ballot b)) (node_id c)) (paxos_value_len (value b))
    (paxos_value_val (value b)) (paxos_value_len (value b)) = Some (promise_hdr c h b) /\ hdr_ok (promise_hdr c h b).
Proof.
  intros (H1 & H2 & H3 & H4 & H5 & H6 & H7 & H8 & H9 & H10 & H11) Hv. unfold promise_hdr, copy_if.
  pose proof (Z.mod_pos_bound PROMISE (2 ^ 8) eq_refl). pose proof (Z.mod_pos_bound (value_ballot b) (2 ^ 16) eq_refl).
  pose proof (Z.mod_pos_bound (node_id c) (2 ^ 16) eq_refl).
  destruct Hv as [-> | (v & -> & Hl)]; cbn [paxos_value_len paxos_value_val null_value].
  - split; [done|]. unfold hdr_ok. cbn -[Z.pow]. unfold u8, u16. split_and!; try done; lia.
  - change (PAXOS_VALUE_SIZE =? 0) with false. cbv iota. cbn [mbind option_bind px_value set_acptid set_vrnd set_msgtype].
    rewrite copy_value_full by done. split; [done|]. unfold hdr_ok. cbn -[Z.pow]. unfold u8, u16. split_and!; try done; lia.
Qed.

Lemma promised_vote8 id r req :
  (forall b, r !! iid req = Some b -> vote8 b) -> vote8 (promised id r req).
Proof.
  intros Hr. unfold promised. destruct (r !! iid req) as [b|]; [|by left].
  specialize (Hr b eq_refl). by destruct (ballot b <=? ballot req).
Qed.

Lemma prepare_packet_runs g d m w pkt src h a r t :
  mbuf_get d m = Some pkt -> paxos_packet pkt src h -> px_msgtype h = PREPARE ->
  wk_acceptor (worker_paxos w) = Some a -> acceptor_ok a r t -> mem_room a -> acc_trim_iid a < px_inst h ->
  (forall b, r !! px_inst h = Some b -> vote8 b) ->
  let p := promised (acc_id a) r (prepare_request h) in
  exists pkt' a' st',
    finish (conf g) pkt (Reply src) (promise_hdr (conf g) h p) = Some pkt' /\
    replica_handler g d m w = Some (SUCCESS, g, mbuf_set d m pkt', set_worker_paxos w st') /\
    wk_acceptor st' = Some a' /\ acceptor_ok a' (<[px_inst h := p]> r) t /\
    paxos_packet pkt' (u32 (sin_addr (mine (conf g)))) (promise_hdr (conf g) h p) /\
    get_addr (data pkt') 30 = Some src.
Proof.
  intros Hget Hpkt Hty Ha Hok Hroom Htrim Hv p. pose proof (paxos_packet_ok _ _ _ Hpkt) as Hh.
  pose proof (prepare_request_ok h Hh) as Hreq.
  destruct (mem_prepare_runs a r t (prepare_request h) (PAXOS_PREPARE zero_body) Hok Hreq Hroom) as (a' & out & Hrun).
  rewrite (proj2 (Z.leb_gt (iid (prepare_request h)) (acc_trim_iid a)) Htrim) in Hrun.
  destruct (receive_prepare_spec _ _ _ _ _ _ _ _ Hok Hreq Hrun) as (_ & _ & [[? _]|(_ & _ & -> & Hok')]); [done|].
  destruct (promise_hdr_runs (conf g) h p Hh) as [Hcopy Hhok]; [by apply promised_vote8|].
  set (st := paxos_stats pkt (worker_paxos w)).
  assert (prepare_handler (conf g) h st = Some (SUCCESS, promise_hdr (conf g) h p, set_acceptor st a')) as Hhandler.
  { unfold prepare_handler. change (wk_acceptor st) with (wk_acceptor (worker_paxos w)). rewrite Ha. cbn [mbind option_bind].
    fold (prepare_request h). rewrite Hrun. cbn [mbind option_bind]. change (negb (1 =? 0)) with true. cbv iota.
    fold p. change (paxos_message_type (PAXOS_PROMISE p)) with PROMISE. by rewrite Hcopy. }
  edestruct (replica_runs g d m w pkt src h) as (pkt' & Hf & Hrep & Hp & Hd); [exact Hget|exact Hpkt|..].
  { rewrite (switch_prepare _ _ _ _ _ _ _ Hty). fold st. rewrite Hhandler. reflexivity. }
  { exact Hhok. }
  exists pkt', a', (set_acceptor st a'). split; [exact Hf|]. split; [rewrite Hrep; by destruct g|].
  do 2 (split; [done|]). split; [exact Hp|]. rewrite (Hd src eq_refl). by rewrite (paxos_src_u32 _ _ _ Hpkt).
Qed.

(** A prepare request in a packet is answered with the promise of the abstract
    acceptor: its last vote, the identifier of the node, and the ballot of the
    request; the packet goes back to the node that sent it. *)
Theorem prepare_packet_answered g d m w pkt src h a r t :
  mbuf_get d m = Some pkt -> paxos_packet pkt src h -> px_msgtype h = PREPARE ->
  wk_acceptor (worker_paxos w) = Some a -> acceptor_ok a r t -> mem_room a -> acc_trim_iid a < px_inst h ->
  (forall b, r !! px_inst h = Some b -> vote8 b) ->
  let p := promised (acc_id a) r (prepare_request h) in
  exists pkt' a' st',
    replica_handler g d m w = Some (SUCCESS, g, mbuf_set d m pkt', set_worker_paxos w st') /\
    wk_acceptor st' = Some a' /\ acceptor_ok a' (<[px_inst h := p]> r) t /\
    paxos_packet pkt' (u32 (sin_addr (mine (conf g)))) (promise_hdr (conf g) h p) /\
    get_addr (data pkt') 30 = Some src.
Proof.
  intros Hget Hpkt Hty Ha Hok Hroom Htrim Hv p.
  destruct (prepare_packet_runs g d m w pkt src h a r t Hget Hpkt Hty Ha Hok Hroom Htrim Hv) as (pkt' & a' & st' & _ & Hrest).
  exists pkt', a', st'. exact Hrest.
Qed.

(** An acceptor that promised a higher ballot refuses a prepare request: its
    record stays.  But its answer is the same packet, byte for byte, as that of
    an acceptor with the same vote that grants the request: the leader cannot tell
    the two apart. *)
Theorem refused_prepare_looks_granted g d m pkt src h w1 a1 r1 t1 b1 w2 a2 r2 t2 b2 :
  mbuf_get d m = Some pkt -> paxos_packet pkt src h -> px_msgtype h = PREPARE ->
  wk_acceptor (worker_paxos w1) = Some a1 -> acceptor_ok a1 r1 t1 -> mem_room a1 -> acc_trim_iid a1 < px_inst h ->
  wk_acceptor (worker_paxos w2) = Some a2 -> acceptor_ok a2 r2 t2 -> mem_room a2 -> acc_trim_iid a2 < px_inst h ->
  r1 !! px_inst h = Some b1 -> r2 !! px_inst h = Some b2 -> px_rnd h < ballot b1 -> ballot b2 <= px_rnd h ->
  value_ballot b1 = value_ballot b2 -> value b1 = value b2 -> vote8 b1 ->
  exists pkt' st1 st2 a1' a2' b2',
    replica_handler g d m w1 = Some (SUCCESS, g, mbuf_set d m pkt', set_worker_paxos w1 st1) /\
    replica_handler g d m w2 = Some (SUCCESS, g, mbuf_set d m pkt', set_worker_paxos w2 st2) /\
    wk_acceptor st1 = Some a1' /\ acceptor_ok a1' r1 t1 /\
    wk_acceptor st2 = Some a2' /\ acceptor_ok a2' (<[px_inst h := b2']> r2) t2 /\ ballot b2' = px_rnd h.
Proof.
  intros Hget Hpkt Hty Ha1 Hok1 Hroom1 Htrim1 Ha2 Hok2 Hroom2 Htrim2 Hb1 Hb2 Hlt Hle Hvb Hval Hv.
  destruct (prepare_packet_runs g d m w1 pkt src h a1 r1 t1 Hget Hpkt Hty Ha1 Hok1 Hroom1 Htrim1)
    as (p1 & a1' & st1 & Hf1 & Hrun1 & Ha1' & Hok1' & _); [congruence|].
  destruct (prepare_packet_runs g d m w2 pkt src h a2 r2 t2 Hget Hpkt Hty Ha2 Hok2 Hroom2 Htrim2)
    as (p2 & a2' & st2 & Hf2 & Hrun2 & Ha2' & Hok2' & _).
  { intros b Hb. assert (b = b2) as -> by congruence. unfold vote8 in *. by rewrite <- Hval. }
  assert (promised (acc_id a1) r1 (prepare_request h) = b1) as Hp1.
  { unfold promised. cbn [iid ballot prepare_request]. rewrite Hb1. by rewrite (proj2 (Z.leb_gt _ _) Hlt). }
  assert (promise_hdr (conf g) h (promised (acc_id a2) r2 (prepare_request h)) = promise_hdr (conf g) h b1 /\
    ballot (promised (acc_id a2) r2 (prepare_request h)) = px_rnd h) as [Hp2 Hbal].
  { unfold promised. cbn [iid ballot prepare_request]. rewrite Hb2. rewrite (proj2 (Z.leb_le _ _) Hle).
    unfold promise_hdr. cbn [value_ballot value ballot]. by rewrite Hvb, Hval. }
  rewrite Hp1 in Hf1, Hok1'. rewrite Hp2, Hf1 in Hf2. injection Hf2 as <-. rewrite insert_id in Hok1' by done.
  by exists p1, st1, st2, a1', a2', (promised (acc_id a2) r2 (prepare_request h)).
Qed.
End acceptor.

(** ** Witnesses: an acceptor with and without a vote for instance 1 *)

(** The application lists what it is given. *)
#[global] Instance sim_env : @P4Env (sim false) unit (list (Z * Z * option (list byte))) := {|
  rte_timer_init d _ _ := d : @dev (sim false);
  rte_timer_reset d _ _ _ := (0, d);
  rte_timer_subsystem_init d := d;
  rte_get_timer_hz := 1000;
  gettimeofday _ := {| tv_sec := 0; tv_usec := 0 |};
  freed_iid _ := 0;
  latency_line _ _ _ := 10;
  call _ x d id i v _ := Some (x ++ [(id, i, v)], d, v);
|}.

Definition sim_value (b : byte) : list byte := repeat b 8.

(** A message from 5 to 6. *)
Definition sim_msg (mtype inst rnd : Z) (v : list byte) : rte_mbuf :=
  default sim_blank (@prepare_paxos_message sim_eth sim_blank 0 (SockaddrIn P4XOS_PORT 5) (SockaddrIn P4XOS_PORT 6)
    mtype inst rnd 0 0 0 0 (Some v) 8).

Definition sim_hdr (mtype inst rnd : Z) (v : list byte) : paxos_hdr :=
  PaxosHdr mtype 0 rnd inst inst 0 0 0 v 0 0.

Lemma sim_msg_packet mtype rnd b :
  (mtype, rnd, b) ∈ [(ACCEPT, 12, x61); (ACCEPT, 3, x62); (PREPARE, 15, x00); (PREPARE, 7, x00)] ->
  paxos_packet (sim_msg mtype 1 rnd (sim_value b)) 5 (sim_hdr mtype 1 rnd (sim_value b)).
Proof.
  rewrite !elem_of_cons, elem_of_nil.
  intros [[= -> -> ->]|[[= -> -> ->]|[[= -> -> ->]|[[= -> -> ->]|[]]]]]; constructor; vm_compute; congruence.
Qed.

Definition sim_heap_dev (pkt : rte_mbuf) : sim_dev := SimDev (View [] [] [] (fun _ => [])) {[10 := pkt]} [] 1 0.

Definition sim_acc0 : acceptor (mem_storage Khash.khash) :=
  {| acc_id := 2; acc_trim_iid := 0; store := mem_storage_new |}.

(** The acceptor after it accepted a value at ballot 12, and after it promised
    ballot 20. *)
Definition sim_accept : paxos_accept := accept_of (sim_hdr ACCEPT 1 12 (sim_value x61)).
Definition sim_prepare : paxos_prepare := prepare_request (sim_hdr PREPARE 1 20 (sim_value x00)).

Definition sim_acc1 : acceptor (mem_storage Khash.khash) :=
  match acceptor_receive_accept sim_acc0 sim_accept (PAXOS_PREPARE zero_body) with Some (a, _, _) => a | None => sim_acc0 end.
Definition sim_acc2 : acceptor (mem_storage Khash.khash) :=
  match acceptor_receive_prepare sim_acc1 sim_prepare (PAXOS_PREPARE zero_body) with Some (a, _, _) => a | None => sim_acc1 end.
Definition sim_records1 : gmap Z paxos_accepted := accept_records 2 ∅ sim_accept.
Definition sim_records2 : gmap Z paxos_accepted := <[1 := promised 2 sim_records1 sim_prepare]> sim_records1.

Lemma sim_acc1_ok : acceptor_ok sim_acc1 sim_records1 0 /\ acc_id sim_acc1 = 2 /\ acc_trim_iid sim_acc1 = 0.
Proof.
  destruct (acceptor_receive_accept sim_acc0 sim_accept (PAXOS_PREPARE zero_body)) as [[[a ret] out]|] eqn:E; [|by vm_compute in E].
  assert (sim_acc1 = a) as -> by (unfold sim_acc1; by rewrite E).
  destruct (receive_accept_spec sim_acc0 ∅ 0 sim_accept _ _ _ _ (mem_acceptor_new 2 ltac:(lia))
    ltac:(unfold body_ok, value_ok; vm_compute; intuition congruence) E) as (Hid & Htr & [[-> _]|(-> & _ & _ & Hok)]).
  - by vm_compute in E.
  - done.
Qed.

Lemma sim_acc2_ok : acceptor_ok sim_acc2 sim_records2 0 /\ acc_id sim_acc2 = 2 /\ acc_trim_iid sim_acc2 = 0.
Proof.
  destruct sim_acc1_ok as (Hok1 & Hid1 & Htr1).
  destruct (acceptor_receive_prepare sim_acc1 sim_prepare (PAXOS_PREPARE zero_body)) as [[[a ret] out]|] eqn:E; [|by vm_compute in E].
  assert (sim_acc2 = a) as -> by (unfold sim_acc2; by rewrite E).
  destruct (receive_prepare_spec sim_acc1 sim_records1 0 sim_prepare _ _ _ _ Hok1
    ltac:(unfold body_ok, value_ok; vm_compute; intuition congruence) E) as (Hid & Htr & [(-> & _)|(-> & _ & _ & Hok)]).
  - by vm_compute in E.
  - rewrite Hid1 in Hok. split; [exact Hok|]. split; congruence.
Qed.

Definition sim_worker (l : option (learner Khash.khash)) (a : option (acceptor (mem_storage Khash.khash))) :
    app_lcore_params_worker (worker_state Khash.khash (mem_storage Khash.khash) unit) :=
  @zero_worker (sim false) _ (WorkerState zero_stats l a None (Some tt) (Some replica_cb) 0 0 0 None 0 0).

Definition sim_globals : globals (list (Z * Z * option (list byte))) := Globals zero_conf [].

Lemma accept_packet_answered_witness :
  let w := sim_worker None (Some sim_acc0) in
  exists pkt' st', @replica_handler (sim false) sim_eth Khash.khash _ _ _ unit _ sim_env sim_globals
      (sim_heap_dev (sim_msg ACCEPT 1 12 (sim_value x61))) 10 w = Some (SUCCESS, sim_globals,
      @mbuf_set (sim false) (sim_heap_dev (sim_msg ACCEPT 1 12 (sim_value x61))) 10 pkt', set_worker_paxos w st') /\
    px_msgtype <$> get_paxos_hdr (data pkt') 42 = Some ACCEPTED.
Proof.
  intros w.
  destruct (@accept_packet_answered (sim false) sim_eth Khash.khash _ unit _ sim_env sim_globals
    (sim_heap_dev (sim_msg ACCEPT 1 12 (sim_value x61))) 10 w (sim_msg ACCEPT 1 12 (sim_value x61)) 5
    (sim_hdr ACCEPT 1 12 (sim_value x61)) sim_acc0 ∅ 0) as (pkt' & a' & st' & Hrun & _ & _ & _ & _ & Hp & _).
  - apply lookup_singleton_eq.
  - apply sim_msg_packet. by apply elem_of_cons; left.
  - reflexivity.
  - reflexivity.
  - by apply mem_acceptor_new.
  - reflexivity.
  - reflexivity.
  - exists pkt', st'. split; [exact Hrun|]. rewrite (pp_hdr _ _ _ Hp). reflexivity.
Defined.

(** The value of ballot 3 is delivered although the acceptor holds another one at
    ballot 12. *)
Lemma refused_accept_delivered_witness :
  let m := sim_msg ACCEPT 1 3 (sim_value x62) in
  let w := sim_worker None (Some sim_acc1) in
  let w2 := sim_worker (Some (learner_new 1 3)) None in
  exists pkt' st' ret g' d'' w',
    @replica_handler (sim false) sim_eth Khash.khash _ _ _ unit _ sim_env sim_globals (sim_heap_dev m) 10 w =
      Some (SUCCESS, sim_globals, @mbuf_set (sim false) (sim_heap_dev m) 10 pkt', set_worker_paxos w st') /\
    @replica_handler (sim false) sim_eth Khash.khash _ _ _ unit _ sim_env sim_globals (sim_heap_dev pkt') 10 w2 =
      Some (ret, g', d'', w') /\ application g' = [(0, 1, Some (sim_value x62))].
Proof.
  intros m w w2. destruct sim_acc1_ok as (Hok & Hid & Htr).
  destruct (@refused_accept_delivered (sim false) sim_eth Khash.khash _ unit _ sim_env sim_globals (sim_heap_dev m) 10 w m 5
    (sim_hdr ACCEPT 1 3 (sim_value x62)) sim_acc1 sim_records1 0 (paxos_accept_to_accepted 2 sim_accept))
    as (pkt' & a' & st' & Hrun & _ & _ & _ & Hnext).
  - apply lookup_singleton_eq.
  - apply sim_msg_packet. by apply elem_of_cons; right; apply elem_of_cons; left.
  - reflexivity.
  - reflexivity.
  - exact Hok.
  - by vm_compute.
  - rewrite Htr. reflexivity.
  - apply lookup_insert_eq.
  - reflexivity.
  - destruct (Hnext sim_globals (sim_heap_dev pkt') 10 w2 (learner_new 1 3) tt [(0, 1, Some (sim_value x62))]
      (sim_heap_dev pkt') (sim_value x62)) as (ret & g' & d'' & w' & l' & Hrun2 & Happ & _);
      [apply lookup_singleton_eq|reflexivity|apply kh_init_wf|reflexivity..|by left|].
    exists pkt', st', ret, g', d'', w'. split; [exact Hrun|]. split; [exact Hrun2|exact Happ].
Defined.

Lemma prepare_packet_answered_witness :
  let m := sim_msg PREPARE 1 15 (sim_value x00) in
  let w := sim_worker None (Some sim_acc1) in
  exists pkt' st', @replica_handler (sim false) sim_eth Khash.khash _ _ _ unit _ sim_env sim_globals (sim_heap_dev m) 10 w =
      Some (SUCCESS, sim_globals, @mbuf_set (sim false) (sim_heap_dev m) 10 pkt', set_worker_paxos w st') /\
    px_vrnd <$> get_paxos_hdr (data pkt') 42 = Some 12 /\ px_value <$> get_paxos_hdr (data pkt') 42 = Some (sim_value x61).
Proof.
  intros m w. destruct sim_acc1_ok as (Hok & Hid & Htr).
  destruct (@prepare_packet_answered (sim false) sim_eth Khash.khash _ unit _ sim_env sim_globals (sim_heap_dev m) 10 w m 5
    (sim_hdr PREPARE 1 15 (sim_value x00)) sim_acc1 sim_records1 0) as (pkt' & a' & st' & Hrun & _ & _ & Hp & _).
  - apply lookup_singleton_eq.
  - apply sim_msg_packet. do 2 (apply elem_of_cons; right). by apply elem_of_cons; left.
  - reflexivity.
  - reflexivity.
  - exact Hok.
  - by vm_compute.
  - rewrite Htr. reflexivity.
  - intros b Hb. assert (Some b = Some (paxos_accept_to_accepted 2 sim_accept)) as Hbb by (rewrite <- Hb; apply lookup_insert_eq).
    injection Hbb as ->. right. by exists (sim_value x61).
  - exists pkt', st'. split; [exact Hrun|]. rewrite (pp_hdr _ _ _ Hp), Hid. by split; vm_compute.
Defined.

(** A request of ballot 15: refused by the acceptor that promised 20, granted by the
    one that did not. *)
Lemma refused_prepare_looks_granted_witness :
  let m := sim_msg PREPARE 1 15 (sim_value x00) in
  let w1 := sim_worker None (Some sim_acc2) in
  let w2 := sim_worker None (Some sim_acc1) in
  exists pkt' st1 st2,
    @replica_handler (sim false) sim_eth Khash.khash _ _ _ unit _ sim_env sim_globals (sim_heap_dev m) 10 w1 =
      Some (SUCCESS, sim_globals, @mbuf_set (sim false) (sim_heap_dev m) 10 pkt', set_worker_paxos w1 st1) /\
    @replica_handler (sim false) sim_eth Khash.khash _ _ _ unit _ sim_env sim_globals (sim_heap_dev m) 10 w2 =
      Some (SUCCESS, sim_globals, @mbuf_set (sim false) (sim_heap_dev m) 10 pkt', set_worker_paxos w2 st2).
Proof.
  intros m w1 w2. destruct sim_acc1_ok as (Hok1 & Hid1 & Htr1), sim_acc2_ok as (Hok2 & Hid2 & Htr2).
  destruct (@refused_prepare_looks_granted (sim false) sim_eth Khash.khash _ unit _ sim_env sim_globals (sim_heap_dev m) 10 m 5
    (sim_hdr PREPARE 1 15 (sim_value x00)) w1 sim_acc2 sim_records2 0 (promised 2 sim_records1 sim_prepare)
    w2 sim_acc1 sim_records1 0 (paxos_accept_to_accepted 2 sim_accept))
    as (pkt' & st1 & st2 & a1' & a2' & b2' & Hrun1 & Hrun2 & _).
  - apply lookup_singleton_eq.
  - apply sim_msg_packet. do 2 (apply elem_of_cons; right). by apply elem_of_cons; left.
  - reflexivity.
  - reflexivity.
  - exact Hok2.
  - by vm_compute.
  - rewrite Htr2. reflexivity.
  - reflexivity.
  - exact Hok1.
  - by vm_compute.
  - rewrite Htr1. reflexivity.
  - apply lookup_insert_eq.
  - apply lookup_insert_eq.
  - by vm_compute.
  - by vm_compute.
  - reflexivity.
  - reflexivity.
  - right. exists (sim_value x61). split; [vm_compute; reflexivity|reflexivity].
  - exists pkt', st1, st2. split; [exact Hrun1|exact Hrun2].
Defined.
