(* ===== verification/P4Plane.v ===== *)
(** * The whole data plane conserves its packets
    ([p4xos/src/runtime.c], [p4xos_leader.c], [p4xos_learner.c])

    The steps of a node: the calls the main loops make on the I/O cores and the
    workers ([P4Conserve.plane_step]), with the Paxos handlers as the callback of
    the workers, and the callbacks of the timers that [rte_timer_manage] runs.  All
    timers run on cores of workers, so that this call does nothing on the I/O cores.
    The calls on different cores are interleaved, each as a whole.

    The delivery callback and a timer put checkpoint messages in a buffer of an I/O
    core; the other timers put messages in a buffer of their worker.  The timers that
    repeat a request of a client are compiled with [RESUBMIT] only and are left out. *)

From stdpp Require Import gmultiset.
From S2P Require Import Prelude Bytes PaxosTypes KhashInterface KhashResize EvConfig Storage Acceptor Proposer Learner P4Packet P4Dpdk P4Sim P4App P4Runtime P4Conserve P4Worker P4Timers P4Replica.

(** The state of the application, and the I/O cores. *)
Notation with_ios X := (X * list app_lcore_params_io)%type.

(** ** Checkpoint messages *)

Section moved.
Context {D : Dpdk} {DL : DpdkLaws} {E : Eth} {T : Type -> Type} {H CB X : Type} {EN : P4Env CB (with_ios X)}.

(** Nothing is done with packets but to send checkpoint messages. *)
Inductive moved : dev * list app_lcore_params_io -> dev * list app_lcore_params_io -> Prop :=
  | moved_view d d' ios : view_of d' = view_of d -> moved (d, ios) (d', ios)
  | moved_checkpoint d d' ios i io io' (a : app_params (worker_state T H CB)) c w n :
      ios !! i = Some io -> send_checkpoint_message a c d io w n = Some (d', io') -> moved (d, ios) (d', <[i := io']> ios)
  | moved_trans s1 s2 s3 : moved s1 s2 -> moved s2 s3 -> moved s1 s3.
End moved.

(** The callback of the application sends checkpoint messages at most
    ([rocksdb_deliver] and [baseline_deliver] do); the clock and the timers leave the packets alone. *)
Class P4EnvLaws {D : Dpdk} {DL : DpdkLaws} {E : Eth} (T : Type -> Type) (H : Type) {CB X : Type} {EN : P4Env CB (with_ios X)} := {
  call_moved cb x ios d id iid v n x' ios' d' v' :
    call cb (x, ios) d id iid v n = Some ((x', ios'), d', v') -> moved (T := T) (H := H) (d, ios) (d', ios');
  cycles_view d : view_of (rte_get_timer_cycles d).2 = view_of d;
  reset_view d lcore t n : view_of (rte_timer_reset d lcore t n).2 = view_of d;
}.

Lemma take_arr_set {A} (l l' : list A) n x :
  arr_set l n x = Some l' -> take (Z.to_nat (n + 1)) l' = take (Z.to_nat n) l ++ [x].
Proof.
  intros [Hn ->]%arr_set_Some. replace (Z.to_nat (n + 1)) with (S (Z.to_nat n)) by lia.
  rewrite (take_S_r _ _ x) by (apply list_lookup_insert_eq; lia). by rewrite take_insert_ge by lia.
Qed.

Section plane.
Context {D : Dpdk} {DL : DpdkLaws} {DP : DpdkPool} {E : Eth} `{KH : KHash T} `{SA : StorageApi H} {CB X : Type}.
Context {EN : P4Env CB (with_ios X)} {PL : P4EnvLaws T H (CB := CB) (X := X)}.
Notation state := (worker_state T H CB).
Notation worker := (app_lcore_params_worker state).
Implicit Types (a : app_params state) (c : p4xos_configuration) (d : dev) (w : worker) (io : app_lcore_params_io).
Context (rs : list ring).

Lemma message_view c d m dst mtype inst rnd id req ts v size d' :
  message c d m dst mtype inst rnd id req ts v size = Some d' -> view_of d' = view_of d.
Proof.
  unfold message. intros (pkt & _ & Hrun)%bind_Some. apply bind_Some in Hrun as (pkt' & _ & [= <-]). apply set_law.
Qed.

(** A packet that was allocated, or NULL. *)
Lemma alloc_conserves d pl m d' other b :
  rte_pktmbuf_alloc d pl = (m, d') -> conserved rs other (view_of d) b -> conserved rs other (view_of d') (b ⊎ bag [m]).
Proof.
  intros Hv%alloc_law Hc. unfold conserved, placed in *. rewrite Hv. destruct (Z.eqb_spec m NULL) as [->|].
  - change (bag [NULL]) with (∅ : gmultiset Z). by rewrite (right_id_L ∅ (⊎)).
  - cbn [obtained sent freed contents]. rewrite bag_app, Hc. multiset_solver.
Qed.

Lemma checkpoint_conserves a c d io w n d' io' other :
  send_checkpoint_message a c d io w n = Some (d', io') -> tx_wf (tx io) ->
  rx io' = rx io /\ tx_rings (tx io') = tx_rings (tx io) /\ tx_wf (tx io') /\
  (conserved rs other (view_of d) (tx_bag (tx io)) -> conserved rs other (view_of d') (tx_bag (tx io'))).
Proof.
  unfold send_checkpoint_message. intros Hrun Hwf. apply bind_Some in Hrun as (lc & _ & Hrun). apply bind_Some in Hrun as (lc' & _ & Hrun).
  apply bind_Some in Hrun as (b & Hb & Hrun). apply bind_Some in Hrun as (lp & _ & Hrun).
  destruct (rte_pktmbuf_alloc d (pool lp)) as [m d1] eqn:Ea. apply bind_Some in Hrun as (d2 & Hd2 & Hrun).
  apply bind_Some in Hrun as (arr & Harr & Hrun). apply bind_Some in Hrun as (bs & Hbs & Hrun).
  pose proof (reset_view (T := T) (H := H) (CB := CB) (X := X) d2 (worker_lcore_id w) checkpoint_timer (hz a / CHECKPOINT_TIMEOUT)) as Hr.
  destruct (rte_timer_reset d2 _ _ _) as [ret d3]. cbn [snd] in Hr. injection Hrun as <- <-.
  assert (view_of d2 = view_of d1) as Hv2 by (destruct (m =? NULL); [by injection Hd2 as <-|by eapply message_view]).
  destruct (Hwf _ _ Hb) as [Hlen Hn]. pose proof Harr as [Hin _]%arr_set_Some. unfold APP_MBUF_ARRAY_SIZE in *.
  rewrite u32_small in Hbs by lia. cbn [rx tx tx_rings]. do 2 (split; [done|]). split.
  - intros p x. cbn [tx_mbuf_out]. rewrite (arr_get_set _ _ _ _ _ Hbs). unfold APP_MBUF_ARRAY_SIZE in *. case_decide; [|apply Hwf].
    intros [= <-]. cbn. rewrite (arr_set_length _ _ _ _ Harr). lia.
  - intros Hc. rewrite Hr, Hv2. apply (alloc_conserves _ _ _ _ _ _ Ea) in Hc.
    pose proof (tx_put _ _ _ _ _ (tx_rings (tx io)) (nic_ports (tx io)) (n_nic_ports (tx io)) (tx_mbuf_out_flush (tx io))
      (nic_ports_count (tx io)) (nic_ports_iters (tx io)) Hbs) as Hu. rewrite (take_arr_set _ _ _ _ Harr), bag_app in Hu.
    assert (tx_held (tx io) (tx_port c) = take (Z.to_nat (n_mbufs b)) (array b)) as Hh by (unfold tx_held; by rewrite Hb).
    rewrite Hh in Hu. unfold conserved in *. rewrite Hc. clear -Hu. multiset_solver.
Qed.

(** ** The callback of a worker *)

Context (a : app_params state) (n_workers : Z).

Lemma checkpoint_ios a0 c d ios i io w n d' io' :
  ios_ok a n_workers rs ios -> ios !! i = Some io -> send_checkpoint_message a0 c d io w n = Some (d', io') ->
  ios_ok a n_workers rs (<[i := io']> ios) /\
  forall other, conserved rs other (view_of d) (cores_bag io_bag ios) -> conserved rs other (view_of d') (cores_bag io_bag (<[i := io']> ios)).
Proof.
  intros Hok Hi Hrun. pose proof (Hok _ _ Hi) as (H1 & H2 & H3 & H4 & H5). split.
  - intros j x [(_ & <- & _)|[_ Hj]]%list_lookup_insert_Some; [|by apply (Hok j)].
    destruct (checkpoint_conserves a0 c d io w n d' io' ∅ Hrun H4) as (Hrx & Hts & Hwf & _). unfold io_ok, io_rx_wf, tx_in in *. by rewrite Hrx, Hts.
  - intros other Hc. destruct (cores_bag_split io_bag ios i io Hi) as (rest & E1 & E2). rewrite E1 in Hc. rewrite E2. unfold io_bag in *.
    destruct (checkpoint_conserves a0 c d io w n d' io' (other ⊎ rest ⊎ outs_bag (rx_out (rx io))) Hrun H4) as (Hrx & _ & _ & Hmove).
    rewrite Hrx. unfold conserved in *. rewrite Hmove; multiset_solver.
Qed.

Lemma moved_conserves s s' :
  moved (T := T) (H := H) (CB := CB) (X := X) s s' -> ios_ok a n_workers rs s.2 ->
  ios_ok a n_workers rs s'.2 /\
  forall other, conserved rs other (view_of s.1) (cores_bag io_bag s.2) -> conserved rs other (view_of s'.1) (cores_bag io_bag s'.2).
Proof.
  induction 1 as [d d' ios Hv|d d' ios i io io' a0 c w n Hi Hrun|s1 s2 s3 _ IH1 _ IH2]; intros Hok; cbn [fst snd] in *.
  - by rewrite Hv.
  - by apply (checkpoint_ios a0 c d ios i io w n d' io').
  - destruct (IH1 Hok) as [Hok2 Hc1]. destruct (IH2 Hok2) as [Hok3 Hc2]. split; [done|]. intros other Hc. by apply Hc2, Hc1.
Qed.
(** Follows a run to its end. *)
Ltac walk Hrun :=
  repeat match type of Hrun with
    | (if _ then _ else _) = _ => case_match
    | (let '(_, _) := ?x in _) = _ => destruct x eqn:?
    | (_ ≫= _) = Some _ => let Hs := fresh "Hs" in apply bind_Some in Hrun as (? & Hs & Hrun); repeat case_match
    | Some _ = Some _ => injection Hrun as <-
    end.

Notation moves x d x' d' := (moved (T := T) (H := H) (CB := CB) (X := X) (d, (x : with_ios X).2) (d', (x' : with_ios X).2)).

Lemma moves_same (x : with_ios X) d : moves x d x d.
Proof. by apply moved_view. Qed.

Lemma call_deliver_moves x d (st : state) i iid v n x' d' v' :
  call_deliver x d st i iid v n = Some (x', d', v') -> moves x d x' d'.
Proof. unfold call_deliver. intros (cb & _ & Hc)%bind_Some. destruct x, x'. by eapply call_moved. Qed.

Lemma chosen_moves c x d i h (st : state) ret h' x' d' st' :
  learner_chosen_handler c x d i h st = Some (ret, h', x', d', st') -> moves x d x' d'.
Proof.
  unfold learner_chosen_handler. intros Hrun. walk Hrun; simplify_eq; try apply moves_same;
    match goal with Hc : call_deliver _ _ _ _ _ _ _ = Some _ |- _ => by apply call_deliver_moves in Hc end.
Qed.

Lemma switch_moves c x d i src h (st : state) r :
  replica_switch c x d i src h st = Some r -> moves x d (res_x r) (res_dev r).
Proof.
  unfold replica_switch. intros Hrun. walk Hrun; try apply moves_same;
    match goal with Hc : learner_chosen_handler _ _ _ _ _ _ = Some _ |- _ => by apply chosen_moves in Hc end.
Qed.

Lemma measure_view c hz d h (st : state) now d' st' :
  measure c hz d h st = (now, d', st') -> view_of d' = view_of d.
Proof.
  unfold measure. destruct (negb _); [by intros [= <- <- <-]|].
  pose proof (cycles_view (T := T) (H := H) (CB := CB) (X := X) d) as Hv.
  destruct (rte_get_timer_cycles d) as [n d1]. by intros [= <- <- <-].
Qed.

Lemma client_moves c hz x d i h (st : state) ret h' x' d' st' :
  proposer_chosen_handler c hz x d i h st = Some (ret, h', x', d', st') -> moves x d x' d'.
Proof.
  unfold proposer_chosen_handler. destruct (_ <=? 0); [intros [= <- <- <- <- <-]; apply moves_same|].
  destruct (if negb (measure_latency c =? 0) then measure c hz d h st else (0, d, st)) as [[now d1] st1] eqn:Hm.
  assert (view_of d1 = view_of d) as Hd1 by (destruct (negb _); [by apply measure_view in Hm|by injection Hm as _ <- _]).
  intros ([[x1 d2] val] & Hc%call_deliver_moves & Hrun)%bind_Some. apply bind_Some in Hrun as (v & _ & Hrun).
  apply bind_Some in Hrun as ([h1 d3] & Hd3 & [= <- <- <- <- <-]).
  assert (view_of d3 = view_of d2) as Hd3'.
  { pose proof (cycles_view (T := T) (H := H) (CB := CB) (X := X) d2) as Hv.
    destruct (measure_latency c =? 0), (ts_interval c =? 0), (px_inst h mod ts_interval c =? 0); try (by injection Hd3 as _ <-); try done.
    destruct (now =? 0); [destruct (rte_get_timer_cycles d2); by injection Hd3 as _ <-|by injection Hd3 as _ <-]. }
  eapply moved_trans; [by apply moved_view|]. eapply moved_trans; [exact Hc|by apply moved_view].
Qed.

(** The callback of a worker, with the I/O cores in the hands of the application. *)
Definition paxos_process (hz : Z) (g : globals X * list app_lcore_params_io) d (m : mbuf) w :
    option (Z * (globals X * list app_lcore_params_io) * dev * worker) :=
  '(ret, g, d, w) ← run_worker_cb hz (Globals (conf g.1) (application g.1, g.2)) d m w;
  Some (ret, (Globals (conf g) (application g).1, (application g).2), d, w).

Lemma run_worker_cb_moves hz g d m w ret g' d' w' :
  run_worker_cb hz g d m w = Some (ret, g', d', w') ->
  moves (application g) d (application g') d' /\ exists st, w' = w \/ w' = set_worker_paxos w st.
Proof.
  intros ([|] & _ & Hrun)%bind_Some.
  - unfold replica_handler in Hrun. walk Hrun; simplify_eq; cbn.
    + split; [apply moved_view, set_law|]. exists (worker_paxos w'). by left.
    + match goal with Hs : replica_switch _ _ _ _ _ _ _ = Some ?r |- _ => apply switch_moves in Hs as Hm; split; [|exists (res_state r); by right] end.
      eapply moved_trans; [exact Hm|]. apply moved_view, set_law.
  - unfold proposer_handler in Hrun. walk Hrun; simplify_eq; cbn.
    { split; [apply moves_same|]. eexists. by right. }
    all: match goal with Hs : proposer_chosen_handler _ _ _ _ _ _ _ = Some (_, _, _, _, ?st) |- _ => apply client_moves in Hs as Hm; split; [|exists st; by right] end.
    all: eapply moved_trans; [exact Hm|]; apply moved_view, set_law.
Qed.

Lemma paxos_process_tidy hz :
  tidy rs (paxos_process hz) (fun x => cores_bag io_bag x.2) (fun x => ios_ok a n_workers rs x.2).
Proof.
  intros [g ios] d m w ret [g' ios'] d' w' Hrun. unfold paxos_process in Hrun.
  apply bind_Some in Hrun as ([[[ret1 g1] d1] w1] & Hrun & [= <- <- <- <- <-]).
  apply run_worker_cb_moves in Hrun as [Hm (st & Hw)]. cbn [application] in Hm.
  split_and!; [by destruct Hw as [->| ->]..|]. intros Hok. apply (moved_conserves _ _ Hm Hok).
Qed.

(** ** Messages in the buffers of a worker *)

(** The buffers may get fuller than a burst here. *)
Definition full_wf w : Prop := outputs_wf (APP_MBUF_ARRAY_SIZE + 1) (worker_out w).

Definition same_core w w' : Prop :=
  rings (worker_out w') = rings (worker_out w) /\ rings_in w' = rings_in w /\ n_rings_in w' = n_rings_in w /\
  worker_mbuf_in w' = worker_mbuf_in w.

(** Messages are allocated and put in the buffers. *)
Definition sends (s s' : dev * worker) : Prop := full_wf s.2 ->
  full_wf s'.2 /\ same_core s.2 s'.2 /\
  forall other, conserved rs other (view_of s.1) (outs_bag (worker_out s.2)) ->
    conserved rs other (view_of s'.1) (outs_bag (worker_out s'.2)).

Lemma sends_trans s1 s2 s3 : sends s1 s2 -> sends s2 s3 -> sends s1 s3.
Proof.
  intros H1 H2 Hf. destruct (H1 Hf) as (Hf2 & (A1 & A2 & A3 & A4) & Hc1). destruct (H2 Hf2) as (Hf3 & (B1 & B2 & B3 & B4) & Hc2).
  split; [done|]. split; [split_and!; congruence|]. intros other Hc. by apply Hc2, Hc1.
Qed.

Definition quiet_step (s s' : dev * worker) : Prop :=
  view_of s'.1 = view_of s.1 /\ exists st, s'.2 = set_worker_paxos s.2 st.

Lemma sends_quiet s s' : quiet_step s s' -> sends s s'.
Proof. intros [Hv (st & Hw)] Hf. unfold full_wf, same_core. rewrite Hv, Hw. done. Qed.

Lemma quiet_view d d' w : view_of d' = view_of d -> quiet_step (d, w) (d', w).
Proof. intros Hv. split; [done|]. exists (worker_paxos w). by destruct w. Qed.

Lemma sends_view d d' w : view_of d' = view_of d -> sends (d, w) (d', w).
Proof. intros Hv. by apply sends_quiet, quiet_view. Qed.

Lemma push_out_spec w port m w' :
  full_wf w -> push_out w port m = Some w' ->
  full_wf w' /\ same_core w w' /\ outs_bag (worker_out w') = outs_bag (worker_out w) ⊎ bag [m].
Proof.
  intros (L1 & L2 & L3 & L4 & L5 & Hb) Hrun. unfold push_out in Hrun.
  apply bind_Some in Hrun as (b & Hget & Hrun). apply bind_Some in Hrun as (arr & Harr & Hrun).
  apply bind_Some in Hrun as (bs & Hbs & [= <-]). destruct (Hb _ _ Hget) as [Hlen Hn]. pose proof Harr as [Hin _]%arr_set_Some.
  unfold APP_MBUF_ARRAY_SIZE in *. rewrite u32_small in Hbs by lia. pose proof (arr_set_length _ _ _ _ Hbs) as Hbl.
  split; [|split; [done|]].
  - unfold full_wf, set_worker_out, APP_MBUF_ARRAY_SIZE. cbn [worker_out]. split_and!; cbn; [congruence|done..|].
    intros i x. rewrite (arr_get_set _ _ _ _ _ Hbs). case_decide; [|apply Hb]. intros [= <-]. cbn [array n_mbufs]. rewrite (arr_set_length _ _ _ _ Harr). unfold APP_MBUF_ARRAY_SIZE. lia.
  - pose proof (outs_bag_upd (worker_out w) (worker_out (set_worker_out w
      (Outputs (rings (worker_out w)) bs (mbuf_out_flush (worker_out w)) (rings_count (worker_out w)) (rings_drop (worker_out w))
         (rings_iters (worker_out w))))) port) as Hu.
    unfold held in Hu at 3 4. cbn [worker_out set_worker_out mbuf_out rings] in Hu |- *.
    rewrite Hget, (arr_get_set _ _ _ _ _ Hbs), decide_True in Hu by done. unfold held_buf in Hu. cbn [n_mbufs array] in Hu.
    rewrite (take_arr_set _ _ _ _ Harr), bag_app in Hu.
    assert (forall j, j <> port -> held (Outputs (rings (worker_out w)) bs (mbuf_out_flush (worker_out w)) (rings_count (worker_out w))
      (rings_drop (worker_out w)) (rings_iters (worker_out w))) j = held (worker_out w) j) as Hother.
    { intros j Hj. unfold held. cbn [mbuf_out]. by rewrite (arr_get_set _ _ _ _ _ Hbs), decide_False by done. }
    specialize (Hu eq_refl ltac:(rewrite <- L1; by eapply arr_get_lt) Hother). clear -Hu. multiset_solver.
Qed.

Lemma set_flush_quiet w port w' : set_flush w port = Some w' ->
  full_wf w -> full_wf w' /\ same_core w w' /\ outs_bag (worker_out w') = outs_bag (worker_out w).
Proof.
  unfold set_flush. intros (fl & Hfl & [= <-])%bind_Some (L1 & L2 & Hrest). split; [|done].
  unfold full_wf, set_worker_out. cbn [worker_out]. split; [done|]. split; [cbn; by rewrite (arr_set_length _ _ _ _ Hfl)|exact Hrest].
Qed.

Lemma sends_flush d w port w' : set_flush w port = Some w' -> sends (d, w) (d, w').
Proof.
  intros Hrun Hf. destruct (set_flush_quiet _ _ _ Hrun Hf) as (Hf' & Hs & Hb). split; [done|]. split; [done|]. cbn. by rewrite Hb.
Qed.

(** One message. *)
Lemma sends_one d pl m d1 d2 w w1 port w' :
  rte_pktmbuf_alloc d pl = (m, d1) -> quiet_step (d1, w) (d2, w1) -> push_out w1 port m = Some w' -> sends (d, w) (d2, w').
Proof.
  intros Ha [Hv (st & Hw)] Hp Hf. cbn [fst snd] in *. subst w1. destruct (push_out_spec (set_worker_paxos w st) _ _ _ Hf Hp) as (Hf' & Hs & Hb). split; [done|]. split; [done|].
  intros other Hc. rewrite Hv, Hb. by apply (alloc_conserves d pl m d1).
Qed.

(** As many messages as were allocated. *)
Lemma send_all_sends d pl n pkts d1 w port f s :
  rte_pktmbuf_alloc_bulk d pl n = (Some pkts, d1) ->
  (forall i d m w s, f i d m w = Some s -> quiet_step (d, w) s) ->
  send_all port n pkts f (d1, w) = Some s -> sends (d, w) s.
Proof.
  intros Ha Hf Hrun Hwf. apply alloc_bulk_view in Ha as [Hlen Hv]. unfold send_all in Hrun.
  apply (for_some (fun j s => full_wf s.2 /\ same_core w s.2 /\
    forall other, conserved rs other (view_of d) (outs_bag (worker_out w)) ->
      conserved rs (other ⊎ bag (drop (Z.to_nat j) pkts)) (view_of s.1) (outs_bag (worker_out s.2)))) in Hrun.
  - destruct Hrun as (Hf' & Hs & Hc). split; [done|]. split; [done|]. intros other Ho. specialize (Hc other Ho).
    rewrite drop_ge in Hc by lia. change (bag []) with (∅ : gmultiset Z) in Hc. by rewrite (right_id_L ∅ (⊎)) in Hc.
  - split; [done|]. split; [done|]. intros other Ho. cbn [fst snd]. change (Z.to_nat 0) with O. rewrite drop_0, Hv.
    unfold conserved, placed in *. cbn [obtained sent freed contents]. rewrite bag_app, Ho. multiset_solver.
  - intros j [d2 w2] s2 Hj (Hf2 & Hs2 & Hc2) Hstep. apply bind_Some in Hstep as (m & Hm & Hstep).
    apply bind_Some in Hstep as ([d3 w3] & [Hv3 (st & Hw3)]%Hf & Hstep). apply bind_Some in Hstep as (w4 & Hpush & [= <-]).
    cbn [fst snd] in *. subst w3. destruct (push_out_spec (set_worker_paxos w2 st) _ _ _ Hf2 Hpush) as (Hf4 & (B1 & B2 & B3 & B4) & Hb4).
    destruct Hs2 as (A1 & A2 & A3 & A4). split; [done|]. split; [cbn in *; split_and!; congruence|]. intros other Ho. specialize (Hc2 other Ho).
    apply arr_get_Some in Hm as [_ Hm]. rewrite (drop_S _ _ _ Hm), bag_cons in Hc2. replace (Z.to_nat (j + 1)) with (S (Z.to_nat j)) by lia.
    rewrite Hv3, Hb4. cbn [worker_out set_worker_paxos] in *. unfold conserved in *. rewrite Hc2. multiset_solver.
Qed.

(** *** The callbacks of the timers *)

Lemma quiet_paxos d d' w st : view_of d' = view_of d -> quiet_step (d, w) (d', set_worker_paxos w st).
Proof. intros Hv. split; [done|]. by exists st. Qed.

(** A message made in an allocated packet changes nothing else. *)
Lemma quiet_message c d m dst mtype inst rnd id req ts v size w s :
  (d ← message c d m dst mtype inst rnd id req ts v size; Some (d, w)) = Some s -> quiet_step (d, w) s.
Proof. intros (d' & Hm%message_view & [= <-])%bind_Some. by apply quiet_view. Qed.

Lemma send_prepare_sends c d w inst n v size s : send_prepare a c d w inst n v size = Some s -> sends (d, w) s.
Proof.
  unfold send_prepare. intros ([lc pl] & _ & Hrun)%bind_Some. destruct (rte_pktmbuf_alloc_bulk d pl n) as [[pkts|] d1] eqn:Ha.
  - eapply send_all_sends; [exact Ha| |exact Hrun]. intros i d2 m w2 s2. apply quiet_message.
  - injection Hrun as <-. by apply sends_view, (alloc_bulk_view _ _ _ _ _ Ha).
Qed.

Lemma fill_holes_sends c d w inst n v size s : fill_holes a c d w inst n v size = Some s -> sends (d, w) s.
Proof.
  unfold fill_holes. intros ([lc pl] & _ & Hrun)%bind_Some. destruct (rte_pktmbuf_alloc_bulk d pl n) as [[pkts|] d1] eqn:Ha; [|done].
  cbn [mbind option_bind] in Hrun. eapply send_all_sends; [exact Ha| |exact Hrun]. intros i d2 m w2 s2. apply quiet_message.
Qed.

Lemma check_holes_sends c d w s : learner_check_holes a c d w = Some s -> sends (d, w) s.
Proof.
  unfold learner_check_holes. intros (l & _ & Hrun)%bind_Some. destruct (learner_has_holes l) as [[from to]|].
  - eapply sends_trans; [apply sends_quiet; by apply (quiet_paxos d d w)|].
    destruct (negb _); [by eapply send_prepare_sends|by eapply fill_holes_sends].
  - injection Hrun as <-. by apply sends_quiet, quiet_paxos.
Qed.

Lemma timer_reset_view d lcore t n : view_of (rte_timer_reset d lcore t n).2 = view_of d.
Proof. apply (reset_view (T := T) (H := H) (CB := CB) (X := X)). Qed.

Lemma preexecute_sends c d w s : P4Timers.proposer_preexecute a c d w = Some s -> sends (d, w) s.
Proof.
  unfold P4Timers.proposer_preexecute. intros (p & _ & Hrun)%bind_Some. destruct (_ <=? 0); [injection Hrun as <-; by apply sends_view|].
  apply bind_Some in Hrun as ([lc pl] & _ & Hrun). destruct (rte_pktmbuf_alloc_bulk d pl _) as [[pkts|] d1] eqn:Ha.
  2: { injection Hrun as <-. by apply sends_view, (alloc_bulk_view _ _ _ _ _ Ha). }
  apply bind_Some in Hrun as ([d2 w2] & Hall & Hrun). apply bind_Some in Hrun as (w3 & Hfl & Hrun).
  pose proof (timer_reset_view d2 lc prepare_timer (hz a / LEADER_CHECK_TIMEOUT)) as Hr.
  destruct (rte_timer_reset d2 _ _ _) as [ret d3]. injection Hrun as <-.
  eapply sends_trans; [eapply send_all_sends; [exact Ha| |exact Hall]|].
  - intros i d4 m w4 s4 (p4 & _ & Hrun)%bind_Some. apply bind_Some in Hrun as ([p5 pr] & _ & Hrun).
    apply bind_Some in Hrun as (d5 & Hm%message_view & [= <-]). by apply quiet_paxos.
  - eapply sends_trans; [by eapply sends_flush|]. by apply sends_view.
Qed.

Lemma to_acceptor_sends c d w mtype b s : send_to_acceptor a c d w mtype b = Some s -> sends (d, w) s.
Proof.
  unfold send_to_acceptor. intros ([lc pl] & _ & Hrun)%bind_Some. destruct (rte_pktmbuf_alloc d pl) as [m d1] eqn:Ha.
  destruct (Z.eqb_spec m NULL) as [->|Hm].
  - injection Hrun as <-. apply sends_view. by apply alloc_law in Ha.
  - apply bind_Some in Hrun as (d2 & Hm2%message_view & Hrun). apply bind_Some in Hrun as (w2 & Hp & [= <-]).
    eapply sends_one; [exact Ha|by apply quiet_view|exact Hp].
Qed.

Lemma prepare_loop_sends fuel to c iter d w s : prepare_timeouts_loop fuel to a c iter d w = Some s -> sends (d, w) s.
Proof.
  revert iter d w. induction fuel as [|fuel IH]; intros iter d w Hrun; [done|]. cbn [prepare_timeouts_loop] in Hrun.
  apply bind_Some in Hrun as (p & _ & Hrun). destruct (timeout_iterator_prepare to iter p) as [[iter1 p1] [pr|]].
  - apply bind_Some in Hrun as ([d1 w1] & Hs%to_acceptor_sends & Hrun). eapply sends_trans; [apply sends_quiet; by apply quiet_paxos|].
    eapply sends_trans; [exact Hs|by eapply IH].
  - injection Hrun as <-. by apply sends_quiet, quiet_paxos.
Qed.

Lemma accept_loop_sends fuel to c iter d w s : accept_timeouts_loop fuel to a c iter d w = Some s -> sends (d, w) s.
Proof.
  revert iter d w. induction fuel as [|fuel IH]; intros iter d w Hrun; [done|]. cbn [accept_timeouts_loop] in Hrun.
  apply bind_Some in Hrun as (p & _ & Hrun). apply bind_Some in Hrun as ([[iter1 p1] [ar|]] & _ & Hrun).
  - apply bind_Some in Hrun as ([d1 w1] & Hs%to_acceptor_sends & Hrun). eapply sends_trans; [apply sends_quiet; by apply quiet_paxos|].
    eapply sends_trans; [exact Hs|by eapply IH].
  - injection Hrun as <-. by apply sends_quiet, quiet_paxos.
Qed.

Lemma prepare_timeouts_sends to c d w s : check_prepare_timeouts to a c d w = Some s -> sends (d, w) s.
Proof.
  unfold check_prepare_timeouts. intros (p & _ & Hrun)%bind_Some. apply bind_Some in Hrun as ([d1 w1] & Hl%prepare_loop_sends & Hrun).
  apply bind_Some in Hrun as (lc & _ & Hrun). pose proof (timer_reset_view d1 (default (-1) lc) prepare_timer (hz a / LEADER_CHECK_TIMEOUT)) as Hr.
  destruct (rte_timer_reset d1 _ _ _). injection Hrun as <-. eapply sends_trans; [exact Hl|by apply sends_view].
Qed.

Lemma accept_timeouts_sends to c d w s : check_accept_timeouts to a c d w = Some s -> sends (d, w) s.
Proof.
  unfold check_accept_timeouts. intros (p & _ & Hrun)%bind_Some. apply bind_Some in Hrun as ([d1 w1] & Hl%accept_loop_sends & Hrun).
  apply bind_Some in Hrun as (lc & _ & Hrun). pose proof (timer_reset_view d1 (default (-1) lc) accept_timer (hz a / LEADER_CHECK_TIMEOUT)) as Hr.
  destruct (rte_timer_reset d1 _ _ _). injection Hrun as <-. eapply sends_trans; [exact Hl|by apply sends_view].
Qed.

Lemma submit_bulk_sends c d w id n v size s : submit_bulk a c d w id n v size = Some s -> sends (d, w) s.
Proof.
  unfold submit_bulk. intros ([lc pl] & _ & Hrun)%bind_Some. destruct (rte_pktmbuf_alloc_bulk d pl n) as [[pkts|] d1] eqn:Ha.
  2: { injection Hrun as <-. by apply sends_view, (alloc_bulk_view _ _ _ _ _ Ha). }
  apply bind_Some in Hrun as ([d2 w2] & Hall & Hrun). apply bind_Some in Hrun as (w3 & Hfl & [= <-]).
  eapply sends_trans; [eapply send_all_sends; [exact Ha| |exact Hall]|by eapply sends_flush].
  intros i d3 m w4 s4 Hrun. cbn beta in Hrun. pose proof (cycles_view (T := T) (H := H) (CB := CB) (X := X) d3) as Hv.
  destruct (rte_get_timer_cycles d3) as [ts d4]. cbv zeta in Hrun. apply quiet_message in Hrun as [Hv4 Hw4]. split; [|done]. cbn [fst snd] in *. congruence.
Qed.

(** ** The steps of a node *)

Notation plane := (plane (P := state) (G := globals X)).

(** The callbacks that put messages in the buffers of their worker, and the first
    requests of a client. *)
Definition worker_timer (to : Z) c d w (s : dev * worker) : Prop :=
  learner_check_holes a c d w = Some s \/ pre_execute_prepare a c d w = Some s \/
  check_prepare_timeouts to a c d w = Some s \/ check_accept_timeouts to a c d w = Some s \/
  exists id v size, submit_bulk a c d w id (osd c) v size = Some s.

(** No buffer has a whole burst; see [overfull_buffer_loses] for what happens otherwise. *)
Definition room_left w : Prop := outputs_wf (burst_size_worker_write a) (worker_out w).

(** The statistics touch counters of the workers and of the application. *)
Inductive timer_step (to : Z) : plane -> plane -> Prop :=
  | timer_worker g d ios ws i w d' w' :
      ws !! i = Some w -> worker_timer to (conf g) d w (d', w') -> room_left w' ->
      timer_step to (Plane g d ios ws) (Plane g d' ios (<[i := w']> ws))
  | timer_checkpoint g d ios ws i w j io d' io' w' :
      ws !! i = Some w -> ios !! j = Some io -> timer_send_checkpoint a (conf g) d io w = Some (d', io', w') -> room_left w' ->
      timer_step to (Plane g d ios ws) (Plane g d' (<[j := io']> ios) (<[i := w']> ws))
  | timer_stat g d ios ws x ws' :
      Forall2 (fun w w' => exists st, w' = set_worker_paxos w st) ws ws' ->
      timer_step to (Plane g d ios ws) (Plane (Globals (conf g) x) d ios ws').

Definition node_step (to hz : Z) (s s' : plane) : Prop :=
  plane_step (paxos_process hz) a n_workers s s' \/ timer_step to s s'.

Lemma worker_timer_sends to c d w s : worker_timer to c d w s -> sends (d, w) s.
Proof.
  intros [Hr|[Hr|[Hr|[Hr|(id & v & size & Hr)]]]];
    [by eapply check_holes_sends|by eapply preexecute_sends|by eapply prepare_timeouts_sends|by eapply accept_timeouts_sends
    |by eapply submit_bulk_sends].
Qed.

Lemma room_full w : bursts_ok a -> room_left w -> full_wf w.
Proof.
  intros (_ & _ & _ & _ & Hb) (L1 & L2 & L3 & L4 & L5 & Hw). unfold full_wf. split_and!; [done..|].
  intros i b Hi. destruct (Hw i b Hi). unfold APP_MBUF_ARRAY_SIZE in *. lia.
Qed.

Lemma sends_worker_ok d w d' w' : bursts_ok a -> worker_ok a rs w -> sends (d, w) (d', w') -> room_left w' ->
  worker_ok a rs w' /\
  forall other, conserved rs other (view_of d) (outs_bag (worker_out w)) -> conserved rs other (view_of d') (outs_bag (worker_out w')).
Proof.
  intros Hb (Hwf & Hin & Hri & Hmi) Hs Hroom. destruct (Hs (room_full _ Hb Hwf)) as (_ & (A1 & A2 & A3 & A4) & Hc). cbn [fst snd] in *.
  split; [|done]. split; [done|]. unfold outs_in in *. by rewrite A1, A2, A4.
Qed.

Lemma stat_bag ws ws' : Forall2 (fun w w' => exists st, w' = set_worker_paxos w st) ws ws' ->
  cores_bag (fun w => outs_bag (worker_out w)) ws' = cores_bag (fun w => outs_bag (worker_out w)) ws.
Proof. induction 1 as [|w w' ws ws' (st & ->) _ IH]; [done|]. unfold cores_bag in *. cbn [foldr]. by rewrite IH. Qed.

Lemma checkpoint_timer_split c d io w d' io' w' : timer_send_checkpoint a c d io w = Some (d', io', w') ->
  exists d1 n, send_checkpoint_message a c d io w n = Some (d1, io') /\ sends (d1, w) (d', w').
Proof.
  unfold timer_send_checkpoint. intros (l & _ & Hrun)%bind_Some. apply bind_Some in Hrun as ([d1 io1] & Hs & Hrun).
  exists d1, (u32 (learner_get_instance_id l - 1)). destruct (negb _).
  - apply bind_Some in Hrun as ([d2 w2] & Hp%preexecute_sends & [= <- <- <-]). done.
  - injection Hrun as <- <- <-. split; [done|]. by apply sends_view.
Qed.

Lemma timer_step_conserves to s s' :
  bursts_ok a -> timer_step to s s' -> plane_ok a n_workers rs s -> one_place rs s -> plane_ok a n_workers rs s' /\ one_place rs s'.
Proof.
  intros Hb Hstep Hok Hp. destruct Hstep as [g d ios ws i w d' w' Hi Hrun%worker_timer_sends Hroom
    |g d ios ws i w j io d' io' w' Hi Hj (d1 & n & Hsend & Hs)%checkpoint_timer_split Hroom|g d ios ws x ws' Hall].
  - destruct (sends_worker_ok _ _ _ _ Hb (proj2 Hok _ _ Hi) Hrun Hroom) as [Hw' Hc'].
    destruct (plane_worker rs _ _ _ _ _ _ Hi Hp) as (rest & Hc & Hback). apply conserved_shift in Hc. apply Hc' in Hc.
    split; [by eapply plane_ok_worker; [|apply Hok|]|]. apply Hback, conserved_shift, Hc.
  - destruct (sends_worker_ok _ _ _ _ Hb (proj2 Hok _ _ Hi) Hs Hroom) as [Hw' Hc'].
    destruct (checkpoint_ios _ _ _ _ _ _ _ _ _ _ (proj1 Hok) Hj Hsend) as [Hios Hc1].
    destruct (plane_worker rs _ _ _ _ _ _ Hi Hp) as (rest & Hc & Hback). apply conserved_side, Hc1, conserved_side, conserved_shift, Hc' in Hc.
    split; [by eapply plane_ok_worker|]. apply Hback, conserved_shift, Hc.
  - split.
    + split; [apply Hok|]. intros i w' Hi. destruct (Forall2_lookup_r _ _ _ _ _ Hall Hi) as (w & Hw & st & ->). apply (proj2 Hok _ _ Hw).
    + unfold one_place, buffered in *. cbn [pl_dev pl_ios pl_workers] in *. by rewrite (stat_bag _ _ Hall).
Qed.

(** C14. A node whose workers run the Paxos handlers keeps every packet in exactly one
    place.  The steps are the calls of the main loops on any core and the callbacks
    of the timers, in any order; the packets are those read from a card and those
    allocated for messages.  After any number of steps the multiset of the packets
    that were obtained is that of the packets sent, freed, in a ring of [rs] or in a
    buffer of a core, and the buffers are well-formed still.

    It is assumed that a card takes a burst whole or not at all, and hands out no
    packet the program has ([DpdkPool]); that the delivery callback does nothing with
    packets but to send checkpoint messages ([P4EnvLaws]); that the rings are distinct
    and the sizes of the bursts in range; that a timer leaves room in the buffers of
    its worker ([room_left]); and that a call on one core is not interrupted by another
    core: the code lets a worker write in a buffer of an I/O core without
    synchronisation. *)
Theorem paxos_plane_conserves to hz s s' :
  NoDup rs -> bursts_ok a -> plane_ok a n_workers rs s -> one_place rs s -> rtc (node_step to hz) s s' ->
  plane_ok a n_workers rs s' /\ one_place rs s'.
Proof.
  intros Hrs Hb Hok Hp Hsteps. induction Hsteps as [s|s s1 s2 [Hstep|Hstep] _ IH]; [done|..].
  - destruct (plane_step_conserves (paxos_process hz) a n_workers rs s s1) as [Hok1 Hp1]; [done|apply paxos_process_tidy|done..|by apply IH].
  - destruct (timer_step_conserves to s s1) as [Hok1 Hp1]; [done..|by apply IH].
Qed.

End plane.

(** ** A buffer that has more than a burst

    [buffer_to_send] sends a burst and forgets what is behind it. *)

Definition sim_full : outputs :=
  Outputs [1] [AppMbufArray ([10; 11; 12] ++ replicate 509 0) 3] [0] [0] [0] [0].
Definition sim_full_dev : sim_dev := SimDev (View [10; 11; 12; 13] [] [] (fun _ => [])) ∅ [] 1 0.

Lemma overfull_buffer_loses :
  exists d' o', @buffer_to_send (sim false) (fun ret => 0 <? ret) sim_full_dev sim_full 0 13 2 = Some (d', o') /\
    held o' 0 = [] /\ contents (sim_view d') 1 = [10; 11] /\ sent (sim_view d') = [] /\ freed (sim_view d') = [].
Proof. eexists _, _. split; [vm_compute; reflexivity|]. by vm_compute. Qed.

(** ** Witness: a value is delivered, and the checkpoint timer runs *)

Notation sim_state := (worker_state Khash.khash (mem_storage Khash.khash) unit).

Definition sim_plane_conf : p4xos_configuration :=
  P4xosConfiguration 0 0 0 0 0 zero_sockaddr zero_sockaddr zero_sockaddr zero_sockaddr zero_sockaddr
    0 0 0 0 0 0 0 0 0 1 0 0 0 0 None.

(** Core 0 sends to port 0. *)
Definition sim_plane_app : app_params sim_state :=
  let t := tx (@zero_io (sim false)) in
  let io := AppLcoreParamsIo (rx (@zero_io (sim false)))
              (IoTx (tx_rings t) (nic_ports t) 1 (tx_mbuf_out t) (tx_mbuf_out_flush t) (nic_ports_count t) (nic_ports_iters t)) in
  let a := @zero_app (sim false) sim_state in
  AppParams (AppLcoreParams (e_APP_LCORE_IO io) 0 :: replicate 3 (AppLcoreParams e_APP_LCORE_DISABLED 0)) (nic_rx_queue_mask a)
    (nic_tx_port_mask a) (pools a) (lpm_tables a) (lpm_rules a) (n_lpm_rules a) 0 0 0 0 32 2 2 2 1 2 29 (p4xos_conf a) 0 false
    (map_worker_lcore a) (map_lcore_worker a).

(** The callback sends a checkpoint message for every value. *)
Definition sim_checkpoint (d : sim_dev) (io : app_lcore_params_io) (n : Z) : option (sim_dev * app_lcore_params_io) :=
  @send_checkpoint_message (sim false) sim_eth Khash.khash (mem_storage Khash.khash) unit _ sim_env sim_plane_app sim_plane_conf
    d io (sim_worker None None) n.

#[local] Instance sim_ios_env : @P4Env (sim false) unit (with_ios (list (Z * Z * option (list byte)))) := {|
  rte_timer_init d _ _ := d : @dev (sim false);
  rte_timer_reset d _ _ _ := (0, d);
  rte_timer_subsystem_init d := d;
  rte_get_timer_hz := 1000;
  gettimeofday _ := {| tv_sec := 0; tv_usec := 0 |};
  freed_iid _ := 0;
  latency_line _ _ _ := 10;
  call _ x d id i v _ :=
    io ← x.2 !! 0%nat;
    '(d, io) ← sim_checkpoint d io i;
    Some ((x.1 ++ [(id, i, v)], <[0%nat := io]> x.2), d, v);
|}.

Lemma sim_ios_laws : @P4EnvLaws (sim false) (sim_laws false) sim_eth Khash.khash (mem_storage Khash.khash) unit _ sim_ios_env.
Proof.
  constructor; [|done|done]. intros cb x ios d id iid v n x' ios' d' v' Hrun. cbn [call sim_ios_env fst snd] in Hrun.
  apply bind_Some in Hrun as (io & Hio & Hrun). apply bind_Some in Hrun as ([d1 io1] & Hs & [= <- <- <- <-]).
  by eapply moved_checkpoint.
Qed.

Definition sim_plane_worker : app_lcore_params_worker sim_state :=
  let w := sim_worker (Some (learner_new 1 3)) (Some sim_acc0) in
  AppLcoreParamsWorker (1 :: replicate 15 0) 1 (worker_out w) (lpm_table w) 0 0 (worker_mbuf_in w) (worker_paxos w).

Definition sim_chosen : sim_dev :=
  SimDev (View [10] [] [] (set_contents (fun _ => []) 1 [10])) {[10 := sim_msg PAXOS_CHOSEN 1 3 (sim_value x61)]} [] 1 0.

Definition sim_running : @plane (sim false) sim_state (globals (list (Z * Z * option (list byte)))) :=
  Plane (Globals sim_plane_conf []) (sim_chosen : @dev (sim false)) [sim_rx_core] [sim_plane_worker].

Lemma sim_running_ok : @plane_ok (sim false) _ _ sim_plane_app 2 [1; 2] sim_running.
Proof.
  split; [exact (proj1 sim_plane_ok)|]. intros [|i] w Hi; [|done]. injection Hi as <-. split_and!.
  - split_and!; [done..|]. intros i b [_ Hb]%arr_get_Some. change (mbuf_out (worker_out sim_plane_worker)) with (replicate 2 zero_mbuf_array) in Hb. apply lookup_replicate in Hb as [-> _]. by split.
  - intros i r [_ Hr]%arr_get_Some Hnull. change (rings (worker_out sim_plane_worker)) with (replicate 2 0) in Hr. by apply lookup_replicate in Hr as [-> _].
  - intros i r [_ Hr]%arr_get_Some Hnull. destruct (Z.to_nat i) as [|k]; [injection Hr as <-; by left|].
    change (replicate 15 0 !! k = Some r) in Hr. by apply lookup_replicate in Hr as [-> _].
  - done.
Qed.

Lemma sim_running_place : @one_place (sim false) (sim_laws false) _ _ [1; 2] sim_running.
Proof. vm_compute. reflexivity. Qed.

(** The value of packet 10 is delivered, the callback sends packet 1001, the timer packet 1002. *)
Lemma sim_running_steps : exists d1 io1 w1 d2 io2 w2 g1,
  app_lcore_worker (@paxos_process (sim false) sim_eth _ _ _ _ unit _ sim_ios_env 1000) (pl_shared sim_running, pl_ios sim_running) (sim_chosen : @dev (sim false))
    sim_plane_worker 1 2 = Some ((g1, [io1]), d1, w1) /\
  @timer_send_checkpoint (sim false) sim_eth _ _ (mem_storage Khash.khash) unit _ sim_ios_env sim_plane_app (conf g1) d1 io1 w1 = Some (d2, io2, w2) /\
  obtained (sim_view d2) = [10; 1001; 1002] /\ held (worker_out w2) 0 = [10] /\ tx_held (tx io2) 0 = [1001; 1002] /\
  worker_out w2 = worker_out w1 /\ application g1 = [(0, 1, Some (sim_value x61))].
Proof. do 7 eexists. split; [vm_compute; reflexivity|]. split; [vm_compute; reflexivity|]. vm_compute. done. Qed.

Lemma paxos_plane_conserves_witness :
  exists s' : @plane (sim false) sim_state (globals (list (Z * Z * option (list byte)))),
    @one_place (sim false) (sim_laws false) _ _ [1; 2] s' /\
    obtained (sim_view (pl_dev s')) = [10; 1001; 1002] /\ map (fun io => tx_held (tx io) 0) (pl_ios s') = [[1001; 1002]] /\
    map (fun w => held (worker_out w) 0) (pl_workers s') = [[10]] /\ application (pl_shared s') = [(0, 1, Some (sim_value x61))].
Proof.
  destruct sim_running_steps as (d1 & io1 & w1 & d2 & io2 & w2 & g1 & Hrun1 & Hrun2 & Hob & Hw & Hio & Hout & Happ).
  assert (@bursts_ok sim_state sim_plane_app) as Hb by (unfold bursts_ok, APP_MBUF_ARRAY_SIZE; simpl; lia).
  assert (NoDup [1; 2]) as Hrs by (by apply (bool_decide_unpack _); vm_compute).
  pose proof (@step_worker (sim false) _ _ _ sim_plane_app 2 _ _ _ [sim_plane_worker] 0%nat sim_plane_worker _ _ _ _ eq_refl Hrun1) as Hstep1.
  destruct (@plane_step_conserves (sim false) (sim_laws false) sim_pool _ _ _ sim_plane_app 2 [1; 2] _ _ Hrs
    (@paxos_process_tidy (sim false) (sim_laws false) sim_pool sim_eth _ _ _ _ _ _ sim_ios_env sim_ios_laws [1; 2] sim_plane_app 2 1000) Hb
    Hstep1 sim_running_ok sim_running_place) as [[_ Hok1] _].
  exists (@Plane (sim false) _ _ g1 d2 [io2] [w2]). split; [|rewrite <- Hob, <- Hw, <- Hio; by split_and!].
  apply (@paxos_plane_conserves (sim false) (sim_laws false) sim_pool sim_eth _ _ _ _ _ _ sim_ios_env sim_ios_laws [1; 2] sim_plane_app 2 1 1000
    sim_running (@Plane (sim false) _ _ g1 d2 [io2] [w2]) Hrs Hb sim_running_ok sim_running_place).
  eapply rtc_l; [left; exact Hstep1|]. apply rtc_once. right.
  apply (@timer_checkpoint (sim false) sim_eth _ _ _ _ _ sim_ios_env sim_plane_app 1 g1 d1 [io1] [w1] 0%nat w1 0%nat io1 d2 io2 w2 eq_refl eq_refl Hrun2).
  unfold room_left. rewrite Hout. apply (Hok1 0%nat w1 eq_refl).
Defined.
