(* ===== verification/P4Programs.v ===== *)
(** * The programs of the data plane ([dppaxos/src])

    What the acceptor and the leader programs make of their workers, and what a
    worker does when a message reaches a role its program did not initialise; the
    requests of a learner that misses instances. *)

From S2P Require Import Prelude Bytes PaxosTypes KhashInterface KhashResize Carray Quorum EvConfig Storage Acceptor Proposer Learner P4Packet P4Dpdk P4Sim P4App P4Runtime P4Conserve P4Worker P4Timers P4Replica.

Section programs.
Context {D : Dpdk} {E : Eth} `{KH : KHash T} `{SA : StorageApi H} {CB X : Type} {EN : P4Env CB X}.
Notation state := (worker_state T H CB).
Notation worker := (app_lcore_params_worker state).
Implicit Types (a : app_params state) (d : dev) (w : worker).

Definition worker_on a (lcore : Z) w : Prop :=
  exists lp, arr_get (lcore_params a) lcore = Some lp /\ lcore_is lp = e_APP_LCORE_WORKER w.

Definition all_lcores a : Prop := Z.of_nat (length (lcore_params a)) = APP_MAX_LCORES.

(** Every worker after a loop over the workers comes from the body of the loop. *)
Lemma for_workers_at {S : Type} (f : Z -> S -> worker -> option (S * worker)) s a s' a' :
  all_lcores a -> for_workers f s a = Some (s', a') ->
  all_lcores a' /\
  forall lcore w', worker_on a' lcore w' -> exists w s1 s2, worker_on a lcore w /\ f lcore s1 w = Some (s2, w').
Proof.
  intros Hall Hrun. unfold for_workers in Hrun.
  pose proof (for_some (fun j (sa : S * app_params state) => all_lcores sa.2 /\
    forall lcore w', worker_on sa.2 lcore w' ->
      if lcore <? j then exists w s1 s2, worker_on a lcore w /\ f lcore s1 w = Some (s2, w') else worker_on a lcore w')
    n_lcores 0 _ (s, a) (s', a') Hrun) as Hinv. cbn [snd] in Hinv.
  destruct Hinv as [Hall' Hat].
  - split; [done|]. intros lcore w' Hw. destruct (Z.ltb_spec lcore 0) as [Hlt|]; [|done].
    destruct Hw as (lp & Hlp & _). apply arr_get_lt in Hlp. lia.
  - intros j [s1 a1] [s2 a2] Hj [Hall1 Hat1] Hstep. cbn [snd] in *.
    apply bind_Some in Hstep as (lp & Hlp & Hstep).
    assert (forall a2, a2 = a1 -> (forall w, worker_on a1 j w -> False) -> all_lcores a2 /\ forall lcore w', worker_on a2 lcore w' ->
      if lcore <? j + 1 then exists w s1 s2, worker_on a lcore w /\ f lcore s1 w = Some (s2, w') else worker_on a lcore w') as Hskip.
    { intros a3 -> Hno. split; [done|]. intros lcore w' Hw. pose proof (Hat1 lcore w' Hw) as Hx.
      destruct (decide (lcore = j)) as [->|Hne]; [by destruct (Hno w')|].
      destruct (Z.ltb_spec lcore j), (Z.ltb_spec lcore (j + 1)); try done; lia. }
    destruct (lcore_is lp) as [|io|w] eqn:Hu.
    + injection Hstep as <- <-. apply Hskip; [done|]. intros w (lp' & Hlp' & Hw'). congruence.
    + injection Hstep as <- <-. apply Hskip; [done|]. intros w (lp' & Hlp' & Hw'). congruence.
    + apply bind_Some in Hstep as ([s3 w3] & Hf & Hstep). apply bind_Some in Hstep as (a3 & Ha3 & [= <- <-]).
      destruct (set_lcore_runs a1 j lp (e_APP_LCORE_WORKER w3) Hlp) as (a3' & Ha3' & _ & Hl & Hget).
      assert (a3' = a3) as -> by congruence. split; [unfold all_lcores in *; by rewrite Hl|].
      intros lcore w' (lp' & Hlp' & Hw'). rewrite Hget in Hlp'. destruct (decide (j = lcore)) as [<-|Hne].
      * injection Hlp' as <-. cbn in Hw'. injection Hw' as <-. rewrite (proj2 (Z.ltb_lt j (j + 1))) by lia.
        assert (worker_on a1 j w) as Hwa by (by exists lp). pose proof (Hat1 j w Hwa) as Hx. rewrite Z.ltb_irrefl in Hx.
        by exists w, s1, s3.
      * pose proof (Hat1 lcore w' (ex_intro _ lp' (conj Hlp' Hw'))) as Hx.
        destruct (Z.ltb_spec lcore j), (Z.ltb_spec lcore (j + 1)); try done; lia.
  - split; [done|]. intros lcore w' Hw. specialize (Hat lcore w' Hw).
    rewrite (proj2 (Z.ltb_lt _ _)) in Hat; [done|]. destruct Hw as (lp & Hlp%arr_get_lt & _).
    unfold all_lcores, n_lcores in *. lia.
Qed.

(** ** Roles that are not initialised *)

Lemma set_worker_callback_at cb a a' :
  all_lcores a -> app_set_worker_callback cb a = Some a' ->
  forall lcore w', worker_on a' lcore w' -> exists w, worker_on a lcore w /\
    w' = set_worker_paxos w (set_callbacks (worker_paxos w) (deliver (worker_paxos w)) (Some cb)).
Proof.
  intros Hall ([u a1] & Hrun & [= <-])%bind_Some. destruct (for_workers_at _ _ _ _ _ Hall Hrun) as [_ Hat].
  intros lcore w' Hw. destruct (Hat lcore w' Hw) as (w & s1 & s2 & Hwa & [= _ <-]). by exists w.
Qed.

Lemma set_stat_callback_at d a d' a' :
  app_set_stat_callback d a = Some (d', a') -> forall lcore w, worker_on a' lcore w -> worker_on a lcore w.
Proof.
  unfold app_set_stat_callback. intros (lcore & _ & Hrun)%bind_Some. destruct lcore as [lcore|].
  - destruct (rte_timer_reset _ _ _ _) as [ret d1]. by injection Hrun as _ <-.
  - by injection Hrun as _ <-.
Qed.

Lemma dpdk_acceptor_at storage_init d a d' a' :
  all_lcores a -> dpdk_acceptor storage_init d a = Some (d', a') ->
  forall lcore w', worker_on a' lcore w' -> exists w, worker_on a lcore w /\
    wk_learner (worker_paxos w') = wk_learner (worker_paxos w) /\
    wk_proposer (worker_paxos w') = wk_proposer (worker_paxos w) /\ process_pkt (worker_paxos w') = Some replica_cb.
Proof.
  intros Hall (a1 & Ha1 & Hrun)%bind_Some. apply bind_Some in Hrun as (a2 & Ha2 & Hrun).
  apply bind_Some in Ha1 as ([u a1'] & Hfor & [= <-]). destruct (for_workers_at _ _ _ _ _ Hall Hfor) as [Hall1 Hat1].
  intros lcore w' Hw. apply (set_stat_callback_at _ _ _ _ Hrun) in Hw.
  destruct (set_worker_callback_at _ _ _ Hall1 Ha2 lcore w' Hw) as (w2 & Hw2 & ->).
  destruct (Hat1 lcore w2 Hw2) as (w1 & s1 & s2 & Hw1 & Hbody).
  apply bind_Some in Hbody as (acc & _ & [= _ <-]). by exists w1.
Qed.

(** The program of an acceptor does not create a learner, and the handler of
    prepare requests asks the learner for its highest instance when the acceptor
    refuses: so one prepare request for an instance that is trimmed, such as
    instance 0, ends the program by the use of a NULL pointer. *)
Theorem acceptor_program_crashes storage_init d a d' a' lcore w hz g d2 m pkt src h acc :
  all_lcores a -> (forall lcore w, worker_on a lcore w -> wk_learner (worker_paxos w) = None) ->
  dpdk_acceptor storage_init d a = Some (d', a') -> worker_on a' lcore w -> wk_acceptor (worker_paxos w) = Some acc ->
  mbuf_get d2 m = Some pkt -> paxos_packet pkt src h -> px_msgtype h = PREPARE -> px_inst h <= acc_trim_iid acc ->
  run_worker_cb (X := X) hz g d2 m w = None.
Proof.
  intros Hall Hfresh Hrun Hw Hacc Hget Hpkt Hty Htrim.
  destruct (dpdk_acceptor_at _ _ _ _ _ Hall Hrun lcore w Hw) as (w0 & Hw0 & Hl & _ & Hcb).
  rewrite (Hfresh _ _ Hw0) in Hl. unfold run_worker_cb. rewrite Hcb. cbn [mbind option_bind].
  apply (replica_crashes _ _ _ _ _ _ _ Hget Hpkt). rewrite (switch_prepare _ _ _ _ _ _ _ Hty). unfold prepare_handler.
  change (wk_acceptor (paxos_stats pkt (worker_paxos w))) with (wk_acceptor (worker_paxos w)). rewrite Hacc. cbn [mbind option_bind].
  unfold acceptor_receive_prepare. cbn [iid]. rewrite (proj2 (Z.leb_le _ _) Htrim). cbn.  by rewrite Hl.
Qed.

(** ** The ballots of two leaders *)

Lemma dpdk_leader_at d a d' a' :
  all_lcores a -> dpdk_leader d a = Some (d', a') ->
  forall lcore w', worker_on a' lcore w' -> exists p n, wk_proposer (worker_paxos w') = Some p /\ proposer_new lcore n = Some p.
Proof.
  intros Hall ([d1 a1] & Hfor & Hrun)%bind_Some. apply bind_Some in Hrun as (a2 & Ha2 & Hrun).
  destruct (for_workers_at _ _ _ _ _ Hall Hfor) as [Hall1 Hat1].
  intros lcore w' Hw. apply (set_stat_callback_at _ _ _ _ Hrun) in Hw.
  destruct (set_worker_callback_at _ _ _ Hall1 Ha2 lcore w' Hw) as (w2 & Hw2 & ->).
  destruct (Hat1 lcore w2 Hw2) as (w1 & s1 & s2 & Hw1 & Hbody). apply bind_Some in Hbody as (p & Hp & Hbody).
  cbv zeta in Hbody. repeat match type of Hbody with match ?x with _ => _ end = _ => destruct x end.
  injection Hbody as _ <-. by exists p, (num_acceptors (p4xos_conf a)).
Qed.

Lemma first_prepare lcore n p now :
  0 <= lcore -> proposer_new (T := T) lcore n = Some p ->
  exists p', proposer_prepare p now =
    Some (p', {| iid := 1; ballot := u16 (u32 (MAX_N_OF_PROPOSERS + lcore)); value_ballot := 0; aid := 0; value := null_value |}).
Proof.
  intros Hl (vs & _ & [= <-])%bind_Some. unfold proposer_prepare. cbn [next_prepare_iid prop_id prop_acceptors prepare_instances].
  change (u32 (0 + 1)) with 1. unfold proposer_next_ballot. change (0 <? 0) with false. cbn [prop_id].
  unfold Proposer.instance_new. cbn [assert_ mbind option_bind]. change (0 <? 1) with true. cbn [assert_ mbind option_bind].
  match goal with |- context [kh_put kh_init 1 ?v] => destruct (kh_put_total kh_init 1 v kh_init_wf) as [[[h k] rv] Hput] end.
  { lia. }
  { rewrite kh_size_map, kh_map_init, map_size_empty by apply kh_init_wf. done. }
  rewrite Hput. cbn [mbind option_bind].
  assert (is_u32 1) as Hu by lia. destruct (kh_map_put _ _ _ _ _ _ kh_init_wf Hu Hput) as (_ & _ & _ & Hrv & Hrv0).
  rewrite kh_map_init, lookup_empty in Hrv0.
  destruct (Z.ltb_spec 0 rv) as [Hlt|Hge].
  - cbn [assert_ mbind option_bind]. by eexists.
  - assert (rv = 0) as Hz by lia. apply Hrv0 in Hz. by destruct Hz.
Qed.

(** A leader numbers its ballots by the core of the worker, not by its node.  So
    two nodes that run the leader's program with a worker on the same core
    begin with the same ballot for the same instance, whatever their node
    identifiers are: nothing keeps the values they propose at that ballot the
    same. *)
Theorem leaders_share_ballots d1 a1 d1' a1' d2 a2 d2' a2' lcore w1 w2 now1 now2 :
  all_lcores a1 -> all_lcores a2 -> dpdk_leader d1 a1 = Some (d1', a1') -> dpdk_leader d2 a2 = Some (d2', a2') ->
  worker_on a1' lcore w1 -> worker_on a2' lcore w2 ->
  exists p1 p2 p1' p2' pr, wk_proposer (worker_paxos w1) = Some p1 /\ wk_proposer (worker_paxos w2) = Some p2 /\
    proposer_prepare p1 now1 = Some (p1', pr) /\ proposer_prepare p2 now2 = Some (p2', pr) /\ iid pr = 1.
Proof.
  intros Hall1 Hall2 Hrun1 Hrun2 Hw1 Hw2.
  assert (0 <= lcore) as Hpos by (destruct Hw1 as (lp & Hlp%arr_get_lt & _); lia).
  destruct (dpdk_leader_at _ _ _ _ Hall1 Hrun1 lcore w1 Hw1) as (p1 & n1 & Hp1 & Hnew1).
  destruct (dpdk_leader_at _ _ _ _ Hall2 Hrun2 lcore w2 Hw2) as (p2 & n2 & Hp2 & Hnew2).
  destruct (first_prepare lcore n1 p1 now1 Hpos Hnew1) as (p1' & Hr1).
  destruct (first_prepare lcore n2 p2 now2 Hpos Hnew2) as (p2' & Hr2).
  eexists p1, p2, p1', p2', _. done.
Qed.
End programs.

(** ** The instances a learner misses *)

(** [rte_pktmbuf_alloc_bulk] gives different packets, with room for a message. *)
Class P4AllocLaws `{DL : DpdkLaws} := {
  alloc_bulk_law d pl n l d' :
    rte_pktmbuf_alloc_bulk d pl n = (Some l, d') ->
    Z.of_nat (length l) = Z.max 0 n /\ NoDup l /\
    forall m, m ∈ l -> exists p, mbuf_get d' m = Some p /\ 78 <= Z.of_nat (length (data p));
}.

Section holes.
Context {D : Dpdk} {DL : DpdkLaws} {AL : P4AllocLaws} {E : Eth} {EL : EthLaws}.
Context `{KH : KHash T} `{SA : StorageApi H} {CB X : Type} {EN : P4Env CB X}.
Notation state := (worker_state T H CB).
Notation worker := (app_lcore_params_worker state).
Implicit Types (a : app_params state) (c : p4xos_configuration) (d : dev) (w : worker).

(** The output buffer of [port] has [k] free places. *)
Definition has_room w (port k : Z) : Prop :=
  exists b, arr_get (mbuf_out (worker_out w)) port = Some b /\ 0 <= n_mbufs b /\ 0 <= k /\
    n_mbufs b + k <= APP_MBUF_ARRAY_SIZE /\ Z.of_nat (length (array b)) = APP_MBUF_ARRAY_SIZE.

Lemma push_out_runs w port m k :
  has_room w port (k + 1) -> 0 <= k ->
  exists w', push_out w port m = Some w' /\ has_room w' port k /\
    held (worker_out w') port = held (worker_out w) port ++ [m] /\
    worker_id w' = worker_id w /\ worker_paxos w' = worker_paxos w.
Proof.
  unfold APP_MBUF_ARRAY_SIZE. intros (b & Hb & Hn & _ & Hk & Hlen) Hk0. unfold push_out. rewrite Hb. cbn [mbind option_bind].
  destruct (arr_set_at (array b) (n_mbufs b) m) as (arr & Harr & Hla & _); [unfold APP_MBUF_ARRAY_SIZE in *; lia|].
  rewrite Harr. cbn [mbind option_bind]. pose proof (arr_get_lt _ _ _ Hb) as Hport.
  assert (u32 (n_mbufs b + 1) = n_mbufs b + 1) as Hu by (apply Z.mod_small; unfold APP_MBUF_ARRAY_SIZE in *; lia).
  rewrite Hu. destruct (arr_set_at (mbuf_out (worker_out w)) port (AppMbufArray arr (n_mbufs b + 1))) as (bs & Hbs & _ & Hget); [done|].
  rewrite Hbs. cbn [mbind option_bind]. eexists. split; [done|].
  assert (arr_get bs port = Some (AppMbufArray arr (n_mbufs b + 1))) as Hbp by (by rewrite Hget, decide_True).
  split; [|split].
  - exists (AppMbufArray arr (n_mbufs b + 1)). cbn. rewrite Hla. unfold APP_MBUF_ARRAY_SIZE in *. split_and!; [done|lia..].
  - unfold held. cbn [worker_out set_worker_out mbuf_out]. rewrite Hbp, Hb. unfold held_buf. cbn [array n_mbufs].
    apply arr_set_Some in Harr as [Hr ->]. replace (Z.to_nat (n_mbufs b + 1)) with (S (Z.to_nat (n_mbufs b))) by lia.
    rewrite (take_S_r _ _ m) by (apply list_lookup_insert_eq; lia). by rewrite take_insert_ge by lia.
  - done.
Qed.

(** The message of a packet. *)
Definition is_message c (dst : sockaddr_in) (mtype inst rnd : Z) (value : option (list byte)) (size : Z) (pkt : rte_mbuf) : Prop :=
  message_frame (mine c) dst (data pkt) /\
  exists h old, get_paxos_hdr (data pkt) get_paxos_offset = Some h /\ px_msgtype h = u8 mtype /\ px_inst h = u32 inst /\
    px_rnd h = u16 rnd /\ px_acptid h = u16 (node_id c) /\ px_value h = new_value old value size.

Lemma message_runs c d m dst mtype inst rnd id req ts value size p :
  mbuf_get d m = Some p -> 78 <= Z.of_nat (length (data p)) -> value_fits value size ->
  exists pkt, message c d m dst mtype inst rnd id req ts value size = Some (mbuf_set d m pkt) /\
    is_message c dst mtype inst rnd value size pkt.
Proof.
  intros Hget Hlen Hv. unfold message. rewrite Hget. cbn [mbind option_bind].
  destruct (prepare_message_runs p (tx_port c) (mine c) dst mtype inst rnd id (node_id c) req ts value size 0 Hlen Hv)
    as (pkt & old & -> & _ & _ & _ & Hf & _ & Hh & _). exists pkt. split; [done|]. split; [done|]. by eexists _, old.
Qed.

(** The loop that makes the messages of instances from [inst] on. *)
Lemma send_all_messages c dst mtype inst value size l d w (f : Z -> dev -> mbuf -> worker -> option (dev * worker)) :
  (forall i d m w, f i d m w = (d ← message c d m dst mtype (u32 (inst + i)) 0 (u8 (worker_id w)) 0 (u32 (inst + i)) value size; Some (d, w))) ->
  NoDup l -> (forall m, m ∈ l -> exists p, mbuf_get d m = Some p /\ 78 <= Z.of_nat (length (data p))) ->
  value_fits value size -> has_room w (tx_port c) (Z.of_nat (length l)) ->
  exists d' w', send_all (tx_port c) (Z.of_nat (length l)) l f (d, w) = Some (d', w') /\
    held (worker_out w') (tx_port c) = held (worker_out w) (tx_port c) ++ l /\ worker_paxos w' = worker_paxos w /\
    forall i m, l !! i = Some m -> exists pkt, mbuf_get d' m = Some pkt /\
      is_message c dst mtype (u32 (inst + Z.of_nat i)) 0 value size pkt.
Proof.
  intros Hf Hnd Hfree Hv Hroom. unfold send_all. rewrite Nat2Z.id.
  set (I := fun j (s : dev * worker) =>
    has_room s.2 (tx_port c) (Z.of_nat (length l) - j) /\
    held (worker_out s.2) (tx_port c) = held (worker_out w) (tx_port c) ++ take (Z.to_nat j) l /\
    worker_paxos s.2 = worker_paxos w /\
    forall i m, l !! i = Some m -> if Z.of_nat i <? j
      then exists pkt, mbuf_get s.1 m = Some pkt /\ is_message c dst mtype (u32 (inst + Z.of_nat i)) 0 value size pkt
      else exists p, mbuf_get s.1 m = Some p /\ 78 <= Z.of_nat (length (data p))).
  match goal with |- exists d' w', for_ ?n ?i ?f ?s = _ /\ _ => destruct (for_inv I n i f s) as ([d' w'] & Hrun & Hinv) end.
  - split; [by rewrite Z.sub_0_r|]. split; [by rewrite app_nil_r|]. split; [done|]. intros i m Hi. cbn [fst].
    rewrite (proj2 (Z.ltb_ge (Z.of_nat i) 0)) by lia. apply Hfree. by apply list_elem_of_lookup_2 in Hi.
  - intros j [d1 w1] Hj (Hr1 & Hh1 & Hp1 & Hm1). cbn [fst snd] in *.
    destruct (lookup_lt_is_Some_2 l (Z.to_nat j)) as [m Hm]; [lia|].
    assert (arr_get l j = Some m) as Hgm by (apply arr_get_Some; split; [lia|done]).
    rewrite Hgm. cbn [mbind option_bind]. rewrite Hf. pose proof (Hm1 _ _ Hm) as Hx.
    rewrite (proj2 (Z.ltb_ge (Z.of_nat (Z.to_nat j)) j)) in Hx by lia. destruct Hx as (p & Hgp & Hlp).
    destruct (message_runs c d1 m dst mtype (u32 (inst + j)) 0 (u8 (worker_id w1)) 0 (u32 (inst + j)) value size p Hgp Hlp Hv)
      as (pkt & -> & Hmsg). cbn [mbind option_bind].
    destruct (push_out_runs w1 (tx_port c) m (Z.of_nat (length l) - j - 1)) as (w2 & -> & Hr2 & Hh2 & Hid2 & Hp2);
      [by replace (Z.of_nat (length l) - j - 1 + 1) with (Z.of_nat (length l) - j) by lia|lia|].
    cbn [mbind option_bind]. eexists. split; [done|]. unfold I. cbn [fst snd]. split; [by replace (Z.of_nat (length l) - (j + 1)) with (Z.of_nat (length l) - j - 1) by lia|].
    split; [|split; [congruence|]].
    + rewrite Hh2, Hh1, <- (assoc_L (++)). f_equal. replace (Z.to_nat (j + 1)) with (S (Z.to_nat j)) by lia. by rewrite (take_S_r _ _ m).
    + intros i m' Hi. rewrite get_set_law. destruct (decide (m' = m)) as [->|Hne].
      * assert (i = Z.to_nat j) as -> by (by eapply NoDup_lookup). rewrite (proj2 (Z.ltb_lt _ _)) by lia.
        exists pkt. split; [done|]. by replace (Z.of_nat (Z.to_nat j)) with j by lia.
      * specialize (Hm1 _ _ Hi). assert (Z.of_nat i <> j) as Hij by (intros <-; rewrite Nat2Z.id in Hm; congruence).
        destruct (Z.ltb_spec (Z.of_nat i) j), (Z.ltb_spec (Z.of_nat i) (j + 1)); try done; lia.
  - destruct Hinv as (_ & Hh & Hp & Hm). cbn [fst snd] in *. exists d', w'. split; [exact Hrun|].
    split; [by rewrite Hh, take_ge by lia|]. split; [done|]. intros i m Hi. specialize (Hm i m Hi).
    rewrite (proj2 (Z.ltb_lt _ _)) in Hm; [done|]. apply lookup_lt_Some in Hi. lia.
Qed.

(** A learner with holes asks for the first instances it misses, eight at most:
    one packet for each goes behind the packets of the output buffer, in order,
    with the default value.  With [run_prepare] it asks the leader to prepare the
    instance; without, it sends accept requests to the acceptors, all of
    ballot 0. *)
Theorem holes_requested a c d w l from to lcore pl pkts d1 :
  let st := worker_paxos w in
  let n := Z.min MAX_PREPARE_SIZE (u32 (to - from)) in
  let prepare := negb (run_prepare c =? 0) in
  wk_learner st = Some l -> learner_has_holes l = Some (from, to) -> worker_pool a (worker_id w) = Some (lcore, pl) ->
  rte_pktmbuf_alloc_bulk d pl n = (Some pkts, d1) ->
  value_fits (default_value st) (i32 (default_value_len st)) -> has_room w (tx_port c) n ->
  exists d' w', learner_check_holes a c d w = Some (d', w') /\ has_holes (worker_paxos w') = 1 /\
    wk_learner (worker_paxos w') = Some l /\ Z.of_nat (length pkts) = n /\
    held (worker_out w') (tx_port c) = held (worker_out w) (tx_port c) ++ pkts /\
    forall i m, pkts !! i = Some m -> exists pkt, mbuf_get d' m = Some pkt /\
      is_message c (if prepare then paxos_leader c else acceptor_addr c) (if prepare then LEARNER_PREPARE else ACCEPT)
        (u32 (from + Z.of_nat i)) 0 (default_value st) (i32 (default_value_len st)) pkt.
Proof.
  intros st n prepare Hl Hholes Hpool Halloc Hv Hroom.
  pose proof (alloc_bulk_law _ _ _ _ _ Halloc) as (Hlen & Hnd & Hfree).
  assert (0 <= n) as Hn by (unfold n, MAX_PREPARE_SIZE; pose proof (u32_range (to - from)); lia).
  rewrite Z.max_r in Hlen by done.
  set (w1 := set_worker_paxos w (set_counters st (cur_inst st) 1 (artificial_drop st) (request_id st))).
  assert (forall dst mtype f, (forall i d m w, f i d m w = (d ← message c d m dst mtype (u32 (from + i)) 0 (u8 (worker_id w)) 0
      (u32 (from + i)) (default_value st) (i32 (default_value_len st)); Some (d, w))) ->
    exists d' w', send_all (tx_port c) n pkts f (d1, w1) = Some (d', w') /\
      held (worker_out w') (tx_port c) = held (worker_out w) (tx_port c) ++ pkts /\ worker_paxos w' = worker_paxos w1 /\
      forall i m, pkts !! i = Some m -> exists pkt, mbuf_get d' m = Some pkt /\
        is_message c dst mtype (u32 (from + Z.of_nat i)) 0 (default_value st) (i32 (default_value_len st)) pkt) as Hsend.
  { intros dst mtype f Hf. rewrite <- Hlen.
    apply (send_all_messages c dst mtype from (default_value st) (i32 (default_value_len st)) pkts d1 w1 f Hf Hnd Hfree Hv).
    by rewrite Hlen. }
  unfold learner_check_holes. fold st. rewrite Hl. cbn [mbind option_bind]. rewrite Hholes. fold w1.
  assert ((if MAX_PREPARE_SIZE <? u32 (to - from) then MAX_PREPARE_SIZE else u32 (to - from)) = n) as ->.
  { unfold n. destruct (Z.ltb_spec MAX_PREPARE_SIZE (u32 (to - from))); lia. }
  unfold send_prepare, fill_holes. change (worker_id w1) with (worker_id w). rewrite Hpool. cbn [mbind option_bind].
  rewrite Halloc. fold prepare. destruct prepare; cbn [mbind option_bind].
  - destruct (Hsend (paxos_leader c) LEARNER_PREPARE (fun i d m w =>
      (d ← message c d m (paxos_leader c) LEARNER_PREPARE (u32 (from + i)) 0 (u8 (worker_id w)) 0
      (u32 (from + i)) (default_value st) (i32 (default_value_len st)); Some (d, w))) ltac:(done)) as (d' & w' & Hrun & Hh & Hp & Hm).
    exists d', w'. split; [exact Hrun|]. rewrite Hp. by split_and!.
  - destruct (Hsend (acceptor_addr c) ACCEPT (fun i d m w =>
      (d ← message c d m (acceptor_addr c) ACCEPT (u32 (from + i)) 0 (u8 (worker_id w)) 0
      (u32 (from + i)) (default_value st) (i32 (default_value_len st)); Some (d, w))) ltac:(done)) as (d' & w' & Hrun & Hh & Hp & Hm).
    exists d', w'. split; [exact Hrun|]. rewrite Hp. by split_and!.
Qed.
End holes.

(** ** Witnesses: one worker, on core 0 *)

Notation sim_state := (worker_state Khash.khash (mem_storage Khash.khash) unit).

Definition sim_conf (id : Z) : p4xos_configuration :=
  P4xosConfiguration 3 0 8 0 id zero_sockaddr (SockaddrIn P4XOS_PORT 6) (SockaddrIn P4XOS_PORT 7) (SockaddrIn P4XOS_PORT 8)
    zero_sockaddr 0 0 0 0 0 0 0 0 0 0 0 0 0 0 None.

Definition sim_node_at (id : Z) (st : sim_state) : app_params sim_state :=
  let a := @zero_app (sim false) sim_state in
  AppParams
    [AppLcoreParams (e_APP_LCORE_WORKER (@zero_worker (sim false) _ st)) 1; AppLcoreParams e_APP_LCORE_DISABLED 0;
     AppLcoreParams e_APP_LCORE_DISABLED 0; AppLcoreParams e_APP_LCORE_DISABLED 0]
    (nic_rx_queue_mask a) (nic_tx_port_mask a) (pools a) (lpm_tables a) (lpm_rules a)
    (n_lpm_rules a) 0 0 0 0 32 2 2 2 2 2 29 (sim_conf id) 0 false (map_worker_lcore a) (map_lcore_worker a).

Definition sim_node (st : sim_state) : app_params sim_state := sim_node_at 0 st.

Definition sim_prepare0 : rte_mbuf := sim_msg PREPARE 0 15 (sim_value x00).

Lemma sim_prepare0_packet : paxos_packet sim_prepare0 5 (sim_hdr PREPARE 0 15 (sim_value x00)).
Proof. constructor; vm_compute; congruence. Qed.

(** The state of the worker on core 0. *)
Definition state0 (r : option (sim_dev * app_params sim_state)) : option sim_state :=
  '(_, a) ← r;
  lp ← arr_get (lcore_params a) 0;
  match lcore_is lp with e_APP_LCORE_WORKER w => Some (worker_paxos w) | _ => None end.

Lemma state0_at r st : state0 r = Some st -> exists d a w, r = Some (d, a) /\ worker_on a 0 w /\ worker_paxos w = st.
Proof.
  unfold state0. intros ([d a] & -> & Hrun)%bind_Some. apply bind_Some in Hrun as (lp & Hlp & Hrun).
  destruct (lcore_is lp) as [| |w] eqn:Hu; try done. injection Hrun as <-. exists d, a, w. split; [done|]. split; [by exists lp|done].
Qed.

Lemma sim_acceptor_runs :
  exists d' a' w, @dpdk_acceptor (sim false) Khash.khash (mem_storage Khash.khash) _ unit _ sim_env
      (fun _ => mem_storage_new) sim_start (sim_node zero_worker_state) = Some (d', a') /\
    worker_on a' 0 w /\ wk_acceptor (worker_paxos w) = Some {| acc_id := 0; acc_trim_iid := 0; store := mem_storage_new |}.
Proof.
  edestruct (state0_at (@dpdk_acceptor (sim false) Khash.khash (mem_storage Khash.khash) _ unit _ sim_env
    (fun _ => mem_storage_new) sim_start (sim_node zero_worker_state))) as (d' & a' & w & Hrun & Hw & Hst).
  { vm_compute. reflexivity. }
  exists d', a', w. split; [exact Hrun|]. split; [exact Hw|]. rewrite Hst. reflexivity.
Qed.

Definition sim_cb := @run_worker_cb (sim false) sim_eth Khash.khash _ (mem_storage Khash.khash) _ unit _ sim_env 0.

Lemma acceptor_program_crashes_witness :
  exists d' a' w, @dpdk_acceptor (sim false) Khash.khash (mem_storage Khash.khash) _ unit _ sim_env
      (fun _ => mem_storage_new) sim_start (sim_node zero_worker_state) = Some (d', a') /\ worker_on a' 0 w /\
    sim_cb sim_globals (sim_heap_dev sim_prepare0) 10 w = None.
Proof.
  destruct sim_acceptor_runs as (d' & a' & w & Hrun & Hw & Hacc). exists d', a', w. split; [exact Hrun|]. split; [exact Hw|]. unfold sim_cb.
  eapply (@acceptor_program_crashes (sim false) sim_eth Khash.khash _ (mem_storage Khash.khash) _ unit _ sim_env
    (fun _ => mem_storage_new) sim_start (sim_node zero_worker_state) d' a' 0 w 0 sim_globals (sim_heap_dev sim_prepare0) 10
    sim_prepare0 5 (sim_hdr PREPARE 0 15 (sim_value x00)) {| acc_id := 0; acc_trim_iid := 0; store := mem_storage_new |}).
  - reflexivity.
  - intros lcore w0 (lp & Hlp & Hu). apply arr_get_Some in Hlp as [_ Hlp].
    destruct (Z.to_nat lcore) as [|[|[|[|?]]]]; simpl in Hlp; try discriminate Hlp; injection Hlp as <-; try discriminate Hu.
    injection Hu as <-. reflexivity.
  - exact Hrun.
  - exact Hw.
  - exact Hacc.
  - apply lookup_singleton_eq.
  - exact sim_prepare0_packet.
  - reflexivity.
  - simpl. lia.
Defined.

Lemma sim_leader_runs id : (id = 1 \/ id = 2) ->
  exists d' a' w, @dpdk_leader (sim false) Khash.khash _ (mem_storage Khash.khash) unit _ sim_env
      sim_start (sim_node_at id zero_worker_state) = Some (d', a') /\ worker_on a' 0 w.
Proof.
  intros Hid.
  edestruct (state0_at (@dpdk_leader (sim false) Khash.khash _ (mem_storage Khash.khash) unit _ sim_env
      sim_start (sim_node_at id zero_worker_state))) as (d' & a' & w & Hrun & Hw & _).
  { destruct Hid as [-> | ->]; vm_compute; reflexivity. }
  by exists d', a', w.
Qed.

(** The nodes 1 and 2. *)
Lemma leaders_share_ballots_witness :
  exists d1 a1 w1 d2 a2 w2 p1 p2 p1' p2' pr,
    @dpdk_leader (sim false) Khash.khash _ (mem_storage Khash.khash) unit _ sim_env sim_start (sim_node_at 1 zero_worker_state) = Some (d1, a1) /\
    @dpdk_leader (sim false) Khash.khash _ (mem_storage Khash.khash) unit _ sim_env sim_start (sim_node_at 2 zero_worker_state) = Some (d2, a2) /\
    worker_on a1 0 w1 /\ worker_on a2 0 w2 /\ wk_proposer (worker_paxos w1) = Some p1 /\ wk_proposer (worker_paxos w2) = Some p2 /\
    proposer_prepare p1 (Timeval 0 0) = Some (p1', pr) /\ proposer_prepare p2 (Timeval 5 0) = Some (p2', pr).
Proof.
  destruct (sim_leader_runs 1 (or_introl eq_refl)) as (d1 & a1 & w1 & Hrun1 & Hw1).
  destruct (sim_leader_runs 2 (or_intror eq_refl)) as (d2 & a2 & w2 & Hrun2 & Hw2).
  destruct (@leaders_share_ballots (sim false) Khash.khash _ (mem_storage Khash.khash) unit _ sim_env sim_start
    (sim_node_at 1 zero_worker_state) d1 a1 sim_start (sim_node_at 2 zero_worker_state) d2 a2 0 w1 w2 (Timeval 0 0) (Timeval 5 0)
    eq_refl eq_refl Hrun1 Hrun2 Hw1 Hw2) as (p1 & p2 & p1' & p2' & pr & Hp1 & Hp2 & Hr1 & Hr2 & _).
  exists d1, a1, w1, d2, a2, w2, p1, p2, p1', p2', pr. split_and!; assumption.
Defined.

Lemma sim_alloc_laws : @P4AllocLaws (sim false) (sim_laws false).
Proof.
  constructor. intros d pl n l d' [= <- <-]. split; [rewrite length_seqZ; lia|]. split; [apply NoDup_seqZ|].
  intros m Hm. exists sim_blank. split; [|simpl; lia]. simpl. induction (seqZ (1000 + Z.max 0 (sim_next d)) n) as [|x l IH]; [by apply elem_of_nil in Hm|].
  simpl. destruct (decide (x = m)) as [->|Hne]; [apply lookup_insert_eq|]. rewrite lookup_insert_ne by done.
  apply IH. by apply elem_of_cons in Hm as [->|Hm].
Qed.

(** A learner that misses the instances 1 to 4, with a default value. *)
Definition sim_late : sim_state :=
  WorkerState zero_stats
    (Some {| lrn_acceptors := 3; late_start := false; current_iid := 1; highest_iid_closed := 5; instances := kh_init; gaps := kh_init |})
    None None (Some tt) (Some replica_cb) 0 0 0 (Some (sim_value x64)) 8 0.

Lemma holes_requested_witness :
  exists d' w', @learner_check_holes (sim false) sim_eth Khash.khash (mem_storage Khash.khash) unit
      (sim_node sim_late) (sim_conf 0) sim_start (@zero_worker (sim false) _ sim_late) = Some (d', w') /\
    held (worker_out w') 0 = [1001; 1002; 1003; 1004] /\
    exists pkt, @mbuf_get (sim false) d' 1003 = Some pkt /\
      is_message (sim_conf 0) (acceptor_addr (sim_conf 0)) ACCEPT 3 0 (Some (sim_value x64)) 8 pkt.
Proof.
  destruct (@holes_requested (sim false) (sim_laws false) sim_alloc_laws sim_eth sim_eth_laws Khash.khash (mem_storage Khash.khash) unit
    (sim_node sim_late) (sim_conf 0) sim_start (@zero_worker (sim false) _ sim_late)
    {| lrn_acceptors := 3; late_start := false; current_iid := 1; highest_iid_closed := 5; instances := kh_init; gaps := kh_init |}
    1 5 0 1 [1001; 1002; 1003; 1004] (@rte_pktmbuf_alloc_bulk (sim false) sim_start 1 4).2)
    as (d' & w' & Hrun & _ & _ & _ & Hheld & Hpkts).
  - reflexivity.
  - reflexivity.
  - vm_compute. reflexivity.
  - reflexivity.
  - split; vm_compute; congruence.
  - exists zero_mbuf_array. split; [reflexivity|]. split_and!; by vm_compute.
  - exists d', w'. split; [exact Hrun|]. split; [exact Hheld|]. exact (Hpkts 2%nat 1003 eq_refl).
Defined.

