(* ===== verification/P4Args.v ===== *)
(** * The command line of the data plane ([p4xos/src/config.c])

    The options that give the cores their roles, the routes, the sizes and the
    Paxos configuration.  [getopt_long] gives the options one after the other with
    their arguments, and an error for one it does not know.  A pointer into an
    argument is the rest of the string behind it.

    The options change the global [app] as they are read, also when one of them
    is wrong in the end; the result is the code and [app].

    [None] is an access outside an array: [str_to_unsigned_vals] takes the error
    code -1 for the number of values. *)

From S2P Require Import Prelude Bytes PaxosTypes EvConfig P4Packet P4Dpdk P4Sim P4App P4Runtime P4Conserve.
From Stdlib Require Import String.
#[local] Open Scope Z_scope.

(** ** The C library *)

(** [strchr]: the rest of the string from the character on. *)
Fixpoint strchr (s : cstring) (c : Z) : option cstring :=
  match s with
  | [] => None
  | b :: s' => if Z_of_byte b =? c then Some s else strchr s' c
  end.

(** The value of a digit in base 16. *)
Definition digit_of (b : byte) : Z :=
  let z := Z_of_byte b in
  if (48 <=? z) && (z <=? 57) then z - 48
  else if (97 <=? z) && (z <=? 102) then z - 87
  else if (65 <=? z) && (z <=? 70) then z - 55
  else 16.

Fixpoint read_base (base acc : Z) (s : cstring) : Z * nat * cstring :=
  match s with
  | b :: s' =>
      if digit_of b <? base
      then let '(v, n, rest) := read_base base (base * acc + digit_of b) s' in (v, S n, rest)
      else (acc, O, s)
  | [] => (acc, O, s)
  end.

(** [strtoul(s, &end, 0)]: the value, whether [errno] is set, and [end]. *)
Definition strtoul0 (s : cstring) : Z * bool * cstring :=
  let t := skip_spaces s in
  let '(neg, t) :=
    match t with
    | b :: t' => if Z_of_byte b =? 45 then (true, t') else if Z_of_byte b =? 43 then (false, t') else (false, t)
    | [] => (false, t)
    end in
  let '(v, n, rest) :=
    match t with
    | z :: x :: d :: t' =>
        if (Z_of_byte z =? 48) && ((Z_of_byte x =? 120) || (Z_of_byte x =? 88)) && (digit_of d <? 16)
        then read_base 16 0 (d :: t')
        else if Z_of_byte z =? 48 then read_base 8 0 t else read_base 10 0 t
    | z :: _ => if Z_of_byte z =? 48 then read_base 8 0 t else read_base 10 0 t
    | [] => (0, O, [])
    end in
  if (n =? 0)%nat then (0, false, s)
  else if 2 ^ 64 <=? v then (2 ^ 64 - 1, true, rest)
  else ((if (neg : bool) then (- v) mod 2 ^ 64 else v), false, rest).

(** [strtok(s, ":")] and [strtok(NULL, ":")]. *)
Fixpoint skip_colons (s : cstring) : cstring :=
  match s with b :: s' => if Z_of_byte b =? 58 then skip_colons s' else s | [] => [] end.
Fixpoint before_colon (s : cstring) : cstring * cstring :=
  match s with
  | b :: s' => if Z_of_byte b =? 58 then ([], s') else let '(t, r) := before_colon s' in (b :: t, r)
  | [] => ([], [])
  end.
Definition strtok (s : cstring) : option (cstring * cstring) :=
  match skip_colons s with [] => None | t => Some (before_colon t) end.

(** DPDK's [rte_strsplit]: the tokens between the separators, [n] at most, and
    [inet_pton] of an IPv4 address. *)
Class Strings := {
  rte_strsplit : cstring -> Z -> Z -> list cstring;
  inet_pton : cstring -> option Z;
}.

(** ** Options *)

Inductive lgopt :=
  | o_rx | o_tx | o_w | o_lpm | o_rsz | o_bsz | o_pos_lb | o_num_ac | o_msgtype | o_node_id | o_port | o_baseline
  | o_multi_dbs | o_reset_inst | o_inc_inst | o_run_prepare | o_drop | o_osd | o_resp | o_latency | o_leader
  | o_window | o_max | o_rate | o_src | o_leader_addr | o_cliaddr | o_acc_addr | o_learner_addr | o_cp_interval
  | o_ts_interval | o_app_config.

#[global] Instance lgopt_eq_dec : EqDecision lgopt.
Proof. solve_decision. Defined.

Definition APP_ARG_MAX_CHARS : Z := 4096.
Definition APP_ARG_MAX_TUPLES : Z := 128.
Definition APP_ARG_SIZES_CHARS : Z := 63.
Definition APP_ARG_NUMERICAL_SIZE_CHARS : Z := 15.

(** [strnlen(arg, n + 1) == n + 1] *)
Definition longer (arg : cstring) (n : Z) : bool := n <? Z.of_nat (List.length arg).

Section args.
Context {D : Dpdk} {S : Strings} {P : Type} (p0 : P).
Implicit Types (a : app_params P) (arg p : cstring).

(** *** Numbers separated by a character *)

(** [None] is the result -1. *)
Fixpoint unsigned_all (splits : list cstring) : option (list Z) :=
  match splits with
  | [] => Some []
  | s :: splits =>
      let '(v, err, rest) := strtoul0 s in
      if (err : bool) || negb (bool_decide (rest = [])) then None else
      vs ← unsigned_all splits;
      Some (u32 v :: vs)
  end.

Definition str_to_unsigned_array (s : cstring) (sbuflen sep num_vals : Z) : option (list Z) :=
  unsigned_all (rte_strsplit (take (Z.to_nat sbuflen) s) num_vals sep).

(** The values that are stored, [num_vals] at most.  The result -1 of
    [str_to_unsigned_array] becomes the loop bound [UINT_MAX]: [None]. *)
Definition str_to_unsigned_vals (s : cstring) (sbuflen sep num_vals : Z) : option (list Z) :=
  if sbuflen <? 0 then None else str_to_unsigned_array s sbuflen sep num_vals.

(** The numbers from [s] to [q], which is a rest of [s]. *)
Definition vals_until (s q : cstring) (sep n : Z) : option (list Z) :=
  str_to_unsigned_vals s (Z.of_nat (List.length s) - Z.of_nat (List.length q)) sep n.

(** The tuple that starts at [p]: its numbers, and the rest from the parenthesis
    that closes it.  [Some None]: nothing closes it, or the number of values is
    not [n]. *)
Definition tuple (p : cstring) (n : Z) : option (option (list Z * cstring)) :=
  match strchr p 41 with
  | None => Some None
  | Some q =>
      vals ← vals_until (drop 1 p) q 44 n;
      Some (if Z.of_nat (List.length vals) =? n then Some (vals, q) else None)
  end.

(** *** [--rx] *)

Definition set_masks a (rxm : list (list Z)) (txm : list Z) : app_params P :=
  AppParams
    (lcore_params a) rxm txm (pools a) (lpm_tables a) (lpm_rules a) (n_lpm_rules a)
    (nic_rx_ring_size a) (nic_tx_ring_size a) (ring_rx_size a) (ring_tx_size a) (burst_size_io_rx_read a)
    (burst_size_io_rx_write a) (burst_size_io_tx_read a) (burst_size_io_tx_write a) (burst_size_worker_read a)
    (burst_size_worker_write a) (pos_lb a) (p4xos_conf a) (hz a) (force_quit a) (map_worker_lcore a)
    (map_lcore_worker a).

(** [lp->type = e_APP_LCORE_IO], unless the core is a worker. *)
Definition as_io (u : lcore_union P) : option app_lcore_params_io :=
  match u with
  | e_APP_LCORE_DISABLED => Some zero_io
  | e_APP_LCORE_IO io => Some io
  | e_APP_LCORE_WORKER _ => None
  end.

Definition set_nic_queues (io : app_lcore_params_io) (qs : list (Z * Z)) (n : Z) : app_lcore_params_io :=
  AppLcoreParamsIo
    (IoRx qs n (rx_out (rx io)) (n_rings (rx io)) (rx_mbuf_in (rx io)) (nic_queues_count (rx io))
       (nic_queues_iters (rx io))) (tx io).

Definition set_nic_ports (io : app_lcore_params_io) (ps : list Z) (n : Z) : app_lcore_params_io :=
  AppLcoreParamsIo (rx io)
    (IoTx (tx_rings (tx io)) ps n (tx_mbuf_out (tx io)) (tx_mbuf_out_flush (tx io)) (nic_ports_count (tx io))
       (nic_ports_iters (tx io))).

(** The core of one tuple. *)
Definition rx_assign a (port queue lcore : Z) : option (Z * app_params P) :=
  if negb (rte_lcore_is_enabled lcore) then Some (-5, a) else
  if APP_MAX_LCORES <=? lcore then Some (-6, a) else
  lp ← arr_get (lcore_params a) lcore;
  match as_io (lcore_is lp) with
  | None => Some (-7, a)
  | Some io =>
      let n := n_nic_queues (rx io) in
      found ← find_ (Z.to_nat (Z.min n APP_MAX_NIC_RX_QUEUES_PER_IO_LCORE)) 0 (fun i =>
                q ← arr_get (nic_queues (rx io)) i;
                Some (if (q.1 =? port) && (q.2 =? queue) then Some tt else None));
      a ← set_lcore a lcore (e_APP_LCORE_IO io);
      match found with
      | Some _ => Some (-8, a)
      | None =>
          if APP_MAX_NIC_RX_QUEUES_PER_IO_LCORE <=? n then Some (-9, a) else
          qs ← arr_set (nic_queues (rx io)) n (u16 port, u8 queue);
          a ← set_lcore a lcore (e_APP_LCORE_IO (set_nic_queues io qs (u32 (n + 1))));
          Some (0, a)
      end
  end.

Definition rx_tuple a (port queue lcore : Z) : option (Z * app_params P) :=
  if (APP_MAX_NIC_PORTS <=? port) || (APP_MAX_RX_QUEUES_PER_NIC_PORT <=? queue) then Some (-3, a) else
  row ← arr_get (nic_rx_queue_mask a) port;
  m ← arr_get row queue;
  if negb (m =? 0) then Some (-4, a) else
  row ← arr_set row queue 1;
  rxm ← arr_set (nic_rx_queue_mask a) port row;
  rx_assign (set_masks a rxm (nic_tx_port_mask a)) port queue lcore.

(** The loop of [parse_arg_rx] and [parse_arg_tx]: tuples of [n] numbers, each
    given to [f]. *)
Fixpoint tuples (fuel : nat) (n : Z) (f : app_params P -> list Z -> option (Z * app_params P)) (p0 : cstring)
    (n_tuples : Z) a : option (Z * app_params P) :=
  match fuel with
  | O => None
  | Datatypes.S fuel =>
      match strchr p0 40 with
      | None => Some (if n_tuples =? 0 then -11 else 0, a)
      | Some p =>
          r ← tuple p n;
          match r with
          | None => Some (-2, a)
          | Some (vals, p0) =>
              '(ret, a) ← f a vals;
              if negb (ret =? 0) then Some (ret, a) else
              if APP_ARG_MAX_TUPLES <? n_tuples + 1 then Some (-10, a) else tuples fuel n f p0 (n_tuples + 1) a
          end
      end
  end.

Definition rx_vals a (vals : list Z) : option (Z * app_params P) :=
  match vals with [port; queue; lcore] => rx_tuple a port queue lcore | _ => None end.

Definition parse_arg_rx arg a : option (Z * app_params P) :=
  if longer arg APP_ARG_MAX_CHARS then Some (-1, a) else tuples (Datatypes.S (List.length arg)) 3 rx_vals arg 0 a.

(** *** [--tx] *)

Definition tx_assign a (port lcore : Z) : option (Z * app_params P) :=
  if negb (rte_lcore_is_enabled lcore) then Some (-5, a) else
  if APP_MAX_LCORES <=? lcore then Some (-6, a) else
  lp ← arr_get (lcore_params a) lcore;
  match as_io (lcore_is lp) with
  | None => Some (-7, a)
  | Some io =>
      let n := n_nic_ports (tx io) in
      found ← find_ (Z.to_nat (Z.min n APP_MAX_NIC_TX_PORTS_PER_IO_LCORE)) 0 (fun i =>
                p ← arr_get (nic_ports (tx io)) i;
                Some (if p =? port then Some tt else None));
      a ← set_lcore a lcore (e_APP_LCORE_IO io);
      match found with
      | Some _ => Some (-8, a)
      | None =>
          if APP_MAX_NIC_TX_PORTS_PER_IO_LCORE <=? n then Some (-9, a) else
          ps ← arr_set (nic_ports (tx io)) n (u16 port);
          a ← set_lcore a lcore (e_APP_LCORE_IO (set_nic_ports io ps (u32 (n + 1))));
          Some (0, a)
      end
  end.

Definition tx_tuple a (port lcore : Z) : option (Z * app_params P) :=
  if APP_MAX_NIC_PORTS <=? port then Some (-3, a) else
  m ← arr_get (nic_tx_port_mask a) port;
  if negb (m =? 0) then Some (-4, a) else
  txm ← arr_set (nic_tx_port_mask a) port 1;
  tx_assign (set_masks a (nic_rx_queue_mask a) txm) port lcore.

Definition tx_vals a (vals : list Z) : option (Z * app_params P) :=
  match vals with [port; lcore] => tx_tuple a port lcore | _ => None end.

Definition parse_arg_tx arg a : option (Z * app_params P) :=
  if longer arg APP_ARG_MAX_CHARS then Some (-1, a) else tuples (Datatypes.S (List.length arg)) 2 tx_vals arg 0 a.
(** *** [--w] *)

(** [lp->type = e_APP_LCORE_WORKER], unless the core is an I/O core. *)
Definition as_worker (u : lcore_union P) : option (app_lcore_params_worker P) :=
  match u with
  | e_APP_LCORE_DISABLED => Some (zero_worker p0)
  | e_APP_LCORE_WORKER w => Some w
  | e_APP_LCORE_IO _ => None
  end.

Definition w_assign a (lcore : Z) : option (Z * app_params P) :=
  if negb (rte_lcore_is_enabled lcore) then Some (-3, a) else
  if APP_MAX_LCORES <=? lcore then Some (-4, a) else
  lp ← arr_get (lcore_params a) lcore;
  match as_worker (lcore_is lp) with
  | None => Some (-5, a)
  | Some w => a ← set_lcore a lcore (e_APP_LCORE_WORKER w); Some (0, a)
  end.

Fixpoint w_loop (fuel : nat) p (n_tuples : Z) a : option (Z * app_params P) :=
  match fuel with
  | O => None
  | Datatypes.S fuel =>
      match p with
      | [] => Some (if n_tuples =? 0 then -7 else 0, a)
      | _ =>
          let '(v, err, _) := strtoul0 p in
          if (err : bool) then Some (-2, a) else
          '(ret, a) ← w_assign a (u32 v);
          if negb (ret =? 0) then Some (ret, a) else
          if APP_MAX_WORKER_LCORES <? n_tuples + 1 then Some (-6, a) else
          match strchr p 44 with
          | None => Some (0, a)
          | Some q => w_loop fuel (drop 1 q) (n_tuples + 1) a
          end
      end
  end.

Definition parse_arg_w arg a : option (Z * app_params P) :=
  if longer arg APP_ARG_MAX_CHARS then Some (-1, a) else w_loop (Datatypes.S (List.length arg)) arg 0 a.

(** *** [--lpm] *)

Definition set_lpm_rules a (rs : list app_lpm_rule) (n : Z) : app_params P :=
  AppParams
    (lcore_params a) (nic_rx_queue_mask a) (nic_tx_port_mask a) (pools a) (lpm_tables a) rs n
    (nic_rx_ring_size a) (nic_tx_ring_size a) (ring_rx_size a) (ring_tx_size a) (burst_size_io_rx_read a)
    (burst_size_io_rx_write a) (burst_size_io_tx_read a) (burst_size_io_tx_write a) (burst_size_worker_read a)
    (burst_size_worker_write a) (pos_lb a) (p4xos_conf a) (hz a) (force_quit a) (map_worker_lcore a)
    (map_lcore_worker a).

(** [*s == c] *)
Definition at_char (s : cstring) (c : Z) : bool := match s with b :: _ => Z_of_byte b =? c | [] => c =? 0 end.

(** One rule [a.b.c.d/depth=>port]; the rest of the string at the number of the
    port, when the rule was added. *)
Definition lpm_rule_at p a : option (Z * cstring * app_params P) :=
  match strchr p 47 with
  | None => Some (-2, p, a)
  | Some q =>
      vals ← vals_until p q 46 4;
      match vals with
      | [ip_a; ip_b; ip_c; ip_d] =>
          let '(depth, err, endptr) := strtoul0 (drop 1 q) in
          if (err : bool) || negb (at_char endptr 61) then Some (-3, p, a) else
          match strchr (drop 1 q) 62 with
          | None => Some (-4, p, a)
          | Some r =>
              let p := drop 1 r in
              let '(if_out, err, endptr) := strtoul0 p in
              if (err : bool) || (negb (at_char endptr 0) && negb (at_char endptr 59)) then Some (-5, p, a) else
              let depth := u32 depth in
              let if_out := u32 if_out in
              if (256 <=? ip_a) || (256 <=? ip_b) || (256 <=? ip_c) || (256 <=? ip_d) || (depth =? 0) || (32 <? depth) ||
                 (APP_MAX_NIC_PORTS <=? if_out)
              then Some (-6, p, a) else
              let ip := Z.lor (Z.lor (Z.lor (Z.shiftl ip_a 24) (Z.shiftl ip_b 16)) (Z.shiftl ip_c 8)) ip_d in
              if APP_MAX_LPM_RULES <=? n_lpm_rules a then Some (-7, p, a) else
              rs ← arr_set (lpm_rules a) (n_lpm_rules a) (AppLpmRule ip (u8 depth) (u8 if_out));
              Some (0, p, set_lpm_rules a rs (u32 (n_lpm_rules a + 1)))
          end
      | _ => Some (-2, p, a)
      end
  end.

Fixpoint lpm_loop (fuel : nat) p a : option (Z * app_params P) :=
  match fuel with
  | O => None
  | Datatypes.S fuel =>
      match p with
      | [] => Some (if n_lpm_rules a =? 0 then -9 else 0, a)
      | _ =>
          '(ret, p, a) ← lpm_rule_at p a;
          if negb (ret =? 0) then Some (ret, a) else
          match strchr p 59 with
          | None => Some (-8, a)
          | Some q => lpm_loop fuel (drop 1 q) a
          end
      end
  end.

Definition parse_arg_lpm arg a : option (Z * app_params P) :=
  if longer arg APP_ARG_MAX_CHARS then Some (-1, a) else lpm_loop (Datatypes.S (List.length arg)) arg a.

Definition app_check_every_rx_port_is_tx_enabled a : option Z :=
  r ← find_ (Z.to_nat APP_MAX_NIC_PORTS) 0 (fun port =>
        n ← app_get_nic_rx_queues_per_port a port;
        m ← arr_get (nic_tx_port_mask a) port;
        Some (if (0 <? n) && (m =? 0) then Some (-1) else None));
  Some (match r with Some x => x | None => 0 end).
(** *** [--rsz] and [--bsz] *)

Definition set_ring_sizes a (nic_rx ring_rx ring_tx nic_tx : Z) : app_params P :=
  AppParams
    (lcore_params a) (nic_rx_queue_mask a) (nic_tx_port_mask a) (pools a) (lpm_tables a) (lpm_rules a) (n_lpm_rules a)
    nic_rx nic_tx ring_rx ring_tx (burst_size_io_rx_read a)
    (burst_size_io_rx_write a) (burst_size_io_tx_read a) (burst_size_io_tx_write a) (burst_size_worker_read a)
    (burst_size_worker_write a) (pos_lb a) (p4xos_conf a) (hz a) (force_quit a) (map_worker_lcore a)
    (map_lcore_worker a).

Definition set_bursts a (rx_read rx_write worker_read worker_write tx_read tx_write : Z) : app_params P :=
  AppParams
    (lcore_params a) (nic_rx_queue_mask a) (nic_tx_port_mask a) (pools a) (lpm_tables a) (lpm_rules a) (n_lpm_rules a)
    (nic_rx_ring_size a) (nic_tx_ring_size a) (ring_rx_size a) (ring_tx_size a) rx_read
    rx_write tx_read tx_write worker_read worker_write (pos_lb a) (p4xos_conf a) (hz a) (force_quit a)
    (map_worker_lcore a) (map_lcore_worker a).

(** The [i]-th value, stored over [old] when there is one. *)
Definition stored (vals : list Z) (i : nat) (old : Z) : Z := match vals !! i with Some v => v | None => old end.

Definition parse_arg_rsz arg a : option (Z * app_params P) :=
  if longer arg APP_ARG_SIZES_CHARS then Some (-1, a) else
  vals ← str_to_unsigned_vals arg APP_ARG_SIZES_CHARS 44 4;
  let a := set_ring_sizes a (stored vals 0 (nic_rx_ring_size a)) (stored vals 1 (ring_rx_size a))
             (stored vals 2 (ring_tx_size a)) (stored vals 3 (nic_tx_ring_size a)) in
  if negb (List.length vals =? 4)%nat then Some (-2, a) else
  if (nic_rx_ring_size a =? 0) || (nic_tx_ring_size a =? 0) || (ring_rx_size a =? 0) || (ring_tx_size a =? 0)
  then Some (-3, a) else Some (0, a).

(** One pair of [--bsz]: [None] in the result is a missing parenthesis or too few values, of
    which the first ones are stored. *)
Definition pair_at p (x y : Z) : option (Z * Z * option cstring) :=
  match strchr p 41 with
  | None => Some (x, y, None)
  | Some q =>
      vals ← vals_until (drop 1 p) q 44 2;
      Some (stored vals 0 x, stored vals 1 y, if (List.length vals =? 2)%nat then Some q else None)
  end.

Definition check_bursts a : Z :=
  if (burst_size_io_rx_read a =? 0) || (burst_size_io_rx_write a =? 0) || (burst_size_worker_read a =? 0) ||
     (burst_size_worker_write a =? 0) || (burst_size_io_tx_read a =? 0) || (burst_size_io_tx_write a =? 0)
  then -7
  else if (APP_MBUF_ARRAY_SIZE <? burst_size_io_rx_read a) || (APP_MBUF_ARRAY_SIZE <? burst_size_io_rx_write a) ||
     (APP_MBUF_ARRAY_SIZE <? burst_size_worker_read a) || (APP_MBUF_ARRAY_SIZE <? burst_size_worker_write a) ||
     (APP_MBUF_ARRAY_SIZE <? u32 (2 * burst_size_io_tx_read a)) || (APP_MBUF_ARRAY_SIZE <? burst_size_io_tx_write a)
  then -8 else 0.

Definition parse_arg_bsz arg a : option (Z * app_params P) :=
  if longer arg APP_ARG_SIZES_CHARS then Some (-1, a) else
  '(rr, rw, q) ← pair_at arg (burst_size_io_rx_read a) (burst_size_io_rx_write a);
  let a := set_bursts a rr rw (burst_size_worker_read a) (burst_size_worker_write a) (burst_size_io_tx_read a)
             (burst_size_io_tx_write a) in
  match q with None => Some (-2, a) | Some q =>
  match strchr q 40 with None => Some (-3, a) | Some p =>
  '(wr, ww, q) ← pair_at p (burst_size_worker_read a) (burst_size_worker_write a);
  let a := set_bursts a rr rw wr ww (burst_size_io_tx_read a) (burst_size_io_tx_write a) in
  match q with None => Some (-4, a) | Some q =>
  match strchr q 40 with None => Some (-5, a) | Some p =>
  '(tr, tw, q) ← pair_at p (burst_size_io_tx_read a) (burst_size_io_tx_write a);
  let a := set_bursts a rr rw wr ww tr tw in
  match q with None => Some (-6, a) | Some _ => Some (check_bursts a, a) end end end end end.

(** *** Numbers and addresses *)

(** The value that is written, or the code. *)
Definition parse_number arg : Z + Z :=
  if longer arg APP_ARG_NUMERICAL_SIZE_CHARS then inl (-1) else
  let '(x, err, endpt) := strtoull arg in
  if (err : bool) || bool_decide (endpt = arg) || negb (bool_decide (endpt = [])) then inl (-2) else inr (u32 x).

Definition parse_arg_uint8 arg (out : Z) : Z * Z :=
  match parse_number arg with inl e => (e, out) | inr x => (0, u8 x) end.
Definition parse_arg_uint16 arg (out : Z) : Z * Z :=
  match parse_number arg with inl e => (e, out) | inr x => (0, u16 x) end.
Definition parse_arg_uint32 arg (out : Z) : Z * Z :=
  match parse_number arg with inl e => (e, out) | inr x => (0, x) end.

(** The port behind the first token.  [endpt == arg] compares pointers into two
    different strings. *)
Definition parse_port (r : cstring) (addr : sockaddr_in) : Z * sockaddr_in :=
  match strtok r with
  | None => (0, addr)
  | Some (t, _) =>
      let '(x, err, endpt) := strtoull t in
      if (err : bool) || negb (bool_decide (endpt = [])) then (-2, addr) else (0, SockaddrIn (u16 x) (sin_addr addr))
  end.

Definition parse_arg_ip_address arg (addr : sockaddr_in) : Z * sockaddr_in :=
  match strtok arg with
  | None => (0, addr)
  | Some (t, r) =>
      match inet_pton t with
      | None => (-1, addr)
      | Some ip => parse_port r (SockaddrIn (sin_port addr) ip)
      end
  end.
(** *** [app_parse_args] *)

Definition set_pos_conf a (pos : Z) (c : p4xos_configuration) : app_params P :=
  AppParams
    (lcore_params a) (nic_rx_queue_mask a) (nic_tx_port_mask a) (pools a) (lpm_tables a) (lpm_rules a) (n_lpm_rules a)
    (nic_rx_ring_size a) (nic_tx_ring_size a) (ring_rx_size a) (ring_tx_size a) (burst_size_io_rx_read a)
    (burst_size_io_rx_write a) (burst_size_io_tx_read a) (burst_size_io_tx_write a) (burst_size_worker_read a)
    (burst_size_worker_write a) pos c (hz a) (force_quit a) (map_worker_lcore a) (map_lcore_worker a).

(** The configuration with every member [m] of the option [o] replaced by
    [num o m], and every address by [addr o m]. *)
Definition map_conf (num : lgopt -> Z -> Z) (addr : lgopt -> sockaddr_in -> sockaddr_in) (c : p4xos_configuration) :
    p4xos_configuration :=
  P4xosConfiguration
    (num o_num_ac (num_acceptors c)) (num o_multi_dbs (multi_dbs c)) (num o_msgtype (msgtype c))
    (num o_port (tx_port c)) (num o_node_id (node_id c)) (addr o_cliaddr (client c)) (addr o_src (mine c))
    (addr o_leader_addr (paxos_leader c)) (addr o_acc_addr (acceptor_addr c)) (addr o_learner_addr (learner_addr c))
    (num o_osd (osd c)) (num o_max (max_inst c)) (num o_inc_inst (inc_inst c)) (num o_reset_inst (reset_inst c))
    (num o_baseline (baseline c)) (num o_drop (drop_ c)) (num o_leader (leader c)) (num o_latency (measure_latency c))
    (num o_run_prepare (run_prepare c)) (num o_resp (respond_to_client c)) (num o_cp_interval (checkpoint_interval c))
    (num o_ts_interval (ts_interval c)) (num o_rate (rate c)) (num o_window (preexec_window c)) (app_config c).

(** The member of the option [o] only. *)
Definition only {A} (o : lgopt) (f : A -> A) (o' : lgopt) (m : A) : A := if bool_decide (o' = o) then f m else m.
Definition same {A} (o : lgopt) (m : A) : A := m.

Definition set_num a (o : lgopt) (f : Z -> Z) : app_params P :=
  set_pos_conf a (pos_lb a) (map_conf (only o f) same (p4xos_conf a)).
Definition set_addr a (o : lgopt) (f : sockaddr_in -> sockaddr_in) : app_params P :=
  set_pos_conf a (pos_lb a) (map_conf same (only o f) (p4xos_conf a)).

Definition set_app_config a (file : cstring) : app_params P :=
  let c := p4xos_conf a in
  set_pos_conf a (pos_lb a)
    (P4xosConfiguration (num_acceptors c) (multi_dbs c) (msgtype c) (tx_port c) (node_id c) (client c) (mine c)
       (paxos_leader c) (acceptor_addr c) (learner_addr c) (osd c) (max_inst c) (inc_inst c) (reset_inst c) (baseline c)
       (drop_ c) (leader c) (measure_latency c) (run_prepare c) (respond_to_client c) (checkpoint_interval c)
       (ts_interval c) (rate c) (preexec_window c) (Some file)).

(** One option: the result of its parser, and [app]. *)
Definition parse_arg (o : lgopt) arg a : option (Z * app_params P) :=
  let num (parse : cstring -> Z -> Z * Z) := Some ((parse arg 0).1, set_num a o (fun m => (parse arg m).2)) in
  let flag := Some (0, set_num a o (fun _ => 1)) in
  let address := Some ((parse_arg_ip_address arg zero_sockaddr).1, set_addr a o (fun m => (parse_arg_ip_address arg m).2)) in
  match o with
  | o_rx => parse_arg_rx arg a
  | o_tx => parse_arg_tx arg a
  | o_w => parse_arg_w arg a
  | o_lpm => parse_arg_lpm arg a
  | o_rsz => parse_arg_rsz arg a
  | o_bsz => parse_arg_bsz arg a
  | o_pos_lb => let '(ret, x) := parse_arg_uint8 arg (pos_lb a) in Some (ret, set_pos_conf a x (p4xos_conf a))
  | o_num_ac | o_msgtype => num parse_arg_uint8
  | o_node_id | o_port => num parse_arg_uint16
  | o_baseline | o_multi_dbs | o_reset_inst | o_inc_inst | o_run_prepare | o_drop | o_resp | o_latency | o_leader => flag
  | o_osd | o_window | o_max | o_rate | o_cp_interval | o_ts_interval => num parse_arg_uint32
  | o_src | o_leader_addr | o_cliaddr | o_acc_addr | o_learner_addr => address
  | o_app_config => Some (0, set_app_config a arg)
  end.

(** The loop over the options: [inl] is the return of -1, [inr] the options that
    were seen.  [None] in the list is an option [getopt_long] does not know. *)
Fixpoint parse_options (opts : list (option (lgopt * cstring))) (seen : list lgopt) a :
    option ((unit + list lgopt) * app_params P) :=
  match opts with
  | [] => Some (inr seen, a)
  | None :: _ => Some (inl tt, a)
  | Some (o, arg) :: opts =>
      '(ret, a) ← parse_arg o arg a;
      if negb (ret =? 0) then Some (inl tt, a) else parse_options opts (o :: seen) a
  end.

Definition APP_DEFAULT_IP_SRC_ADDR : cstring := str "192.168.4.95:48153".
Definition APP_DEFAULT_IP_LEADER_ADDR : cstring := str "192.168.4.98:9081".
Definition APP_DEFAULT_IP_ACCEPTOR_ADDR : cstring := str "224.0.0.103:9081".
Definition APP_DEFAULT_IP_LEARNER_ADDR : cstring := str "224.0.0.104:9081".

Definition default_num (o : lgopt) : Z :=
  match o with
  | o_num_ac => 1 | o_msgtype => 3 | o_osd => 8 | o_ts_interval => 4 | o_max => 24000000 | o_rate => 10000 | _ => 0
  end.

Definition default_addr (o : lgopt) : cstring :=
  match o with
  | o_leader_addr => APP_DEFAULT_IP_LEADER_ADDR
  | o_acc_addr => APP_DEFAULT_IP_ACCEPTOR_ADDR
  | o_learner_addr => APP_DEFAULT_IP_LEARNER_ADDR
  | _ => APP_DEFAULT_IP_SRC_ADDR
  end.

Definition assign_defaults (seen : list lgopt) a : app_params P :=
  let given o := bool_decide (o ∈ seen) in
  let a := if given o_rsz then a else set_ring_sizes a 1024 1024 1024 1024 in
  let a := if given o_bsz then a else set_bursts a 144 144 144 144 144 144 in
  set_pos_conf a (if given o_pos_lb then pos_lb a else 29)
    (map_conf (fun o m => if given o then m else default_num o)
       (fun o m => if given o then m else (parse_arg_ip_address (default_addr o) m).2) (p4xos_conf a)).

(** [optind] is what [getopt_long] leaves there. *)
Definition app_parse_args (optind : Z) (opts : list (option (lgopt * cstring))) a : option (Z * app_params P) :=
  '(r, a) ← parse_options opts [] a;
  match r with
  | inl _ => Some (-1, a)
  | inr seen =>
      if negb (forallb (fun o => bool_decide (o ∈ seen)) [o_rx; o_tx; o_w; o_lpm]) then Some (-1, a) else
      let a := assign_defaults seen a in
      c ← app_check_every_rx_port_is_tx_enabled a;
      Some (if c <? 0 then -2 else optind - 1, a)
  end.
End args.
