(* ===== verification/P4ArgsInv.v ===== *)
(** * What the command line leaves behind

    Once [app_parse_args] accepts the command line, the data plane can start: the
    bursts are in range, every core is in the state the initialisation expects,
    and every queue that was enabled is read by exactly one core. *)

From S2P Require Import Prelude Bytes PaxosTypes EvConfig P4Packet P4Dpdk P4Sim P4App P4Runtime P4Conserve P4Args.
From Stdlib Require Import String.
#[local] Open Scope Z_scope.
#[local] Notation length := List.length.

Section inv.
Context {D : Dpdk} {DL : DpdkLaws} {St : Strings} {P : Type} (p0 : P).
Implicit Types (a : app_params P) (arg p : cstring) (io : app_lcore_params_io).

(** ** The invariant *)

Definition mask_at a (port queue : Z) : option Z := row ← arr_get (nic_rx_queue_mask a) port; arr_get row queue.

(** The core reads the queue, or sends to the port. *)
Definition reads (u : lcore_union P) (q : Z * Z) : Prop :=
  exists io i, as_io u = Some io /\ i < n_nic_queues (rx io) /\ arr_get (nic_queues (rx io)) i = Some q.
Definition writes (u : lcore_union P) (port : Z) : Prop :=
  exists io i, as_io u = Some io /\ i < n_nic_ports (tx io) /\ arr_get (nic_ports (tx io)) i = Some port.

Definition serves a (x : Z) (q : Z * Z) : Prop := exists lp, arr_get (lcore_params a) x = Some lp /\ reads (lcore_is lp) q.
Definition sends a (x port : Z) : Prop := exists lp, arr_get (lcore_params a) x = Some lp /\ writes (lcore_is lp) port.

(** An I/O core has its queues and ports, and is zero otherwise. *)
Definition fresh_io io : Prop :=
  io = set_nic_ports (set_nic_queues zero_io (nic_queues (rx io)) (n_nic_queues (rx io))) (nic_ports (tx io))
         (n_nic_ports (tx io)) /\
  length (nic_queues (rx io)) = 16%nat /\ 0 <= n_nic_queues (rx io) <= 16 /\
  length (nic_ports (tx io)) = 16%nat /\ 0 <= n_nic_ports (tx io) <= 16.

Definition fresh (u : lcore_union P) : Prop :=
  match u with
  | e_APP_LCORE_DISABLED => True
  | e_APP_LCORE_IO io => fresh_io io
  | e_APP_LCORE_WORKER w => w = zero_worker p0
  end.

Definition bursts a : list Z :=
  [burst_size_io_rx_read a; burst_size_io_rx_write a; burst_size_io_tx_read a; burst_size_io_tx_write a;
   burst_size_worker_read a; burst_size_worker_write a].

Record args_inv a : Prop := {
  inv_lcores : lcores_wf a;
  inv_rows port : 0 <= port < APP_MAX_NIC_PORTS ->
    exists row, arr_get (nic_rx_queue_mask a) port = Some row /\ Z.of_nat (length row) = APP_MAX_RX_QUEUES_PER_NIC_PORT;
  inv_ports : Z.of_nat (length (nic_rx_queue_mask a)) = APP_MAX_NIC_PORTS /\
    Z.of_nat (length (nic_tx_port_mask a)) = APP_MAX_NIC_PORTS;
  inv_fresh x lp : arr_get (lcore_params a) x = Some lp -> fresh (lcore_is lp);
  inv_mask port queue m : mask_at a port queue = Some m -> m = 0 \/ m = 1;
  inv_rx port queue : mask_at a port queue = Some 1 <-> exists x, serves a x (port, queue);
  inv_one x y q : serves a x q -> serves a y q -> x = y;
  inv_tx port m : arr_get (nic_tx_port_mask a) port = Some m -> m <> 0 -> exists x, sends a x port;
  inv_bursts : Forall (fun b => is_u32 b) (bursts a);
}.

(** ** One core is given a queue, a port or the role of a worker *)

Lemma set_lcore_Some a x u a' :
  set_lcore a x u = Some a' ->
  exists lp, arr_get (lcore_params a) x = Some lp /\ a' = set_lcore_params a (lcore_params a') /\
    length (lcore_params a') = length (lcore_params a) /\
    forall y, arr_get (lcore_params a') y = if decide (x = y) then Some (AppLcoreParams u (pool lp)) else arr_get (lcore_params a) y.
Proof.
  intros H. destruct (arr_get (lcore_params a) x) as [lp|] eqn:Hx; [|by unfold set_lcore in H; rewrite Hx in H].
  exists lp. split; [done|]. destruct (set_lcore_runs a x lp u Hx) as (a1 & H1 & H2). rewrite H1 in H. by simplify_eq.
Qed.

(** [a'] is [a] with [u'] for the core [x], which was [u]. *)
Definition recast a x (u u' : lcore_union P) a' : Prop :=
  exists lp, arr_get (lcore_params a) x = Some lp /\ lcore_is lp = u /\ a' = set_lcore_params a (lcore_params a') /\
    length (lcore_params a') = length (lcore_params a) /\
    forall y, arr_get (lcore_params a') y = if decide (x = y) then Some (AppLcoreParams u' (pool lp)) else arr_get (lcore_params a) y.

Lemma set_lcore_recast a x lp u a' :
  arr_get (lcore_params a) x = Some lp -> set_lcore a x u = Some a' -> recast a x (lcore_is lp) u a'.
Proof.
  intros Hx (lp' & Hx' & H)%set_lcore_Some. simplify_eq. by exists lp.
Qed.

Lemma recast_twice a x u u1 u2 a1 a2 : recast a x u u1 a1 -> recast a1 x u1 u2 a2 -> recast a x u u2 a2.
Proof.
  intros (lp & Hx & Hu & E1 & L1 & G1) (lp1 & Hx1 & _ & E2 & L2 & G2).
  rewrite G1, decide_True in Hx1 by done. simplify_eq/=. exists lp. split_and!; [done|done| |lia|].
  - rewrite E2. by rewrite E1.
  - intros y. rewrite G2, G1. by case_decide.
Qed.

Lemma set_lcore_twice a x lp u1 u2 a1 a2 :
  arr_get (lcore_params a) x = Some lp -> set_lcore a x u1 = Some a1 -> set_lcore a1 x u2 = Some a2 ->
  recast a x (lcore_is lp) u2 a2.
Proof.
  intros Hx E1 E2. pose proof (set_lcore_recast _ _ _ _ _ Hx E1) as H1.
  eapply recast_twice; [exact H1|]. destruct (set_lcore_Some _ _ _ _ E2) as (lp2 & Hx2 & _).
  pose proof (set_lcore_recast _ _ _ _ _ Hx2 E2) as H2. destruct H1 as (? & _ & _ & _ & _ & G).
  rewrite G, decide_True in Hx2 by done. by simplify_eq.
Qed.

Lemma rx_assign_effect a port queue lcore a' :
  rx_assign a port queue lcore = Some (0, a') ->
  exists u io qs, recast a lcore u (e_APP_LCORE_IO (set_nic_queues io qs (u32 (n_nic_queues (rx io) + 1)))) a' /\
    as_io u = Some io /\ n_nic_queues (rx io) < 16 /\
    arr_set (nic_queues (rx io)) (n_nic_queues (rx io)) (u16 port, u8 queue) = Some qs.
Proof.
  unfold rx_assign. intros H. repeat (case_match; [done|]). destruct (arr_get (lcore_params a) lcore) as [lp|] eqn:Hx; [|done].
  cbn [mbind option_bind] in H. destruct (as_io (lcore_is lp)) as [io|] eqn:Hio; [|done].
  cbn [mbind option_bind] in H. destruct (find_ _ _ _) as [found|]; [|done]. cbn [mbind option_bind] in H.
  destruct (set_lcore a lcore _) as [a1|] eqn:E1; [|done]. cbn [mbind option_bind] in H. destruct found; [done|].
  destruct (Z.leb_spec APP_MAX_NIC_RX_QUEUES_PER_IO_LCORE (n_nic_queues (rx io))); [done|].
  destruct (arr_set _ _ _) as [qs|] eqn:Hqs; [|done]. cbn [mbind option_bind] in H.
  destruct (set_lcore a1 lcore _) as [a2|] eqn:E2; [|done]. cbn [mbind option_bind] in H. simplify_eq.
  exists (lcore_is lp), io, qs. split_and!; try done. by eapply set_lcore_twice.
Qed.

Lemma tx_assign_effect a port lcore a' :
  tx_assign a port lcore = Some (0, a') ->
  exists u io ps, recast a lcore u (e_APP_LCORE_IO (set_nic_ports io ps (u32 (n_nic_ports (tx io) + 1)))) a' /\
    as_io u = Some io /\ n_nic_ports (tx io) < 16 /\
    arr_set (nic_ports (tx io)) (n_nic_ports (tx io)) (u16 port) = Some ps.
Proof.
  unfold tx_assign. intros H. repeat (case_match; [done|]). destruct (arr_get (lcore_params a) lcore) as [lp|] eqn:Hx; [|done].
  cbn [mbind option_bind] in H. destruct (as_io (lcore_is lp)) as [io|] eqn:Hio; [|done].
  cbn [mbind option_bind] in H. destruct (find_ _ _ _) as [found|]; [|done]. cbn [mbind option_bind] in H.
  destruct (set_lcore a lcore _) as [a1|] eqn:E1; [|done]. cbn [mbind option_bind] in H. destruct found; [done|].
  destruct (Z.leb_spec APP_MAX_NIC_TX_PORTS_PER_IO_LCORE (n_nic_ports (tx io))); [done|].
  destruct (arr_set _ _ _) as [ps|] eqn:Hps; [|done]. cbn [mbind option_bind] in H.
  destruct (set_lcore a1 lcore _) as [a2|] eqn:E2; [|done]. cbn [mbind option_bind] in H. simplify_eq.
  exists (lcore_is lp), io, ps. split_and!; try done. by eapply set_lcore_twice.
Qed.

Lemma recast_core a x u u' a' (Q : lcore_union P -> Prop) y :
  recast a x u u' a' ->
  (exists lp, arr_get (lcore_params a') y = Some lp /\ Q (lcore_is lp)) <->
  if decide (x = y) then Q u' else exists lp, arr_get (lcore_params a) y = Some lp /\ Q (lcore_is lp).
Proof.
  intros (lp & Hx & Hu & _ & _ & G). rewrite G. case_decide; [|done]. split; [by intros (? & ? & ?); simplify_eq/=|].
  intros HQ. by eexists.
Qed.

(** The invariant holds again, and the bursts are as before. *)
Definition kept a a' : Prop := args_inv a' /\ bursts a' = bursts a.

(** A core takes a new role; [nq] is the queue it is given, [txm] the ports that
    are enabled now. *)
Lemma inv_step a rxm txm x u u' a' (nq : option (Z * Z)) :
  args_inv a -> recast (set_masks a rxm txm) x u u' a' -> fresh u' ->
  (forall port, 0 <= port < APP_MAX_NIC_PORTS ->
     exists row, arr_get rxm port = Some row /\ Z.of_nat (length row) = APP_MAX_RX_QUEUES_PER_NIC_PORT) ->
  length rxm = length (nic_rx_queue_mask a) -> length txm = length (nic_tx_port_mask a) ->
  (forall port queue, (row ← arr_get rxm port; arr_get row queue) =
     if decide (nq = Some (port, queue)) then Some 1 else mask_at a port queue) ->
  (forall q, nq = Some q -> mask_at a q.1 q.2 = Some 0) ->
  (forall q, reads u' q <-> reads u q \/ nq = Some q) ->
  (forall port m, arr_get txm port = Some m -> m <> 0 ->
     (exists m0, arr_get (nic_tx_port_mask a) port = Some m0 /\ m0 <> 0) \/ writes u' port) ->
  (forall port, writes u port -> writes u' port) ->
  kept a a'.
Proof.
  intros Hinv Hre Hfr Hrows Hl1 Hl2 Hmask Hnew Hrd Htx Hwr. pose proof Hre as (lp & Hx & Hu & Ea & Hl & G).
  assert (forall y q, serves a' y q <-> serves a y q \/ (y = x /\ nq = Some q)) as Hs.
  { intros y q. unfold serves. rewrite (recast_core _ _ _ _ _ (fun u => reads u q) y Hre). cbn [set_masks lcore_params] in *.
    case_decide as E; [subst y|naive_solver]. rewrite Hrd. split; [|naive_solver].
    intros [H|H]; [left; exists lp; by rewrite Hu|by right]. }
  assert (forall port queue, mask_at a' port queue = if decide (nq = Some (port, queue)) then Some 1 else mask_at a port queue) as Hm.
  { intros port queue. rewrite <-Hmask. rewrite Ea. done. }
  assert (forall q y, nq = Some q -> ~ serves a y q) as Hno.
  { intros [port queue] y Hq Hy. pose proof (Hnew _ Hq) as H0. simpl in H0.
    assert (mask_at a port queue = Some 1) by (apply (inv_rx a Hinv); by exists y). congruence. }
  destruct Hinv as [Iw Irows Iports Ifresh Imask Irx Ione Itx Ib]. split; [|by rewrite Ea]. split.
  - destruct Iw as (? & ? & ?). unfold lcores_wf. rewrite Hl. rewrite Ea. done.
  - rewrite Ea. apply Hrows.
  - rewrite Ea. simpl. rewrite Hl1, Hl2. done.
  - intros y lpy. rewrite G. case_decide; [intros [= <-]; done|apply Ifresh].
  - intros port queue m. rewrite Hm. case_decide; [intros [= <-]; by right|apply Imask].
  - intros port queue. rewrite Hm. setoid_rewrite Hs. case_decide as E; [naive_solver|].
    rewrite Irx. naive_solver.
  - intros y z q. rewrite !Hs. intros [Hy|[-> Hy]] [Hz|[-> Hz]]; [by eapply Ione|by edestruct Hno|by edestruct Hno|done].
  - intros port m. rewrite Ea. simpl. intros H1 H2. unfold sends.
    setoid_rewrite (fun y => recast_core _ _ _ _ _ (fun u => writes u port) y Hre).
    destruct (Htx _ _ H1 H2) as [(m0 & H3 & H4)|H3]; [|exists x; by rewrite decide_True].
    destruct (Itx _ _ H3 H4) as (y & lpy & Hy & Hw). exists y. case_decide as E; [subst y|by exists lpy].
    apply Hwr. cbn [set_masks lcore_params] in Hx. congruence.
  - rewrite Ea. done.
Qed.

Lemma zero_io_fresh : fresh_io zero_io.
Proof. unfold fresh_io. split_and!; try done; simpl; lia. Qed.

Lemma as_io_fresh u io : fresh u -> as_io u = Some io -> fresh_io io.
Proof. destruct u; simpl; intros ? [= <-]; [apply zero_io_fresh|done]. Qed.

Lemma fresh_queues io qs n : fresh_io io -> length qs = 16%nat -> 0 <= n <= 16 -> fresh_io (set_nic_queues io qs n).
Proof. intros (E & ? & ? & ? & ?) ? ?. split_and!; try done; [|simpl; lia..]. rewrite E. done. Qed.

Lemma fresh_ports io ps n : fresh_io io -> length ps = 16%nat -> 0 <= n <= 16 -> fresh_io (set_nic_ports io ps n).
Proof. intros (E & ? & ? & ? & ?) ? ?. split_and!; try done; [|simpl; lia..]. rewrite E. done. Qed.

(** The first [n] elements of an array, and one more. *)
Lemma arr_append {A} (l l' : list A) n x y :
  arr_set l n x = Some l' ->
  (exists i, i < n + 1 /\ arr_get l' i = Some y) <-> (exists i, i < n /\ arr_get l i = Some y) \/ y = x.
Proof.
  intros H. pose proof (fun j => arr_get_set l l' n j x H) as G. split.
  - intros (i & Hi & Hy). rewrite G in Hy. case_decide; [simplify_eq; by right|]. left. exists i. split; [lia|done].
  - intros [(i & Hi & Hy)| ->]; [|exists n; rewrite G, decide_True by done; split; [lia|done]].
    exists i. rewrite G, decide_False by lia. split; [lia|done].
Qed.

Lemma rx_tuple_inv a port queue lcore a' :
  args_inv a -> 0 <= port -> 0 <= queue -> rx_tuple a port queue lcore = Some (0, a') -> kept a a'.
Proof.
  intros Hinv Hp Hq H. unfold rx_tuple in H. pose proof max_ethports as Hmax. unfold APP_MAX_NIC_PORTS in *.
  destruct (Z.leb_spec RTE_MAX_ETHPORTS port), (Z.leb_spec APP_MAX_RX_QUEUES_PER_NIC_PORT queue); try done. cbn [orb] in H.
  destruct (inv_rows a Hinv port) as (row & Hrow & Hlr); [unfold APP_MAX_NIC_PORTS; lia|]. rewrite Hrow in H. cbn [mbind option_bind] in H.
  destruct (arr_get row queue) as [m|] eqn:Hm; [|done]. cbn [mbind option_bind] in H.
  destruct (Z.eqb_spec m 0); [subst m|done]. cbn [negb] in H.
  destruct (arr_set row queue 1) as [row'|] eqn:Hrow'; [|done]. cbn [mbind option_bind] in H.
  destruct (arr_set (nic_rx_queue_mask a) port row') as [rxm|] eqn:Hrxm; [|done]. cbn [mbind option_bind] in H.
  destruct (rx_assign_effect _ _ _ _ _ H) as (u & io & qs & Hre & Hio & Hn & Hqs).
  assert (fresh_io io) as Hf.
  { eapply as_io_fresh; [|done]. destruct Hre as (lp & Hlp & <- & _). by apply (inv_fresh a Hinv lcore). }
  pose proof Hf as (_ & Hlq & Hnq & _). unfold APP_MAX_RX_QUEUES_PER_NIC_PORT in *.
  rewrite (u32_small (n_nic_queues (rx io) + 1)), (u16_small port) in * by lia.
  replace (u8 queue) with queue in * by (unfold u8; rewrite Z.mod_small; lia).
  eapply (inv_step a rxm (nic_tx_port_mask a) lcore u _ a' (Some (port, queue)) Hinv Hre).
  - apply fresh_queues; [done| |lia]. by erewrite arr_set_length.
  - intros p Hpr. rewrite (arr_get_set _ _ _ p _ Hrxm). case_decide; [|by apply (inv_rows a Hinv)].
    eexists. split; [done|]. by rewrite (arr_set_length _ _ _ _ Hrow').
  - by eapply arr_set_length.
  - done.
  - intros p q. rewrite (arr_get_set _ _ _ p _ Hrxm). unfold mask_at. destruct (decide (port = p)) as [<-|Hne].
    + simpl. rewrite (arr_get_set _ _ _ q _ Hrow'), Hrow. simpl. destruct (decide (queue = q)); destruct (decide _); congruence.
    + rewrite decide_False by congruence. done.
  - intros q [= <-]. unfold mask_at. simpl. by rewrite Hrow.
  - intros q. unfold reads. rewrite Hio. pose proof (arr_append _ _ _ _ q Hqs) as Happ. split.
    + intros (io' & i & [= <-] & Hi & Hg). destruct (proj1 Happ (ex_intro _ i (conj Hi Hg))) as [(j & ? & ?)| ->]; [left|by right].
      by exists io, j.
    + intros [(io' & i & [= <-] & Hi & Hg)|[= <-]]; [destruct (proj2 Happ (or_introl (ex_intro _ i (conj Hi Hg)))) as (j & ? & ?)
      |destruct (proj2 Happ (or_intror eq_refl)) as (j & ? & ?)]; eexists _, j; done.
  - intros p m Hm' Hm0. left. by exists m.
  - intros p (io' & i & Hio' & ?). rewrite Hio in Hio'. simplify_eq. by eexists _, i.
Qed.

(** No queue is given. *)
Lemma inv_step_tx a txm x u u' a' :
  args_inv a -> recast (set_masks a (nic_rx_queue_mask a) txm) x u u' a' -> fresh u' ->
  length txm = length (nic_tx_port_mask a) ->
  (forall q, reads u' q <-> reads u q) ->
  (forall port m, arr_get txm port = Some m -> m <> 0 ->
     (exists m0, arr_get (nic_tx_port_mask a) port = Some m0 /\ m0 <> 0) \/ writes u' port) ->
  (forall port, writes u port -> writes u' port) ->
  kept a a'.
Proof.
  intros Hinv Hre Hf Hl Hrd Htx Hwr.
  eapply (inv_step a _ txm x u u' a' None Hinv Hre); try done; [apply (inv_rows a Hinv)|].
  intros q. rewrite Hrd. naive_solver.
Qed.

Lemma tx_tuple_inv a port lcore a' :
  args_inv a -> 0 <= port -> tx_tuple a port lcore = Some (0, a') -> kept a a'.
Proof.
  intros Hinv Hp H. unfold tx_tuple in H. pose proof max_ethports as Hmax. unfold APP_MAX_NIC_PORTS in *.
  destruct (Z.leb_spec RTE_MAX_ETHPORTS port); [done|].
  destruct (arr_get (nic_tx_port_mask a) port) as [m|] eqn:Hm; [|done]. cbn [mbind option_bind] in H.
  destruct (Z.eqb_spec m 0); [subst m|done]. cbn [negb] in H.
  destruct (arr_set (nic_tx_port_mask a) port 1) as [txm|] eqn:Htxm; [|done]. cbn [mbind option_bind] in H.
  destruct (tx_assign_effect _ _ _ _ H) as (u & io & ps & Hre & Hio & Hn & Hps).
  assert (fresh_io io) as Hf.
  { eapply as_io_fresh; [|done]. destruct Hre as (lp & Hlp & <- & _). by apply (inv_fresh a Hinv lcore). }
  pose proof Hf as (_ & _ & _ & Hlp & Hnp).
  rewrite (u32_small (n_nic_ports (tx io) + 1)), (u16_small port) in * by lia.
  assert (forall p : Z, (writes u p \/ p = port) -> writes (e_APP_LCORE_IO (set_nic_ports io ps (n_nic_ports (tx io) + 1))) p) as Hw.
  { intros p Hor. destruct (proj2 (arr_append _ _ _ _ p Hps)) as (i & Hi & Hg); [|by eexists _, i].
    destruct Hor as [(io' & i & Hio' & ?)|]; [|by right]. rewrite Hio in Hio'. simplify_eq. left. by exists i. }
  eapply (inv_step_tx a txm lcore u _ a' Hinv Hre).
  - apply fresh_ports; [done| |lia]. by erewrite arr_set_length.
  - by eapply arr_set_length.
  - intros q. unfold reads. rewrite Hio. split; intros (io' & i & [= <-] & ?); by eexists _, i.
  - intros p m Hg Hm0. rewrite (arr_get_set _ _ _ p _ Htxm) in Hg. case_decide; [right; apply Hw; by right|].
    left. by exists m.
  - intros p Hwr. apply Hw. by left.
Qed.

Lemma w_assign_inv a lcore a' : args_inv a -> w_assign p0 a lcore = Some (0, a') -> kept a a'.
Proof.
  intros Hinv H. unfold w_assign in H. repeat (case_match; [done|]).
  destruct (arr_get (lcore_params a) lcore) as [lp|] eqn:Hlp; [|done]. cbn [mbind option_bind] in H.
  destruct (as_worker p0 (lcore_is lp)) as [w|] eqn:Hw; [|done].
  destruct (set_lcore a lcore _) as [a1|] eqn:Ha1; [|done]. cbn [mbind option_bind] in H. simplify_eq.
  pose proof (set_lcore_recast _ _ _ _ _ Hlp Ha1) as Hre. pose proof (inv_fresh a Hinv _ _ Hlp) as Hf.
  assert ((forall q, ~ reads (lcore_is lp) q) /\ (forall p : Z, ~ writes (lcore_is lp) p) /\ w = zero_worker p0) as (Hr & Hwr & ->).
  { destruct (lcore_is lp) as [|io|w']; simpl in *; [|done|].
    - split_and!; [..|congruence]; intros ? (io & i & [= <-] & Hi & [? ?]%arr_get_Some); simpl in Hi; lia.
    - split_and!; [by intros ? (? & ? & ? & ?)..|congruence]. }
  eapply (inv_step_tx a (nic_tx_port_mask a) lcore (lcore_is lp) _ a' Hinv).
  - destruct a. exact Hre.
  - done.
  - done.
  - intros q. split; [by intros (? & ? & ? & ?)|by intros ?%Hr].
  - intros p m Hg Hm0. left. by exists m.
  - by intros p ?%Hwr.
Qed.

(** ** Loops *)

Lemma unsigned_all_range l vs : unsigned_all l = Some vs -> Forall (fun v => 0 <= v < 2 ^ 32) vs.
Proof.
  revert vs. induction l as [|s l IH]; simpl; intros vs H; [by simplify_eq|].
  destruct (strtoul0 s) as [[v err] rest]. case_match; [done|].
  destruct (unsigned_all l) as [ws|]; [|done]. simplify_eq/=. constructor; [|by apply IH].
  apply (u32_range v).
Qed.

Lemma vals_until_range s q sep n vs : vals_until s q sep n = Some vs -> Forall (fun v => 0 <= v < 2 ^ 32) vs.
Proof. unfold vals_until, str_to_unsigned_vals. case_match; [done|]. apply unsigned_all_range. Qed.

Lemma kept_trans a a1 a2 : kept a a1 -> kept a1 a2 -> kept a a2.
Proof. intros [_ E1] [I2 E2]. split; [done|congruence]. Qed.

Lemma tuples_kept n f fuel p k a a' :
  (forall a vals a', Forall (fun v => 0 <= v < 2 ^ 32) vals -> args_inv a -> f a vals = Some (0, a') -> kept a a') ->
  args_inv a -> tuples fuel n f p k a = Some (0, a') -> kept a a'.
Proof.
  intros Hf. revert p k a. induction fuel as [|fuel IH]; intros p k a Ha H; [done|]. cbn [tuples] in H.
  destruct (strchr p 40) as [p1|]; [|destruct (k =? 0); by simplify_eq]. unfold tuple in H.
  destruct (strchr p1 41) as [q|]; [|done]. destruct (vals_until _ _ _ _) as [vals|] eqn:Hv; [|done].
  cbn [mbind option_bind] in H. destruct (_ =? n); [|done].
  destruct (f a vals) as [[ret a1]|] eqn:Hr; [|done]. cbn [mbind option_bind] in H.
  destruct (Z.eqb_spec ret 0); [subst ret|simpl in H; congruence]. cbn [negb] in H. case_match; [done|].
  assert (kept a a1) as Hk by (eapply Hf; [by eapply vals_until_range|done..]).
  eapply kept_trans; [exact Hk|]. eapply IH; [apply Hk|exact H].
Qed.

Lemma parse_arg_rx_kept arg a a' : args_inv a -> parse_arg_rx arg a = Some (0, a') -> kept a a'.
Proof.
  intros Ha. unfold parse_arg_rx. case_match; [done|]. apply tuples_kept; [|done]. intros a1 vals a2 Hv Ha1 H1.
  destruct vals as [|port [|queue [|lcore [|]]]]; try done. rewrite !Forall_cons in Hv. cbn beta in Hv.
  eapply rx_tuple_inv; [done|..|exact H1]; lia.
Qed.

Lemma parse_arg_tx_kept arg a a' : args_inv a -> parse_arg_tx arg a = Some (0, a') -> kept a a'.
Proof.
  intros Ha. unfold parse_arg_tx. case_match; [done|]. apply tuples_kept; [|done]. intros a1 vals a2 Hv Ha1 H1.
  destruct vals as [|port [|lcore [|]]]; try done. rewrite !Forall_cons in Hv. cbn beta in Hv. eapply tx_tuple_inv; [done|..|exact H1]; lia.
Qed.

Lemma w_loop_kept fuel p k a a' : args_inv a -> w_loop p0 fuel p k a = Some (0, a') -> kept a a'.
Proof.
  revert p k a. induction fuel as [|fuel IH]; intros p k a Ha Hr; [done|]. cbn [w_loop] in Hr.
  destruct p as [|b p]; [destruct (k =? 0); by simplify_eq|]. destruct (strtoul0 _) as [[v err] rest].
  destruct err; [done|]. destruct (w_assign p0 a (u32 v)) as [[ret a1]|] eqn:Hw; [|done]. cbn [mbind option_bind] in Hr.
  destruct (Z.eqb_spec ret 0); [subst ret|simpl in Hr; congruence]. cbn [negb] in Hr. case_match; [done|].
  pose proof (w_assign_inv _ _ _ Ha Hw) as Hk. destruct (strchr _ _) as [q|] eqn:Hq; [|by simplify_eq].
  eapply kept_trans; [exact Hk|]. eapply IH; [apply Hk|exact Hr].
Qed.

Lemma lpm_loop_kept fuel p a a' : args_inv a -> lpm_loop fuel p a = Some (0, a') -> kept a a'.
Proof.
  revert p a. induction fuel as [|fuel IH]; intros p a Ha Hr; [done|]. cbn [lpm_loop] in Hr.
  destruct p as [|b p]; [destruct (n_lpm_rules a =? 0); by simplify_eq|].
  destruct (lpm_rule_at (b :: p) a) as [[[ret p'] a1]|] eqn:Hl; [|done]. cbn [mbind option_bind] in Hr.
  destruct (Z.eqb_spec ret 0); [subst ret|simpl in Hr; congruence]. cbn [negb] in Hr.
  assert (exists rs n, a1 = set_lpm_rules a rs n) as (rs & n & ->).
  { unfold lpm_rule_at in Hl. destruct (strchr (b :: p) 47); [|done]. destruct (vals_until _ _ _ _) as [vals|]; [|done].
    cbn [mbind option_bind] in Hl. destruct vals as [|? [|? [|? [|? [|]]]]]; try done.
    destruct (strtoul0 _) as [[? ?] ?]. case_match; [done|]. case_match; [|done]. destruct (strtoul0 _) as [[? ?] ?].
    case_match; [done|]. case_match; [done|]. case_match; [done|]. destruct (arr_set _ _ _); [|done].
    simplify_eq/=. by eexists _, _. }
  destruct (strchr p' 59) as [q|]; [|done].
  assert (kept a (set_lpm_rules a rs n)) as Hk by (split; [by destruct Ha|done]).
  eapply kept_trans; [exact Hk|]. eapply IH; [apply Hk|exact Hr].
Qed.

Lemma pair_at_range p x y x' y' q : pair_at p x y = Some (x', y', q) -> is_u32 x -> is_u32 y -> is_u32 x' /\ is_u32 y'.
Proof.
  unfold pair_at. destruct (strchr p 41); [|intros; by simplify_eq].
  destruct (vals_until _ _ _ _) as [vals|] eqn:Hv; [|done]. intros H Hx Hy. simplify_eq/=. apply vals_until_range in Hv.
  assert (forall i z, is_u32 z -> is_u32 (stored vals i z)) as Hs; [|by split; apply Hs].
  intros i z Hz. unfold stored. destruct (vals !! i) as [v|] eqn:E; [|done].
  pose proof (Forall_lookup_1 _ _ _ _ Hv E). simpl in *. lia.
Qed.

Lemma parse_arg_bsz_kept arg a a' :
  args_inv a -> parse_arg_bsz arg a = Some (0, a') -> args_inv a' /\ check_bursts a' = 0.
Proof.
  intros Ha H. unfold parse_arg_bsz in H. case_match; [done|].
  pose proof (inv_bursts a Ha) as Hb. unfold bursts in Hb. rewrite !Forall_cons in Hb. destruct Hb as (? & ? & ? & ? & ? & ? & _).
  destruct (pair_at arg _ _) as [[[rr rw] q1]|] eqn:E1; [|done]. cbn [mbind option_bind] in H.
  destruct q1 as [q1|]; [|done]. destruct (strchr q1 40) as [p1|]; [|done]. cbn [set_bursts burst_size_worker_read burst_size_worker_write burst_size_io_tx_read burst_size_io_tx_write] in H.
  destruct (pair_at p1 _ _) as [[[wr ww] q2]|] eqn:E2; [|done]. cbn [mbind option_bind] in H.
  destruct q2 as [q2|]; [|done]. destruct (strchr q2 40) as [p2|]; [|done].
  destruct (pair_at p2 _ _) as [[[tr tw] q3]|] eqn:E3; [|done]. cbn [mbind option_bind] in H.
  destruct q3 as [q3|]; [|done]. injection H as Hc <-. split; [|done].
  apply pair_at_range in E1; [|lia..]. apply pair_at_range in E2; [|lia..]. apply pair_at_range in E3; [|lia..].
  destruct Ha as [? ? ? ? ? ? ? ? ?]. split; try done. unfold bursts. simpl. rewrite !Forall_cons, Forall_nil. lia.
Qed.

(** ** The fuel of the parsers is enough: every turn consumes a character *)

Lemma strchr_Some s c q : strchr s c = Some q -> (length q <= length s)%nat /\ exists b q', q = b :: q' /\ Z_of_byte b = c.
Proof.
  induction s as [|b s IH]; simpl; [done|]. destruct (Z.eqb_spec (Z_of_byte b) c); intros H.
  - injection H as <-. split; [done|]. by exists b, s.
  - destruct (IH H) as (? & ?). split; [lia|done].
Qed.

Lemma tuple_shorter p p1 n vals q :
  strchr p 40 = Some p1 -> tuple p1 n = Some (Some (vals, q)) -> (length q < length p)%nat.
Proof.
  intros (Hl & b & p2 & -> & Hb)%strchr_Some H. unfold tuple in H. simpl in H. destruct (Z.eqb_spec (Z_of_byte b) 41); [lia|].
  destruct (strchr p2 41) as [q2|] eqn:Hq; [|done]. apply strchr_Some in Hq as (? & _).
  destruct (vals_until _ _ _ _); [|done]. simpl in *. case_match; [|done]. simplify_eq. lia.
Qed.

Lemma tuples_enough fuel fuel' n f p k a :
  (length p < fuel)%nat -> (length p < fuel')%nat -> tuples fuel n f p k a = tuples fuel' n f p k a.
Proof.
  revert fuel' p k a. induction fuel as [|fuel IH]; intros [|fuel'] p k a H1 H2; try lia. cbn [tuples].
  destruct (strchr p 40) as [p1|] eqn:Hp; [|done]. destruct (tuple p1 n) as [[[vals q]|]|] eqn:Ht; [|done..]. cbn [mbind option_bind].
  pose proof (tuple_shorter _ _ _ _ _ Hp Ht). destruct (f a vals) as [[ret a1]|]; [|done]. cbn [mbind option_bind].
  case_match; [done|]. case_match; [done|]. apply IH; lia.
Qed.

Lemma w_loop_enough fuel fuel' p k a :
  (length p < fuel)%nat -> (length p < fuel')%nat -> w_loop p0 fuel p k a = w_loop p0 fuel' p k a.
Proof.
  revert fuel' p k a. induction fuel as [|fuel IH]; intros [|fuel'] p k a H1 H2; try lia. cbn [w_loop].
  destruct p as [|b p]; [done|]. destruct (strtoul0 _) as [[v err] rest]. destruct err; [done|].
  destruct (w_assign p0 a (u32 v)) as [[ret a1]|]; [|done]. cbn [mbind option_bind]. case_match; [done|]. case_match; [done|].
  destruct (strchr (b :: p) 44) as [q|] eqn:Hq; [|done]. apply strchr_Some in Hq as (Hl & c & q' & -> & _).
  simpl in *. rewrite drop_0. apply IH; lia.
Qed.

Lemma lpm_rule_shorter p a p' a' : lpm_rule_at p a = Some (0, p', a') -> (length p' < length p)%nat.
Proof.
  intros H. unfold lpm_rule_at in H. destruct (strchr p 47) as [q|] eqn:Hq; [|done].
  apply strchr_Some in Hq as (Hl & c & q' & -> & _). destruct (vals_until _ _ _ _) as [vals|]; [|done].
  cbn [mbind option_bind] in H. destruct vals as [|? [|? [|? [|? [|]]]]]; try done.
  change (drop 1 (c :: q')) with (drop 0 q') in H. rewrite drop_0 in H. destruct (strtoul0 q') as [[? ?] ?]. case_match; [done|].
  destruct (strchr q' 62) as [r|] eqn:Hr; [|done]. apply strchr_Some in Hr as (Hl2 & c2 & r' & -> & _).
  destruct (strtoul0 _) as [[? ?] ?]. case_match; [done|]. case_match; [done|]. case_match; [done|].
  destruct (arr_set _ _ _); [|done]. simplify_eq/=. rewrite drop_0. lia.
Qed.

Lemma lpm_loop_enough fuel fuel' p a :
  (length p < fuel)%nat -> (length p < fuel')%nat -> lpm_loop fuel p a = lpm_loop fuel' p a.
Proof.
  revert fuel' p a. induction fuel as [|fuel IH]; intros [|fuel'] p a H1 H2; try lia. cbn [lpm_loop].
  destruct p as [|b p]; [done|]. destruct (lpm_rule_at (b :: p) a) as [[[ret p'] a1]|] eqn:Hl; [|done]. cbn [mbind option_bind].
  destruct (Z.eqb_spec ret 0) as [->|]; [|done]. cbn [negb]. apply lpm_rule_shorter in Hl.
  destruct (strchr p' 59) as [q|] eqn:Hq; [|done]. apply strchr_Some in Hq as (? & c & q' & -> & _).
  simpl in *. rewrite drop_0. apply IH; lia.
Qed.

(** ** Lookups *)

Lemma find_some {A} n i (f : Z -> option (option A)) j (Q : A -> Prop) :
  (forall k, i <= k < i + Z.of_nat n -> f k = Some None \/ exists x, f k = Some (Some x) /\ Q x) ->
  i <= j < i + Z.of_nat n -> f j <> Some None -> exists x, find_ n i f = Some (Some x) /\ Q x.
Proof.
  revert i. induction n as [|n IH]; intros i Hf Hj Hx; [lia|]. cbn [find_].
  destruct (Hf i) as [E|(x & -> & ?)]; [lia| |by exists x]. rewrite E. cbn [mbind option_bind].
  apply IH; [intros; apply Hf; lia| |done]. destruct (decide (j = i)) as [->|]; [done|lia].
Qed.

Lemma find_none {A} n i (f : Z -> option (option A)) :
  find_ n i f = Some None <-> forall k, i <= k < i + Z.of_nat n -> f k = Some None.
Proof.
  revert i. induction n as [|n IH]; intros i; cbn [find_]; [split; [lia|done]|]. split.
  - intros H k Hk. destruct (f i) as [[x|]|] eqn:E; try done. simpl in H.
    destruct (decide (k = i)) as [->|]; [done|]. apply (proj1 (IH (i + 1)) H). lia.
  - intros H. rewrite H by lia. simpl. apply IH. intros k Hk. apply H. lia.
Qed.

Lemma find_Some {A} n i (f : Z -> option (option A)) x : find_ n i f = Some (Some x) -> exists k, f k = Some (Some x).
Proof.
  revert i. induction n as [|n IH]; intros i; cbn [find_]; [done|]. intros H.
  destruct (f i) as [[y|]|] eqn:E; simpl in H; [|by eapply IH|done]. exists i. by simplify_eq.
Qed.

(** The search of one core through its queues or ports. *)
Lemma search_from {A} (l : list A) n (t : A -> bool) (x : Z) i :
  0 <= i -> i + Z.of_nat n <= Z.of_nat (length l) ->
  let r := find_ n i (fun i => q ← arr_get l i; Some (if t q then Some x else None)) in
  (r = Some None /\ forall k q, i <= k < i + Z.of_nat n -> arr_get l k = Some q -> t q = false) \/
  (r = Some (Some x) /\ exists k q, i <= k < i + Z.of_nat n /\ arr_get l k = Some q /\ t q = true).
Proof.
  revert i. induction n as [|n IH]; intros i Hi Hn; cbn [find_]; [left; split; [done|lia]|].
  destruct (arr_get_in l i) as [q Hq]; [lia|]. rewrite Hq. cbn [mbind option_bind].
  destruct (t q) eqn:Ht; [right; split; [done|]; exists i, q; split_and!; (lia || done)|].
  destruct (IH (i + 1)) as [[-> Hk]|[-> (k & q' & ? & ? & ?)]]; [lia..| |right; split; [done|]; exists k, q'; split_and!; (lia || done)].
  left. split; [done|]. intros k q' Hk' Hg. destruct (decide (k = i)) as [->|]; [congruence|]. apply (Hk k); [lia|done].
Qed.

Lemma search {A} (l : list A) n (t : A -> bool) (x : Z) :
  0 <= n <= Z.of_nat (length l) ->
  let r := find_ (Z.to_nat n) 0 (fun i => q ← arr_get l i; Some (if t q then Some x else None)) in
  (r = Some None /\ forall k q, k < n -> arr_get l k = Some q -> t q = false) \/
  (r = Some (Some x) /\ exists k q, k < n /\ arr_get l k = Some q /\ t q = true).
Proof.
  intros Hn. destruct (search_from l (Z.to_nat n) t x 0) as [[-> H]|[-> (k & q & ? & ? & ?)]]; [lia..| |right; split; [done|]; exists k, q; split_and!; (lia || done)].
  left. split; [done|]. intros k q Hk Hg. apply (H k); [|done]. apply arr_get_lt in Hg. lia.
Qed.

Lemma get_lcore_for_nic_rx a x port queue :
  args_inv a -> serves a x (port, queue) -> app_get_lcore_for_nic_rx a port queue = Some (Some x).
Proof.
  intros Ha Hx. pose proof max_lcore as Hmax. pose proof (inv_lcores a Ha) as Hwf. unfold app_get_lcore_for_nic_rx.
  assert (Z.of_nat n_lcores = RTE_MAX_LCORE) as Hn by (unfold n_lcores, APP_MAX_LCORES; lia).
  match goal with |- find_ _ _ ?f = _ => destruct (find_some n_lcores 0 f x (fun y => y = x)) as (y & Hy & ->); [| | |exact Hy] end.
  - intros k Hk. destruct (arr_get_lcore a k Hwf) as [lp Hlp]; [lia|]. rewrite Hlp. cbn [mbind option_bind].
    destruct (lcore_is lp) as [|io|w] eqn:Hu; [by left| |by left].
    pose proof (inv_fresh a Ha _ _ Hlp) as Hf. rewrite Hu in Hf. destruct Hf as (_ & Hl & Hnq & _).
    unfold APP_MAX_NIC_RX_QUEUES_PER_IO_LCORE. rewrite Z.min_l by lia.
    destruct (search (nic_queues (rx io)) (n_nic_queues (rx io)) (fun q => (q.1 =? port) && (q.2 =? queue)) k)
      as [[-> _]|[-> (i & [p q] & Hi & Hg & Ht)]]; [lia|by left|right]. exists k. split; [done|].
    apply (inv_one a Ha _ _ (port, queue)); [|done]. exists lp. split; [done|]. exists io, i. rewrite Hu. split_and!; [done|done|].
    simpl in Ht. apply andb_true_iff in Ht as [?%Z.eqb_eq ?%Z.eqb_eq]. congruence.
  - destruct Hx as (lp & Hlp%arr_get_lt & _). destruct Hwf as (? & _). lia.
  - destruct Hx as (lp & Hlp & io & i & Hio & Hi & Hg). rewrite Hlp. cbn [mbind option_bind].
    destruct (lcore_is lp) as [|io'|w] eqn:Hu; simplify_eq/=; [apply arr_get_Some in Hg as [? _]; simpl in Hi; lia|].
    pose proof (inv_fresh a Ha _ _ Hlp) as Hf. rewrite Hu in Hf. destruct Hf as (_ & Hl & Hnq & _).
    unfold APP_MAX_NIC_RX_QUEUES_PER_IO_LCORE. rewrite Z.min_l by lia.
    destruct (search (nic_queues (rx io)) (n_nic_queues (rx io)) (fun q => (q.1 =? port) && (q.2 =? queue)) x)
      as [[_ Hno]|[-> _]]; [lia| |done]. specialize (Hno i _ Hi Hg). simpl in Hno. by rewrite !Z.eqb_refl in Hno.
Qed.

Lemma get_lcore_for_nic_tx a x port :
  args_inv a -> sends a x port -> exists y, app_get_lcore_for_nic_tx a port = Some (Some y).
Proof.
  intros Ha Hx. pose proof max_lcore as Hmax. pose proof (inv_lcores a Ha) as Hwf. unfold app_get_lcore_for_nic_tx.
  assert (Z.of_nat n_lcores = RTE_MAX_LCORE) as Hn by (unfold n_lcores, APP_MAX_LCORES; lia).
  match goal with |- exists _, find_ _ _ ?f = _ => destruct (find_some n_lcores 0 f x (fun _ => True)) as (y & Hy & _); [| | |exists y; exact Hy] end.
  - intros k Hk. destruct (arr_get_lcore a k Hwf) as [lp Hlp]; [lia|]. rewrite Hlp. cbn [mbind option_bind].
    destruct (lcore_is lp) as [|io|w] eqn:Hu; [by left| |by left].
    pose proof (inv_fresh a Ha _ _ Hlp) as Hf. rewrite Hu in Hf. destruct Hf as (_ & _ & _ & Hl & Hnp).
    unfold APP_MAX_NIC_TX_PORTS_PER_IO_LCORE. rewrite Z.min_l by lia.
    destruct (search (nic_ports (tx io)) (n_nic_ports (tx io)) (fun z => z =? port) k) as [[-> _]|[-> _]]; [lia|by left|right; by exists k].
  - destruct Hx as (lp & Hlp%arr_get_lt & _). destruct Hwf as (? & _). lia.
  - destruct Hx as (lp & Hlp & io & i & Hio & Hi & Hg). rewrite Hlp. cbn [mbind option_bind].
    destruct (lcore_is lp) as [|io'|w] eqn:Hu; simplify_eq/=; [apply arr_get_Some in Hg as [? _]; simpl in Hi; lia|].
    pose proof (inv_fresh a Ha _ _ Hlp) as Hf. rewrite Hu in Hf. destruct Hf as (_ & _ & _ & Hl & Hnp).
    unfold APP_MAX_NIC_TX_PORTS_PER_IO_LCORE. rewrite Z.min_l by lia.
    destruct (search (nic_ports (tx io)) (n_nic_ports (tx io)) (fun z => z =? port) x) as [[_ Hno]|[-> _]]; [lia| |done].
    specialize (Hno i _ Hi Hg). simpl in Hno. by rewrite Z.eqb_refl in Hno.
Qed.

(** ** The whole command line *)

Lemma arr_get_repeat {A} (x y : A) n i : arr_get (repeat x n) i = Some y -> y = x.
Proof. intros [_ H]%arr_get_Some. apply list_elem_of_lookup_2 in H. by apply list_elem_of_In, repeat_spec in H. Qed.

Lemma zero_app_inv : args_inv zero_app.
Proof.
  pose proof max_lcore. pose proof max_ethports.
  assert (forall x q, ~ serves zero_app x q) as Hs.
  { intros x q (lp & ->%arr_get_repeat & io & i & [= <-] & Hi & [? _]%arr_get_Some). simpl in Hi. lia. }
  assert (forall port queue m, mask_at zero_app port queue = Some m -> m = 0) as Hm.
  { intros port queue m. unfold mask_at. simpl. destruct (arr_get _ _) as [row|] eqn:E; [|done].
    apply arr_get_repeat in E as ->. apply arr_get_repeat. }
  split.
  - unfold lcores_wf. simpl. unfold zeros, APP_MAX_LCORES. rewrite !repeat_length. lia.
  - intros port Hport. unfold APP_MAX_NIC_PORTS in *. simpl.
    destruct (arr_get_in (repeat (zeros APP_MAX_RX_QUEUES_PER_NIC_PORT) (Z.to_nat RTE_MAX_ETHPORTS)) port) as [row E].
    { rewrite repeat_length. lia. }
    exists row. split; [done|]. by apply arr_get_repeat in E as ->.
  - simpl. unfold zeros, APP_MAX_NIC_PORTS. rewrite !repeat_length. lia.
  - by intros x lp ->%arr_get_repeat.
  - intros port queue m ->%Hm. by left.
  - intros port queue. split; [by intros ?%Hm|by intros (x & ?%Hs)].
  - by intros x y q ?%Hs.
  - by intros port m ->%arr_get_repeat.
  - unfold bursts. simpl. by repeat constructor.
Qed.

Lemma parse_arg_kept o arg a a' :
  args_inv a -> parse_arg p0 o arg a = Some (0, a') ->
  args_inv a' /\ if decide (o = o_bsz) then check_bursts a' = 0 else bursts a' = bursts a.
Proof.
  intros Ha H.
  assert (forall pos c, kept a (set_pos_conf a pos c)) as Hconf by (intros pos c; split; [by destruct Ha|done]).
  destruct o; cbn [parse_arg] in H; 
    try (first [injection H as _ <-|injection H as <-]; apply Hconf).
  - by eapply parse_arg_rx_kept.
  - by eapply parse_arg_tx_kept.
  - unfold parse_arg_w in H. case_match; [done|]. by eapply w_loop_kept.
  - unfold parse_arg_lpm in H. case_match; [done|]. by eapply lpm_loop_kept.
  - unfold parse_arg_rsz in H. case_match; [done|]. destruct (str_to_unsigned_vals _ _ _ _); [|done]. simpl in H.
    case_match; [done|]. case_match; [done|]. simplify_eq. split; [by destruct Ha|done].
  - by eapply parse_arg_bsz_kept.
  - destruct (parse_arg_uint8 arg (pos_lb a)). injection H as _ <-. apply Hconf.
Qed.

Lemma parse_options_inv opts seen a seen' a' :
  args_inv a -> (o_bsz ∈ seen -> check_bursts a = 0) -> parse_options p0 opts seen a = Some (inr seen', a') ->
  args_inv a' /\ (o_bsz ∈ seen' -> check_bursts a' = 0).
Proof.
  revert seen a. induction opts as [|[[o arg]|] opts IH]; intros seen a Ha Hb H; cbn [parse_options] in H; [by simplify_eq| |done].
  destruct (parse_arg p0 o arg a) as [[ret a1]|] eqn:E; [|done]. cbn [mbind option_bind] in H.
  destruct (Z.eqb_spec ret 0); [subst ret|done]. cbn [negb] in H. destruct (parse_arg_kept _ _ _ _ Ha E) as [Ha1 Hb1].
  eapply IH; [exact Ha1| |exact H]. intros Hin. case_decide; [done|]. apply elem_of_cons in Hin as [?|Hin]; [congruence|].
  rewrite <-(Hb Hin). unfold bursts in Hb1. unfold check_bursts. injection Hb1 as -> -> -> -> -> ->. done.
Qed.

Lemma count_queues a port queue n :
  args_inv a -> mask_at a port queue = Some 1 -> app_get_nic_rx_queues_per_port a port = Some n -> 0 < n.
Proof.
  intros Ha Hm Hn. unfold mask_at in Hm. destruct (arr_get (nic_rx_queue_mask a) port) as [row|] eqn:Hrow; [|done]. simpl in Hm.
  pose proof (arr_get_lt _ _ _ Hrow) as Hp. rewrite (proj1 (inv_ports a Ha)) in Hp.
  destruct (inv_rows a Ha port Hp) as (row' & Hrow' & Hl). rewrite Hrow in Hrow'. injection Hrow' as <-.
  unfold app_get_nic_rx_queues_per_port in Hn. rewrite (proj2 (Z.leb_gt _ _)), Hrow in Hn by lia. cbn [mbind option_bind] in Hn.
  pose proof (arr_get_lt _ _ _ Hm) as Hq. rewrite Hl in Hq. unfold APP_MAX_RX_QUEUES_PER_NIC_PORT in *.
  match type of Hn with for_ ?k ?i ?f ?s0 = _ => destruct (for_inv (fun j s => 0 <= s <= j /\ (queue < j -> 0 < s)) k i f s0) as (s' & Hs & _ & Hpos) end.
  - lia.
  - intros j s Hj [Hs Hpos]. destruct (arr_get_in row j) as [x Hx]; [lia|]. rewrite Hx. cbn [mbind option_bind].
    eexists. split; [done|]. destruct (Z.eqb_spec x 1).
    + rewrite u32_small by lia. lia.
    + split; [lia|]. intros Hqj. apply Hpos. destruct (decide (queue = j)); [congruence|lia].
  - rewrite Hs in Hn. injection Hn as <-. apply Hpos. lia.
Qed.

Lemma rx_ports_send a c port queue :
  args_inv a -> app_check_every_rx_port_is_tx_enabled a = Some c -> 0 <= c -> mask_at a port queue = Some 1 -> exists x, sends a x port.
Proof.
  intros Ha H Hc Hm. unfold app_check_every_rx_port_is_tx_enabled in H. pose proof max_ethports.
  destruct (find_ _ _ _) as [[x|]|] eqn:E; [|clear H|done].
  { destruct (find_Some _ _ _ _ E) as (k & Hk). destruct (app_get_nic_rx_queues_per_port a k); [|done].
    simpl in Hk. destruct (arr_get _ _); [|done]. simpl in Hk. case_match; simplify_eq/=; lia. }
  assert (0 <= port < APP_MAX_NIC_PORTS) as Hp.
  { unfold mask_at in Hm. destruct (arr_get (nic_rx_queue_mask a) port) as [row|] eqn:Hrow; [|done].
    apply arr_get_lt in Hrow. rewrite (proj1 (inv_ports a Ha)) in Hrow. lia. }
  apply find_none with (k := port) in E; [|unfold APP_MAX_NIC_PORTS in *; lia].
  destruct (app_get_nic_rx_queues_per_port a port) as [n|] eqn:Hn; [|done]. cbn [mbind option_bind] in E.
  destruct (arr_get (nic_tx_port_mask a) port) as [m|] eqn:Hg; [|done]. cbn [mbind option_bind] in E.
  apply (inv_tx a Ha port m Hg). intros ->. pose proof (count_queues a port queue n Ha Hm Hn).
  rewrite (proj2 (Z.ltb_lt 0 n)) in E by lia. done.
Qed.

(** What the checks of the burst sizes leave: each is between 1 and the size of the
    arrays, but the one with which the I/O cores read the rings of the workers is at most
    half of it, or at most half of it above 2^31, since the doubled number is a
    32-bit one. *)
Definition checked_bursts a : Prop :=
  1 <= burst_size_io_rx_read a <= APP_MBUF_ARRAY_SIZE /\ 1 <= burst_size_io_rx_write a <= APP_MBUF_ARRAY_SIZE /\
  1 <= burst_size_worker_read a <= APP_MBUF_ARRAY_SIZE /\ 1 <= burst_size_worker_write a <= APP_MBUF_ARRAY_SIZE /\
  1 <= burst_size_io_tx_write a <= APP_MBUF_ARRAY_SIZE /\
  (1 <= burst_size_io_tx_read a <= APP_MBUF_ARRAY_SIZE / 2 \/
   2 ^ 31 <= burst_size_io_tx_read a <= 2 ^ 31 + APP_MBUF_ARRAY_SIZE / 2).

Lemma doubled_u32 x : is_u32 x -> x <> 0 -> u32 (2 * x) <= 512 -> 1 <= x <= 256 \/ 2 ^ 31 <= x <= 2 ^ 31 + 256.
Proof.
  unfold u32. intros Hx H0 H. destruct (decide (x < 2 ^ 31)) as [Hlt|Hge].
  - rewrite Z.mod_small in H by lia. lia.
  - rewrite <- (Z.mod_unique (2 * x) (2 ^ 32) 1 (2 * x - 2 ^ 32)) in H by lia. lia.
Qed.

Lemma check_bursts_spec a : args_inv a -> check_bursts a = 0 -> checked_bursts a.
Proof.
  intros Ha H. pose proof (inv_bursts a Ha) as Hb. unfold bursts in Hb. rewrite !Forall_cons in Hb.
  unfold check_bursts, checked_bursts, APP_MBUF_ARRAY_SIZE in *. destruct Hb as (? & ? & ? & ? & ? & ? & _).
  repeat match type of H with context [?x =? 0] => destruct (Z.eqb_spec x 0); [done|] end. cbn [orb] in H.
  repeat match type of H with context [512 <? ?x] => destruct (Z.ltb_spec 512 x); [cbn [orb] in H; rewrite ?orb_true_r in H; done|] end.
  split_and!; try lia. by apply doubled_u32.
Qed.

(** The sizes the data plane relies on. *)
Lemma checked_bursts_ok a : checked_bursts a -> bursts_ok a.
Proof. unfold checked_bursts, bursts_ok. lia. Qed.

Lemma assign_defaults_inv seen a :
  args_inv a -> (o_bsz ∈ seen -> check_bursts a = 0) ->
  args_inv (assign_defaults seen a) /\ check_bursts (assign_defaults seen a) = 0.
Proof.
  intros Ha Hb. unfold assign_defaults. destruct (bool_decide (o_rsz ∈ seen)), (bool_decide_reflect (o_bsz ∈ seen)) as [Hin|Hin].
  all: split; [|first [by apply (Hb Hin)|done]]; destruct Ha as [? ? ? ? ? ? ? ? ?]; split; try done.
  all: unfold bursts; simpl; by repeat constructor.
Qed.

(** C20. When [app_parse_args] accepts a command line, the data plane can start:
    the sizes of the bursts are those between 1 and the size of the arrays (half of
    it for the bursts in which the I/O cores read the rings of the workers, of which the check
    also accepts 2^31 .. 2^31 + 256), the tables of cores have their sizes, every
    core is zero but for its queues and ports, and every queue that was enabled
    is read by exactly one core, which the lookup finds, and has a core that sends to its port. *)
Theorem parsed_args_ready optind opts ret a :
  app_parse_args p0 optind opts zero_app = Some (ret, a) -> 0 <= ret ->
  checked_bursts a /\ lcores_wf a /\
  (forall x lp, arr_get (lcore_params a) x = Some lp -> fresh (lcore_is lp)) /\
  (forall port queue m, mask_at a port queue = Some m -> m <> 0 ->
     exists x y, (forall z, serves a z (port, queue) <-> z = x) /\
       app_get_lcore_for_nic_rx a port queue = Some (Some x) /\ app_get_lcore_for_nic_tx a port = Some (Some y)).
Proof.
  intros H Hret. unfold app_parse_args in H. destruct (parse_options p0 opts [] zero_app) as [[r a1]|] eqn:E; [|done].
  cbn [mbind option_bind] in H. destruct r as [|seen]; [simplify_eq; lia|]. case_match; [simplify_eq; lia|].
  destruct (parse_options_inv _ _ _ _ _ zero_app_inv (fun Hin => False_ind _ (not_elem_of_nil _ Hin)) E) as [Ha1 Hb1].
  destruct (assign_defaults_inv seen a1 Ha1 Hb1) as [Ha Hb].
  destruct (app_check_every_rx_port_is_tx_enabled _) as [c|] eqn:Hc; [|done]. cbn [mbind option_bind] in H.
  destruct (Z.ltb_spec c 0); [simplify_eq; lia|]. injection H as _ <-.
  split; [by apply check_bursts_spec|]. split; [apply (inv_lcores _ Ha)|]. split; [apply (inv_fresh _ Ha)|].
  intros port queue m Hm Hm0. destruct (inv_mask _ Ha _ _ _ Hm) as [->| ->]; [done|].
  destruct (proj1 (inv_rx _ Ha _ _) Hm) as [x Hx].
  destruct (rx_ports_send _ c port queue Ha Hc ltac:(lia) Hm) as [y Hy]. destruct (get_lcore_for_nic_tx _ _ _ Ha Hy) as [y' Hy'].
  exists x, y'. split_and!; [|by apply get_lcore_for_nic_rx|done]. intros z. split; [|by intros ->]. intros Hz. by apply (inv_one _ Ha _ _ _ Hz Hx).
Qed.
End inv.

(** ** A command line *)

(** [rte_strsplit]: the last token keeps the separators behind it. *)
Fixpoint split_on (s : cstring) (n : nat) (sep : Z) : list cstring :=
  match n, s with
  | O, _ | _, [] => []
  | Datatypes.S O, _ => [s]
  | Datatypes.S n', b :: s' =>
      if Z_of_byte b =? sep then [] :: split_on s' n' sep
      else match split_on s' n sep with t :: ts => (b :: t) :: ts | [] => [[b]] end
  end.

#[local] Instance sim_strings : Strings := {|
  rte_strsplit s n sep := split_on s (Z.to_nat n) sep;
  inet_pton s :=
    match unsigned_all (split_on s 4 46) with
    | Some [x; y; z; t] => Some (t + 256 * (z + 256 * (y + 256 * x)))
    | _ => None
    end;
|}.

Definition sim_opts : list (option (lgopt * cstring)) :=
  [Some (o_rx, str "(0,0,0),(1,5,0x0)"); Some (o_tx, str "(0,0),(1,3)"); Some (o_w, str "1,2"); Some (o_lpm, str "10.0.0.0/8=>1;");
   Some (o_bsz, str "(144, 144), (32, 64), (144, 7)"); Some (o_src, str "10.0.0.1:9081"); Some (o_leader, [])].

Lemma parsed_args_ready_witness :
  exists a, @app_parse_args (sim false) sim_strings unit tt 9 sim_opts (@zero_app (sim false) unit) = Some (8, a) /\
    @checked_bursts unit a /\ @app_get_lcore_for_nic_rx (sim false) unit a 1 5 = Some (Some 0).
Proof.
  destruct (@app_parse_args (sim false) sim_strings unit tt 9 sim_opts (@zero_app (sim false) unit)) as [[ret a]|] eqn:E;
    [|exfalso; revert E; vm_compute; discriminate].
  assert (ret = 8 /\ mask_at a 1 5 = Some 1) as [-> Hm].
  { revert E. vm_compute. intros E. injection E as <- <-. split; reflexivity. }
  exists a. split; [reflexivity|].
  destruct (@parsed_args_ready (sim false) (sim_laws false) sim_strings unit tt 9 sim_opts 8 a E) as (Hb & _ & _ & Hq); [lia|].
  split; [exact Hb|]. destruct (Hq 1 5 1 Hm) as (x & y & Hx & Hrx & _); [lia|]. rewrite Hrx.
  assert (@serves (sim false) unit a 0 (1, 5)) as H0; [|apply Hx in H0; congruence].
  clear - E. revert E. vm_compute. intros E. injection E as <-. eexists. split; [reflexivity|].
  eexists _, 1. split; [reflexivity|]. split; reflexivity.
Defined.

(** The check of [--bsz] doubles a 32-bit number: it accepts a read burst of 2^31
    packets for the I/O cores that send, whose array has 512. *)
Lemma burst_check_wraps {P} (a : app_params P) x :
  2 ^ 31 <= x <= 2 ^ 31 + 256 -> check_bursts (set_bursts a 144 144 144 144 x 144) = 0.
Proof.
  intros Hx. unfold check_bursts, APP_MBUF_ARRAY_SIZE. simpl. rewrite (proj2 (Z.eqb_neq x 0)) by lia.
  replace (u32 (2 * x)) with (2 * x - 2 ^ 32) by (unfold u32; apply Z.mod_unique with 1; lia).
  by rewrite (proj2 (Z.ltb_ge 512 _)) by lia.
Qed.
