(* ===== verification/P4Store.v ===== *)
(** * The key-value store ([datastore/src], [dppaxos/src/dpdk_replica.c], [dpdk_learner.c])

    The application of the data plane: the delivered value is a request of eight
    bytes that is executed on the RocksDB database of the worker, and the answer
    to a read replaces the value in place.

    RocksDB and the operating system are the class [RocksDb]; a database, a
    backup engine and a checkpoint object are handles.  [RocksDbLaws] has what the
    code relies on, over the tables of the databases.

    [None] is an access outside an array or a string, or the use of NULL. *)

From S2P Require Import Prelude Bytes PaxosTypes KhashInterface KhashResize EvConfig Strtok Storage Acceptor Proposer Learner P4Packet P4Dpdk P4Sim P4App P4Runtime P4Conserve P4Worker P4Timers P4Args P4ArgsInv P4Replica.
From Stdlib Require Import String.
#[local] Open Scope Z_scope.
#[local] Notation length := List.length.

(** ** Configuration ([datastore.h], [config.c]) *)

Definition MAX_WORKER_CORE : Z := 4.
Definition MAX_NB_PARTITION : Z := 32.
Definition FILENAME_LENGTH : nat := 128.
Definition READ_REQ : Z := 1.
Definition WRITE_REQ : Z := 2.
Definition BACKUP_REQ : Z := 4.
Definition KEYLEN : Z := 4.
Definition VALLEN : Z := 2.

Record rocksdb_configurations := RocksdbConfigurations {
  write_sync : Z;
  use_fsync : Z;
  disable_wal : Z;
  enable_checkpoint : Z;
  enable_statistics : Z;
  rm_existed_db : Z;
  sync_db : Z;
  mem_budget : Z;
  flush_size : Z;
  partition_count : Z;
  nb_keys : Z;
  db_paths : list (option cstring);
  replica_hostname : option cstring;
}.

(** The static variable. *)
Definition zero_configurations : rocksdb_configurations :=
  RocksdbConfigurations 0 0 0 0 0 0 0 0 0 0 0 (repeat None (Z.to_nat MAX_NB_PARTITION)) None.

(** The options with a number: the member and its default. *)
Inductive number_option :=
  | c_write_sync | c_use_fsync | c_disable_wal | c_rm_existed_db | c_sync_db | c_enable_checkpoint | c_enable_statistics
  | c_flush_size | c_nb_keys.

#[global] Instance number_option_eq_dec : EqDecision number_option.
Proof. solve_decision. Defined.

Definition number_options : list (cstring * number_option) :=
  [(str "write_sync", c_write_sync); (str "use_fsync", c_use_fsync); (str "disable_wal", c_disable_wal);
   (str "rm_existed_db", c_rm_existed_db); (str "sync_db", c_sync_db); (str "enable_checkpoint", c_enable_checkpoint);
   (str "enable_statistics", c_enable_statistics); (str "flush_size", c_flush_size); (str "nb_keys", c_nb_keys)].

Fixpoint find_option (l : list (cstring * number_option)) (t : cstring) : option number_option :=
  match l with
  | [] => None
  | (name, o) :: l => if bool_decide (t = name) then Some o else find_option l t
  end.

Definition option_default (o : number_option) : Z :=
  match o with c_flush_size => 4 * 1024 * 1024 | c_nb_keys => 1000000 | _ => 0 end.

Definition option_value (c : rocksdb_configurations) (o : number_option) : Z :=
  match o with
  | c_write_sync => write_sync c | c_use_fsync => use_fsync c | c_disable_wal => disable_wal c
  | c_rm_existed_db => rm_existed_db c | c_sync_db => sync_db c | c_enable_checkpoint => enable_checkpoint c
  | c_enable_statistics => enable_statistics c | c_flush_size => flush_size c | c_nb_keys => nb_keys c
  end.

(** A member of 8 bits, or of 32 for the last two. *)
Definition set_option (c : rocksdb_configurations) (o : number_option) (x : Z) : rocksdb_configurations :=
  let m o' v := if bool_decide (o' = o) then u8 x else v in
  let n o' v := if bool_decide (o' = o) then u32 x else v in
  RocksdbConfigurations (m c_write_sync (write_sync c)) (m c_use_fsync (use_fsync c)) (m c_disable_wal (disable_wal c))
    (m c_enable_checkpoint (enable_checkpoint c)) (m c_enable_statistics (enable_statistics c))
    (m c_rm_existed_db (rm_existed_db c)) (m c_sync_db (sync_db c)) (mem_budget c) (n c_flush_size (flush_size c))
    (partition_count c) (n c_nb_keys (nb_keys c)) (db_paths c) (replica_hostname c).

Definition add_path (c : rocksdb_configurations) (p : cstring) : option rocksdb_configurations :=
  ps ← arr_set (db_paths c) (partition_count c) (Some p);
  Some (RocksdbConfigurations (write_sync c) (use_fsync c) (disable_wal c) (enable_checkpoint c) (enable_statistics c)
          (rm_existed_db c) (sync_db c) (mem_budget c) (flush_size c) (u32 (partition_count c + 1)) (nb_keys c) ps
          (replica_hostname c)).

Fixpoint add_paths (c : rocksdb_configurations) (ps : list cstring) : option rocksdb_configurations :=
  match ps with [] => Some c | p :: ps => c ← add_path c p; add_paths c ps end.

Definition set_hostname (c : rocksdb_configurations) (h : cstring) : rocksdb_configurations :=
  RocksdbConfigurations (write_sync c) (use_fsync c) (disable_wal c) (enable_checkpoint c) (enable_statistics c)
    (rm_existed_db c) (sync_db c) (mem_budget c) (flush_size c) (partition_count c) (nb_keys c) (db_paths c) (Some h).

(** The tokens of one line.  A number replaces the default only; [atoi(NULL)] is
    undefined.  Behind the name of a host one more token is skipped. *)
Fixpoint populate_line (fuel : nat) (ts : list cstring) (c : rocksdb_configurations) : option rocksdb_configurations :=
  match fuel with
  | O => None
  | Datatypes.S fuel =>
      match ts with
      | [] => Some c
      | t :: ts =>
          if bool_decide (t = str "#") then Some c else
          match find_option number_options t with
          | Some o =>
              if option_value c o =? option_default o
              then match ts with [] => None | v :: ts => populate_line fuel ts (set_option c o (atoi v)) end
              else populate_line fuel (drop 1 ts) c
          | None =>
              if bool_decide (t = str "db_paths") then add_paths c ts
              else if bool_decide (t = str "replica_hostname") then
                match ts with [] => Some c | v :: ts => populate_line fuel (drop 1 ts) (set_hostname c v) end
              else populate_line fuel ts c
          end
      end
  end.

Fixpoint populate_lines (ls : list (list byte)) (c : rocksdb_configurations) : option rocksdb_configurations :=
  match ls with
  | [] => Some c
  | l :: ls =>
      let ts := tokens (cstr l) in
      c ← populate_line (Datatypes.S (length ts)) ts c;
      populate_lines ls c
  end.

(** [file] is the content of the file, [None] when it cannot be opened. *)
Definition populate_configuration (file : option (list byte)) (c : rocksdb_configurations) : option rocksdb_configurations :=
  match file with None => Some c | Some f => populate_lines (split_lines f []) c end.

(** *** The command line of the learner ([parse_rocksdb_configuration]) *)

Inductive rocksdb_opt :=
  | r_write_sync | r_fsync | r_enable_checkpoint | r_disable_wal | r_mem_budget | r_enable_statistics | r_config_file
  | r_flush_size | r_nb_keys.

(** [parse_arg_uint32] of [datastore/src/config.c], which allows 32 characters. *)
Definition parse_uint32 (arg : cstring) : option Z :=
  if longer arg 32 then None else
  let '(x, err, endpt) := strtoull arg in
  if (err : bool) || bool_decide (endpt = arg) || negb (bool_decide (endpt = [])) then None else Some (u32 x).

Definition set_mem_budget (c : rocksdb_configurations) (x : Z) : rocksdb_configurations :=
  RocksdbConfigurations (write_sync c) (use_fsync c) (disable_wal c) (enable_checkpoint c) (enable_statistics c)
    (rm_existed_db c) (sync_db c) x (flush_size c) (partition_count c) (nb_keys c) (db_paths c) (replica_hostname c).

Definition default_configurations (c : rocksdb_configurations) : rocksdb_configurations :=
  let d c o := set_option c o (option_default o) in
  set_mem_budget
    (d (d (d (d (d (d (d c c_write_sync) c_disable_wal) c_enable_checkpoint) c_use_fsync) c_flush_size) c_enable_statistics)
       c_nb_keys) (512 * 1024 * 1024).

(** The loop over the options; [file] is [arg_config_file]. *)
Fixpoint rocksdb_options_loop (opts : list (option (rocksdb_opt * cstring))) (file : option cstring)
    (c : rocksdb_configurations) : option (option cstring) * rocksdb_configurations :=
  match opts with
  | [] => (Some file, c)
  | None :: _ => (None, c)
  | Some (o, arg) :: opts =>
      let number (f : Z -> rocksdb_configurations) :=
        match parse_uint32 arg with None => (None, c) | Some x => rocksdb_options_loop opts file (f x) end in
      let flag o := rocksdb_options_loop opts file (set_option c o 1) in
      match o with
      | r_write_sync => flag c_write_sync
      | r_fsync => flag c_use_fsync
      | r_enable_checkpoint => flag c_enable_checkpoint
      | r_enable_statistics => flag c_enable_statistics
      | r_disable_wal => flag c_disable_wal
      | r_mem_budget => number (set_mem_budget c)
      | r_flush_size => number (set_option c c_flush_size)
      | r_nb_keys => number (set_option c c_nb_keys)
      | r_config_file => rocksdb_options_loop opts (Some arg) c
      end
  end.

(** [read_file] has the content of a file that can be opened; [optind] is what
    [getopt_long] leaves there. *)
Definition parse_rocksdb_configuration (read_file : cstring -> option (list byte)) (optind : Z)
    (opts : list (option (rocksdb_opt * cstring))) (c : rocksdb_configurations) : option (Z * rocksdb_configurations) :=
  match rocksdb_options_loop opts None (default_configurations c) with
  | (None, c) => Some (-1, c)
  | (Some file, c) =>
      c ← populate_configuration (read_file (default (str "rocksdb.conf") file)) c;
      Some (optind - 1, c)
  end.

(** ** RocksDB *)

Record rocksdb_options := RocksdbOptions { parallelism : Z; budget : Z; create_if_missing : Z; statistics : bool }.
Record rocksdb_writeoptions := RocksdbWriteoptions { disable_WAL : Z; sync : Z }.

(** A boolean says whether an error is reported; an open that fails gives
    [None].  The name of the host is shorter than 32 characters. *)
Class RocksDb := {
  rdb : Type;
  rocksdb_put : rdb -> Z -> rocksdb_writeoptions -> list byte -> list byte -> bool * rdb;
  rocksdb_get : rdb -> Z -> list byte -> bool * option (list byte) * rdb;
  rocksdb_checkpoint_create : rdb -> Z -> cstring -> Z -> bool * rdb;
  rocksdb_backup_engine_create_new_backup : rdb -> Z -> Z -> bool * rdb;
  rocksdb_open : rdb -> rocksdb_options -> cstring -> option Z * rdb;
  rocksdb_backup_engine_open : rdb -> rocksdb_options -> cstring -> option Z * rdb;
  rocksdb_checkpoint_object_create : rdb -> Z -> option Z * rdb;
  system : rdb -> cstring -> Z * rdb;
  nprocessors : rdb -> Z;
  gethostname : rdb -> cstring;
}.


Notation table_t := (gmap (list byte) (list byte)).

Class RocksDbLaws `{RocksDb} := {
  table : rdb -> Z -> table_t;
  put_law r db wo k v err r' :
    rocksdb_put r db wo k v = (err, r') ->
    forall x, table r' x = if negb err && bool_decide (x = db) then <[k := v]> (table r x) else table r x;
  get_law r db k err v r' :
    rocksdb_get r db k = (err, v, r') -> (forall x, table r' x = table r x) /\ (err = false -> v = table r db !! k);
  checkpoint_law r cp path n x : table (rocksdb_checkpoint_create r cp path n).2 x = table r x;
  backup_law r be db x : table (rocksdb_backup_engine_create_new_backup r be db).2 x = table r x;
}.

(** ** The state of the application *)

Record rocksdb_lcore_params := RocksdbLcoreParams {
  db_path : option cstring;
  db : Z;
  cp : Z;
  be : Z;
  delivered_count : Z;
  write_count : Z;
  read_count : Z;
}.

Record rocksdb_params := RocksdbParams {
  workers : list rocksdb_lcore_params;
  rdb_options : rocksdb_options;
  writeoptions : rocksdb_writeoptions;
  num_workers : Z;
  total_delivered_count : Z;
  hostname : cstring;
}.

Definition set_workers (p : rocksdb_params) (ws : list rocksdb_lcore_params) : rocksdb_params :=
  RocksdbParams ws (rdb_options p) (writeoptions p) (num_workers p) (total_delivered_count p) (hostname p).

Definition add_counts (w : rocksdb_lcore_params) (delivered written read : Z) : rocksdb_lcore_params :=
  RocksdbLcoreParams (db_path w) (db w) (cp w) (be w) (u32 (delivered_count w + delivered)) (u32 (write_count w + written))
    (u32 (read_count w + read)).

Section store.
Context {R : RocksDb}.
Implicit Types (r : rdb) (p : rocksdb_params) (c : rocksdb_configurations) (val : list byte).

(** ** The handlers ([datastore.c]): an error is printed *)

Definition handle_put r (h : Z) (wo : rocksdb_writeoptions) (key value : list byte) : rdb := (rocksdb_put r h wo key value).2.

Definition handle_get r (h : Z) (key : list byte) : option (list byte) * rdb :=
  let '(err, v, r) := rocksdb_get r h key in (if (err : bool) then None else v, r).

Definition handle_checkpoint r c (cp : Z) (path : cstring) : rdb := (rocksdb_checkpoint_create r cp path (flush_size c)).2.

Definition handle_backup r (h be : Z) : rdb := (rocksdb_backup_engine_create_new_backup r be h).2.

(** ** Initialisation ([init.c]) *)

Definition snprintf (n : nat) (s : cstring) : cstring := take (n - 1) s.

(** [strtok(s, "\n")] *)
Fixpoint before_newline (s : cstring) : cstring :=
  match s with b :: s => if Z_of_byte b =? 10 then [] else b :: before_newline s | [] => [] end.
Fixpoint skip_newlines (s : cstring) : cstring :=
  match s with b :: s' => if Z_of_byte b =? 10 then skip_newlines s' else s | [] => [] end.

(** One worker: the result, what is stored in [lp->worker[i]], and the world.  The
    handle of what cannot be opened is NULL. *)
Definition init_worker r c (opts : rocksdb_options) (path : cstring) (w : rocksdb_lcore_params) :
    option (Z * rocksdb_lcore_params * rdb) :=
  let set h k e := RocksdbLcoreParams (Some path) h k e (delivered_count w) (write_count w) (read_count w) in
  let '(ret, r) := if rm_existed_db c =? 0 then (0, r) else system r (snprintf 256 (str "exec rm -rf " ++ path)) in
  if ret <? 0 then Some (-1, w, r) else
  '(ret, r) ← (if sync_db c =? 0 then Some (0, r) else
               h ← replica_hostname c;
               match skip_newlines h with
               | [] => None
               | t => Some (system r (snprintf 256 (str "exec rsync -azr --delete " ++ before_newline t ++ str ":" ++
                                                     path ++ str " " ++ path)))
               end);
  if ret <? 0 then Some (-1, w, r) else
  let '(h, r) := rocksdb_open r opts path in
  match h with
  | None => Some (-1, set NULL (cp w) (be w), r)
  | Some h =>
      let '(e, r) := rocksdb_backup_engine_open r opts (snprintf 256 (path ++ str "/backup")) in
      match e with
      | None => Some (-1, set h (cp w) NULL, r)
      | Some e =>
          if enable_checkpoint c =? 0 then Some (0, set h (cp w) e, r) else
          let '(k, r) := rocksdb_checkpoint_object_create r h in
          match k with
          | None => Some (-1, set h NULL e, r)
          | Some k =>
              let '(ret, r) := system r (snprintf 256 (str "exec rm -rf " ++ path ++ str "/checkpoints")) in
              if ret <? 0 then Some (-1, set h k e, r) else
              let '(ret, r) := system r (snprintf 256 (str "mkdir -p " ++ path ++ str "/checkpoints")) in
              Some (if ret <? 0 then -1 else 0, set h k e, r)
          end
      end
  end.

Fixpoint init_workers (n : nat) (i : Z) r c p : option (Z * rdb * rocksdb_params) :=
  match n with
  | O => Some (0, r, p)
  | Datatypes.S n =>
      path ← arr_get (db_paths c) i;
      path ← path;
      w ← arr_get (workers p) i;
      '(ret, w, r) ← init_worker r c (rdb_options p) path w;
      ws ← arr_set (workers p) i w;
      if ret <? 0 then Some (ret, r, set_workers p ws) else init_workers n (i + 1) r c (set_workers p ws)
  end.

Definition init_rocksdb r c p : option (Z * rdb * rocksdb_params) :=
  let opts := RocksdbOptions (i32 (nprocessors r)) (mem_budget c) 1 (negb (enable_statistics c =? 0)) in
  let wo := RocksdbWriteoptions (disable_wal c) (write_sync c) in
  let p := RocksdbParams (workers p) opts wo (num_workers p) (total_delivered_count p) (gethostname r) in
  init_workers (Z.to_nat (num_workers p)) 0 r c p.

(** ** Delivery

    [Y] is the state [send_checkpoint_message] changes. *)
Context {Y : Type} (send_checkpoint_message : Y -> Z -> Z -> option Y).

(** [if (rocks.num_workers == 1) worker_id = 0;] *)
Definition store_of p (worker_id : Z) : Z := if num_workers p =? 1 then 0 else worker_id.

(** The request in [val]: the type, a key of 4 bytes, a value of 2 bytes.  The
    answer to a read is written over the value.  RocksDB does not take NULL for a
    database. *)
Definition execute (backups : bool) r p (worker_id : Z) val : option (rdb * rocksdb_params * list byte) :=
  w ← arr_get (workers p) worker_id;
  type ← arr_get val 0;
  let type := Z_of_byte type in
  '(r, w, val) ←
    (if type =? WRITE_REQ then
       key ← read_at val 1 KEYLEN;
       value ← read_at val 5 VALLEN;
       _ ← assert_ (negb (db w =? NULL));
       Some (handle_put r (db w) (writeoptions p) key value, add_counts w 0 1 0, val)
     else if type =? READ_REQ then
       key ← read_at val 1 KEYLEN;
       _ ← assert_ (negb (db w =? NULL));
       let '(v, r) := handle_get r (db w) key in
       val ← match v with Some bs => write_at val 5 bs | None => Some val end;
       Some (r, add_counts w 0 0 1, val)
     else if backups && (type =? BACKUP_REQ) then
       _ ← assert_ (negb (db w =? NULL) && negb (be w =? NULL));
       Some (handle_backup r (db w) (be w), w, val)
     else Some (r, w, val));
  ws ← arr_set (workers p) worker_id (add_counts w 1 0 0);
  Some (r, set_workers p ws, val).

(** [deliver] of [dpdk_learner.c]. *)
Definition learner_deliver r p (worker_id : Z) val : option (rdb * rocksdb_params * list byte) :=
  execute false r p (store_of p worker_id) val.

(** The checkpoint of [rocksdb_deliver], every [interval] instances. *)
Definition checkpoint_due (interval inst : Z) : bool := (0 <? inst) && (0 <? interval) && (inst mod interval =? 0).

Definition checkpoint c (interval : Z) r p y (worker_id inst : Z) : option (rdb * Y) :=
  if checkpoint_due interval inst then
    r ← (if enable_checkpoint c =? 0 then Some r else
         w ← arr_get (workers p) worker_id;
         path ← db_path w;
         Some (handle_checkpoint r c (cp w)
           (snprintf FILENAME_LENGTH (path ++ str "/checkpoints/" ++ hostname p ++ str "-core-" ++ print_nat worker_id ++
              str "-inst-" ++ print_nat inst))));
    y ← send_checkpoint_message y worker_id inst;
    Some (r, y)
  else Some (r, y).

Definition rocksdb_deliver c (interval : Z) r p y (worker_id inst : Z) val :
    option (rdb * rocksdb_params * Y * list byte) :=
  let worker_id := store_of p worker_id in
  '(r, p, val) ← execute true r p worker_id val;
  '(r, y) ← checkpoint c interval r p y worker_id inst;
  Some (r, p, y, val).

Definition baseline_deliver (interval : Z) p y (worker_id inst : Z) : option (rocksdb_params * Y) :=
  let worker_id := store_of p worker_id in
  w ← arr_get (workers p) worker_id;
  ws ← arr_set (workers p) worker_id (add_counts w 1 0 0);
  y ← (if (0 <? interval) && (inst mod interval =? 0) then send_checkpoint_message y worker_id inst else Some y);
  Some (set_workers p ws, y).

(** The requests that are delivered one after the other, and their answers. *)
Fixpoint deliver_all c (interval : Z) r p y (l : list (Z * Z * list byte)) :
    option (rdb * rocksdb_params * Y * list (list byte)) :=
  match l with
  | [] => Some (r, p, y, [])
  | (worker_id, inst, val) :: l =>
      '(r, p, y, val) ← rocksdb_deliver c interval r p y worker_id inst val;
      '(r, p, y, vals) ← deliver_all c interval r p y l;
      Some (r, p, y, val :: vals)
  end.
End store.

(** ** The store as a map

    A request executed on a map: the map, and the request with the answer. *)

Definition request_key (val : list byte) : list byte := take 4 (drop 1 val).

Definition kv_step (m : table_t) (val : list byte) : table_t * list byte :=
  match arr_get val 0 with
  | None => (m, val)
  | Some t =>
      if Z_of_byte t =? WRITE_REQ then (<[request_key val := take 2 (drop 5 val)]> m, val)
      else if Z_of_byte t =? READ_REQ then
        (m, match m !! request_key val with Some v => take 5 val ++ v ++ drop (5 + length v) val | None => val end)
      else (m, val)
  end.

(** One map for each of [n] workers. *)
Fixpoint kv_run (n : Z) (ms : Z -> table_t) (l : list (Z * Z * list byte)) : (Z -> table_t) * list (list byte) :=
  match l with
  | [] => (ms, [])
  | (worker_id, _, val) :: l =>
      let i := if n =? 1 then 0 else worker_id in
      let '(m, val) := kv_step (ms i) val in
      let '(ms, vals) := kv_run n (fun j => if bool_decide (j = i) then m else ms j) l in
      (ms, val :: vals)
  end.

Section refine.
Context {R : RocksDb} {RL : RocksDbLaws}.
Implicit Types (r : rdb) (p : rocksdb_params) (c : rocksdb_configurations) (val : list byte) (ms : Z -> table_t).

(** No call of RocksDB fails. *)
Definition reliable : Prop :=
  (forall r h wo k v, (rocksdb_put r h wo k v).1 = false) /\ (forall r h k, (rocksdb_get r h k).1.1 = false).

Definition small (m : table_t) : Prop := map_Forall (fun _ v => length v = 2%nat) m.

(** Every worker has a database of its own, with the table [ms i]. *)
Record stores c r p ms : Prop := {
  st_workers : Z.of_nat (length (workers p)) = MAX_WORKER_CORE /\ 0 < num_workers p <= MAX_WORKER_CORE;
  st_table i w : 0 <= i < num_workers p -> arr_get (workers p) i = Some w ->
    table r (db w) = ms i /\ small (ms i) /\ db w <> NULL /\ be w <> NULL /\ (enable_checkpoint c <> 0 -> is_Some (db_path w));
  st_own i j w w' : 0 <= i < num_workers p -> 0 <= j < num_workers p -> arr_get (workers p) i = Some w ->
    arr_get (workers p) j = Some w' -> db w = db w' -> i = j;
}.

Lemma kv_step_small m val : length val = 8%nat -> small m -> small (kv_step m val).1.
Proof.
  intros Hl Hs. unfold kv_step. destruct (arr_get val 0) as [t|]; [|done]. case_match; [|by case_match].
  apply map_Forall_insert_2; [|done]. by rewrite length_take, length_drop, Hl.
Qed.

Lemma read_at_sub val off n :
  0 <= off -> 0 <= n -> off + n <= Z.of_nat (length val) -> read_at val off n = Some (take (Z.to_nat n) (drop (Z.to_nat off) val)).
Proof.
  intros. unfold read_at. destruct (Z.leb_spec 0 off), (Z.leb_spec 0 n), (Z.leb_spec (off + n) (Z.of_nat (length val))); try lia. done.
Qed.

Lemma write_at_sub val off bs :
  0 <= off -> off + Z.of_nat (length bs) <= Z.of_nat (length val) ->
  write_at val off bs = Some (take (Z.to_nat off) val ++ bs ++ drop (Z.to_nat off + length bs) val).
Proof.
  intros. unfold write_at. destruct (Z.leb_spec 0 off), (Z.leb_spec (off + Z.of_nat (length bs)) (Z.of_nat (length val))); try lia. done.
Qed.

(** A request on the database of one worker. *)
Lemma execute_table b r p i w val m :
  reliable -> arr_get (workers p) i = Some w -> length val = 8%nat -> table r (db w) = m -> small m ->
  db w <> NULL -> be w <> NULL ->
  exists r' w', execute b r p i val = (ws ← arr_set (workers p) i w'; Some (r', set_workers p ws, (kv_step m val).2)) /\
    db w' = db w /\ be w' = be w /\ db_path w' = db_path w /\
    forall x, table r' x = if bool_decide (x = db w) then (kv_step m val).1 else table r x.
Proof.
  intros [Hput Hget] Hw Hl Ht Hs Hnull Hbe. unfold execute, kv_step. rewrite Hw. cbn [mbind option_bind].
  destruct (arr_get_in val 0) as [t Hty]; [lia|]. rewrite Hty. cbn [mbind option_bind].
  assert (forall r', (forall x, table r' x = table r x) ->
    forall x, table r' x = if bool_decide (x = db w) then m else table r x) as Hsame.
  { intros r' H' x. rewrite H'. by case_bool_decide as E; [rewrite E|]. }
  unfold KEYLEN, VALLEN. rewrite (read_at_sub val 1 4), (read_at_sub val 5 2) by lia.
  change (take (Z.to_nat 4) (drop (Z.to_nat 1) val)) with (request_key val). cbn [mbind option_bind].
  rewrite (proj2 (Z.eqb_neq _ _) Hnull), (proj2 (Z.eqb_neq _ _) Hbe). change (assert_ (negb false)) with (Some tt).
  change (assert_ (negb false && negb false)) with (Some tt). cbn [mbind option_bind].
  destruct (Z_of_byte t =? WRITE_REQ); [|destruct (Z_of_byte t =? READ_REQ)].
  - unfold handle_put. change (take (Z.to_nat 2) (drop (Z.to_nat 5) val)) with (take 2 (drop 5 val)).
    destruct (rocksdb_put r (db w) _ _ _) as [err r'] eqn:E.
    pose proof (Hput r (db w) (writeoptions p) (request_key val) (take 2 (drop 5 val))) as Herr.
    rewrite E in Herr. simpl in Herr. subst err. eexists r', _. split; [done|]. do 3 (split; [done|]). intros x.
    rewrite (put_law _ _ _ _ _ _ _ E). simpl. case_bool_decide as E2; [|done]. subst x. by rewrite Ht.
  - unfold handle_get. destruct (rocksdb_get r (db w) (request_key val)) as [[err v] r'] eqn:E.
    pose proof (Hget r (db w) (request_key val)) as Herr. rewrite E in Herr. simpl in Herr. subst err.
    apply get_law in E as (Htab & Hv). rewrite (Hv eq_refl), Ht. cbn [mbind option_bind].
    destruct (m !! request_key val) as [bs|] eqn:Hbs.
    + pose proof (Hs _ _ Hbs) as Hlen. simpl in Hlen. rewrite write_at_sub by lia. cbn [mbind option_bind].
      eexists r', _. split; [done|]. do 3 (split; [done|]). by apply Hsame.
    + cbn [mbind option_bind]. eexists r', _. split; [done|]. do 3 (split; [done|]). by apply Hsame.
  - destruct (b && _); cbn [mbind option_bind]; eexists _, _; (split; [done|]; do 3 (split; [done|])); apply Hsame; [|done].
    intros x. apply backup_law.
Qed.

Context {Y : Type} (send : Y -> Z -> Z -> option Y).

(** The stores after a request of the worker [i]. *)
Lemma stores_step c r p ms i w r' w' ws val :
  stores c r p ms -> 0 <= i < num_workers p -> length val = 8%nat ->
  arr_get (workers p) i = Some w -> db w' = db w -> be w' = be w -> db_path w' = db_path w -> arr_set (workers p) i w' = Some ws ->
  (forall x, table r' x = if bool_decide (x = db w) then (kv_step (ms i) val).1 else table r x) ->
  stores c r' (set_workers p ws) (fun j => if bool_decide (j = i) then (kv_step (ms i) val).1 else ms j).
Proof.
  intros [Hn Htab Hown] Hi Hl Hw Hdb Hbe Hpath Hws Ht. pose proof (fun j => arr_get_set _ _ _ j _ Hws) as G.
  assert (forall j u', arr_get ws j = Some u' -> exists u, arr_get (workers p) j = Some u /\ db u' = db u /\
    be u' = be u /\ db_path u' = db_path u) as Hu.
  { intros j u'. rewrite G. case_decide; [subst j; intros [= <-]; by exists w|by exists u']. }
  split; simpl.
  - by rewrite (arr_set_length _ _ _ _ Hws).
  - intros j u' Hj Hju. destruct (Hu _ _ Hju) as (u & Hju' & Edb & Ebe & Epath).
    destruct (Htab j u Hj Hju') as (T1 & T2 & T3). rewrite Edb, Ebe, Epath, Ht. destruct (decide (j = i)) as [->|Hne].
    + simplify_eq. rewrite !bool_decide_true by done. split; [done|]. split; [by apply kv_step_small|done].
    + rewrite (bool_decide_false (j = i)) by done. rewrite bool_decide_false; [done|].
      intros E. apply Hne. by eapply Hown.
  - intros j k u u' Hj Hk Hju Hku E. destruct (Hu _ _ Hju) as (v & ? & ? & _), (Hu _ _ Hku) as (v' & ? & ? & _).
    eapply Hown; [exact Hj|exact Hk|done..|congruence].
Qed.

Lemma rocksdb_deliver_runs c interval r p y worker_id inst val ms :
  let i := store_of p worker_id in
  reliable -> stores c r p ms -> 0 <= worker_id < num_workers p -> length val = 8%nat ->
  (checkpoint_due interval inst = true -> is_Some (send y i inst)) ->
  exists r' p' y', rocksdb_deliver send c interval r p y worker_id inst val = Some (r', p', y', (kv_step (ms i) val).2) /\
    (if checkpoint_due interval inst then send y i inst else Some y) = Some y' /\ num_workers p' = num_workers p /\
    stores c r' p' (fun j => if bool_decide (j = i) then (kv_step (ms i) val).1 else ms j).
Proof.
  intros i Hrel Hst Hid Hl Hsend. assert (0 <= i < num_workers p) as Hi.
  { subst i. unfold store_of. destruct (Z.eqb_spec (num_workers p) 1); lia. }
  pose proof (st_workers _ _ _ _ Hst) as [Hlen Hn]. destruct (arr_get_in (workers p) i) as [w Hw]; [lia|].
  destruct (st_table _ _ _ _ Hst i w Hi Hw) as (Ht & Hs & Hnull & Hnb & _).
  destruct (execute_table true r p i w val (ms i) Hrel Hw Hl Ht Hs Hnull Hnb) as (r1 & w1 & Hex & Hdb & Hbe & Hpath & Htab).
  destruct (arr_set_in (workers p) i w1) as [ws Hws]; [lia|]. rewrite Hws in Hex. cbn [mbind option_bind] in Hex.
  pose proof (stores_step c r p ms i w r1 w1 ws val Hst Hi Hl Hw Hdb Hbe Hpath Hws Htab) as Hst1.
  unfold rocksdb_deliver. fold i. rewrite Hex. cbn [mbind option_bind]. unfold checkpoint.
  destruct (checkpoint_due interval inst); [|by eexists _, _, _].
  destruct (Hsend eq_refl) as [y' Hy'].
  destruct (Z.eqb_spec (enable_checkpoint c) 0) as [|Hcp].
  { cbn [mbind option_bind]. rewrite Hy'. by eexists _, _, _. }
  destruct (arr_get_in ws i) as [w2 Hw2]; [rewrite (arr_set_length _ _ _ _ Hws); lia|]. cbn [set_workers workers] in *.
  destruct (st_table _ _ _ _ Hst1 i w2 Hi Hw2) as (_ & _ & _ & _ & Hpa). destruct (Hpa Hcp) as [path Hpath2].
  rewrite Hw2. cbn [mbind option_bind]. rewrite Hpath2. cbn [mbind option_bind]. rewrite Hy'. cbn [mbind option_bind].
  eexists _, _, _. split; [done|]. split; [done|]. split; [done|]. destruct Hst1 as [S1 S2 S3]. split; [done| |done].
  intros j u Hj Hju. unfold handle_checkpoint. rewrite checkpoint_law. by apply S2.
Qed.

(** C17. As long as no call of RocksDB fails, the store executes the delivered
    requests as one map per worker does: it returns, the answers are those of the
    maps, and the tables are the maps, whatever checkpoints are taken.  So replicas
    that deliver the same requests have the same tables and give the same
    answers. *)
Theorem store_refines_kv c interval r p y ms l :
  reliable -> stores c r p ms -> Forall (fun q => 0 <= q.1.1 < num_workers p /\ length q.2 = 8%nat) l ->
  (forall y i n, is_Some (send y i n)) ->
  exists r' p' y', deliver_all send c interval r p y l = Some (r', p', y', (kv_run (num_workers p) ms l).2) /\
    stores c r' p' (kv_run (num_workers p) ms l).1.
Proof.
  intros Hrel Hst Hl Hsend. revert r p y ms Hst Hl. induction l as [|[[id inst] val] l IH]; intros r p y ms Hst Hl.
  { by eexists _, _, _. }
  apply Forall_cons in Hl as [[Hid Hv] Hl]. simpl in Hid, Hv.
  destruct (rocksdb_deliver_runs c interval r p y id inst val ms Hrel Hst Hid Hv (fun _ => Hsend _ _ _)) as (r1 & p1 & y1 & Hrun & _ & Hn & Hst1).
  destruct (IH r1 p1 y1 _ Hst1) as (r2 & p2 & y2 & Hall & Hst2); [by rewrite Hn|]. rewrite Hn in *.
  cbn [deliver_all kv_run]. rewrite Hrun. cbn [mbind option_bind]. rewrite Hall. cbn [mbind option_bind].
  fold (store_of p id). destruct (kv_step (ms (store_of p id)) val) as [m v]. simpl in *.
  destruct (kv_run (num_workers p) _ l) as [ms' vals]. by exists r2, p2, y2.
Qed.

(** A failed write is answered and counted as one that succeeded: the result is the same but
    for the tables. *)
Lemma failed_write_acknowledged b r p i w val t :
  arr_get (workers p) i = Some w -> db w <> NULL -> length val = 8%nat -> arr_get val 0 = Some t -> Z_of_byte t = WRITE_REQ ->
  exists ws, execute b r p i val =
    Some ((rocksdb_put r (db w) (writeoptions p) (request_key val) (take 2 (drop 5 val))).2, set_workers p ws, val) /\
    arr_set (workers p) i (add_counts (add_counts w 0 1 0) 1 0 0) = Some ws.
Proof.
  intros Hw Hnull Hl Ht Hty. unfold execute. rewrite Hw. cbn [mbind option_bind]. rewrite Ht. cbn [mbind option_bind].
  rewrite Hty. change (WRITE_REQ =? WRITE_REQ) with true. cbv iota. unfold KEYLEN, VALLEN.
  rewrite (read_at_sub val 1 4), (read_at_sub val 5 2), (proj2 (Z.eqb_neq _ _) Hnull) by lia. cbn [mbind option_bind negb assert_].
  destruct (arr_set_in (workers p) i (add_counts (add_counts w 0 1 0) 1 0 0)) as [ws Hws]; [by eapply arr_get_lt|].
  rewrite Hws. by exists ws.
Qed.
End refine.

(** ** The store behind the handlers *)

Lemma kv_step_length m val : length val = 8%nat -> small m -> length (kv_step m val).2 = 8%nat.
Proof.
  intros Hl Hs. unfold kv_step. destruct (arr_get val 0) as [t|]; [|done]. case_match; [done|]. case_match; [|done].
  destruct (m !! request_key val) as [v|] eqn:Hv; [|done]. apply Hs in Hv. simpl in Hv. cbn [snd].
  rewrite !length_app, length_take, length_drop. lia.
Qed.

(** [send_checkpoint_message] allocates a packet and writes it in a buffer of an I/O
    core, the [Y] here. *)
Section plane.
Context {D : Dpdk} {E : Eth} `{KH : KHash T} {R : RocksDb} {RL : RocksDbLaws} {CB Y : Type}.
Context {EN : P4Env CB (rdb * rocksdb_params * Y)} (send : dev * Y -> Z -> Z -> option (dev * Y)).
Implicit Types (d : dev) (h : paxos_hdr) (w : app_lcore_params_worker (worker_state T (mem_storage T) CB))
  (g : globals (rdb * rocksdb_params * Y)).

(** The callback is [rocksdb_deliver], with the checkpoint interval of the
    configuration. *)
Definition calls_store c (interval : Z) (cb : CB) : Prop :=
  forall r p y d id inst v n, call cb (r, p, y) d id inst (Some v) n =
    '(r, p, (d, y), val) ← rocksdb_deliver send c interval r p (d, y) id inst v; Some ((r, p, y), d, Some val).

(** C16. On a replica that is set to answer its clients ([respond_to_client]) and calls
    [rocksdb_deliver], a chosen request in a packet is executed on the table of the worker, and the
    packet goes to the client with the answer as its value: what a client reads is
    what the map holds.  When a checkpoint is due, its message is made, and nothing
    else is.  The hypotheses: no call of RocksDB fails; the request is the next one of the
    learner, and its table has room; there are three acceptors, since the learner counts a chosen value as
    two votes; the node is not a leader that pre-executes, which would use the packet
    for a prepare request; and a checkpoint message that is due can be made. *)
Theorem chosen_request_executed c g d m w pkt src h l cb r p y ms :
  mbuf_get d m = Some pkt -> paxos_packet pkt src h -> px_msgtype h = PAXOS_CHOSEN ->
  wk_learner (worker_paxos w) = Some l -> kh_wf (instances l) -> kh_size (instances l) < KH_LIMIT ->
  lrn_acceptors l = 3 -> current_iid l = px_inst h -> 0 < px_inst h -> deliver (worker_paxos w) = Some cb ->
  leader (conf g) = 0 \/ preexec_window (conf g) = 0 -> respond_to_client (conf g) <> 0 ->
  calls_store c (checkpoint_interval (conf g)) cb -> application g = (r, p, y) -> reliable -> stores c r p ms ->
  0 <= worker_id w < num_workers p ->
  let i := store_of p (worker_id w) in
  let due := checkpoint_due (checkpoint_interval (conf g)) (px_inst h) in
  (due = true -> is_Some (send (d, y) i (px_inst h))) ->
  exists pkt' w' l' r' p' y' d',
    replica_handler g d m w = Some (SUCCESS, Globals (conf g) (r', p', y'), mbuf_set d' m pkt', w') /\
    (if due then send (d, y) i (px_inst h) else Some (d, y)) = Some (d', y') /\
    wk_learner (worker_paxos w') = Some l' /\ current_iid l' = u32 (px_inst h + 1) /\
    stores c r' p' (fun j => if bool_decide (j = i) then (kv_step (ms i) (px_value h)).1 else ms j) /\
    paxos_packet pkt' (u32 (sin_addr (mine (conf g)))) (set_pxvalue h (kv_step (ms i) (px_value h)).2) /\
    get_addr (data pkt') 30 = Some (u32 (sin_addr (client (conf g)))).
Proof.
  intros Hget Hpkt Hty Hl Hwf Hroom Hn Hcur Hpos Hcb Hlead Hresp Hcall Happ Hrel Hst Hid i due Hsend.
  pose proof (paxos_packet_ok _ _ _ Hpkt) as (_ & _ & _ & _ & _ & _ & _ & _ & Hlen & _).
  destruct (rocksdb_deliver_runs send c (checkpoint_interval (conf g)) r p (d, y) (worker_id w) (px_inst h) (px_value h) ms
    Hrel Hst Hid Hlen Hsend) as (r' & p' & [d' y'] & Hrun & Hsent & _ & Hst'). fold i in Hrun, Hst', Hsent. fold due in Hsent.
  assert (length (kv_step (ms i) (px_value h)).2 = 8%nat) as Hlen'.
  { apply kv_step_length; [done|]. assert (0 <= i < num_workers p) as Hi.
    { subst i. unfold store_of. destruct (Z.eqb_spec (num_workers p) 1); lia. }
    pose proof (st_workers c r p ms Hst) as [Hw4 Hw5]. destruct (arr_get_in (workers p) i) as [u Hu]; [lia|].
    apply (st_table c r p ms Hst i u Hi Hu). }
  destruct (chosen_packet_runs g d m w pkt src h l cb (r', p', y') d' (kv_step (ms i) (px_value h)).2)
    as (ret & pkt' & w' & l' & Hrep & Hl' & Hc & Hans); try done.
  { rewrite Happ, Hcall, Hrun. done. }
  destruct (Hans Hresp) as (-> & Hp' & Hd'). by exists pkt', w', l', r', p', y', d'.
Qed.
End plane.

(** ** The program of the learner

    [dpdk_learner.c] never sets [num_workers] of the zeroed variable [rocks]: no database is
    opened, and the first write goes to NULL. *)

Definition zero_params : rocksdb_params :=
  RocksdbParams (repeat (RocksdbLcoreParams None NULL NULL NULL 0 0 0) (Z.to_nat MAX_WORKER_CORE))
    (RocksdbOptions 0 0 0 false) (RocksdbWriteoptions 0 0) 0 0 [].

Lemma learner_writes_to_null `{R : RocksDb} r c id val t :
  arr_get val 0 = Some t -> Z_of_byte t = WRITE_REQ ->
  exists p, init_rocksdb r c zero_params = Some (0, r, p) /\ learner_deliver r p id val = None.
Proof.
  intros Ht Hty. eexists. split; [done|]. unfold learner_deliver, execute.
  destruct (arr_get (workers _) _) as [w|] eqn:Hw; [|done].
  apply (arr_get_repeat (RocksdbLcoreParams None NULL NULL NULL 0 0 0) _ 4) in Hw as ->. cbn [mbind option_bind]. rewrite Ht. cbn [mbind option_bind]. rewrite Hty.
  change (WRITE_REQ =? WRITE_REQ) with true. cbv iota. destruct (read_at val 1 KEYLEN); [|done]. cbn [mbind option_bind].
  by destruct (read_at val 5 VALLEN).
Qed.

(** ** The configuration of a replica

    [dpdk_replica.c] reads the file into the zeroed variable, and a number is taken
    only where the variable has its default: the sizes of the file are
    ignored. *)

Definition sizes (c : rocksdb_configurations) : list Z := [mem_budget c; flush_size c; nb_keys c].

Lemma add_paths_sizes c ps c' : add_paths c ps = Some c' -> sizes c' = sizes c.
Proof.
  revert c. induction ps as [|p ps IH]; simpl; intros c H; [by simplify_eq|].
  unfold add_path in H. destruct (arr_set _ _ _); [|done]. simpl in H. by rewrite (IH _ H).
Qed.

Lemma populate_line_sizes fuel ts c c' :
  populate_line fuel ts c = Some c' -> flush_size c = 0 -> nb_keys c = 0 -> sizes c' = sizes c.
Proof.
  revert ts c. induction fuel as [|fuel IH]; intros ts c H Hf Hk; [done|]. cbn [populate_line] in H.
  destruct ts as [|t ts]; [by simplify_eq|]. case_bool_decide; [by simplify_eq|].
  destruct (find_option number_options t) as [o|].
  - destruct (Z.eqb_spec (option_value c o) (option_default o)) as [Eo|_]; [|by apply (IH _ _ H)].
    destruct ts as [|v ts]; [done|]. destruct o; cbn in Eo; rewrite ?Hf, ?Hk in Eo; try done; by rewrite (IH _ _ H).
  - case_bool_decide; [by apply add_paths_sizes in H|]. case_bool_decide; [|by apply (IH _ _ H)].
    destruct ts as [|v ts]; [by simplify_eq|]. by rewrite (IH _ _ H).
Qed.

Lemma sizes_ignored file c :
  populate_configuration file zero_configurations = Some c -> mem_budget c = 0 /\ flush_size c = 0 /\ nb_keys c = 0.
Proof.
  assert (forall ls c0, populate_lines ls c0 = Some c -> sizes c0 = [0; 0; 0] -> sizes c = [0; 0; 0]) as Hls.
  { induction ls as [|l ls IH]; cbn [populate_lines]; intros c0 H H0; [by simplify_eq|]. destruct (populate_line _ _ c0) as [c1|] eqn:E; [|done].
    cbn [mbind option_bind] in H. apply (IH _ H). rewrite <-H0. unfold sizes in H0. injection H0 as ? ? ?. by eapply populate_line_sizes. }
  intros H. destruct file as [f|]; simpl in H; [|by simplify_eq]. apply Hls in H; [|done]. unfold sizes in H. by simplify_eq.
Qed.

(** ** Witnesses: a replica with one database *)

#[local] Instance sim_rocks : RocksDb := {|
  rdb := gmap Z table_t;
  rocksdb_put r h _ k v := (false, <[h := <[k := v]> (default ∅ (r !! h))]> r);
  rocksdb_get r h k := (false, default ∅ (r !! h) !! k, r);
  rocksdb_checkpoint_create r _ _ _ := (false, r);
  rocksdb_backup_engine_create_new_backup r _ _ := (false, r);
  rocksdb_open r _ _ := (Some 1, r);
  rocksdb_backup_engine_open r _ _ := (Some 2, r);
  rocksdb_checkpoint_object_create r _ := (Some 3, r);
  system r _ := (0, r);
  nprocessors _ := 4;
  gethostname _ := str "node";
|}.

#[local] Instance sim_rocks_laws : RocksDbLaws.
Proof.
  refine {| table r h := default ∅ ((r : gmap Z table_t) !! h) |}.
  - intros r h wo k v err r' [= <- <-] x. simpl. case_bool_decide as Ex; [subst x; by rewrite lookup_insert_eq|by rewrite lookup_insert_ne by done].
  - by intros r h k err v r' [= <- <- <-].
  - done.
  - done.
Defined.

Definition sim_file : list byte :=
  str "# Temp" ++ [x0a] ++ str "flush_size 4096" ++ [x0a] ++ str "db_paths /tmp/part1 /tmp/part2 unused" ++ [x0a].

(** The program of a replica with one worker. *)
Definition sim_conf : rocksdb_configurations := default zero_configurations (populate_configuration (Some sim_file) zero_configurations).
Definition sim_params0 : rocksdb_params :=
  RocksdbParams (workers zero_params) (rdb_options zero_params) (writeoptions zero_params) 1 0 [].
Definition sim_params : rocksdb_params := match init_rocksdb ∅ sim_conf sim_params0 with Some (_, _, p) => p | None => sim_params0 end.

(** Key 1 is written, then read. *)
Definition sim_write : list byte := [x02; x01; x00; x00; x00; x61; x62; x00].
Definition sim_read : list byte := [x01; x01; x00; x00; x00; x00; x00; x00].

Lemma sim_reliable : reliable.
Proof. split; reflexivity. Qed.

Lemma sim_stores (r : rdb) ms :
  table r 1 = ms 0 -> small (ms 0) -> stores sim_conf r sim_params ms.
Proof.
  intros Ht Hs. split.
  - split; [reflexivity|]. split; [reflexivity|]. vm_compute. discriminate.
  - intros i w [H1 H2] Hw. change (num_workers sim_params) with 1 in H2. replace i with 0 in * by lia.
    vm_compute in Hw. injection Hw as <-. do 2 (split; [assumption|]). split_and!; done.
  - intros i j w w' Hi Hj _ _ _. change (num_workers sim_params) with 1 in Hi, Hj. lia.
Qed.

Lemma store_refines_kv_witness :
  exists r' p', deliver_all (fun (y : unit) _ _ => Some y) sim_conf 100 ∅ sim_params tt [(0, 1, sim_write); (0, 2, sim_read)] =
    Some (r', p', tt, [sim_write; [x01; x01; x00; x00; x00; x61; x62; x00]]).
Proof.
  destruct (store_refines_kv (fun (y : unit) _ _ => Some y) sim_conf 100 ∅ sim_params tt (fun _ => ∅)
    [(0, 1, sim_write); (0, 2, sim_read)]) as (r' & p' & [] & Hrun & _).
  - exact sim_reliable.
  - apply sim_stores; [reflexivity|apply map_Forall_empty].
  - repeat constructor; vm_compute; congruence.
  - intros [] i n. by exists tt.
  - exists r', p'. rewrite Hrun. vm_compute. reflexivity.
Defined.

(** The node has one I/O core, which sends to port 0; its configuration asks for a
    checkpoint after every instance. *)
Definition sim_store_conf : p4xos_configuration :=
  map_conf (fun o x => if bool_decide (o = o_resp \/ o = o_cp_interval) then 1 else x) (only o_cliaddr (fun _ => SockaddrIn 0 7)) zero_conf.

Definition sim_store_io : app_lcore_params_io :=
  let t := tx (@zero_io (sim false)) in
  AppLcoreParamsIo (rx (@zero_io (sim false)))
    (IoTx (tx_rings t) (nic_ports t) 1 (tx_mbuf_out t) (tx_mbuf_out_flush t) (nic_ports_count t) (nic_ports_iters t)).

Notation sim_store_state := (worker_state Khash.khash (mem_storage Khash.khash) unit).

Definition sim_store_app : app_params sim_store_state :=
  set_lcore_params (@zero_app (sim false) sim_store_state)
    (AppLcoreParams (e_APP_LCORE_IO sim_store_io) 0 :: replicate 3 (AppLcoreParams e_APP_LCORE_DISABLED 0)).

Definition sim_send (y : sim_dev * app_lcore_params_io) (id inst : Z) : option (sim_dev * app_lcore_params_io) :=
  @send_checkpoint_message (sim false) sim_eth Khash.khash (mem_storage Khash.khash) unit _ sim_env sim_store_app sim_store_conf
    y.1 y.2 (sim_worker (Some (learner_new 1 3)) None) inst.

#[local] Instance sim_store_env : @P4Env (sim false) unit (rdb * rocksdb_params * app_lcore_params_io) := {|
  rte_timer_init d _ _ := d : @dev (sim false);
  rte_timer_reset d _ _ _ := (0, d);
  rte_timer_subsystem_init d := d;
  rte_get_timer_hz := 1000;
  gettimeofday _ := {| tv_sec := 0; tv_usec := 0 |};
  freed_iid _ := 0;
  latency_line _ _ _ := 10;
  call _ x d id i v _ :=
    v ← v;
    '(r, p, (d, y), val) ← rocksdb_deliver sim_send sim_conf 1 x.1.1 x.1.2 (d, x.2) id i v;
    Some ((r, p, y), d, Some val);
|}.

Definition sim_table : gmap Z table_t := {[1 := {[ [x01; x00; x00; x00] := [x61; x62] ]}]}.
Definition sim_store_globals : globals (rdb * rocksdb_params * app_lcore_params_io) :=
  Globals sim_store_conf (sim_table, sim_params, sim_store_io).

(** The value is read, the checkpoint message is in the buffer of port 0. *)
Lemma chosen_request_executed_witness :
  let m := sim_msg PAXOS_CHOSEN 1 3 sim_read in
  exists pkt' r' p' y' d' w',
    @replica_handler (sim false) sim_eth Khash.khash _ _ _ unit _ sim_store_env sim_store_globals (sim_heap_dev m) 10
      (sim_worker (Some (learner_new 1 3)) None) =
      Some (SUCCESS, Globals (conf sim_store_globals) (r', p', y'), @mbuf_set (sim false) d' 10 pkt', w') /\
    px_value <$> get_paxos_hdr (data pkt') 42 = Some [x01; x01; x00; x00; x00; x61; x62; x00] /\
    get_addr (data pkt') 30 = Some 7 /\ tx_held (tx y') 0 = [1001].
Proof.
  intros m.
  destruct (@chosen_request_executed (sim false) sim_eth Khash.khash _ sim_rocks sim_rocks_laws unit app_lcore_params_io sim_store_env
    sim_send sim_conf sim_store_globals (sim_heap_dev m) 10 (sim_worker (Some (learner_new 1 3)) None) m 5
    (sim_hdr PAXOS_CHOSEN 1 3 sim_read) (learner_new 1 3) tt sim_table sim_params sim_store_io (fun _ => {[ [x01; x00; x00; x00] := [x61; x62] ]}))
    as (pkt' & w' & l' & r' & p' & y' & d' & Hrun & Hsent & _ & _ & _ & Hp & Hd).
  - apply lookup_singleton_eq.
  - constructor; vm_compute; congruence.
  - reflexivity.
  - reflexivity.
  - apply kh_init_wf.
  - reflexivity.
  - reflexivity.
  - reflexivity.
  - reflexivity.
  - reflexivity.
  - by left.
  - discriminate.
  - intros r p y d id inst v n. reflexivity.
  - reflexivity.
  - exact sim_reliable.
  - apply sim_stores; [reflexivity|]. by apply map_Forall_singleton.
  - split; reflexivity.
  - intros _. eexists. vm_compute. reflexivity.
  - exists pkt', r', p', y', d', w'. split; [exact Hrun|]. split; [rewrite (pp_hdr _ _ _ Hp); vm_compute; reflexivity|].
    split; [exact Hd|]. clear -Hsent. vm_compute in Hsent. injection Hsent as _ <-. vm_compute. reflexivity.
Defined.
