(* ===== verification/P4Clients.v ===== *)
(** * The clients of the data plane ([dppaxos/src/dpdk_proposer.c], [dppaxos/src/xclient.c])

    The proposer program gives every worker its first requests and sums up the
    statistics of the workers.  The other client reads and sends on one core
    without rings; its packets go through the hierarchical scheduler of DPDK, the
    class [Sched], which limits the rate, and it writes the latencies to a file.

    [None] is the use of NULL, an access outside of a buffer or [rte_panic]. *)

From S2P Require Import Prelude Bytes PaxosTypes KhashInterface EvConfig Storage Acceptor Proposer Learner P4Packet P4Dpdk P4Sim P4App P4Runtime P4Worker P4Timers P4Replica P4Store.
#[local] Open Scope Z_scope.

Definition sizeof_request : Z := 8.

(** ** The proposer program *)

(** [rte_memcpy] of the number into the key and of its first bytes into the value;
    the last byte is not set. *)
Definition set_request (terminator : byte) (some_value : Z) : list byte :=
  le_split 1 WRITE_REQ ++ le_split 4 some_value ++ take (Z.to_nat VALLEN) (le_split 4 some_value) ++ [terminator].

Section proposer.
Context {D : Dpdk} {E : Eth} `{KH : KHash T} `{SA : StorageApi H} {CB X : Type} {EN : P4Env CB X}.
Notation state := (worker_state T H CB).
Notation worker := (app_lcore_params_worker state).
Implicit Types (a : app_params state) (d : dev) (w : worker).

(** The sums over the workers, whose counters start again. *)
Record sums := Sums { sum_latency_count : Z; sum_delivery : Z; sum_latency : Z; sum_pkts : Z; sum_bytes : Z }.

Definition collect (s : sums) w : sums * worker :=
  let st := stats (worker_paxos w) in
  (Sums (u32 (sum_latency_count s + nb_latency st)) (u32 (sum_delivery s + nb_delivery st))
     ((sum_latency s + latency st) mod 2 ^ 64) ((sum_pkts s + total_pkts st) mod 2 ^ 64)
     ((sum_bytes s + total_bytes st) mod 2 ^ 64),
   set_worker_paxos w (set_stats (worker_paxos w)
     (WorkerStats 0 0 0 0 0 (accepted_count st) (start_ts st) (buffer_count st)))).

Definition set_force_quit a : app_params state :=
  AppParams
    (lcore_params a) (nic_rx_queue_mask a) (nic_tx_port_mask a) (pools a) (lpm_tables a) (lpm_rules a)
    (n_lpm_rules a) (nic_rx_ring_size a) (nic_tx_ring_size a) (ring_rx_size a) (ring_tx_size a)
    (burst_size_io_rx_read a) (burst_size_io_rx_write a) (burst_size_io_tx_read a) (burst_size_io_tx_write a)
    (burst_size_worker_read a) (burst_size_worker_write a) (pos_lb a) (p4xos_conf a) (hz a) true
    (map_worker_lcore a) (map_lcore_worker a).

(** [total] is [total_delivered_count]; the average is output. *)
Definition stat_cb (total : Z) a : option (Z * app_params state) :=
  '(s, a) ← for_workers (fun _ s w => Some (collect s w)) (Sums 0 0 0 0 0) a;
  let total := (total + sum_delivery s) mod 2 ^ 64 in
  Some (total, if max_inst (p4xos_conf a) <=? total then set_force_quit a else a).

(** The array of [osd] requests. *)
Definition requests (terminator : byte) (osd : Z) : list byte :=
  List.concat (map (fun i => set_request terminator (i + 1)) (seqZ 0 osd)).

(** The loop over the workers; the state is the device, the number of the next
    worker and whether the loop was left. *)
Definition first_requests (terminator : byte) (n_workers : Z) d a : option (dev * app_params state) :=
  let c := p4xos_conf a in
  let req := requests terminator (osd c) in
  '(s, a) ← for_workers (fun _ '(d, id, over) w =>
              if over : bool then Some ((d, id, over), w) else
              '(d, w) ← submit_bulk a c d w id (osd c) (Some req) sizeof_request;
              Some ((d, u32 (id + 1), u32 (id + 1) =? n_workers), w)) (d, 0, false) a;
  Some (s.1.1, a).

(** What the program does after [app_init]. *)
Definition dpdk_proposer (terminator : byte) (receive_response : CB) d a : option (dev * app_params state) :=
  a ← app_set_deliver_callback receive_response a;
  a ← app_set_worker_callback proposer_cb a;
  '(d, a) ← app_set_stat_callback d a;
  '(d, a) ← app_init_proposer d a;
  n_workers ← app_get_lcores_worker a;
  first_requests terminator n_workers d a.
End proposer.

(** ** The client with a scheduler ([xclient.c]) *)

Definition SCHED_PORT_QUEUE_SIZE : Z := 64.

Class Sched := {
  sched : Type;
  (** the number of packets in the first queue *)
  sched_qlen : sched -> Z;
  rte_sched_port_enqueue : sched -> list mbuf -> Z * sched;
  rte_sched_port_dequeue : sched -> Z -> list mbuf * sched;
}.

(** [stat_file] is what [fwrite] wrote; the packets, pools and timers are in the
    device. *)
Record client_param := ClientParam {
  file_buffer : list byte;
  stat_file : list byte;
  client_count : Z;
  delivered_count : Z;
  Bps : Z;
  pps : Z;
  client_start : Z;
  latency_pkts : Z;
  latencies : Z;
  tx_iter_count : Z;
}.

Definition set_file (cl : client_param) (buf file : list byte) (n : Z) : client_param :=
  ClientParam buf file n (delivered_count cl) (Bps cl) (pps cl) (client_start cl) (latency_pkts cl) (latencies cl) (tx_iter_count cl).
Definition set_sums (cl : client_param) (delivered bytes packets pkts total : Z) : client_param :=
  ClientParam (file_buffer cl) (stat_file cl) (client_count cl) delivered bytes packets (client_start cl) pkts total (tx_iter_count cl).

(** A static variable; the file is opened. *)
Definition init_client : client_param :=
  ClientParam (replicate (Z.to_nat (CHUNK_SIZE + 64)) x00) [] 0 0 0 0 0 0 0 0.

(** The rest of the buffer is written. *)
Definition destroy_client (cl : client_param) : option (list byte) :=
  if 0 <? client_count cl then bs ← read_at (file_buffer cl) 0 (client_count cl); Some (stat_file cl ++ bs)
  else Some (stat_file cl).

(** A write request over the uninitialised variable. *)
Definition xset_request (junk : list byte) (type key value : Z) : option (list byte) :=
  write_fields junk ([(0, le_split 1 type); (1, le_split 4 key)] ++ (if u8 type =? WRITE_REQ then [(5, le_split 2 value)] else [])).

(** [sprintf] of the latency behind the [client_count] bytes, with the NUL. *)
Definition record_latency (cl : client_param) (latency : Z) : option client_param :=
  let line := print_nat latency ++ [x0a] in
  buf ← write_at (file_buffer cl) (client_count cl) (line ++ [x00]);
  let n := i32 (client_count cl + Z.of_nat (length line)) in
  if CHUNK_SIZE <=? n
  then bs ← read_at buf 0 n; Some (set_file cl buf (stat_file cl ++ bs) 0)
  else Some (set_file cl buf (stat_file cl) n).

Section xclient.
Context {D : Dpdk} {E : Eth} {SC : Sched}.
Implicit Types (c : p4xos_configuration) (d : dev) (cl : client_param).

Definition set_ts d (m : mbuf) (ts : Z) : option dev :=
  pkt ← mbuf_get d m;
  p ← write_at (data pkt) (get_paxos_offset + 28) (be_split 8 ts);
  Some (mbuf_set d m (set_data pkt p)).
Definition reset_ts d (m : mbuf) : option dev := set_ts d m 0.
Definition update_ts d (m : mbuf) : option dev := let '(now, d) := rte_get_timer_cycles d in set_ts d m now.

(** NULL when there is no packet. *)
Definition prepare_base_pkt c d (pool : Z) (junk : list byte) (port worker_id : Z) (get_igress : bool) : option (mbuf * dev) :=
  let '(m, d) := rte_pktmbuf_alloc d pool in
  if m =? NULL then Some (NULL, d) else
  ap ← xset_request junk WRITE_REQ 1 2345;
  pkt ← mbuf_get d m;
  pkt ← prepare_paxos_message pkt port (mine c) (paxos_leader c) (msgtype c) 0 0 worker_id (node_id c) 0 0 (Some ap) sizeof_request;
  let d := mbuf_set d m pkt in
  d ← (if get_igress then update_ts d m else Some d);
  Some (m, d).

Fixpoint on_each (f : dev -> mbuf -> option dev) d (l : list mbuf) : option dev :=
  match l with [] => Some d | m :: l => d ← f d m; on_each f d l end.

(** The one packet is put in the scheduler as often as there is room. *)
Definition submit_requests c (m : mbuf) cl d (s : sched) : option (Z * client_param * dev * sched) :=
  let port := tx_port c in
  d ← message c d m (paxos_leader c) (msgtype c) 0 0 0 0 0 None 0;
  let cl := ClientParam (file_buffer cl) (stat_file cl) (client_count cl) (delivered_count cl) (Bps cl) (pps cl)
              (client_start cl) (latency_pkts cl) (latencies cl) (u32 (tx_iter_count cl + 1)) in
  let nb_eq := u32 (SCHED_PORT_QUEUE_SIZE - sched_qlen s) in
  let prepared := replicate (Z.to_nat nb_eq) m in
  d ← on_each reset_ts d prepared;
  let s := if 0 <? nb_eq then (rte_sched_port_enqueue s prepared).2 else s in
  let '(pkts_tx, s) := rte_sched_port_dequeue s (osd c) in
  match pkts_tx with
  | [] => Some (0, cl, d, s)
  | _ =>
      d ← on_each update_ts d pkts_tx;
      let '(nb_tx, d) := rte_eth_tx_burst d port 0 pkts_tx in
      d ← on_each (fun d m => Some (rte_pktmbuf_free d m)) d (drop (Z.to_nat nb_tx) pkts_tx);
      Some (nb_tx, cl, d, s)
  end.

(** The answer to a request; what is logged is left out. *)
Definition paxos_handler cl d (m : mbuf) : option (Z * client_param * dev) :=
  pkt ← mbuf_get d m;
  ret ← filter_packets pkt;
  if ret <? 0 then Some (ret, cl, d) else
  h ← get_paxos_hdr (data pkt) get_paxos_offset;
  if px_msgtype h =? PAXOS_CHOSEN then
    let previous := px_igress_ts h in
    '(cl, d) ← (if client_start cl <? previous then
                  let '(now, d) := rte_get_timer_cycles d in
                  let latency := (now - previous) mod 2 ^ 64 in
                  let cl := set_sums cl (delivered_count cl) (Bps cl) (pps cl) (u32 (latency_pkts cl + 1))
                              ((latencies cl + latency) mod 2 ^ 64) in
                  cl ← record_latency cl latency;
                  Some (cl, d)
                else Some (cl, d));
    Some (-5, set_sums cl ((delivered_count cl + 1) mod 2 ^ 64) ((Bps cl + pkt_len pkt + 8 + 4 + 12) mod 2 ^ 64)
                ((pps cl + 1) mod 2 ^ 64) (latency_pkts cl) (latencies cl), d)
  else Some (-4, cl, d).

Definition xstat_cb cl : client_param := set_sums cl (delivered_count cl) 0 0 0 0.

(** The number of the packets the handler did not free. *)
Fixpoint packet_handler cl d (pkts : list mbuf) (tx_pkts : Z) : option (Z * client_param * dev) :=
  match pkts with
  | [] => Some (tx_pkts, cl, d)
  | m :: pkts =>
      '(ret, cl, d) ← paxos_handler cl d m;
      if ret <? 0 then packet_handler cl (rte_pktmbuf_free d m) pkts tx_pkts
      else packet_handler cl d pkts (u16 (tx_pkts + 1))
  end.

(** One round of the loop of [lcore_rx].  The clock is read; the only timer runs on
    the other core, so that [rte_timer_manage] does nothing on this one. *)
Definition rx_round c (base : mbuf) (burst : Z) cl d (s : sched) : option (client_param * dev * sched) :=
  let '(_, d) := rte_get_timer_cycles d in
  let '(pkts, d) := rte_eth_rx_burst d (tx_port c) 0 burst in
  '(cl, d) ← match pkts with
             | [] => Some (cl, d)
             | _ =>
                 '(nb_tx, cl, d) ← packet_handler cl d pkts 0;
                 d ← on_each (fun d m => Some (rte_pktmbuf_free d m)) d (take (Z.to_nat nb_tx) pkts);
                 Some (cl, d)
             end;
  '(_, cl, d, s) ← submit_requests c base cl d s;
  Some (cl, d, s).

(** The loop ends when enough values were delivered; [n] bounds the rounds that are
    looked at. *)
Fixpoint rx_loop (n : nat) c (base : mbuf) (burst : Z) cl d (s : sched) : option (client_param * dev * sched) :=
  match n with
  | O => Some (cl, d, s)
  | Datatypes.S n =>
      if delivered_count cl <? max_inst c
      then '(cl, d, s) ← rx_round c base burst cl d s; rx_loop n c base burst cl d s
      else Some (cl, d, s)
  end.

Definition lcore_rx (n : nat) c (pool : Z) (junk : list byte) (burst : Z) cl d (s : sched) : option (client_param * dev * sched) :=
  '(base, d) ← prepare_base_pkt c d pool junk (tx_port c) (u8 (node_id c)) false;
  rx_loop n c base burst cl d s.
End xclient.

(** ** The file of latencies *)

(** What was measured: the file and the part of the buffer that is not written yet. *)
Definition logged (cl : client_param) : list byte := stat_file cl ++ take (Z.to_nat (client_count cl)) (file_buffer cl).

Definition client_ok (cl : client_param) : Prop :=
  Z.of_nat (length (file_buffer cl)) = CHUNK_SIZE + 64 /\ 0 <= client_count cl < CHUNK_SIZE /\ 0 <= delivered_count cl < 2 ^ 64.

Definition latency_line (latency : Z) : list byte := print_nat latency ++ [x0a].

Lemma latency_line_length n : 0 <= n < 2 ^ 64 -> (length (latency_line n) <= 21)%nat.
Proof.
  intros Hn. unfold latency_line. rewrite length_app. pose proof (print_nat_length n 19 ltac:(lia)). cbn [length]. lia.
Qed.

(** The 64 bytes behind the chunk are enough for any line. *)
Lemma record_latency_spec cl n :
  client_ok cl -> 0 <= n < 2 ^ 64 ->
  exists buf file k, record_latency cl n = Some (set_file cl buf file k) /\ client_ok (set_file cl buf file k) /\
    logged (set_file cl buf file k) = logged cl ++ latency_line n.
Proof.
  unfold client_ok, CHUNK_SIZE. intros (Hl & Hc & Hdel) Hn. pose proof (latency_line_length n Hn) as Hline. unfold record_latency.
  fold (latency_line n). set (line := latency_line n) in *.
  destruct (write_at_in (file_buffer cl) (client_count cl) (line ++ [x00])) as [buf Hbuf]; [lia|rewrite length_app; cbn [length]; lia|].
  rewrite Hbuf. cbn [mbind option_bind]. rewrite i32_small by lia.
  unfold write_at in Hbuf. destruct (_ && _); [|done]. injection Hbuf as <-.
  set (p := take (Z.to_nat (client_count cl)) (file_buffer cl)). set (rest := drop _ _).
  assert (length p = Z.to_nat (client_count cl)) as Hp by (unfold p; rewrite length_take; lia).
  assert (Z.to_nat (client_count cl + Z.of_nat (length line)) = (length p + length line)%nat) as En by lia.
  assert (take (length p + length line) (p ++ (line ++ [x00]) ++ rest) = p ++ line) as Et.
  { rewrite <- app_assoc, take_app_add, take_app_length. done. }
  assert (length (p ++ (line ++ [x00]) ++ rest) = length (file_buffer cl)) as Hlen.
  { unfold rest. rewrite !length_app, length_drop. cbn [length]. lia. }
  unfold CHUNK_SIZE. destruct (Z.leb_spec 4096 (client_count cl + Z.of_nat (length line))) as [Hbig|Hsmall].
  - assert (read_at (p ++ (line ++ [x00]) ++ rest) 0 (client_count cl + Z.of_nat (length line)) = Some (p ++ line)) as ->.
    { apply read_at_Some. rewrite Hlen. split_and!; [lia..|]. change (Z.to_nat 0) with O. by rewrite drop_0, En, Et. }
    cbn [mbind option_bind]. eexists _, _, 0. split; [done|]. cbn [file_buffer client_count stat_file delivered_count set_file]. split; [lia|].
    unfold logged. cbn [file_buffer client_count stat_file set_file]. change (Z.to_nat 0) with O. fold p.
    by rewrite app_nil_r, <- !app_assoc.
  - eexists _, _, _. split; [done|]. cbn [file_buffer client_count stat_file delivered_count set_file]. split; [lia|].
    unfold logged. cbn [file_buffer client_count stat_file set_file]. fold p. by rewrite En, Et, app_assoc.
Qed.

(** *** A burst *)

(** The message of a packet with an answer, and when its request was sent if the
    client measures it. *)
Definition answer_hdr {E : Eth} (pkt : rte_mbuf) : option paxos_hdr :=
  match filter_packets pkt, get_paxos_hdr (data pkt) get_paxos_offset with
  | Some ret, Some h => if (0 <=? ret) && (px_msgtype h =? PAXOS_CHOSEN) then Some h else None
  | _, _ => None
  end.
Definition request_time {E : Eth} (start : Z) (pkt : rte_mbuf) : option Z :=
  h ← answer_hdr pkt; if start <? px_igress_ts h then Some (px_igress_ts h) else None.

(** The latencies of the packets of a burst: for each request that is measured, the
    clock is read once, and the packet is freed before the next one. *)
Fixpoint burst_latencies {D : Dpdk} {E : Eth} (start : Z) (d : dev) (burst : list (mbuf * rte_mbuf)) : list Z :=
  match burst with
  | [] => []
  | (m, pkt) :: burst =>
      match request_time start pkt with
      | Some ts =>
          let '(now, d) := rte_get_timer_cycles d in
          (now - ts) mod 2 ^ 64 :: burst_latencies start (rte_pktmbuf_free d m) burst
      | None => burst_latencies start (rte_pktmbuf_free d m) burst
      end
  end.

Definition count_answers {E : Eth} (n : Z) (ps : list rte_mbuf) : Z := (n + Z.of_nat (length (omap answer_hdr ps))) mod 2 ^ 64.

(** The clock does nothing to the packets. *)
Class ClockLaws `{DL : DpdkLaws} := {
  clock_view d : view_of (rte_get_timer_cycles d).2 = view_of d;
  clock_get d m : mbuf_get (rte_get_timer_cycles d).2 m = mbuf_get d m;
}.

Section burst.
Context {E : Eth} `{CL : ClockLaws}.
Implicit Types (cl : client_param) (d : dev).

Lemma get_be_in p off n : 0 <= off -> 0 <= n -> off + n <= Z.of_nat (length p) -> is_Some (get_be p off n).
Proof. intros H1 H2 H3. unfold get_be. destruct (read_at_in p off n H1 H2 H3) as (bs & -> & _). by eexists. Qed.

Lemma filter_packets_in pkt : 78 <= Z.of_nat (length (data pkt)) -> is_Some (filter_packets pkt).
Proof.
  intros Hl. unfold filter_packets. destruct (get_be_in (data pkt) 12 2) as [t ->]; [lia..|]. cbn [mbind option_bind].
  destruct (negb _); [by eexists|]. destruct (get_be_in (data pkt) (sizeof_ether_hdr + 9) 1) as [q ->]; [unfold sizeof_ether_hdr; lia..|].
  cbn [mbind option_bind]. destruct (negb _); [by eexists|].
  destruct (read_at_in (data pkt) (sizeof_ether_hdr + sizeof_ipv4_hdr + 2) 2) as (bs & -> & _); [unfold sizeof_ether_hdr, sizeof_ipv4_hdr; lia..|].
  by eexists.
Qed.

Lemma get_paxos_hdr_in p : 78 <= Z.of_nat (length p) -> is_Some (get_paxos_hdr p get_paxos_offset).
Proof.
  intros Hl. change get_paxos_offset with 42. unfold get_paxos_hdr.
  destruct (read_at_in p (42 + 16) 8) as (v & Hv & _); [lia..|].
  repeat match goal with |- context [get_be p ?o ?n] => destruct (get_be_in p o n) as [? ->]; [lia..|]; cbn [mbind option_bind] end.
  rewrite Hv. cbn [mbind option_bind].
  repeat match goal with |- context [get_be p ?o ?n] => destruct (get_be_in p o n) as [? ->]; [lia..|]; cbn [mbind option_bind] end.
  by eexists.
Qed.

Lemma count_answers_cons pkt ps n n' :
  0 <= n < 2 ^ 64 -> n' = (if answer_hdr pkt then (n + 1) mod 2 ^ 64 else n) -> count_answers n' ps = count_answers n (pkt :: ps).
Proof.
  intros Hn ->. unfold count_answers. cbn [omap list_omap]. destruct (answer_hdr pkt); [|done].
  rewrite Zplus_mod_idemp_l. f_equal. cbn [length]. lia.
Qed.

(** Every packet is to be freed: none of the results is that of a packet to keep. *)
Lemma paxos_handler_spec cl d m pkt :
  client_ok cl -> mbuf_get d m = Some pkt -> 78 <= Z.of_nat (length (data pkt)) ->
  exists ret cl' d', paxos_handler cl d m = Some (ret, cl', d') /\ ret < 0 /\ client_ok cl' /\
    view_of d' = view_of d /\ (forall x, mbuf_get d' x = mbuf_get d x) /\ client_start cl' = client_start cl /\
    delivered_count cl' = (if answer_hdr pkt then (delivered_count cl + 1) mod 2 ^ 64 else delivered_count cl) /\
    match request_time (client_start cl) pkt with
    | Some ts =>
        let '(now, d1) := rte_get_timer_cycles d in d' = d1 /\ logged cl' = logged cl ++ latency_line ((now - ts) mod 2 ^ 64)
    | None => d' = d /\ logged cl' = logged cl
    end.
Proof.
  intros Hok Hget Hlen. unfold paxos_handler, request_time, answer_hdr. rewrite Hget. cbn [mbind option_bind].
  destruct (filter_packets_in pkt Hlen) as [ret ->]. cbn [mbind option_bind]. destruct (get_paxos_hdr_in _ Hlen) as [h ->]. cbn [mbind option_bind].
  destruct (Z.ltb_spec ret 0) as [Hr|Hr]; [rewrite (proj2 (Z.leb_gt 0 ret)) by done; exists ret, cl, d; by split_and!|].
  rewrite (proj2 (Z.leb_le 0 ret)) by done. cbn [andb].
  destruct (px_msgtype h =? PAXOS_CHOSEN); [|exists (-4), cl, d; by split_and!]. cbn [mbind option_bind].
  pose proof (Z.mod_pos_bound (delivered_count cl + 1) (2 ^ 64) ltac:(lia)) as Hmod.
  destruct (client_start cl <? px_igress_ts h).
  - pose proof (clock_view d) as Hv. pose proof (clock_get d) as Hg. destruct (rte_get_timer_cycles d) as [now d1]. cbn [snd] in Hv, Hg.
    set (n := (now - px_igress_ts h) mod 2 ^ 64). set (cl1 := set_sums _ _ _ _ _ _).
    destruct (record_latency_spec cl1 n Hok) as (buf & file & k & -> & Hok' & Hlog); [apply Z.mod_pos_bound; lia|].
    cbn [mbind option_bind]. destruct Hok' as (? & ? & _). eexists _, _, _. split; [done|]. split; [lia|]. by split_and!.
  - destruct Hok as (? & ? & _). cbn [mbind option_bind]. eexists _, _, _. split; [done|]. by split_and!.
Qed.

Lemma packet_handler_spec pkts ps : forall cl d n,
  client_ok cl -> NoDup pkts -> Forall2 (fun m pkt => mbuf_get d m = Some pkt /\ 78 <= Z.of_nat (length (data pkt))) pkts ps ->
  exists cl' d', packet_handler cl d pkts n = Some (n, cl', d') /\ client_ok cl' /\
    view_of d' = View (obtained (view_of d)) (sent (view_of d)) (freed (view_of d) ++ pkts) (contents (view_of d)) /\
    delivered_count cl' = count_answers (delivered_count cl) ps /\
    logged cl' = logged cl ++ List.concat (latency_line <$> burst_latencies (client_start cl) d (zip pkts ps)).
Proof.
  revert ps. induction pkts as [|m pkts IH]; intros ps cl d n Hok Hnd Hin; cbn [packet_handler].
  { apply Forall2_nil_inv_l in Hin as ->. exists cl, d. cbn. rewrite !app_nil_r. unfold count_answers. cbn [omap list_omap length].
    rewrite Z.mod_small by (destruct Hok as (_ & _ & ?); lia). rewrite Z.add_0_r. by destruct (view_of d). }
  apply Forall2_cons_inv_l in Hin as (pkt & ps' & [Hget Hlen] & Hin & ->). apply NoDup_cons in Hnd as [Hm Hnd].
  destruct (paxos_handler_spec cl d m pkt Hok Hget Hlen) as (ret & cl1 & d1 & -> & Hret & Hok1 & Hv1 & Hg1 & Hs1 & Hc1 & Hl1).
  cbn [mbind option_bind]. rewrite (proj2 (Z.ltb_lt ret 0)) by done.
  destruct (IH ps' cl1 (rte_pktmbuf_free d1 m) n Hok1 Hnd) as (cl' & d' & -> & Hok' & Hv & Hc & Hl).
  { apply Forall2_same_length_lookup in Hin as [Hlen' Hin]. apply Forall2_same_length_lookup. split; [done|].
    intros i x pkt' Hx Hp. destruct (Hin i x pkt' Hx Hp) as [Hget' Hl']. split; [|exact Hl'].
    rewrite free_get_law by (intros ->; by apply Hm, (list_elem_of_lookup_2 _ i)). by rewrite Hg1. }
  exists cl', d'. split; [done|]. split; [done|]. split_and!.
  - rewrite Hv, free_law, Hv1. cbn. by rewrite <- app_assoc.
  - rewrite Hc. apply count_answers_cons; [|exact Hc1]. destruct Hok as (_ & _ & ?). lia.
  - rewrite Hl, Hs1. cbn [zip zip_with burst_latencies]. destruct (request_time _ pkt) as [ts|].
    + destruct (rte_get_timer_cycles d) as [now d2]. destruct Hl1 as [-> ->]. cbn. by rewrite <- app_assoc.
    + by destruct Hl1 as [-> ->].
Qed.

(** C38. The client frees every packet of a burst exactly once and keeps none; it
    counts the answers; and what it logs is one line for each answer whose request
    was sent after its start, in the order of the answers: in decimal, the time the
    clock shows when the packet is looked at minus the time of the request, modulo
    2^64.  Its buffer never overflows, whatever the latencies are, and what is still
    in the buffer is written in the end.  The packets of the burst are distinct and
    each holds the bytes of the headers (78), which the client does not check. *)
Theorem xclient_burst cl d port burst pkts ps d1 :
  client_ok cl -> rte_eth_rx_burst d port 0 burst = (pkts, d1) -> NoDup pkts ->
  Forall2 (fun m pkt => mbuf_get d1 m = Some pkt /\ 78 <= Z.of_nat (length (data pkt))) pkts ps ->
  exists cl' d', packet_handler cl d1 pkts 0 = Some (0, cl', d') /\ client_ok cl' /\
    freed (view_of d') = freed (view_of d) ++ pkts /\ obtained (view_of d') = obtained (view_of d) ++ pkts /\
    sent (view_of d') = sent (view_of d) /\ delivered_count cl' = count_answers (delivered_count cl) ps /\
    logged cl' = logged cl ++ List.concat (latency_line <$> burst_latencies (client_start cl) d1 (zip pkts ps)) /\
    destroy_client cl' = Some (logged cl').
Proof.
  intros Hok Hrx Hnd Hps. destruct (rx_burst_law _ _ _ _ _ _ Hrx) as (_ & _ & Hv).
  destruct (packet_handler_spec pkts ps cl d1 0 Hok Hnd Hps) as (cl' & d' & Hh & Hok' & Hv' & Hc & Hl).
  exists cl', d'. rewrite Hv', Hv. split_and!; try done. unfold destroy_client, logged.
  destruct Hok' as (Hl1 & Hl2 & _). unfold CHUNK_SIZE in *. destruct (Z.ltb_spec 0 (client_count cl')) as [?|?].
  - assert (read_at (file_buffer cl') 0 (client_count cl') = Some (take (Z.to_nat (client_count cl')) (file_buffer cl'))) as ->; [|done].
    apply read_at_Some. split_and!; [lia..|]. change (Z.to_nat 0) with O. by rewrite drop_0.
  - assert (client_count cl' = 0) as -> by lia. change (Z.to_nat 0) with O. by rewrite app_nil_r.
Qed.
End burst.

(** ** Two flaws *)

Lemma for_ext {S : Type} n (f g : Z -> S -> option S) : (forall i s, f i s = g i s) -> forall i s, for_ n i f s = for_ n i g s.
Proof. intros H. induction n as [|n IH]; intros i s; cbn [for_]; [done|]. rewrite H. destruct (g i s); [apply IH|done]. Qed.

(** All first requests of a worker are the first one of the array: the others are
    never read. *)
Lemma only_first_request {D : Dpdk} {E : Eth} `{KH : KHash T} {H CB : Type} (a : app_params (worker_state T H CB)) c d w id n req :
  (8 <= length req)%nat ->
  submit_bulk a c d w id n (Some req) sizeof_request = submit_bulk a c d w id n (Some (take 8 req)) sizeof_request.
Proof.
  intros Hl. assert (forall old, copy_value old req 8 = copy_value old (take 8 req) 8) as Hcopy.
  { intros old. unfold copy_value. assert (read_at req 0 8 = Some (take 8 req)) as -> by (apply read_at_Some; split_and!; [lia..|done]).
    assert (read_at (take 8 req) 0 8 = Some (take 8 req)) as ->; [|done]. apply read_at_Some. rewrite length_take.
    split_and!; [lia..|]. change (Z.to_nat 0) with O. change (Z.to_nat 8) with 8%nat. by rewrite drop_0, take_take. }
  unfold submit_bulk. destruct (worker_pool a id) as [[lc pl]|]; [|done]. cbn [mbind option_bind].
  destruct (rte_pktmbuf_alloc_bulk d pl n) as [[pkts|] d1]; [|done].
  unfold send_all. rewrite (for_ext (Z.to_nat n) _ (fun i '(d, w) =>
    m ← arr_get pkts i;
    '(d, w) ← (let req' := u32 (request_id (worker_paxos w) + i) in let '(ts, d) := rte_get_timer_cycles d in
               d ← message c d m (paxos_leader c) (msgtype c) 0 0 (u8 id) req' ts (Some (take 8 req)) sizeof_request; Some (d, w));
    w ← push_out w (tx_port c) m; Some (d, w))); [done|].
  intros i [d2 w2]. destruct (arr_get pkts i) as [m|]; [|done]. cbn [mbind option_bind]. destruct (rte_get_timer_cycles d2) as [ts d3].
  unfold message, prepare_paxos_message, set_paxos_hdr, sizeof_request. cbn [Z.ltb Z.compare].
  destruct (mbuf_get d3 m) as [pkt|]; [|done]. cbn [mbind option_bind]. destruct (set_ether_hdr _ _ _ _ _) as [p|]; [|done].
  cbn [mbind option_bind]. destruct (get_paxos_hdr _ _) as [h|]; [|done]. cbn [mbind option_bind]. by rewrite Hcopy.
Qed.

(** A first-in first-out queue for a scheduler. *)
Definition fifo : Sched :=
  {| sched := list Z; sched_qlen l := Z.of_nat (length l); rte_sched_port_enqueue s l := (Z.of_nat (length l), s ++ l);
     rte_sched_port_dequeue s n := (take (Z.to_nat n) s, drop (Z.to_nat n) s) |}.

Definition client_conf (n : Z) : p4xos_configuration :=
  P4xosConfiguration 3 0 8 0 0 zero_sockaddr (SockaddrIn P4XOS_PORT 6) (SockaddrIn P4XOS_PORT 7) zero_sockaddr zero_sockaddr n
    100 0 0 0 0 0 0 0 0 0 0 0 0 None.
Definition client_dev : sim_dev :=
  SimDev (View [] [] [] (fun _ => [])) {[7 := sim_blank]} [] 1 0.

(** One packet with one reference is given to the card three times. *)
Lemma base_packet_sent_again :
  let D := sim false in let E := sim_eth in let S := fifo in
  exists cl d s, submit_requests (client_conf 3) 7 init_client client_dev ([] : list Z) = Some (3, cl, d, s) /\
    P4Dpdk.sent (sim_view d) = [(0, 7); (0, 7); (0, 7)] /\ length (s : list Z) = 61%nat.
Proof. intros D E S. eexists _, _, _. split; [vm_compute; reflexivity|]. by split. Qed.

(** *** A witness *)

Lemma sim_clock : @ClockLaws (sim false) (sim_laws false).
Proof. by constructor. Qed.

(** An answer of the request sent at the time 5, and a packet that is no message. *)
Definition answer_packet : rte_mbuf :=
  default sim_blank (@prepare_paxos_message sim_eth sim_blank 0 (SockaddrIn P4XOS_PORT 7) (SockaddrIn P4XOS_PORT 6) PAXOS_CHOSEN 1 0 0 0 0 5 None 0).
Definition answer_dev : sim_dev :=
  SimDev (View [] [] [] (fun _ => [])) {[7 := answer_packet; 8 := sim_blank]} [7; 8] 1 105.

Lemma xclient_burst_witness :
  let D := sim false in let E := sim_eth in
  exists cl d', packet_handler init_client (@rte_eth_rx_burst (sim false) answer_dev 0 0 32).2 [7; 8] 0 = Some (0, cl, d') /\
    freed (view_of (DpdkLaws := sim_laws false) d') = [7; 8] /\ delivered_count cl = 1 /\
    logged cl = latency_line 100.
Proof.
  intros D E.
  destruct (@xclient_burst E D (sim_laws false) sim_clock init_client answer_dev 0 32 [7; 8] [answer_packet; sim_blank]
    (@rte_eth_rx_burst (sim false) answer_dev 0 0 32).2)
    as (cl & d' & Hh & _ & Hf & _ & _ & Hc & Hl & _).
  - split; [reflexivity|vm_compute; by repeat split].
  - vm_compute. reflexivity.
  - repeat constructor; set_solver.
  - repeat constructor; vm_compute; by repeat split.
  - exists cl, d'. split; [exact Hh|]. split; [exact Hf|]. split; [rewrite Hc; by vm_compute|].
    rewrite Hl. by vm_compute.
Defined.

(** The file that is written for this burst. *)
Lemma answer_logged :
  let D := sim false in let E := sim_eth in
  (fun r => logged r.1.2) <$> packet_handler init_client (@rte_eth_rx_burst (sim false) answer_dev 0 0 32).2 [7; 8] 0 =
  Some [x31; x30; x30; x0a].
Proof. vm_compute. reflexivity. Qed.
